(* ===== verification/_CoqProject ===== *)
-Q . S2P
Prelude.v
Types.v
TcpState.v
Mem.v
Headers.v
Dpdk.v
Dlist.v
Session.v
SessionInv.v
SessionSpec.v
SessionThms.v
SessionProps.v
Checksum.v
ChecksumThms.v
Parser.v
ParserThms.v
Forward.v
ForwardThms.v
ForwardProps.v
Steering.v
Scheduler.v
SchedulerThms.v
MaglevThms.v
SchedulerProps.v
Config.v
Snapshot.v
SnapshotThms.v
ManagerThms.v
ManagerProps.v
Neigh.v
NeighProps.v
Context.v
SessionView.v
Processor.v
ProcessorInv.v
ProcessorThms.v
ProcessorNew.v
ProcessorHandlers.v
LocalThms.v
ProcessorMain.v
ProcessorStart.v
ProcessorProps.v
Worker.v
ProcessorFrame.v
WorkerThms.v
WorkerProps.v
Receiver.v
ReceiverProps.v
HealthCheck.v
Master.v
HealthThms.v
MasterThms.v
HealthProps.v
Text.v
Print.v
ConfigText.v
ConfigProps.v
Control.v
ControlProps.v
Stdio.v
Logger.v
LoggerThms.v
LoggerSteps.v
LoggerRotate.v
LoggerStream.v
LoggerProps.v
Port.v
PortProps.v
Main.v
MainProps.v
Double.v
Report.v
ReportThms.v
ReportNames.v
ReportProps.v
ControlIo.v
ControlIoProps.v
Shutdown.v
RsEpoll.v
RsUring.v
