(* ===== verification/Prelude.v ===== *)
(** * A layer-4 load balancer on DPDK

    The program (src/) balances TCP and UDP connections to virtual addresses
    over real servers.  Worker threads poll NIC queues (or, in pipeline mode,
    rings filled by a receiver thread) and process each packet to completion:
    parse it, find or create a session, rewrite it (FULLNAT or direct routing)
    and send it.  Flows are owned by one worker; packets that arrive at another
    are handed over on a ring.  The master thread owns the neighbour table and
    the health checker.  A control thread edits the desired state and publishes
    immutable snapshots of it, which workers read.  A logger thread writes the
    log; main reads the configuration, sets up the NIC, starts the threads and, at
    the end, waits for them and releases what it took.  RS_Src/ has two real
    servers to measure it with.

    ** Parts and files

    - Types, Mem, Headers, Dpdk: include/common/types.h and
      include/protocol/*.h.  A packet is the list of its bytes; structs laid over
      it are offsets, and every access is checked: out of bounds is a fault
      ([None] of the state monad [ST] of Mem).  DPDK's hash tables, hash
      functions, packet buffers, queues, rings and clock are classes
      ([RteHash], [RteHashFns], [RteMbuf], [RteIo], and [RteCtl] in HealthCheck)
      with their documented behaviour as classes of laws, and each has an
      instance that satisfies them.
    - TcpState: src/lb/tcp_state.cpp.
    - Dlist, Session, SessionInv, SessionSpec, SessionThms, SessionProps,
      SessionView: src/lb/session.cpp: the session table with its hash, free
      stack and timing wheel of intrusive lists; its invariant; the abstract map
      of sessions it refines.
    - Checksum, ChecksumThms: include/protocol/checksum.h,
      src/protocol/checksum.cpp and icmp.cpp.
    - Parser, ParserThms: src/protocol/parser.cpp.
    - Forward, ForwardThms, ForwardProps: src/forward/nat_forwarder.cpp.
    - Steering: src/dataplane/steering.cpp and include/net/route.h.
    - Scheduler, SchedulerThms, MaglevThms, SchedulerProps: src/lb/scheduler.cpp.
    - Config: the data of include/common/config.h and validate of
      src/common/config.cpp.  Text, ConfigText, ConfigProps: reading the file,
      with what it uses of the C and C++ string functions; inet_pton is a
      parameter ([Inet]).
    - Snapshot, SnapshotThms, ManagerThms, ManagerProps: src/ctrl/snapshot.cpp.
    - Control, ControlProps: the commands and the loop of src/ctrl/control.cpp;
      ControlIo, ControlIoProps: its socket and the text of its replies.
    - Neigh, NeighProps: src/net/neigh.cpp.
    - Context: include/common/stats.h, include/dataplane/context.h and
      src/dataplane/context.cpp.
    - Processor: src/core/processor.cpp, every handler of a packet.
      ProcessorInv states the worker's invariant; ProcessorThms, ProcessorNew,
      ProcessorHandlers, LocalThms and ProcessorMain prove one weakest
      precondition lemma per function; ProcessorStart starts the invariant;
      ProcessorProps has the theorems.  ProcessorFrame shows what the
      processor does not touch.
    - Worker, WorkerThms, WorkerProps: the loops of src/dataplane/worker.cpp.
    - Receiver, ReceiverProps: src/dataplane/receiver.cpp.
    - HealthCheck, HealthThms, HealthProps: src/ctrl/healthcheck.cpp.
    - Master, MasterThms, and Module MasterProps of HealthProps:
      src/dataplane/master.cpp.
    - Print: numbers and addresses as text (src/common/types.cpp).
    - Stdio: the C library's streams and the file system as the logger uses them.
    - Logger: src/common/logger.cpp: [Shared] is the queue under the mutex, [Own]
      the writer's file; LoggerSteps interleaves callers, writer, shutdown and
      signals as a step relation whose steps are the critical sections;
      LoggerThms, LoggerRotate, LoggerStream (with LoggerDirs) hold the lemmas on the
      writer, rotation, the DPDK stream and directories; LoggerProps the theorems.
    - Port, PortProps: src/dataplane/port.cpp.  The NIC ([Nic]) answers calls as
      any function of all calls before.
    - Main, MainProps: src/main.cpp up to the running threads, and the exits.
    - Shutdown: the rest of src/main.cpp.  Memory is a list of blocks, a pointer
      names a block or is null, and freeing what is not there is undefined
      behaviour; main, the control thread, the master and the lcores are a step
      relation from the first thread that is created to the end of main.
    - RsEpoll: RS_Src/epoll_server/simple_server_mt.c.  RsUring:
      RS_Src/iouring_server/server_mt.c.  The kernel and io_uring are classes
      ([Sockets], [Uring]) with laws; what a thread allocates is a heap of requests.
    - Double: C++ doubles (the Standard Library's IEEE 754 specification) and
      printf's %f.  Report, ReportThms, ReportNames, ReportProps: the
      reports of src/dataplane/worker.cpp, src/common/stats.cpp and
      src/ctrl/snapshot.cpp, what the master logs of them, and the messages of
      Config::dump.

    Files with a model have the name of the component; *Inv and *Thms hold
    invariants and lemmas, *Props the theorems about the program.

    ** What is shown

    - Packets: every frame of at most 65535 bytes gets a verdict without a
      fault, and the worker's invariant holds afterwards; parsing accepts exactly
      the well-formed packets; rewriting changes only what it should and keeps
      every checksum valid, incrementally as by recomputation; a server's answer
      to a forwarded packet goes back to the client, unless its next hop has no
      MAC address or its TTL is used up; ICMP echo and ARP (for addresses other
      than 0.0.0.0) are answered exactly when they should be.  All of it holds
      with checksums computed in software and with the NIC's: the statements are
      about the frame on the wire ([NicTx] of ForwardThms says what the NIC does
      with the flags of a packet).
    - Sessions: over every history of calls as the packet path makes them, with
      deadlines the timing wheel can hold, the table refines a map from
      connections to sessions, both keys lead to the same entry, no slot is lost,
      expiry terminates and removes only what is due, and all of that with fewer
      than 4096 sessions.  The state of a TCP connection says exactly which
      packets were seen.
    - Scheduling: only usable servers are chosen; weighted round robin is exact
      over a cycle; Maglev's table is filled.
    - Control: a configuration text that is accepted has every value in range and
      starts the load balancer; after any sequence of control operations, down to
      the text of the commands, the published snapshot answers lookups as the
      desired state does (of addresses other than 0.0.0.0, which marks an empty
      slot) and has what the packet path relies on; every reply tells what
      happened; server ids are not reused.  The packet path's reliance needs fewer
      than 16384 configured servers.
    - Threads: the worker, receiver and master loops return every round, keep
      their invariants and account for every packet; every RX queue has one
      poller; the receiver chooses the owner the worker would choose for TCP and
      UDP.  The worker's theorem assumes of time that the uptime in milliseconds
      is below 2^64 and that rounds are fast ([paced] of WorkerProps): no
      2048 * (capacity / 4096 + 1) rounds in a row take more than [slack] seconds,
      where timeouts and [slack] stay below 4093 s; that every deadline then fits
      the wheel is proved.
    - Neighbours and health: equal generations mean equal answers, short of a
      wrap-around of the generation; floods do not
      displace static entries; a server changes state exactly after its run of
      results; a probe's answer finds its probe; ports of probes are exclusive
      as long as there are at most 1000 servers.
    - Logging: in every interleaving of the threads each accepted line is written
      once and in order, drops are counted, and shutdown ends with everything
      written and the file closed; the files on disk are an abstract rotating log of bounded size;
      DPDK's stream is split into lines however it is cut; a log that cannot be
      opened does not stop the program; rate limits hold under races.
    - Start-up: with any NIC a port that starts has queues and steering that fit
      the workers and only offloads the NIC has, and the queue that the
      redirection table read back from it gives a flow is polled by the flow's
      owner; every start ends in an exit with the log written or in a system whose
      loops then run safely, one per lcore (none if the master thread cannot be
      created).
    - Shutdown: in every interleaving nothing is released that a thread still
      uses and nothing twice; once the signal has come every run ends, with the
      rings empty, all memory but the packet pool given back and the log closed.
    - Real servers: neither uses a closed descriptor or freed memory; pipelined
      requests read whole are answered one by one, completely if the kernel takes
      every response whole; with io_uring every open
      connection has exactly one operation pending and accept stays armed, if the
      limit on open files is below the size of the ring and memory can be had.
    - Reports: the counters can be read back with unique keys and exact sums; the
      periodic differences add up; a control client gets its whole answer whatever
      the sizes of reads and writes; the socket is always given back.
    - Defects: theorems exhibit behaviour the code does not intend: sessions
      with timeouts beyond the wheel, 0.0.0.0 as a local address, a server id past
      the counters, the overflow of the uptime, probe ports taken over, a service
      index cut to 16 bits, an empty port number, requests cut in two by a read,
      and a full ring that ends accepting.

    ** Integers, fuel and time

    Machine integers are Z with the wrap-around written out ([u8] ... [u64]).
    Loops whose end is data dependent take fuel from the data (the capacity of a
    table, the length of a list, the number of ports), and the theorems show it
    is never used up; where it would be, the function faults.  Unbounded loops
    (worker, receiver, master) are functions of the list of rounds, and the
    theorems hold for every list.  The master's inner loop over its event ring
    takes the number of batches as an argument, and its theorem holds for every
    number.  The logger's write_line and rotate call each other with fuel 2, which
    is shown to be enough.  A drained ring gives at most its size in packets, the
    accept loop ends at the limit on open files, and a ring of QUEUE_DEPTH entries
    has no more completions than that at once.  Times in the reports are doubles; their conversion
    back to integers is shown to be defined for 2^28 seconds of uptime.

    ** Not modelled

    Each thread of the data plane is modelled on its own: what other threads do
    shows as what the rings, queues and snapshots deliver and as the neighbour
    table each packet meets (the master changes it while workers run; during one
    packet it is taken to be the same), and RCU's reclamation is DPDK's.  Packets are in one segment, as the program requires.  A report
    reads all counters at one moment.  stdio does not fail in writing.  Left out
    are the wording of progress messages in the log, signal delivery but for its
    flags, the shims of src/common/dpdk_ring.c that call DPDK's inline functions,
    main of the two servers, which only creates the threads, and the traffic
    generators, scripts and unit tests. *)
From Stdlib Require Export ZArith Lia.
From stdpp Require Export prelude gmap.
#[global] Open Scope Z_scope.

(** ** Machine integers

    A w-bit unsigned value is a [Z]; every place where the source narrows or
    wraps goes through one of these. *)
Definition u8 (x : Z) : Z := x mod 256.
Definition u16 (x : Z) : Z := x mod 65536.
Definition u32 (x : Z) : Z := x mod 4294967296.
Definition u64 (x : Z) : Z := x mod 18446744073709551616.

Definition is_u8 (x : Z) : Prop := 0 <= x < 256.
Definition is_u16 (x : Z) : Prop := 0 <= x < 65536.
Definition is_u32 (x : Z) : Prop := 0 <= x < 4294967296.
Definition is_u64 (x : Z) : Prop := 0 <= x < 18446744073709551616.

(** Two's-complement narrowing to [int64_t]. *)
Definition i64 (x : Z) : Z :=
  (x + 9223372036854775808) mod 18446744073709551616 - 9223372036854775808.

Create HintDb mword.

Ltac zwrap := unfold u8, u16, u32, u64, i64, is_u8, is_u16, is_u32, is_u64 in *.

(** [lia] with [/] and [mod] turned into equations. *)
Ltac zlia := zwrap; Z.to_euclidean_division_equations; lia.

Lemma u8_is x : is_u8 (u8 x).
Proof. zlia. Qed.
Lemma u16_is x : is_u16 (u16 x).
Proof. zlia. Qed.
Lemma u32_is x : is_u32 (u32 x).
Proof. zlia. Qed.
Lemma u64_is x : is_u64 (u64 x).
Proof. zlia. Qed.
Lemma u8_id x : is_u8 x -> u8 x = x.
Proof. apply Z.mod_small. Qed.
Lemma u16_id x : is_u16 x -> u16 x = x.
Proof. apply Z.mod_small. Qed.
Lemma u32_id x : is_u32 x -> u32 x = x.
Proof. apply Z.mod_small. Qed.
Lemma u64_id x : is_u64 x -> u64 x = x.
Proof. apply Z.mod_small. Qed.
Lemma i64_id x :
  -9223372036854775808 <= x < 9223372036854775808 -> i64 x = x.
Proof. intros. unfold i64. rewrite Z.mod_small; lia. Qed.

#[export] Hint Resolve u8_is u16_is u32_is u64_is : mword.

(** Byte order: the data plane runs on a little-endian host. *)
Definition bswap16 (v : Z) : Z := (v mod 256) * 256 + (v / 256) mod 256.
Definition bswap32 (v : Z) : Z :=
  (v mod 256) * 16777216 + ((v / 256) mod 256) * 65536
  + ((v / 65536) mod 256) * 256 + (v / 16777216) mod 256.
Definition htons (v : Z) : Z := bswap16 v.
Definition ntohs (v : Z) : Z := bswap16 v.
Definition htonl (v : Z) : Z := bswap32 v.
Definition ntohl (v : Z) : Z := bswap32 v.

Lemma bswap16_is v : is_u16 (bswap16 v).
Proof. unfold bswap16. zlia. Qed.
Lemma bswap16_invol v : is_u16 v -> bswap16 (bswap16 v) = v.
Proof. unfold bswap16. intros. zlia. Qed.
Lemma bswap32_is v : is_u32 (bswap32 v).
Proof. unfold bswap32. zlia. Qed.

Lemma bswap32_digits a b c d :
  is_u8 a -> is_u8 b -> is_u8 c -> is_u8 d ->
  bswap32 (a + 256 * b + 65536 * c + 16777216 * d)
  = d + 256 * c + 65536 * b + 16777216 * a.
Proof.
  unfold is_u8, bswap32. intros.
  replace ((a + 256 * b + 65536 * c + 16777216 * d) mod 256) with a by zlia.
  replace ((a + 256 * b + 65536 * c + 16777216 * d) / 256)
    with (b + 256 * c + 65536 * d) by zlia.
  replace ((a + 256 * b + 65536 * c + 16777216 * d) / 65536)
    with (c + 256 * d) by zlia.
  replace ((a + 256 * b + 65536 * c + 16777216 * d) / 16777216) with d by zlia.
  replace ((b + 256 * c + 65536 * d) mod 256) with b by zlia.
  replace ((c + 256 * d) mod 256) with c by zlia.
  rewrite (Z.mod_small d) by lia. lia.
Qed.

Lemma u32_digits v :
  is_u32 v -> exists a b c d, is_u8 a /\ is_u8 b /\ is_u8 c /\ is_u8 d /\
    v = a + 256 * b + 65536 * c + 16777216 * d.
Proof.
  intros. exists (v mod 256), ((v / 256) mod 256), ((v / 65536) mod 256), (v / 16777216).
  assert (v / 65536 = v / 256 / 256) by (rewrite Z.div_div by lia; f_equal).
  assert (v / 16777216 = v / 256 / 256 / 256) by (rewrite !Z.div_div by lia; f_equal).
  zlia.
Qed.

Lemma bswap32_invol v : is_u32 v -> bswap32 (bswap32 v) = v.
Proof.
  intros (a & b & c & d & Ha & Hb & Hc & Hd & ->)%u32_digits.
  rewrite bswap32_digits by done.
  by rewrite bswap32_digits.
Qed.

#[export] Hint Resolve bswap16_is bswap32_is : mword.

(** Turn boolean tests in the hypotheses into propositions. *)
Ltac bprop :=
  repeat match goal with
  | H : (_ || _) = false |- _ => apply orb_false_iff in H; destruct H
  | H : (_ && _) = true |- _ => apply andb_true_iff in H; destruct H
  | H : negb _ = true |- _ => apply negb_true_iff in H
  | H : negb _ = false |- _ => apply negb_false_iff in H
  | H : (_ <? _) = true |- _ => apply Z.ltb_lt in H
  | H : (_ <? _) = false |- _ => apply Z.ltb_ge in H
  | H : (_ <=? _) = true |- _ => apply Z.leb_le in H
  | H : (_ <=? _) = false |- _ => apply Z.leb_gt in H
  | H : (_ =? _) = true |- _ => apply Z.eqb_eq in H
  | H : (_ =? _) = false |- _ => apply Z.eqb_neq in H
  | H : (_ >? _) = _ |- _ => rewrite Z.gtb_ltb in H
  | H : (_ >=? _) = _ |- _ => rewrite Z.geb_leb in H
  | H : bool_decide _ = true |- _ => apply bool_decide_eq_true in H
  | H : bool_decide _ = false |- _ => apply bool_decide_eq_false in H
  end.
