(* ===== verification/Types.v ===== *)
(** Common data types of the load balancer: include/common/types.h.

    Addresses, ports and MACs are kept as the source keeps them: an IPv4
    address or a port is the integer whose little-endian memory image is the
    network-order field, a MAC is a list of six bytes. *)
From S2P Require Import Prelude.

(** IPv4Addr, Port: [Z] in [0, 2^32) and [0, 2^16). *)
Abbreviation IPv4Addr := Z (only parsing).
Abbreviation Port := Z (only parsing).
Abbreviation MacAddr := (list Z) (only parsing).

Definition MAC_ADDR_LEN : Z := 6.

(** enum class EtherType / IPProtocol *)
Definition EtherType_IPv4 : Z := 2048.
Definition EtherType_ARP : Z := 2054.
Definition IPProtocol_ICMP : Z := 1.
Definition IPProtocol_TCP : Z := 6.
Definition IPProtocol_UDP : Z := 17.

Inductive ForwardMode := NAT | DR.
#[export] Instance ForwardMode_eq_dec : EqDecision ForwardMode.
Proof. solve_decision. Defined.

Record FiveTuple := mkFiveTuple {
  src_ip : IPv4Addr;
  dst_ip : IPv4Addr;
  src_port : Port;
  dst_port : Port;
  protocol : Z
}.

#[export] Instance FiveTuple_eq_dec : EqDecision FiveTuple.
Proof. solve_decision. Defined.

#[export] Instance FiveTuple_countable : Countable FiveTuple.
Proof.
  apply (inj_countable'
    (fun t => (src_ip t, dst_ip t, src_port t, dst_port t, protocol t))
    (fun '(a, b, c, d, e) => mkFiveTuple a b c d e)).
  by intros [].
Defined.

(** The default constructor zeroes the whole structure. *)
Definition FiveTuple_zero : FiveTuple := mkFiveTuple 0 0 0 0 0.

#[export] Instance FiveTuple_inhabited : Inhabited FiveTuple := populate FiveTuple_zero.

(** operator==: memcmp of the packed 13 bytes. *)
Definition FiveTuple_eqb (a b : FiveTuple) : bool := bool_decide (a = b).

(** FiveTuple::words *)
Definition words (t : FiveTuple) : Z * Z * Z :=
  (src_ip t, dst_ip t,
   Z.lxor (Z.lxor (u32 (Z.shiftl (src_port t) 16)) (dst_port t))
          (u32 (Z.shiftl (protocol t) 8))).

(** FiveTuple::reverse *)
Definition reverse (t : FiveTuple) : FiveTuple :=
  mkFiveTuple (dst_ip t) (src_ip t) (dst_port t) (src_port t) (protocol t).

Definition FiveTuple_wf (t : FiveTuple) : Prop :=
  is_u32 (src_ip t) /\ is_u32 (dst_ip t) /\ is_u16 (src_port t)
  /\ is_u16 (dst_port t) /\ is_u8 (protocol t).

Lemma reverse_involutive t : reverse (reverse t) = t.
Proof. by destruct t. Qed.

Lemma reverse_wf t : FiveTuple_wf t -> FiveTuple_wf (reverse t).
Proof. unfold FiveTuple_wf, reverse; simpl. tauto. Qed.

(** struct PacketMeta: what the parser extracts from a frame. *)
Record PacketMeta := mkPacketMeta {
  meta_src_mac : MacAddr;
  meta_dst_mac : MacAddr;
  meta_ether_type : Z;
  meta_src_ip : IPv4Addr;
  meta_dst_ip : IPv4Addr;
  meta_ip_protocol : Z;
  meta_ip_ttl : Z;
  meta_src_port : Port;
  meta_dst_port : Port;
  meta_tcp_flags : Z;
  meta_l2_offset : Z;
  meta_l3_offset : Z;
  meta_l4_offset : Z;
  meta_payload_offset : Z;
  meta_total_len : Z;
  meta_payload_len : Z
}.

(** PacketMeta::to_five_tuple *)
Definition to_five_tuple (m : PacketMeta) : FiveTuple :=
  mkFiveTuple (meta_src_ip m) (meta_dst_ip m) (meta_src_port m)
              (meta_dst_port m) (meta_ip_protocol m).

(** mac_is_zero *)
Definition mac_is_zero (mac : MacAddr) : bool := forallb (fun b => b =? 0) mac.

Definition mac_zero : MacAddr := replicate 6 0.

Lemma mac_zero_is_zero : mac_is_zero mac_zero = true.
Proof. reflexivity. Qed.

Lemma mac_is_zero_spec mac :
  length mac = 6%nat -> mac_is_zero mac = true <-> mac = mac_zero.
Proof.
  intros Hl. unfold mac_is_zero. rewrite List.forallb_forall. split.
  - intros H. do 6 (destruct mac as [|? mac]; [discriminate|]).
    destruct mac; [|discriminate].
    unfold mac_zero; simpl in *.
    repeat f_equal; apply Z.eqb_eq, H; tauto.
  - intros -> x Hx. simpl in Hx. naive_solver.
Qed.
