(* ===== verification/TcpState.v ===== *)
(** TCP connection tracking: include/lb/tcp_state.h, src/lb/tcp_state.cpp.

    [tcp_next_state] takes the FIN bitmap as an in/out argument, so the model
    returns the new state together with the new bitmap. *)
From S2P Require Import Prelude Types.

Module Tcp.

Definition TCP_FIN : Z := 1.
Definition TCP_SYN : Z := 2.
Definition TCP_RST : Z := 4.
Definition TCP_PSH : Z := 8.
Definition TCP_ACK : Z := 16.

Inductive TcpState :=
  | NONE | SYN_RECV | ESTABLISHED | FIN_WAIT | TIME_WAIT | CLOSE | UDP.

#[export] Instance TcpState_eq_dec : EqDecision TcpState.
Proof. solve_decision. Defined.

Inductive Dir := CLIENT_TO_RS | RS_TO_CLIENT.

#[export] Instance Dir_eq_dec : EqDecision Dir.
Proof. solve_decision. Defined.

(** TimeoutConf of include/common/config.h with its default values. *)
Record TimeoutConf := mkTimeoutConf {
  tcp_syn : Z;
  tcp_established : Z;
  tcp_fin : Z;
  tcp_timewait : Z;
  tcp_close : Z;
  udp : Z
}.

Definition TimeoutConf_default : TimeoutConf := mkTimeoutConf 10 900 10 10 5 60.

(** [flags & bit] as a condition. *)
Definition has_flag (flags bit : Z) : bool := negb (Z.land flags bit =? 0).

Definition self_bit (dir : Dir) : Z :=
  match dir with CLIENT_TO_RS => 1 | RS_TO_CLIENT => 2 end.

Definition tcp_next_state (cur : TcpState) (flags : Z) (dir : Dir) (fin_seen : Z)
  : TcpState * Z :=
  match cur with
  | UDP => (cur, fin_seen)
  | _ =>
    if has_flag flags TCP_RST then (CLOSE, fin_seen)
    else
      let fin_seen :=
        if has_flag flags TCP_FIN then Z.lor fin_seen (self_bit dir) else fin_seen in
      match cur with
      | NONE => (if has_flag flags TCP_SYN then SYN_RECV else cur, fin_seen)
      | SYN_RECV =>
        if bool_decide (dir = CLIENT_TO_RS) && has_flag flags TCP_ACK
           && negb (has_flag flags TCP_SYN)
        then (if fin_seen =? 0 then ESTABLISHED else FIN_WAIT, fin_seen)
        else (cur, fin_seen)
      | ESTABLISHED => (if fin_seen =? 0 then cur else FIN_WAIT, fin_seen)
      | FIN_WAIT => (if fin_seen =? 3 then TIME_WAIT else cur, fin_seen)
      | _ => (cur, fin_seen)
      end
  end.

(** state_timeout *)
Definition state_timeout (s : TcpState) (t : TimeoutConf) : Z :=
  match s with
  | NONE | SYN_RECV => tcp_syn t
  | ESTABLISHED => tcp_established t
  | FIN_WAIT => tcp_fin t
  | TIME_WAIT => tcp_timewait t
  | CLOSE => tcp_close t
  | UDP => udp t
  end.

(** tcp_state_reusable *)
Definition tcp_state_reusable (s : TcpState) : bool :=
  bool_decide (s = TIME_WAIT) || bool_decide (s = CLOSE).

(** One packet seen on a tracked connection. *)
Definition event : Type := Z * Dir.

(** The state machine as a step relation on (state, fin_seen). *)
Inductive tcp_step : TcpState * Z -> event -> TcpState * Z -> Prop :=
  | TcpStep s f flags d :
      tcp_step (s, f) (flags, d) (tcp_next_state s flags d f).

(** Connections as [new_session] creates them: state [NONE], no FIN seen. *)
Inductive reachable : list event -> TcpState * Z -> Prop :=
  | reach_init : reachable [] (NONE, 0)
  | reach_step tr c e c' :
      reachable tr c -> tcp_step c e c' -> reachable (tr ++ [e]) c'.

Definition fin_from (d : Dir) (e : event) : Prop :=
  e.2 = d /\ has_flag e.1 TCP_FIN = true /\ has_flag e.1 TCP_RST = false.

Definition handshake_ack (e : event) : Prop :=
  e.2 = CLIENT_TO_RS /\ has_flag e.1 TCP_ACK = true /\ has_flag e.1 TCP_SYN = false
  /\ has_flag e.1 TCP_RST = false.

Definition syn_packet (e : event) : Prop :=
  has_flag e.1 TCP_SYN = true /\ has_flag e.1 TCP_RST = false.

(** Progress of a connection; a step never decreases it. *)
Definition rank (s : TcpState) : Z :=
  match s with
  | NONE => 0 | SYN_RECV => 1 | ESTABLISHED => 2 | FIN_WAIT => 3
  | TIME_WAIT => 4 | CLOSE => 5 | UDP => 6
  end.

Definition fin_wf (f : Z) : Prop := f = 0 \/ f = 1 \/ f = 2 \/ f = 3.

Lemma lor_fin_wf f d : fin_wf f -> fin_wf (Z.lor f (self_bit d)).
Proof. unfold fin_wf. intros [-> | [-> | [-> | ->]]]; destruct d; cbn; auto. Qed.

Ltac tcp_cases :=
  repeat match goal with
  | |- context [if ?b then _ else _] => destruct b eqn:?
  | H : context [if ?b then _ else _] |- _ => destruct b eqn:?
  end; simplify_eq/=.

Lemma next_state_fin_wf s flags d f :
  fin_wf f -> fin_wf (tcp_next_state s flags d f).2.
Proof. intros. destruct s; simpl; tcp_cases; auto using lor_fin_wf. Qed.

(** A bit of the FIN bitmap is set only by a FIN of that direction. *)
Lemma lor_bit1 f d : fin_wf f ->
  Z.testbit (Z.lor f (self_bit d)) 0 = true <-> Z.testbit f 0 = true \/ d = CLIENT_TO_RS.
Proof.
  unfold fin_wf. intros [-> | [-> | [-> | ->]]]; destruct d; cbn; split;
    auto; intros [?|?]; congruence.
Qed.

Lemma lor_bit2 f d : fin_wf f ->
  Z.testbit (Z.lor f (self_bit d)) 1 = true <-> Z.testbit f 1 = true \/ d = RS_TO_CLIENT.
Proof.
  unfold fin_wf. intros [-> | [-> | [-> | ->]]]; destruct d; cbn; split;
    auto; intros [?|?]; congruence.
Qed.

(** What a reachable (state, fin_seen) says about the packets seen so far. *)
Definition explains (tr : list event) (c : TcpState * Z) : Prop :=
  fin_wf c.2
  /\ (Z.testbit c.2 0 = true -> Exists (fin_from CLIENT_TO_RS) tr)
  /\ (Z.testbit c.2 1 = true -> Exists (fin_from RS_TO_CLIENT) tr)
  /\ (1 <= rank c.1 <= 4 -> Exists syn_packet tr)
  /\ (2 <= rank c.1 <= 4 -> Exists handshake_ack tr)
  /\ (c.1 = TIME_WAIT -> c.2 = 3)
  /\ c.1 <> UDP.

Lemma Exists_snoc_old {A} (P : A -> Prop) l x : Exists P l -> Exists P (l ++ [x]).
Proof. rewrite Exists_app. auto. Qed.
Lemma Exists_snoc_new {A} (P : A -> Prop) l x : P x -> Exists P (l ++ [x]).
Proof. rewrite Exists_app. auto. Qed.

Lemma next_state_fin s flags d f :
  (tcp_next_state s flags d f).2 = f
  \/ (tcp_next_state s flags d f).2 = Z.lor f (self_bit d)
     /\ has_flag flags TCP_FIN = true /\ has_flag flags TCP_RST = false.
Proof. destruct s; simpl; tcp_cases; auto. Qed.

Lemma next_state_rank s flags d f :
  rank s <= rank (tcp_next_state s flags d f).1.
Proof. destruct s; simpl; tcp_cases; simpl; lia. Qed.

Lemma next_state_leaves_none s flags d f :
  rank s = 0 -> 1 <= rank (tcp_next_state s flags d f).1 <= 4 ->
  syn_packet (flags, d).
Proof. destruct s; simpl; try lia; tcp_cases; simpl; try lia; by intros. Qed.

Lemma next_state_establishes s flags d f :
  rank s <= 1 -> 2 <= rank (tcp_next_state s flags d f).1 <= 4 ->
  handshake_ack (flags, d).
Proof.
  unfold handshake_ack.
  destruct s; simpl; try lia; tcp_cases; simpl; try lia; intros _ _;
  repeat match goal with
  | H : (_ && _)%bool = true |- _ => apply andb_true_iff in H as []
  | H : bool_decide _ = true |- _ => apply bool_decide_eq_true in H
  | H : negb _ = true |- _ => apply negb_true_iff in H
  end; auto.
Qed.

Lemma next_state_time_wait s flags d f :
  (s = TIME_WAIT -> f = 3) -> (tcp_next_state s flags d f).1 = TIME_WAIT ->
  (tcp_next_state s flags d f).2 = 3.
Proof.
  destruct s; simpl; intros H; tcp_cases; intros; try discriminate;
    try (rewrite H by done; by destruct d); try (by apply H); by apply Z.eqb_eq.
Qed.

Lemma next_state_not_udp s flags d f :
  s <> UDP -> (tcp_next_state s flags d f).1 <> UDP.
Proof. destruct s; simpl; intros; tcp_cases; congruence. Qed.

Lemma step_explains tr c e c' :
  explains tr c -> tcp_step c e c' -> explains (tr ++ [e]) c'.
Proof.
  intros (Hwf & Hc & Hr & Hs & Ha & Htw & Hu) Hst.
  destruct Hst as [s f flags d]; cbn [fst snd] in *.
  pose proof (next_state_rank s flags d f).
  split; [by apply next_state_fin_wf|].
  split_and!; [| | | | by apply next_state_time_wait | by apply next_state_not_udp].
  - intros Hb. destruct (next_state_fin s flags d f) as [E | (E & ? & ?)]; rewrite E in Hb.
    + apply Exists_snoc_old; auto.
    + apply lor_bit1 in Hb as [Hb | ->]; [apply Exists_snoc_old; auto | | done].
      by apply Exists_snoc_new.
  - intros Hb. destruct (next_state_fin s flags d f) as [E | (E & ? & ?)]; rewrite E in Hb.
    + apply Exists_snoc_old; auto.
    + apply lor_bit2 in Hb as [Hb | ->]; [apply Exists_snoc_old; auto | | done].
      by apply Exists_snoc_new.
  - intros Hk. destruct (decide (rank s = 0)).
    + apply Exists_snoc_new. by eapply next_state_leaves_none.
    + apply Exists_snoc_old, Hs. destruct s; simpl in *; lia.
  - intros Hk. destruct (decide (rank s <= 1)).
    + apply Exists_snoc_new. by eapply next_state_establishes.
    + apply Exists_snoc_old, Ha. lia.
Qed.

Lemma reachable_explains tr c : reachable tr c -> explains tr c.
Proof.
  induction 1 as [|tr c e c' _ IH Hst].
  - unfold explains, fin_wf; simpl. repeat split; intros; try discriminate; try lia; auto.
  - eauto using step_explains.
Qed.

(** A connection is in TIME_WAIT only after the packets seen on it include a SYN,
    the client's handshake ACK and a FIN from each side: what the comment at
    tcp_state.cpp:59 says of an acknowledged FIN is not in the code. *)
Lemma time_wait_needs_full_close tr f :
  reachable tr (TIME_WAIT, f) ->
  f = 3 /\ Exists syn_packet tr /\ Exists handshake_ack tr
  /\ Exists (fin_from CLIENT_TO_RS) tr /\ Exists (fin_from RS_TO_CLIENT) tr.
Proof.
  intros (Hwf & Hc & Hr & Hs & Ha & Htw & _)%reachable_explains; simpl in *.
  rewrite Htw in * by done. split; [done|].
  split; [apply Hs; lia|]. split; [apply Ha; lia|]. auto.
Qed.

Definition full_close_trace : list event :=
  [(TCP_SYN, CLIENT_TO_RS); (TCP_SYN + TCP_ACK, RS_TO_CLIENT);
   (TCP_ACK, CLIENT_TO_RS); (TCP_FIN + TCP_ACK, CLIENT_TO_RS);
   (TCP_FIN + TCP_ACK, RS_TO_CLIENT)].

Lemma reach_next tr s f flags d c :
  reachable tr (s, f) -> tcp_next_state s flags d f = c ->
  reachable (tr ++ [(flags, d)]) c.
Proof. intros H <-. eapply reach_step; [exact H | constructor]. Qed.

Lemma full_close_reachable : reachable full_close_trace (TIME_WAIT, 3).
Proof.
  apply (reach_next [_; _; _; _] FIN_WAIT 1); [|reflexivity].
  apply (reach_next [_; _; _] ESTABLISHED 0); [|reflexivity].
  apply (reach_next [_; _] SYN_RECV 0); [|reflexivity].
  apply (reach_next [_] SYN_RECV 0); [|reflexivity].
  apply (reach_next [] NONE 0); [|reflexivity].
  apply reach_init.
Qed.

(** ** The state as a function of the packets seen *)

Definition saw_rst (e : event) : bool := has_flag e.1 TCP_RST.
Definition saw_syn (e : event) : bool := has_flag e.1 TCP_SYN.
Definition saw_fin (e : event) : bool := has_flag e.1 TCP_FIN.

(** The third packet of the handshake: the client's ACK without SYN. *)
Definition saw_ack (e : event) : bool :=
  bool_decide (e.2 = CLIENT_TO_RS) && has_flag e.1 TCP_ACK && negb (has_flag e.1 TCP_SYN).

(** It comes after the first SYN. *)
Fixpoint handshaken (tr : list event) : bool :=
  match tr with
  | [] => false
  | e :: tr => if saw_syn e then existsb saw_ack tr else handshaken tr
  end.

Lemma existsb_snoc {A} (p : A -> bool) l x : existsb p (l ++ [x]) = existsb p l || p x.
Proof. rewrite existsb_app. cbn. by rewrite orb_false_r. Qed.

Lemma handshaken_snoc tr e : handshaken (tr ++ [e]) = handshaken tr || (existsb saw_syn tr && saw_ack e).
Proof.
  induction tr as [|x tr IH]; cbn; [by destruct (saw_syn e)|].
  destruct (saw_syn x); cbn; [apply existsb_snoc|exact IH].
Qed.

Lemma handshaken_syn tr : existsb saw_syn tr = false -> handshaken tr = false.
Proof. induction tr as [|x tr IH]; cbn; [done|]. by destruct (saw_syn x). Qed.

Lemma lor_self_bit f d : fin_wf f -> Z.lor f (self_bit d) =? 0 = false.
Proof. unfold fin_wf. intros [-> | [-> | [-> | ->]]]; by destruct d. Qed.

(** What the state and the bitmap stand for while no RST was seen. *)
Definition tracks (tr : list event) (c : TcpState * Z) : Prop :=
  fin_wf c.2 /\ existsb saw_fin tr = negb (c.2 =? 0) /\
  match c.1 with
  | NONE => existsb saw_syn tr = false
  | SYN_RECV => existsb saw_syn tr = true /\ handshaken tr = false
  | ESTABLISHED => handshaken tr = true /\ existsb saw_fin tr = false
  | FIN_WAIT | TIME_WAIT => handshaken tr = true /\ existsb saw_fin tr = true
  | CLOSE | UDP => False
  end.

Lemma tracks_step tr s f flags d :
  tracks tr (s, f) -> has_flag flags TCP_RST = false -> tracks (tr ++ [(flags, d)]) (tcp_next_state s flags d f).
Proof.
  intros (Hw & Hf & Hs) Hr. cbn [fst snd] in *. split; [by apply next_state_fin_wf|].
  rewrite !existsb_snoc, handshaken_snoc.
  change (saw_fin (flags, d)) with (has_flag flags TCP_FIN). change (saw_syn (flags, d)) with (has_flag flags TCP_SYN).
  unfold saw_ack. cbn [fst snd].
  unfold tcp_next_state. rewrite Hr. pose proof (lor_self_bit f d Hw) as Hl.
  destruct s; try done; cbn [fst snd]; repeat match goal with H : _ /\ _ |- _ => destruct H end;
    destruct (has_flag flags TCP_FIN), (has_flag flags TCP_SYN), (has_flag flags TCP_ACK), (bool_decide (d = CLIENT_TO_RS));
    cbn [andb negb fst snd]; rewrite ?Hl; cbn [negb]; rewrite ?Hf in *;
    destruct (f =? 0) eqn:E; cbn [negb fst snd orb andb] in *;
    repeat match goal with |- context [if ?b then _ else _] => destruct b eqn:? end;
    cbn [fst snd]; rewrite ?E, ?Hl, ?orb_true_r, ?orb_false_r, ?andb_false_r, ?andb_true_r in *;
    repeat match goal with H : _ = _ :> bool |- _ => rewrite H in * end; try done;
    rewrite handshaken_syn by done; done.
Qed.

Lemma reachable_tracks tr c : reachable tr c ->
  c.1 <> UDP /\ if existsb saw_rst tr then c.1 = CLOSE else tracks tr c.
Proof.
  induction 1 as [|tr c e c' _ [Hu IH] Hst]; [split; [done|]; split; [by left|]; by split|].
  destruct Hst as [s f flags d]. cbn [fst snd] in *. split; [by apply next_state_not_udp|].
  rewrite existsb_snoc. change (saw_rst (flags, d)) with (has_flag flags TCP_RST).
  destruct (existsb saw_rst tr) eqn:Er; cbn [orb].
  - subst s. cbn. by destruct (has_flag flags TCP_RST), (has_flag flags TCP_FIN).
  - destruct (has_flag flags TCP_RST) eqn:E; [|by apply tracks_step].
    unfold tcp_next_state. rewrite E. by destruct s.
Qed.

(** C39. The state of a tracked connection says exactly which packets were seen, in
    whatever order they came: CLOSE that there was a RST, and without one NONE that
    there was no SYN, SYN_RECV a SYN and no ACK of the client after it, ESTABLISHED
    the handshake and no FIN, FIN_WAIT or TIME_WAIT the handshake and a FIN.  So a
    connection without a finished handshake never gets the long timeout, only the
    one of the handshake or of a closed connection. *)
Theorem tcp_state_exact tr s f t :
  reachable tr (s, f) ->
  let rst := existsb saw_rst tr in
  let fin := existsb saw_fin tr in
  (s = CLOSE <-> rst = true) /\
  (s = NONE <-> rst = false /\ existsb saw_syn tr = false) /\
  (s = SYN_RECV <-> rst = false /\ existsb saw_syn tr = true /\ handshaken tr = false) /\
  (s = ESTABLISHED <-> rst = false /\ handshaken tr = true /\ fin = false) /\
  (s = FIN_WAIT \/ s = TIME_WAIT <-> rst = false /\ handshaken tr = true /\ fin = true) /\
  (handshaken tr = false -> state_timeout s t = tcp_syn t \/ state_timeout s t = tcp_close t).
Proof.
  intros [Hu H]%reachable_tracks. cbn zeta. cbn [fst snd] in *.
  pose proof (handshaken_syn tr) as Hh. destruct (existsb saw_rst tr).
  - subst s. cbn. naive_solver.
  - destruct H as (_ & _ & H). cbn [fst snd] in H.
    destruct s; cbn; destruct (existsb saw_syn tr), (handshaken tr), (existsb saw_fin tr); naive_solver.
Qed.

(** The packets of a connection until the server closes its side. *)
Lemma tcp_state_exact_witness : handshaken full_close_trace = true /\ existsb saw_fin full_close_trace = true.
Proof.
  destruct (tcp_state_exact full_close_trace TIME_WAIT 3 TimeoutConf_default full_close_reachable) as (_ & _ & _ & _ & H & _).
  apply H. right. reflexivity.
Defined.

End Tcp.
