(* ===== verification/Mem.v ===== *)
(** Packet memory: a state-and-fault monad and little-endian byte access.

    A frame is the list of the bytes of its (first) segment.  Every access of
    the source through a header pointer is a read or write at an offset; an
    access that leaves the segment is a fault ([None]), so a theorem that a
    function returns is also a theorem that it stays inside the frame. *)
From S2P Require Import Prelude.

(** ** The monad *)

Definition ST (S A : Type) : Type := S -> option (A * S).

#[export] Instance ST_ret {S} : MRet (ST S) := fun A a s => Some (a, s).
#[export] Instance ST_bind {S} : MBind (ST S) :=
  fun A B f m s => match m s with Some (a, s') => f a s' | None => None end.
#[export] Instance ST_fmap {S} : FMap (ST S) :=
  fun A B f m s => match m s with Some (a, s') => Some (f a, s') | None => None end.

Definition fault {S A} : ST S A := fun _ => None.
Definition gets {S A} (f : S -> A) : ST S A := fun s => Some (f s, s).
Definition modify {S} (f : S -> S) : ST S unit := fun s => Some (tt, f s).

(** Run a computation on a part of the state. *)
Definition zoom {S T A} (get : S -> T) (set : T -> S -> S) (m : ST T A) : ST S A :=
  fun s => match m (get s) with Some (a, t) => Some (a, set t s) | None => None end.

Definition when {S} (b : bool) (m : ST S unit) : ST S unit := if b then m else mret tt.

(** Total correctness: [m] returns from [s] and the result satisfies [Q]. *)
Definition wp {S A} (m : ST S A) (Q : A -> S -> Prop) (s : S) : Prop :=
  match m s with Some (a, s') => Q a s' | None => False end.

Section Wp.
Context {S : Type}.

Lemma wp_ret {A} (a : A) (Q : A -> S -> Prop) s : Q a s -> wp (mret a) Q s.
Proof. done. Qed.

Lemma wp_bind {A B} (m : ST S A) (f : A -> ST S B) Q s :
  wp m (fun a => wp (f a) Q) s -> wp (m ≫= f) Q s.
Proof. unfold wp, mbind, ST_bind. by destruct (m s) as [[a s']|]. Qed.

Lemma wp_bind2 {A B C} (m : ST S A) (f : A -> ST S B) (g : B -> ST S C) Q s :
  wp (m ≫= f) (fun b => wp (g b) Q) s -> wp (m ≫= fun a => f a ≫= g) Q s.
Proof.
  unfold wp, mbind, ST_bind. destruct (m s) as [[a s']|]; [|done].
  by destruct (f a s') as [[b s'']|].
Qed.

Lemma wp_mono {A} (m : ST S A) (Q R : A -> S -> Prop) s :
  wp m Q s -> (forall a s', Q a s' -> R a s') -> wp m R s.
Proof. unfold wp. destruct (m s) as [[a s']|]; auto. Qed.

Lemma wp_gets {A} (f : S -> A) (Q : A -> S -> Prop) s : Q (f s) s -> wp (gets f) Q s.
Proof. done. Qed.

Lemma wp_modify (f : S -> S) Q s : Q tt (f s) -> wp (modify f) Q s.
Proof. done. Qed.

Lemma wp_zoom {T A} (get : S -> T) set (m : ST T A) Q s :
  wp m (fun a t => Q a (set t s)) (get s) -> wp (zoom get set m) Q s.
Proof. unfold wp, zoom. by destruct (m (get s)) as [[a t]|]. Qed.

Lemma wp_when b (m : ST S unit) Q s :
  (b = true -> wp m Q s) -> (b = false -> Q tt s) -> wp (when b m) Q s.
Proof. destruct b; intros H1 H2; [by apply H1|by apply H2]. Qed.

Lemma wp_run {A} (m : ST S A) Q s : wp m Q s <-> exists a s', m s = Some (a, s') /\ Q a s'.
Proof.
  unfold wp. destruct (m s) as [[a s']|]; split; naive_solver.
Qed.
End Wp.

(** ** Bytes *)

Abbreviation bytes := (list Z) (only parsing).

Definition len {A} (l : list A) : Z := Z.of_nat (length l).

(** The byte at [off]; a frame's bytes are in [0, 256). *)
Definition getb (bs : bytes) (off : Z) : Z := bs !!! Z.to_nat off.

Definition slice (off n : Z) (bs : bytes) : bytes :=
  take (Z.to_nat n) (drop (Z.to_nat off) bs).

Definition put (off : Z) (l bs : bytes) : bytes :=
  take (Z.to_nat off) bs ++ l ++ drop (Z.to_nat (off + len l)) bs.

(** Little-endian encoding, as on the host the data plane runs on. *)
Definition le16 (v : Z) : bytes := [v mod 256; (v / 256) mod 256].
Definition le32 (v : Z) : bytes :=
  [v mod 256; (v / 256) mod 256; (v / 65536) mod 256; (v / 16777216) mod 256].

Fixpoint le_val (l : bytes) : Z :=
  match l with [] => 0 | b :: l => b + 256 * le_val l end.

Definition in_range (off n : Z) (bs : bytes) : bool :=
  (0 <=? off) && (0 <=? n) && (off + n <=? len bs).

Definition rd_bytes (off n : Z) : ST bytes bytes :=
  fun bs => if in_range off n bs then Some (slice off n bs, bs) else None.
Definition wr_bytes (off : Z) (l : bytes) : ST bytes unit :=
  fun bs => if in_range off (len l) bs then Some (tt, put off l bs) else None.

Definition rd8 (off : Z) : ST bytes Z := l ← rd_bytes off 1; mret (le_val l).
Definition rd16 (off : Z) : ST bytes Z := l ← rd_bytes off 2; mret (le_val l).
Definition rd32 (off : Z) : ST bytes Z := l ← rd_bytes off 4; mret (le_val l).
Definition wr8 (off v : Z) : ST bytes unit := wr_bytes off [u8 v].
Definition wr16 (off v : Z) : ST bytes unit := wr_bytes off (le16 v).
Definition wr32 (off v : Z) : ST bytes unit := wr_bytes off (le32 v).

(** Pure views of the fields. *)
Definition get8 (off : Z) (bs : bytes) : Z := le_val (slice off 1 bs).
Definition get16 (off : Z) (bs : bytes) : Z := le_val (slice off 2 bs).
Definition get32 (off : Z) (bs : bytes) : Z := le_val (slice off 4 bs).

(** A frame: every element is a byte. *)
Definition frame (bs : bytes) : Prop := Forall is_u8 bs.

(** ** Lemmas *)

Lemma len_nonneg {A} (l : list A) : 0 <= len l.
Proof. unfold len. lia. Qed.

Lemma len_app {A} (l k : list A) : len (l ++ k) = len l + len k.
Proof. unfold len. rewrite length_app. lia. Qed.

Lemma len_cons {A} (x : A) l : len (x :: l) = 1 + len l.
Proof. unfold len. simpl. lia. Qed.

Lemma in_range_true off n bs :
  in_range off n bs = true <-> 0 <= off /\ 0 <= n /\ off + n <= len bs.
Proof. unfold in_range. rewrite !andb_true_iff, !Z.leb_le. tauto. Qed.

Lemma len_slice off n bs : 0 <= off -> 0 <= n -> off + n <= len bs -> len (slice off n bs) = n.
Proof. unfold len, slice. intros. rewrite length_take, length_drop. lia. Qed.

Lemma len_put off l bs : 0 <= off -> off + len l <= len bs -> len (put off l bs) = len bs.
Proof.
  unfold len, put. intros. rewrite !length_app, length_take, length_drop. unfold len. lia.
Qed.

Lemma frame_slice off n bs : frame bs -> frame (slice off n bs).
Proof. intros H. by apply Forall_take, Forall_drop. Qed.

Lemma frame_put off l bs : frame bs -> frame l -> frame (put off l bs).
Proof.
  intros Hb Hl. apply Forall_app. split; [by apply Forall_take|].
  apply Forall_app. split; [done|by apply Forall_drop].
Qed.

Lemma frame_le16 v : frame (le16 v).
Proof. repeat constructor; zwrap; apply Z.mod_pos_bound; lia. Qed.
Lemma frame_le32 v : frame (le32 v).
Proof. repeat constructor; zwrap; apply Z.mod_pos_bound; lia. Qed.

(** Checking a concrete frame. *)
Definition frameb (bs : bytes) : bool := forallb (fun b => (0 <=? b) && (b <? 256)) bs.

Lemma frameb_frame bs : frameb bs = true -> frame bs.
Proof.
  unfold frameb, frame. rewrite List.forallb_forall, List.Forall_forall.
  intros H x Hx. specialize (H x Hx). bprop. split; lia.
Qed.

(** A frame splits around any range. *)
Lemma split_range off n bs :
  0 <= off -> 0 <= n -> off + n <= len bs ->
  exists a b c, bs = a ++ b ++ c /\ len a = off /\ len b = n /\ slice off n bs = b.
Proof.
  unfold len. intros. exists (take (Z.to_nat off) bs), (slice off n bs),
    (drop (Z.to_nat n) (drop (Z.to_nat off) bs)).
  unfold slice. rewrite !take_drop. split; [done|].
  rewrite !length_take, !length_drop. split; [lia|]. split; [lia|done].
Qed.

Lemma slice_app a b c : slice (len a) (len b) (a ++ b ++ c) = b.
Proof.
  unfold slice, len. rewrite !Nat2Z.id, drop_app_length, take_app_length. done.
Qed.

Lemma put_app a b c l : len l = len b -> put (len a) l (a ++ b ++ c) = a ++ l ++ c.
Proof.
  unfold put, len. intros Hl. assert (length l = length b) as Hl' by lia.
  rewrite Nat2Z.id, take_app_length, <- Nat2Z.inj_add, Nat2Z.id. f_equal. f_equal.
  rewrite Hl', app_assoc, <- length_app. apply drop_app_length.
Qed.

Lemma lookup_slice off n bs (i : nat) :
  0 <= off -> slice off n bs !! i
  = if decide (Z.of_nat i < n) then bs !! Z.to_nat (off + Z.of_nat i) else None.
Proof.
  intros Ho. unfold slice. case_decide.
  - rewrite lookup_take_lt by lia. rewrite lookup_drop. f_equal. lia.
  - rewrite lookup_take_ge; [done|lia].
Qed.

Lemma lookup_put off l bs (i : nat) :
  0 <= off -> off + len l <= len bs ->
  put off l bs !! i
  = if decide (off <= Z.of_nat i < off + len l) then l !! (i - Z.to_nat off)%nat else bs !! i.
Proof.
  intros Ho Hl. unfold put, len in *. case_decide as Hd.
  - rewrite lookup_app_r by (rewrite length_take; lia).
    rewrite length_take, lookup_app_l by lia. f_equal. lia.
  - destruct (decide (Z.of_nat i < off)).
    + rewrite lookup_app_l by (rewrite length_take; lia). rewrite lookup_take_lt by lia. done.
    + rewrite lookup_app_r by (rewrite length_take; lia). rewrite length_take.
      rewrite lookup_app_r by lia. rewrite lookup_drop. f_equal. lia.
Qed.

(** Reading back what was written, and what was not. *)
Lemma slice_put_same off l bs :
  0 <= off -> off + len l <= len bs -> slice off (len l) (put off l bs) = l.
Proof.
  intros Ho Hl. apply list_eq. intros i. rewrite lookup_slice by done. unfold len in *.
  case_decide.
  - rewrite lookup_put by done. unfold len. rewrite decide_True by lia. f_equal. lia.
  - symmetry. apply lookup_ge_None. lia.
Qed.

Lemma slice_put_ne off n off' l bs :
  0 <= off -> 0 <= off' -> off' + len l <= len bs ->
  off + n <= off' \/ off' + len l <= off ->
  slice off n (put off' l bs) = slice off n bs.
Proof.
  intros Ho Ho' Hl Hd. apply list_eq. intros i. rewrite !lookup_slice by done.
  case_decide; [|done]. rewrite lookup_put by done. rewrite decide_False by lia. done.
Qed.

(** A write inside a larger range acts on that range alone. *)
Lemma slice_put_in off n off' l bs :
  0 <= off -> off <= off' -> off' + len l <= off + n -> off + n <= len bs ->
  slice off n (put off' l bs) = put (off' - off) l (slice off n bs).
Proof.
  intros Ho Hd Hd' Hn. pose proof (len_nonneg l). apply list_eq. intros i.
  assert (len (slice off n bs) = n) by (apply len_slice; lia).
  rewrite lookup_slice by done. rewrite (lookup_put (off' - off)) by lia.
  rewrite lookup_slice by done. case_decide as H1.
  - rewrite lookup_put by lia. case_decide as H2.
    + rewrite decide_True by lia. f_equal. lia.
    + rewrite decide_False by lia. done.
  - rewrite decide_False by lia. done.
Qed.

Lemma slice_app_l off n a b : 0 <= off -> off + n <= len a -> slice off n (a ++ b) = slice off n a.
Proof.
  intros. apply list_eq. intros i. rewrite !lookup_slice by done. case_decide; [|done].
  rewrite lookup_app_l; [done|]. unfold len in *. lia.
Qed.

Lemma put_put off l l' bs :
  0 <= off -> off + len l <= len bs -> len l' = len l -> put off l (put off l' bs) = put off l bs.
Proof.
  intros Ho Hl He. apply list_eq. intros i.
  rewrite !lookup_put by (rewrite ?len_put by lia; lia). rewrite He.
  case_decide; done.
Qed.

Lemma slice_slice a n b m bs :
  0 <= a -> 0 <= b -> b + m <= n -> slice b m (slice a n bs) = slice (a + b) m bs.
Proof.
  intros. apply list_eq. intros i. rewrite !lookup_slice by lia.
  case_decide; [|done]. rewrite decide_True by lia. f_equal. lia.
Qed.

Lemma slice_split off n m bs :
  0 <= off -> 0 <= n -> 0 <= m -> off + n <= len bs ->
  slice off (n + m) bs = slice off n bs ++ slice (off + n) m bs.
Proof.
  intros Ho Hn Hm Hl. pose proof (len_slice off n bs Ho Hn Hl) as Hs. unfold len in Hs.
  apply list_eq. intros i. destruct (decide (Z.of_nat i < n)).
  - rewrite lookup_app_l by lia. rewrite !lookup_slice by lia.
    by rewrite !decide_True by lia.
  - rewrite lookup_app_r by lia. rewrite !lookup_slice by lia.
    destruct (decide (Z.of_nat i < n + m)).
    + rewrite decide_True by lia. f_equal. lia.
    + rewrite decide_False by lia. done.
Qed.

Lemma slice_all bs : slice 0 (len bs) bs = bs.
Proof. unfold slice, len. rewrite Nat2Z.id. apply firstn_all. Qed.

Lemma le_val_is l : frame l -> 0 <= le_val l < 256 ^ len l.
Proof.
  induction 1 as [|b l Hb Hl IH]; [done|]. rewrite len_cons.
  rewrite Z.pow_add_r by (pose proof (len_nonneg l); lia).
  simpl le_val. unfold is_u8 in Hb. change (256 ^ 1) with 256. lia.
Qed.

Lemma le_val_le16 v : is_u16 v -> le_val (le16 v) = v.
Proof. intros H. unfold le16, le_val. zlia. Qed.

Lemma le_val_le32 v : is_u32 v -> le_val (le32 v) = v.
Proof.
  intros (a & b & c & d & Ha & Hb & Hc & Hd & ->)%u32_digits. unfold le32, le_val.
  replace ((a + 256 * b + 65536 * c + 16777216 * d) mod 256) with a by zlia.
  replace ((a + 256 * b + 65536 * c + 16777216 * d) / 256)
    with (b + 256 * c + 65536 * d) by zlia.
  replace ((a + 256 * b + 65536 * c + 16777216 * d) / 65536)
    with (c + 256 * d) by zlia.
  replace ((a + 256 * b + 65536 * c + 16777216 * d) / 16777216) with d by zlia.
  replace ((b + 256 * c + 65536 * d) mod 256) with b by zlia.
  replace ((c + 256 * d) mod 256) with c by zlia.
  rewrite (Z.mod_small d) by (zwrap; lia). lia.
Qed.

(** *** Fields *)

Lemma get8_is off bs : frame bs -> 0 <= off -> off + 1 <= len bs -> is_u8 (get8 off bs).
Proof.
  intros. unfold get8. pose proof (le_val_is _ (frame_slice off 1 bs H)) as Hv.
  rewrite len_slice in Hv by lia. exact Hv.
Qed.
Lemma get16_is off bs : frame bs -> 0 <= off -> off + 2 <= len bs -> is_u16 (get16 off bs).
Proof.
  intros. unfold get16. pose proof (le_val_is _ (frame_slice off 2 bs H)) as Hv.
  rewrite len_slice in Hv by lia. exact Hv.
Qed.
Lemma get32_is off bs : frame bs -> 0 <= off -> off + 4 <= len bs -> is_u32 (get32 off bs).
Proof.
  intros. unfold get32. pose proof (le_val_is _ (frame_slice off 4 bs H)) as Hv.
  rewrite len_slice in Hv by lia. exact Hv.
Qed.

Lemma get16_put off v bs :
  0 <= off -> off + 2 <= len bs -> is_u16 v -> get16 off (put off (le16 v) bs) = v.
Proof.
  intros. unfold get16. change 2 with (len (le16 v)). rewrite slice_put_same by (simpl; lia || done).
  by apply le_val_le16.
Qed.
Lemma get32_put off v bs :
  0 <= off -> off + 4 <= len bs -> is_u32 v -> get32 off (put off (le32 v) bs) = v.
Proof.
  intros. unfold get32. change 4 with (len (le32 v)). rewrite slice_put_same by (simpl; lia || done).
  by apply le_val_le32.
Qed.

(** *** Frames that agree outside a range *)

Definition agrees (lo hi : Z) (bs bs' : bytes) : Prop :=
  len bs' = len bs
  /\ forall off n, 0 <= off -> off + n <= lo \/ hi <= off -> slice off n bs' = slice off n bs.

Lemma agrees_refl lo hi bs : agrees lo hi bs bs.
Proof. done. Qed.

Lemma agrees_trans lo hi a b c : agrees lo hi a b -> agrees lo hi b c -> agrees lo hi a c.
Proof.
  intros [L1 H1] [L2 H2]. split; [congruence|]. intros. rewrite H2, H1 by done. done.
Qed.

Lemma agrees_weaken lo hi lo' hi' a b :
  lo' <= lo -> hi <= hi' -> agrees lo hi a b -> agrees lo' hi' a b.
Proof. intros ? ? [L H]. split; [done|]. intros. apply H; lia. Qed.

Lemma agrees_put lo hi off l bs :
  0 <= off -> lo <= off -> off + len l <= hi -> off + len l <= len bs ->
  agrees lo hi bs (put off l bs).
Proof.
  intros. split; [by apply len_put|]. intros o n Ho Hd. apply slice_put_ne; lia.
Qed.

Lemma agrees_put_then lo hi off l a b :
  0 <= off -> lo <= off -> off + len l <= hi -> off + len l <= len a ->
  agrees lo hi a b -> agrees lo hi a (put off l b).
Proof.
  intros ? ? ? ? Hab. eapply agrees_trans; [exact Hab|]. apply agrees_put; try lia.
  destruct Hab as [-> _]. done.
Qed.

Lemma agrees_get8 lo hi a b off :
  agrees lo hi a b -> 0 <= off -> off + 1 <= lo \/ hi <= off -> get8 off b = get8 off a.
Proof. intros [_ H] ? ?. unfold get8. by rewrite H. Qed.
Lemma agrees_get16 lo hi a b off :
  agrees lo hi a b -> 0 <= off -> off + 2 <= lo \/ hi <= off -> get16 off b = get16 off a.
Proof. intros [_ H] ? ?. unfold get16. by rewrite H. Qed.
Lemma agrees_get32 lo hi a b off :
  agrees lo hi a b -> 0 <= off -> off + 4 <= lo \/ hi <= off -> get32 off b = get32 off a.
Proof. intros [_ H] ? ?. unfold get32. by rewrite H. Qed.

(** *** Weakest preconditions of the accesses *)

Lemma wp_rd_bytes off n Q bs :
  0 <= off -> 0 <= n -> off + n <= len bs -> Q (slice off n bs) bs -> wp (rd_bytes off n) Q bs.
Proof.
  intros. unfold wp, rd_bytes. rewrite (proj2 (in_range_true off n bs)) by lia. done.
Qed.

Lemma wp_wr_bytes off l Q bs :
  0 <= off -> off + len l <= len bs -> Q tt (put off l bs) -> wp (wr_bytes off l) Q bs.
Proof.
  intros. pose proof (len_nonneg l). unfold wp, wr_bytes.
  rewrite (proj2 (in_range_true off (len l) bs)) by lia. done.
Qed.

Lemma wp_rd8 off Q bs : 0 <= off -> off + 1 <= len bs -> Q (get8 off bs) bs -> wp (rd8 off) Q bs.
Proof. intros. apply wp_bind, wp_rd_bytes; [lia..|done]. Qed.
Lemma wp_rd16 off Q bs : 0 <= off -> off + 2 <= len bs -> Q (get16 off bs) bs -> wp (rd16 off) Q bs.
Proof. intros. apply wp_bind, wp_rd_bytes; [lia..|done]. Qed.
Lemma wp_rd32 off Q bs : 0 <= off -> off + 4 <= len bs -> Q (get32 off bs) bs -> wp (rd32 off) Q bs.
Proof. intros. apply wp_bind, wp_rd_bytes; [lia..|done]. Qed.
Lemma wp_wr8 off v Q bs :
  0 <= off -> off + 1 <= len bs -> Q tt (put off [u8 v] bs) -> wp (wr8 off v) Q bs.
Proof. intros. apply wp_wr_bytes; done. Qed.
Lemma wp_wr16 off v Q bs :
  0 <= off -> off + 2 <= len bs -> Q tt (put off (le16 v) bs) -> wp (wr16 off v) Q bs.
Proof. intros. apply wp_wr_bytes; done. Qed.
Lemma wp_wr32 off v Q bs :
  0 <= off -> off + 4 <= len bs -> Q tt (put off (le32 v) bs) -> wp (wr32 off v) Q bs.
Proof. intros. apply wp_wr_bytes; done. Qed.

(** One step of symbolic execution. *)
Ltac wp_step :=
  lazymatch goal with
  | |- wp (mbind _ _) _ _ => apply wp_bind
  | |- wp (mret _) _ _ => apply wp_ret
  | |- wp (rd8 _) _ _ => apply wp_rd8; [try lia|try lia|]
  | |- wp (rd16 _) _ _ => apply wp_rd16; [try lia|try lia|]
  | |- wp (rd32 _) _ _ => apply wp_rd32; [try lia|try lia|]
  | |- wp (rd_bytes _ _) _ _ => apply wp_rd_bytes; [try lia|try lia|try lia|]
  | |- wp (gets _) _ _ => apply wp_gets
  | |- wp (modify _) _ _ => apply wp_modify
  | |- wp (zoom _ _ _) _ _ => apply wp_zoom
  | |- wp (let x := ?e in _) _ _ => cbv zeta
  end.

(** Case split on the test of an [if] under [wp]. *)
Ltac wp_if :=
  lazymatch goal with
  | |- wp (if ?b then _ else _) _ _ => let E := fresh "E" in destruct b eqn:E
  end.
