(* ===== verification/Headers.v ===== *)
(** Protocol headers as they lie in the frame: include/protocol/ethernet.h,
    ip.h, icmp.h, arp.h, and the ARP builder src/protocol/arp.cpp.

    A header pointer is the offset [p] of the header in the frame; a field is
    read and written at its packed offset.  Multi-byte fields keep network
    order in memory and are read as the little-endian host reads them. *)
From S2P Require Import Prelude Types Mem.

Definition flag (v mask : Z) : bool := negb (Z.land v mask =? 0).

(** *** Ethernet *)
Module Eth.
Definition HEADER_SIZE : Z := 14.
Definition dst_mac (p : Z) : Z := p.
Definition src_mac (p : Z) : Z := p + 6.
Definition ether_type (p : Z) : Z := p + 12.

Definition get_ether_type (p : Z) : ST bytes Z :=
  v ← rd16 (ether_type p); mret (ntohs v).
Definition set_ether_type (p type : Z) : ST bytes unit :=
  wr16 (ether_type p) (htons type).
Definition is_ipv4 (p : Z) : ST bytes bool :=
  v ← get_ether_type p; mret (v =? EtherType_IPv4).
Definition is_arp (p : Z) : ST bytes bool :=
  v ← get_ether_type p; mret (v =? EtherType_ARP).
Definition set_dst_mac (p : Z) (mac : MacAddr) : ST bytes unit := wr_bytes (dst_mac p) mac.
Definition set_src_mac (p : Z) (mac : MacAddr) : ST bytes unit := wr_bytes (src_mac p) mac.
Definition get_dst_mac (p : Z) : ST bytes MacAddr := rd_bytes (dst_mac p) 6.
Definition get_src_mac (p : Z) : ST bytes MacAddr := rd_bytes (src_mac p) 6.

(** tmp = dst; dst = src; src = tmp *)
Definition swap_mac (p : Z) : ST bytes unit :=
  tmp ← rd_bytes (dst_mac p) 6;
  s ← rd_bytes (src_mac p) 6;
  _ ← wr_bytes (dst_mac p) s;
  wr_bytes (src_mac p) tmp.

Definition mac_equal (a b : MacAddr) : bool := bool_decide (a = b).
End Eth.

(** *** IPv4 *)
Module Ip.
Definition HEADER_SIZE : Z := 20.
Definition version_ihl (p : Z) : Z := p.
Definition total_length (p : Z) : Z := p + 2.
Definition flags_fragment (p : Z) : Z := p + 6.
Definition ttl (p : Z) : Z := p + 8.
Definition protocol (p : Z) : Z := p + 9.
Definition checksum (p : Z) : Z := p + 10.
Definition src_ip (p : Z) : Z := p + 12.
Definition dst_ip (p : Z) : Z := p + 16.

Definition get_version (p : Z) : ST bytes Z :=
  v ← rd8 (version_ihl p); mret (Z.land (Z.shiftr v 4) 15).
Definition get_ihl (p : Z) : ST bytes Z :=
  v ← rd8 (version_ihl p); mret (Z.land v 15).
Definition get_header_len (p : Z) : ST bytes Z := v ← get_ihl p; mret (v * 4).
Definition get_total_length (p : Z) : ST bytes Z :=
  v ← rd16 (total_length p); mret (ntohs v).
Definition set_total_length (p n : Z) : ST bytes unit :=
  wr16 (total_length p) (htons n).
Definition is_tcp (p : Z) : ST bytes bool :=
  v ← rd8 (protocol p); mret (v =? IPProtocol_TCP).
Definition is_udp (p : Z) : ST bytes bool :=
  v ← rd8 (protocol p); mret (v =? IPProtocol_UDP).
Definition is_icmp (p : Z) : ST bytes bool :=
  v ← rd8 (protocol p); mret (v =? IPProtocol_ICMP).
Definition swap_ip (p : Z) : ST bytes unit :=
  tmp ← rd32 (src_ip p);
  d ← rd32 (dst_ip p);
  _ ← wr32 (src_ip p) d;
  wr32 (dst_ip p) tmp.
End Ip.

(** *** TCP and UDP *)
Module TcpH.
Definition HEADER_SIZE : Z := 20.
Definition src_port (p : Z) : Z := p.
Definition dst_port (p : Z) : Z := p + 2.
Definition seq_num (p : Z) : Z := p + 4.
Definition ack_num (p : Z) : Z := p + 8.
Definition data_offset (p : Z) : Z := p + 12.
Definition flags (p : Z) : Z := p + 13.
Definition checksum (p : Z) : Z := p + 16.

Definition TCPOPT_EOL : Z := 0.
Definition TCPOPT_NOP : Z := 1.
Definition TCPOPT_TIMESTAMP : Z := 8.
Definition TCPOPT_TOA : Z := 254.
Definition TCPOLEN_TOA : Z := 8.

Definition get_header_len (p : Z) : ST bytes Z :=
  v ← rd8 (data_offset p); mret (Z.land (Z.shiftr v 4) 15 * 4).
Definition set_header_len (p n : Z) : ST bytes unit :=
  v ← rd8 (data_offset p);
  wr8 (data_offset p) (Z.lor (Z.shiftl (n / 4) 4) (Z.land v 15)).
End TcpH.

Module UdpH.
Definition HEADER_SIZE : Z := 8.
Definition src_port (p : Z) : Z := p.
Definition dst_port (p : Z) : Z := p + 2.
Definition length (p : Z) : Z := p + 4.
Definition checksum (p : Z) : Z := p + 6.
Definition get_length (p : Z) : ST bytes Z := v ← rd16 (length p); mret (ntohs v).
End UdpH.

(** *** ICMP *)
Module IcmpH.
Definition HEADER_SIZE : Z := 8.
Definition type (p : Z) : Z := p.
Definition code (p : Z) : Z := p + 1.
Definition checksum (p : Z) : Z := p + 2.
Definition ECHO_REPLY : Z := 0.
Definition DEST_UNREACH : Z := 3.
Definition ECHO_REQUEST : Z := 8.
Definition TIME_EXCEEDED : Z := 11.
Definition PARAM_PROBLEM : Z := 12.

Definition icmp_is_error (t : Z) : bool :=
  (t =? DEST_UNREACH) || (t =? TIME_EXCEEDED) || (t =? PARAM_PROBLEM).
Definition is_echo_request (p : Z) : ST bytes bool :=
  v ← rd8 (type p); mret (v =? ECHO_REQUEST).
End IcmpH.

(** *** ARP *)
Module Arp.
Definition HEADER_SIZE : Z := 28.
Definition hw_type (p : Z) : Z := p.
Definition proto_type (p : Z) : Z := p + 2.
Definition hw_len (p : Z) : Z := p + 4.
Definition proto_len (p : Z) : Z := p + 5.
Definition operation (p : Z) : Z := p + 6.
Definition sender_mac (p : Z) : Z := p + 8.
Definition sender_ip (p : Z) : Z := p + 14.
Definition target_mac (p : Z) : Z := p + 18.
Definition target_ip (p : Z) : Z := p + 24.
Definition REQUEST : Z := 1.
Definition REPLY : Z := 2.

Definition get_operation (p : Z) : ST bytes Z := v ← rd16 (operation p); mret (ntohs v).
Definition set_operation (p op : Z) : ST bytes unit := wr16 (operation p) (htons op).
Definition is_request (p : Z) : ST bytes bool := v ← get_operation p; mret (v =? REQUEST).
Definition is_reply (p : Z) : ST bytes bool := v ← get_operation p; mret (v =? REPLY).

Definition is_eth_ipv4 (p : Z) : ST bytes bool :=
  ht ← rd16 (hw_type p);
  pt ← rd16 (proto_type p);
  hl ← rd8 (hw_len p);
  pl ← rd8 (proto_len p);
  mret ((ntohs ht =? 1) && (ntohs pt =? 2048) && (hl =? 6) && (pl =? 4)).

(** ArpHandler::make_reply: rewrite a request in place. *)
Definition make_reply (eth arp : Z) (local_mac : MacAddr) : ST bytes unit :=
  local_ip ← rd32 (target_ip arp);
  sm ← rd_bytes (sender_mac arp) 6;
  _ ← wr_bytes (Eth.dst_mac eth) sm;
  _ ← Eth.set_src_mac eth local_mac;
  _ ← set_operation arp REPLY;
  sm ← rd_bytes (sender_mac arp) 6;
  _ ← wr_bytes (target_mac arp) sm;
  si ← rd32 (sender_ip arp);
  _ ← wr32 (target_ip arp) si;
  _ ← wr_bytes (sender_mac arp) local_mac;
  wr32 (sender_ip arp) local_ip.

(** ArpHandler::build_request: a broadcast request at the start of [buf];
    returns the frame length. *)
Definition build_request (target_ip_ local_ip : IPv4Addr) (local_mac : MacAddr)
  : ST bytes Z :=
  let eth := 0 in
  let arp := Eth.HEADER_SIZE in
  _ ← wr_bytes (Eth.dst_mac eth) (replicate 6 255);
  _ ← wr_bytes (Eth.src_mac eth) local_mac;
  _ ← Eth.set_ether_type eth EtherType_ARP;
  _ ← wr16 (hw_type arp) (htons 1);
  _ ← wr16 (proto_type arp) (htons 2048);
  _ ← wr8 (hw_len arp) 6;
  _ ← wr8 (proto_len arp) 4;
  _ ← set_operation arp REQUEST;
  _ ← wr_bytes (sender_mac arp) local_mac;
  _ ← wr32 (sender_ip arp) local_ip;
  _ ← wr_bytes (target_mac arp) (replicate 6 0);
  _ ← wr32 (target_ip arp) target_ip_;
  mret (Eth.HEADER_SIZE + HEADER_SIZE).

Definition build_gratuitous (local_ip : IPv4Addr) (local_mac : MacAddr) : ST bytes Z :=
  build_request local_ip local_ip local_mac.
End Arp.

(** *** Lengths *)

(** Header lengths as the packed fields give them. *)
Definition ihl_of (v : Z) : Z := Z.land v 15 * 4.
Definition doff_of (v : Z) : Z := Z.land (Z.shiftr v 4) 15 * 4.

Lemma nibble_range v : 0 <= Z.land v 15 <= 15.
Proof.
  assert (E : Z.land v 15 = v mod 16) by (exact (Z.land_ones v 4 ltac:(lia))).
  rewrite E. pose proof (Z.mod_pos_bound v 16). lia.
Qed.
Lemma ihl_range v : 0 <= ihl_of v <= 60.
Proof. unfold ihl_of. pose proof (nibble_range v). lia. Qed.
Lemma doff_range v : 0 <= doff_of v <= 60.
Proof. unfold doff_of. pose proof (nibble_range (Z.shiftr v 4)). lia. Qed.
