(* ===== verification/Dpdk.v ===== *)
(** What the sources use of DPDK.

    DPDK is not part of the repository: its functions are parameters of the
    model, grouped in classes.  Each class of operations has a companion class
    of laws that states the documented behaviour the sources rely on, and a
    concrete instance that shows the laws can hold. *)
From S2P Require Import Prelude Types Mem.

(** ** rte_hash: fixed-capacity hash table with 64-bit data per key *)
Class RteHash (K : Type) := {
  rte_hash : Type;
  rte_hash_create : Z -> option rte_hash;
  rte_hash_lookup_data : rte_hash -> K -> option Z;
  rte_hash_add_key_data : rte_hash -> K -> Z -> option rte_hash;
  rte_hash_del_key : rte_hash -> K -> rte_hash
}.
#[global] Arguments rte_hash K {_}.

(** Documented behaviour: a lookup returns the data last stored; adding an
    existing key replaces its data; a failed add (negative return, [None])
    leaves the table alone; with the extendable-bucket table at least [entries]
    keys can be stored. *)
Class RteHashLaws (K : Type) `{Countable K} (RH : RteHash K) := {
  content : rte_hash K -> gmap K Z;
  entries : rte_hash K -> Z;
  content_create n h : rte_hash_create n = Some h -> content h = ∅ /\ entries h = n;
  content_lookup h k : rte_hash_lookup_data h k = content h !! k;
  content_add h k v h' :
    rte_hash_add_key_data h k v = Some h' ->
    content h' = <[k := v]> (content h) /\ entries h' = entries h;
  add_has_room h k v :
    Z.of_nat (size (content h)) < entries h -> is_Some (rte_hash_add_key_data h k v);
  content_del h k :
    content (rte_hash_del_key h k) = delete k (content h)
    /\ entries (rte_hash_del_key h k) = entries h
}.
#[global] Arguments content {_ _ _ _ _} _.
#[global] Arguments entries {_ _ _ _ _} _.

(** A table that satisfies the laws. *)
#[export] Instance gmap_hash (K : Type) `{Countable K} : RteHash K := {|
  rte_hash := gmap K Z * Z;
  rte_hash_create n := Some (∅, n);
  rte_hash_lookup_data h k := h.1 !! k;
  rte_hash_add_key_data h k v :=
    if (Z.of_nat (size h.1) <? h.2) || bool_decide (is_Some (h.1 !! k))
    then Some (<[k := v]> h.1, h.2) else None;
  rte_hash_del_key h k := (delete k h.1, h.2)
|}.

#[export] Instance gmap_hash_laws (K : Type) `{Countable K} :
  RteHashLaws K (gmap_hash K).
Proof.
  refine {| content := fun h : rte_hash K => h.1; entries := fun h : rte_hash K => h.2 |};
    simpl.
  - by intros n h [= <-].
  - done.
  - intros h k v h'. destruct (_ || _); [intros [= <-] | discriminate]; done.
  - intros h k v Hs. apply Z.ltb_lt in Hs. rewrite Hs. simpl. eauto.
  - done.
Defined.

(** ** Hash functions: rte_jhash, rte_softrss, rte_hash_crc *)
Class RteHashFns := {
  rte_jhash_3words : Z -> Z -> Z -> Z -> Z;
  rte_jhash_2words : Z -> Z -> Z -> Z;
  rte_jhash_32b : list Z -> Z -> Z;
  rte_convert_rss_key : list Z -> list Z;
  rte_softrss_be : list Z -> list Z -> Z;
  rte_hash_crc_4byte : Z -> Z -> Z;
  rte_hash_crc_8byte : Z -> Z -> Z
}.

(** They all return a [uint32_t]. *)
Class RteHashFnsLaws (F : RteHashFns) := {
  jhash3_u32 a b c i : is_u32 (rte_jhash_3words a b c i);
  jhash2_u32 a b i : is_u32 (rte_jhash_2words a b i);
  jhash32b_u32 l i : is_u32 (rte_jhash_32b l i);
  softrss_u32 l k : is_u32 (rte_softrss_be l k);
  crc4_u32 a i : is_u32 (rte_hash_crc_4byte a i);
  crc8_u32 a i : is_u32 (rte_hash_crc_8byte a i)
}.

#[export] Instance mix_fns : RteHashFns := {|
  rte_jhash_3words a b c i := u32 (a * 31 + b * 17 + c * 7 + i);
  rte_jhash_2words a b i := u32 (a * 31 + b * 17 + i);
  rte_jhash_32b l i := u32 (foldr (fun x y => x + 31 * y) i l);
  rte_convert_rss_key k := k;
  rte_softrss_be l _ := u32 (foldr (fun x y => x + 31 * y) 0 l);
  rte_hash_crc_4byte a i := u32 (a + i);
  rte_hash_crc_8byte a i := u32 (a + i)
|}.

#[export] Instance mix_fns_laws : RteHashFnsLaws mix_fns.
Proof. split; intros; apply u32_is. Qed.

(** ** rte_mbuf

    The fields the sources use.  [mdata] is the content of the first segment
    (its length is data_len), [rss] is hash.rss. *)
Record Mbuf := mkMbuf {
  mdata : list Z;
  pkt_len : Z;
  nb_segs : Z;
  tailroom : Z;
  ol_flags : Z;
  rss : Z;
  l2_len : Z;
  l3_len : Z;
  l4_len : Z
}.

Definition set_mdata (v : list Z) (m : Mbuf) : Mbuf :=
  mkMbuf v (pkt_len m) (nb_segs m) (tailroom m) (ol_flags m) (rss m) (l2_len m) (l3_len m) (l4_len m).
Definition set_ol_flags (v : Z) (m : Mbuf) : Mbuf :=
  mkMbuf (mdata m) (pkt_len m) (nb_segs m) (tailroom m) v (rss m) (l2_len m) (l3_len m) (l4_len m).
Definition set_lens (l2 l3 : Z) (m : Mbuf) : Mbuf :=
  mkMbuf (mdata m) (pkt_len m) (nb_segs m) (tailroom m) (ol_flags m) (rss m) l2 l3 (l4_len m).
Definition set_l4_len (v : Z) (m : Mbuf) : Mbuf :=
  mkMbuf (mdata m) (pkt_len m) (nb_segs m) (tailroom m) (ol_flags m) (rss m) (l2_len m) (l3_len m) v.

Definition data_len (m : Mbuf) : Z := len (mdata m).

(** Access through rte_pktmbuf_mtod. *)
Definition onb {A} (k : ST (list Z) A) : ST Mbuf A := zoom mdata set_mdata k.

Class RteMbuf := {
  rte_pktmbuf_is_contiguous : Mbuf -> bool;
  rte_pktmbuf_append : Mbuf -> Z -> option Mbuf;
  rte_pktmbuf_trim : Mbuf -> Z -> Mbuf;
  rte_ipv4_phdr_cksum : list Z -> Z -> Z -> Z;
  F_TX_IPV4 : Z;
  F_TX_TCP_CKSUM : Z;
  F_TX_UDP_CKSUM : Z;
  F_RX_IP_CKSUM_MASK : Z;
  F_RX_IP_CKSUM_BAD : Z;
  F_RX_L4_CKSUM_MASK : Z;
  F_RX_L4_CKSUM_BAD : Z;
  F_RX_RSS_HASH : Z;
  TX_OFFLOAD_TCP_CKSUM : Z;
  TX_OFFLOAD_UDP_CKSUM : Z
}.

(** The 16-bit words of the pseudo header of a segment of [n] bytes. *)
Definition phdr_sum (b : list Z) (ip n : Z) : Z :=
  get32 (ip + 12) b / 65536 + get32 (ip + 12) b mod 65536
  + (get32 (ip + 16) b / 65536 + get32 (ip + 16) b mod 65536)
  + bswap16 (get8 (ip + 9) b) + bswap16 n.

(** Documented behaviour: append extends the data by [n] bytes of
    unspecified content or fails without effect; trim removes [n] bytes from
    the end of a single-segment packet; rte_ipv4_phdr_cksum is the sum, without
    complement, of the pseudo header of the IPv4 header at [ip]. *)
Class RteMbufLaws (MB : RteMbuf) := {
  append_spec m n m' : rte_pktmbuf_append m n = Some m' -> 0 <= n ->
    exists ext, mdata m' = mdata m ++ ext /\ len ext = n /\ frame ext
      /\ pkt_len m' = pkt_len m + n /\ ol_flags m' = ol_flags m /\ rss m' = rss m;
  trim_spec m n : rte_pktmbuf_is_contiguous m = true -> 0 <= n <= data_len m ->
    mdata (rte_pktmbuf_trim m n) = slice 0 (data_len m - n) (mdata m)
    /\ pkt_len (rte_pktmbuf_trim m n) = pkt_len m - n
    /\ ol_flags (rte_pktmbuf_trim m n) = ol_flags m;
  phdr_spec b ip fl :
    frame b -> 0 <= ip -> ip + 20 <= len b ->
    fl = Z.lor F_TX_IPV4 F_TX_TCP_CKSUM \/ fl = Z.lor F_TX_IPV4 F_TX_UDP_CKSUM ->
    let n := ntohs (get16 (ip + 2) b) - Z.land (get8 ip b) 15 * 4 in
    is_u16 (rte_ipv4_phdr_cksum b ip fl)
    /\ (0 <= n -> rte_ipv4_phdr_cksum b ip fl mod 65535 = phdr_sum b ip n mod 65535)
}.

(** A buffer with [tailroom] bytes behind the data. *)
#[export] Instance flat_mbuf : RteMbuf := {|
  rte_pktmbuf_is_contiguous m := nb_segs m =? 1;
  rte_pktmbuf_append m n :=
    if n <=? tailroom m
    then Some (mkMbuf (mdata m ++ replicate (Z.to_nat n) 0) (pkt_len m + n) (nb_segs m)
                 (tailroom m - n) (ol_flags m) (rss m) (l2_len m) (l3_len m) (l4_len m))
    else None;
  rte_pktmbuf_trim m n :=
    mkMbuf (slice 0 (data_len m - n) (mdata m)) (pkt_len m - n) (nb_segs m)
      (tailroom m + n) (ol_flags m) (rss m) (l2_len m) (l3_len m) (l4_len m);
  rte_ipv4_phdr_cksum b ip _ := phdr_sum b ip (ntohs (get16 (ip + 2) b) - Z.land (get8 ip b) 15 * 4) mod 65535;
  F_TX_IPV4 := 2 ^ 55;
  F_TX_TCP_CKSUM := 2 ^ 52;
  F_TX_UDP_CKSUM := 3 * 2 ^ 52;
  F_RX_IP_CKSUM_MASK := 144;
  F_RX_IP_CKSUM_BAD := 16;
  F_RX_L4_CKSUM_MASK := 264;
  F_RX_L4_CKSUM_BAD := 8;
  F_RX_RSS_HASH := 2;
  TX_OFFLOAD_TCP_CKSUM := 8;
  TX_OFFLOAD_UDP_CKSUM := 4
|}.

#[export] Instance flat_mbuf_laws : RteMbufLaws flat_mbuf.
Proof.
  split.
  - intros m n m'. simpl. destruct (n <=? tailroom m); [|discriminate]. intros [= <-] Hn.
    exists (replicate (Z.to_nat n) 0). simpl. split; [done|]. split.
    + unfold len. rewrite length_replicate. lia.
    + split; [|done]. apply Forall_replicate. zwrap. lia.
  - done.
  - intros b ip fl _ _ _ _ n. cbn. fold n. split; [zwrap; pose proof (Z.mod_pos_bound (phdr_sum b ip n) 65535); lia|].
    intros _. by rewrite Z.mod_mod.
Qed.

(** ** Packet queues, rings and the clock.

    The NIC, the lock-free rings, the packet pool and the time stamp counter
    are shared with the outside world, whose state is the type [world].  The
    laws count the packets the program holds: a packet received or taken from
    a ring is held until it is sent, put on a ring or freed. *)

Definition BURST_SIZE : Z := 64.

(** The rings of worker [w]. *)
Inductive ring := REDIRECT_RING (w : Z) | RX_RING (w : Z).

Class RteIo := {
  world : Type;
  rte_eth_rx_burst : Z -> world -> list Mbuf * world;
  rte_eth_tx_burst : Z -> list Mbuf -> world -> Z * world;
  rte_ring_mp_enqueue : ring -> Mbuf -> world -> bool * world;
  rte_ring_sp_enqueue_burst : ring -> list Mbuf -> world -> Z * world;
  rte_ring_sc_dequeue_burst : ring -> world -> list Mbuf * world;
  rte_pktmbuf_free : Mbuf -> world -> world;
  rte_rdtsc : world -> Z * world
}.

(** A packet in a buffer: bytes, at most 65535 of them. *)
Definition mbuf_ok (m : Mbuf) : Prop := frame (mdata m) /\ len (mdata m) <= 65535.

(** Documented behaviour: a burst is at most the size asked for; sending or
    enqueueing takes a prefix of the packets offered; the clock does not run
    backwards. *)
Class RteIoLaws (IO : RteIo) := {
  held : world -> Z;
  clock : world -> Z;
  clock_range x : is_u64 (clock x);
  rx_spec q x l x' : rte_eth_rx_burst q x = (l, x') ->
    len l <= BURST_SIZE /\ Forall mbuf_ok l /\ held x' = held x + len l /\ clock x <= clock x';
  tx_spec q l x n x' : rte_eth_tx_burst q l x = (n, x') ->
    0 <= n <= len l /\ held x' = held x - n /\ clock x <= clock x';
  enq_spec r m x b x' : rte_ring_mp_enqueue r m x = (b, x') ->
    held x' = held x - (if b then 1 else 0) /\ clock x <= clock x';
  enq_burst_spec r l x n x' : rte_ring_sp_enqueue_burst r l x = (n, x') ->
    0 <= n <= len l /\ held x' = held x - n /\ clock x <= clock x';
  deq_spec r x l x' : rte_ring_sc_dequeue_burst r x = (l, x') ->
    len l <= BURST_SIZE /\ Forall mbuf_ok l /\ held x' = held x + len l /\ clock x <= clock x';
  free_spec m x : held (rte_pktmbuf_free m x) = held x - 1 /\ clock x <= clock (rte_pktmbuf_free m x);
  tsc_spec x n x' : rte_rdtsc x = (n, x') -> n = clock x' /\ held x' = held x /\ clock x <= clock x'
}.

(** A world that satisfies the laws: received packets still to come per queue,
    the packets held, and a clock. *)
Record Toy := mkToy { toy_rx : list Mbuf; toy_held : Z; toy_clock : Z; toy_sent : list Mbuf }.

Definition mbuf_okb (m : Mbuf) : bool := frameb (mdata m) && (len (mdata m) <=? 65535).

#[export] Instance toy_io : RteIo := {|
  world := Toy;
  rte_eth_rx_burst q x :=
    let l := filter (fun m => mbuf_okb m = true) (take 64 (toy_rx x)) in
    (l, mkToy (drop 64 (toy_rx x)) (toy_held x + len l) (toy_clock x) (toy_sent x));
  rte_eth_tx_burst q l x := (len l, mkToy (toy_rx x) (toy_held x - len l) (toy_clock x) (toy_sent x ++ l));
  rte_ring_mp_enqueue r m x := (true, mkToy (toy_rx x) (toy_held x - 1) (toy_clock x) (toy_sent x));
  rte_ring_sp_enqueue_burst r l x := (len l, mkToy (toy_rx x) (toy_held x - len l) (toy_clock x) (toy_sent x));
  rte_ring_sc_dequeue_burst r x := ([], x);
  rte_pktmbuf_free m x := mkToy (toy_rx x) (toy_held x - 1) (toy_clock x) (toy_sent x);
  rte_rdtsc x := (Z.max 0 (Z.min (toy_clock x) 3000000000000), x)
|}.

Lemma mbuf_okb_ok m : mbuf_okb m = true -> mbuf_ok m.
Proof.
  unfold mbuf_okb. rewrite andb_true_iff, Z.leb_le. intros [H1 H2]. split; [by apply frameb_frame|done].
Qed.

#[export] Instance toy_io_laws : RteIoLaws toy_io.
Proof.
  assert (B : forall l : list Mbuf, len (filter (fun m => mbuf_okb m = true) (take 64 l)) <= BURST_SIZE).
  { intros l. unfold len, BURST_SIZE. apply (Nat2Z.inj_le _ 64). etransitivity; [apply length_filter|].
    rewrite length_take. lia. }
  refine {| held := toy_held : @world toy_io -> Z; clock := fun x => Z.max 0 (Z.min (toy_clock x) 3000000000000) |}; cbn.
  - intros x. unfold is_u64. lia.
  - intros q x l x' [= <- <-]. split; [apply B|]. split; [|done].
    apply Forall_forall. intros m [Hm _]%list_elem_of_filter. by apply mbuf_okb_ok.
  - intros q l x n x' [= <- <-]. pose proof (len_nonneg l). split; [unfold len in *; lia|done].
  - by intros r m x b x' [= <- <-].
  - intros q l x n x' [= <- <-]. pose proof (len_nonneg l). split; [unfold len in *; lia|done].
  - intros r x l x' [= <- <-]. split; [unfold BURST_SIZE, len; cbn; lia|]. split; [constructor|]. split; [unfold len; cbn; lia|done].
  - done.
  - by intros x n x' [= <- <-].
Defined.
