(* ===== verification/Dlist.v ===== *)
(** Intrusive doubly linked lists over an index space.

    [nx] and [pv] are the link fields read as functions of the index; a
    segment relates a head pointer to the ghost list of the indices on it. *)
From S2P Require Import Prelude.

Section Dlist.
Implicit Types (nx pv : Z -> Z) (l : list Z).

(** [dseg nx pv p h l e]: from [h], following [nx] visits exactly [l] and ends
    at [e]; the back pointers lead to [p]. *)
Fixpoint dseg nx pv (p h : Z) l (e : Z) : Prop :=
  match l with
  | [] => h = e
  | i :: l => h = i /\ pv i = p /\ dseg nx pv i (nx i) l e
  end.

Definition last_or (p : Z) l : Z := default p (last l).

Lemma last_or_snoc p l i : last_or p (l ++ [i]) = i.
Proof. unfold last_or. by rewrite last_snoc. Qed.

Lemma last_or_cons p i l : last_or p (i :: l) = last_or i l.
Proof. unfold last_or. destruct l; [done|]. by rewrite last_cons_cons, !last_cons; destruct (last l). Qed.

Lemma dseg_app nx pv p h l1 l2 e :
  dseg nx pv p h (l1 ++ l2) e <->
  exists m, dseg nx pv p h l1 m /\ dseg nx pv (last_or p l1) m l2 e.
Proof.
  revert p h. induction l1 as [|i l1 IH]; intros p h; simpl.
  - split; [intros; exists h; auto | by intros (m & -> & ?)].
  - rewrite last_or_cons. split.
    + intros (-> & Hp & (m & ? & ?)%IH). exists m; auto.
    + intros (m & (-> & Hp & ?) & ?). rewrite IH. eauto 6.
Qed.

Lemma dseg_frame nx pv nx' pv' p h l e :
  (forall j, j ∈ l -> nx' j = nx j /\ pv' j = pv j) ->
  dseg nx pv p h l e -> dseg nx' pv' p h l e.
Proof.
  revert p h. induction l as [|i l IH]; intros p h Hf; simpl; [done|].
  intros (-> & Hp & Hl). destruct (Hf i) as [-> ->]; [set_solver|].
  split_and!; auto. apply IH; [set_solver|done].
Qed.

(** The first element's back pointer and the last element's forward pointer
    can be changed together with the segment's ends. *)
Lemma dseg_head_frame nx pv nx' pv' p p' i l e :
  NoDup (i :: l) ->
  pv' i = p' -> nx' i = nx i ->
  (forall j, j ∈ l -> nx' j = nx j /\ pv' j = pv j) ->
  dseg nx pv p i (i :: l) e -> dseg nx' pv' p' i (i :: l) e.
Proof.
  intros _ Hp Hn Hf (_ & _ & Hl). simpl. rewrite Hn. split_and!; auto.
  by apply (dseg_frame nx pv).
Qed.

Lemma dseg_last_frame nx pv nx' pv' p h l i e e' :
  NoDup (l ++ [i]) ->
  nx' i = e' -> pv' i = pv i ->
  (forall j, j ∈ l -> nx' j = nx j /\ pv' j = pv j) ->
  dseg nx pv p h (l ++ [i]) e -> dseg nx' pv' p h (l ++ [i]) e'.
Proof.
  intros _ Hn Hp Hf (m & Hl & -> & Hpi & _)%dseg_app.
  apply dseg_app. exists i. split; [by apply (dseg_frame nx pv)|].
  simpl. rewrite Hp. auto.
Qed.

(** Push at the front of a nil-terminated list. *)
Lemma dseg_push nx pv nx' pv' nil h l i :
  i ∉ l -> NoDup l ->
  nx' i = h -> pv' i = nil ->
  (h <> nil -> pv' h = i /\ nx' h = nx h) ->
  (forall j, j ∈ l -> j <> h -> nx' j = nx j /\ pv' j = pv j) ->
  nil ∉ l ->
  dseg nx pv nil h l nil -> dseg nx' pv' nil i (i :: l) nil.
Proof.
  intros Hi Hnd Hn Hp Hh Hf Hnil Hl. simpl. split_and!; auto. rewrite Hn.
  destruct l as [|j l]; simpl in *; [done|].
  destruct Hl as (-> & Hpj & Hl).
  apply NoDup_cons in Hnd as [Hj Hnd].
  destruct (Hh ltac:(set_solver)) as [-> ->]. split_and!; auto.
  apply (dseg_frame nx pv); [|done]. intros k Hk. apply Hf; set_solver.
Qed.

(** Membership facts of a nil-terminated list. *)
Lemma dseg_prev_nil nx pv nil h l1 i l2 :
  nil ∉ l1 ++ i :: l2 -> dseg nx pv nil h (l1 ++ i :: l2) nil ->
  pv i = nil -> l1 = [].
Proof.
  intros Hnil (m & Hl1 & -> & Hp & _)%dseg_app Hi.
  destruct l1 as [|j l1 _] using rev_ind; [done|].
  rewrite last_or_snoc in Hp. set_solver.
Qed.

Lemma dseg_next_nil nx pv p nil h l1 i l2 :
  nil ∉ l2 -> dseg nx pv p h (l1 ++ i :: l2) nil -> nx i = nil -> l2 = [].
Proof.
  intros Hnil (m & Hl1 & -> & Hp & Hl2)%dseg_app Hi.
  destruct l2 as [|j l2]; [done|]. simpl in Hl2. set_solver.
Qed.

(** The back pointer of an element is on the list, and so is its successor. *)
Lemma dseg_prev_in nx pv nil h l1 i l2 :
  dseg nx pv nil h (l1 ++ i :: l2) nil -> pv i <> nil -> last l1 = Some (pv i).
Proof.
  intros (m & Hl1 & -> & Hp & _)%dseg_app Hi.
  unfold last_or in Hp. destruct (last l1); simpl in *; congruence.
Qed.

Lemma dseg_next_in nx pv nil h l1 i l2 :
  dseg nx pv nil h (l1 ++ i :: l2) nil -> nx i <> nil -> head l2 = Some (nx i).
Proof.
  intros (m & Hl1 & -> & Hp & Hl2)%dseg_app Hi.
  destruct l2 as [|j l2]; simpl in *; [done|]. by destruct Hl2 as (-> & _).
Qed.

(** Unlinking one element. *)
Lemma dseg_unlink nx pv nx' pv' nil h h' l1 i l2 :
  NoDup (l1 ++ i :: l2) -> nil ∉ l1 ++ i :: l2 ->
  dseg nx pv nil h (l1 ++ i :: l2) nil ->
  h' = (if decide (pv i = nil) then nx i else h) ->
  (forall j, j ∈ l1 ++ l2 ->
     nx' j = (if decide (j = pv i) then nx i else nx j)
     /\ pv' j = (if decide (j = nx i) then pv i else pv j)) ->
  dseg nx' pv' nil h' (l1 ++ l2) nil.
Proof.
  intros Hnd Hnil Hd Hh' Hf.
  assert (Hd' := Hd). apply dseg_app in Hd as (m & Hl1 & -> & Hp & Hl2).
  apply NoDup_app in Hnd as (Hnd1 & Hdis & [Hi2 Hnd2]%NoDup_cons).
  assert (Hpi : pv i = last_or nil l1) by done.
  assert (Hi1 : i ∉ l1) by (intros ?; apply (Hdis i); set_solver).
  apply dseg_app. exists (nx i). split.
  - destruct l1 as [|j l1 _] using rev_ind; simpl in *.
    + rewrite Hh', decide_True; [done|]. by rewrite Hpi.
    + rewrite last_or_snoc in Hpi. rewrite decide_False in Hh' by set_solver.
      subst h'. assert (Hne : nx i ∉ l1 ++ [j]).
      { intros Hin. destruct l2 as [|k l2]; simpl in Hl2; [set_solver|].
        destruct Hl2 as (Hk & _). apply (Hdis (nx i)); set_solver. }
      eapply (dseg_last_frame nx pv); [done | | | | exact Hl1].
      * destruct (Hf j) as [-> _]; [set_solver|]. by rewrite decide_True.
      * destruct (Hf j) as [_ ->]; [set_solver|]. rewrite decide_False; set_solver.
      * intros k Hk. apply NoDup_app in Hnd1 as (_ & Hx & _).
        destruct (Hf k) as [-> ->]; [set_solver|].
        rewrite !decide_False; [done| set_solver | ].
        intros ->. apply (Hx (pv i)); set_solver.
  - destruct l2 as [|j l2]; simpl in Hl2; [done|].
    destruct Hl2 as (Hni & Hpj & Hl2).
    assert (Hpn : pv i ∉ j :: l2).
    { intros Hin. destruct l1 as [|k l1 _] using rev_ind; simpl in *.
      - unfold last_or in Hpi; simpl in Hpi. set_solver.
      - rewrite last_or_snoc in Hpi. apply (Hdis (pv i)); set_solver. }
    apply NoDup_cons in Hnd2 as [Hj Hnd2].
    rewrite Hni in *.
    eapply (dseg_head_frame nx pv); [ by constructor | | | | ].
    + destruct (Hf j) as [_ ->]; [set_solver|]. by rewrite decide_True.
    + destruct (Hf j) as [-> _]; [set_solver|]. rewrite decide_False; set_solver.
    + intros k Hk. destruct (Hf k) as [-> ->]; [set_solver|].
      rewrite !decide_False; [done|set_solver|set_solver].
    + simpl. split_and!; eauto.
Qed.

End Dlist.
