(* ===== verification/Session.v ===== *)
(** Per-worker session table: include/lb/session.h, src/lb/session.cpp.

    rte_hash index, a preallocated session array, a free-index stack and a
    time wheel of intrusive doubly linked lists.  Arrays are maps from the
    index to the element; pointers into the session array are indices, as in
    the source.  [DPDK]'s rte_hash is the [RteHash] parameter. *)
From S2P Require Import Prelude Types TcpState Dpdk.
Import Tcp.

Module Session.

Definition SF_TOA_PENDING : Z := 1.
Definition SF_FULLNAT : Z := 2.

Record Session := mkSession {
  client : FiveTuple;
  server : FiveTuple;
  rs_id : Z;
  svc_idx : Z;
  state : TcpState;
  fin_seen : Z;
  flags : Z;
  rs_mac : MacAddr;
  cli_mac : MacAddr;
  cli_src_mac : MacAddr;
  rs_mac_gen : Z;
  cli_mac_gen : Z;
  created_tick : Z;
  expire_tick : Z;
  pkts_in : Z;
  bytes_in : Z;
  pkts_out : Z;
  bytes_out : Z;
  slot_tick : Z;
  wheel_prev : Z;
  wheel_next : Z;
  in_pending : bool
}.

(** [Session{}]: value-initialised. *)
Definition Session_zero : Session :=
  mkSession FiveTuple_zero FiveTuple_zero 0 0 NONE 0 0 mac_zero mac_zero mac_zero
    0 0 0 0 0 0 0 0 0 0 0 false.

#[export] Instance Session_inhabited : Inhabited Session := populate Session_zero.

Definition set_client (v : FiveTuple) (s : Session) : Session :=
  mkSession v (server s) (rs_id s) (svc_idx s) (state s) (fin_seen s) (flags s)
    (rs_mac s) (cli_mac s) (cli_src_mac s) (rs_mac_gen s) (cli_mac_gen s)
    (created_tick s) (expire_tick s) (pkts_in s) (bytes_in s) (pkts_out s)
    (bytes_out s) (slot_tick s) (wheel_prev s) (wheel_next s) (in_pending
    s).
Definition set_server (v : FiveTuple) (s : Session) : Session :=
  mkSession (client s) v (rs_id s) (svc_idx s) (state s) (fin_seen s) (flags s)
    (rs_mac s) (cli_mac s) (cli_src_mac s) (rs_mac_gen s) (cli_mac_gen s)
    (created_tick s) (expire_tick s) (pkts_in s) (bytes_in s) (pkts_out s)
    (bytes_out s) (slot_tick s) (wheel_prev s) (wheel_next s) (in_pending
    s).
Definition set_rs_id (v : Z) (s : Session) : Session :=
  mkSession (client s) (server s) v (svc_idx s) (state s) (fin_seen s) (flags s)
    (rs_mac s) (cli_mac s) (cli_src_mac s) (rs_mac_gen s) (cli_mac_gen s)
    (created_tick s) (expire_tick s) (pkts_in s) (bytes_in s) (pkts_out s)
    (bytes_out s) (slot_tick s) (wheel_prev s) (wheel_next s) (in_pending
    s).
Definition set_svc_idx (v : Z) (s : Session) : Session :=
  mkSession (client s) (server s) (rs_id s) v (state s) (fin_seen s) (flags s)
    (rs_mac s) (cli_mac s) (cli_src_mac s) (rs_mac_gen s) (cli_mac_gen s)
    (created_tick s) (expire_tick s) (pkts_in s) (bytes_in s) (pkts_out s)
    (bytes_out s) (slot_tick s) (wheel_prev s) (wheel_next s) (in_pending
    s).
Definition set_state (v : TcpState) (s : Session) : Session :=
  mkSession (client s) (server s) (rs_id s) (svc_idx s) v (fin_seen s) (flags s)
    (rs_mac s) (cli_mac s) (cli_src_mac s) (rs_mac_gen s) (cli_mac_gen s)
    (created_tick s) (expire_tick s) (pkts_in s) (bytes_in s) (pkts_out s)
    (bytes_out s) (slot_tick s) (wheel_prev s) (wheel_next s) (in_pending
    s).
Definition set_fin_seen (v : Z) (s : Session) : Session :=
  mkSession (client s) (server s) (rs_id s) (svc_idx s) (state s) v (flags s)
    (rs_mac s) (cli_mac s) (cli_src_mac s) (rs_mac_gen s) (cli_mac_gen s)
    (created_tick s) (expire_tick s) (pkts_in s) (bytes_in s) (pkts_out s)
    (bytes_out s) (slot_tick s) (wheel_prev s) (wheel_next s) (in_pending
    s).
Definition set_flags (v : Z) (s : Session) : Session :=
  mkSession (client s) (server s) (rs_id s) (svc_idx s) (state s) (fin_seen s) v
    (rs_mac s) (cli_mac s) (cli_src_mac s) (rs_mac_gen s) (cli_mac_gen s)
    (created_tick s) (expire_tick s) (pkts_in s) (bytes_in s) (pkts_out s)
    (bytes_out s) (slot_tick s) (wheel_prev s) (wheel_next s) (in_pending
    s).
Definition set_rs_mac (v : MacAddr) (s : Session) : Session :=
  mkSession (client s) (server s) (rs_id s) (svc_idx s) (state s) (fin_seen s)
    (flags s) v (cli_mac s) (cli_src_mac s) (rs_mac_gen s) (cli_mac_gen s)
    (created_tick s) (expire_tick s) (pkts_in s) (bytes_in s) (pkts_out s)
    (bytes_out s) (slot_tick s) (wheel_prev s) (wheel_next s) (in_pending
    s).
Definition set_cli_mac (v : MacAddr) (s : Session) : Session :=
  mkSession (client s) (server s) (rs_id s) (svc_idx s) (state s) (fin_seen s)
    (flags s) (rs_mac s) v (cli_src_mac s) (rs_mac_gen s) (cli_mac_gen s)
    (created_tick s) (expire_tick s) (pkts_in s) (bytes_in s) (pkts_out s)
    (bytes_out s) (slot_tick s) (wheel_prev s) (wheel_next s) (in_pending
    s).
Definition set_cli_src_mac (v : MacAddr) (s : Session) : Session :=
  mkSession (client s) (server s) (rs_id s) (svc_idx s) (state s) (fin_seen s)
    (flags s) (rs_mac s) (cli_mac s) v (rs_mac_gen s) (cli_mac_gen s)
    (created_tick s) (expire_tick s) (pkts_in s) (bytes_in s) (pkts_out s)
    (bytes_out s) (slot_tick s) (wheel_prev s) (wheel_next s) (in_pending
    s).
Definition set_rs_mac_gen (v : Z) (s : Session) : Session :=
  mkSession (client s) (server s) (rs_id s) (svc_idx s) (state s) (fin_seen s)
    (flags s) (rs_mac s) (cli_mac s) (cli_src_mac s) v (cli_mac_gen s)
    (created_tick s) (expire_tick s) (pkts_in s) (bytes_in s) (pkts_out s)
    (bytes_out s) (slot_tick s) (wheel_prev s) (wheel_next s) (in_pending
    s).
Definition set_cli_mac_gen (v : Z) (s : Session) : Session :=
  mkSession (client s) (server s) (rs_id s) (svc_idx s) (state s) (fin_seen s)
    (flags s) (rs_mac s) (cli_mac s) (cli_src_mac s) (rs_mac_gen s) v
    (created_tick s) (expire_tick s) (pkts_in s) (bytes_in s) (pkts_out s)
    (bytes_out s) (slot_tick s) (wheel_prev s) (wheel_next s) (in_pending
    s).
Definition set_created_tick (v : Z) (s : Session) : Session :=
  mkSession (client s) (server s) (rs_id s) (svc_idx s) (state s) (fin_seen s)
    (flags s) (rs_mac s) (cli_mac s) (cli_src_mac s) (rs_mac_gen s)
    (cli_mac_gen s) v (expire_tick s) (pkts_in s) (bytes_in s) (pkts_out
    s) (bytes_out s) (slot_tick s) (wheel_prev s) (wheel_next s)
    (in_pending s).
Definition set_expire_tick (v : Z) (s : Session) : Session :=
  mkSession (client s) (server s) (rs_id s) (svc_idx s) (state s) (fin_seen s)
    (flags s) (rs_mac s) (cli_mac s) (cli_src_mac s) (rs_mac_gen s)
    (cli_mac_gen s) (created_tick s) v (pkts_in s) (bytes_in s) (pkts_out
    s) (bytes_out s) (slot_tick s) (wheel_prev s) (wheel_next s)
    (in_pending s).
Definition set_pkts_in (v : Z) (s : Session) : Session :=
  mkSession (client s) (server s) (rs_id s) (svc_idx s) (state s) (fin_seen s)
    (flags s) (rs_mac s) (cli_mac s) (cli_src_mac s) (rs_mac_gen s)
    (cli_mac_gen s) (created_tick s) (expire_tick s) v (bytes_in s)
    (pkts_out s) (bytes_out s) (slot_tick s) (wheel_prev s) (wheel_next s)
    (in_pending s).
Definition set_bytes_in (v : Z) (s : Session) : Session :=
  mkSession (client s) (server s) (rs_id s) (svc_idx s) (state s) (fin_seen s)
    (flags s) (rs_mac s) (cli_mac s) (cli_src_mac s) (rs_mac_gen s)
    (cli_mac_gen s) (created_tick s) (expire_tick s) (pkts_in s) v
    (pkts_out s) (bytes_out s) (slot_tick s) (wheel_prev s) (wheel_next s)
    (in_pending s).
Definition set_pkts_out (v : Z) (s : Session) : Session :=
  mkSession (client s) (server s) (rs_id s) (svc_idx s) (state s) (fin_seen s)
    (flags s) (rs_mac s) (cli_mac s) (cli_src_mac s) (rs_mac_gen s)
    (cli_mac_gen s) (created_tick s) (expire_tick s) (pkts_in s) (bytes_in
    s) v (bytes_out s) (slot_tick s) (wheel_prev s) (wheel_next s)
    (in_pending s).
Definition set_bytes_out (v : Z) (s : Session) : Session :=
  mkSession (client s) (server s) (rs_id s) (svc_idx s) (state s) (fin_seen s)
    (flags s) (rs_mac s) (cli_mac s) (cli_src_mac s) (rs_mac_gen s)
    (cli_mac_gen s) (created_tick s) (expire_tick s) (pkts_in s) (bytes_in
    s) (pkts_out s) v (slot_tick s) (wheel_prev s) (wheel_next s)
    (in_pending s).
Definition set_slot_tick (v : Z) (s : Session) : Session :=
  mkSession (client s) (server s) (rs_id s) (svc_idx s) (state s) (fin_seen s)
    (flags s) (rs_mac s) (cli_mac s) (cli_src_mac s) (rs_mac_gen s)
    (cli_mac_gen s) (created_tick s) (expire_tick s) (pkts_in s) (bytes_in
    s) (pkts_out s) (bytes_out s) v (wheel_prev s) (wheel_next s)
    (in_pending s).
Definition set_wheel_prev (v : Z) (s : Session) : Session :=
  mkSession (client s) (server s) (rs_id s) (svc_idx s) (state s) (fin_seen s)
    (flags s) (rs_mac s) (cli_mac s) (cli_src_mac s) (rs_mac_gen s)
    (cli_mac_gen s) (created_tick s) (expire_tick s) (pkts_in s) (bytes_in
    s) (pkts_out s) (bytes_out s) (slot_tick s) v (wheel_next s)
    (in_pending s).
Definition set_wheel_next (v : Z) (s : Session) : Session :=
  mkSession (client s) (server s) (rs_id s) (svc_idx s) (state s) (fin_seen s)
    (flags s) (rs_mac s) (cli_mac s) (cli_src_mac s) (rs_mac_gen s)
    (cli_mac_gen s) (created_tick s) (expire_tick s) (pkts_in s) (bytes_in
    s) (pkts_out s) (bytes_out s) (slot_tick s) (wheel_prev s) v
    (in_pending s).
Definition set_in_pending (v : bool) (s : Session) : Session :=
  mkSession (client s) (server s) (rs_id s) (svc_idx s) (state s) (fin_seen s)
    (flags s) (rs_mac s) (cli_mac s) (cli_src_mac s) (rs_mac_gen s)
    (cli_mac_gen s) (created_tick s) (expire_tick s) (pkts_in s) (bytes_in
    s) (pkts_out s) (bytes_out s) (slot_tick s) (wheel_prev s) (wheel_next
    s) v.

Definition kNil : Z := 4294967295.
Definition kFree : Z := 4294967294.
Definition kWheelSlots : Z := 4096.
Definition kExpireBudget : Z := 4096.

Section SessionTable.
Context `{RH : RteHash FiveTuple}.

Record SessionTable := mkTable {
  hash_ : rte_hash FiveTuple;
  sessions_ : gmap Z Session;
  free_stack_ : gmap Z Z;
  free_top_ : Z;
  capacity_ : Z;
  slots_ : gmap Z Z;
  pending_ : Z;
  cur_tick_ : Z
}.

Definition with_hash_ (v : rte_hash FiveTuple) (s : SessionTable) : SessionTable :=
  mkTable v (sessions_ s) (free_stack_ s) (free_top_ s) (capacity_ s) (slots_ s)
    (pending_ s) (cur_tick_ s).
Definition with_sessions_ (v : gmap Z Session) (s : SessionTable) : SessionTable :=
  mkTable (hash_ s) v (free_stack_ s) (free_top_ s) (capacity_ s) (slots_ s)
    (pending_ s) (cur_tick_ s).
Definition with_free_stack_ (v : gmap Z Z) (s : SessionTable) : SessionTable :=
  mkTable (hash_ s) (sessions_ s) v (free_top_ s) (capacity_ s) (slots_ s)
    (pending_ s) (cur_tick_ s).
Definition with_free_top_ (v : Z) (s : SessionTable) : SessionTable :=
  mkTable (hash_ s) (sessions_ s) (free_stack_ s) v (capacity_ s) (slots_ s)
    (pending_ s) (cur_tick_ s).
Definition with_slots_ (v : gmap Z Z) (s : SessionTable) : SessionTable :=
  mkTable (hash_ s) (sessions_ s) (free_stack_ s) (free_top_ s) (capacity_ s) v
    (pending_ s) (cur_tick_ s).
Definition with_pending_ (v : Z) (s : SessionTable) : SessionTable :=
  mkTable (hash_ s) (sessions_ s) (free_stack_ s) (free_top_ s) (capacity_ s)
    (slots_ s) v (cur_tick_ s).
Definition with_cur_tick_ (v : Z) (s : SessionTable) : SessionTable :=
  mkTable (hash_ s) (sessions_ s) (free_stack_ s) (free_top_ s) (capacity_ s)
    (slots_ s) (pending_ s) v.

(** sessions_[i], and an in-place update of one element. *)
Definition at_ (t : SessionTable) (i : Z) : Session := sessions_ t !!! i.
Definition upd (t : SessionTable) (i : Z) (f : Session -> Session) : SessionTable :=
  with_sessions_ (<[i := f (at_ t i)]> (sessions_ t)) t.

Definition deadline (now_tick timeout : Z) : Z :=
  u64 (now_tick + (if timeout =? 0 then 1 else timeout) + 1).

Definition slot_of (tick : Z) : Z := Z.land tick (kWheelSlots - 1).

(** *** Time-wheel lists *)

Definition wheel_link (t : SessionTable) (idx tick : Z) : SessionTable :=
  let tick := if tick <? cur_tick_ t then cur_tick_ t else tick in
  let slot := slot_of tick in
  let next := slots_ t !!! slot in
  let t := upd t idx (fun s =>
    set_wheel_next next (set_wheel_prev kNil (set_in_pending false (set_slot_tick tick s)))) in
  let t := if next =? kNil then t else upd t next (set_wheel_prev idx) in
  with_slots_ (<[slot := idx]> (slots_ t)) t.

(** The list head is [pending_] or a slot, chosen by [in_pending]. *)
Definition set_head (t : SessionTable) (s : Session) (v : Z) : SessionTable :=
  if in_pending s then with_pending_ v t
  else with_slots_ (<[slot_of (slot_tick s) := v]> (slots_ t)) t.

Definition wheel_unlink (t : SessionTable) (idx : Z) : SessionTable :=
  let s := at_ t idx in
  let t := if wheel_prev s =? kNil then set_head t s (wheel_next s)
           else upd t (wheel_prev s) (set_wheel_next (wheel_next s)) in
  let t := if wheel_next s =? kNil then t
           else upd t (wheel_next s) (set_wheel_prev (wheel_prev s)) in
  upd t idx (fun s => set_wheel_next kNil (set_wheel_prev kNil s)).

Definition pending_push (t : SessionTable) (idx : Z) : SessionTable :=
  let old := pending_ t in
  let t := upd t idx (fun s =>
    set_wheel_next old (set_wheel_prev kNil (set_in_pending true s))) in
  let t := if old =? kNil then t else upd t old (set_wheel_prev idx) in
  with_pending_ idx t.

Definition pending_pop (t : SessionTable) : Z * SessionTable :=
  let idx := pending_ t in
  let t := wheel_unlink t idx in
  (idx, upd t idx (set_in_pending false)).

(** *** Public operations *)

(** [init] fails when rte_hash_create or one of the huge-page allocations
    ([alloc_ok]) does. *)
Definition init (capacity now_tick : Z) (alloc_ok : bool) : option SessionTable :=
  h ← rte_hash_create (u32 (capacity * 2 + capacity / 2));
  if alloc_ok then
    let idx := seqZ 0 capacity in
    Some (mkTable h
      (list_to_map ((fun i => (i, set_wheel_prev kFree Session_zero)) <$> idx))
      (list_to_map ((fun i => (i, capacity - 1 - i)) <$> idx))
      capacity capacity
      (list_to_map ((fun i => (i, kNil)) <$> seqZ 0 kWheelSlots))
      kNil now_tick)
  else None.

Definition lookup (t : SessionTable) (key : FiveTuple) : option Z :=
  rte_hash_lookup_data (hash_ t) key.

Definition key_in_use (t : SessionTable) (key : FiveTuple) : bool :=
  bool_decide (is_Some (lookup t key)).

(** Fill the slot of a fresh session and link it into the wheel. *)
Definition create_fill (t : SessionTable) (idx : Z) (client : FiveTuple)
    (server : option FiveTuple) (now_tick timeout : Z) : SessionTable :=
  let s := set_client client Session_zero in
  let s := match server with
           | Some k => set_flags (Z.lor (flags s) SF_FULLNAT) (set_server k s)
           | None => s
           end in
  let s := set_expire_tick (deadline now_tick timeout) (set_created_tick now_tick s) in
  let t := upd t idx (fun _ => s) in
  wheel_link t idx (deadline now_tick timeout).

(** Returns the index of the new session ([None]: nullptr) and the table. *)
Definition create (t : SessionTable) (client : FiveTuple) (server : option FiveTuple)
    (now_tick timeout : Z) : option Z * SessionTable :=
  if free_top_ t =? 0 then (None, t)
  else
    let idx := free_stack_ t !!! (free_top_ t - 1) in
    match rte_hash_add_key_data (hash_ t) client idx with
    | None => (None, t)
    | Some h =>
      let t := with_hash_ h t in
      match server with
      | None =>
        let t := with_free_top_ (free_top_ t - 1) t in
        (Some idx, create_fill t idx client server now_tick timeout)
      | Some k =>
        match rte_hash_add_key_data (hash_ t) k idx with
        | None => (None, with_hash_ (rte_hash_del_key (hash_ t) client) t)
        | Some h =>
          let t := with_free_top_ (free_top_ t - 1) (with_hash_ h t) in
          (Some idx, create_fill t idx client server now_tick timeout)
        end
      end
    end.

Definition remove (t : SessionTable) (idx : Z) : SessionTable :=
  let s := at_ t idx in
  let t := with_hash_ (rte_hash_del_key (hash_ t) (client s)) t in
  let t := if has_flag (flags s) SF_FULLNAT
           then with_hash_ (rte_hash_del_key (hash_ t) (server s)) t else t in
  let t := wheel_unlink t idx in
  let t := upd t idx (set_wheel_prev kFree) in
  with_free_top_ (free_top_ t + 1)
    (with_free_stack_ (<[free_top_ t := idx]> (free_stack_ t)) t).

Definition touch (t : SessionTable) (idx now_tick timeout : Z) : SessionTable :=
  let exp := deadline now_tick timeout in
  let s := at_ t idx in
  let t := if (exp <? slot_tick s) && negb (in_pending s)
           then wheel_link (wheel_unlink t idx) idx exp else t in
  upd t idx (set_expire_tick exp).

(** Inner loop of [expire]: move one slot's list to the pending list. *)
Fixpoint take_chain (fuel : nat) (t : SessionTable) (head : Z) : option SessionTable :=
  if head =? kNil then Some t
  else match fuel with
       | O => None
       | S fuel =>
         let next := wheel_next (at_ t head) in
         take_chain fuel (pending_push t head) next
       end.

(** Outer loop of [expire].  [None]: out of fuel. *)
Fixpoint expire_loop (fuel : nat) (t : SessionTable) (now_tick removed budget : Z)
  : option (SessionTable * Z) :=
  if budget =? 0 then Some (t, removed)
  else match fuel with
  | O => None
  | S fuel =>
    if pending_ t =? kNil then
      if now_tick <? cur_tick_ t then Some (t, removed)
      else
        let slot := slot_of (cur_tick_ t) in
        let head := slots_ t !!! slot in
        let t := with_slots_ (<[slot := kNil]> (slots_ t)) t in
        t ← take_chain (Z.to_nat (capacity_ t)) t head;
        expire_loop fuel (with_cur_tick_ (u64 (cur_tick_ t + 1)) t) now_tick removed budget
    else
      let '(idx, t) := pending_pop t in
      if expire_tick (at_ t idx) <=? now_tick
      then expire_loop fuel (remove t idx) now_tick (removed + 1) (budget - 1)
      else expire_loop fuel (wheel_link t idx (expire_tick (at_ t idx)))
             now_tick removed (budget - 1)
  end.

(** Every iteration uses up one unit of budget or one tick. *)
Definition expire_fuel (t : SessionTable) (now_tick : Z) : nat :=
  Z.to_nat (kExpireBudget + Z.max 0 (now_tick + 1 - cur_tick_ t) + 1).

Definition expire (t : SessionTable) (now_tick : Z) : option (SessionTable * Z) :=
  expire_loop (expire_fuel t now_tick) t now_tick 0 kExpireBudget.

Definition active (t : SessionTable) : Z := capacity_ t - free_top_ t.

End SessionTable.

End Session.
