(* ===== verification/SessionInv.v ===== *)
(** Invariants of the session table and their preservation. *)
From S2P Require Import Prelude Types TcpState Dpdk Dlist Session.
Import Tcp Session.

Module SessionInv.

(** What the wheel operations never change in a session. *)
Definition data (s : Session) : Session :=
  set_slot_tick 0 (set_in_pending false (set_wheel_next 0 (set_wheel_prev 0 s))).

Section Wheel.
Context `{RH : RteHash FiveTuple}.
Implicit Types t : SessionTable.

Definition nxt t (i : Z) : Z := wheel_next (at_ t i).
Definition prv t (i : Z) : Z := wheel_prev (at_ t i).

(** A session is in use unless its [wheel_prev] carries the free mark. *)
Definition live t (i : Z) : Prop := 0 <= i < capacity_ t /\ prv t i <> kFree.

(** [W] and [P] are the ghost contents of the slot lists and the pending list;
    [X] are the live sessions that are on no list at this moment. *)
Record wheel_ok t (W : Z -> list Z) (P X : list Z) : Prop := {
  wk_cap : 0 < capacity_ t <= kFree;
  wk_dom i : is_Some (sessions_ t !! i) <-> 0 <= i < capacity_ t;
  wk_sdom k : is_Some (slots_ t !! k) <-> 0 <= k < kWheelSlots;
  wk_slot k : 0 <= k < kWheelSlots ->
    dseg (nxt t) (prv t) kNil (slots_ t !!! k) (W k) kNil;
  wk_pend : dseg (nxt t) (prv t) kNil (pending_ t) P kNil;
  wk_W k i : 0 <= k < kWheelSlots ->
    i ∈ W k <-> live t i /\ i ∉ X /\ in_pending (at_ t i) = false
                /\ slot_of (slot_tick (at_ t i)) = k;
  wk_P i : i ∈ P <-> live t i /\ i ∉ X /\ in_pending (at_ t i) = true;
  wk_Wnd k : 0 <= k < kWheelSlots -> NoDup (W k);
  wk_Pnd : NoDup P;
  wk_Xlive i : i ∈ X -> live t i
}.

Lemma slot_of_range tick : 0 <= slot_of tick < kWheelSlots.
Proof.
  unfold slot_of, kWheelSlots. change (4096 - 1) with (Z.ones 12).
  rewrite Z.land_ones by lia. apply Z.mod_pos_bound. lia.
Qed.

Lemma slot_of_mod tick : slot_of tick = tick mod 4096.
Proof. unfold slot_of. change (kWheelSlots - 1) with (Z.ones 12). by rewrite Z.land_ones by lia. Qed.

Lemma at_upd t i f j :
  at_ (upd t i f) j = if decide (i = j) then f (at_ t i) else at_ t j.
Proof.
  unfold at_, upd; simpl. case_decide.
  - subst. by rewrite lookup_total_insert_eq.
  - by rewrite lookup_total_insert_ne.
Qed.

Lemma at_upd_proj {A} (p : Session -> A) t i f j :
  (forall s, p (f s) = p s) -> p (at_ (upd t i f) j) = p (at_ t j).
Proof. intros Hf. rewrite at_upd. case_decide; [subst; apply Hf | done]. Qed.

(** An in-place update never leaves the array. *)
Definition dom_is (t : SessionTable) (D : Z -> Prop) : Prop :=
  forall j, is_Some (sessions_ t !! j) <-> D j.

Lemma upd_dom_is t i f D : dom_is t D -> D i -> dom_is (upd t i f) D.
Proof.
  intros Ht Hi j. unfold upd; simpl. destruct (decide (i = j)) as [->|].
  - rewrite lookup_insert_eq. naive_solver.
  - rewrite lookup_insert_ne by done. apply Ht.
Qed.

Lemma live_lt t i : live t i -> 0 <= i < capacity_ t.
Proof. by intros []. Qed.

Lemma live_not_nil t W P X i : wheel_ok t W P X -> live t i -> i <> kNil.
Proof. intros [] []. unfold kNil, kFree in *. lia. Qed.

Lemma nil_not_in_W t W P X k :
  wheel_ok t W P X -> 0 <= k < kWheelSlots -> kNil ∉ W k.
Proof.
  intros Hok Hk (Hl & _)%(wk_W _ _ _ _ Hok _ _ Hk).
  by apply (live_not_nil _ _ _ _ _ Hok) in Hl.
Qed.

Lemma nil_not_in_P t W P X : wheel_ok t W P X -> kNil ∉ P.
Proof.
  intros Hok (Hl & _)%(wk_P _ _ _ _ Hok).
  by apply (live_not_nil _ _ _ _ _ Hok) in Hl.
Qed.

(** *** wheel_unlink, field by field *)

Lemma at_set_head t s v j : at_ (set_head t s v) j = at_ t j.
Proof. unfold set_head. by destruct (in_pending s). Qed.

Ltac unlink_proj :=
  unfold wheel_unlink; cbv zeta;
  repeat match goal with
  | |- context [if ?a =? ?b then _ else _] => destruct (a =? b)
  | |- context [at_ (upd _ _ _) _] => rewrite at_upd_proj by done
  | |- context [at_ (set_head _ _ _) _] => rewrite at_set_head
  end; done.

Ltac unlink_cases :=
  unfold wheel_unlink, nxt, prv; cbv zeta;
  repeat match goal with
  | |- context [if ?a =? ?b then _ else _] => destruct (Z.eqb_spec a b)
  end;
  rewrite ?at_upd, ?at_set_head;
  repeat (case_decide; rewrite ?at_upd, ?at_set_head in *); subst; try congruence;
  try reflexivity; simpl; congruence.

Lemma unlink_data t i j : data (at_ (wheel_unlink t i) j) = data (at_ t j).
Proof. unlink_proj. Qed.
Lemma unlink_slot_tick t i j : slot_tick (at_ (wheel_unlink t i) j) = slot_tick (at_ t j).
Proof. unlink_proj. Qed.
Lemma unlink_in_pending t i j : in_pending (at_ (wheel_unlink t i) j) = in_pending (at_ t j).
Proof. unlink_proj. Qed.
Lemma unlink_prv_self t i : prv (wheel_unlink t i) i = kNil.
Proof. unlink_cases. Qed.
Lemma unlink_nxt_self t i : nxt (wheel_unlink t i) i = kNil.
Proof. unlink_cases. Qed.
Lemma unlink_nxt t i j :
  j <> i -> j <> kNil ->
  nxt (wheel_unlink t i) j = if decide (j = prv t i) then nxt t i else nxt t j.
Proof. intros. unlink_cases. Qed.
Lemma unlink_prv t i j :
  j <> i -> j <> kNil ->
  prv (wheel_unlink t i) j = if decide (j = nxt t i) then prv t i else prv t j.
Proof. intros. unlink_cases. Qed.

Lemma unlink_rest t i :
  capacity_ (wheel_unlink t i) = capacity_ t
  /\ cur_tick_ (wheel_unlink t i) = cur_tick_ t
  /\ hash_ (wheel_unlink t i) = hash_ t
  /\ free_top_ (wheel_unlink t i) = free_top_ t
  /\ free_stack_ (wheel_unlink t i) = free_stack_ t.
Proof.
  unfold wheel_unlink, set_head; cbv zeta.
  destruct (wheel_prev (at_ t i) =? kNil), (wheel_next (at_ t i) =? kNil), (in_pending (at_ t i)); auto.
Qed.

Lemma unlink_slots t i k :
  slots_ (wheel_unlink t i) !!! k =
    if decide (prv t i = kNil /\ in_pending (at_ t i) = false
               /\ slot_of (slot_tick (at_ t i)) = k)
    then nxt t i else slots_ t !!! k.
Proof.
  unfold wheel_unlink, set_head, nxt, prv; cbv zeta.
  destruct (Z.eqb_spec (wheel_prev (at_ t i)) kNil), (wheel_next (at_ t i) =? kNil),
    (in_pending (at_ t i)); simpl;
  repeat case_decide; destruct_and?; try naive_solver;
  subst; try (by rewrite lookup_total_insert_eq);
  rewrite lookup_total_insert_ne; naive_solver.
Qed.

Lemma unlink_pending t i :
  pending_ (wheel_unlink t i) =
    if decide (prv t i = kNil /\ in_pending (at_ t i) = true)
    then nxt t i else pending_ t.
Proof.
  unfold wheel_unlink, set_head, nxt, prv; cbv zeta.
  destruct (Z.eqb_spec (wheel_prev (at_ t i)) kNil), (wheel_next (at_ t i) =? kNil),
    (in_pending (at_ t i)); simpl; repeat case_decide; naive_solver.
Qed.

(** *** wheel_unlink preserves the invariant *)

Definition drop_idx (i : Z) (l : list Z) : list Z := filter (fun j => j <> i) l.

Lemma drop_idx_notin i l : i ∉ l -> drop_idx i l = l.
Proof.
  intros Hi. unfold drop_idx. induction l as [|j l IH]; [done|].
  rewrite filter_cons_True by set_solver. f_equal. apply IH. set_solver.
Qed.

Lemma drop_idx_split i l1 l2 : NoDup (l1 ++ i :: l2) -> drop_idx i (l1 ++ i :: l2) = l1 ++ l2.
Proof.
  intros (H1 & H2 & [H3 H4]%NoDup_cons)%NoDup_app.
  assert (i ∉ l1) by (intros ?; apply (H2 i); set_solver).
  unfold drop_idx. rewrite filter_app, filter_cons_False by naive_solver.
  fold (drop_idx i l1) (drop_idx i l2). by rewrite !drop_idx_notin.
Qed.

Lemma elem_of_drop_idx i j l : j ∈ drop_idx i l <-> j ∈ l /\ j <> i.
Proof. unfold drop_idx. rewrite list_elem_of_filter. naive_solver. Qed.

Lemma NoDup_drop_idx i l : NoDup l -> NoDup (drop_idx i l).
Proof. apply NoDup_filter. Qed.

(** The list a session is on. *)
Definition home (W : Z -> list Z) (P : list Z) t (i : Z) : list Z :=
  if in_pending (at_ t i) then P else W (slot_of (slot_tick (at_ t i))).

Definition home_head t (i : Z) : Z :=
  if in_pending (at_ t i) then pending_ t else slots_ t !!! slot_of (slot_tick (at_ t i)).

Lemma home_ok t W P X i :
  wheel_ok t W P X -> live t i -> i ∉ X ->
  i ∈ home W P t i /\ NoDup (home W P t i) /\ kNil ∉ home W P t i
  /\ dseg (nxt t) (prv t) kNil (home_head t i) (home W P t i) kNil.
Proof.
  intros Hok Hl HX. unfold home, home_head.
  pose proof (slot_of_range (slot_tick (at_ t i))) as Hk.
  destruct (in_pending (at_ t i)) eqn:Hp; split_and!.
  - by apply (wk_P _ _ _ _ Hok).
  - apply Hok.
  - by eapply nil_not_in_P.
  - apply Hok.
  - by apply (wk_W _ _ _ _ Hok).
  - by apply Hok.
  - by eapply nil_not_in_W.
  - by apply Hok.
Qed.

(** The neighbours of a linked session are nil or on the same list. *)
Lemma neighbours t W P X i :
  wheel_ok t W P X -> live t i -> i ∉ X ->
  (prv t i <> kNil -> prv t i ∈ home W P t i /\ prv t i <> i)
  /\ (nxt t i <> kNil -> nxt t i ∈ home W P t i /\ nxt t i <> i).
Proof.
  intros Hok Hl HX. destruct (home_ok _ _ _ _ _ Hok Hl HX) as (Hi & Hnd & _ & Hd).
  apply list_elem_of_split in Hi as (l1 & l2 & E). rewrite E in *.
  apply NoDup_app in Hnd as (_ & Hdis & [Hi2 _]%NoDup_cons). split; intros Hn.
  - pose proof (dseg_prev_in _ _ _ _ _ _ _ Hd Hn) as (l' & ->)%last_Some.
    split; [set_solver|]. intros Heq. apply (Hdis i); set_solver.
  - pose proof (dseg_next_in _ _ _ _ _ _ _ Hd Hn) as Hh.
    destruct l2; simplify_eq/=. split; [set_solver|]. intros Heq. set_solver.
Qed.

Lemma home_live t W P X i j :
  wheel_ok t W P X -> j ∈ home W P t i -> live t j /\ j ∉ X.
Proof.
  intros Hok. unfold home. pose proof (slot_of_range (slot_tick (at_ t i))).
  destruct (in_pending (at_ t i)).
  - intros ?%(wk_P _ _ _ _ Hok). naive_solver.
  - intros ?%(wk_W _ _ _ _ Hok); naive_solver.
Qed.

Lemma unlink_live t W P X i j :
  wheel_ok t W P X -> live t i -> i ∉ X ->
  live (wheel_unlink t i) j <-> live t j.
Proof.
  intros Hok Hl HX. unfold live. destruct (unlink_rest t i) as (-> & _).
  destruct (neighbours _ _ _ _ _ Hok Hl HX) as [Hp Hn].
  destruct (decide (j = i)) as [->|].
  - rewrite unlink_prv_self. unfold live in Hl. unfold kNil, kFree in *. naive_solver lia.
  - split; intros [Hr Hj]; split; auto.
    all: assert (j <> kNil) by (unfold kNil, kFree in *; pose proof (wk_cap _ _ _ _ Hok); unfold kFree in *; lia).
    all: rewrite unlink_prv in * by done; case_decide; auto.
    + subst j. destruct Hn as [Hn _]; [done|]. by apply (home_live _ _ _ _ _ _ Hok Hn).
    + subst j. destruct (decide (prv t i = kNil)) as [->|Hq]; [by vm_compute|].
      destruct Hp as [Hp _]; [done|]. apply (home_live _ _ _ _ _ _ Hok) in Hp as [[Hp _] _].
      pose proof (wk_cap _ _ _ _ Hok). lia.
Qed.

Lemma unlink_dom t W P X i :
  wheel_ok t W P X -> live t i -> i ∉ X ->
  (forall j, is_Some (sessions_ (wheel_unlink t i) !! j) <-> is_Some (sessions_ t !! j))
  /\ (forall k, is_Some (slots_ (wheel_unlink t i) !! k) <-> is_Some (slots_ t !! k)).
Proof.
  intros Hok Hl HX. destruct (neighbours _ _ _ _ _ Hok Hl HX) as [Hp Hn].
  assert (Hin : forall j, j ∈ home W P t i -> is_Some (sessions_ t !! j)).
  { intros j Hj. apply (wk_dom _ _ _ _ Hok).
    by apply (home_live _ _ _ _ _ _ Hok) in Hj as [[? _] _]. }
  assert (Hi : is_Some (sessions_ t !! i)) by (apply (wk_dom _ _ _ _ Hok), Hl).
  unfold nxt, prv in *. split.
  - change (dom_is (wheel_unlink t i) (fun j => is_Some (sessions_ t !! j))).
    unfold wheel_unlink, set_head; cbv zeta. apply upd_dom_is; [|done].
    destruct (Z.eqb_spec (wheel_next (at_ t i)) kNil) as [|n2];
      [|apply upd_dom_is; [|naive_solver]];
    (destruct (Z.eqb_spec (wheel_prev (at_ t i)) kNil) as [|n1];
      [by destruct (in_pending (at_ t i)) | apply upd_dom_is; [done|naive_solver]]).
  - intros k. unfold wheel_unlink, set_head; cbv zeta. destruct (Z.eqb_spec (wheel_prev (at_ t i)) kNil),
      (wheel_next (at_ t i) =? kNil), (in_pending (at_ t i)); simpl; try done.
    all: destruct (decide (slot_of (slot_tick (at_ t i)) = k)) as [<-|];
      [rewrite lookup_insert_eq, (wk_sdom _ _ _ _ Hok); split; [intros _; apply slot_of_range|done]
      | by rewrite lookup_insert_ne].
Qed.

(** What happens to any one list when [i] is unlinked. *)
Lemma unlink_list t W P X i h L :
  wheel_ok t W P X -> live t i -> i ∉ X ->
  NoDup L -> kNil ∉ L -> dseg (nxt t) (prv t) kNil h L kNil ->
  L = home W P t i \/ (forall j, j ∈ L -> j ∉ home W P t i) ->
  dseg (nxt (wheel_unlink t i)) (prv (wheel_unlink t i)) kNil
    (if decide (prv t i = kNil /\ i ∈ L) then nxt t i else h) (drop_idx i L) kNil.
Proof.
  intros Hok Hl HX Hnd Hnil Hd Hcase.
  destruct (home_ok _ _ _ _ _ Hok Hl HX) as (Hi & _ & _ & _).
  destruct (neighbours _ _ _ _ _ Hok Hl HX) as [Hp Hn].
  destruct Hcase as [->|Hdis].
  - apply list_elem_of_split in Hi as (l1 & l2 & E). rewrite E in *.
    rewrite drop_idx_split by done.
    eapply dseg_unlink; [done|done|exact Hd| |].
    + repeat case_decide; try done; set_solver.
    + intros j Hj.
      assert (j <> i).
      { apply NoDup_app in Hnd as (_ & Hx & [Hy _]%NoDup_cons). intros ->.
        apply elem_of_app in Hj as [Hj|]; [|done]. apply (Hx i); set_solver. }
      assert (j <> kNil) by set_solver.
      by rewrite unlink_nxt, unlink_prv.
  - assert (i ∉ L) by (intros ?; by apply (Hdis i)).
    rewrite drop_idx_notin by done. rewrite decide_False by naive_solver.
    eapply dseg_frame; [|exact Hd]. intros j Hj.
    assert (j <> i) by set_solver. assert (j <> kNil) by set_solver.
    rewrite unlink_nxt, unlink_prv by done.
    rewrite !decide_False; [done| |].
    + intros ->. destruct Hn as [Hn _]; [done|]. by apply (Hdis (nxt t i)).
    + intros ->. destruct Hp as [Hp _]; [done|]. by apply (Hdis (prv t i)).
Qed.

Lemma unlink_ok t W P X i :
  wheel_ok t W P X -> live t i -> i ∉ X ->
  wheel_ok (wheel_unlink t i) (fun k => drop_idx i (W k)) (drop_idx i P) (i :: X).
Proof.
  intros Hok Hl HX. destruct (unlink_rest t i) as (Hcap & _).
  destruct (unlink_dom _ _ _ _ _ Hok Hl HX) as [Hd1 Hd2].
  assert (Hlv := fun j => unlink_live _ _ _ _ _ j Hok Hl HX).
  split.
  - rewrite Hcap. apply Hok.
  - intros j. rewrite Hd1, Hcap. apply Hok.
  - intros k. rewrite Hd2. apply Hok.
  - intros k Hk. rewrite unlink_slots.
    pose proof (unlink_list _ _ _ _ i _ _ Hok Hl HX (wk_Wnd _ _ _ _ Hok k Hk)
      (nil_not_in_W _ _ _ _ _ Hok Hk) (wk_slot _ _ _ _ Hok k Hk)) as Hu.
    rewrite (decide_ext _ (prv t i = kNil /\ i ∈ W k)).
    2:{ rewrite (wk_W _ _ _ _ Hok _ _ Hk). naive_solver. }
    apply Hu. unfold home. destruct (in_pending (at_ t i)) eqn:Hp.
    + right. intros j (_ & _ & ? & _)%(wk_W _ _ _ _ Hok _ _ Hk) Hj%(wk_P _ _ _ _ Hok).
      naive_solver congruence.
    + destruct (decide (slot_of (slot_tick (at_ t i)) = k)) as [->|Hne]; [by left|].
      right. intros j (_ & _ & _ & ?)%(wk_W _ _ _ _ Hok _ _ Hk) Hj.
      apply (wk_W _ _ _ _ Hok) in Hj; [naive_solver|apply slot_of_range].
  - rewrite unlink_pending.
    pose proof (unlink_list _ _ _ _ i _ _ Hok Hl HX (wk_Pnd _ _ _ _ Hok)
      (nil_not_in_P _ _ _ _ Hok) (wk_pend _ _ _ _ Hok)) as Hu.
    rewrite (decide_ext _ (prv t i = kNil /\ i ∈ P)).
    2:{ rewrite (wk_P _ _ _ _ Hok). naive_solver. }
    apply Hu. unfold home. destruct (in_pending (at_ t i)) eqn:Hp; [by left|].
    right. intros j (_ & _ & ?)%(wk_P _ _ _ _ Hok) Hj.
    apply (wk_W _ _ _ _ Hok) in Hj; [naive_solver congruence|apply slot_of_range].
  - intros k j Hk. rewrite elem_of_drop_idx, (wk_W _ _ _ _ Hok _ _ Hk), Hlv,
      unlink_in_pending, unlink_slot_tick. set_solver.
  - intros j. rewrite elem_of_drop_idx, (wk_P _ _ _ _ Hok), Hlv, unlink_in_pending.
    set_solver.
  - intros k Hk. by apply NoDup_drop_idx, Hok.
  - apply NoDup_drop_idx, Hok.
  - intros j. rewrite Hlv, elem_of_cons. intros [->|?]; [done|]. by apply (wk_Xlive _ _ _ _ Hok).
Qed.

(** *** Pushing at the front of a list: wheel_link and pending_push *)

(** [t'] is [t] with [i] put in front of the list whose head was [h]. *)
Record pushed t t' (i h : Z) : Prop := {
  pu_ne : i <> h;
  pu_cap : capacity_ t' = capacity_ t;
  pu_nxt j : nxt t' j = if decide (j = i) then h else nxt t j;
  pu_prv j : j <> kNil ->
    prv t' j = if decide (j = h) then i else if decide (j = i) then kNil else prv t j
}.

Lemma pushed_live t t' i h j :
  pushed t t' i h -> live t i -> 0 < capacity_ t <= kFree ->
  (h <> kNil -> live t h) -> live t' j <-> live t j.
Proof.
  intros [Hne Hc Hn Hp] [Hi Hi'] Hcap Hh. unfold live. rewrite Hc.
  split; intros [Hr Hj]; split; auto.
  all: assert (j <> kNil) by (unfold kNil, kFree in *; lia).
  all: rewrite Hp in * by done; repeat case_decide; subst; auto.
  all: try (by destruct (Hh ltac:(done))); try lia; try by vm_compute.
Qed.

Lemma pushed_list t t' i h L :
  pushed t t' i h -> i ∉ L -> NoDup L -> kNil ∉ L -> i <> kNil ->
  dseg (nxt t) (prv t) kNil h L kNil -> dseg (nxt t') (prv t') kNil i (i :: L) kNil.
Proof.
  intros [Hne Hc Hn Hp] Hi Hnd Hnil Hin Hd.
  eapply (dseg_push (nxt t) (prv t)); [done|done| | | | |done|exact Hd].
  - by rewrite Hn, decide_True.
  - by rewrite Hp, decide_False, decide_True.
  - intros. split; [by rewrite Hp, decide_True | by rewrite Hn, decide_False].
  - intros j Hj Hjh. rewrite Hn, Hp by set_solver.
    rewrite !decide_False; set_solver.
Qed.

Lemma pushed_other t t' i h h' L :
  pushed t t' i h -> i ∉ L -> h ∉ L -> kNil ∉ L ->
  dseg (nxt t) (prv t) kNil h' L kNil -> dseg (nxt t') (prv t') kNil h' L kNil.
Proof.
  intros [Hne Hc Hn Hp] Hi Hh Hnil. apply dseg_frame. intros j Hj.
  rewrite Hn, Hp by set_solver. rewrite !decide_False; set_solver.
Qed.

Lemma dseg_head_in nx pv p h L : dseg nx pv p h L kNil -> h <> kNil -> h ∈ L.
Proof. destruct L; simpl; [done|]. intros (-> & _) _. set_solver. Qed.

Definition link_tick t (tick : Z) : Z := if tick <? cur_tick_ t then cur_tick_ t else tick.

Lemma link_tick_max t tick : link_tick t tick = Z.max tick (cur_tick_ t).
Proof. unfold link_tick. destruct (Z.ltb_spec tick (cur_tick_ t)); lia. Qed.

Lemma at_with_slots t v j : at_ (with_slots_ v t) j = at_ t j.
Proof. done. Qed.
Lemma at_with_pending t v j : at_ (with_pending_ v t) j = at_ t j.
Proof. done. Qed.
Lemma at_if (b : bool) t1 t2 j : at_ (if b then t1 else t2) j = if b then at_ t1 j else at_ t2 j.
Proof. by destruct b. Qed.

Lemma proj_link {A} (p : Session -> A) t i tick j :
  (forall v s, p (set_wheel_prev v s) = p s) -> (forall v s, p (set_wheel_next v s) = p s) ->
  p (at_ (wheel_link t i tick) j) =
    if decide (i = j)
    then p (set_in_pending false (set_slot_tick (link_tick t tick) (at_ t i)))
    else p (at_ t j).
Proof.
  intros Hp Hn. unfold wheel_link; cbv zeta. rewrite at_with_slots, at_if.
  fold (link_tick t tick).
  destruct (slots_ t !!! _ =? kNil); rewrite ?at_upd_proj by auto;
    rewrite at_upd; case_decide; rewrite ?Hn, ?Hp; done.
Qed.

Lemma proj_push {A} (p : Session -> A) t i j :
  (forall v s, p (set_wheel_prev v s) = p s) -> (forall v s, p (set_wheel_next v s) = p s) ->
  p (at_ (pending_push t i) j) =
    if decide (i = j) then p (set_in_pending true (at_ t i)) else p (at_ t j).
Proof.
  intros Hp Hn. unfold pending_push; cbv zeta. rewrite at_with_pending, at_if.
  destruct (pending_ t =? kNil); rewrite ?at_upd_proj by auto;
    rewrite at_upd; case_decide; rewrite ?Hn, ?Hp; done.
Qed.

Lemma link_pushed t i tick :
  i <> slots_ t !!! slot_of (link_tick t tick) ->
  pushed t (wheel_link t i tick) i (slots_ t !!! slot_of (link_tick t tick)).
Proof.
  intros Hne. split; [done| | |].
  - unfold wheel_link; cbv zeta. by destruct (_ =? kNil).
  - intros j. unfold nxt, wheel_link; cbv zeta. fold (link_tick t tick).
    rewrite at_with_slots, at_if. destruct (Z.eqb_spec (slots_ t !!! slot_of (link_tick t tick)) kNil);
      rewrite !at_upd; repeat case_decide; subst; simpl; congruence.
  - intros j Hj. unfold prv, wheel_link; cbv zeta. fold (link_tick t tick).
    rewrite at_with_slots, at_if. destruct (Z.eqb_spec (slots_ t !!! slot_of (link_tick t tick)) kNil);
      rewrite !at_upd; repeat case_decide; subst; simpl; congruence.
Qed.

Lemma push_pushed t i :
  i <> pending_ t -> pushed t (pending_push t i) i (pending_ t).
Proof.
  intros Hne. split; [done| | |].
  - unfold pending_push; cbv zeta. by destruct (_ =? kNil).
  - intros j. unfold nxt, pending_push; cbv zeta.
    rewrite at_with_pending, at_if. destruct (Z.eqb_spec (pending_ t) kNil);
      rewrite !at_upd; repeat case_decide; subst; simpl; congruence.
  - intros j Hj. unfold prv, pending_push; cbv zeta.
    rewrite at_with_pending, at_if. destruct (Z.eqb_spec (pending_ t) kNil);
      rewrite !at_upd; repeat case_decide; subst; simpl; congruence.
Qed.

Lemma link_rest t i tick :
  cur_tick_ (wheel_link t i tick) = cur_tick_ t
  /\ hash_ (wheel_link t i tick) = hash_ t
  /\ free_top_ (wheel_link t i tick) = free_top_ t
  /\ free_stack_ (wheel_link t i tick) = free_stack_ t
  /\ pending_ (wheel_link t i tick) = pending_ t
  /\ slots_ (wheel_link t i tick) = <[slot_of (link_tick t tick) := i]> (slots_ t).
Proof. unfold wheel_link, link_tick; cbv zeta. destruct (_ =? kNil); auto 7. Qed.

Lemma push_rest t i :
  cur_tick_ (pending_push t i) = cur_tick_ t
  /\ hash_ (pending_push t i) = hash_ t
  /\ free_top_ (pending_push t i) = free_top_ t
  /\ free_stack_ (pending_push t i) = free_stack_ t
  /\ slots_ (pending_push t i) = slots_ t
  /\ pending_ (pending_push t i) = i.
Proof. unfold pending_push; cbv zeta. destruct (_ =? kNil); auto 7. Qed.

Lemma link_dom_is t i tick D :
  dom_is t D -> D i -> (let h := slots_ t !!! slot_of (link_tick t tick) in h <> kNil -> D h) ->
  dom_is (wheel_link t i tick) D.
Proof.
  intros Ht Hi Hh. unfold wheel_link; cbv zeta. fold (link_tick t tick).
  destruct (Z.eqb_spec (slots_ t !!! slot_of (link_tick t tick)) kNil) as [|n];
    [|apply Hh in n]; match goal with |- dom_is (with_slots_ _ ?t') _ => change (dom_is t' D) end;
    auto using upd_dom_is.
Qed.

Lemma push_dom_is t i D :
  dom_is t D -> D i -> (pending_ t <> kNil -> D (pending_ t)) -> dom_is (pending_push t i) D.
Proof.
  intros Ht Hi Hh. unfold pending_push; cbv zeta.
  destruct (Z.eqb_spec (pending_ t) kNil) as [|n]; [|apply Hh in n];
    match goal with |- dom_is (with_pending_ _ ?t') _ => change (dom_is t' D) end;
    auto using upd_dom_is.
Qed.

Definition W_push (W : Z -> list Z) (k i : Z) : Z -> list Z :=
  fun k' => if decide (k' = k) then i :: W k' else W k'.

Lemma link_ok t W P X i tick :
  wheel_ok t W P (i :: X) -> i ∉ X ->
  wheel_ok (wheel_link t i tick) (W_push W (slot_of (link_tick t tick)) i) P X.
Proof.
  intros Hok HX. set (k0 := slot_of (link_tick t tick)). set (h := slots_ t !!! k0).
  assert (Hk0 : 0 <= k0 < kWheelSlots) by apply slot_of_range.
  assert (Hil : live t i) by (apply (wk_Xlive _ _ _ _ Hok); set_solver).
  assert (Hin := live_not_nil _ _ _ _ _ Hok Hil).
  assert (HiW : forall k, 0 <= k < kWheelSlots -> i ∉ W k).
  { intros k Hk (_ & ? & _)%(wk_W _ _ _ _ Hok _ _ Hk). set_solver. }
  assert (HiP : i ∉ P) by (intros (_ & ? & _)%(wk_P _ _ _ _ Hok); set_solver).
  pose proof (wk_slot _ _ _ _ Hok k0 Hk0) as Hd. fold h in Hd.
  assert (HhW : h <> kNil -> h ∈ W k0) by (intros; by eapply dseg_head_in).
  assert (Hhl : h <> kNil -> live t h) by (intros ?%HhW%(wk_W _ _ _ _ Hok); naive_solver).
  assert (Hne : i <> h).
  { intros Heq. destruct (decide (h = kNil)) as [E|E]; [congruence|].
    apply (HiW k0 Hk0). rewrite Heq. auto. }
  pose proof (link_pushed t i tick Hne) as Hpu.
  destruct (link_rest t i tick) as (_ & _ & _ & _ & Hpe & Hsl). fold k0 in Hpu, Hsl. fold h in Hpu.
  assert (Hlv := fun j => pushed_live _ _ _ _ j Hpu Hil (wk_cap _ _ _ _ Hok) Hhl).
  assert (Hip := fun j => proj_link in_pending t i tick j (fun _ _ => eq_refl) (fun _ _ => eq_refl)).
  assert (Hst := fun j => proj_link slot_tick t i tick j (fun _ _ => eq_refl) (fun _ _ => eq_refl)).
  split.
  - rewrite (pu_cap _ _ _ _ Hpu). apply Hok.
  - rewrite (pu_cap _ _ _ _ Hpu). apply (link_dom_is _ _ _ (fun j => 0 <= j < capacity_ t));
      [exact (wk_dom _ _ _ _ Hok)|apply Hil|].
    intros; by apply Hhl.
  - intros k. rewrite Hsl. destruct (decide (k0 = k)) as [<-|].
    + rewrite lookup_insert_eq. naive_solver.
    + rewrite lookup_insert_ne by done. apply Hok.
  - intros k Hk. rewrite Hsl. unfold W_push. case_decide.
    + subst k. rewrite lookup_total_insert_eq.
      eapply pushed_list; [exact Hpu|auto|by apply Hok|by eapply nil_not_in_W|done|done].
    + rewrite lookup_total_insert_ne by done.
      eapply pushed_other; [exact Hpu|auto| |by eapply nil_not_in_W|by apply Hok].
      intros Hh. destruct (decide (h = kNil)) as [E|E].
      { rewrite E in Hh. by apply (nil_not_in_W _ _ _ _ _ Hok Hk). }
      apply HhW, (wk_W _ _ _ _ Hok) in E; [|done]. apply (wk_W _ _ _ _ Hok) in Hh; naive_solver.
  - rewrite Hpe. eapply pushed_other; [exact Hpu|done| |by eapply nil_not_in_P|apply Hok].
    intros Hh. destruct (decide (h = kNil)) as [E|E].
    { rewrite E in Hh. by apply (nil_not_in_P _ _ _ _ Hok). }
    apply HhW, (wk_W _ _ _ _ Hok) in E; [|done]. apply (wk_P _ _ _ _ Hok) in Hh. naive_solver congruence.
  - intros k j Hk. rewrite Hlv, Hip, Hst. unfold W_push. case_decide.
    + subst k. case_decide.
      * subst j. simpl. set_solver.
      * rewrite elem_of_cons, (wk_W _ _ _ _ Hok _ _ Hk). set_solver.
    + case_decide.
      * subst j. simpl. split; [by intros ?%HiW|naive_solver].
      * rewrite (wk_W _ _ _ _ Hok _ _ Hk). set_solver.
  - intros j. rewrite Hlv, Hip. case_decide.
    + subst j. simpl. split; [done|naive_solver].
    + rewrite (wk_P _ _ _ _ Hok). set_solver.
  - intros k Hk. unfold W_push. case_decide; [constructor; [auto|by apply Hok]|by apply Hok].
  - apply Hok.
  - intros j Hj. apply Hlv, (wk_Xlive _ _ _ _ Hok). set_solver.
Qed.

Lemma push_ok t W P X i :
  wheel_ok t W P (i :: X) -> i ∉ X ->
  wheel_ok (pending_push t i) W (i :: P) X.
Proof.
  intros Hok HX. set (h := pending_ t).
  assert (Hil : live t i) by (apply (wk_Xlive _ _ _ _ Hok); set_solver).
  assert (Hin := live_not_nil _ _ _ _ _ Hok Hil).
  assert (HiW : forall k, 0 <= k < kWheelSlots -> i ∉ W k).
  { intros k Hk (_ & ? & _)%(wk_W _ _ _ _ Hok _ _ Hk). set_solver. }
  assert (HiP : i ∉ P) by (intros (_ & ? & _)%(wk_P _ _ _ _ Hok); set_solver).
  pose proof (wk_pend _ _ _ _ Hok) as Hd. fold h in Hd.
  assert (HhP : h <> kNil -> h ∈ P) by (intros; by eapply dseg_head_in).
  assert (Hhl : h <> kNil -> live t h) by (intros ?%HhP%(wk_P _ _ _ _ Hok); naive_solver).
  assert (Hne : i <> h).
  { intros Heq. destruct (decide (h = kNil)) as [E|E]; [congruence|].
    apply HiP. rewrite Heq. auto. }
  pose proof (push_pushed t i Hne) as Hpu.
  destruct (push_rest t i) as (_ & _ & _ & _ & Hsl & Hpe). fold h in Hpu.
  assert (Hlv := fun j => pushed_live _ _ _ _ j Hpu Hil (wk_cap _ _ _ _ Hok) Hhl).
  assert (Hip := fun j => proj_push in_pending t i j (fun _ _ => eq_refl) (fun _ _ => eq_refl)).
  assert (Hst := fun j => proj_push slot_tick t i j (fun _ _ => eq_refl) (fun _ _ => eq_refl)).
  split.
  - rewrite (pu_cap _ _ _ _ Hpu). apply Hok.
  - rewrite (pu_cap _ _ _ _ Hpu). apply (push_dom_is _ _ (fun j => 0 <= j < capacity_ t));
      [exact (wk_dom _ _ _ _ Hok)|apply Hil|].
    intros; by apply Hhl.
  - rewrite Hsl. apply Hok.
  - intros k Hk. rewrite Hsl.
    eapply pushed_other; [exact Hpu|auto| |by eapply nil_not_in_W|by apply Hok].
    intros Hh. destruct (decide (h = kNil)) as [E|E].
    { rewrite E in Hh. by apply (nil_not_in_W _ _ _ _ _ Hok Hk). }
    apply HhP, (wk_P _ _ _ _ Hok) in E. apply (wk_W _ _ _ _ Hok) in Hh; naive_solver congruence.
  - rewrite Hpe. eapply pushed_list; [exact Hpu|done|apply Hok|by eapply nil_not_in_P|done|done].
  - intros k j Hk. rewrite Hlv, Hip, Hst. case_decide.
    + subst j. simpl. split; [by intros ?%HiW|naive_solver].
    + rewrite (wk_W _ _ _ _ Hok _ _ Hk). set_solver.
  - intros j. rewrite Hlv, Hip, elem_of_cons. case_decide.
    + subst j. simpl. set_solver.
    + rewrite (wk_P _ _ _ _ Hok). set_solver.
  - apply Hok.
  - constructor; [done|apply Hok].
  - intros j Hj. apply Hlv, (wk_Xlive _ _ _ _ Hok). set_solver.
Qed.

(** *** Taking a slot's list *)

Lemma detach_ok t W P k :
  0 <= k < kWheelSlots -> wheel_ok t W P [] ->
  wheel_ok (with_slots_ (<[k := kNil]> (slots_ t)) t)
    (fun k' => if decide (k' = k) then [] else W k') P (W k).
Proof.
  intros Hk Hok. split.
  - apply Hok.
  - exact (wk_dom _ _ _ _ Hok).
  - intros k'. simpl. destruct (decide (k = k')) as [<-|].
    + rewrite lookup_insert_eq. naive_solver.
    + rewrite lookup_insert_ne by done. apply Hok.
  - intros k' Hk'. simpl. case_decide.
    + subst. by rewrite lookup_total_insert_eq.
    + rewrite lookup_total_insert_ne by done. by apply (wk_slot _ _ _ _ Hok).
  - exact (wk_pend _ _ _ _ Hok).
  - intros k' i Hk'. change (live _ i) with (live t i). rewrite at_with_slots. case_decide.
    + subst k'. rewrite (wk_W _ _ _ _ Hok _ _ Hk), elem_of_nil.
      pose proof (not_elem_of_nil i). naive_solver.
    + rewrite (wk_W _ _ _ _ Hok _ _ Hk'), (wk_W _ _ _ _ Hok _ _ Hk).
      pose proof (not_elem_of_nil i). naive_solver.
  - intros i. change (live _ i) with (live t i). rewrite at_with_slots, (wk_P _ _ _ _ Hok).
    rewrite (wk_W _ _ _ _ Hok _ _ Hk). pose proof (not_elem_of_nil i). naive_solver congruence.
  - intros k' Hk'. case_decide; [constructor|by apply Hok].
  - apply Hok.
  - intros i (? & _)%(wk_W _ _ _ _ Hok _ _ Hk). done.
Qed.

(** Fields of a session that [take_chain] keeps: all but the links and the
    pending mark. *)
Definition data_tick (s : Session) : Session :=
  set_in_pending false (set_wheel_next 0 (set_wheel_prev 0 s)).

Lemma push_data_tick t i j : data_tick (at_ (pending_push t i) j) = data_tick (at_ t j).
Proof. rewrite proj_push by done. case_decide; [by subst|done]. Qed.

Lemma take_chain_ok fuel t head p D W P :
  (length D <= fuel)%nat -> NoDup D ->
  dseg (nxt t) (prv t) p head D kNil -> wheel_ok t W P D ->
  exists t', take_chain fuel t head = Some t'
    /\ wheel_ok t' W (rev D ++ P) []
    /\ (forall j, data_tick (at_ t' j) = data_tick (at_ t j))
    /\ (forall j, live t' j <-> live t j)
    /\ capacity_ t' = capacity_ t /\ cur_tick_ t' = cur_tick_ t /\ hash_ t' = hash_ t
    /\ free_top_ t' = free_top_ t /\ free_stack_ t' = free_stack_ t.
Proof.
  revert t head p D P. induction fuel as [|fuel IH]; intros t head p D P Hlen Hnd Hd Hok.
  - destruct D; simpl in *; [|lia]. subst head. exists t. auto 10.
  - destruct D as [|i D]; simpl in Hd.
    { subst head. exists t. auto 10. }
    destruct Hd as (-> & Hp & Hd). apply NoDup_cons in Hnd as [HiD Hnd].
    assert (Hil : live t i) by (apply (wk_Xlive _ _ _ _ Hok); set_solver).
    pose proof (live_not_nil _ _ _ _ _ Hok Hil) as Hin.
    cbn [take_chain]. rewrite (proj2 (Z.eqb_neq _ _) Hin).
    pose proof (push_ok _ _ _ _ _ Hok HiD) as Hok'.
    assert (Hpd : pending_ t <> kNil -> pending_ t ∈ P).
    { intros. eapply dseg_head_in; [apply (wk_pend _ _ _ _ Hok)|done]. }
    assert (Hne : i <> pending_ t).
    { intros Heq. rewrite Heq in Hin.
      apply Hpd, (wk_P _ _ _ _ Hok) in Hin. set_solver. }
    pose proof (push_pushed t i Hne) as Hpu.
    assert (HnP : forall j, j ∈ D -> j <> pending_ t).
    { intros j Hj ->. destruct (decide (pending_ t = kNil)) as [E|E].
      - assert (live t kNil) as Hl by (rewrite <- E; apply (wk_Xlive _ _ _ _ Hok); set_solver).
        by apply (live_not_nil _ _ _ _ _ Hok) in Hl.
      - apply Hpd, (wk_P _ _ _ _ Hok) in E. set_solver. }
    edestruct (IH (pending_push t i) (nxt t i) i D (i :: P)) as (t' & Ht & Hok'' & Hda & Hlv & Hr).
    { simpl in Hlen. lia. }
    { done. }
    { eapply dseg_frame; [|exact Hd]. intros j Hj.
      assert (j <> kNil).
      { intros ->. assert (live t kNil) as Hl by (apply (wk_Xlive _ _ _ _ Hok); set_solver).
        by apply (live_not_nil _ _ _ _ _ Hok) in Hl. }
      rewrite (pu_nxt _ _ _ _ Hpu), (pu_prv _ _ _ _ Hpu) by done.
      rewrite !decide_False; [done|set_solver|by apply HnP|set_solver]. }
    { done. }
    fold (nxt t i). rewrite Ht. exists t'. split; [done|]. split.
    { simpl. rewrite <- app_assoc. done. }
    destruct (push_rest t i) as (R1 & R2 & R3 & R4 & _).
    destruct Hr as (Hr1 & Hr2 & Hr3 & Hr4 & Hr5).
    rewrite Hr1, Hr2, Hr3, Hr4, Hr5, R1, R2, R3, R4, (pu_cap _ _ _ _ Hpu).
    split_and!; try done.
    + intros j. rewrite Hda. apply push_data_tick.
    + intros j. rewrite Hlv. eapply pushed_live; [done|done|apply Hok|].
      intros ?%Hpd%(wk_P _ _ _ _ Hok). naive_solver.
Qed.

(** *** Sessions entering and leaving the wheel *)

Lemma upd_other t i f j : i <> j -> at_ (upd t i f) j = at_ t j.
Proof. intros. by rewrite at_upd, decide_False. Qed.

Lemma upd_self t i f : at_ (upd t i f) i = f (at_ t i).
Proof. by rewrite at_upd, decide_True. Qed.

Lemma dseg_upd t i f p h L e :
  i ∉ L -> dseg (nxt t) (prv t) p h L e ->
  dseg (nxt (upd t i f)) (prv (upd t i f)) p h L e.
Proof.
  intros Hi. apply dseg_frame. intros j Hj. unfold nxt, prv.
  rewrite upd_other; [done|set_solver].
Qed.

Lemma live_upd_other t i f j : i <> j -> live (upd t i f) j <-> live t j.
Proof. intros. unfold live, prv. by rewrite upd_other. Qed.

(** A free slot is filled: the session is live and on no list yet. *)
Lemma adopt_ok t W P X i f :
  wheel_ok t W P X -> 0 <= i < capacity_ t -> ~ live t i ->
  wheel_prev (f (at_ t i)) <> kFree ->
  wheel_ok (upd t i f) W P (i :: X).
Proof.
  intros Hok Hr Hnl Hf.
  assert (Hil : live (upd t i f) i) by (unfold live, prv; by rewrite upd_self).
  assert (HiW : forall k, 0 <= k < kWheelSlots -> i ∉ W k).
  { intros k Hk (? & _)%(wk_W _ _ _ _ Hok _ _ Hk). done. }
  assert (HiP : i ∉ P) by (by intros (? & _)%(wk_P _ _ _ _ Hok)).
  split.
  - apply Hok.
  - apply (upd_dom_is _ _ _ (fun j => 0 <= j < capacity_ t)); [exact (wk_dom _ _ _ _ Hok)|done].
  - apply Hok.
  - intros k Hk. by apply dseg_upd, Hok; [apply HiW|].
  - apply dseg_upd, Hok. done.
  - intros k j Hk. destruct (decide (i = j)) as [<-|Hne].
    + split; [by intros ?%HiW|set_solver].
    + rewrite live_upd_other, upd_other, (wk_W _ _ _ _ Hok _ _ Hk) by done. set_solver.
  - intros j. destruct (decide (i = j)) as [<-|Hne].
    + split; [done|set_solver].
    + rewrite live_upd_other, upd_other, (wk_P _ _ _ _ Hok) by done. set_solver.
  - apply Hok.
  - apply Hok.
  - intros j Hj. destruct (decide (i = j)) as [<-|Hne]; [done|].
    apply live_upd_other; [done|]. apply (wk_Xlive _ _ _ _ Hok). set_solver.
Qed.

(** A floating session is marked free. *)
Lemma abandon_ok t W P X i :
  wheel_ok t W P (i :: X) -> i ∉ X ->
  wheel_ok (upd t i (set_wheel_prev kFree)) W P X.
Proof.
  intros Hok HX.
  assert (Hil : live t i) by (apply (wk_Xlive _ _ _ _ Hok); set_solver).
  assert (Hnl : ~ live (upd t i (set_wheel_prev kFree)) i).
  { intros [_ H]. unfold prv in H. by rewrite upd_self in H. }
  assert (HiW : forall k, 0 <= k < kWheelSlots -> i ∉ W k).
  { intros k Hk (_ & ? & _)%(wk_W _ _ _ _ Hok _ _ Hk). set_solver. }
  assert (HiP : i ∉ P) by (intros (_ & ? & _)%(wk_P _ _ _ _ Hok); set_solver).
  split.
  - apply Hok.
  - apply (upd_dom_is _ _ _ (fun j => 0 <= j < capacity_ t)); [exact (wk_dom _ _ _ _ Hok)|apply Hil].
  - apply Hok.
  - intros k Hk. by apply dseg_upd, Hok; [apply HiW|].
  - apply dseg_upd, Hok. done.
  - intros k j Hk. destruct (decide (i = j)) as [<-|Hne].
    + split; [by intros ?%HiW|naive_solver].
    + rewrite live_upd_other, upd_other, (wk_W _ _ _ _ Hok _ _ Hk) by done. set_solver.
  - intros j. destruct (decide (i = j)) as [<-|Hne].
    + split; [done|naive_solver].
    + rewrite live_upd_other, upd_other, (wk_P _ _ _ _ Hok) by done. set_solver.
  - apply Hok.
  - apply Hok.
  - intros j Hj. destruct (decide (i = j)) as [<-|Hne]; [done|].
    apply live_upd_other; [done|]. apply (wk_Xlive _ _ _ _ Hok). set_solver.
Qed.

(** Updates that keep the links, the pending mark and the slot tick. *)
Lemma upd_neutral_ok t W P X i f :
  wheel_ok t W P X -> is_Some (sessions_ t !! i) ->
  (forall s, wheel_prev (f s) = wheel_prev s) -> (forall s, wheel_next (f s) = wheel_next s) ->
  (forall s, in_pending (f s) = in_pending s) -> (forall s, slot_tick (f s) = slot_tick s) ->
  wheel_ok (upd t i f) W P X.
Proof.
  intros Hok Hi H1 H2 H3 H4.
  assert (Hlv : forall j, live (upd t i f) j <-> live t j).
  { intros j. unfold live, prv. by rewrite at_upd_proj. }
  assert (Hds : forall p h L e, dseg (nxt t) (prv t) p h L e ->
    dseg (nxt (upd t i f)) (prv (upd t i f)) p h L e).
  { intros p h L e. apply dseg_frame. intros j _. unfold nxt, prv. by rewrite !at_upd_proj. }
  split.
  - apply Hok.
  - apply (upd_dom_is _ _ _ (fun j => 0 <= j < capacity_ t)); [exact (wk_dom _ _ _ _ Hok)|].
    by apply (wk_dom _ _ _ _ Hok).
  - apply Hok.
  - intros k Hk. by apply Hds, Hok.
  - apply Hds, Hok.
  - intros k j Hk. rewrite Hlv, !at_upd_proj by done. by apply Hok.
  - intros j. rewrite Hlv, !at_upd_proj by done. apply Hok.
  - apply Hok.
  - apply Hok.
  - intros j. rewrite Hlv. apply Hok.
Qed.

(** [pending_pop] on a non-empty pending list: the head floats. *)
Lemma pop_ok t W P i P' :
  wheel_ok t W P [] -> P = i :: P' ->
  exists t', pending_pop t = (i, t')
    /\ wheel_ok t' W P' [i]
    /\ in_pending (at_ t' i) = false /\ prv t' i = kNil /\ nxt t' i = kNil
    /\ (forall j, data_tick (at_ t' j) = data_tick (at_ t j))
    /\ (forall j, j <> i -> in_pending (at_ t' j) = in_pending (at_ t j))
    /\ (forall j, live t' j <-> live t j)
    /\ capacity_ t' = capacity_ t /\ cur_tick_ t' = cur_tick_ t /\ hash_ t' = hash_ t
    /\ free_top_ t' = free_top_ t /\ free_stack_ t' = free_stack_ t
    /\ slots_ t' = slots_ t.
Proof.
  intros Hok ->. pose proof (wk_pend _ _ _ _ Hok) as (Hpd & Hpv & _).
  assert (Hi : i ∈ i :: P') by set_solver.
  apply (wk_P _ _ _ _ Hok) in Hi as (Hil & _ & Hip).
  unfold pending_pop. rewrite Hpd. eexists. split; [reflexivity|].
  pose proof (unlink_ok _ _ _ _ i Hok Hil ltac:(set_solver)) as Hok1.
  pose proof (wk_Pnd _ _ _ _ Hok) as [HiP _]%NoDup_cons.
  assert (HiW : forall k, 0 <= k < kWheelSlots -> i ∉ W k).
  { intros k Hk (_ & _ & ? & _)%(wk_W _ _ _ _ Hok _ _ Hk). congruence. }
  assert (Hok2 : wheel_ok (wheel_unlink t i) W P' [i]).
  { destruct Hok1 as [A1 A2 A3 A4 A5 A6 A7 A8 A9 A10].
    assert (HE : drop_idx i (i :: P') = P')
      by (apply (drop_idx_split i [] P'), (wk_Pnd _ _ _ _ Hok)).
    rewrite HE in *.
    split; try done.
    - intros k Hk. specialize (A4 k Hk). by rewrite drop_idx_notin in A4 by auto.
    - intros k j Hk. specialize (A6 k j Hk). by rewrite drop_idx_notin in A6 by auto.
    - intros k Hk. by apply Hok. }
  clear Hok1. set (t1 := wheel_unlink t i) in *.
  assert (Hl1 : forall j, live t1 j <-> live t j).
  { intros. eapply unlink_live; [exact Hok|done|set_solver]. }
  assert (Hlv : forall j, live (upd t1 i (set_in_pending false)) j <-> live t j).
  { intros j. rewrite <- Hl1. unfold live, prv. by rewrite at_upd_proj. }
  destruct (unlink_rest t i) as (R1 & R2 & R3 & R4 & R5).
  split_and!; try done.
  - (* the pending mark of a floating session is irrelevant *)
    assert (Hds : forall p h L e, dseg (nxt t1) (prv t1) p h L e ->
      dseg (nxt (upd t1 i (set_in_pending false))) (prv (upd t1 i (set_in_pending false))) p h L e).
    { intros p h L e. apply dseg_frame. intros j _. unfold nxt, prv. by rewrite !at_upd_proj. }
    split.
    + apply Hok2.
    + apply (upd_dom_is _ _ _ (fun j => 0 <= j < capacity_ t1)); [exact (wk_dom _ _ _ _ Hok2)|].
      apply Hl1, Hil.
    + apply Hok2.
    + intros k Hk. by apply Hds, Hok2.
    + apply Hds, Hok2.
    + intros k j Hk. rewrite Hlv, <- Hl1. destruct (decide (i = j)) as [<-|].
      * split; [by intros ?%HiW|set_solver].
      * rewrite upd_other by done. by apply Hok2.
    + intros j. rewrite Hlv, <- Hl1. destruct (decide (i = j)) as [<-|].
      * split; [done|set_solver].
      * rewrite upd_other by done. by apply Hok2.
    + apply Hok2.
    + apply Hok2.
    + intros j. rewrite Hlv, <- Hl1. apply Hok2.
  - by rewrite upd_self.
  - unfold prv. rewrite at_upd_proj by done. apply unlink_prv_self.
  - unfold nxt. rewrite at_upd_proj by done. apply unlink_nxt_self.
  - intros j. rewrite at_upd_proj by done. unfold t1. unlink_proj.
  - intros j Hj. rewrite upd_other by done. apply unlink_in_pending.
  - unfold t1, wheel_unlink, set_head; cbv zeta. rewrite Hip.
    destruct (wheel_prev (at_ t i) =? kNil), (wheel_next (at_ t i) =? kNil); done.
Qed.

End Wheel.
End SessionInv.
