(* ===== verification/SessionSpec.v ===== *)
(** Abstract specification of the session table and the refinement proof.

    Abstractly a session table is a finite map from session index to what a
    session promises: its client key, its optional return key and the tick at
    which it expires.  [abs] computes that map from the concrete table. *)
From S2P Require Import Prelude Types TcpState Dpdk Dlist Session SessionInv.
Import Tcp Session SessionInv.

Module SessionSpec.

Record Entry := mkEntry {
  e_client : FiveTuple;
  e_server : option FiveTuple;
  e_expire : Z
}.

Definition owns (e : Entry) (k : FiveTuple) : Prop :=
  e_client e = k \/ e_server e = Some k.

#[export] Instance owns_dec e k : Decision (owns e k).
Proof. unfold owns. apply _. Defined.

Definition set_e_expire (v : Z) (e : Entry) : Entry :=
  mkEntry (e_client e) (e_server e) v.

(** The entries that survive a sweep at [now]. *)
Definition unexpired (now : Z) (m : gmap Z Entry) : gmap Z Entry :=
  filter (fun p => now < e_expire p.2) m.

Definition server_of (s : Session) : option FiveTuple :=
  if has_flag (flags s) SF_FULLNAT then Some (server s) else None.

Definition entry_of (s : Session) : Entry :=
  mkEntry (client s) (server_of s) (expire_tick s).

Section Spec.
Context `{RH : RteHash FiveTuple} `{RL : !RteHashLaws FiveTuple RH}.
Implicit Types t : SessionTable.

Definition abs t : gmap Z Entry :=
  omap (fun s => if wheel_prev s =? kFree then None else Some (entry_of s)) (sessions_ t).

Definition hash_ok t : Prop :=
  forall k i, content (hash_ t) !! k = Some i <-> exists e, abs t !! i = Some e /\ owns e k.

Record free_ok t : Prop := {
  fr_top : 0 <= free_top_ t <= capacity_ t;
  fr_dom j : is_Some (free_stack_ t !! j) <-> 0 <= j < capacity_ t;
  fr_in j : 0 <= j < free_top_ t ->
    0 <= free_stack_ t !!! j < capacity_ t /\ ~ live t (free_stack_ t !!! j);
  fr_inj j j' : 0 <= j < free_top_ t -> 0 <= j' < free_top_ t ->
    free_stack_ t !!! j = free_stack_ t !!! j' -> j = j'
}.

(** A session's wheel position never lies past its expiry, the wheel reaches
    no further than one turn minus one slot ahead, and what is pending was
    taken from the slot just behind the cursor. *)
Definition tick_ok t (X : list Z) : Prop :=
  0 <= cur_tick_ t
  /\ forall i, live t i ->
       slot_tick (at_ t i) <= expire_tick (at_ t i) < cur_tick_ t + (kWheelSlots - 1)
       /\ (in_pending (at_ t i) = true -> slot_tick (at_ t i) = cur_tick_ t - 1)
       /\ (in_pending (at_ t i) = false -> i ∉ X -> cur_tick_ t <= slot_tick (at_ t i)).

Record table_ok t : Prop := {
  ok_wheel : exists W P, wheel_ok t W P [];
  ok_tick : tick_ok t [];
  ok_free : free_ok t;
  ok_hash : hash_ok t;
  ok_count : Z.of_nat (size (abs t)) = capacity_ t - free_top_ t;
  ok_entries : 2 * capacity_ t <= entries (hash_ t)
}.

(** *** The abstraction map *)

Lemma entry_of_data s : entry_of (data s) = entry_of s.
Proof. done. Qed.

Lemma entry_of_data_tick s : entry_of (data_tick s) = entry_of s.
Proof. done. Qed.

Lemma abs_lookup t W P X i e :
  wheel_ok t W P X -> abs t !! i = Some e <-> live t i /\ entry_of (at_ t i) = e.
Proof.
  intros Hok. unfold abs, live, prv, at_. rewrite lookup_omap, lookup_total_alt.
  pose proof (wk_dom _ _ _ _ Hok i) as Hd.
  destruct (sessions_ t !! i) as [s|] eqn:E; simpl.
  - destruct (Z.eqb_spec (wheel_prev s) kFree); naive_solver.
  - split; [done|]. intros [[? ?] ?]. apply Hd in H as []. congruence.
Qed.

Lemma abs_None t W P X i :
  wheel_ok t W P X -> abs t !! i = None <-> ~ live t i.
Proof.
  intros Hok. split.
  - intros E Hl. assert (abs t !! i = Some (entry_of (at_ t i))) by (by eapply abs_lookup).
    congruence.
  - intros Hn. destruct (abs t !! i) as [e|] eqn:E; [|done].
    apply (abs_lookup _ _ _ _ _ _ Hok) in E as [? _]. done.
Qed.

(** Two tables with the same live sessions and the same entries. *)
Lemma abs_ext t t' W P X W' P' X' :
  wheel_ok t W P X -> wheel_ok t' W' P' X' ->
  (forall j, live t' j <-> live t j) ->
  (forall j, live t j -> entry_of (at_ t' j) = entry_of (at_ t j)) ->
  abs t' = abs t.
Proof.
  intros Hok Hok' Hl He. apply map_eq. intros i. apply option_eq. intros e.
  rewrite (abs_lookup _ _ _ _ _ _ Hok), (abs_lookup _ _ _ _ _ _ Hok'), Hl.
  split; intros [? <-]; split; auto; symmetry; auto.
Qed.

Lemma data_entry s s' : data s = data s' -> entry_of s = entry_of s'.
Proof. intros H. by rewrite <- (entry_of_data s), H, entry_of_data. Qed.
Lemma data_tick_entry s s' : data_tick s = data_tick s' -> entry_of s = entry_of s'.
Proof. intros H. by rewrite <- (entry_of_data_tick s), H, entry_of_data_tick. Qed.
Lemma data_tick_slot s s' : data_tick s = data_tick s' -> slot_tick s = slot_tick s'.
Proof. intros H. change (slot_tick (data_tick s) = slot_tick (data_tick s')). by rewrite H. Qed.
Lemma data_tick_expire s s' : data_tick s = data_tick s' -> expire_tick s = expire_tick s'.
Proof. intros H. change (expire_tick (data_tick s) = expire_tick (data_tick s')). by rewrite H. Qed.
Lemma data_expire s s' : data s = data s' -> expire_tick s = expire_tick s'.
Proof. intros H. change (expire_tick (data s) = expire_tick (data s')). by rewrite H. Qed.

(** *** Capacity of the index *)

Definition entry_keys (e : Entry) : list FiveTuple :=
  e_client e :: match e_server e with Some k => [k] | None => [] end.

Lemma owns_keys e k : owns e k <-> k ∈ entry_keys e.
Proof.
  unfold owns, entry_keys. destruct (e_server e); rewrite elem_of_cons.
  - rewrite list_elem_of_singleton. naive_solver.
  - rewrite elem_of_nil. naive_solver.
Qed.

Lemma keys_length (l : list (Z * Entry)) :
  (length (l ≫= fun p => entry_keys p.2) <= 2 * length l)%nat.
Proof.
  induction l as [|[i e] l IH]; [done|]. rewrite bind_cons, length_app.
  assert (length (entry_keys e) <= 2)%nat by (unfold entry_keys; destruct (e_server e); simpl; lia).
  cbn [snd length]. lia.
Qed.

Lemma content_size t : hash_ok t ->
  (size (content (hash_ t)) <= 2 * size (abs t))%nat.
Proof.
  intros Hh. rewrite <- !length_map_to_list, <- (length_fmap fst).
  etransitivity; [|apply keys_length]. apply submseteq_length, NoDup_submseteq.
  - apply NoDup_fst_map_to_list.
  - intros k ([k' i] & -> & Hk)%list_elem_of_fmap. apply elem_of_map_to_list in Hk. simpl.
    apply Hh in Hk as (e & He & Ho%owns_keys).
    apply list_elem_of_bind. exists (i, e). split; [done|]. by apply elem_of_map_to_list.
Qed.

(** *** lookup *)

Lemma lookup_spec t k i :
  table_ok t -> lookup t k = Some i <-> exists e, abs t !! i = Some e /\ owns e k.
Proof. intros Ht. unfold lookup. rewrite content_lookup. apply Ht. Qed.

(** *** Parts of a table an operation leaves alone *)

Lemma wheel_ok_other t h ft fs ct W P X :
  wheel_ok t W P X ->
  wheel_ok (mkTable h (sessions_ t) fs ft (capacity_ t) (slots_ t) (pending_ t) ct) W P X.
Proof. intros [A1 A2 A3 A4 A5 A6 A7 A8 A9 A10]. by split. Qed.

Lemma deadline_eq now timeout :
  0 <= now -> 0 <= timeout -> now + timeout + 2 < 18446744073709551616 ->
  deadline now timeout = now + Z.max 1 timeout + 1.
Proof.
  intros. unfold deadline. destruct (Z.eqb_spec timeout 0); rewrite u64_id; zwrap; lia.
Qed.

(** *** create *)

Definition fresh_session (c : FiveTuple) (srv : option FiveTuple) (now timeout : Z) : Session :=
  let s := set_client c Session_zero in
  let s := match srv with
           | Some k => set_flags (Z.lor (flags s) SF_FULLNAT) (set_server k s)
           | None => s end in
  set_expire_tick (deadline now timeout) (set_created_tick now s).

Lemma fresh_entry c srv now timeout :
  entry_of (fresh_session c srv now timeout) = mkEntry c srv (deadline now timeout).
Proof. by destruct srv. Qed.

Lemma create_fill_ok t W P i c srv now timeout :
  wheel_ok t W P [] -> 0 <= i < capacity_ t -> ~ live t i -> tick_ok t [] ->
  cur_tick_ t <= deadline now timeout < cur_tick_ t + (kWheelSlots - 1) ->
  let t' := create_fill t i c srv now timeout in
  (exists W', wheel_ok t' W' P [])
  /\ tick_ok t' []
  /\ abs t' = <[i := mkEntry c srv (deadline now timeout)]> (abs t)
  /\ (forall j, live t' j <-> j = i \/ live t j)
  /\ data (at_ t' i) = data (fresh_session c srv now timeout)
  /\ (forall j, j <> i -> data (at_ t' j) = data (at_ t j))
  /\ hash_ t' = hash_ t /\ free_top_ t' = free_top_ t /\ free_stack_ t' = free_stack_ t
  /\ capacity_ t' = capacity_ t /\ cur_tick_ t' = cur_tick_ t.
Proof.
  intros Hok Hr Hnl [Hc Htk] Hd. cbv zeta. unfold create_fill; cbv zeta.
  fold (fresh_session c srv now timeout).
  set (s := fresh_session c srv now timeout). set (t1 := upd t i (fun _ => s)).
  assert (Hok1 : wheel_ok t1 W P [i]).
  { apply adopt_ok; [done|done|done|]. by destruct srv. }
  assert (Hn : forall k, 0 <= k < kWheelSlots -> i ∉ W k).
  { intros k Hk (? & _)%(wk_W _ _ _ _ Hok _ _ Hk). done. }
  pose proof (link_ok _ _ _ _ i (deadline now timeout) Hok1 ltac:(set_solver)) as Hok2.
  set (t2 := wheel_link t1 i (deadline now timeout)) in *.
  assert (Hil : live t1 i) by (apply (wk_Xlive _ _ _ _ Hok1); set_solver).
  assert (Hl2 : forall j, live t2 j <-> live t1 j).
  { intros j. unfold t2. set (k0 := slot_of (link_tick t1 (deadline now timeout))).
    assert (Hk0 : 0 <= k0 < kWheelSlots) by apply slot_of_range.
    assert (Hh : slots_ t1 !!! k0 <> kNil -> slots_ t1 !!! k0 ∈ W k0).
    { intros. eapply dseg_head_in; [by apply (wk_slot _ _ _ _ Hok1)|done]. }
    eapply pushed_live; [apply link_pushed| | |]; try done.
    - intros Heq. fold k0 in Heq. pose proof (live_not_nil _ _ _ _ _ Hok1 Hil).
      apply (Hn k0 Hk0). rewrite Heq. apply Hh. congruence.
    - apply Hok1.
    - fold k0. intros ?%Hh%(wk_W _ _ _ _ Hok1); naive_solver. }
  assert (Hl1 : forall j, live t1 j <-> j = i \/ live t j).
  { intros j. destruct (decide (i = j)) as [<-|Hne]; [naive_solver|].
    unfold t1. rewrite live_upd_other by done. naive_solver. }
  destruct (link_rest t1 i (deadline now timeout)) as (R1 & R2 & R3 & R4 & _). fold t2 in R1, R2, R3, R4.
  assert (Hda : forall j, data (at_ t2 j) = data (at_ t1 j)).
  { intros j. unfold t2. rewrite proj_link by done. case_decide; [by subst|done]. }
  assert (Hs1 : at_ t1 i = s) by apply upd_self.
  assert (Hc1 : cur_tick_ t1 = cur_tick_ t) by done.
  split_and!; try done.
  - eauto.
  - split; [by rewrite R1|]. intros j [->|Hj]%Hl2%Hl1.
    + assert (Hst : slot_tick (at_ t2 i) = Z.max (deadline now timeout) (cur_tick_ t)).
      { unfold t2. rewrite (proj_link slot_tick), decide_True by done.
        transitivity (link_tick t1 (deadline now timeout)); [done|].
        by rewrite link_tick_max. }
      assert (Hip : in_pending (at_ t2 i) = false).
      { unfold t2. by rewrite (proj_link in_pending), decide_True by done. }
      rewrite (data_expire _ _ (Hda i)), Hs1, R1, Hc1, Hst, Hip.
      replace (expire_tick s) with (deadline now timeout) by (by destruct srv).
      split; [lia|]. split; [done|lia].
    + assert (Hne : i <> j) by (by intros ->).
      assert (Hst : slot_tick (at_ t2 j) = slot_tick (at_ t j)).
      { unfold t2. rewrite (proj_link slot_tick), decide_False by done.
        unfold t1. by rewrite upd_other. }
      assert (Hip : in_pending (at_ t2 j) = in_pending (at_ t j)).
      { unfold t2. rewrite (proj_link in_pending), decide_False by done.
        unfold t1. by rewrite upd_other. }
      rewrite (data_expire _ _ (Hda j)), R1, Hc1, Hst, Hip.
      unfold t1. rewrite upd_other by done. by apply Htk.
  - apply map_eq. intros j. apply option_eq. intros e.
    rewrite (abs_lookup _ _ _ _ _ _ Hok2), Hl2, Hl1, (data_entry _ _ (Hda j)).
    destruct (decide (i = j)) as [<-|Hne].
    + rewrite lookup_insert_eq, Hs1. unfold s. rewrite fresh_entry. naive_solver.
    + rewrite lookup_insert_ne by done. unfold t1. rewrite upd_other by done.
      rewrite (abs_lookup _ _ _ _ _ _ Hok). naive_solver.
  - intros j. by rewrite Hl2, Hl1.
  - by rewrite Hda, Hs1.
  - intros j Hj. rewrite Hda. unfold t1. by rewrite upd_other by congruence.
  - assert (Hp : pushed t1 t2 i (slots_ t1 !!! slot_of (link_tick t1 (deadline now timeout)))).
    { apply link_pushed. intros Heq. pose proof (live_not_nil _ _ _ _ _ Hok1 Hil) as Hin.
      eapply (Hn (slot_of (link_tick t1 (deadline now timeout))) (slot_of_range _)).
      rewrite Heq. eapply dseg_head_in; [apply (wk_slot _ _ _ _ Hok1), slot_of_range|congruence]. }
    by rewrite (pu_cap _ _ _ _ Hp).
Qed.

(** The free stack after its top was taken. *)
Lemma free_ok_pop t t' :
  free_ok t -> 0 < free_top_ t ->
  free_top_ t' = free_top_ t - 1 -> free_stack_ t' = free_stack_ t ->
  capacity_ t' = capacity_ t ->
  (forall j, live t' j <-> j = free_stack_ t !!! (free_top_ t - 1) \/ live t j) ->
  free_ok t'.
Proof.
  intros [F1 F2 F3 F4] Hp Ht Hs Hc Hl. split; rewrite ?Ht, ?Hs, ?Hc.
  - lia.
  - done.
  - intros j Hj. destruct (F3 j ltac:(lia)) as [? ?]. split; [done|].
    rewrite Hl. intros [Heq|?]; [|done]. apply F4 in Heq; lia.
  - intros j j' ? ?. apply F4; lia.
Qed.

Lemma free_top_idx t :
  free_ok t -> 0 < free_top_ t ->
  let i := free_stack_ t !!! (free_top_ t - 1) in 0 <= i < capacity_ t /\ ~ live t i.
Proof. intros F Hp. apply (fr_in _ F). lia. Qed.

(** Adding the keys of a fresh session to the index. *)
Lemma hash_ok_insert t t' i e :
  hash_ok t -> abs t !! i = None ->
  (forall k, owns e k -> content (hash_ t) !! k = None) ->
  abs t' = <[i := e]> (abs t) ->
  (forall k, content (hash_ t') !! k = if decide (owns e k) then Some i else content (hash_ t) !! k) ->
  hash_ok t'.
Proof.
  intros Hh Hi Hfr Ha Hc k j. rewrite Hc, Ha. destruct (decide (i = j)) as [<-|Hne].
  - rewrite lookup_insert_eq. case_decide; [naive_solver|].
    specialize (Hh k i). naive_solver.
  - rewrite lookup_insert_ne by done. case_decide as Ho.
    + split; [congruence|]. intros He. apply Hh in He. rewrite Hfr in He by done. done.
    + apply Hh.
Qed.

(** What [create] does when the index accepts the keys. *)
Lemma create_tail_ok t h c srv now timeout :
  table_ok t -> 0 < free_top_ t ->
  (forall k, owns (mkEntry c srv 0) k -> content (hash_ t) !! k = None) ->
  (forall k, content h !! k =
     if decide (owns (mkEntry c srv 0) k) then Some (free_stack_ t !!! (free_top_ t - 1))
     else content (hash_ t) !! k) ->
  entries h = entries (hash_ t) ->
  cur_tick_ t <= deadline now timeout < cur_tick_ t + (kWheelSlots - 1) ->
  let i := free_stack_ t !!! (free_top_ t - 1) in
  let t' := create_fill (with_free_top_ (free_top_ t - 1) (with_hash_ h t)) i c srv now timeout in
  table_ok t' /\ abs t !! i = None
  /\ abs t' = <[i := mkEntry c srv (deadline now timeout)]> (abs t).
Proof.
  intros [(W & P & Hok) Htk Hfr Hha Hcn Hen] Hp Hfresh Hc He Hd. cbv zeta.
  destruct (free_top_idx _ Hfr Hp) as [Hi Hnl].
  set (i := free_stack_ t !!! (free_top_ t - 1)) in *.
  set (t1 := with_free_top_ _ _).
  assert (Hok1 : wheel_ok t1 W P [])
    by exact (wheel_ok_other t _ _ _ _ _ _ _ Hok).
  pose proof (create_fill_ok t1 W P i c srv now timeout Hok1 Hi Hnl Htk Hd) as
    ((W' & Hok') & Htk' & Ha' & Hl' & _ & _ & Hh' & Hft & Hfs & Hcap & Hcur).
  set (t' := create_fill t1 i c srv now timeout) in *.
  assert (Hai : abs t !! i = None) by (by eapply abs_None).
  change (abs t1) with (abs t) in Ha'.
  split; [|done]. split.
  - eauto.
  - done.
  - eapply free_ok_pop; [exact Hfr|done|by rewrite Hft|by rewrite Hfs|by rewrite Hcap|].
    intros j. rewrite Hl'. done.
  - eapply hash_ok_insert; [exact Hha|exact Hai| |exact Ha'|].
    + intros k Hk. by apply Hfresh.
    + intros k. rewrite Hh'. simpl. rewrite Hc. done.
  - rewrite Ha', map_size_insert_None, Hcap, Hft by done. simpl. lia.
  - rewrite Hh', Hcap. simpl. rewrite He. done.
Qed.

Lemma add_succeeds t k v :
  hash_ok t -> Z.of_nat (size (content (hash_ t))) < entries (hash_ t) ->
  exists h, rte_hash_add_key_data (hash_ t) k v = Some h
    /\ content h = <[k := v]> (content (hash_ t)) /\ entries h = entries (hash_ t).
Proof.
  intros Hh Hs. destruct (add_has_room (hash_ t) k v Hs) as [h E].
  exists h. split; [done|]. by apply content_add.
Qed.

Lemma create_spec t c srv now timeout :
  table_ok t -> lookup t c = None ->
  (forall k, srv = Some k -> lookup t k = None) ->
  cur_tick_ t <= deadline now timeout < cur_tick_ t + (kWheelSlots - 1) ->
  let '(r, t') := create t c srv now timeout in
  table_ok t' /\
  match r with
  | Some i => abs t !! i = None
      /\ abs t' = <[i := mkEntry c srv (deadline now timeout)]> (abs t)
  | None => active t = capacity_ t /\ t' = t
  end.
Proof.
  intros Ht Hc Hk Hd. unfold create. unfold lookup in *.
  rewrite content_lookup in Hc.
  destruct (Z.eqb_spec (free_top_ t) 0) as [E|E].
  { split; [done|]. split; [|done]. unfold active. lia. }
  assert (Hp : 0 < free_top_ t) by (pose proof (fr_top _ (ok_free _ Ht)); lia).
  set (i := free_stack_ t !!! (free_top_ t - 1)).
  pose proof (content_size t (ok_hash _ Ht)) as Hsz.
  pose proof (ok_count _ Ht) as Hcn. pose proof (ok_entries _ Ht) as Hen.
  destruct (add_succeeds t c i (ok_hash _ Ht) ltac:(lia)) as (h1 & -> & Hc1 & He1).
  destruct srv as [k|].
  - assert (Hkn : content (hash_ t) !! k = None) by (rewrite <- content_lookup; auto).
    assert (Hs1 : Z.of_nat (size (content h1)) < entries h1).
    { rewrite Hc1, map_size_insert_None, He1 by done. lia. }
    change (hash_ (with_hash_ h1 t)) with h1.
    destruct (add_has_room h1 k i Hs1) as [h2 E2]. rewrite E2.
    destruct (content_add _ _ _ _ E2) as [Hc2 He2].
    edestruct (create_tail_ok t h2 c (Some k) now timeout) as (A & B & D); try done.
    + unfold owns; simpl. intros k' [<-|[= <-]]; auto.
    + intros k'. rewrite Hc2, Hc1. fold i. unfold owns; simpl.
      destruct (decide (k = k')) as [<-|]; [rewrite lookup_insert_eq, decide_True; auto|].
      rewrite lookup_insert_ne by done.
      destruct (decide (c = k')) as [<-|]; [rewrite lookup_insert_eq, decide_True; auto|].
      rewrite lookup_insert_ne by done. rewrite decide_False; [done|naive_solver].
    + congruence.
  - edestruct (create_tail_ok t h1 c None now timeout) as (A & B & D); try done.
    + unfold owns; simpl. intros k' [<-|?]; [done|discriminate].
    + intros k'. rewrite Hc1. fold i. unfold owns; simpl.
      destruct (decide (c = k')) as [<-|]; [rewrite lookup_insert_eq, decide_True; auto|].
      rewrite lookup_insert_ne by done. rewrite decide_False; [done|].
      intros [?|?]; congruence.
Qed.

(** *** Intermediate states: some live sessions may be off the wheel *)

Record semi_ok t W P X : Prop := {
  se_wheel : wheel_ok t W P X;
  se_tick : tick_ok t X;
  se_free : free_ok t;
  se_hash : hash_ok t;
  se_count : Z.of_nat (size (abs t)) = capacity_ t - free_top_ t;
  se_entries : 2 * capacity_ t <= entries (hash_ t)
}.

Lemma semi_table t W P : semi_ok t W P [] -> table_ok t.
Proof. intros []. split; eauto. Qed.

Lemma table_semi t : table_ok t -> exists W P, semi_ok t W P [].
Proof. intros [(W & P & ?)]. exists W, P. by split. Qed.

Lemma free_ok_same t t' :
  free_ok t -> free_top_ t' = free_top_ t -> free_stack_ t' = free_stack_ t ->
  capacity_ t' = capacity_ t -> (forall j, live t' j <-> live t j) -> free_ok t'.
Proof.
  intros [F1 F2 F3 F4] Ht Hs Hc Hl. split; rewrite ?Ht, ?Hs, ?Hc; auto.
  intros j Hj. rewrite Hl. auto.
Qed.

(** The same table with its lists rearranged. *)
Lemma semi_rearrange t t' W P X W' P' X' :
  semi_ok t W P X -> wheel_ok t' W' P' X' -> tick_ok t' X' ->
  free_top_ t' = free_top_ t -> free_stack_ t' = free_stack_ t ->
  capacity_ t' = capacity_ t -> hash_ t' = hash_ t ->
  (forall j, live t' j <-> live t j) ->
  (forall j, entry_of (at_ t' j) = entry_of (at_ t j)) ->
  semi_ok t' W' P' X' /\ abs t' = abs t.
Proof.
  intros [A1 A2 A3 A4 A5 A6] Hw Htk Hft Hfs Hcap Hh Hl He.
  assert (Ha : abs t' = abs t) by (eapply abs_ext; eauto).
  split; [|done]. split; auto.
  - by eapply free_ok_same.
  - unfold hash_ok. rewrite Ha, Hh. apply A4.
  - by rewrite Ha, Hcap, Hft.
  - by rewrite Hh, Hcap.
Qed.

Lemma unlink_semi t W P i :
  semi_ok t W P [] -> live t i ->
  exists W' P', semi_ok (wheel_unlink t i) W' P' [i] /\ abs (wheel_unlink t i) = abs t.
Proof.
  intros Hs Hl. pose proof (se_wheel _ _ _ _ Hs) as Hok.
  assert (Hl' := fun j => unlink_live _ _ _ _ _ j Hok Hl ltac:(set_solver)).
  destruct (unlink_rest t i) as (R1 & R2 & R3 & R4 & R5).
  eexists _, _. eapply semi_rearrange; [exact Hs| | |done|done|done|done|done|].
  - apply unlink_ok; [done|done|set_solver].
  - destruct (se_tick _ _ _ _ Hs) as [Hc Htk]. split; [by rewrite R2|].
    intros j Hj%Hl'. rewrite unlink_slot_tick, unlink_in_pending, R2.
    rewrite (data_expire _ _ (unlink_data t i j)). destruct (Htk j Hj) as (? & ? & ?).
    split_and!; auto; try lia. intros. apply H1; [done|set_solver].
  - intros j. apply data_entry, unlink_data.
Qed.

Lemma link_live t W P X i tick j :
  wheel_ok t W P (i :: X) -> live (wheel_link t i tick) j <-> live t j.
Proof.
  intros Hok. assert (Hil : live t i) by (apply (wk_Xlive _ _ _ _ Hok); set_solver).
  set (k := slot_of (link_tick t tick)).
  assert (Hk : 0 <= k < kWheelSlots) by apply slot_of_range.
  assert (Hh : slots_ t !!! k <> kNil -> slots_ t !!! k ∈ W k).
  { intros. eapply dseg_head_in; [by apply (wk_slot _ _ _ _ Hok)|done]. }
  eapply pushed_live; [apply link_pushed| | |]; try done.
  - fold k. intros Heq. pose proof (live_not_nil _ _ _ _ _ Hok Hil) as Hin.
    rewrite Heq in Hin. apply Hh, (wk_W _ _ _ _ Hok) in Hin; [|done]. set_solver.
  - apply Hok.
  - fold k. intros ?%Hh%(wk_W _ _ _ _ Hok); naive_solver.
Qed.

Lemma link_capacity t i tick : capacity_ (wheel_link t i tick) = capacity_ t.
Proof. unfold wheel_link; cbv zeta. by destruct (_ =? kNil). Qed.

Lemma link_semi t W P i tick :
  semi_ok t W P [i] -> cur_tick_ t <= tick <= expire_tick (at_ t i) ->
  let t' := wheel_link t i tick in
  (exists W', semi_ok t' W' P []) /\ abs t' = abs t
  /\ slot_tick (at_ t' i) = tick /\ in_pending (at_ t' i) = false
  /\ (forall j, j <> i -> data_tick (at_ t' j) = data_tick (at_ t j))
  /\ (forall j, j <> i -> in_pending (at_ t' j) = in_pending (at_ t j))
  /\ (forall j, live t' j <-> live t j).
Proof.
  intros Hs Ht. cbv zeta. pose proof (se_wheel _ _ _ _ Hs) as Hok.
  assert (Hl := fun j => link_live _ _ _ _ _ tick j Hok).
  destruct (link_rest t i tick) as (R1 & R2 & R3 & R4 & _).
  assert (Hda : forall j, data (at_ (wheel_link t i tick) j) = data (at_ t j)).
  { intros j. rewrite proj_link by done. case_decide; [by subst|done]. }
  assert (Hst : slot_tick (at_ (wheel_link t i tick) i) = tick).
  { rewrite (proj_link slot_tick), decide_True by done.
    transitivity (link_tick t tick); [done|]. rewrite link_tick_max. lia. }
  assert (Hip : in_pending (at_ (wheel_link t i tick) i) = false).
  { by rewrite (proj_link in_pending), decide_True by done. }
  assert (Hoth : forall j, j <> i ->
    data_tick (at_ (wheel_link t i tick) j) = data_tick (at_ t j)
    /\ in_pending (at_ (wheel_link t i tick) j) = in_pending (at_ t j)).
  { intros j Hj. by rewrite !proj_link, !decide_False by congruence || done. }
  edestruct (semi_rearrange t (wheel_link t i tick)) as [Hs' Ha]; [exact Hs| | |done|done| |done|done| |].
  - exact (link_ok t W P [] i tick Hok ltac:(set_solver)).
  - destruct (se_tick _ _ _ _ Hs) as [Hc Htk]. split; [by rewrite R1|].
    intros j Hj%Hl. rewrite (data_expire _ _ (Hda j)), R1.
    destruct (Htk j Hj) as (H1 & H2 & H3). destruct (decide (j = i)) as [->|Hne].
    + rewrite Hst, Hip. split_and!; try lia; done.
    + destruct (Hoth j Hne) as [E1 ->]. rewrite (data_tick_slot _ _ E1).
      split_and!; auto; try lia. intros. apply H3; [done|set_solver].
  - apply link_capacity.
  - intros j. apply data_entry, Hda.
  - split; [eauto|]. split; [done|]. split; [done|]. split; [done|].
    split; [intros j Hj; by apply Hoth|]. split; [intros j Hj; by apply Hoth|done].
Qed.

(** *** remove *)

Lemma unlink_with_hash t h i : wheel_unlink (with_hash_ h t) i = with_hash_ h (wheel_unlink t i).
Proof.
  unfold wheel_unlink, set_head, upd, at_; cbv zeta. simpl.
  repeat match goal with |- context [if ?b then _ else _] => destruct b end; done.
Qed.

(** Unlinking a session that is on no list only rewrites the head of the slot
    it was taken from: harmless when that slot is empty. *)
Lemma unlink_floating t i :
  is_Some (sessions_ t !! i) -> prv t i = kNil -> nxt t i = kNil ->
  in_pending (at_ t i) = false ->
  slots_ t !! slot_of (slot_tick (at_ t i)) = Some kNil ->
  wheel_unlink t i = t.
Proof.
  intros [s Hs] Hp Hn Hip Hsl. unfold wheel_unlink, set_head, prv, nxt in *; cbv zeta.
  assert (E : at_ t i = s) by (by apply lookup_total_correct).
  rewrite Hp, Hn, Hip. cbn [Z.eqb negb]. change (kNil =? kNil) with true. cbv iota.
  assert (E1 : <[slot_of (slot_tick (at_ t i)) := kNil]> (slots_ t) = slots_ t)
    by (by apply insert_id).
  assert (E2 : <[i := set_wheel_next kNil (set_wheel_prev kNil (at_ t i))]> (sessions_ t)
    = sessions_ t).
  { apply insert_id. rewrite Hs. rewrite E in Hp, Hn |- *. f_equal.
    clear -Hp Hn. destruct s; unfold set_wheel_next, set_wheel_prev; simpl in *. by subst. }
  unfold upd. change (at_ (with_slots_ _ t) i) with (at_ t i).
  change (sessions_ (with_slots_ _ t)) with (sessions_ t).
  rewrite E2, E1. by destruct t.
Qed.

Definition del_keys t (i : Z) : rte_hash FiveTuple :=
  let h := rte_hash_del_key (hash_ t) (client (at_ t i)) in
  if has_flag (flags (at_ t i)) SF_FULLNAT then rte_hash_del_key h (server (at_ t i)) else h.

Lemma del_keys_content t i k :
  content (del_keys t i) !! k =
    (if decide (owns (entry_of (at_ t i)) k) then None else content (hash_ t) !! k)
  /\ entries (del_keys t i) = entries (hash_ t).
Proof.
  unfold del_keys, owns, entry_of, server_of; simpl.
  destruct (content_del (hash_ t) (client (at_ t i))) as [C1 E1].
  destruct (has_flag _ _).
  - destruct (content_del (rte_hash_del_key (hash_ t) (client (at_ t i))) (server (at_ t i)))
      as [C2 E2]. rewrite C2, C1, E2, E1. split; [|done].
    destruct (decide (server (at_ t i) = k)) as [<-|];
      [rewrite lookup_delete_eq, decide_True; auto|].
    rewrite lookup_delete_ne by done.
    destruct (decide (client (at_ t i) = k)) as [<-|];
      [rewrite lookup_delete_eq, decide_True; auto|].
    rewrite lookup_delete_ne by done. rewrite decide_False; [done|]. intros [?|?]; congruence.
  - rewrite C1, E1. split; [|done].
    destruct (decide (client (at_ t i) = k)) as [<-|];
      [rewrite lookup_delete_eq, decide_True; auto|].
    rewrite lookup_delete_ne by done. rewrite decide_False; [done|]. intros [?|?]; congruence.
Qed.

Definition finish_remove t (i : Z) (h : rte_hash FiveTuple) : SessionTable :=
  let t := upd (with_hash_ h t) i (set_wheel_prev kFree) in
  with_free_top_ (free_top_ t + 1)
    (with_free_stack_ (<[free_top_ t := i]> (free_stack_ t)) t).

Lemma remove_eq t i :
  remove t i = finish_remove (wheel_unlink t i) i (del_keys t i).
Proof.
  unfold remove, finish_remove, del_keys; cbv zeta.
  destruct (has_flag (flags (at_ t i)) SF_FULLNAT); by rewrite !unlink_with_hash.
Qed.

Lemma finish_remove_ok t W P i h :
  semi_ok t W P [i] ->
  (forall k, content h !! k =
     if decide (owns (entry_of (at_ t i)) k) then None else content (hash_ t) !! k) ->
  entries h = entries (hash_ t) ->
  semi_ok (finish_remove t i h) W P []
  /\ abs (finish_remove t i h) = delete i (abs t)
  /\ (forall j, j <> i -> at_ (finish_remove t i h) j = at_ t j)
  /\ (forall j, live (finish_remove t i h) j <-> live t j /\ j <> i).
Proof.
  intros [A1 A2 A3 A4 A5 A6] Hc He. set (t' := finish_remove t i h).
  assert (Hil : live t i) by (apply (wk_Xlive _ _ _ _ A1); set_solver).
  assert (Hok' : wheel_ok t' W P []).
  { apply (wheel_ok_other _ _ _ _ _ _ _ _ (abandon_ok _ _ _ _ _ A1 ltac:(set_solver))). }
  assert (Hat : forall j, j <> i -> at_ t' j = at_ t j).
  { intros j Hj. unfold t', finish_remove; cbv zeta.
    change (at_ (upd t i (set_wheel_prev kFree)) j = at_ t j). by apply upd_other. }
  assert (Hlv : forall j, live t' j <-> live t j /\ j <> i).
  { intros j. unfold live, prv. change (capacity_ t') with (capacity_ t).
    destruct (decide (j = i)) as [->|Hne].
    - change (at_ t' i) with (at_ (upd t i (set_wheel_prev kFree)) i).
      rewrite upd_self. simpl. naive_solver.
    - rewrite Hat by done. naive_solver. }
  assert (Ha : abs t' = delete i (abs t)).
  { apply map_eq. intros j. apply option_eq. intros e.
    rewrite (abs_lookup _ _ _ _ _ _ Hok'), Hlv. destruct (decide (i = j)) as [<-|Hne].
    - rewrite lookup_delete_eq. naive_solver.
    - rewrite lookup_delete_ne, Hat, (abs_lookup _ _ _ _ _ _ A1) by done. naive_solver. }
  assert (Hai : abs t !! i = Some (entry_of (at_ t i))) by (by eapply abs_lookup).
  assert (Hsz : size (abs t) <> 0%nat).
  { intros E%map_size_empty_inv. rewrite E in Hai. by rewrite lookup_empty in Hai. }
  split_and!; try done. split; try done.
  - destruct A2 as [Hcu Htk]. split; [done|]. intros j [Hj Hji]%Hlv. rewrite Hat by done.
    change (cur_tick_ t') with (cur_tick_ t).
    destruct (Htk j Hj) as (H1 & H2 & H3). split; [exact H1|]. split; [exact H2|].
    intros. apply H3; [done|set_solver].
  - destruct A3 as [F1 F2 F3 F4].
    split; change (free_top_ t') with (free_top_ t + 1);
      change (capacity_ t') with (capacity_ t);
      change (free_stack_ t') with (<[free_top_ t := i]> (free_stack_ t)).
    + lia.
    + intros j. destruct (decide (free_top_ t = j)) as [<-|].
      * rewrite lookup_insert_eq. split; [lia|eauto].
      * by rewrite lookup_insert_ne.
    + intros j Hj. rewrite Hlv. destruct (decide (free_top_ t = j)) as [<-|].
      * rewrite lookup_total_insert_eq. split; [apply Hil|naive_solver].
      * rewrite lookup_total_insert_ne by done.
        destruct (F3 j ltac:(lia)). split; [done|naive_solver].
    + intros j j' Hj Hj'.
      destruct (decide (free_top_ t = j)) as [<-|], (decide (free_top_ t = j')) as [<-|];
        rewrite ?lookup_total_insert_eq, ?lookup_total_insert_ne by done; auto.
      * intros ->. destruct (F3 j' ltac:(lia)). done.
      * intros <-. destruct (F3 j ltac:(lia)). done.
      * apply F4; lia.
  - intros k j. change (hash_ t') with h. rewrite Hc, Ha. case_decide as Ho.
    + split; [done|]. intros (e & He' & Hek).
      destruct (decide (i = j)) as [<-|Hne]; [by rewrite lookup_delete_eq in He'|].
      rewrite lookup_delete_ne in He' by done.
      assert (content (hash_ t) !! k = Some i) by (apply A4; eauto).
      assert (content (hash_ t) !! k = Some j) by (apply A4; eauto). congruence.
    + rewrite (A4 k j). destruct (decide (i = j)) as [<-|Hne].
      * rewrite lookup_delete_eq, Hai. naive_solver.
      * by rewrite lookup_delete_ne.
  - rewrite Ha, map_size_delete, Hai.
    change (capacity_ t') with (capacity_ t). change (free_top_ t') with (free_top_ t + 1). lia.
  - change (hash_ t') with h. change (capacity_ t') with (capacity_ t). by rewrite He.
Qed.

Lemma remove_spec t i e :
  table_ok t -> abs t !! i = Some e ->
  table_ok (remove t i) /\ abs (remove t i) = delete i (abs t).
Proof.
  intros (W & P & Hs)%table_semi Hi.
  apply (abs_lookup _ _ _ _ _ _ (se_wheel _ _ _ _ Hs)) in Hi as [Hl _].
  destruct (unlink_semi _ _ _ _ Hs Hl) as (W' & P' & Hs' & Ha').
  destruct (unlink_rest t i) as (_ & _ & Hh & _).
  rewrite remove_eq.
  destruct (finish_remove_ok _ _ _ i (del_keys t i) Hs') as (Hs'' & Ha & _).
  - intros k. rewrite (proj1 (del_keys_content t i k)), Hh.
    by rewrite (data_entry _ _ (unlink_data t i i)).
  - by rewrite (proj2 (del_keys_content t i FiveTuple_zero)), Hh.
  - split; [by eapply semi_table|]. by rewrite Ha, Ha'.
Qed.

End Spec.
End SessionSpec.
