(* ===== verification/SessionThms.v ===== *)
(** Touch, sweep and the theorems about the session table. *)
From S2P Require Import Prelude Types TcpState Dpdk Dlist Session SessionInv SessionSpec.
Import Tcp Session SessionInv SessionSpec.

Module SessionThms.

Section Expiry.
Context `{RH : RteHash FiveTuple} `{RL : !RteHashLaws FiveTuple RH}.
Implicit Types t : SessionTable.

(** *** touch *)

Lemma set_expire_ok t W P i d :
  semi_ok t W P [] -> live t i ->
  slot_tick (at_ t i) <= d < cur_tick_ t + (kWheelSlots - 1) ->
  let t' := upd t i (set_expire_tick d) in
  semi_ok t' W P [] /\ abs t' = <[i := set_e_expire d (entry_of (at_ t i))]> (abs t).
Proof.
  intros [A1 A2 A3 A4 A5 A6] Hl Hd. cbv zeta. set (t' := upd t i (set_expire_tick d)).
  assert (Hok : wheel_ok t' W P []).
  { apply upd_neutral_ok; try done. apply (wk_dom _ _ _ _ A1), Hl. }
  assert (Hlv : forall j, live t' j <-> live t j).
  { intros j. unfold live, prv, t'. by rewrite at_upd_proj. }
  assert (Hai : abs t !! i = Some (entry_of (at_ t i))) by (by eapply abs_lookup).
  assert (Ha : abs t' = <[i := set_e_expire d (entry_of (at_ t i))]> (abs t)).
  { apply map_eq. intros j. apply option_eq. intros e.
    rewrite (abs_lookup _ _ _ _ _ _ Hok), Hlv. unfold t'.
    destruct (decide (i = j)) as [<-|Hne].
    - rewrite lookup_insert_eq, upd_self.
      change (entry_of (set_expire_tick d (at_ t i))) with (set_e_expire d (entry_of (at_ t i))).
      naive_solver.
    - rewrite lookup_insert_ne, upd_other by done. symmetry. by eapply abs_lookup. }
  split; [|done]. split; try done.
  - destruct A2 as [Hc Htk]. split; [done|]. intros j Hj%Hlv.
    change (cur_tick_ t') with (cur_tick_ t). unfold t'.
    destruct (Htk j Hj) as (H1 & H2 & H3).
    rewrite (at_upd_proj in_pending), (at_upd_proj slot_tick) by done.
    split; [|split; [exact H2|exact H3]].
    destruct (decide (i = j)) as [<-|Hne]; [rewrite upd_self|rewrite upd_other by done]; done.
  - by eapply free_ok_same.
  - intros k j. change (hash_ t') with (hash_ t). rewrite (A4 k j), Ha.
    destruct (decide (i = j)) as [<-|Hne].
    + rewrite lookup_insert_eq, Hai. unfold owns. naive_solver.
    + by rewrite lookup_insert_ne.
  - rewrite Ha, map_size_insert, Hai. done.
Qed.

Lemma touch_spec t i e now timeout :
  table_ok t -> abs t !! i = Some e ->
  cur_tick_ t <= deadline now timeout < cur_tick_ t + (kWheelSlots - 1) ->
  table_ok (touch t i now timeout)
  /\ abs (touch t i now timeout) = <[i := set_e_expire (deadline now timeout) e]> (abs t).
Proof.
  intros (W & P & Hs)%table_semi Hi Hd.
  apply (abs_lookup _ _ _ _ _ _ (se_wheel _ _ _ _ Hs)) in Hi as [Hl <-].
  destruct (se_tick _ _ _ _ Hs) as [Hc Htk]. destruct (Htk i Hl) as (H1 & H2 & H3).
  unfold touch; cbv zeta. set (d := deadline now timeout) in *.
  destruct (Z.ltb_spec d (slot_tick (at_ t i))) as [Hlt|Hge],
    (in_pending (at_ t i)) eqn:Hp; cbn [andb negb].
  - rewrite H2 in Hlt by done. lia.
  - destruct (unlink_semi _ _ _ _ Hs Hl) as (W1 & P1 & Hs1 & Ha1).
    destruct (unlink_rest t i) as (_ & R2 & _).
    assert (He1 := data_expire _ _ (unlink_data t i i)).
    assert (Hl1 := unlink_live _ _ _ _ i i (se_wheel _ _ _ _ Hs) Hl ltac:(set_solver)).
    destruct (link_semi _ _ _ _ d Hs1) as ((W2 & Hs2) & Ha2 & Hst & _ & _ & _ & Hl2); [lia|].
    destruct (link_rest (wheel_unlink t i) i d) as (R3 & _).
    set (t2 := wheel_link (wheel_unlink t i) i d) in *.
    destruct (set_expire_ok t2 _ _ i d Hs2) as [Hs3 Ha3].
    + by apply Hl2, Hl1.
    + rewrite Hst, R3, R2. lia.
    + split; [by eapply semi_table|]. rewrite Ha3, Ha2, Ha1.
      replace (entry_of (at_ t2 i)) with (entry_of (at_ t i)); [done|].
      assert (E2 : abs t2 !! i = abs t !! i) by (by rewrite Ha2, Ha1).
      rewrite (proj2 (abs_lookup _ _ _ _ i _ (se_wheel _ _ _ _ Hs2))
        (conj (proj2 (Hl2 i) (proj2 Hl1 Hl)) eq_refl)) in E2.
      rewrite (proj2 (abs_lookup _ _ _ _ i _ (se_wheel _ _ _ _ Hs)) (conj Hl eq_refl)) in E2.
      congruence.
  - destruct (set_expire_ok t _ _ i d Hs) as [Hs3 Ha3]; [done|rewrite H2 by done; lia|].
    split; [by eapply semi_table|done].
  - destruct (set_expire_ok t _ _ i d Hs) as [Hs3 Ha3]; [done|lia|].
    split; [by eapply semi_table|done].
Qed.

(** *** expire *)

(** Sessions the sweep at [now] still has to look at. *)
Definition due_b t (now i : Z) : bool :=
  bool_decide (live t i) && (in_pending (at_ t i) || (slot_tick (at_ t i) <=? now)).

Definition due_at t (now : Z) : nat :=
  length (filter (fun i => due_b t now i = true) (seqZ 0 (capacity_ t))).

Lemma due_spec t now i :
  due_b t now i = true <->
  live t i /\ (in_pending (at_ t i) = true \/ slot_tick (at_ t i) <= now).
Proof.
  unfold due_b. rewrite andb_true_iff, bool_decide_eq_true, orb_true_iff, Z.leb_le. done.
Qed.

Lemma filter_length_le {A} (f g : A -> bool) l :
  (forall x, x ∈ l -> g x = true -> f x = true) ->
  (length (filter (fun x => g x = true) l) <= length (filter (fun x => f x = true) l))%nat.
Proof.
  induction l as [|x l IH]; intros H; [done|]. rewrite !filter_cons.
  specialize (IH ltac:(set_solver)).
  destruct (decide (g x = true)) as [E|E].
  - rewrite decide_True by (apply H; set_solver). simpl. lia.
  - case_decide; simpl; lia.
Qed.

Lemma filter_length_lt {A} (f g : A -> bool) l y :
  (forall x, x ∈ l -> g x = true -> f x = true) ->
  y ∈ l -> f y = true -> g y = false ->
  (length (filter (fun x => g x = true) l) < length (filter (fun x => f x = true) l))%nat.
Proof.
  induction l as [|x l IH]; intros H Hy Hf Hg; [set_solver|]. rewrite !filter_cons.
  pose proof (filter_length_le f g l ltac:(set_solver)).
  apply elem_of_cons in Hy as [<-|Hy].
  - rewrite (decide_False _ _ (P := g y = true)) by congruence.
    rewrite decide_True by done. simpl. lia.
  - specialize (IH ltac:(set_solver) Hy Hf Hg).
    destruct (decide (g x = true)) as [E|E].
    + rewrite decide_True by (apply H; set_solver). simpl. lia.
    + case_decide; simpl; lia.
Qed.

Lemma due_le_active t now :
  table_ok t -> Z.of_nat (due_at t now) <= active t.
Proof.
  intros Ht. unfold active. rewrite <- (ok_count _ Ht).
  destruct (ok_wheel _ Ht) as (W & P & Hok).
  rewrite <- length_map_to_list, <- (length_fmap fst). apply Nat2Z.inj_le.
  unfold due_at. apply submseteq_length, NoDup_submseteq.
  - apply NoDup_filter, NoDup_seqZ.
  - intros i [(Hl & _)%due_spec _]%list_elem_of_filter.
    apply list_elem_of_fmap. exists (i, entry_of (at_ t i)). split; [done|].
    apply elem_of_map_to_list. by eapply abs_lookup.
Qed.

Lemma W_length t W P X k :
  wheel_ok t W P X -> 0 <= k < kWheelSlots -> (length (W k) <= Z.to_nat (capacity_ t))%nat.
Proof.
  intros Hok Hk. rewrite <- (length_seqZ 0 (capacity_ t)).
  apply submseteq_length, NoDup_submseteq; [by apply Hok|].
  intros i (Hl & _)%(wk_W _ _ _ _ Hok _ _ Hk). apply elem_of_seqZ.
  destruct Hl as [? _]. lia.
Qed.

(** One tick: the slot under the cursor becomes the pending list. *)
Definition advance t : option SessionTable :=
  let slot := slot_of (cur_tick_ t) in
  let head := slots_ t !!! slot in
  let t := with_slots_ (<[slot := kNil]> (slots_ t)) t in
  t ← take_chain (Z.to_nat (capacity_ t)) t head;
  Some (with_cur_tick_ (u64 (cur_tick_ t + 1)) t).

Definition max_tick : Z := 18446744073709543424.

Lemma slot_of_inj c x : c <= x < c + (kWheelSlots - 1) -> slot_of x = slot_of c -> x = c.
Proof. rewrite !slot_of_mod. unfold kWheelSlots. intros. zlia. Qed.

Lemma slot_of_behind c x : c <= x < c + (kWheelSlots - 1) -> slot_of x <> slot_of (c - 1).
Proof. rewrite !slot_of_mod. unfold kWheelSlots. intros. zlia. Qed.

Lemma advance_ok t W now :
  semi_ok t W [] [] -> cur_tick_ t <= now < max_tick ->
  exists t' W' P', advance t = Some t' /\ semi_ok t' W' P' [] /\ abs t' = abs t
    /\ capacity_ t' = capacity_ t /\ cur_tick_ t' = cur_tick_ t + 1
    /\ (due_at t' now <= due_at t now)%nat.
Proof.
  intros Hs Hn. pose proof (se_wheel _ _ _ _ Hs) as Hok. unfold advance; cbv zeta.
  set (k := slot_of (cur_tick_ t)). assert (Hk : 0 <= k < kWheelSlots) by apply slot_of_range.
  set (t0 := with_slots_ _ t).
  destruct (take_chain_ok (Z.to_nat (capacity_ t0)) t0 (slots_ t !!! k) kNil (W k)
    (fun k' => if decide (k' = k) then [] else W k') [])
    as (t1 & -> & Hok1 & Hda & Hlv & R1 & R2 & R3 & R4 & R5).
  { by eapply (W_length t). }
  { by apply Hok. }
  { exact (wk_slot _ _ _ _ Hok k Hk). }
  { by apply detach_ok. }
  change (at_ t0) with (at_ t) in Hda. change (cur_tick_ t0) with (cur_tick_ t) in *.
  assert (Hlv' : forall j, live t1 j <-> live t j) by apply Hlv. clear Hlv.
  destruct (se_tick _ _ _ _ Hs) as [Hc Htk].
  cbn [mbind option_bind]. set (t2 := with_cur_tick_ _ t1).
  assert (Hc2 : cur_tick_ t2 = cur_tick_ t + 1).
  { unfold t2. simpl. rewrite R2. apply u64_id. unfold max_tick in Hn. zwrap. lia. }
  assert (Hnp : forall j, live t j -> in_pending (at_ t j) = false).
  { intros j Hj. destruct (in_pending (at_ t j)) eqn:E; [|done].
    assert (j ∈ ([] : list Z)) by (apply (wk_P _ _ _ _ Hok); set_solver). set_solver. }
  assert (Hp1 : forall j, live t j -> in_pending (at_ t1 j) = true <-> slot_tick (at_ t j) = cur_tick_ t).
  { intros j Hj. transitivity (j ∈ W k).
    - rewrite (wk_W _ _ _ _ Hok _ _ Hk). pose proof (wk_P _ _ _ _ Hok1 j) as Hw.
      rewrite app_nil_r in Hw.
      rewrite Hlv' in Hw. split.
      + intros Hin. assert (j ∈ rev (W k)) as Hj' by (apply Hw; set_solver).
        apply list_elem_of_In, in_rev, list_elem_of_In in Hj'. by apply (wk_W _ _ _ _ Hok).
      + intros Hin. apply (wk_W _ _ _ _ Hok _ _ Hk), list_elem_of_In, in_rev, list_elem_of_In in Hin.
        by apply Hw in Hin as (_ & _ & ?).
    - rewrite (wk_W _ _ _ _ Hok _ _ Hk). destruct (Htk j Hj) as (H1 & _ & H3).
      specialize (H3 (Hnp j Hj) ltac:(set_solver)). split.
      + intros (_ & _ & _ & Hsl). apply slot_of_inj in Hsl; [done|lia].
      + intros Heq. split_and!; auto; [set_solver|]. by rewrite Heq. }
  edestruct (semi_rearrange t t2) as [Hs2 Ha2]; [exact Hs| | |exact R4|exact R5|exact R1|exact R3|exact Hlv'| |].
  - exact (wheel_ok_other t1 _ _ _ _ _ _ _ Hok1).
  - split; [rewrite Hc2; lia|]. intros j Hj. change (at_ t2 j) with (at_ t1 j).
    apply Hlv' in Hj. rewrite (data_tick_slot _ _ (Hda j)), (data_tick_expire _ _ (Hda j)), Hc2.
    destruct (Htk j Hj) as (H1 & _ & H3). specialize (H3 (Hnp j Hj) ltac:(set_solver)).
    pose proof (Hp1 j Hj) as Hp. split; [lia|]. split.
    + intros ->%Hp. lia.
    + intros Hf _. rewrite Hf in Hp. assert (slot_tick (at_ t j) <> cur_tick_ t) by naive_solver. lia.
  - intros j. apply data_tick_entry, Hda.
  - eexists t2, _, _. split; [done|]. split; [exact Hs2|]. split; [done|]. split; [exact R1|].
    split; [done|]. unfold due_at. change (capacity_ t2) with (capacity_ t1). rewrite R1.
    apply filter_length_le. intros j _ [Hj [Hj'|Hj']]%due_spec; apply due_spec;
      apply Hlv' in Hj; split; try done; right.
    + apply Hp1 in Hj'; [lia|done].
    + change (at_ t2 j) with (at_ t1 j) in Hj'. by rewrite (data_tick_slot _ _ (Hda j)) in Hj'.
Qed.

(** Popping one pending session. *)
Lemma pop_semi t W i P' :
  semi_ok t W (i :: P') [] ->
  exists t', pending_pop t = (i, t') /\ semi_ok t' W P' [i] /\ abs t' = abs t
    /\ capacity_ t' = capacity_ t /\ cur_tick_ t' = cur_tick_ t
    /\ wheel_unlink t' i = t'
    /\ live t i /\ in_pending (at_ t i) = true
    /\ (forall j, live t' j <-> live t j)
    /\ (forall j, data_tick (at_ t' j) = data_tick (at_ t j))
    /\ (forall j, j <> i -> in_pending (at_ t' j) = in_pending (at_ t j)).
Proof.
  intros Hs. pose proof (se_wheel _ _ _ _ Hs) as Hok.
  destruct (pop_ok _ _ _ _ _ Hok eq_refl) as
    (t' & Hp & Hok' & Hip & Hpv & Hnx & Hda & Hoth & Hlv & R1 & R2 & R3 & R4 & R5 & R6).
  assert (Hi : i ∈ i :: P') by set_solver.
  apply (wk_P _ _ _ _ Hok) in Hi as (Hil & _ & Hip0).
  destruct (se_tick _ _ _ _ Hs) as [Hc Htk].
  assert (Hst : slot_tick (at_ t' i) = cur_tick_ t - 1).
  { rewrite (data_tick_slot _ _ (Hda i)). by apply (Htk i Hil). }
  edestruct (semi_rearrange t t') as [Hs' Ha'];
    [exact Hs|exact Hok'| |exact R4|exact R5|exact R1|exact R3|exact Hlv| |].
  - split; [by rewrite R2|]. intros j Hj%Hlv.
    rewrite (data_tick_slot _ _ (Hda j)), (data_tick_expire _ _ (Hda j)), R2.
    destruct (Htk j Hj) as (H1 & H2 & H3). split; [exact H1|].
    destruct (decide (j = i)) as [->|Hne].
    + rewrite Hip. split; [done|set_solver].
    + rewrite Hoth by done. split; [exact H2|]. intros. apply H3; [done|set_solver].
  - intros j. apply data_tick_entry, Hda.
  - exists t'. split_and!; try done.
    apply unlink_floating; try done.
    + apply (wk_dom _ _ _ _ Hok'), Hlv, Hil.
    + rewrite Hst, R6. set (k := slot_of (cur_tick_ t - 1)).
      assert (Hk : 0 <= k < kWheelSlots) by apply slot_of_range.
      pose proof (wk_slot _ _ _ _ Hok k Hk) as Hd.
      pose proof (proj2 (wk_sdom _ _ _ _ Hok k) Hk) as [h Hh].
      rewrite lookup_total_alt, Hh in Hd. simpl in Hd. rewrite Hh.
      destruct (W k) as [|j l] eqn:E; simpl in Hd; [by subst|]. exfalso.
      assert (Hj : j ∈ W k) by (rewrite E; set_solver).
      apply (wk_W _ _ _ _ Hok _ _ Hk) in Hj as (Hj & _ & Hjp & Hjs).
      destruct (Htk j Hj) as (H1 & _ & H3). specialize (H3 Hjp ltac:(set_solver)).
      by apply (slot_of_behind (cur_tick_ t) (slot_tick (at_ t j))); [lia|].
Qed.

Lemma due_in_range t now i : due_b t now i = true -> i ∈ seqZ 0 (capacity_ t).
Proof. intros [[? _] _]%due_spec. apply elem_of_seqZ. lia. Qed.

Lemma pop_remove_ok t W i P' t' now :
  semi_ok t W (i :: P') [] -> pending_pop t = (i, t') ->
  semi_ok (remove t' i) W P' [] /\ abs (remove t' i) = delete i (abs t)
  /\ capacity_ (remove t' i) = capacity_ t /\ cur_tick_ (remove t' i) = cur_tick_ t
  /\ (due_at (remove t' i) now < due_at t now)%nat.
Proof.
  intros Hs Hp. destruct (pop_semi _ _ _ _ Hs) as
    (t1 & Hp' & Hs' & Ha' & R1 & R2 & Hu & Hil & Hip & Hlv & Hda & Hoth).
  rewrite Hp in Hp'. injection Hp' as <-.
  rewrite remove_eq, Hu.
  destruct (finish_remove_ok _ _ _ i (del_keys t' i) Hs') as (Hs2 & Ha2 & Hat & Hl2).
  { intros k. apply del_keys_content. }
  { apply (del_keys_content t' i FiveTuple_zero). }
  set (t2 := finish_remove t' i (del_keys t' i)) in *.
  split; [done|]. split; [by rewrite Ha2, Ha'|]. split; [exact R1|]. split; [exact R2|].
  unfold due_at. replace (capacity_ t2) with (capacity_ t).
  assert (Hd : due_b t now i = true) by (apply due_spec; auto).
  apply (filter_length_lt _ _ _ i); [|by apply due_in_range in Hd|done|].
  - intros j _ [[Hj Hji]%Hl2 Hj']%due_spec. rewrite Hat in Hj' by done.
    apply due_spec. rewrite Hlv in Hj. split; [done|].
    by rewrite Hoth, (data_tick_slot _ _ (Hda j)) in Hj'.
  - apply not_true_is_false. by intros [[_ ?]%Hl2 _]%due_spec.
Qed.

Lemma pop_relink_ok t W i P' t' now :
  semi_ok t W (i :: P') [] -> pending_pop t = (i, t') ->
  cur_tick_ t - 1 <= now -> now < expire_tick (at_ t' i) ->
  let t2 := wheel_link t' i (expire_tick (at_ t' i)) in
  (exists W', semi_ok t2 W' P' []) /\ abs t2 = abs t
  /\ capacity_ t2 = capacity_ t /\ cur_tick_ t2 = cur_tick_ t
  /\ (due_at t2 now < due_at t now)%nat.
Proof.
  intros Hs Hp Hc Hn. destruct (pop_semi _ _ _ _ Hs) as
    (t1 & Hp' & Hs' & Ha' & R1 & R2 & Hu & Hil & Hip & Hlv & Hda & Hoth).
  rewrite Hp in Hp'. injection Hp' as <-. cbv zeta.
  destruct (link_semi _ _ _ _ (expire_tick (at_ t' i)) Hs') as
    ((W2 & Hs2) & Ha2 & Hst & Hip2 & Hda2 & Hoth2 & Hl2); [lia|].
  destruct (link_rest t' i (expire_tick (at_ t' i))) as (R3 & _).
  pose proof (link_capacity t' i (expire_tick (at_ t' i))) as R4.
  set (t2 := wheel_link t' i (expire_tick (at_ t' i))) in *.
  split; [eauto|]. split; [by rewrite Ha2, Ha'|]. split; [congruence|]. split; [congruence|].
  unfold due_at. replace (capacity_ t2) with (capacity_ t) by congruence.
  assert (Hd : due_b t now i = true) by (apply due_spec; auto).
  apply (filter_length_lt _ _ _ i); [|by apply due_in_range in Hd|done|].
  - intros j _ [Hj Hj']%due_spec. apply due_spec. rewrite Hl2, Hlv in Hj. split; [done|].
    destruct (decide (j = i)) as [->|Hne]; [auto|].
    rewrite Hoth2, (data_tick_slot _ _ (Hda2 j Hne)) in Hj' by done.
    by rewrite Hoth, (data_tick_slot _ _ (Hda j)) in Hj'.
  - apply not_true_is_false. intros [_ [Hx|Hx]]%due_spec; [congruence|]. rewrite Hst in Hx. lia.
Qed.

Lemma unexpired_lookup now (m : gmap Z Entry) i e :
  unexpired now m !! i = Some e <-> m !! i = Some e /\ now < e_expire e.
Proof. unfold unexpired. by rewrite map_lookup_filter_Some. Qed.

(** What one run of the loop does to the abstract table. *)
Record swept (now : Z) (m m' : gmap Z Entry) : Prop := {
  sw_sub : m' ⊆ m;
  sw_gone i e : m !! i = Some e -> m' !! i = None -> e_expire e <= now
}.

Lemma swept_refl now m : swept now m m.
Proof. split; [done|]. intros. congruence. Qed.

Lemma swept_delete now m m' i e :
  m !! i = Some e -> e_expire e <= now -> swept now (delete i m) m' -> swept now m m'.
Proof.
  intros Hi He [H1 H2]. split.
  - etransitivity; [exact H1|]. apply delete_subseteq.
  - intros j ej Hj Hg. destruct (decide (i = j)) as [<-|Hne]; [congruence|].
    apply (H2 j); [|done]. by rewrite lookup_delete_ne.
Qed.

Lemma swept_complete now m m' :
  swept now m m' -> (forall i e, m' !! i = Some e -> now < e_expire e) -> m' = unexpired now m.
Proof.
  intros [H1 H2] H3. apply map_eq. intros i. apply option_eq. intros e.
  rewrite unexpired_lookup. split.
  - intros Hi. split; [by eapply lookup_weaken|eauto].
  - intros [Hi He]. destruct (m' !! i) as [e'|] eqn:E.
    + assert (m !! i = Some e') by (by eapply lookup_weaken). congruence.
    + specialize (H2 _ _ Hi E). lia.
Qed.

Lemma expire_loop_ok fuel t now removed budget :
  table_ok t -> 0 <= budget -> cur_tick_ t - 1 <= now < max_tick ->
  budget + Z.max 0 (now + 1 - cur_tick_ t) < Z.of_nat fuel ->
  exists t' r, expire_loop fuel t now removed budget = Some (t', r)
    /\ table_ok t' /\ capacity_ t' = capacity_ t
    /\ cur_tick_ t <= cur_tick_ t' <= now + 1
    /\ swept now (abs t) (abs t')
    /\ r - removed = Z.of_nat (size (abs t)) - Z.of_nat (size (abs t'))
    /\ (Z.of_nat (due_at t now) < budget ->
        cur_tick_ t' = now + 1 /\ forall i e, abs t' !! i = Some e -> now < e_expire e)
    /\ (forall tau, tau <= now ->
        tau < cur_tick_ t' \/ Z.of_nat (due_at t' tau) + budget <= Z.of_nat (due_at t tau)).
Proof.
  revert t removed budget. induction fuel as [|fuel IH]; intros t removed budget Ht Hb Hn Hf; [lia|].
  cbn [expire_loop]. destruct (Z.eqb_spec budget 0) as [->|Hb0].
  { exists t, removed. split_and!; try done; try lia. apply swept_refl. }
  destruct (table_semi _ Ht) as (W & P & Hs). pose proof (se_wheel _ _ _ _ Hs) as Hok.
  pose proof (wk_pend _ _ _ _ Hok) as Hpd.
  destruct (Z.eqb_spec (pending_ t) kNil) as [Hnil|Hnil].
  - assert (P = []) as ->.
    { destruct P as [|i P]; [done|]. destruct Hpd as (Heq & _). exfalso.
      apply (nil_not_in_P _ _ _ _ Hok). rewrite <- Hnil, Heq. set_solver. }
    destruct (Z.ltb_spec now (cur_tick_ t)) as [Hlt|Hge].
    + exists t, removed. split_and!; try done; try lia; [apply swept_refl|].
      intros _. split; [lia|]. intros i e [Hl <-]%(abs_lookup _ _ _ _ _ _ Hok). simpl.
      destruct (se_tick _ _ _ _ Hs) as [_ Htk]. destruct (Htk i Hl) as (H1 & _ & H3).
      destruct (in_pending (at_ t i)) eqn:E.
      * assert (i ∈ ([] : list Z)) by (apply (wk_P _ _ _ _ Hok); set_solver). set_solver.
      * specialize (H3 eq_refl ltac:(set_solver)). lia.
    + destruct (advance_ok t W now Hs ltac:(lia)) as (t1 & W1 & P1 & Ha & Hs1 & Hab & R1 & R2 & Hdue).
      assert (Hdt : forall tau, cur_tick_ t <= tau <= now -> (due_at t1 tau <= due_at t tau)%nat).
      { intros tau Htau. destruct (advance_ok t W tau Hs ltac:(lia)) as (t2 & ? & ? & Ha' & _ & _ & _ & _ & Hd').
        congruence. }
      unfold advance in Ha; cbv zeta in Ha.
      destruct (take_chain _ _ _) as [t0|]; [|discriminate]. injection Ha as Ha.
      cbn [mbind option_bind]. rewrite Ha.
      destruct (IH t1 removed budget) as (t' & r & H1 & H2 & H3 & H4 & H5 & H6 & H7 & H8);
        [by eapply semi_table|lia|lia|lia|].
      exists t', r. rewrite <- Hab. split_and!; try done; try lia; try congruence; [intros; apply H7; lia|].
      intros tau Htau. destruct (Z.lt_ge_cases tau (cur_tick_ t)); [left; lia|].
      specialize (Hdt tau ltac:(lia)). destruct (H8 tau Htau); [by left|right; lia].
  - destruct P as [|i P']; simpl in Hpd; [done|].
    destruct (pop_semi _ _ _ _ Hs) as (t1 & Hpop & _ & _ & _ & R2 & _ & Hil & _ & _ & Hda & _).
    rewrite Hpop. assert (He : expire_tick (at_ t1 i) = expire_tick (at_ t i))
      by (by apply data_tick_expire).
    destruct (Z.leb_spec (expire_tick (at_ t1 i)) now) as [Hle|Hgt].
    + destruct (pop_remove_ok _ _ _ _ _ now Hs Hpop) as (Hs2 & Ha2 & C2 & T2 & D2).
      destruct (IH (remove t1 i) (removed + 1) (budget - 1))
        as (t' & r & H1 & H2 & H3 & H4 & H5 & H6 & H7 & H8);
        [by eapply semi_table|lia|lia|lia|].
      assert (Hai : abs t !! i = Some (entry_of (at_ t i))) by (by eapply abs_lookup).
      assert (size (abs t) <> 0%nat).
      { intros E%map_size_empty_inv. rewrite E in Hai. by rewrite lookup_empty in Hai. }
      exists t', r. split_and!; try done; try lia; try congruence.
      * rewrite Ha2 in H5. eapply swept_delete; [exact Hai|simpl; lia|done].
      * rewrite Ha2, map_size_delete, Hai in H6. lia.
      * intros. apply H7. lia.
      * intros tau Htau. destruct (pop_remove_ok _ _ _ _ _ tau Hs Hpop) as (_ & _ & _ & _ & D3).
        destruct (H8 tau Htau); [by left|right; lia].
    + destruct (pop_relink_ok _ _ _ _ _ now Hs Hpop ltac:(lia) Hgt) as ((W2 & Hs2) & Ha2 & C2 & T2 & D2).
      destruct (IH (wheel_link t1 i (expire_tick (at_ t1 i))) removed (budget - 1))
        as (t' & r & H1 & H2 & H3 & H4 & H5 & H6 & H7 & H8);
        [by eapply semi_table|lia|lia|lia|].
      exists t', r. rewrite <- Ha2. split_and!; try done; try lia; try congruence; [intros; apply H7; lia|].
      intros tau Htau. destruct (Z.lt_ge_cases tau (cur_tick_ t - 1)); [left; lia|].
      destruct (pop_relink_ok _ _ _ _ _ tau Hs Hpop ltac:(lia) ltac:(lia)) as (_ & _ & _ & _ & D3).
      destruct (H8 tau Htau); [by left|right; lia].
Qed.

(** Summary used by clients of the table. *)
Lemma expire_spec t now :
  table_ok t -> cur_tick_ t - 1 <= now < max_tick ->
  exists t' r, expire t now = Some (t', r) /\ table_ok t' /\ capacity_ t' = capacity_ t
    /\ cur_tick_ t <= cur_tick_ t' <= now + 1
    /\ swept now (abs t) (abs t')
    /\ r = Z.of_nat (size (abs t)) - Z.of_nat (size (abs t'))
    /\ (active t < kExpireBudget -> cur_tick_ t' = now + 1 /\ abs t' = unexpired now (abs t))
    /\ (forall tau, tau <= now ->
        tau < cur_tick_ t' \/ Z.of_nat (due_at t' tau) + kExpireBudget <= Z.of_nat (due_at t tau)).
Proof.
  intros Ht Hn. unfold expire, expire_fuel, kExpireBudget.
  remember (Z.to_nat (4096 + Z.max 0 (now + 1 - cur_tick_ t) + 1)) as fuel eqn:Hfuel.
  assert (Hf : 4096 + Z.max 0 (now + 1 - cur_tick_ t) < Z.of_nat fuel) by lia. clear Hfuel.
  destruct (expire_loop_ok fuel t now 0 4096 Ht ltac:(lia) Hn Hf)
    as (t' & r & H1 & H2 & H3 & H4 & H5 & H6 & H7 & H9).
  exists t', r. split; [exact H1|]. clear H1. split_and!; try done; try lia.
  intros Ha. pose proof (due_le_active t now Ht).
  destruct H7 as [H7 H8]; [lia|]. split; [done|]. by apply swept_complete.
Qed.

(** *** init *)

Lemma list_to_map_seqZ {A} (f : Z -> A) n k :
  (list_to_map ((fun i => (i, f i)) <$> seqZ 0 n) : gmap Z A) !! k
  = if decide (0 <= k < n) then Some (f k) else None.
Proof.
  case_decide as Hk.
  - apply elem_of_list_to_map.
    + rewrite <- list_fmap_compose. change (fst ∘ _) with (fun i : Z => i).
      rewrite list_fmap_id. apply NoDup_seqZ.
    + apply list_elem_of_fmap. exists k. split; [done|]. apply elem_of_seqZ. lia.
  - apply not_elem_of_list_to_map. rewrite <- list_fmap_compose.
    change (fst ∘ _) with (fun i : Z => i). rewrite list_fmap_id, elem_of_seqZ. lia.
Qed.

Lemma is_Some_if_decide {A} (P : Prop) `{Decision P} (x : A) :
  is_Some (if decide P then Some x else None) <-> P.
Proof. case_decide; split; intros HS; first [done | by destruct HS]. Qed.

(** A table whose arrays are as [init] leaves them is well formed and empty. *)
Lemma fresh_ok t :
  0 < capacity_ t <= 67108864 -> 0 <= cur_tick_ t ->
  (forall i, sessions_ t !! i =
    if decide (0 <= i < capacity_ t) then Some (set_wheel_prev kFree Session_zero) else None) ->
  (forall k, slots_ t !! k = if decide (0 <= k < kWheelSlots) then Some kNil else None) ->
  (forall k, free_stack_ t !! k =
    if decide (0 <= k < capacity_ t) then Some (capacity_ t - 1 - k) else None) ->
  pending_ t = kNil -> free_top_ t = capacity_ t -> content (hash_ t) = ∅ ->
  2 * capacity_ t <= entries (hash_ t) ->
  table_ok t /\ abs t = ∅.
Proof.
  intros Hc Hn Hs Hsl Hfs Hpd Hft Hcont Hent.
  assert (Hnl : forall i, ~ live t i).
  { intros i [Hi Hp]. apply Hp. unfold prv, at_. by rewrite lookup_total_alt, Hs, decide_True. }
  assert (Hok : wheel_ok t (fun _ => []) [] []).
  { split.
    - unfold kFree. lia.
    - intros i. rewrite Hs. apply is_Some_if_decide.
    - intros i. rewrite Hsl. apply is_Some_if_decide.
    - intros k Hk. simpl. by rewrite lookup_total_alt, Hsl, decide_True.
    - done.
    - intros k i _. split; [set_solver|]. by intros [?%Hnl _].
    - intros i. split; [set_solver|]. by intros [?%Hnl _].
    - constructor.
    - constructor.
    - set_solver. }
  assert (Ha : abs t = ∅).
  { apply map_eq. intros i. rewrite lookup_empty. by eapply abs_None. }
  split; [|done]. split.
  - eauto.
  - split; [done|]. by intros i ?%Hnl.
  - split; rewrite ?Hft.
    + lia.
    + intros j. rewrite Hfs. apply is_Some_if_decide.
    + intros j Hj. rewrite lookup_total_alt, Hfs, decide_True by done. simpl.
      split; [lia|apply Hnl].
    + intros j j' Hj Hj'. rewrite !lookup_total_alt, !Hfs, !decide_True by done. simpl. lia.
  - intros k i. rewrite Hcont, Ha, !lookup_empty. naive_solver.
  - rewrite Ha, Hft, map_size_empty. lia.
  - done.
Qed.

Lemma init_spec capacity now t :
  0 < capacity <= 67108864 -> 0 <= now ->
  init capacity now true = Some t ->
  table_ok t /\ abs t = ∅ /\ capacity_ t = capacity /\ cur_tick_ t = now.
Proof.
  intros Hc Hn. unfold init.
  destruct (rte_hash_create _) as [h|] eqn:Eh; [|discriminate].
  cbn [mbind option_bind]. intros Heq. apply (inj Some) in Heq. subst t.
  apply content_create in Eh as [Hcont Hent].
  match goal with |- table_ok ?t /\ _ => destruct (fresh_ok t) as [? ?] end;
    unfold sessions_, slots_, free_stack_, hash_, free_top_, capacity_, cur_tick_, pending_;
    try exact eq_refl; try assumption.
  - intros i. apply (list_to_map_seqZ (fun _ => set_wheel_prev kFree Session_zero)).
  - intros i. apply (list_to_map_seqZ (fun _ => kNil)).
  - intros i. apply (list_to_map_seqZ (fun i => capacity - 1 - i)).
  - rewrite Hent, u32_id; [|zwrap]; zlia.
  - split_and!; [assumption|assumption|exact eq_refl|exact eq_refl].
Qed.

End Expiry.
End SessionThms.
