(* ===== verification/SessionProps.v ===== *)
(** Correctness of the session table: what its operations promise to the
    packet path, over every history of calls, and the long-timeout defect. *)
From S2P Require Import Prelude Types TcpState Dpdk Session SessionInv SessionSpec SessionThms.
Import Tcp Session SessionInv SessionSpec SessionThms.

Module SessionProps.

Section Props.
Context `{RH : RteHash FiveTuple} `{RL : !RteHashLaws FiveTuple RH}.
Implicit Types t : SessionTable.

(** Timeouts the wheel can represent: the deadline falls at least one slot
    short of a full turn. *)
Definition fits t (now timeout : Z) : Prop :=
  cur_tick_ t <= deadline now timeout < cur_tick_ t + (kWheelSlots - 1).

#[export] Instance fits_dec t now timeout : Decision (fits t now timeout).
Proof. unfold fits. apply _. Defined.

(** The session table's promise for an operation that leaves the key map
    described by [m]: every key resolves to the session that owns it. *)
Definition resolves t (m : gmap Z Entry) : Prop :=
  forall k i, lookup t k = Some i <-> exists e, m !! i = Some e /\ owns e k.

Lemma table_resolves t : table_ok t -> resolves t (abs t).
Proof. intros Ht k i. by apply lookup_spec. Qed.

Lemma remove_rest t i : capacity_ (remove t i) = capacity_ t.
Proof. rewrite remove_eq. exact (proj1 (unlink_rest t i)). Qed.

(** *** Histories *)

(** The calls of the packet path and the timer, under the conditions the
    callers establish: keys handed to [create] are not in use, sessions handed
    to [remove] and [touch] are live, the clock does not run backwards. *)
Inductive call :=
| CCreate (c : FiveTuple) (srv : option FiveTuple) (now timeout : Z)
| CRemove (i : Z)
| CTouch (i now timeout : Z)
| CExpire (now : Z).

Definition exec t (c : call) : option SessionTable :=
  match c with
  | CCreate c srv now timeout => Some (create t c srv now timeout).2
  | CRemove i => Some (remove t i)
  | CTouch i now timeout => Some (touch t i now timeout)
  | CExpire now => fst <$> expire t now
  end.

Definition allowed t (c : call) : Prop :=
  match c with
  | CCreate c srv now timeout =>
      lookup t c = None /\ (forall k, srv = Some k -> lookup t k = None) /\ fits t now timeout
  | CRemove i => is_Some (abs t !! i)
  | CTouch i now timeout => is_Some (abs t !! i) /\ fits t now timeout
  | CExpire now => cur_tick_ t - 1 <= now < max_tick
  end.

Inductive history : SessionTable -> Prop :=
| hist_init capacity now t :
    0 < capacity <= 67108864 -> 0 <= now -> init capacity now true = Some t -> history t
| hist_call t c t' : history t -> allowed t c -> exec t c = Some t' -> history t'.

Lemma exec_ok t c : table_ok t -> allowed t c -> exists t', exec t c = Some t' /\ table_ok t'.
Proof.
  intros Ht. destruct c as [c srv now tmo|i|i now tmo|now]; simpl.
  - intros (Hc & Hs & Hf). eexists; split; [done|].
    pose proof (create_spec t c srv now tmo Ht Hc Hs Hf) as H.
    destruct (create t c srv now tmo) as [r t']. apply H.
  - intros [e He]. eexists; split; [done|]. by eapply remove_spec.
  - intros [[e He] Hf]. eexists; split; [done|]. by eapply touch_spec.
  - intros Hn. destruct (expire_spec t now Ht Hn) as (t' & r & -> & ? & _). eauto.
Qed.

Lemma history_ok t : history t -> table_ok t.
Proof.
  induction 1 as [cap now t Hc Hn Hi|t c t' _ IH Ha He].
  - by apply (init_spec cap now).
  - destruct (exec_ok t c IH Ha) as (t'' & ? & ?). congruence.
Qed.

(** [create] refines insertion into the abstract map.  On a well-formed
    table, for keys that are not in use and a timeout the wheel can hold, it
    fails only when every session slot is taken (and then changes nothing);
    otherwise it returns an unused index, that index now carries exactly the
    client key, the optional return key and the deadline, every other session
    is untouched, both keys look up to it, and the invariant is preserved. *)
Theorem session_create_refines t c srv now timeout :
  table_ok t -> lookup t c = None ->
  (forall k, srv = Some k -> lookup t k = None) -> fits t now timeout ->
  let '(r, t') := create t c srv now timeout in
  table_ok t' /\
  match r with
  | None => t' = t /\ active t = capacity_ t
  | Some i => abs t !! i = None
      /\ abs t' = <[i := mkEntry c srv (deadline now timeout)]> (abs t)
      /\ lookup t' c = Some i
      /\ (forall k, srv = Some k -> lookup t' k = Some i)
      /\ resolves t' (<[i := mkEntry c srv (deadline now timeout)]> (abs t))
  end.
Proof.
  intros Ht Hc Hs Hf. pose proof (create_spec t c srv now timeout Ht Hc Hs Hf) as H.
  destruct (create t c srv now timeout) as [[i|] t']; destruct H as [Ht' H]; [|naive_solver].
  destruct H as [Hn Ha]. pose proof (table_resolves t' Ht') as Hr. rewrite Ha in Hr.
  split_and!; try done.
  - apply Hr. eexists. rewrite lookup_insert_eq. split; [done|]. by left.
  - intros k ->. apply Hr. eexists. rewrite lookup_insert_eq. split; [done|]. by right.
Qed.

(** [remove] refines deletion: the session's keys stop resolving, every
    other session and key is untouched, one slot becomes free and the invariant
    is preserved. *)
Theorem session_remove_refines t i e :
  table_ok t -> abs t !! i = Some e ->
  table_ok (remove t i)
  /\ abs (remove t i) = delete i (abs t)
  /\ resolves (remove t i) (delete i (abs t))
  /\ (forall k, owns e k -> lookup (remove t i) k = None)
  /\ active (remove t i) = active t - 1.
Proof.
  intros Ht He. destruct (remove_spec t i e Ht He) as [Ht' Ha].
  pose proof (table_resolves _ Ht') as Hr. rewrite Ha in Hr. split_and!; try done.
  - intros k Hk. destruct (lookup (remove t i) k) as [j|] eqn:E; [|done]. exfalso.
    apply Hr in E as (e' & Hj & Ho). apply lookup_delete_Some in Hj as [Hne Hj].
    assert (lookup t k = Some i) by (apply lookup_spec; eauto).
    assert (lookup t k = Some j) by (apply lookup_spec; eauto). congruence.
  - pose proof (ok_count _ Ht). pose proof (ok_count _ Ht') as Hc.
    rewrite Ha, map_size_delete, He in Hc. unfold active. rewrite remove_rest in *.
    assert (size (abs t) <> 0%nat).
    { intros E%map_size_empty_inv. rewrite E in He. by rewrite lookup_empty in He. }
    lia.
Qed.

(** C40. [touch] refines a deadline update, whether the new deadline lies before or
    after the session's place in the wheel: for a session that exists and a
    deadline the wheel can hold, the deadline becomes exactly the new one, nothing
    else changes, every lookup gives what it gave and the invariant is preserved. *)
Theorem session_touch_refines t i e now timeout :
  table_ok t -> abs t !! i = Some e -> fits t now timeout ->
  table_ok (touch t i now timeout)
  /\ abs (touch t i now timeout) = <[i := set_e_expire (deadline now timeout) e]> (abs t)
  /\ (forall k, lookup (touch t i now timeout) k = lookup t k).
Proof.
  intros Ht He Hf. destruct (touch_spec t i e now timeout Ht He Hf) as [Ht' Ha].
  split_and!; try done. intros k. apply option_eq. intros j.
  rewrite (lookup_spec _ k j Ht'), (lookup_spec _ k j Ht), Ha.
  setoid_rewrite lookup_insert_Some. split.
  - intros (e' & [[<- <-]|[? ?]] & Ho); [exists e|exists e']; done.
  - intros (e' & Hj & Ho). destruct (decide (i = j)) as [<-|].
    + exists (set_e_expire (deadline now timeout) e). simplify_eq. naive_solver.
    + exists e'. naive_solver.
Qed.

(** C14. [expire] always returns (its loops terminate within the fuel), keeps
    the invariant, never removes a session whose deadline lies in the future,
    reports exactly the number of sessions it removed, and, when fewer than
    [kExpireBudget] sessions exist, removes every session that is due: what
    is left is exactly the unexpired part of the map. *)
Theorem session_expire_exact t now :
  table_ok t -> cur_tick_ t - 1 <= now < max_tick ->
  exists t' r, expire t now = Some (t', r) /\ table_ok t'
    /\ (forall i e, abs t !! i = Some e -> now < e_expire e -> abs t' !! i = Some e)
    /\ abs t' ⊆ abs t
    /\ r = Z.of_nat (size (abs t)) - Z.of_nat (size (abs t'))
    /\ (active t < kExpireBudget -> abs t' = unexpired now (abs t)).
Proof.
  intros Ht Hn. destruct (expire_spec t now Ht Hn) as (t' & r & H1 & H2 & _ & _ & [H3 H4] & H5 & H6 & _).
  exists t', r. split_and!; try done; [|intros Ha; by apply H6]. intros i e Hi He.
  destruct (abs t' !! i) as [e'|] eqn:E.
  - assert (abs t !! i = Some e') by (by eapply lookup_weaken). congruence.
  - specialize (H4 i e Hi E). lia.
Qed.

(** C2. Over every history of calls the packet path can make after [init], the
    table is well formed: every key resolves to the session that owns it, no two
    sessions own the same key, no session slot is lost (the number of sessions and
    the free stack add up to the capacity), and every further such call returns.
    Such a call creates a session under keys not in the table, removes or touches
    a session that exists, sets a deadline that the timing wheel can hold (less
    than 4095 ticks ahead of its position), or expires at a clock that does not
    run backwards. *)
Theorem session_history_consistent t :
  history t ->
  resolves t (abs t)
  /\ (forall i j e e' k, abs t !! i = Some e -> abs t !! j = Some e' ->
        owns e k -> owns e' k -> i = j)
  /\ Z.of_nat (size (abs t)) + free_top_ t = capacity_ t
  /\ (forall c, allowed t c -> exists t', exec t c = Some t' /\ history t').
Proof.
  intros Hh. pose proof (history_ok t Hh) as Ht. split_and!; [by apply table_resolves| |pose proof (ok_count _ Ht); lia|].
  - intros i j e e' k Hi Hj Ho Ho'.
    assert (lookup t k = Some i) by (apply lookup_spec; eauto).
    assert (lookup t k = Some j) by (apply lookup_spec; eauto). congruence.
  - intros c Hc. destruct (exec_ok t c Ht Hc) as (t' & He & _). exists t'. split; [done|]. by eapply hist_call.
Qed.

End Props.

(** *** Concrete tables for the witnesses *)

Definition cli (n : Z) : FiveTuple := mkFiveTuple n 2 1000 80 6.
Definition ret (n : Z) : FiveTuple := mkFiveTuple 9 8 80 n 6.

Definition tbl0 : SessionTable (RH := gmap_hash FiveTuple) :=
  default (mkTable (RH := gmap_hash FiveTuple) (∅, 0) ∅ ∅ 0 0 ∅ 0 0) (init 4 1 true).

Lemma tbl0_init : init (RH := gmap_hash FiveTuple) 4 1 true = Some tbl0.
Proof.
  assert (H : (if init (RH := gmap_hash FiveTuple) 4 1 true then true else false) = true)
    by (vm_compute; reflexivity).
  unfold tbl0. destruct (init 4 1 true); [reflexivity|discriminate].
Qed.

Lemma tbl0_ok : table_ok tbl0.
Proof. apply (init_spec 4 1 tbl0); [lia|lia|exact tbl0_init]. Qed.

(** One NAT session on the fresh table. *)
Definition tbl1 : SessionTable (RH := gmap_hash FiveTuple) :=
  (create tbl0 (cli 10) (Some (ret 5000)) 1 20).2.

Lemma tbl1_eq : create tbl0 (cli 10) (Some (ret 5000)) 1 20 = (Some 0, tbl1).
Proof.
  assert (H : (create tbl0 (cli 10) (Some (ret 5000)) 1 20).1 = Some 0)
    by (vm_compute; reflexivity).
  unfold tbl1. rewrite <- H. apply surjective_pairing.
Qed.

Lemma tbl0_lookup k : lookup tbl0 k = None.
Proof. exact (lookup_empty k). Qed.

Lemma tbl0_fits : fits tbl0 1 20.
Proof. vm_compute. done. Qed.

Lemma tbl1_ok : table_ok tbl1 /\ abs tbl1 !! 0 = Some (mkEntry (cli 10) (Some (ret 5000)) 22).
Proof.
  pose proof (create_spec tbl0 (cli 10) (Some (ret 5000)) 1 20 tbl0_ok
    (tbl0_lookup _) (fun k _ => tbl0_lookup k) tbl0_fits) as H.
  rewrite tbl1_eq in H. destruct H as (H1 & _ & ->). split; [done|]. apply lookup_insert_eq.
Qed.

Lemma session_create_refines_witness : table_ok tbl0 /\ lookup tbl1 (ret 5000) = Some 0.
Proof.
  split; [exact tbl0_ok|].
  pose proof (session_create_refines tbl0 (cli 10) (Some (ret 5000)) 1 20 tbl0_ok
    (tbl0_lookup _) (fun k _ => tbl0_lookup k) tbl0_fits) as H.
  rewrite tbl1_eq in H. destruct H as (_ & _ & _ & _ & H & _). by apply H.
Defined.

Lemma session_remove_refines_witness : table_ok tbl1 /\ lookup (remove tbl1 0) (ret 5000) = None.
Proof.
  split; [apply tbl1_ok|].
  destruct (session_remove_refines tbl1 0 _ (proj1 tbl1_ok) (proj2 tbl1_ok))
    as (_ & _ & _ & H & _).
  apply H. right. reflexivity.
Defined.

Lemma session_touch_refines_witness : table_ok tbl1 /\ lookup (touch tbl1 0 2 5) (cli 10) = Some 0.
Proof.
  split; [apply tbl1_ok|].
  destruct (session_touch_refines tbl1 0 _ 2 5 (proj1 tbl1_ok) (proj2 tbl1_ok)) as (_ & _ & H).
  - vm_compute. done.
  - rewrite H. vm_compute. reflexivity.
Defined.

Lemma session_expire_exact_witness :
  exists t', expire tbl1 30 = Some (t', 1) /\ abs t' = ∅.
Proof.
  destruct (session_expire_exact tbl1 30 (proj1 tbl1_ok)) as (t' & r & H1 & _ & _ & _ & _ & H).
  - vm_compute. done.
  - assert (Hr : snd <$> expire tbl1 30 = Some 1) by (vm_compute; reflexivity).
    exists t'. rewrite H1 in Hr |- *. injection Hr as ->. split; [reflexivity|].
    rewrite H by (vm_compute; done). vm_compute. reflexivity.
Defined.

Lemma session_history_consistent_witness : history tbl1 /\ resolves tbl1 (abs tbl1).
Proof.
  assert (H : history tbl1).
  { apply (hist_call tbl0 (CCreate (cli 10) (Some (ret 5000)) 1 20)).
    - apply (hist_init 4 1); [lia|lia|exact tbl0_init].
    - split; [apply tbl0_lookup|]. split; [intros; apply tbl0_lookup|exact tbl0_fits].
    - reflexivity. }
  split; [exact H|]. apply (session_history_consistent tbl1 H).
Defined.

(** *** Timeouts of a wheel turn or more *)

(** Two sessions in the same slot, the long-lived one created first. *)
Definition tbl_long : SessionTable (RH := gmap_hash FiveTuple) :=
  (create (create tbl0 (cli 10) None 1 (kWheelSlots + 5)).2 (cli 11) None 1 5).2.

Definition sweep (t : SessionTable (RH := gmap_hash FiveTuple)) (now : Z) :=
  default (t, -1) (expire t now).

(** A session whose timeout exceeds the wheel can be lost.  [pending_pop]
    has already unlinked the session [expire] removes, and [remove] unlinks it
    again, which resets the head of the slot the session came from.  When a
    long-lived session has just been put back into that slot it drops out of
    the wheel: here its deadline (tick 4103) passes, [expire] finds nothing
    to remove at tick 9000, and the session still answers lookups. *)
Example session_long_timeout_leaks :
  let t1 := sweep tbl_long 7 in
  let t2 := sweep t1.1 4103 in
  let t3 := sweep t2.1 9000 in
  t1.2 = 1 /\ t2.2 = 0 /\ t3.2 = 0
  /\ lookup t3.1 (cli 10) = Some 0
  /\ expire_tick (at_ t3.1 0) = 4103
  /\ active t3.1 = 1.
Proof. vm_compute. done. Qed.

End SessionProps.
