(* ===== verification/ChecksumThms.v ===== *)
(** Theory of the checksums: ones'-complement sums as residues modulo 65535,
    the full computations against the sum of the words they cover, and the
    incremental update. *)
From S2P Require Import Prelude Types Mem Headers Checksum.
Import Checksum.

Module ChecksumThms.

(** Sum of the little-endian 16-bit words of a region; a trailing odd byte
    counts as the low byte of a word. *)
Fixpoint wsum (l : list Z) : Z :=
  match l with
  | [] => 0
  | [a] => a
  | a :: b :: l => a + 256 * b + wsum l
  end.

(** The value the end-around carry converges to. *)
Definition red (s : Z) : Z := if s =? 0 then 0 else (s - 1) mod 65535 + 1.

(** A receiver accepts a region whose folded sum is all ones. *)
Definition sum_ok (s : Z) : Prop := red s = 65535.

Lemma red_range s : 0 <= red s <= 65535.
Proof.
  unfold red. destruct (s =? 0); [lia|]. pose proof (Z.mod_pos_bound (s - 1) 65535). lia.
Qed.

Lemma red_small s : 0 <= s <= 65535 -> red s = s.
Proof. intros. unfold red. destruct (Z.eqb_spec s 0); [lia|]. rewrite Z.mod_small; lia. Qed.

Lemma red_zero s : 0 <= s -> red s = 0 -> s = 0.
Proof.
  intros Hs. unfold red. destruct (Z.eqb_spec s 0); [done|].
  pose proof (Z.mod_pos_bound (s - 1) 65535). lia.
Qed.

(** [red] depends on the residue alone, for positive sums. *)
Lemma red_cong s t : 0 < s -> 0 < t -> s mod 65535 = t mod 65535 -> red s = red t.
Proof.
  intros Hs Ht H. unfold red. destruct (Z.eqb_spec s 0), (Z.eqb_spec t 0); try lia.
  f_equal. rewrite Zminus_mod, H, <- Zminus_mod. done.
Qed.

Lemma red_mod s : 0 <= s -> red s mod 65535 = s mod 65535.
Proof.
  intros. unfold red. destruct (Z.eqb_spec s 0) as [->|]; [done|].
  rewrite Z.add_mod_idemp_l by lia. f_equal. lia.
Qed.

Lemma sum_ok_iff s : 0 <= s -> sum_ok s <-> 0 < s /\ s mod 65535 = 0.
Proof.
  intros Hs. unfold sum_ok. split.
  - intros H. assert (0 < s) by (destruct (decide (s = 0)) as [->|]; [done|lia]).
    split; [done|]. rewrite <- red_mod by done. rewrite H. done.
  - intros [Hp Hm]. rewrite (red_cong s 65535); [done|lia|lia|done].
Qed.

Lemma carry_step s :
  0 <= s -> Z.land s 65535 + Z.shiftr s 16 = s mod 65536 + s / 65536.
Proof.
  intros. change 65535 with (Z.ones 16). rewrite Z.land_ones, Z.shiftr_div_pow2 by lia. done.
Qed.

Lemma red_carry s : 0 <= s -> red (s mod 65536 + s / 65536) = red s.
Proof.
  intros Hs. destruct (decide (s = 0)) as [->|]; [done|].
  apply red_cong; [|lia|].
  - pose proof (Z.div_mod s 65536). pose proof (Z.mod_pos_bound s 65536).
    pose proof (Z.div_pos s 65536). lia.
  - rewrite (Z.div_mod s 65536) at 3 by lia.
    replace (65536 * (s / 65536) + s mod 65536)
      with (s mod 65536 + s / 65536 + s / 65536 * 65535) by lia.
    by rewrite Z.mod_add by lia.
Qed.

(** The carry loop ends within its fuel on every 32-bit sum and returns the
    reduced sum. *)
Lemma fold_carry_spec s : is_u32 s -> fold_carry fold_fuel s = Some (red s).
Proof.
  unfold is_u32. intros Hs. unfold fold_fuel.
  assert (Hdone : forall f t, 0 <= t < 65536 -> fold_carry f t = Some (red t)).
  { intros f t Ht. rewrite red_small by lia.
    assert (Z.shiftr t 16 = 0) as E.
    { rewrite Z.shiftr_div_pow2 by lia. apply Z.div_small. lia. }
    destruct f; simpl; by rewrite E. }
  assert (Hstep : forall f t, 0 <= t ->
    fold_carry f (t mod 65536 + t / 65536) = Some (red (t mod 65536 + t / 65536)) ->
    fold_carry (S f) t = Some (red t)).
  { intros f t Ht IH. destruct (decide (t < 65536)); [by apply Hdone|]. cbn [fold_carry].
    rewrite carry_step, IH, red_carry by done.
    destruct (Z.eqb_spec (Z.shiftr t 16) 0) as [E|E]; [|done].
    rewrite Z.shiftr_div_pow2 in E by lia. apply Z.div_small_iff in E; lia. }
  apply Hstep; [lia|]. apply Hstep; [zlia|]. apply Hdone. zlia.
Qed.

Lemma not16 x : 0 <= x <= 65535 -> u16 (Z.lnot x) = 65535 - x.
Proof.
  intros. unfold u16. replace (Z.lnot x) with (65535 - x + (-1) * 65536).
  - rewrite Z.mod_add by lia. apply Z.mod_small. lia.
  - unfold Z.lnot. lia.
Qed.

Lemma lnot_land16 x : 0 <= x <= 65535 -> Z.land (Z.lnot x) 65535 = 65535 - x.
Proof.
  intros. change 65535 with (Z.ones 16) at 1. rewrite Z.land_ones by lia. by apply not16.
Qed.

Lemma incremental_update_spec c o n :
  is_u16 c -> is_u16 o -> is_u16 n ->
  incremental_update c o n = Some (65535 - red (65535 - c + (65535 - o) + n)).
Proof.
  unfold is_u16. intros Hc Ho Hn. unfold incremental_update.
  rewrite !lnot_land16 by lia. rewrite u32_id by (zwrap; lia).
  rewrite fold_carry_spec by (zwrap; lia). simpl. rewrite not16; [done|apply red_range].
Qed.

Lemma incremental_residue c o n :
  is_u16 c -> is_u16 o -> is_u16 n ->
  exists c', incremental_update c o n = Some c' /\ is_u16 c'
    /\ (c' + n) mod 65535 = (c + o) mod 65535.
Proof.
  intros Hc Ho Hn. rewrite incremental_update_spec by done. eexists. split; [done|].
  set (s := 65535 - c + (65535 - o) + n). assert (0 <= s) by (unfold s; zwrap; lia).
  pose proof (red_range s). split; [zwrap; lia|].
  replace (65535 - red s + n) with (n - red s + 1 * 65535) by lia.
  rewrite Z.mod_add, Zminus_mod, red_mod, <- Zminus_mod by lia.
  unfold s. replace (n - (65535 - c + (65535 - o) + n)) with (c + o + (-2) * 65535) by lia.
  by rewrite Z.mod_add by lia.
Qed.

(** *** Word sums *)

Lemma wsum_app l k : Z.even (len l) = true -> wsum (l ++ k) = wsum l + wsum k.
Proof.
  assert (H : forall n l, (length l <= n)%nat -> Z.even (len l) = true ->
    wsum (l ++ k) = wsum l + wsum k).
  { clear l. intros n. induction n as [|n IH]; intros l Hl He.
    - destruct l; [done|simpl in Hl; lia].
    - destruct l as [|a [|b l]]; [done|done|]. simpl. rewrite IH.
      + lia.
      + simpl in Hl. lia.
      + rewrite !len_cons in He. replace (1 + (1 + len l)) with (len l + 2) in He by lia.
        by rewrite Z.even_add in He; destruct (Z.even (len l)). }
  by apply (H (length l)).
Qed.

Lemma wsum_bounds l : frame l -> 0 <= wsum l <= 32768 * len l.
Proof.
  assert (H : forall n l, (length l <= n)%nat -> frame l -> 0 <= wsum l <= 32768 * len l).
  { clear l. intros n. induction n as [|n IH]; intros l Hl Hf.
    - destruct l; [done|simpl in Hl; lia].
    - destruct l as [|a [|b l]]; [done| |].
      + inversion_clear Hf as [|? ? Ha _]. unfold is_u8, len in *. simpl. lia.
      + inversion_clear Hf as [|? ? Ha Hf']. inversion_clear Hf' as [|? ? Hb Hf].
        rewrite !len_cons. simpl wsum. simpl in Hl.
        specialize (IH l ltac:(lia) Hf). unfold is_u8 in *. lia. }
  by apply (H (length l)).
Qed.

(** Replacing an aligned even-sized part of a region. *)
Lemma wsum_put off l bs :
  0 <= off -> Z.even off = true -> Z.even (len l) = true -> off + len l <= len bs ->
  wsum (put off l bs) = wsum bs - wsum (slice off (len l) bs) + wsum l.
Proof.
  intros Ho He Hl Hn. pose proof (len_nonneg l).
  destruct (split_range off (len l) bs) as (a & b & c & -> & Ha & Hb & ->); [lia..|].
  subst off. rewrite put_app by done. rewrite !wsum_app by congruence. lia.
Qed.

Lemma wsum_le16 v : is_u16 v -> wsum (le16 v) = v.
Proof. intros. rewrite <- (le_val_le16 v) at 2 by done. unfold le16, wsum, le_val. lia. Qed.

Lemma wsum_slice2 off bs :
  0 <= off -> off + 2 <= len bs -> wsum (slice off 2 bs) = get16 off bs.
Proof.
  intros. unfold get16. pose proof (len_slice off 2 bs ltac:(lia) ltac:(lia) ltac:(lia)) as Hl.
  unfold len in Hl. destruct (slice off 2 bs) as [|a [|b [|]]]; simpl in *; lia.
Qed.

Lemma wsum_slice1 off bs :
  0 <= off -> off + 1 <= len bs -> wsum (slice off 1 bs) = get8 off bs.
Proof.
  intros. unfold get8. pose proof (len_slice off 1 bs ltac:(lia) ltac:(lia) ltac:(lia)) as Hl.
  unfold len in Hl. destruct (slice off 1 bs) as [|a [|]]; simpl in *; lia.
Qed.

Lemma wsum_set16 off v bs :
  0 <= off -> Z.even off = true -> off + 2 <= len bs -> is_u16 v ->
  wsum (put off (le16 v) bs) = wsum bs - get16 off bs + v.
Proof.
  intros. rewrite wsum_put by done. change (len (le16 v)) with 2.
  rewrite wsum_slice2, wsum_le16 by done. done.
Qed.

(** *** The full computations *)

Lemma sum_words_wp fuel ptr n sum Q bs :
  frame bs -> 0 <= ptr -> 0 <= n -> ptr + n <= len bs -> n <= Z.of_nat fuel ->
  0 <= sum -> sum + 32768 * n < 4294967296 ->
  (forall ptr' n' sum', 0 <= n' <= 1 -> 0 <= ptr' -> ptr' + n' = ptr + n ->
     sum' + wsum (slice ptr' n' bs) = sum + wsum (slice ptr n bs) -> 0 <= sum' ->
     sum' + 32768 * n' < 4294967296 -> Q (ptr', n', sum') bs) ->
  wp (sum_words fuel ptr n sum) Q bs.
Proof.
  intros Hf. revert ptr n sum. induction fuel as [|fuel IH]; intros ptr n sum Hp Hn Hl Hfu Hs Hb HQ;
    cbn [sum_words]; destruct (Z.gtb_spec n 1) as [Hgt|Hle].
  - lia.
  - apply wp_ret, HQ; lia || done.
  - wp_step. wp_step. pose proof (get16_is ptr bs Hf ltac:(lia) ltac:(lia)) as Hv.
    unfold is_u16 in Hv. rewrite u32_id by (zwrap; lia).
    apply IH; try lia. intros p' n' s' H1 H2 H3 H4 H5 H6. apply HQ; try lia. rewrite H4.
    replace n with (2 + (n - 2)) at 2 by lia. rewrite slice_split by lia.
    rewrite wsum_app by (rewrite len_slice by lia; done). rewrite wsum_slice2 by lia. lia.
  - apply wp_ret, HQ; lia || done.
Qed.

Lemma sum_region_wp ptr n sum Q bs :
  frame bs -> 0 <= ptr -> 0 <= n -> ptr + n <= len bs ->
  0 <= sum -> sum + 32768 * n < 4294967296 ->
  Q (65535 - red (sum + wsum (slice ptr n bs))) bs ->
  wp (sum_region ptr n sum) Q bs.
Proof.
  intros Hf Hp Hn Hl Hs Hb HQ. unfold sum_region. wp_step.
  apply sum_words_wp; try done; [lia|]. intros p' n' s' Hn' Hp' Hpn Hsum Hs' Hb'.
  pose proof (wsum_bounds _ (frame_slice ptr n bs Hf)) as Hw.
  rewrite len_slice in Hw by lia. wp_step.
  assert (Hfin : wp (sum0 ← lift (fold_carry fold_fuel (s' + wsum (slice p' n' bs)));
                     mret (u16 (Z.lnot sum0))) Q bs).
  { rewrite Hsum, fold_carry_spec by (zwrap; lia). apply wp_bind. simpl.
    apply wp_ret. rewrite not16 by apply red_range. done. }
  destruct (Z.eqb_spec n' 1) as [->|Hn1].
  - wp_step. wp_step. wp_step.
    assert (Hg : wsum (slice p' 1 bs) = get8 p' bs).
    { apply wsum_slice1; lia. }
    rewrite Hg in *. pose proof (get8_is p' bs Hf ltac:(lia) ltac:(lia)) as H8.
    unfold is_u8 in H8. rewrite u32_id by (zwrap; lia). exact Hfin.
  - assert (n' = 0) as -> by lia. wp_step. change (slice p' 0 bs) with (@nil Z) in *.
    simpl wsum in *. rewrite Z.add_0_r in Hfin. exact Hfin.
Qed.

(** *** Checksum fields *)

(** Closing a region: a field that held 0 and receives the complement of the
    region's sum makes the region acceptable. *)
Lemma close_ok s : 0 <= s -> sum_ok (s + (65535 - red s)).
Proof.
  intros Hs. destruct (decide (s = 0)) as [->|]; [done|].
  pose proof (red_range s). apply sum_ok_iff; [lia|]. split; [lia|].
  replace (s + (65535 - red s)) with (s - red s + 1 * 65535) by lia.
  rewrite Z.mod_add, Zminus_mod, red_mod, <- Zminus_mod, Z.sub_diag by lia. done.
Qed.

Lemma cksum_is s : is_u16 (65535 - red s).
Proof. pose proof (red_range s). zwrap. lia. Qed.

(** Sum of a region whose checksum field at [f] (relative to the region) is
    written. *)
Lemma wsum_field ptr n f v bs :
  0 <= ptr -> 0 <= f -> f + 2 <= n -> ptr + n <= len bs -> Z.even f = true -> is_u16 v ->
  wsum (slice ptr n (put (ptr + f) (le16 v) bs))
  = wsum (slice ptr n bs) - get16 (ptr + f) bs + v.
Proof.
  intros. rewrite slice_put_in by (change (len (le16 v)) with 2; lia).
  replace (ptr + f - ptr) with f by lia.
  rewrite wsum_set16 by (rewrite ?len_slice by lia; done || lia).
  unfold get16. rewrite slice_slice by lia. done.
Qed.

Lemma put16_zero_then ptr f v bs :
  0 <= ptr + f -> ptr + f + 2 <= len bs ->
  put (ptr + f) (le16 v) (put (ptr + f) (le16 0) bs) = put (ptr + f) (le16 v) bs.
Proof. intros. by apply put_put. Qed.

(** The full computation at a field: what is stored, and that the region is
    then acceptable. *)
Lemma sum_region_closes ptr n f base bs :
  frame bs -> 0 <= ptr -> 0 <= f -> f + 2 <= n -> ptr + n <= len bs -> Z.even f = true ->
  0 <= base -> base + 32768 * n < 4294967296 ->
  let c := 65535 - red (base + wsum (slice ptr n (put (ptr + f) (le16 0) bs))) in
  wp (sum_region ptr n base)
    (fun c' bs' => c' = c /\ bs' = put (ptr + f) (le16 0) bs) (put (ptr + f) (le16 0) bs)
  /\ sum_ok (base + wsum (slice ptr n (put (ptr + f) (le16 c) bs))).
Proof.
  intros Hf Hp Hf0 Hfn Hn He Hb Hbb c.
  pose proof (wsum_bounds _ (frame_slice ptr n _ (frame_put (ptr + f) (le16 0) bs Hf (frame_le16 0)))) as Hpos.
  split.
  - assert (Hl0 : len (put (ptr + f) (le16 0) bs) = len bs)
      by (apply len_put; [lia|change (len (le16 0)) with 2; lia]).
    apply sum_region_wp; try lia; [|done]. apply frame_put; [done|apply frame_le16].
  - rewrite wsum_field in Hpos by (zwrap; lia || done).
    unfold c. rewrite !wsum_field by (apply cksum_is || (zwrap; lia) || done).
    set (s := base + (wsum (slice ptr n bs) - get16 (ptr + f) bs + 0)) in *.
    replace (base + (wsum (slice ptr n bs) - get16 (ptr + f) bs + (65535 - red s)))
      with (s + (65535 - red s)) by lia.
    apply close_ok. lia.
Qed.

Lemma wsum_first ptr n bs :
  frame bs -> 0 <= ptr -> 1 <= n -> ptr + n <= len bs -> get8 ptr bs <= wsum (slice ptr n bs).
Proof.
  intros Hf Hp Hn Hl. unfold get8.
  pose proof (len_slice ptr n bs Hp ltac:(lia) Hl) as Hs.
  pose proof (frame_slice ptr n bs Hf) as Hfs.
  replace (slice ptr 1 bs) with (slice 0 1 (slice ptr n bs))
    by (rewrite slice_slice by lia; f_equal; lia).
  destruct (slice ptr n bs) as [|a [|b l]]; [unfold len in Hs; simpl in Hs; lia| |].
  - unfold slice. simpl. lia.
  - unfold slice. simpl. inversion_clear Hfs as [|? ? _ Hf']. inversion_clear Hf' as [|? ? Hb Hl'].
    pose proof (wsum_bounds l Hl'). unfold is_u8 in Hb. simpl. lia.
Qed.

(** *** Specifications of the operations *)

Lemma wp_lift {S A} (o : option A) (a : A) (Q : A -> S -> Prop) s :
  o = Some a -> Q a s -> wp (lift o) Q s.
Proof. by intros ->. Qed.

(** The IPv4 header checksum: afterwards the header is acceptable and only the
    checksum field has changed. *)
Lemma update_wp ip Q bs :
  frame bs -> 0 <= ip -> let h := ihl_of (get8 ip bs) in
  20 <= h -> ip + h <= len bs ->
  (forall c, is_u16 c -> sum_ok (wsum (slice ip h (put (ip + 10) (le16 c) bs))) ->
     Q tt (put (ip + 10) (le16 c) bs)) ->
  wp (update ip) Q bs.
Proof.
  intros Hf Hip h Hh Hl HQ. unfold update, Ip.checksum.
  pose proof (get8_is ip bs Hf ltac:(lia) ltac:(lia)) as H8. unfold is_u8 in H8.
  assert (Hh60 : h <= 60) by apply ihl_range.
  set (bs0 := put (ip + 10) (le16 0) bs).
  assert (Hl0 : len bs0 = len bs) by (apply len_put; [lia|change (len (le16 0)) with 2; lia]).
  assert (Hg : get8 ip bs0 = get8 ip bs).
  { unfold get8, bs0. rewrite slice_put_ne; [done|lia|lia|change (len (le16 0)) with 2; lia|lia]. }
  destruct (sum_region_closes ip h 10 0 bs Hf Hip ltac:(lia) ltac:(lia) ltac:(lia) eq_refl
    ltac:(lia) ltac:(lia)) as [Hwp Hok].
  wp_step. apply wp_wr16; [lia|lia|]. fold bs0. wp_step.
  unfold Ip.get_header_len, Ip.get_ihl, Ip.version_ihl. repeat wp_step.
  rewrite Hg. fold (ihl_of (get8 ip bs)). fold h.
  eapply wp_mono; [exact Hwp|]. intros c' bs' [-> ->]. apply wp_wr16; [lia|fold bs0; lia|].
  unfold bs0. rewrite put16_zero_then by lia. apply HQ; [apply cksum_is|exact Hok].
Qed.

Definition same (a b : Z) : Prop := a mod 65535 = b mod 65535.

Lemma same_refl a : same a a.
Proof. done. Qed.
Lemma same_trans a b c : same a b -> same b c -> same a c.
Proof. unfold same. congruence. Qed.
Lemma same_sym a b : same a b -> same b a.
Proof. unfold same. congruence. Qed.
Lemma same_add a b c d : same a b -> same c d -> same (a + c) (b + d).
Proof.
  unfold same. intros H1 H2. by rewrite Zplus_mod, H1, H2, <- Zplus_mod.
Qed.
Lemma same_cancel a b c : same (a + c) (b + c) -> same a b.
Proof.
  unfold same. intros H. replace a with (a + c - c) by lia. replace b with (b + c - c) by lia.
  by rewrite Zminus_mod, H, <- Zminus_mod.
Qed.

(** One step of an incremental update at the field [c]. *)
Lemma update_word_wp c o n Q bs :
  frame bs -> 0 <= c -> c + 2 <= len bs -> is_u16 o -> is_u16 n ->
  (forall v, is_u16 v -> same (v + n) (get16 c bs + o) -> Q tt (put c (le16 v) bs)) ->
  wp (update_word c o n) Q bs.
Proof.
  intros Hf Hc Hl Ho Hn HQ. unfold update_word. wp_step. wp_step.
  destruct (incremental_residue (get16 c bs) o n) as (v & Hv & Hv16 & Hr);
    [by apply get16_is|done|done|].
  wp_step. eapply wp_lift; [exact Hv|]. apply wp_wr16; [lia|lia|]. by apply HQ.
Qed.

(** Sum of the two halves of a 32-bit value. *)
Definition halves (x : Z) : Z := x / 65536 + x mod 65536.

Lemma halves_args x :
  is_u32 x -> is_u16 (u16 (Z.shiftr x 16)) /\ is_u16 (u16 (Z.land x 65535))
  /\ u16 (Z.shiftr x 16) + u16 (Z.land x 65535) = halves x.
Proof.
  intros Hx. split; [apply u16_is|]. split; [apply u16_is|].
  rewrite Z.shiftr_div_pow2 by lia. change 65535 with (Z.ones 16).
  rewrite Z.land_ones by lia. unfold halves. change (2 ^ 16) with 65536. zlia.
Qed.

Lemma put16_twice c v w bs :
  0 <= c -> c + 2 <= len bs -> put c (le16 v) (put c (le16 w) bs) = put c (le16 v) bs.
Proof. intros. by apply put_put. Qed.

Lemma len_put16 c v bs : 0 <= c -> c + 2 <= len bs -> len (put c (le16 v) bs) = len bs.
Proof. intros. apply len_put; [lia|]. by change (len (le16 v)) with 2. Qed.

(** Two words in sequence. *)
Lemma update_two_wp c o1 n1 o2 n2 Q bs :
  frame bs -> 0 <= c -> c + 2 <= len bs -> is_u16 o1 -> is_u16 n1 -> is_u16 o2 -> is_u16 n2 ->
  (forall v, is_u16 v -> same (v + (n1 + n2)) (get16 c bs + (o1 + o2)) ->
     Q tt (put c (le16 v) bs)) ->
  wp (_ ← update_word c o1 n1; update_word c o2 n2) Q bs.
Proof.
  intros Hf Hc Hl Ho1 Hn1 Ho2 Hn2 HQ. wp_step. apply update_word_wp; try done.
  intros v Hv Hs. apply update_word_wp; rewrite ?len_put16 by lia; try done.
  { apply frame_put; [done|apply frame_le16]. }
  intros w Hw Hs'. rewrite put16_twice by lia. apply HQ; [done|].
  rewrite get16_put in Hs' by done.
  replace (w + (n1 + n2)) with (w + n2 + n1) by lia.
  apply (same_trans _ (v + o2 + n1)); [by apply same_add|].
  replace (v + o2 + n1) with (v + n1 + o2) by lia.
  replace (get16 c bs + (o1 + o2)) with (get16 c bs + o1 + o2) by lia. by apply same_add.
Qed.

Lemma update_tcp_checksum_ip_wp tcp o n Q bs :
  frame bs -> 0 <= tcp -> tcp + 18 <= len bs -> is_u32 o -> is_u32 n ->
  (forall v, is_u16 v -> same (v + halves n) (get16 (tcp + 16) bs + halves o) ->
     Q tt (put (tcp + 16) (le16 v) bs)) ->
  wp (update_tcp_checksum_ip tcp o n) Q bs.
Proof.
  intros Hf Hc Hl Ho Hn HQ. unfold update_tcp_checksum_ip, TcpH.checksum.
  destruct (halves_args o Ho) as (? & ? & E1). destruct (halves_args n Hn) as (? & ? & E2).
  apply update_two_wp; try done; try lia. rewrite E1, E2. exact HQ.
Qed.

(** A computed UDP checksum is never 0. *)
Lemma avoid_zero_wp c v Q bs :
  frame bs -> 0 <= c -> c + 2 <= len bs -> is_u16 v ->
  (forall w, is_u16 w -> w <> 0 -> same w v -> Q tt (put c (le16 w) bs)) ->
  wp (avoid_zero c) Q (put c (le16 v) bs).
Proof.
  intros Hf Hc Hl Hv HQ. unfold avoid_zero. wp_step.
  pose proof (len_put16 c v bs Hc Hl) as Hlp. apply wp_rd16; [lia|lia|].
  rewrite get16_put by done. apply wp_when.
  - intros ->%Z.eqb_eq. apply wp_wr16; [lia|lia|]. rewrite put16_twice by lia.
    apply HQ; [zwrap; lia|lia|done].
  - intros Hz%Z.eqb_neq. by apply HQ.
Qed.

Lemma update_udp_checksum_ip_wp udp o n Q bs :
  frame bs -> 0 <= udp -> udp + 8 <= len bs -> is_u32 o -> is_u32 n ->
  get16 (udp + 6) bs <> 0 ->
  (forall v, is_u16 v -> v <> 0 -> same (v + halves n) (get16 (udp + 6) bs + halves o) ->
     Q tt (put (udp + 6) (le16 v) bs)) ->
  wp (update_udp_checksum_ip udp o n) Q bs.
Proof.
  intros Hf Hc Hl Ho Hn Hnz HQ. unfold update_udp_checksum_ip, UdpH.checksum.
  destruct (halves_args o Ho) as (? & ? & E1). destruct (halves_args n Hn) as (? & ? & E2).
  wp_step. wp_step. destruct (Z.eqb_spec (get16 (udp + 6) bs) 0); [done|].
  apply wp_bind2, update_two_wp; try done; try lia. rewrite E1, E2. intros v Hv Hs.
  apply avoid_zero_wp; try done; try lia. intros w Hw Hw0 Hwv. apply HQ; [done|done|].
  apply (same_trans _ (v + halves n)); [|done]. by apply same_add.
Qed.

Lemma update_udp_checksum_port_wp udp o n Q bs :
  frame bs -> 0 <= udp -> udp + 8 <= len bs -> is_u16 o -> is_u16 n ->
  get16 (udp + 6) bs <> 0 ->
  (forall v, is_u16 v -> v <> 0 -> same (v + n) (get16 (udp + 6) bs + o) ->
     Q tt (put (udp + 6) (le16 v) bs)) ->
  wp (update_udp_checksum_port udp o n) Q bs.
Proof.
  intros Hf Hc Hl Ho Hn Hnz HQ. unfold update_udp_checksum_port, UdpH.checksum.
  wp_step. wp_step. destruct (Z.eqb_spec (get16 (udp + 6) bs) 0); [done|].
  wp_step. apply update_word_wp; try done; try lia. intros v Hv Hs.
  apply avoid_zero_wp; try done; try lia. intros w Hw Hw0 Hwv. apply HQ; [done|done|].
  apply (same_trans _ (v + n)); [|done]. by apply same_add.
Qed.

(** *** Pseudo header *)

Lemma pseudo_eq s d p n :
  is_u32 s -> is_u32 d ->
  calculate_pseudo_header_sum s d p n = halves s + halves d + bswap16 p + bswap16 n
  /\ 0 <= halves s <= 131070 /\ 0 <= halves d <= 131070.
Proof.
  intros Hs Hd. unfold calculate_pseudo_header_sum, htons, halves.
  pose proof (bswap16_is p). pose proof (bswap16_is n).
  change 65535 with (Z.ones 16). rewrite !Z.land_ones, !Z.shiftr_div_pow2 by lia.
  change (2 ^ 16) with 65536.
  assert (0 <= s / 65536 <= 65535 /\ 0 <= d / 65536 <= 65535) by zlia.
  pose proof (Z.mod_pos_bound s 65536). pose proof (Z.mod_pos_bound d 65536).
  unfold is_u16 in *.
  rewrite (u32_id (s / 65536 + _)) by (unfold is_u32; lia).
  rewrite (u32_id (d / 65536 + _)) by (unfold is_u32; lia).
  rewrite (u32_id (_ + (d / 65536 + _))) by (unfold is_u32; lia).
  rewrite (u32_id (_ + bswap16 p)) by (unfold is_u32; lia).
  rewrite u32_id by (unfold is_u32; lia). lia.
Qed.

Lemma pseudo_of_wp ip n Q bs :
  0 <= ip -> ip + 20 <= len bs ->
  Q (calculate_pseudo_header_sum (get32 (ip + 12) bs) (get32 (ip + 16) bs)
       (get8 (ip + 9) bs) (u16 n)) bs ->
  wp (pseudo_of ip n) Q bs.
Proof.
  intros. unfold pseudo_of, Ip.src_ip, Ip.dst_ip, Ip.protocol. repeat wp_step. done.
Qed.

(** The L4 sum a receiver computes: pseudo header plus segment. *)
Definition l4_sum (ip l4 n : Z) (bs : list Z) : Z :=
  calculate_pseudo_header_sum (get32 (ip + 12) bs) (get32 (ip + 16) bs) (get8 (ip + 9) bs) n
  + wsum (slice l4 n bs).

Lemma get32_put_ne off off' l bs :
  0 <= off -> 0 <= off' -> off' + len l <= len bs -> off + 4 <= off' \/ off' + len l <= off ->
  get32 off (put off' l bs) = get32 off bs.
Proof. intros. unfold get32. by rewrite slice_put_ne. Qed.
Lemma get16_put_ne off off' l bs :
  0 <= off -> 0 <= off' -> off' + len l <= len bs -> off + 2 <= off' \/ off' + len l <= off ->
  get16 off (put off' l bs) = get16 off bs.
Proof. intros. unfold get16. by rewrite slice_put_ne. Qed.
Lemma get8_put_ne off off' l bs :
  0 <= off -> 0 <= off' -> off' + len l <= len bs -> off + 1 <= off' \/ off' + len l <= off ->
  get8 off (put off' l bs) = get8 off bs.
Proof. intros. unfold get8. by rewrite slice_put_ne. Qed.

(** Writing past the IP header leaves the pseudo header alone. *)
Lemma l4_sum_put ip l4 n off l bs :
  0 <= ip -> ip + 20 <= off -> off + len l <= len bs ->
  l4_sum ip l4 n (put off l bs)
  = calculate_pseudo_header_sum (get32 (ip + 12) bs) (get32 (ip + 16) bs) (get8 (ip + 9) bs) n
    + wsum (slice l4 n (put off l bs)).
Proof.
  intros. unfold l4_sum. pose proof (len_nonneg l).
  by rewrite !get32_put_ne, get8_put_ne by lia.
Qed.

Lemma bswap16_pos v : is_u8 v -> v <> 0 -> 0 < bswap16 v.
Proof. unfold bswap16. intros. zlia. Qed.

(** Full recomputation of a TCP checksum. *)
Lemma recalculate_tcp_wp ip tcp n Q bs :
  frame bs -> 0 <= ip -> ip + 20 <= tcp -> 20 <= n < 65536 -> tcp + n <= len bs ->
  get8 (ip + 9) bs <> 0 ->
  (forall c, is_u16 c -> sum_ok (l4_sum ip tcp n (put (tcp + 16) (le16 c) bs)) ->
     Q tt (put (tcp + 16) (le16 c) bs)) ->
  wp (recalculate_tcp_checksum ip tcp n) Q bs.
Proof.
  intros Hf Hip Htcp Hn Hl Hp HQ. unfold recalculate_tcp_checksum, TcpH.checksum.
  set (bs0 := put (tcp + 16) (le16 0) bs).
  assert (Hl0 : len bs0 = len bs) by (apply len_put16; lia).
  assert (Hf0 : frame bs0) by (apply frame_put; [done|apply frame_le16]).
  wp_step. apply wp_wr16; [lia|lia|]. fold bs0. wp_step. apply pseudo_of_wp; [lia|lia|].
  rewrite u16_id by (zwrap; lia).
  set (ps := calculate_pseudo_header_sum _ _ _ _).
  assert (Hps : 0 < ps < 400000).
  { unfold ps. destruct (pseudo_eq (get32 (ip + 12) bs0) (get32 (ip + 16) bs0) (get8 (ip + 9) bs0) n)
      as (-> & ? & ?); [apply get32_is; done || lia..|].
    pose proof (bswap16_is (get8 (ip + 9) bs0)). pose proof (bswap16_is n).
    assert (0 < bswap16 (get8 (ip + 9) bs0)).
    { apply bswap16_pos; [apply get8_is; done || lia|].
      unfold bs0. rewrite get8_put_ne; [done|lia|lia|change (len (le16 0)) with 2; lia|lia]. }
    zwrap. lia. }
  pose proof (wsum_bounds _ (frame_slice tcp n bs0 Hf0)) as Hw.
  destruct (sum_region_closes tcp n 16 ps bs Hf ltac:(lia) ltac:(lia) ltac:(lia) ltac:(lia) eq_refl
    ltac:(lia) ltac:(lia)) as [Hwp Hok].
  wp_step. eapply wp_mono; [exact Hwp|]. intros c' bs' [-> ->].
  apply wp_wr16; [lia|fold bs0; lia|]. rewrite put16_zero_then by lia.
  apply HQ; [apply cksum_is|].
  rewrite l4_sum_put by (try change (len (le16 _)) with 2; lia).
  assert (ps = calculate_pseudo_header_sum (get32 (ip + 12) bs) (get32 (ip + 16) bs)
    (get8 (ip + 9) bs) n) as <-.
  { unfold ps, bs0. by rewrite !get32_put_ne, get8_put_ne
      by (change (len (le16 0)) with 2; lia). }
  exact Hok.
Qed.

End ChecksumThms.
