(* ===== verification/Parser.v ===== *)
(** Frame parsing: include/protocol/parser.h, src/protocol/parser.cpp. *)
From S2P Require Import Prelude Types Mem Headers.

Module Parser.

Inductive ParseResult := OK | MALFORMED | FRAGMENT.
#[export] Instance ParseResult_eq_dec : EqDecision ParseResult.
Proof. solve_decision. Defined.

Record IcmpErrorInfo := mkIcmpErrorInfo {
  inner_l3_offset : Z;
  inner_l4_offset : Z;
  inner : FiveTuple
}.

Definition kIpFlagMF : Z := 8192.
Definition kIpFragOffMask : Z := 8191.

(** Assignments to groups of [meta]'s fields. *)
Definition meta_l2 (dst src : MacAddr) (type : Z) (m : PacketMeta) : PacketMeta :=
  mkPacketMeta src dst type (meta_src_ip m) (meta_dst_ip m) (meta_ip_protocol m)
    (meta_ip_ttl m) 0 0 0 0 Eth.HEADER_SIZE (meta_l4_offset m) (meta_payload_offset m)
    (meta_total_len m) (meta_payload_len m).

Definition meta_l3 (sip dip proto ttl l4 total : Z) (m : PacketMeta) : PacketMeta :=
  mkPacketMeta (meta_src_mac m) (meta_dst_mac m) (meta_ether_type m) sip dip proto ttl
    (meta_src_port m) (meta_dst_port m) (meta_tcp_flags m) (meta_l2_offset m) (meta_l3_offset m)
    l4 l4 total (meta_payload_len m).

Definition meta_l4 (sp dp fl payload : Z) (m : PacketMeta) : PacketMeta :=
  mkPacketMeta (meta_src_mac m) (meta_dst_mac m) (meta_ether_type m) (meta_src_ip m)
    (meta_dst_ip m) (meta_ip_protocol m) (meta_ip_ttl m) sp dp fl (meta_l2_offset m)
    (meta_l3_offset m) (meta_l4_offset m) payload (meta_total_len m) (meta_payload_len m).

Definition meta_plen (n : Z) (m : PacketMeta) : PacketMeta :=
  mkPacketMeta (meta_src_mac m) (meta_dst_mac m) (meta_ether_type m) (meta_src_ip m)
    (meta_dst_ip m) (meta_ip_protocol m) (meta_ip_ttl m) (meta_src_port m) (meta_dst_port m)
    (meta_tcp_flags m) (meta_l2_offset m) (meta_l3_offset m) (meta_l4_offset m)
    (meta_payload_offset m) (meta_total_len m) n.

(** The L4 part of [parse]; [end_] is the end of the IP packet. *)
Definition parse_l4 (ip end_ : Z) (meta : PacketMeta) : ST bytes (ParseResult * PacketMeta) :=
  let l4 := meta_l4_offset meta in
  tcp ← Ip.is_tcp ip;
  udp ← Ip.is_udp ip;
  icmp ← Ip.is_icmp ip;
  '(r, meta) ←
    ((if (tcp : bool) then
       if l4 + TcpH.HEADER_SIZE >? end_ then mret (MALFORMED, meta)
       else
         doff ← TcpH.get_header_len l4;
         if (doff <? TcpH.HEADER_SIZE) || (l4 + doff >? end_) then mret (MALFORMED, meta)
         else
           sp ← rd16 (TcpH.src_port l4);
           dp ← rd16 (TcpH.dst_port l4);
           fl ← rd8 (TcpH.flags l4);
           mret (OK, meta_l4 sp dp fl (u16 (l4 + doff)) meta)
     else if (udp : bool) then
       if l4 + UdpH.HEADER_SIZE >? end_ then mret (MALFORMED, meta)
       else
         udp_len ← UdpH.get_length l4;
         if (udp_len <? UdpH.HEADER_SIZE) || (l4 + udp_len >? end_) then mret (MALFORMED, meta)
         else
           sp ← rd16 (UdpH.src_port l4);
           dp ← rd16 (UdpH.dst_port l4);
           mret (OK, meta_l4 sp dp (meta_tcp_flags meta) (u16 (l4 + UdpH.HEADER_SIZE)) meta)
     else if (icmp : bool) then
       if l4 + IcmpH.HEADER_SIZE >? end_ then mret (MALFORMED, meta) else mret (OK, meta)
     else mret (OK, meta)) : ST bytes (ParseResult * PacketMeta));
  mret (match r with
        | OK => (OK, meta_plen (u16 (end_ - meta_payload_offset meta)) meta)
        | _ => (r, meta)
        end).

(** [n] is the frame length; [meta] the (uninitialised) output structure. *)
Definition parse (n : Z) (meta : PacketMeta) : ST bytes (ParseResult * PacketMeta) :=
  if n <? Eth.HEADER_SIZE then mret (MALFORMED, meta)
  else
    dst ← Eth.get_dst_mac 0;
    src ← Eth.get_src_mac 0;
    type ← Eth.get_ether_type 0;
    let meta := meta_l2 dst src type meta in
    v4 ← Eth.is_ipv4 0;
    if negb v4 then mret (OK, meta)
    else
      let l3 := meta_l3_offset meta in
      if n <? l3 + Ip.HEADER_SIZE then mret (MALFORMED, meta)
      else
        let ip := l3 in
        ihl ← Ip.get_header_len ip;
        ip_total ← Ip.get_total_length ip;
        ver ← Ip.get_version ip;
        if negb (ver =? 4) || (ihl <? Ip.HEADER_SIZE) || (ip_total <? ihl)
           || (l3 + ip_total >? n)
        then mret (MALFORMED, meta)
        else
          let end_ := l3 + ip_total in
          sip ← rd32 (Ip.src_ip ip);
          dip ← rd32 (Ip.dst_ip ip);
          proto ← rd8 (Ip.protocol ip);
          ttl ← rd8 (Ip.ttl ip);
          let meta := meta_l3 sip dip proto ttl (u16 (l3 + ihl)) (u16 end_) meta in
          f ← rd16 (Ip.flags_fragment ip);
          let frag := ntohs f in
          if flag frag kIpFlagMF || flag frag kIpFragOffMask then mret (FRAGMENT, meta)
          else parse_l4 ip end_ meta.

(** [None]: the function returned false. *)
Definition parse_icmp_error (meta : PacketMeta) : ST bytes (option IcmpErrorInfo) :=
  let icmp := meta_l4_offset meta in
  t ← rd8 (IcmpH.type icmp);
  if negb (IcmpH.icmp_is_error t) then mret None
  else
    let inner_l3 := meta_l4_offset meta + IcmpH.HEADER_SIZE in
    if inner_l3 + Ip.HEADER_SIZE >? meta_total_len meta then mret None
    else
      let ip := inner_l3 in
      ihl ← Ip.get_header_len ip;
      ver ← Ip.get_version ip;
      if negb (ver =? 4) || (ihl <? Ip.HEADER_SIZE) then mret None
      else
        tcp ← Ip.is_tcp ip;
        udp ← Ip.is_udp ip;
        if negb tcp && negb udp then mret None
        else
          f ← rd16 (Ip.flags_fragment ip);
          if flag (ntohs f) kIpFragOffMask then mret None
          else
            let inner_l4 := inner_l3 + ihl in
            if inner_l4 + 8 >? meta_total_len meta then mret None
            else
              sip ← rd32 (Ip.src_ip ip);
              dip ← rd32 (Ip.dst_ip ip);
              p0 ← rd16 inner_l4;
              p1 ← rd16 (inner_l4 + 2);
              proto ← rd8 (Ip.protocol ip);
              mret (Some (mkIcmpErrorInfo (u16 inner_l3) (u16 inner_l4)
                            (mkFiveTuple sip dip p0 p1 proto))).

End Parser.
