(* ===== verification/ParserThms.v ===== *)
(** The parser against a declarative description of well-formed frames. *)
From S2P Require Import Prelude Types Mem Headers Parser.
Import Parser.

Module ParserThms.

(** Fields of the IPv4 packet behind an Ethernet header. *)
Definition f_type (bs : list Z) : Z := ntohs (get16 12 bs).
Definition f_ver (bs : list Z) : Z := Z.land (Z.shiftr (get8 14 bs) 4) 15.
Definition f_ihl (bs : list Z) : Z := ihl_of (get8 14 bs).
Definition f_total (bs : list Z) : Z := ntohs (get16 16 bs).
Definition f_frag (bs : list Z) : Z := ntohs (get16 20 bs).
Definition f_proto (bs : list Z) : Z := get8 23 bs.
Definition f_l4 (bs : list Z) : Z := 14 + f_ihl bs.
Definition f_end (bs : list Z) : Z := 14 + f_total bs.

(** An IPv4 header that fits in the frame and covers its own length. *)
Definition ip_wf (bs : list Z) : Prop :=
  34 <= len bs /\ f_ver bs = 4 /\ 20 <= f_ihl bs <= f_total bs /\ f_end bs <= len bs.

Definition unfragmented (bs : list Z) : Prop :=
  flag (f_frag bs) kIpFlagMF = false /\ flag (f_frag bs) kIpFragOffMask = false.

(** The transport header is complete. *)
Definition l4_wf (bs : list Z) : Prop :=
  let l4 := f_l4 bs in
  let end_ := f_end bs in
  (f_proto bs = IPProtocol_TCP ->
     l4 + 20 <= end_ /\ 20 <= doff_of (get8 (l4 + 12) bs) /\ l4 + doff_of (get8 (l4 + 12) bs) <= end_)
  /\ (f_proto bs = IPProtocol_UDP ->
     l4 + 8 <= end_ /\ 8 <= ntohs (get16 (l4 + 4) bs) /\ l4 + ntohs (get16 (l4 + 4) bs) <= end_)
  /\ (f_proto bs = IPProtocol_ICMP -> l4 + 8 <= end_).

(** What a successful parse of an IPv4 frame reports. *)
Record reports (bs : list Z) (m : PacketMeta) : Prop := {
  rp_dmac : meta_dst_mac m = slice 0 6 bs;
  rp_smac : meta_src_mac m = slice 6 6 bs;
  rp_type : meta_ether_type m = EtherType_IPv4;
  rp_sip : meta_src_ip m = get32 26 bs;
  rp_dip : meta_dst_ip m = get32 30 bs;
  rp_proto : meta_ip_protocol m = f_proto bs;
  rp_ttl : meta_ip_ttl m = get8 22 bs;
  rp_l3 : meta_l3_offset m = 14;
  rp_l4 : meta_l4_offset m = f_l4 bs;
  rp_total : meta_total_len m = f_end bs;
  rp_ports : f_proto bs = IPProtocol_TCP \/ f_proto bs = IPProtocol_UDP ->
    meta_src_port m = get16 (f_l4 bs) bs /\ meta_dst_port m = get16 (f_l4 bs + 2) bs;
  rp_noports : f_proto bs <> IPProtocol_TCP -> f_proto bs <> IPProtocol_UDP ->
    meta_src_port m = 0 /\ meta_dst_port m = 0;
  rp_flags : meta_tcp_flags m
    = if f_proto bs =? IPProtocol_TCP then get8 (f_l4 bs + 13) bs else 0;
  rp_payload : meta_payload_offset m
    = f_l4 bs + (if f_proto bs =? IPProtocol_TCP then doff_of (get8 (f_l4 bs + 12) bs)
                 else if f_proto bs =? IPProtocol_UDP then 8 else 0);
  rp_plen : meta_payload_offset m + meta_payload_len m = f_end bs
}.

Ltac wps := repeat first [wp_step | progress (unfold Ip.is_tcp, Ip.is_udp, Ip.is_icmp, Ip.protocol,
  Ip.get_header_len, Ip.get_ihl, Ip.get_total_length, Ip.get_version, Ip.version_ihl, Ip.total_length,
  Ip.src_ip, Ip.dst_ip, Ip.ttl, Ip.flags_fragment, TcpH.get_header_len, TcpH.data_offset, TcpH.flags,
  TcpH.src_port, TcpH.dst_port, UdpH.get_length, UdpH.length, UdpH.src_port, UdpH.dst_port,
  Eth.get_dst_mac, Eth.get_src_mac, Eth.is_ipv4, Eth.get_ether_type, Eth.ether_type, Eth.dst_mac,
  Eth.src_mac, IcmpH.type)].

(** A report assembled from the parts the parser fills in. *)
Lemma reports_intro bs m0 sp dp fl pl :
  let m := meta_l4 sp dp fl pl
    (meta_l3 (get32 26 bs) (get32 30 bs) (f_proto bs) (get8 22 bs) (f_l4 bs) (f_end bs)
      (meta_l2 (slice 0 6 bs) (slice 6 6 bs) EtherType_IPv4 m0)) in
  (f_proto bs = IPProtocol_TCP \/ f_proto bs = IPProtocol_UDP ->
     sp = get16 (f_l4 bs) bs /\ dp = get16 (f_l4 bs + 2) bs) ->
  (f_proto bs <> IPProtocol_TCP -> f_proto bs <> IPProtocol_UDP -> sp = 0 /\ dp = 0) ->
  fl = (if f_proto bs =? IPProtocol_TCP then get8 (f_l4 bs + 13) bs else 0) ->
  pl = f_l4 bs + (if f_proto bs =? IPProtocol_TCP then doff_of (get8 (f_l4 bs + 12) bs)
                  else if f_proto bs =? IPProtocol_UDP then 8 else 0) ->
  0 <= pl <= f_end bs -> f_end bs <= 65535 ->
  reports bs (meta_plen (u16 (f_end bs - pl)) m).
Proof.
  intros m H1 H2 H3 H4 H5 H6. split; try done. cbn. rewrite u16_id by (zwrap; lia). lia.
Qed.

Definition l4_outcome (bs : list Z) (rm : ParseResult * PacketMeta) (bs' : list Z) : Prop :=
  bs' = bs /\ ((rm.1 = OK /\ l4_wf bs /\ reports bs rm.2) \/ (rm.1 = MALFORMED /\ ~ l4_wf bs)).

Lemma outcome_bad bs m : ~ l4_wf bs -> l4_outcome bs (MALFORMED, m) bs.
Proof. intros. split; [done|]. by right. Qed.
Lemma outcome_ok bs m : l4_wf bs -> reports bs m -> l4_outcome bs (OK, m) bs.
Proof. intros. split; [done|]. by left. Qed.

Ltac protos := unfold IPProtocol_TCP, IPProtocol_UDP, IPProtocol_ICMP in *.

(** The L4 part, given the fields filled so far. *)
Lemma parse_l4_wp bs m0 :
  ip_wf bs -> len bs <= 65535 ->
  wp (parse_l4 14 (f_end bs)
       (meta_l3 (get32 26 bs) (get32 30 bs) (f_proto bs) (get8 22 bs) (f_l4 bs) (f_end bs)
         (meta_l2 (slice 0 6 bs) (slice 6 6 bs) EtherType_IPv4 m0))) (l4_outcome bs) bs.
Proof.
  intros (Hl & Hv & Hi & He) Hmax. unfold parse_l4. wps. cbn [meta_l4_offset meta_l3].
  change (14 + 9) with 23. fold (f_proto bs).
  pose proof (ihl_range (get8 14 bs)) as Hr. fold (f_ihl bs) in Hr.
  assert (Hl4 : f_l4 bs = 14 + f_ihl bs) by done.
  assert (Hend : f_end bs = 14 + f_total bs) by done.
  unfold TcpH.HEADER_SIZE, UdpH.HEADER_SIZE, IcmpH.HEADER_SIZE. protos.
  destruct (Z.eqb_spec (f_proto bs) 6) as [Hp|Hp6];
    [|destruct (Z.eqb_spec (f_proto bs) 17) as [Hp|Hp17];
      [|destruct (Z.eqb_spec (f_proto bs) 1) as [Hp|Hp1]]].
  - wp_if; wps; bprop.
    { apply outcome_bad. intros [H _]. protos. lia. }
    fold (doff_of (get8 (f_l4 bs + 12) bs)). wp_if; wps; bprop.
    { apply outcome_bad. intros [H _]. protos. apply orb_true_iff in E0 as [E0|E0]; bprop; lia. }
    apply outcome_ok.
    + split; [intros _; lia|]. split; intros; protos; lia.
    + apply reports_intro; protos; cbn; rewrite ?u16_id by (zwrap; lia); try lia; try done.
      * by rewrite Hp.
      * by rewrite Hp.
  - wp_if; wps; bprop.
    { apply outcome_bad. intros (_ & H & _). protos. lia. }
    wp_if; wps; bprop.
    { apply outcome_bad. intros (_ & H & _). protos. apply orb_true_iff in E0 as [E0|E0]; bprop; lia. }
    apply outcome_ok.
    + split; [intros; protos; lia|]. split; intros; protos; lia.
    + apply reports_intro; protos; cbn; rewrite ?u16_id by (zwrap; lia); try lia; try done.
      * by rewrite Hp.
      * by rewrite Hp.
  - wp_if; wps; bprop.
    { apply outcome_bad. intros (_ & _ & H). protos. lia. }
    apply outcome_ok.
    + split; [intros; protos; lia|]. split; intros; protos; lia.
    + apply (reports_intro bs m0 0 0 0 (f_l4 bs)); protos; rewrite ?Hp; cbn; lia.
  - wps. apply outcome_ok.
    + split; [intros; protos; lia|]. split; intros; protos; lia.
    + apply (reports_intro bs m0 0 0 0 (f_l4 bs)); protos; try lia.
      all: destruct (Z.eqb_spec (f_proto bs) 6), (Z.eqb_spec (f_proto bs) 17); lia.
Qed.

(** Exactly which frames get which verdict. *)
Definition parse_outcome (bs : list Z) (rm : ParseResult * PacketMeta) (bs' : list Z) : Prop :=
  bs' = bs /\
  match rm.1 with
  | OK => 14 <= len bs /\ meta_ether_type rm.2 = f_type bs
      /\ (f_type bs = EtherType_IPv4 -> ip_wf bs /\ unfragmented bs /\ l4_wf bs /\ reports bs rm.2)
  | FRAGMENT => f_type bs = EtherType_IPv4 /\ ip_wf bs /\ ~ unfragmented bs
  | MALFORMED => len bs < 14
      \/ (f_type bs = EtherType_IPv4 /\ (~ ip_wf bs \/ (ip_wf bs /\ unfragmented bs /\ ~ l4_wf bs)))
  end.

Lemma parse_wp bs m0 : len bs <= 65535 -> wp (parse (len bs) m0) (parse_outcome bs) bs.
Proof.
  intros Hmax. unfold parse, Eth.HEADER_SIZE. wp_if; bprop.
  { wps. split; [done|]. by left. }
  wps. change (0 + 12) with 12. fold (f_type bs). change (0 + 6) with 6. wp_if; bprop.
  { wps. split; [done|]. split; [lia|]. split; [done|]. done. }
  cbn [meta_l3_offset meta_l2]. unfold Eth.HEADER_SIZE, Ip.HEADER_SIZE. wp_if; bprop.
  { wps. split; [done|]. right. split; [done|]. left. unfold ip_wf. lia. }
  wps. change (14 + 2) with 16. fold (f_total bs) (f_ver bs) (ihl_of (get8 14 bs)) (f_ihl bs).
  wp_if.
  { wps. split; [done|]. right. split; [done|]. left. unfold ip_wf, f_end.
    apply orb_true_iff in E2 as [E2|E2]; [apply orb_true_iff in E2 as [E2|E2];
      [apply orb_true_iff in E2 as [E2|E2]|]|]; bprop; lia. }
  bprop. assert (Hwf : ip_wf bs) by (unfold ip_wf, f_end; lia).
  wps. change (14 + 12) with 26. change (14 + 16) with 30. change (14 + 9) with 23.
  change (14 + 8) with 22. change (14 + 6) with 20. fold (f_proto bs) (f_frag bs).
  wp_if.
  { wps. split; [done|]. split; [done|]. split; [done|]. intros [H1' H2'].
    apply orb_true_iff in E2 as [?|?]; congruence. }
  bprop. rewrite !u16_id by (pose proof (ihl_range (get8 14 bs)); fold (f_ihl bs) in *; zwrap; lia).
  fold (f_l4 bs) (f_end bs). rewrite E0.
  eapply wp_mono; [apply (parse_l4_wp bs m0 Hwf Hmax)|].
  intros [r m] bs' [-> Ho]. cbn [fst snd] in Ho.
  destruct Ho as [(-> & H1' & H2')|[-> H1']]; (split; [done|]).
  - split; [lia|]. split; [rewrite E0; apply (rp_type _ _ H2')|]. done.
  - right. split; [done|]. by right.
Qed.

(** C12. The parser is total and exact.  On every frame of at most 65535 bytes
    (the width of an mbuf's data_len) it returns without reading outside the
    frame and without changing it; it answers OK for an IPv4 frame exactly when
    the IPv4 header fits and covers its length, the packet is no fragment and
    its transport header is complete, and then every field it reports (MACs,
    addresses, ports, flags, offsets, lengths) is the frame's; FRAGMENT and
    MALFORMED are given exactly to the frames that break those conditions. *)
Theorem parse_total_and_exact bs m0 :
  len bs <= 65535 ->
  exists r m, parse (len bs) m0 bs = Some ((r, m), bs)
    /\ (14 <= len bs -> f_type bs = EtherType_IPv4 ->
        (r = OK <-> ip_wf bs /\ unfragmented bs /\ l4_wf bs)
        /\ (r = FRAGMENT <-> ip_wf bs /\ ~ unfragmented bs)
        /\ (r = OK -> reports bs m)).
Proof.
  intros Hmax. destruct (proj1 (wp_run _ _ _) (parse_wp bs m0 Hmax)) as ([r m] & bs' & Hr & -> & H).
  exists r, m. split; [done|]. intros Hl Ht. cbn [fst snd] in H. destruct r.
  - destruct H as (_ & _ & H). specialize (H Ht). destruct H as (? & ? & ? & ?).
    split; [done|]. split; [|done]. split; [done|tauto].
  - assert (~ len bs < 14) by lia.
    split; [split; [done|]; tauto|]. split; [|done]. split; [done|]. tauto.
  - split; [split; [done|]; tauto|]. split; [|done]. split; [tauto|done].
Qed.

(** A TCP SYN from 10.0.0.1:1000 to 10.0.0.2:80 with 6 bytes of padding. *)
Definition syn_frame : list Z :=
  [2;0;0;0;0;1; 2;0;0;0;0;2; 8;0;
   69;0;0;40; 0;1;64;0; 64;6;0;0; 10;0;0;1; 10;0;0;2;
   3;232;0;80; 0;0;0;1; 0;0;0;0; 80;2;255;255; 0;0;0;0;
   0;0;0;0;0;0].

Definition meta0 : PacketMeta := mkPacketMeta [] [] 0 0 0 0 0 0 0 0 0 0 0 0 0 0.

Lemma parse_total_and_exact_witness :
  exists r m, parse (len syn_frame) meta0 syn_frame = Some ((r, m), syn_frame)
    /\ r = OK /\ meta_total_len m = 54.
Proof.
  destruct (parse_total_and_exact syn_frame meta0) as (r & m & H & Hc).
  - vm_compute. discriminate.
  - exists r, m. split; [exact H|]. vm_compute in H. injection H as <- <-. split; reflexivity.
Defined.

(** *** ICMP errors *)

(** The quoted packet of an ICMP error: a complete IPv4 header, TCP or UDP, not
    a later fragment, with at least eight bytes of transport header. *)
Definition quotes (bs : list Z) (m : PacketMeta) (i : IcmpErrorInfo) : Prop :=
  let l3 := meta_l4_offset m + 8 in
  let l4 := l3 + ihl_of (get8 l3 bs) in
  inner_l3_offset i = l3 /\ inner_l4_offset i = l4
  /\ 20 <= ihl_of (get8 l3 bs) /\ l4 + 8 <= meta_total_len m
  /\ (get8 (l3 + 9) bs = IPProtocol_TCP \/ get8 (l3 + 9) bs = IPProtocol_UDP)
  /\ inner i = mkFiveTuple (get32 (l3 + 12) bs) (get32 (l3 + 16) bs) (get16 l4 bs)
                 (get16 (l4 + 2) bs) (get8 (l3 + 9) bs).

Lemma parse_icmp_error_wp bs m Q :
  0 <= meta_l4_offset m -> meta_l4_offset m + 8 <= meta_total_len m ->
  meta_total_len m <= len bs -> len bs <= 65535 ->
  (forall o, (forall i, o = Some i -> quotes bs m i /\ IcmpH.icmp_is_error (get8 (meta_l4_offset m) bs) = true)
     -> Q o bs) ->
  wp (parse_icmp_error m) Q bs.
Proof.
  intros H0 H1 H2 H3 HQ. unfold parse_icmp_error, IcmpH.type; cbv zeta.
  assert (Hnone : Q None bs) by (by apply HQ).
  set (l3 := meta_l4_offset m + IcmpH.HEADER_SIZE).
  assert (Hl3 : l3 = meta_l4_offset m + 8) by done.
  pose proof (ihl_range (get8 l3 bs)) as Hr.
  wps. wp_if; [by wps|]. wp_if; [by wps|]. unfold Ip.HEADER_SIZE in *. bprop.
  wps. fold (ihl_of (get8 l3 bs)). wp_if; [by wps|]. bprop. wps.
  wp_if; [by wps|]. wps. wp_if; [by wps|]. wp_if; [by wps|]. bprop. wps.
  apply HQ. intros i [= <-]. split; [|done]. unfold quotes. rewrite <- !Hl3.
  rewrite !u16_id by (zwrap; lia). cbn.
  split_and!; try done; try lia.
Qed.

End ParserThms.
