(* ===== verification/Forward.v ===== *)
(** Packet rewriting: include/forward/nat_forwarder.h,
    src/forward/nat_forwarder.cpp.

    FULLNAT address and port translation in both directions, the TCP option
    edits (timestamp stripping, TOA insertion), ICMP error translation and the
    DR MAC rewrite.  [hw_cksum] is the build option L4LB_HW_CKSUM. *)
From S2P Require Import Prelude Types TcpState Mem Headers Dpdk Checksum Parser.
Import Tcp Checksum Parser.

Module Forward.

Record NatRewrite := mkNatRewrite {
  rw_src_ip : IPv4Addr;
  rw_dst_ip : IPv4Addr;
  rw_src_port : Port;
  rw_dst_port : Port;
  rw_src_mac : MacAddr;
  rw_dst_mac : MacAddr
}.

Record NatOptions := mkNatOptions {
  strip_ts : bool;
  add_toa : bool;
  toa_ip : IPv4Addr;
  toa_port : Port;
  tx_offloads : Z;
  opt_mtu : Z
}.

Inductive RewriteResult := RW_OK | TTL_EXCEEDED.

Record RewriteOutcome := mkOutcome {
  ts_stripped : bool;
  toa_added : bool;
  toa_no_room : bool
}.
Definition outcome0 : RewriteOutcome := mkOutcome false false false.

(** The option loop.  [fuel] bounds the number of steps: every iteration
    advances [opt] by at least one byte. *)
Fixpoint strip_loop (fuel : nat) (opt end_ : Z) (changed : bool) : ST bytes bool :=
  if opt <? end_ then
    match fuel with
    | O => fault
    | S fuel =>
      kind ← rd8 opt;
      if kind =? TcpH.TCPOPT_EOL then mret changed
      else if kind =? TcpH.TCPOPT_NOP then strip_loop fuel (opt + 1) end_ changed
      else if opt + 1 >=? end_ then mret changed
      else
        n ← rd8 (opt + 1);
        if (n <? 2) || (opt + n >? end_) then mret changed
        else
          changed ← (if kind =? TcpH.TCPOPT_TIMESTAMP
                     then _ ← wr_bytes opt (replicate (Z.to_nat n) TcpH.TCPOPT_NOP); mret true
                     else mret changed);
          n ← rd8 (opt + 1);
          strip_loop fuel (opt + n) end_ changed
    end
  else mret changed.

Definition strip_timestamp (tcp : Z) : ST bytes bool :=
  n ← TcpH.get_header_len tcp;
  strip_loop (Z.to_nat n) (tcp + TcpH.HEADER_SIZE) (tcp + n) false.

(** [meta] with total_len and payload_offset grown by [n]. *)
Definition meta_grow (n : Z) (m : PacketMeta) : PacketMeta :=
  mkPacketMeta (meta_src_mac m) (meta_dst_mac m) (meta_ether_type m) (meta_src_ip m)
    (meta_dst_ip m) (meta_ip_protocol m) (meta_ip_ttl m) (meta_src_port m) (meta_dst_port m)
    (meta_tcp_flags m) (meta_l2_offset m) (meta_l3_offset m) (meta_l4_offset m)
    (u16 (meta_payload_offset m + n)) (u16 (meta_total_len m + n)) (meta_payload_len m).

Section Forward.
Context `{MB : RteMbuf} (hw_cksum : bool).

Definition insert_toa (meta : PacketMeta) (ip : IPv4Addr) (port : Port) (mtu : Z)
  : ST Mbuf (bool * PacketMeta) :=
  let iph := meta_l3_offset meta in
  let tcp := meta_l4_offset meta in
  doff ← onb (TcpH.get_header_len tcp);
  ip_len ← onb (Ip.get_total_length iph);
  contig ← gets rte_pktmbuf_is_contiguous;
  if (doff + TcpH.TCPOLEN_TOA >? 60) || (ip_len + TcpH.TCPOLEN_TOA >? mtu) || negb contig
  then mret (false, meta)
  else
    let frame_len := meta_l3_offset meta + ip_len in
    n ← gets data_len;
    _ ← when (n >? frame_len) (modify (fun m => rte_pktmbuf_trim m (n - frame_len)));
    m' ← gets (fun m => rte_pktmbuf_append m TcpH.TCPOLEN_TOA);
    match m' with
    | None => mret (false, meta)
    | Some m' =>
      _ ← modify (fun _ => m');
      let opt := meta_l4_offset meta + TcpH.HEADER_SIZE in
      _ ← onb (
        tail ← rd_bytes opt (frame_len - opt);
        _ ← wr_bytes (opt + TcpH.TCPOLEN_TOA) tail;
        _ ← wr8 opt TcpH.TCPOPT_TOA;
        _ ← wr8 (opt + 1) TcpH.TCPOLEN_TOA;
        _ ← wr16 (opt + 2) port;
        _ ← wr32 (opt + 4) ip;
        _ ← TcpH.set_header_len tcp (doff + TcpH.TCPOLEN_TOA);
        Ip.set_total_length iph (u16 (ip_len + TcpH.TCPOLEN_TOA)));
      mret (true, meta_grow TcpH.TCPOLEN_TOA meta)
    end.

Definition l4_checksum_full (ip l4 : Z) (meta : PacketMeta) (offloads : Z) : ST Mbuf unit :=
  tcp ← onb (Ip.is_tcp ip);
  let want := if (tcp : bool) then TX_OFFLOAD_TCP_CKSUM else TX_OFFLOAD_UDP_CKSUM in
  if hw_cksum && flag offloads want then
    h ← onb (Ip.get_header_len ip);
    _ ← modify (set_lens (meta_l3_offset meta) h);
    let fl := Z.lor F_TX_IPV4 (if (tcp : bool) then F_TX_TCP_CKSUM else F_TX_UDP_CKSUM) in
    _ ← modify (set_ol_flags fl);
    b ← gets mdata;
    let ph := rte_ipv4_phdr_cksum b ip fl in
    if (tcp : bool) then
      n ← onb (TcpH.get_header_len l4);
      _ ← modify (set_l4_len n);
      onb (wr16 (TcpH.checksum l4) ph)
    else
      _ ← modify (set_l4_len UdpH.HEADER_SIZE);
      onb (wr16 (UdpH.checksum l4) ph)
  else
    _ ← modify (set_ol_flags 0);
    if (tcp : bool) then
      t ← onb (Ip.get_total_length ip);
      h ← onb (Ip.get_header_len ip);
      onb (recalculate_tcp_checksum ip l4 (t - h))
    else onb (recalculate_udp_checksum ip l4).

Definition clear_tx_offload : ST Mbuf unit := modify (set_ol_flags 0).

Definition dr_rewrite (src_mac dst_mac : MacAddr) : ST Mbuf unit :=
  _ ← onb (_ ← Eth.set_dst_mac 0 dst_mac; Eth.set_src_mac 0 src_mac);
  modify (set_ol_flags 0).

(** Step 1 of [nat_rewrite]: TCP options.  Returns whether the L4 checksum
    has to be computed in full. *)
Definition nat_options (meta : PacketMeta) (opt : NatOptions) (out : RewriteOutcome)
  : ST Mbuf (bool * PacketMeta * RewriteOutcome) :=
  let tcp := meta_l4_offset meta in
  fl ← onb (rd8 (TcpH.flags tcp));
  stripped ← (if strip_ts opt && flag fl TCP_SYN then onb (strip_timestamp tcp) else mret false);
  let out := if (stripped : bool) then mkOutcome true (toa_added out) (toa_no_room out) else out in
  if add_toa opt then
    '(ok, meta) ← insert_toa meta (toa_ip opt) (toa_port opt) (opt_mtu opt);
    mret (if (ok : bool)
          then (true, meta, mkOutcome (ts_stripped out) true (toa_no_room out))
          else (stripped, meta, mkOutcome (ts_stripped out) (toa_added out) true))
  else mret (stripped, meta, out).

(** Step 2: addresses, TTL and the header checksum; returns the old
    addresses. *)
Definition nat_ip (ip : Z) (src dst : IPv4Addr) : ST bytes (IPv4Addr * IPv4Addr) :=
  old_src ← rd32 (Ip.src_ip ip);
  old_dst ← rd32 (Ip.dst_ip ip);
  _ ← wr32 (Ip.src_ip ip) src;
  _ ← wr32 (Ip.dst_ip ip) dst;
  ttl ← rd8 (Ip.ttl ip);
  _ ← wr8 (Ip.ttl ip) (ttl - 1);
  _ ← update ip;
  mret (old_src, old_dst).

(** Step 3 for TCP. *)
Definition nat_tcp (ip l4 old_src old_dst : Z) (meta : PacketMeta) (rw : NatRewrite)
    (l4_full hw : bool) (offloads : Z) : ST Mbuf unit :=
  old_sp ← onb (rd16 (TcpH.src_port l4));
  old_dp ← onb (rd16 (TcpH.dst_port l4));
  _ ← onb (wr16 (TcpH.src_port l4) (rw_src_port rw));
  _ ← onb (wr16 (TcpH.dst_port l4) (rw_dst_port rw));
  if l4_full || hw then l4_checksum_full ip l4 meta offloads
  else
    _ ← onb (
      _ ← update_tcp_checksum_ip l4 old_src (rw_src_ip rw);
      _ ← update_tcp_checksum_ip l4 old_dst (rw_dst_ip rw);
      _ ← update_tcp_checksum_port l4 old_sp (rw_src_port rw);
      update_tcp_checksum_port l4 old_dp (rw_dst_port rw));
    modify (set_ol_flags 0).

(** Step 3 for UDP. *)
Definition nat_udp (ip l4 old_src old_dst : Z) (meta : PacketMeta) (rw : NatRewrite)
    (hw : bool) (offloads : Z) : ST Mbuf unit :=
  old_sp ← onb (rd16 (UdpH.src_port l4));
  old_dp ← onb (rd16 (UdpH.dst_port l4));
  ck ← onb (rd16 (UdpH.checksum l4));
  let had_cksum := negb (ck =? 0) in
  _ ← onb (wr16 (UdpH.src_port l4) (rw_src_port rw));
  _ ← onb (wr16 (UdpH.dst_port l4) (rw_dst_port rw));
  if hw then l4_checksum_full ip l4 meta offloads
  else if had_cksum then
    _ ← onb (
      _ ← update_udp_checksum_ip l4 old_src (rw_src_ip rw);
      _ ← update_udp_checksum_ip l4 old_dst (rw_dst_ip rw);
      _ ← update_udp_checksum_port l4 old_sp (rw_src_port rw);
      update_udp_checksum_port l4 old_dp (rw_dst_port rw));
    modify (set_ol_flags 0)
  else modify (set_ol_flags 0).

Definition nat_rewrite (meta : PacketMeta) (rw : NatRewrite) (opt : NatOptions)
  : ST Mbuf (RewriteResult * PacketMeta * RewriteOutcome) :=
  let ip := meta_l3_offset meta in
  ttl ← onb (rd8 (Ip.ttl ip));
  if ttl <=? 1 then mret (TTL_EXCEEDED, meta, outcome0)
  else
    tcp ← onb (Ip.is_tcp ip);
    '(l4_full, meta, out) ←
      ((if (tcp : bool) then nat_options meta opt outcome0 else mret (false, meta, outcome0))
       : ST Mbuf (bool * PacketMeta * RewriteOutcome));
    let ip := meta_l3_offset meta in
    '(old_src, old_dst) ← onb (nat_ip ip (rw_src_ip rw) (rw_dst_ip rw));
    let l4 := meta_l4_offset meta in
    tcp ← onb (Ip.is_tcp ip);
    udp ← onb (Ip.is_udp ip);
    let hw := hw_cksum && flag (tx_offloads opt)
                (if (tcp : bool) then TX_OFFLOAD_TCP_CKSUM else TX_OFFLOAD_UDP_CKSUM) in
    _ ← (if (tcp : bool) then nat_tcp ip l4 old_src old_dst meta rw l4_full hw (tx_offloads opt)
         else if (udp : bool) then nat_udp ip l4 old_src old_dst meta rw hw (tx_offloads opt)
         else mret tt);
    _ ← onb (_ ← Eth.set_dst_mac 0 (rw_dst_mac rw); Eth.set_src_mac 0 (rw_src_mac rw));
    mret (RW_OK, meta, out).

(** The quoted header: new addresses, a fresh checksum, new ports. *)
Definition inner_rewrite (iip ports : Z) (inn : FiveTuple) : ST bytes unit :=
  _ ← wr32 (Ip.src_ip iip) (src_ip inn);
  _ ← wr32 (Ip.dst_ip iip) (dst_ip inn);
  _ ← update iip;
  _ ← wr16 ports (src_port inn);
  wr16 (ports + 2) (dst_port inn).

Definition nat_rewrite_icmp_error (meta : PacketMeta) (info : IcmpErrorInfo)
    (outer_src outer_dst : IPv4Addr) (inn : FiveTuple) (src_mac dst_mac : MacAddr)
  : ST Mbuf RewriteResult :=
  let ip := meta_l3_offset meta in
  ttl ← onb (rd8 (Ip.ttl ip));
  if ttl <=? 1 then mret TTL_EXCEEDED
  else
    let iip := inner_l3_offset info in
    let ports := inner_l4_offset info in
    let icmp := meta_l4_offset meta in
    _ ← onb (
      _ ← inner_rewrite iip ports inn;
      _ ← nat_ip ip outer_src outer_dst;
      _ ← wr16 (IcmpH.checksum icmp) 0;
      c ← calculate_checksum icmp (meta_total_len meta - meta_l4_offset meta);
      _ ← wr16 (IcmpH.checksum icmp) c;
      _ ← Eth.set_dst_mac 0 dst_mac;
      Eth.set_src_mac 0 src_mac);
    _ ← modify (set_ol_flags 0);
    mret RW_OK.

End Forward.
End Forward.
