(* ===== verification/ForwardThms.v ===== *)
(** Correctness of packet rewriting. *)
From S2P Require Import Prelude Types TcpState Mem Headers Dpdk Checksum ChecksumThms Parser ParserThms Forward.
Import Tcp Checksum ChecksumThms Parser ParserThms Forward.

Module ForwardThms.

Ltac lens := try change (len (le16 _)) with 2 in *; try change (len (le32 _)) with 4 in *;
  try change (len [_]) with 1 in *.

Lemma len_put32 c v bs : 0 <= c -> c + 4 <= len bs -> len (put c (le32 v) bs) = len bs.
Proof. intros. apply len_put; [lia|]. by change (len (le32 v)) with 4. Qed.
Lemma len_put8 c v bs : 0 <= c -> c + 1 <= len bs -> len (put c [v] bs) = len bs.
Proof. intros. apply len_put; [lia|]. by change (len [v]) with 1. Qed.
Lemma frame_put16 c v bs : frame bs -> frame (put c (le16 v) bs).
Proof. intros. apply frame_put; [done|apply frame_le16]. Qed.
Lemma frame_put32 c v bs : frame bs -> frame (put c (le32 v) bs).
Proof. intros. apply frame_put; [done|apply frame_le32]. Qed.
Lemma frame_put8 c v bs : frame bs -> frame (put c [u8 v] bs).
Proof. intros. apply frame_put; [done|]. repeat constructor; apply u8_is. Qed.
Lemma get8_put_same off v bs :
  0 <= off -> off + 1 <= len bs -> get8 off (put off [v] bs) = v.
Proof.
  intros. unfold get8. change 1 with (len [v]). rewrite slice_put_same by done. simpl. lia.
Qed.

Create HintDb pkt.
#[export] Hint Resolve frame_put16 frame_put32 frame_put8 : pkt.

(** *** The IP header *)

(** What [nat_ip] does to the header at [ip]. *)
Record ip_rewritten (ip src dst : Z) (bs bs' : list Z) : Prop := {
  ir_frame : frame bs';
  ir_agrees : agrees (ip + 8) (ip + 20) bs bs';
  ir_src : get32 (ip + 12) bs' = src;
  ir_dst : get32 (ip + 16) bs' = dst;
  ir_ttl : get8 (ip + 8) bs' = u8 (get8 (ip + 8) bs - 1);
  ir_proto : get8 (ip + 9) bs' = get8 (ip + 9) bs;
  ir_ok : sum_ok (wsum (slice ip (ihl_of (get8 ip bs')) bs'))
}.

Lemma nat_ip_wp ip src dst Q bs :
  frame bs -> 0 <= ip -> 20 <= ihl_of (get8 ip bs) -> ip + ihl_of (get8 ip bs) <= len bs ->
  is_u32 src -> is_u32 dst ->
  (forall bs', ip_rewritten ip src dst bs bs' ->
     Q (get32 (ip + 12) bs, get32 (ip + 16) bs) bs') ->
  wp (nat_ip ip src dst) Q bs.
Proof.
  intros Hf Hip Hh Hl Hs Hd HQ. unfold nat_ip, Ip.src_ip, Ip.dst_ip, Ip.ttl.
  set (b1 := put (ip + 12) (le32 src) bs). set (b2 := put (ip + 16) (le32 dst) b1).
  assert (L1 : len b1 = len bs) by (apply len_put32; lia).
  assert (L2 : len b2 = len bs) by (unfold b2; rewrite len_put32; lia).
  set (b3 := put (ip + 8) [u8 (get8 (ip + 8) b2 - 1)] b2).
  assert (L3 : len b3 = len bs) by (unfold b3; rewrite len_put8; lia).
  assert (Ha : agrees (ip + 8) (ip + 20) bs b3).
  { unfold b3, b2, b1. repeat apply agrees_put_then; lens; try lia. apply agrees_refl. }
  assert (Hf3 : frame b3) by (unfold b3, b2, b1; auto with pkt).
  assert (Hg : get8 ip b3 = get8 ip bs) by (eapply agrees_get8; [exact Ha|lia|lia]).
  do 4 wp_step. apply wp_bind, wp_wr32; [lia|lia|]. fold b1.
  apply wp_bind, wp_wr32; [lia|lia|]. fold b2. do 2 wp_step.
  apply wp_bind, wp_wr8; [lia|lia|]. fold b3. wp_step.
  apply update_wp; rewrite ?Hg; try done; try lia.
  intros c Hc Hok. apply wp_ret, HQ. split.
  - auto with pkt.
  - apply agrees_put_then; lens; try lia. done.
  - rewrite get32_put_ne by (lens; lia). unfold b3. rewrite get32_put_ne by (lens; lia).
    unfold b2. rewrite get32_put_ne by (lens; lia). unfold b1. apply get32_put; lia || done.
  - rewrite get32_put_ne by (lens; lia). unfold b3. rewrite get32_put_ne by (lens; lia).
    unfold b2. apply get32_put; lia || done.
  - rewrite get8_put_ne by (lens; lia). unfold b3. rewrite get8_put_same by lia.
    unfold b2. rewrite get8_put_ne by (lens; lia). unfold b1.
    rewrite get8_put_ne by (lens; lia). done.
  - rewrite get8_put_ne by (lens; lia). unfold b3. rewrite get8_put_ne by (lens; lia).
    unfold b2. rewrite get8_put_ne by (lens; lia). unfold b1.
    rewrite get8_put_ne by (lens; lia). done.
  - rewrite get8_put_ne by (lens; lia). rewrite Hg. exact Hok.
Qed.

(** *** Ports and incremental L4 checksums *)

Record rw_wf (rw : NatRewrite) : Prop := {
  rwf_sip : is_u32 (rw_src_ip rw);
  rwf_dip : is_u32 (rw_dst_ip rw);
  rwf_sp : is_u16 (rw_src_port rw);
  rwf_dp : is_u16 (rw_dst_port rw);
  rwf_smac : len (rw_src_mac rw) = 6 /\ frame (rw_src_mac rw);
  rwf_dmac : len (rw_dst_mac rw) = 6 /\ frame (rw_dst_mac rw)
}.

(** A frame with new ports at [l4] and checksum [v] at [l4 + cf]. *)
Definition with_l4 (l4 cf sp dp v : Z) (bs : list Z) : list Z :=
  put (l4 + cf) (le16 v) (put (l4 + 2) (le16 dp) (put l4 (le16 sp) bs)).

(** The checksum change that compensates for new addresses and ports. *)
Definition compensates (l4 cf os od v : Z) (rw : NatRewrite) (bs : list Z) : Prop :=
  same (v + (halves (rw_src_ip rw) + halves (rw_dst_ip rw) + rw_src_port rw + rw_dst_port rw))
       (get16 (l4 + cf) bs + (halves os + halves od + get16 l4 bs + get16 (l4 + 2) bs)).

Lemma with_l4_frame l4 cf sp dp v bs : frame bs -> frame (with_l4 l4 cf sp dp v bs).
Proof. intros. unfold with_l4. auto with pkt. Qed.

Lemma with_l4_agrees l4 cf sp dp v bs :
  0 <= l4 -> 4 <= cf -> l4 + cf + 2 <= len bs ->
  agrees l4 (l4 + cf + 2) bs (with_l4 l4 cf sp dp v bs).
Proof.
  intros. unfold with_l4. repeat apply agrees_put_then; lens; try lia. apply agrees_refl.
Qed.

Lemma with_l4_fields l4 cf sp dp v bs :
  0 <= l4 -> 4 <= cf -> l4 + cf + 2 <= len bs -> is_u16 sp -> is_u16 dp -> is_u16 v ->
  let bs' := with_l4 l4 cf sp dp v bs in
  get16 l4 bs' = sp /\ get16 (l4 + 2) bs' = dp /\ get16 (l4 + cf) bs' = v.
Proof.
  intros. unfold bs', with_l4.
  assert (L1 : len (put l4 (le16 sp) bs) = len bs) by (apply len_put16; lia).
  assert (L2 : len (put (l4 + 2) (le16 dp) (put l4 (le16 sp) bs)) = len bs)
    by (rewrite len_put16; lia).
  split_and!.
  - rewrite !get16_put_ne by (lens; lia). apply get16_put; lia || done.
  - rewrite get16_put_ne by (lens; lia). apply get16_put; lia || done.
  - apply get16_put; lia || done.
Qed.

(** The sum of the segment after the edit. *)
Lemma with_l4_wsum l4 cf n sp dp v bs :
  0 <= l4 -> 4 <= cf -> cf + 2 <= n -> l4 + n <= len bs -> Z.even cf = true ->
  is_u16 sp -> is_u16 dp -> is_u16 v ->
  wsum (slice l4 n (with_l4 l4 cf sp dp v bs))
  = wsum (slice l4 n bs) - get16 l4 bs - get16 (l4 + 2) bs - get16 (l4 + cf) bs + sp + dp + v.
Proof.
  intros. unfold with_l4.
  assert (L1 : len (put l4 (le16 sp) bs) = len bs) by (apply len_put16; lia).
  assert (L2 : len (put (l4 + 2) (le16 dp) (put l4 (le16 sp) bs)) = len bs)
    by (rewrite len_put16; lia).
  rewrite wsum_field by (done || lia).
  rewrite wsum_field by (done || lia).
  rewrite <- (Z.add_0_r l4) at 2. rewrite (wsum_field l4 n 0) by (done || lia).
  rewrite Z.add_0_r. rewrite !get16_put_ne by (lens; lia). lia.
Qed.

(** Writing back the value that is there. *)
Lemma put_own c v bs :
  0 <= c -> c + 2 <= len bs -> get16 c bs = v -> frame bs -> put c (le16 v) bs = bs.
Proof.
  intros Hc Hl Hv Hf. pose proof (len_slice c 2 bs Hc ltac:(lia) Hl) as Hs.
  destruct (split_range c 2 bs) as (a & b & d & -> & Ha & Hb & Hsl); [lia..|].
  unfold get16 in Hv. rewrite Hsl in Hv. subst c. rewrite put_app by (by rewrite Hb).
  f_equal. f_equal. pose proof (frame_slice (len a) 2 _ Hf) as Hfb. rewrite Hsl in Hfb.
  unfold len in Hb. destruct b as [|x [|y [|]]]; try (simpl in Hb; lia).
  inversion_clear Hfb as [|? ? Hx Hfb']. inversion_clear Hfb' as [|? ? Hy _].
  simpl in Hv. unfold le16. subst v. f_equal; [zlia|]. f_equal. zlia.
Qed.

(** Packet code on an mbuf whose data is [b]. *)
Lemma wp_onb {A} (k : ST (list Z) A) (Q : A -> Mbuf -> Prop) b m :
  wp k (fun a b' => Q a (set_mdata b' m)) b -> wp (onb k) Q (set_mdata b m).
Proof. intros H. apply wp_zoom. exact H. Qed.

Lemma set_mdata_id m : set_mdata (mdata m) m = m.
Proof. by destruct m. Qed.

(** *** TCP options *)

(** Stripping overwrites bytes with NOP and nothing else. *)
Definition nop_edit (lo hi : Z) (bs bs' : list Z) : Prop :=
  agrees lo hi bs bs' /\ frame bs'
  /\ forall i, 0 <= i < len bs -> get8 i bs' = get8 i bs \/ get8 i bs' = TcpH.TCPOPT_NOP.

Lemma nop_edit_refl lo hi bs : frame bs -> nop_edit lo hi bs bs.
Proof. intros. split; [apply agrees_refl|]. split; [done|]. by left. Qed.

Lemma nop_edit_trans lo hi a b c : nop_edit lo hi a b -> nop_edit lo hi b c -> nop_edit lo hi a c.
Proof.
  intros (A1 & F1 & N1) (A2 & F2 & N2). split; [by eapply agrees_trans|]. split; [done|].
  intros i Hi. destruct (N2 i) as [->| ->]; [destruct A1 as [-> _]; done|auto|by right].
Qed.

Lemma nop_edit_weaken lo hi lo' hi' a b :
  lo' <= lo -> hi <= hi' -> nop_edit lo hi a b -> nop_edit lo' hi' a b.
Proof. intros ? ? (A & F & N). split; [by eapply agrees_weaken|done]. Qed.

Lemma len_replicate n (x : Z) : 0 <= n -> len (replicate (Z.to_nat n) x) = n.
Proof. intros. unfold len. rewrite length_replicate. lia. Qed.

Lemma get8_lookup i bs : 0 <= i < len bs -> bs !! Z.to_nat i = Some (get8 i bs).
Proof.
  intros Hi. unfold get8. assert (Hs := lookup_slice i 1 bs 0 ltac:(lia)).
  rewrite decide_True in Hs by lia. rewrite Z.add_0_r in Hs.
  destruct (lookup_lt_is_Some_2 bs (Z.to_nat i)) as [x Hx]; [unfold len in Hi; lia|].
  rewrite Hx in Hs |- *. pose proof (len_slice i 1 bs ltac:(lia) ltac:(lia) ltac:(lia)) as Hl.
  destruct (slice i 1 bs) as [|y l]; [done|]. injection Hs as ->. simpl.
  rewrite len_cons in Hl. destruct l; [simpl; f_equal; lia|rewrite len_cons in Hl; pose proof (len_nonneg l); lia].
Qed.

Lemma nop_edit_put lo hi off n bs :
  frame bs -> 0 <= off -> 0 <= n -> lo <= off -> off + n <= hi -> off + n <= len bs ->
  nop_edit lo hi bs (put off (replicate (Z.to_nat n) TcpH.TCPOPT_NOP) bs).
Proof.
  intros Hf Ho Hn Hlo Hhi Hl. set (l := replicate _ _).
  assert (Hll : len l = n) by (by apply len_replicate).
  split; [apply agrees_put; lia|]. split.
  - apply frame_put; [done|]. apply Forall_replicate. unfold TcpH.TCPOPT_NOP. zwrap. lia.
  - intros i Hi. assert (Hp := get8_lookup i (put off l bs) ltac:(rewrite len_put; lia)).
    rewrite lookup_put in Hp by lia. case_decide.
    + right. unfold l in Hp. apply lookup_replicate_1 in Hp as [Hx _]. exact Hx.
    + left. rewrite get8_lookup in Hp by done. congruence.
Qed.

Lemma strip_loop_wp fuel opt end_ ch Q bs :
  frame bs -> 0 <= opt -> end_ <= len bs -> end_ - opt <= Z.of_nat fuel ->
  (forall ch' bs', nop_edit opt end_ bs bs' -> (ch' = false -> bs' = bs) -> (ch = true -> ch' = true) ->
     Q ch' bs') ->
  wp (strip_loop fuel opt end_ ch) Q bs.
Proof.
  revert opt ch Q bs. induction fuel as [|fuel IH]; intros opt ch Q bs Hf Ho He Hfu HQ;
    cbn [strip_loop]; (destruct (Z.ltb_spec opt end_) as [Hlt|Hge];
      [|apply wp_ret, HQ; [by apply nop_edit_refl|done|done]]); [lia|].
  assert (Hstay : Q ch bs) by (apply HQ; [by apply nop_edit_refl|done|done]).
  assert (Hrec : forall n ch' b, 1 <= n -> nop_edit opt end_ bs b -> (ch' = false -> b = bs) ->
    (ch = true -> ch' = true) -> wp (strip_loop fuel (opt + n) end_ ch') Q b).
  { intros n ch' b Hn Hb Hcb Hcc. pose proof Hb as ([Hlb _] & Hfb & _).
    apply IH; try done; try lia. intros ch'' b' Hb' Hc' Hm. apply HQ.
    - eapply nop_edit_trans; [exact Hb|]. eapply nop_edit_weaken; [| |exact Hb']; lia.
    - intros ->. rewrite Hc' by done. apply Hcb. destruct ch'; [|done]. by discriminate Hm.
    - auto. }
  do 2 wp_step. destruct (Z.eqb_spec (get8 opt bs) TcpH.TCPOPT_EOL) as [_|_]; [by wp_step|].
  destruct (Z.eqb_spec (get8 opt bs) TcpH.TCPOPT_NOP) as [_|_].
  { apply Hrec; [lia|by apply nop_edit_refl|done|done]. }
  destruct (Z.geb_spec (opt + 1) end_); [by wp_step|]. do 2 wp_step.
  set (n := get8 (opt + 1) bs). destruct ((n <? 2) || (opt + n >? end_)) eqn:Eb; [by wp_step|].
  bprop. wp_step. destruct (Z.eqb_spec (get8 opt bs) TcpH.TCPOPT_TIMESTAMP).
  - wp_step. apply wp_wr_bytes; [lia|rewrite len_replicate; lia|]. wp_step.
    set (b := put opt _ bs). assert (Hb : nop_edit opt end_ bs b) by (apply nop_edit_put; lia || done).
    pose proof Hb as ([Hlb _] & Hfb & Hnb). wp_step. apply wp_rd8; [lia|lia|].
    apply Hrec; [|done|done|done].
    destruct (Hnb (opt + 1) ltac:(lia)) as [->| ->]; [fold n; lia|unfold TcpH.TCPOPT_NOP; lia].
  - do 2 wp_step. wp_step. fold n. apply Hrec; [lia|by apply nop_edit_refl|done|done].
Qed.

Section Rewrite.
Context `{MB : RteMbuf}.

(** *** TOA *)

(** The frame with the option inserted behind the basic TCP header; [e] is
    the end of the IP packet before the insertion. *)
Record toa_inserted (ip l4 e port addr : Z) (bs bs' : list Z) : Prop := {
  ti_frame : frame bs';
  ti_len : len bs' = e + 8;
  ti_head off n : 0 <= off -> 0 <= n -> off + n <= l4 + 20 ->
    off + n <= ip + 2 \/ (ip + 4 <= off /\ off + n <= l4 + 12) \/ l4 + 13 <= off ->
    slice off n bs' = slice off n bs;
  ti_total : ntohs (get16 (ip + 2) bs') = e - ip + 8;
  ti_doff : doff_of (get8 (l4 + 12) bs') = doff_of (get8 (l4 + 12) bs) + 8;
  ti_rsv : Z.land (get8 (l4 + 12) bs') 15 = Z.land (get8 (l4 + 12) bs) 15;
  ti_opt : slice (l4 + 20) 8 bs' = [254; 8] ++ le16 port ++ le32 addr;
  ti_tail : slice (l4 + 28) (e - (l4 + 20)) bs' = slice (l4 + 20) (e - (l4 + 20)) bs
}.

Lemma doff_encode k x :
  0 <= k < 16 -> 0 <= x < 16 ->
  doff_of (u8 (Z.lor (Z.shiftl k 4) x)) = 4 * k /\ Z.land (u8 (Z.lor (Z.shiftl k 4) x)) 15 = x.
Proof.
  intros Hk Hx.
  assert (H : forallb (fun k => forallb (fun x =>
    (doff_of (u8 (Z.lor (Z.shiftl k 4) x)) =? 4 * k) && (Z.land (u8 (Z.lor (Z.shiftl k 4) x)) 15 =? x))
    (seqZ 0 16)) (seqZ 0 16) = true) by reflexivity.
  assert (Hin : forall z, 0 <= z < 16 -> In z (seqZ 0 16))
    by (intros z Hz; apply list_elem_of_In, elem_of_seqZ; lia).
  rewrite <- !Z.eqb_eq, <- andb_true_iff. exact (proj1 (List.forallb_forall _ _)
    (proj1 (List.forallb_forall _ _) H k (Hin k Hk)) x (Hin x Hx)).
Qed.

(** The byte-level part of the insertion: [b] is the packet, without padding,
    with eight fresh bytes appended. *)
Definition toa_bytes (ip l4 e doff port addr : Z) : ST (list Z) unit :=
  let opt := l4 + TcpH.HEADER_SIZE in
  tail ← rd_bytes opt (e - opt);
  _ ← wr_bytes (opt + TcpH.TCPOLEN_TOA) tail;
  _ ← wr8 opt TcpH.TCPOPT_TOA;
  _ ← wr8 (opt + 1) TcpH.TCPOLEN_TOA;
  _ ← wr16 (opt + 2) port;
  _ ← wr32 (opt + 4) addr;
  _ ← TcpH.set_header_len l4 (doff + TcpH.TCPOLEN_TOA);
  Ip.set_total_length ip (u16 (e - ip + TcpH.TCPOLEN_TOA)).

Lemma toa_bytes_wp ip l4 e port addr Q bs b :
  frame b -> len b = e + 8 -> 0 <= ip -> ip + 20 <= l4 -> l4 + 20 <= e -> e - ip + 8 <= 65535 ->
  doff_of (get8 (l4 + 12) bs) + 8 <= 60 ->
  (forall off n, 0 <= off -> off + n <= e -> slice off n b = slice off n bs) ->
  (forall bs', toa_inserted ip l4 e port addr bs bs' -> Q tt bs') ->
  wp (toa_bytes ip l4 e (doff_of (get8 (l4 + 12) bs)) port addr) Q b.
Proof.
  intros Hf Hl Hip Hl4 He Hmax Hd Heq HQ. set (o := l4 + 20).
  unfold toa_bytes, TcpH.HEADER_SIZE, TcpH.TCPOLEN_TOA, TcpH.set_header_len, TcpH.data_offset,
    Ip.set_total_length, Ip.total_length. fold o.
  set (tail := slice o (e - o) b).
  assert (Ht : len tail = e - o) by (apply len_slice; unfold o; lia).
  set (b1 := put (o + 8) tail b).
  assert (L1 : len b1 = e + 8) by (unfold b1; rewrite len_put; unfold o in *; lia).
  set (b2 := put o [u8 TcpH.TCPOPT_TOA] b1).
  assert (L2 : len b2 = e + 8) by (unfold b2; rewrite len_put8; unfold o in *; lia).
  set (b3 := put (o + 1) [u8 8] b2).
  assert (L3 : len b3 = e + 8) by (unfold b3; rewrite len_put8; unfold o in *; lia).
  set (b4 := put (o + 2) (le16 port) b3).
  assert (L4 : len b4 = e + 8) by (unfold b4; rewrite len_put16; unfold o in *; lia).
  set (b5 := put (o + 4) (le32 addr) b4).
  assert (L5 : len b5 = e + 8) by (unfold b5; rewrite len_put32; unfold o in *; lia).
  assert (F5 : frame b5).
  { unfold b5, b4, b3, b2, b1. apply frame_put32, frame_put16, frame_put8, frame_put8.
    apply frame_put; [done|by apply frame_slice]. }
  assert (Hhead : forall off n, 0 <= off -> 0 <= n -> off + n <= o -> slice off n b5 = slice off n bs).
  { intros off n ? ? ?. unfold b5. rewrite slice_put_ne by (lens; unfold o in *; lia).
    unfold b4. rewrite slice_put_ne by (lens; unfold o in *; lia).
    unfold b3. rewrite slice_put_ne by (lens; unfold o in *; lia).
    unfold b2. rewrite slice_put_ne by (lens; unfold o in *; lia).
    unfold b1. rewrite slice_put_ne by (unfold o in *; lia). apply Heq; unfold o in *; lia. }
  set (dv := Z.lor (Z.shiftl ((doff_of (get8 (l4 + 12) bs) + 8) / 4) 4) (Z.land (get8 (l4 + 12) b5) 15)).
  set (b6 := put (l4 + 12) [u8 dv] b5).
  assert (L6 : len b6 = e + 8) by (unfold b6; rewrite len_put8; unfold o in *; lia).
  wp_step. apply wp_rd_bytes; [unfold o in *; lia..|]. fold tail.
  apply wp_bind, wp_wr_bytes; [unfold o in *; lia..|]. fold b1.
  apply wp_bind, wp_wr8; [unfold o in *; lia..|]. fold b2.
  apply wp_bind, wp_wr8; [unfold o in *; lia..|]. fold b3.
  apply wp_bind, wp_wr16; [unfold o in *; lia..|]. fold b4.
  apply wp_bind, wp_wr32; [unfold o in *; lia..|]. fold b5.
  apply wp_bind, wp_bind, wp_rd8; [unfold o in *; lia..|]. fold dv.
  apply wp_wr8; [unfold o in *; lia..|]. fold b6.
  apply wp_wr16; [unfold o in *; lia..|]. apply HQ.
  assert (E12 : get8 (l4 + 12) b5 = get8 (l4 + 12) bs) by (unfold get8; by rewrite Hhead by (unfold o; lia)).
  assert (Hnx : 0 <= Z.land (get8 (l4 + 12) b5) 15 < 16) by (pose proof (nibble_range (get8 (l4 + 12) b5)); lia).
  assert (Hq : 0 <= (doff_of (get8 (l4 + 12) bs) + 8) / 4 < 16)
    by (pose proof (doff_range (get8 (l4 + 12) bs)); zlia).
  assert (Hfar : forall off n, o <= off -> 0 <= n ->
    slice off n (put (ip + 2) (le16 (htons (u16 (e - ip + 8)))) b6) = slice off n b5).
  { intros off n ? ?. rewrite slice_put_ne by (lens; unfold o in *; lia).
    unfold b6. apply slice_put_ne; lens; unfold o in *; lia. }
  split.
  - unfold b6. auto with pkt.
  - rewrite len_put16; unfold o in *; lia.
  - intros off n H1 H2 H3 H4. rewrite slice_put_ne by (lens; unfold o in *; lia).
    unfold b6. rewrite slice_put_ne by (lens; unfold o in *; lia). apply Hhead; unfold o; lia.
  - rewrite get16_put by (apply bswap16_is || lia). unfold htons, ntohs.
    rewrite bswap16_invol by apply u16_is. apply u16_id. zwrap. lia.
  - rewrite get8_put_ne by (lens; unfold o in *; lia). unfold b6.
    rewrite get8_put_same by (unfold o in *; lia). unfold dv.
    pose proof (nibble_range (Z.shiftr (get8 (l4 + 12) bs) 4)) as Hnb.
    set (k := Z.land (Z.shiftr (get8 (l4 + 12) bs) 4) 15) in Hnb.
    assert (HD : doff_of (get8 (l4 + 12) bs) = k * 4) by done. rewrite HD in Hd |- *.
    replace ((k * 4 + 8) / 4) with (k + 2)
      by (replace (k * 4 + 8) with ((k + 2) * 4) by lia; by rewrite Z.div_mul).
    rewrite (proj1 (doff_encode (k + 2) _ ltac:(lia) Hnx)). lia.
  - rewrite get8_put_ne by (lens; unfold o in *; lia). unfold b6.
    rewrite get8_put_same by (unfold o in *; lia). unfold dv.
    rewrite (proj2 (doff_encode _ _ Hq Hnx)). by rewrite E12.
  - rewrite Hfar by (unfold o; lia). fold o.
    assert (S1 : slice o 1 b5 = [254]).
    { unfold b5. rewrite slice_put_ne by (lens; unfold o in *; lia).
      unfold b4. rewrite slice_put_ne by (lens; unfold o in *; lia).
      unfold b3. rewrite slice_put_ne by (lens; unfold o in *; lia).
      apply (slice_put_same o [254] b1); lens; unfold o in *; lia. }
    assert (S2 : slice (o + 1) 1 b5 = [8]).
    { unfold b5. rewrite slice_put_ne by (lens; unfold o in *; lia).
      unfold b4. rewrite slice_put_ne by (lens; unfold o in *; lia).
      apply (slice_put_same (o + 1) [8] b2); lens; unfold o in *; lia. }
    assert (S3 : slice (o + 2) 2 b5 = le16 port).
    { unfold b5. rewrite slice_put_ne by (lens; unfold o in *; lia).
      apply (slice_put_same (o + 2) (le16 port) b3); lens; unfold o in *; lia. }
    assert (S4 : slice (o + 4) 4 b5 = le32 addr).
    { apply (slice_put_same (o + 4) (le32 addr) b4); lens; unfold o in *; lia. }
    change 8 with (1 + (1 + (2 + 4))). rewrite slice_split, S1 by (unfold o in *; lia).
    rewrite slice_split, S2 by (unfold o in *; lia). replace (o + 1 + 1) with (o + 2) by lia.
    rewrite slice_split, S3 by (unfold o in *; lia). replace (o + 2 + 2) with (o + 4) by lia.
    by rewrite S4.
  - rewrite Hfar by (unfold o; lia).
    replace (l4 + 28) with (o + 8) by (unfold o; lia). change (l4 + 20) with o.
    unfold b5. rewrite slice_put_ne by (lens; unfold o in *; lia).
    unfold b4. rewrite slice_put_ne by (lens; unfold o in *; lia).
    unfold b3. rewrite slice_put_ne by (lens; unfold o in *; lia).
    unfold b2. rewrite slice_put_ne by (lens; unfold o in *; lia).
    rewrite <- Ht. unfold b1. rewrite slice_put_same by (unfold o in *; lia).
    rewrite Ht. apply Heq; unfold o in *; lia.
Qed.

Lemma insert_toa_wp `{ML : !RteMbufLaws MB} meta addr port mtu Q bs m :
  let ip := meta_l3_offset meta in
  let l4 := meta_l4_offset meta in
  let e := ip + ntohs (get16 (ip + 2) bs) in
  frame bs -> 0 <= ip -> ip + 20 <= l4 -> l4 + 20 <= e -> e <= len bs -> mtu <= 65535 ->
  (forall m', mdata m' = bs \/ mdata m' = slice 0 e bs -> Q (false, meta) m') ->
  (forall bs' m', toa_inserted ip l4 e port addr bs bs' ->
     Q (true, meta_grow TcpH.TCPOLEN_TOA meta) (set_mdata bs' m')) ->
  wp (insert_toa meta addr port mtu) Q (set_mdata bs m).
Proof.
  intros ip l4 e Hf Hip Hl4 He Hl Hm HF HT. unfold insert_toa; cbv zeta. fold ip l4.
  unfold TcpH.get_header_len, Ip.get_total_length, Ip.total_length, TcpH.data_offset.
  apply wp_bind, wp_onb, wp_bind, wp_rd8; [lia|lia|]. apply wp_ret.
  apply wp_bind, wp_onb, wp_bind, wp_rd16; [lia|lia|]. apply wp_ret. do 2 wp_step.
  fold (doff_of (get8 (l4 + 12) bs)). set (tl := ntohs (get16 (ip + 2) bs)) in *.
  set (m1 := set_mdata bs m). assert (Hm1 : mdata m1 = bs) by done.
  destruct ((_ || _) || _) eqn:Eb; [apply wp_ret, HF; by left|]. bprop.
  unfold TcpH.TCPOLEN_TOA in *. fold e. do 2 wp_step. unfold data_len. rewrite Hm1. wp_step.
  set (P := fun (_ : unit) m2 => (mdata m2 = bs \/ mdata m2 = slice 0 e bs) /\ len (mdata m2) = e
    /\ frame (mdata m2) /\ forall off n, 0 <= off -> off + n <= e ->
       slice off n (mdata m2) = slice off n bs).
  apply (wp_mono _ P).
  { apply wp_when.
    - intros Hgt. bprop. apply wp_modify. destruct (trim_spec m1 (len bs - e)) as (Hd & _ & _);
        [done|unfold data_len; rewrite Hm1; lia|]. unfold data_len in Hd. rewrite Hm1 in Hd.
      replace (len bs - (len bs - e)) with e in Hd by lia.
      split; [by right|]. rewrite Hd. split; [apply len_slice; lia|].
      split; [by apply frame_slice|]. intros off n ? ?. by rewrite slice_slice by lia.
    - intros Hgt. bprop. split; [by left|]. rewrite Hm1. split; [lia|]. done. }
  intros [] m2 (HP1 & HP2 & HP3 & HP4). do 2 wp_step.
  destruct (rte_pktmbuf_append m2 8) as [m3|] eqn:Ea; [|by apply wp_ret, HF].
  apply append_spec in Ea as (ext & Hd & Hle & Hfe & _); [|lia].
  wp_step. wp_step. rewrite <- (set_mdata_id m3), Hd. wp_step. apply wp_onb.
  replace (u16 (tl + 8)) with (u16 (e - ip + 8)) by (f_equal; lia).
  eapply (toa_bytes_wp ip l4 e port addr _ bs); try lia.
  - apply Forall_app. done.
  - rewrite len_app. lia.
  - intros off n ? ?. rewrite slice_app_l by lia. by apply HP4.
  - intros bs' Hbs'. apply wp_ret. by apply HT.
Qed.

Lemma same_chain c os od sp dp ns nd nsp ndp v1 v2 v :
  same (v1 + ns) (c + os) -> same (v2 + nd) (v1 + od) -> same (v + (nsp + ndp)) (v2 + (sp + dp)) ->
  same (v + (ns + nd + nsp + ndp)) (c + (os + od + sp + dp)).
Proof.
  intros H1 H2 H3.
  replace (v + (ns + nd + nsp + ndp)) with (v + (nsp + ndp) + (nd + ns)) by lia.
  eapply same_trans; [apply same_add; [exact H3|apply same_refl]|].
  replace (v2 + (sp + dp) + (nd + ns)) with (v2 + nd + (sp + dp + ns)) by lia.
  eapply same_trans; [apply same_add; [exact H2|apply same_refl]|].
  replace (v1 + od + (sp + dp + ns)) with (v1 + ns + (od + sp + dp)) by lia.
  eapply same_trans; [apply same_add; [exact H1|apply same_refl]|].
  replace (c + os + (od + sp + dp)) with (c + (os + od + sp + dp)) by lia. apply same_refl.
Qed.

(** The four incremental steps on a frame whose ports are already written. *)
Lemma tcp_incremental_wp l4 os od rw sp dp Q bs :
  frame bs -> 0 <= l4 -> l4 + 20 <= len bs -> rw_wf rw -> is_u32 os -> is_u32 od ->
  is_u16 sp -> is_u16 dp ->
  (forall v, is_u16 v ->
     same (v + (halves (rw_src_ip rw) + halves (rw_dst_ip rw) + rw_src_port rw + rw_dst_port rw))
          (get16 (l4 + 16) bs + (halves os + halves od + sp + dp)) ->
     Q tt (put (l4 + 16) (le16 v) bs)) ->
  wp (_ ← update_tcp_checksum_ip l4 os (rw_src_ip rw);
      _ ← update_tcp_checksum_ip l4 od (rw_dst_ip rw);
      _ ← update_tcp_checksum_port l4 sp (rw_src_port rw);
      update_tcp_checksum_port l4 dp (rw_dst_port rw)) Q bs.
Proof.
  intros Hf Hl4 Hl [W1 W2 W3 W4 _ _] Hos Hod Hsp Hdp HQ.
  unfold update_tcp_checksum_port, TcpH.checksum.
  wp_step. apply update_tcp_checksum_ip_wp; try done; try lia. intros v1 V1 S1.
  wp_step. apply update_tcp_checksum_ip_wp; rewrite ?len_put16 by lia; try done; try lia; auto with pkt.
  intros v2 V2 S2. rewrite put16_twice by lia. rewrite get16_put in S2 by (done || lia).
  apply update_two_wp; rewrite ?len_put16 by lia; try done; try lia; auto with pkt.
  intros v V S. rewrite put16_twice by lia. rewrite get16_put in S by (done || lia).
  apply HQ; [done|]. by eapply same_chain.
Qed.

Lemma udp_incremental_wp l4 os od rw sp dp Q bs :
  frame bs -> 0 <= l4 -> l4 + 8 <= len bs -> rw_wf rw -> is_u32 os -> is_u32 od ->
  is_u16 sp -> is_u16 dp -> get16 (l4 + 6) bs <> 0 ->
  (forall v, is_u16 v -> v <> 0 ->
     same (v + (halves (rw_src_ip rw) + halves (rw_dst_ip rw) + rw_src_port rw + rw_dst_port rw))
          (get16 (l4 + 6) bs + (halves os + halves od + sp + dp)) ->
     Q tt (put (l4 + 6) (le16 v) bs)) ->
  wp (_ ← update_udp_checksum_ip l4 os (rw_src_ip rw);
      _ ← update_udp_checksum_ip l4 od (rw_dst_ip rw);
      _ ← update_udp_checksum_port l4 sp (rw_src_port rw);
      update_udp_checksum_port l4 dp (rw_dst_port rw)) Q bs.
Proof.
  intros Hf Hl4 Hl [W1 W2 W3 W4 _ _] Hos Hod Hsp Hdp Hnz HQ.
  wp_step. apply update_udp_checksum_ip_wp; try done; try lia. intros v1 V1 N1 S1.
  wp_step. apply update_udp_checksum_ip_wp; rewrite ?len_put16 by lia;
    rewrite ?get16_put by (done || lia); try done; try lia; auto with pkt.
  intros v2 V2 N2 S2. rewrite put16_twice by lia.
  wp_step. apply update_udp_checksum_port_wp; rewrite ?len_put16 by lia;
    rewrite ?get16_put by (done || lia); try done; try lia; auto with pkt.
  intros v3 V3 N3 S3. rewrite put16_twice by lia.
  apply update_udp_checksum_port_wp; rewrite ?len_put16 by lia;
    rewrite ?get16_put by (done || lia); try done; try lia; auto with pkt.
  intros v V N S. rewrite put16_twice by lia.
  apply HQ; [done|done|]. eapply same_chain; [exact S1|exact S2|].
  replace (v + (rw_src_port rw + rw_dst_port rw)) with (v + rw_dst_port rw + rw_src_port rw) by lia.
  eapply same_trans; [apply same_add; [exact S|apply same_refl]|].
  replace (v3 + dp + rw_src_port rw) with (v3 + rw_src_port rw + dp) by lia.
  replace (v2 + (sp + dp)) with (v2 + sp + dp) by lia.
  by apply same_add.
Qed.

(** Writing the ports: the state the checksum code starts from. *)
Lemma ports_put l4 cf sp dp bs :
  frame bs -> 0 <= l4 -> 4 <= cf -> l4 + cf + 2 <= len bs ->
  let b := put (l4 + 2) (le16 dp) (put l4 (le16 sp) bs) in
  frame b /\ len b = len bs /\ get16 (l4 + cf) b = get16 (l4 + cf) bs
  /\ len (put l4 (le16 sp) bs) = len bs.
Proof.
  intros Hf H1 H2 H3 b.
  assert (L1 : len (put l4 (le16 sp) bs) = len bs) by (apply len_put16; lia).
  unfold b. split_and!; [auto with pkt|rewrite len_put16; lia| |done].
  by rewrite !get16_put_ne by (lens; lia).
Qed.

Lemma nat_tcp_incr_wp hwc ip l4 os od meta rw off Q bs m :
  frame bs -> 0 <= l4 -> l4 + 20 <= len bs -> rw_wf rw -> is_u32 os -> is_u32 od ->
  (forall v, is_u16 v -> compensates l4 16 os od v rw bs ->
     Q tt (set_ol_flags 0
       (set_mdata (with_l4 l4 16 (rw_src_port rw) (rw_dst_port rw) v bs) m))) ->
  wp (nat_tcp hwc ip l4 os od meta rw false false off) Q (set_mdata bs m).
Proof.
  intros Hf Hl4 Hl W Hos Hod HQ. unfold nat_tcp, TcpH.src_port, TcpH.dst_port.
  destruct (ports_put l4 16 (rw_src_port rw) (rw_dst_port rw) bs) as (F2 & L2 & G2 & L1); [done|lia..|].
  apply wp_bind, wp_onb, wp_rd16; [lia|lia|].
  apply wp_bind, wp_onb, wp_rd16; [lia|lia|].
  apply wp_bind, wp_onb, wp_wr16; [lia|lia|].
  apply wp_bind, wp_onb, wp_wr16; [lia|lia|]. cbn [orb].
  apply wp_bind, wp_onb, tcp_incremental_wp; try done; try lia; [apply get16_is; done || lia..|].
  intros v V S. apply wp_modify. apply HQ; [done|]. unfold compensates. by rewrite <- G2.
Qed.

Lemma nat_udp_incr_wp hwc ip l4 os od meta rw off Q bs m :
  frame bs -> 0 <= l4 -> l4 + 8 <= len bs -> rw_wf rw -> is_u32 os -> is_u32 od ->
  (forall v, is_u16 v ->
     (if get16 (l4 + 6) bs =? 0 then v = 0 else v <> 0 /\ compensates l4 6 os od v rw bs) ->
     Q tt (set_ol_flags 0
       (set_mdata (with_l4 l4 6 (rw_src_port rw) (rw_dst_port rw) v bs) m))) ->
  wp (nat_udp hwc ip l4 os od meta rw false off) Q (set_mdata bs m).
Proof.
  intros Hf Hl4 Hl W Hos Hod HQ. unfold nat_udp, UdpH.src_port, UdpH.dst_port, UdpH.checksum.
  destruct (ports_put l4 6 (rw_src_port rw) (rw_dst_port rw) bs) as (F2 & L2 & G2 & L1); [done|lia..|].
  apply wp_bind, wp_onb, wp_rd16; [lia|lia|].
  apply wp_bind, wp_onb, wp_rd16; [lia|lia|].
  apply wp_bind, wp_onb, wp_rd16; [lia|lia|]. cbv zeta.
  apply wp_bind, wp_onb, wp_wr16; [lia|lia|].
  apply wp_bind, wp_onb, wp_wr16; [lia|lia|].
  destruct (Z.eqb_spec (get16 (l4 + 6) bs) 0) as [E|E]; cbn [negb].
  - apply wp_modify. specialize (HQ 0 ltac:(zwrap; lia) eq_refl).
    unfold with_l4 in HQ. rewrite put_own in HQ; [exact HQ|lia|lia|congruence|done].
  - apply wp_bind, wp_onb, udp_incremental_wp; try done; try lia; [apply get16_is; done || lia..|].
    intros v V N S. apply wp_modify. apply HQ; [done|]. split; [done|]. unfold compensates.
    by rewrite <- G2.
Qed.

(** *** MAC addresses *)

Definition with_macs (rw : NatRewrite) (bs : list Z) : list Z :=
  put 6 (rw_src_mac rw) (put 0 (rw_dst_mac rw) bs).

Lemma with_macs_props rw bs :
  rw_wf rw -> frame bs -> 14 <= len bs ->
  frame (with_macs rw bs) /\ agrees 0 12 bs (with_macs rw bs)
  /\ slice 0 6 (with_macs rw bs) = rw_dst_mac rw /\ slice 6 6 (with_macs rw bs) = rw_src_mac rw.
Proof.
  intros [_ _ _ _ [L1 F1] [L2 F2]] Hf Hl. unfold with_macs. split_and!.
  - apply frame_put; [|done]. by apply frame_put.
  - repeat apply agrees_put_then; try lia. apply agrees_refl.
  - rewrite slice_put_ne by (rewrite ?len_put by lia; lia). rewrite <- L2.
    apply slice_put_same; lia.
  - rewrite <- L1. apply slice_put_same; [lia|]. rewrite len_put by lia. lia.
Qed.

Lemma set_macs_wp rw Q bs m :
  rw_wf rw -> 14 <= len bs -> Q tt (set_mdata (with_macs rw bs) m) ->
  wp (onb (_ ← Eth.set_dst_mac 0 (rw_dst_mac rw); Eth.set_src_mac 0 (rw_src_mac rw))) Q
    (set_mdata bs m).
Proof.
  intros [_ _ _ _ [L1 F1] [L2 F2]] Hl HQ. apply wp_onb, wp_bind.
  unfold Eth.set_dst_mac, Eth.set_src_mac, Eth.dst_mac, Eth.src_mac.
  apply wp_wr_bytes; [lia|lia|]. apply wp_wr_bytes; [lia|rewrite len_put by lia; lia|]. done.
Qed.

(** *** Translation of a segment *)

(** What the address, port, checksum and MAC steps make of [bs]; [cf] is the
    offset of the checksum in the transport header at [l4]. *)
Record translated (l4 cf : Z) (rw : NatRewrite) (bs b : list Z) : Prop := {
  tr_frame : frame b;
  tr_len : len b = len bs;
  tr_dmac : slice 0 6 b = rw_dst_mac rw;
  tr_smac : slice 6 6 b = rw_src_mac rw;
  tr_ip_head : slice 12 10 b = slice 12 10 bs;
  tr_ttl : get8 22 b = u8 (get8 22 bs - 1);
  tr_proto : get8 23 b = get8 23 bs;
  tr_src : get32 26 b = rw_src_ip rw;
  tr_dst : get32 30 b = rw_dst_ip rw;
  tr_sp : get16 l4 b = rw_src_port rw;
  tr_dp : get16 (l4 + 2) b = rw_dst_port rw;
  tr_ip_opt : slice 34 (l4 - 34) b = slice 34 (l4 - 34) bs;
  tr_l4_mid : slice (l4 + 4) (cf - 4) b = slice (l4 + 4) (cf - 4) bs;
  tr_rest off n : l4 + cf + 2 <= off -> slice off n b = slice off n bs;
  tr_ip_ok : sum_ok (wsum (slice 14 (f_ihl b) b))
}.

(** The steps in sequence, with checksum value [v] stored. *)
Lemma translated_intro l4 cf v rw bs b2 :
  rw_wf rw -> is_u16 v -> 20 <= f_ihl bs -> l4 = 14 + f_ihl bs -> 4 <= cf -> l4 + cf + 2 <= len bs ->
  ip_rewritten 14 (rw_src_ip rw) (rw_dst_ip rw) bs b2 ->
  translated l4 cf rw bs (with_macs rw (with_l4 l4 cf (rw_src_port rw) (rw_dst_port rw) v b2)).
Proof.
  intros W Hv Hi El4 Hcf Hl [F2 A2 S2 D2 T2 P2 O2]. pose proof W as [_ _ W3 W4 _ _].
  pose proof A2 as [L2 _]. set (b3 := with_l4 _ _ _ _ _ _).
  assert (A3 : agrees l4 (l4 + cf + 2) b2 b3) by (apply with_l4_agrees; lia).
  pose proof A3 as [L3 _]. assert (F3 : frame b3) by (by apply with_l4_frame).
  destruct (with_l4_fields l4 cf (rw_src_port rw) (rw_dst_port rw) v b2) as (G1 & G2 & _);
    [lia|lia|lia|done..|]. fold b3 in G1, G2.
  destruct (with_macs_props rw b3 W F3 ltac:(lia)) as (F4 & A4 & M1 & M2).
  pose proof A4 as [L4 _]. split; try done.
  - lia.
  - rewrite (proj2 A4), (proj2 A3), (proj2 A2) by lia. done.
  - rewrite (agrees_get8 _ _ _ _ 22 A4), (agrees_get8 _ _ _ _ 22 A3) by lia. done.
  - rewrite (agrees_get8 _ _ _ _ 23 A4), (agrees_get8 _ _ _ _ 23 A3) by lia. done.
  - rewrite (agrees_get32 _ _ _ _ 26 A4), (agrees_get32 _ _ _ _ 26 A3) by lia. done.
  - rewrite (agrees_get32 _ _ _ _ 30 A4), (agrees_get32 _ _ _ _ 30 A3) by lia. done.
  - rewrite (agrees_get16 _ _ _ _ l4 A4) by lia. done.
  - rewrite (agrees_get16 _ _ _ _ (l4 + 2) A4) by lia. done.
  - rewrite (proj2 A4), (proj2 A3), (proj2 A2) by lia. done.
  - rewrite (proj2 A4) by lia. unfold b3, with_l4.
    assert (len (put l4 (le16 (rw_src_port rw)) b2) = len b2) by (apply len_put16; lia).
    assert (len (put (l4 + 2) (le16 (rw_dst_port rw)) (put l4 (le16 (rw_src_port rw)) b2)) = len b2)
      by (rewrite len_put16; lia).
    rewrite !slice_put_ne by (lens; lia). apply (proj2 A2); lia.
  - intros off n Hoff. rewrite (proj2 A4), (proj2 A3), (proj2 A2) by lia. done.
  - unfold f_ihl. rewrite (agrees_get8 _ _ _ _ 14 A4), (agrees_get8 _ _ _ _ 14 A3) by lia.
    assert (E14 : get8 14 b2 = get8 14 bs) by (apply (agrees_get8 _ _ _ _ 14 A2); lia).
    rewrite E14 in O2 |- *. fold (f_ihl bs) in O2 |- *.
    rewrite (proj2 A4), (proj2 A3) by lia. done.
Qed.

(** The sum a receiver checks is preserved modulo 65535. *)
Lemma translated_sum l4 cf v rw bs b2 n :
  frame bs -> rw_wf rw -> is_u16 v -> 20 <= f_ihl bs -> l4 = 14 + f_ihl bs -> 4 <= cf ->
  Z.even cf = true -> cf + 2 <= n -> l4 + n <= len bs ->
  ip_rewritten 14 (rw_src_ip rw) (rw_dst_ip rw) bs b2 ->
  compensates l4 cf (get32 26 bs) (get32 30 bs) v rw b2 ->
  same (l4_sum 14 l4 n (with_macs rw (with_l4 l4 cf (rw_src_port rw) (rw_dst_port rw) v b2)))
       (l4_sum 14 l4 n bs).
Proof.
  intros Hf W Hv Hi El4 Hcf He Hn Hl Hir Hc. pose proof W as [W1 W2 W3 W4 _ _].
  pose proof (translated_intro l4 cf v rw bs b2 W Hv Hi El4 Hcf ltac:(lia) Hir) as T.
  destruct Hir as [F2 A2 S2 D2 T2 P2 O2]. pose proof A2 as [L2 _].
  set (b3 := with_l4 _ _ _ _ _ _) in *.
  assert (F3 : frame b3) by (by apply with_l4_frame).
  assert (L3 : len b3 = len b2) by (apply (with_l4_agrees l4 cf); lia).
  destruct (with_macs_props rw b3 W F3 ltac:(lia)) as (_ & A4 & _ & _).
  unfold l4_sum. change (14 + 12) with 26. change (14 + 16) with 30. change (14 + 9) with 23.
  rewrite (tr_src _ _ _ _ _ T), (tr_dst _ _ _ _ _ T), (tr_proto _ _ _ _ _ T).
  rewrite (proj2 A4 l4 n) by lia. unfold b3. rewrite with_l4_wsum by (done || lia).
  rewrite (proj2 A2 l4 n) by lia.
  destruct (pseudo_eq (rw_src_ip rw) (rw_dst_ip rw) (get8 23 bs) n) as (-> & _); [done..|].
  destruct (pseudo_eq (get32 26 bs) (get32 30 bs) (get8 23 bs) n) as (-> & _);
    [apply get32_is; done || lia..|].
  unfold compensates, same in Hc |- *.
  set (X := wsum (slice l4 n bs)) in *. set (p := bswap16 (get8 23 bs)). set (q := bswap16 n).
  set (c0 := get16 (l4 + cf) b2) in *. set (s0 := get16 l4 b2) in *. set (d0 := get16 (l4 + 2) b2) in *.
  apply (same_cancel _ _ (s0 + d0 + c0)). 
  replace (halves (rw_src_ip rw) + halves (rw_dst_ip rw) + p + q
    + (X - s0 - d0 - c0 + rw_src_port rw + rw_dst_port rw + v) + (s0 + d0 + c0))
    with (v + (halves (rw_src_ip rw) + halves (rw_dst_ip rw) + rw_src_port rw + rw_dst_port rw)
          + (p + q + X)) by lia.
  replace (halves (get32 26 bs) + halves (get32 30 bs) + p + q + X + (s0 + d0 + c0))
    with (c0 + (halves (get32 26 bs) + halves (get32 30 bs) + s0 + d0) + (p + q + X)) by lia.
  apply same_add; [exact Hc|apply same_refl].
Qed.

(** *** Step 1: TCP options *)

Definition options_done (l4 e : Z) (meta : PacketMeta) (opt : NatOptions) (bs : list Z)
    (full : bool) (meta' : PacketMeta) (out : RewriteOutcome) (b : list Z) : Prop :=
  exists bx, nop_edit (l4 + 20) (l4 + doff_of (get8 (l4 + 12) bs)) bs bx
    /\ (ts_stripped out = false -> bx = bs)
    /\ (ts_stripped out = true -> strip_ts opt = true)
    /\ if toa_added out
       then full = true /\ add_toa opt = true /\ meta' = meta_grow TcpH.TCPOLEN_TOA meta
            /\ toa_inserted 14 l4 e (toa_port opt) (toa_ip opt) bx b
       else full = ts_stripped out /\ meta' = meta /\ (b = bx \/ b = slice 0 e bx).

Lemma strip_timestamp_wp tcp Q bs :
  frame bs -> 0 <= tcp -> tcp + 20 <= len bs -> 20 <= doff_of (get8 (tcp + 12) bs) ->
  tcp + doff_of (get8 (tcp + 12) bs) <= len bs ->
  (forall ch bx, nop_edit (tcp + 20) (tcp + doff_of (get8 (tcp + 12) bs)) bs bx ->
     (ch = false -> bx = bs) -> Q ch bx) ->
  wp (strip_timestamp tcp) Q bs.
Proof.
  intros Hf Ht Hl Hd Hd' HQ. unfold strip_timestamp, TcpH.get_header_len, TcpH.data_offset, TcpH.HEADER_SIZE.
  apply wp_bind, wp_bind, wp_rd8; [lia|lia|]. apply wp_ret.
  fold (doff_of (get8 (tcp + 12) bs)). apply strip_loop_wp; try done; try lia.
  intros ch bx Hn Hc _. by apply HQ.
Qed.

Lemma nop_edit_head lo hi bs bx off n :
  nop_edit lo hi bs bx -> 0 <= off -> off + n <= lo -> slice off n bx = slice off n bs.
Proof. intros [[_ H] _] ? ?. apply H; lia. Qed.

Lemma nat_options_wp `{ML : !RteMbufLaws MB} meta opt Q bs m :
  frame bs -> ip_wf bs -> l4_wf bs -> f_proto bs = IPProtocol_TCP -> reports bs meta ->
  opt_mtu opt <= 65535 ->
  (forall full meta' out b m', options_done (f_l4 bs) (f_end bs) meta opt bs full meta' out b ->
     Q (full, meta', out) (set_mdata b m')) ->
  wp (nat_options meta opt outcome0) Q (set_mdata bs m).
Proof.
  intros Hf (Hl & Hv & Hi & He) [Ht _] Hp R Hm HQ. destruct (Ht Hp) as (T1 & T2 & T3).
  unfold nat_options; cbv zeta. rewrite (rp_l4 _ _ R). set (l4 := f_l4 bs) in *. set (e := f_end bs) in *.
  assert (El4 : l4 = 14 + f_ihl bs) by done. unfold TcpH.flags.
  apply wp_bind, wp_onb, wp_rd8; [lia|lia|]. apply wp_bind.
  assert (Hnext : forall ch bx m1,
    nop_edit (l4 + 20) (l4 + doff_of (get8 (l4 + 12) bs)) bs bx -> (ch = false -> bx = bs) ->
    (ch = true -> strip_ts opt = true) ->
    wp (if add_toa opt then
          '(ok, meta) ← insert_toa meta (toa_ip opt) (toa_port opt) (opt_mtu opt);
          let out := if (ch : bool) then mkOutcome true false false else outcome0 in
          mret (if (ok : bool) then (true, meta, mkOutcome (ts_stripped out) true (toa_no_room out))
                else (ch, meta, mkOutcome (ts_stripped out) (toa_added out) true))
        else mret (ch, meta, if (ch : bool) then mkOutcome true false false else outcome0)) Q
      (set_mdata bx m1)).
  { intros ch bx m1 Hn Hc Hs. pose proof Hn as ([Lx _] & Fx & _).
    assert (Edx : get16 (14 + 2) bx = get16 16 bs)
      by (unfold get16; rewrite (nop_edit_head _ _ _ _ _ _ Hn) by lia; done).
    assert (Ets : ts_stripped (if ch then mkOutcome true false false else outcome0) = ch) by (by destruct ch).
    assert (Eta : toa_added (if ch then mkOutcome true false false else outcome0) = false) by (by destruct ch).
    destruct (add_toa opt) eqn:Ea.
    - apply wp_bind. eapply insert_toa_wp; rewrite ?(rp_l3 _ _ R), ?(rp_l4 _ _ R), ?Edx;
        fold (f_total bs); fold (f_end bs); fold l4; fold e; try done; try lia.
      + intros m' Hm'. cbv zeta. rewrite Ets, Eta. apply wp_ret. rewrite <- (set_mdata_id m').
        apply HQ. exists bx. cbn [ts_stripped toa_added]. split_and!; done.
      + intros bs' m' Hti. cbv zeta. rewrite Ets. apply wp_ret.
        apply HQ. exists bx. cbn [ts_stripped toa_added]. split_and!; done.
    - apply wp_ret, HQ. exists bx. rewrite Ets, Eta. split_and!; try done. by left. }
  destruct (strip_ts opt) eqn:Es; cbn [andb].
  - destruct (flag _ TCP_SYN).
    + apply wp_onb, strip_timestamp_wp; try done; try lia.
      intros ch bx Hn Hc. eapply wp_mono; [|done]. by apply Hnext.
    + wp_step. apply (Hnext false bs); [by apply nop_edit_refl|done|done].
  - wp_step. apply (Hnext false bs); [by apply nop_edit_refl|done|done].
Qed.

(** What the later steps rely on. *)
Record ready (bs : list Z) (meta : PacketMeta) (full : bool) (meta' : PacketMeta) (b : list Z) : Prop := {
  rd_frame : frame b;
  rd_l3 : meta_l3_offset meta' = 14;
  rd_l4 : meta_l4_offset meta' = f_l4 bs;
  rd_head : slice 0 16 b = slice 0 16 bs;
  rd_mid : slice 18 16 b = slice 18 16 bs;
  rd_fit : f_l4 bs + 20 <= f_end b /\ f_end b <= len b;
  rd_doff : f_l4 bs + doff_of (get8 (f_l4 bs + 12) b) <= f_end b;
  rd_payload : slice (meta_payload_offset meta') (meta_payload_len meta') b
             = slice (meta_payload_offset meta) (meta_payload_len meta) bs;
  rd_same : full = false -> f_end b = f_end bs
    /\ forall off n, 0 <= off -> off + n <= f_end bs -> slice off n b = slice off n bs
}.

Lemma sub_get8 a n k x y :
  slice a n x = slice a n y -> 0 <= a -> 0 <= k -> k + 1 <= n -> get8 (a + k) x = get8 (a + k) y.
Proof.
  intros H ? ? ?. unfold get8. rewrite <- (slice_slice a n k 1 x), <- (slice_slice a n k 1 y) by lia.
  by rewrite H.
Qed.
Lemma sub_get16 a n k x y :
  slice a n x = slice a n y -> 0 <= a -> 0 <= k -> k + 2 <= n -> get16 (a + k) x = get16 (a + k) y.
Proof.
  intros H ? ? ?. unfold get16. rewrite <- (slice_slice a n k 2 x), <- (slice_slice a n k 2 y) by lia.
  by rewrite H.
Qed.
Lemma sub_get32 a n k x y :
  slice a n x = slice a n y -> 0 <= a -> 0 <= k -> k + 4 <= n -> get32 (a + k) x = get32 (a + k) y.
Proof.
  intros H ? ? ?. unfold get32. rewrite <- (slice_slice a n k 4 x), <- (slice_slice a n k 4 y) by lia.
  by rewrite H.
Qed.

Lemma sub_get8_shift a c n k x y :
  slice a n x = slice c n y -> 0 <= a -> 0 <= c -> 0 <= k -> k + 1 <= n -> get8 (a + k) x = get8 (c + k) y.
Proof.
  intros H ? ? ? ?. unfold get8. rewrite <- (slice_slice a n k 1 x), <- (slice_slice c n k 1 y) by lia.
  by rewrite H.
Qed.

Lemma trimmed_ready bs meta meta' full bx b :
  ip_wf bs -> l4_wf bs -> f_proto bs = IPProtocol_TCP -> reports bs meta -> meta' = meta ->
  nop_edit (f_l4 bs + 20) (f_l4 bs + doff_of (get8 (f_l4 bs + 12) bs)) bs bx ->
  (full = false -> bx = bs) -> b = bx \/ b = slice 0 (f_end bs) bx ->
  ready bs meta full meta' b.
Proof.
  intros (Hl & Hv & Hi & He) [Ht _] Hp R -> Hn Hx Hb. destruct (Ht Hp) as (T1 & T2 & T3).
  pose proof Hn as ([Lx Ax] & Fx & _). assert (El4 : f_l4 bs = 14 + f_ihl bs) by done.
  assert (Hall : forall off n, 0 <= off -> off + n <= f_end bs -> slice off n b = slice off n bx).
  { intros off n ? ?. destruct Hb as [-> | ->]; [done|]. by rewrite slice_slice by lia. }
  assert (Hlb : f_end bs <= len b).
  { destruct Hb as [-> | ->]; [lia|]. rewrite len_slice by lia. lia. }
  assert (Ee : f_end b = f_end bs).
  { unfold f_end, f_total, get16. rewrite Hall, Ax by lia. done. }
  assert (Ed : get8 (f_l4 bs + 12) b = get8 (f_l4 bs + 12) bs)
    by (unfold get8; rewrite Hall, Ax by lia; done).
  pose proof (rp_payload _ _ R) as Hpo. pose proof (rp_plen _ _ R) as Hpl.
  rewrite Hp in Hpo. cbn in Hpo. split.
  - destruct Hb as [-> | ->]; [done|]. by apply frame_slice.
  - apply (rp_l3 _ _ R).
  - apply (rp_l4 _ _ R).
  - rewrite Hall, Ax by lia. done.
  - rewrite Hall, Ax by lia. done.
  - lia.
  - rewrite Ed. lia.
  - rewrite Hall, Ax by lia. done.
  - intros Hfl. split; [done|]. intros off n ? ?. rewrite Hall by lia. by rewrite Hx.
Qed.

Lemma toa_ready bs meta meta' bx port addr b :
  ip_wf bs -> l4_wf bs -> f_proto bs = IPProtocol_TCP -> reports bs meta ->
  meta' = meta_grow TcpH.TCPOLEN_TOA meta ->
  nop_edit (f_l4 bs + 20) (f_l4 bs + doff_of (get8 (f_l4 bs + 12) bs)) bs bx ->
  toa_inserted 14 (f_l4 bs) (f_end bs) port addr bx b ->
  ready bs meta true meta' b.
Proof.
  intros (Hl & Hv & Hi & He) [Ht _] Hp R -> Hn [I1 I2 I3 I4 I5 _ I6 I7].
  destruct (Ht Hp) as (T1 & T2 & T3).
  pose proof Hn as ([Lx Ax] & Fx & _). assert (El4 : f_l4 bs = 14 + f_ihl bs) by done.
  pose proof (ihl_range (get8 14 bs)) as Hir. fold (f_ihl bs) in Hir.
  pose proof (doff_range (get8 (f_l4 bs + 12) bs)) as Hdr.
  assert (Ee : f_end b = f_end bs + 8).
  { unfold f_end at 1, f_total. change 16 with (14 + 2) at 1. lia. }
  assert (Ed : get8 (f_l4 bs + 12) bx = get8 (f_l4 bs + 12) bs)
    by (unfold get8; rewrite Ax by lia; done).
  pose proof (rp_payload _ _ R) as Hpo. pose proof (rp_plen _ _ R) as Hpl.
  rewrite Hp in Hpo. cbn in Hpo. split; try done.
  - apply (rp_l3 _ _ R).
  - apply (rp_l4 _ _ R).
  - rewrite I3, Ax by lia. done.
  - rewrite I3, Ax by lia. done.
  - lia.
  - rewrite I5, Ed. lia.
  - cbn [meta_payload_offset meta_payload_len meta_grow]. unfold TcpH.TCPOLEN_TOA.
    rewrite u16_id by (zwrap; lia). rewrite Hpo in *.
    set (d := doff_of (get8 (f_l4 bs + 12) bs)) in *.
    replace (f_l4 bs + d + 8) with (f_l4 bs + 28 + (d - 20)) by lia.
    rewrite <- (slice_slice _ (f_end bs - (f_l4 bs + 20))) by lia.
    rewrite I7, slice_slice by lia. replace (f_l4 bs + 20 + (d - 20)) with (f_l4 bs + d) by lia.
    rewrite Ax by lia. done.
Qed.

Lemma options_ready bs meta opt full meta' out b :
  ip_wf bs -> l4_wf bs -> f_proto bs = IPProtocol_TCP -> reports bs meta ->
  options_done (f_l4 bs) (f_end bs) meta opt bs full meta' out b ->
  ready bs meta full meta' b.
Proof.
  intros H1 H2 H3 R (bx & Hn & Hx & _ & H). destruct (toa_added out).
  - destruct H as (-> & _ & -> & Hti). by eapply toa_ready.
  - destruct H as (-> & -> & Hb). by eapply trimmed_ready.
Qed.

(** How much the header has grown. *)
Definition grown (out : RewriteOutcome) : Z := if toa_added out then 8 else 0.

(** What the options step leaves of the headers. *)
Record options_kept (l4 : Z) (out : RewriteOutcome) (bs b : list Z) : Prop := {
  ok_head off n : 0 <= off -> 0 <= n ->
    off + n <= 16 \/ (18 <= off /\ off + n <= l4 + 12) \/ (l4 + 13 <= off /\ off + n <= l4 + 20) ->
    slice off n b = slice off n bs;
  ok_total : f_total b = f_total bs + grown out;
  ok_doff : doff_of (get8 (l4 + 12) b) = doff_of (get8 (l4 + 12) bs) + grown out;
  ok_rsv : Z.land (get8 (l4 + 12) b) 15 = Z.land (get8 (l4 + 12) bs) 15;
  ok_options k : 0 <= k < doff_of (get8 (l4 + 12) bs) - 20 ->
    get8 (l4 + 20 + grown out + k) b = get8 (l4 + 20 + k) bs
    \/ ts_stripped out = true /\ get8 (l4 + 20 + grown out + k) b = TcpH.TCPOPT_NOP
}.

Lemma options_kept_intro bs meta opt full meta' out b :
  ip_wf bs -> l4_wf bs -> f_proto bs = IPProtocol_TCP ->
  options_done (f_l4 bs) (f_end bs) meta opt bs full meta' out b -> options_kept (f_l4 bs) out bs b.
Proof.
  intros (Hl & Hv & Hi & He) [Ht _] Hp (bx & Hn & Hsame & _ & H). destruct (Ht Hp) as (T1 & T2 & T3).
  pose proof Hn as ([Lx Ax] & Fx & Nx). assert (El4 : f_l4 bs = 14 + f_ihl bs) by done.
  set (l4 := f_l4 bs) in *. set (d := doff_of (get8 (l4 + 12) bs)) in *.
  assert (E12 : get8 (l4 + 12) bx = get8 (l4 + 12) bs) by (unfold get8; by rewrite Ax by lia).
  assert (Nb : forall k, 0 <= k < d - 20 -> get8 (l4 + 20 + k) bx = get8 (l4 + 20 + k) bs
      \/ ts_stripped out = true /\ get8 (l4 + 20 + k) bx = TcpH.TCPOPT_NOP).
  { intros k Hk. destruct (ts_stripped out); [|left; by rewrite Hsame].
    destruct (Nx (l4 + 20 + k) ltac:(lia)) as [?|?]; [by left|by right]. }
  unfold grown. destruct (toa_added out) eqn:Et.
  - destruct H as (_ & _ & _ & [I1 I2 I3 I4 I5 I6 _ I7]). unfold grown. split; unfold grown; rewrite ?Et.
    + intros off n ? ? ?. rewrite I3, Ax by lia. done.
    + unfold f_total. change 16 with (14 + 2) at 1. rewrite I4. unfold f_end. fold (f_total bs). lia.
    + rewrite I5, E12. done.
    + by rewrite I6, E12.
    + intros k Hk. replace (l4 + 20 + 8 + k) with (l4 + 28 + k) by lia.
      rewrite (sub_get8_shift (l4 + 28) (l4 + 20) (f_end bs - (l4 + 20)) k b bx) by (done || lia). by apply Nb.
  - destruct H as (_ & _ & Hb).
    assert (Hall : forall off n, 0 <= off -> off + n <= f_end bs -> slice off n b = slice off n bx).
    { intros off n ? ?. destruct Hb as [-> | ->]; [done|]. by rewrite slice_slice by lia. }
    split; unfold grown; rewrite ?Et, ?Z.add_0_r.
    + intros off n ? ? ?. rewrite Hall, Ax by lia. done.
    + unfold f_total, get16. rewrite Hall, Ax by lia. done.
    + unfold get8 at 1. rewrite Hall by lia. fold (get8 (l4 + 12) bx). by rewrite E12.
    + unfold get8 at 1. rewrite Hall by lia. fold (get8 (l4 + 12) bx). by rewrite E12.
    + intros k Hk. unfold get8 at 1 3. rewrite Hall by lia. fold (get8 (l4 + 20 + k) bx). by apply Nb.
Qed.

(** *** Step 3 for TCP *)

(** Pseudo header of a segment of [n] bytes, as summed by the receiver. *)
Definition phdr (n : Z) (bs : list Z) : Z :=
  calculate_pseudo_header_sum (get32 26 bs) (get32 30 bs) (get8 23 bs) n.

Lemma phdr_law n bs : frame bs -> 34 <= len bs -> phdr n bs = phdr_sum bs 14 n.
Proof.
  intros Hf Hl. unfold phdr, phdr_sum. change (14 + 12) with 26. change (14 + 16) with 30. change (14 + 9) with 23.
  destruct (pseudo_eq (get32 26 bs) (get32 30 bs) (get8 23 bs) n) as (-> & _); [apply get32_is; done || lia..|]. done.
Qed.

(** The NIC is asked to finish the L4 checksum behind an IP header of [h] bytes. *)
Record offloaded (fl h : Z) (m : Mbuf) : Prop := {
  of_flags : ol_flags m = Z.lor F_TX_IPV4 fl;
  of_l2 : l2_len m = 14;
  of_l3 : l3_len m = h
}.

Definition cksum_at (tcp : bool) : Z := if tcp then 16 else 6.
Definition cksum_flag (tcp : bool) : Z := if tcp then F_TX_TCP_CKSUM else F_TX_UDP_CKSUM.
Definition cksum_cap (tcp : bool) : Z := if tcp then TX_OFFLOAD_TCP_CKSUM else TX_OFFLOAD_UDP_CKSUM.
Definition l4_number (tcp : bool) : Z := if tcp then IPProtocol_TCP else IPProtocol_UDP.

Lemma l4_checksum_full_hw_wp `{ML : !RteMbufLaws MB} (tcp hwc : bool) l4 meta off Q bs m :
  frame bs -> 20 <= f_ihl bs -> l4 = 14 + f_ihl bs -> f_proto bs = l4_number tcp ->
  l4 + cksum_at tcp + 2 <= len bs -> f_ihl bs <= f_total bs -> meta_l3_offset meta = 14 ->
  hwc && flag off (cksum_cap tcp) = true ->
  (forall v m', is_u16 v -> same v (phdr (f_total bs - f_ihl bs) bs) ->
     offloaded (cksum_flag tcp) (f_ihl bs) m' ->
     Q tt (set_mdata (put (l4 + cksum_at tcp) (le16 v) bs) m')) ->
  wp (l4_checksum_full hwc 14 l4 meta off) Q (set_mdata bs m).
Proof.
  intros Hf Hi El4 Hp H1 H2 H3 Hhw HQ. unfold l4_checksum_full, Ip.is_tcp, Ip.protocol.
  unfold f_proto in Hp. assert (Hc : 6 <= cksum_at tcp) by (destruct tcp; cbn; lia).
  apply wp_bind, wp_onb, wp_bind, wp_rd8; [lia|lia|]. apply wp_ret. change (14 + 9) with 23.
  rewrite Hp. replace (l4_number tcp =? IPProtocol_TCP) with tcp by (by destruct tcp). cbv zeta.
  change (if tcp then TX_OFFLOAD_TCP_CKSUM else TX_OFFLOAD_UDP_CKSUM) with (cksum_cap tcp). rewrite Hhw.
  unfold Ip.get_header_len, Ip.get_ihl, Ip.version_ihl.
  apply wp_bind, wp_onb, wp_bind, wp_bind, wp_rd8; [lia|lia|]. apply wp_ret, wp_ret.
  change (Z.land (get8 14 bs) 15 * 4) with (f_ihl bs). rewrite H3.
  apply wp_bind, wp_modify, wp_bind, wp_modify, wp_bind, wp_gets.
  change (if tcp then F_TX_TCP_CKSUM else F_TX_UDP_CKSUM) with (cksum_flag tcp).
  set (fl := Z.lor F_TX_IPV4 (cksum_flag tcp)).
  assert (Hfl : fl = Z.lor F_TX_IPV4 F_TX_TCP_CKSUM \/ fl = Z.lor F_TX_IPV4 F_TX_UDP_CKSUM)
    by (unfold fl; destruct tcp; [by left|by right]).
  destruct (phdr_spec bs 14 fl Hf ltac:(lia) ltac:(lia) Hfl) as [Hv Hs].
  change (14 + 2) with 16 in Hs. fold (f_total bs) in Hs. change (Z.land (get8 14 bs) 15 * 4) with (f_ihl bs) in Hs.
  rewrite <- phdr_law in Hs by (done || lia). specialize (Hs ltac:(lia)).
  change (mdata (set_ol_flags fl (set_lens 14 (f_ihl bs) (set_mdata bs m)))) with bs.
  change (set_ol_flags fl (set_lens 14 (f_ihl bs) (set_mdata bs m)))
    with (set_mdata bs (set_ol_flags fl (set_lens 14 (f_ihl bs) m))).
  destruct tcp; cbn [cksum_at] in *.
  - unfold TcpH.get_header_len, TcpH.data_offset.
    apply wp_bind, wp_onb, wp_bind, wp_rd8; [lia|lia|]. apply wp_ret.
    fold (doff_of (get8 (l4 + 12) bs)). set (d := doff_of _). apply wp_bind, wp_modify.
    change (set_l4_len d (set_mdata bs (set_ol_flags fl (set_lens 14 (f_ihl bs) m))))
      with (set_mdata bs (set_l4_len d (set_ol_flags fl (set_lens 14 (f_ihl bs) m)))).
    unfold TcpH.checksum. apply wp_onb, wp_wr16; [lia|lia|]. by apply HQ.
  - apply wp_bind, wp_modify.
    change (set_l4_len UdpH.HEADER_SIZE (set_mdata bs (set_ol_flags fl (set_lens 14 (f_ihl bs) m))))
      with (set_mdata bs (set_l4_len UdpH.HEADER_SIZE (set_ol_flags fl (set_lens 14 (f_ihl bs) m)))).
    unfold UdpH.checksum. apply wp_onb, wp_wr16; [lia|lia|]. by apply HQ.
Qed.

Lemma l4_checksum_full_tcp_wp hwc l4 meta off Q bs m :
  frame bs -> 20 <= f_ihl bs -> l4 = 14 + f_ihl bs -> f_proto bs = IPProtocol_TCP ->
  l4 + 20 <= f_end bs -> f_end bs <= len bs -> f_total bs < 65536 ->
  hwc && flag off TX_OFFLOAD_TCP_CKSUM = false ->
  (forall c m', is_u16 c -> ol_flags m' = 0 ->
     sum_ok (l4_sum 14 l4 (f_total bs - f_ihl bs) (put (l4 + 16) (le16 c) bs)) ->
     Q tt (set_mdata (put (l4 + 16) (le16 c) bs) m')) ->
  wp (l4_checksum_full hwc 14 l4 meta off) Q (set_mdata bs m).
Proof.
  intros Hf Hi El4 Hp H1 H2 H3 Hhw HQ. unfold l4_checksum_full, Ip.is_tcp, Ip.protocol.
  unfold f_proto in Hp. unfold f_end in *.
  apply wp_bind, wp_onb, wp_bind, wp_rd8; [lia|lia|]. apply wp_ret. change (14 + 9) with 23.
  rewrite Hp. rewrite Z.eqb_refl. cbv zeta. rewrite Hhw. do 2 wp_step.
  change (set_ol_flags 0 (set_mdata bs m)) with (set_mdata bs (set_ol_flags 0 m)).
  unfold Ip.get_total_length, Ip.get_header_len, Ip.get_ihl, Ip.total_length, Ip.version_ihl.
  apply wp_bind, wp_onb, wp_bind, wp_rd16; [lia|lia|]. apply wp_ret.
  apply wp_bind, wp_onb, wp_bind, wp_bind, wp_rd8; [lia|lia|]. apply wp_ret, wp_ret.
  change (ntohs (get16 (14 + 2) bs)) with (f_total bs).
  change (Z.land (get8 14 bs) 15 * 4) with (f_ihl bs).
  apply wp_onb. apply recalculate_tcp_wp; try done; try lia.
  - change (14 + 9) with 23. rewrite Hp. done.
  - intros c Hc Hok. by apply HQ.
Qed.

Lemma ip_rewritten_head ip src dst bs b2 off n :
  ip_rewritten ip src dst bs b2 -> 0 <= off -> off + n <= ip + 8 \/ ip + 20 <= off ->
  slice off n b2 = slice off n bs.
Proof. intros [_ [_ H] _ _ _ _ _] ? ?. apply H; lia. Qed.

(** Ports, then the checksum in full or by the NIC. *)
Lemma ports_then_wp (tcp : bool) l4 bs b2 rw Q m (k : ST Mbuf unit) :
  frame bs -> 20 <= f_ihl bs -> l4 = 14 + f_ihl bs -> f_proto bs = l4_number tcp ->
  l4 + cksum_at tcp + 2 <= len bs -> rw_wf rw ->
  ip_rewritten 14 (rw_src_ip rw) (rw_dst_ip rw) bs b2 ->
  (forall b3, frame b3 -> len b3 = len bs -> f_ihl b3 = f_ihl bs -> f_total b3 = f_total bs ->
     f_proto b3 = l4_number tcp -> (forall n, phdr n b3 = phdr n b2) ->
     (forall v, put (l4 + cksum_at tcp) (le16 v) b3
                = with_l4 l4 (cksum_at tcp) (rw_src_port rw) (rw_dst_port rw) v b2) ->
     wp k Q (set_mdata b3 m)) ->
  wp (_ ← onb (wr16 l4 (rw_src_port rw)); _ ← onb (wr16 (l4 + 2) (rw_dst_port rw)); k) Q (set_mdata b2 m).
Proof.
  intros Hf Hi El4 Hp Hl W [F2 [L2 A2] _ _ _ P2 _] HQ. assert (Hc : 6 <= cksum_at tcp) by (destruct tcp; cbn; lia).
  destruct (ports_put l4 (cksum_at tcp) (rw_src_port rw) (rw_dst_port rw) b2) as (F3 & L3 & _ & L3'); [done|lia..|].
  set (b3 := put (l4 + 2) _ _) in *.
  assert (Hlow : forall off n, 0 <= off -> off + n <= l4 -> slice off n b3 = slice off n b2).
  { intros o n ? ?. unfold b3. by rewrite !slice_put_ne by (lens; lia). }
  apply wp_bind, wp_onb, wp_wr16; [lia|lia|].
  apply wp_bind, wp_onb, wp_wr16; [lia|lia|]. fold b3. change (14 + 9) with 23 in P2. apply HQ; try done.
  - lia.
  - unfold f_ihl, get8. rewrite Hlow, A2 by lia. done.
  - unfold f_total, get16. rewrite Hlow, A2 by lia. done.
  - unfold f_proto, get8. rewrite Hlow by lia. fold (get8 23 b2). rewrite P2. exact Hp.
  - intros n. unfold phdr, get32, get8. by rewrite !Hlow by lia.
Qed.

Lemma nat_tcp_wp `{ML : !RteMbufLaws MB} hwc l4 bs b2 meta rw (full : bool) off Q m :
  frame bs -> rw_wf rw -> 20 <= f_ihl bs -> l4 = 14 + f_ihl bs -> f_proto bs = IPProtocol_TCP ->
  l4 + 20 <= f_end bs -> f_end bs <= len bs -> f_total bs < 65536 -> meta_l3_offset meta = 14 ->
  let hw := hwc && flag off TX_OFFLOAD_TCP_CKSUM in
  ip_rewritten 14 (rw_src_ip rw) (rw_dst_ip rw) bs b2 ->
  (forall v m', is_u16 v ->
     let b3 := with_l4 l4 16 (rw_src_port rw) (rw_dst_port rw) v b2 in
     (if hw then offloaded F_TX_TCP_CKSUM (f_ihl bs) m' /\ same v (phdr (f_total bs - f_ihl bs) b2)
      else ol_flags m' = 0 /\
        if full then sum_ok (l4_sum 14 l4 (f_total bs - f_ihl bs) b3)
        else compensates l4 16 (get32 26 bs) (get32 30 bs) v rw b2) ->
     Q tt (set_mdata b3 m')) ->
  wp (nat_tcp hwc 14 l4 (get32 26 bs) (get32 30 bs) meta rw full hw off) Q (set_mdata b2 m).
Proof.
  intros Hf W Hi El4 Hp H1 H2 H3 Hm hw Hir HQ. pose proof Hir as [F2 [L2 A2] _ _ _ P2 _]. unfold f_end in *.
  destruct (full || hw) eqn:Efh.
  - unfold nat_tcp, TcpH.src_port, TcpH.dst_port. rewrite Efh.
    apply wp_bind, wp_onb, wp_rd16; [lia|lia|]. apply wp_bind, wp_onb, wp_rd16; [lia|lia|].
    apply (ports_then_wp true l4 bs b2); try done; cbn [cksum_at]; try lia.
    intros b3 F3 L3 Ei Et Ep Eph Hw. unfold hw in *. destruct (hwc && flag off TX_OFFLOAD_TCP_CKSUM) eqn:Ehw.
    + apply (l4_checksum_full_hw_wp true); rewrite ?Ei, ?Et; cbn [cksum_at]; try done; try lia.
      intros v m' Hv Hs Ho. rewrite Hw. apply (HQ v m'); [done|]. split; [done|]. by rewrite <- Eph.
    + rewrite orb_false_r in Efh. subst full.
      apply l4_checksum_full_tcp_wp; unfold f_end in *; rewrite ?Ei, ?Et; try done; try lia.
      intros c m' Hc Hz Hok. specialize (Hw c). cbn [cksum_at] in Hw. rewrite Hw in Hok |- *. by apply (HQ c m').
  - apply orb_false_iff in Efh as [-> Ehw]. rewrite Ehw in *.
    apply nat_tcp_incr_wp; try done; try lia; [apply get32_is; done || lia..|].
    intros v Hv Hc. by apply (HQ v (set_ol_flags 0 m)).
Qed.

Lemma nat_udp_wp `{ML : !RteMbufLaws MB} hwc l4 bs b2 meta rw off Q m :
  frame bs -> rw_wf rw -> 20 <= f_ihl bs -> l4 = 14 + f_ihl bs -> f_proto bs = IPProtocol_UDP ->
  l4 + 8 <= f_end bs -> f_end bs <= len bs -> meta_l3_offset meta = 14 ->
  let hw := hwc && flag off TX_OFFLOAD_UDP_CKSUM in
  ip_rewritten 14 (rw_src_ip rw) (rw_dst_ip rw) bs b2 ->
  (forall v m', is_u16 v ->
     (if hw then offloaded F_TX_UDP_CKSUM (f_ihl bs) m' /\ same v (phdr (f_total bs - f_ihl bs) b2)
      else ol_flags m' = 0 /\
        if get16 (l4 + 6) b2 =? 0 then v = 0
        else v <> 0 /\ compensates l4 6 (get32 26 bs) (get32 30 bs) v rw b2) ->
     Q tt (set_mdata (with_l4 l4 6 (rw_src_port rw) (rw_dst_port rw) v b2) m')) ->
  wp (nat_udp hwc 14 l4 (get32 26 bs) (get32 30 bs) meta rw hw off) Q (set_mdata b2 m).
Proof.
  intros Hf W Hi El4 Hp H1 H2 Hm hw Hir HQ. pose proof Hir as [F2 [L2 A2] _ _ _ P2 _]. unfold f_end in *.
  destruct hw eqn:Ehw; unfold hw in Ehw.
  - unfold nat_udp, UdpH.src_port, UdpH.dst_port, UdpH.checksum.
    do 3 (apply wp_bind, wp_onb, wp_rd16; [lia|lia|]). cbv zeta.
    apply (ports_then_wp false l4 bs b2); try done; cbn [cksum_at]; try lia.
    intros b3 F3 L3 Ei Et Ep Eph Hw.
    apply (l4_checksum_full_hw_wp false); rewrite ?Ei, ?Et; cbn [cksum_at]; try done; try lia.
    intros v m' Hv Hs Ho. rewrite Hw. apply HQ; [done|]. split; [done|]. by rewrite <- Eph.
  - apply nat_udp_incr_wp; try done; try lia; [apply get32_is; done || lia..|].
    intros v Hv Hc. by apply (HQ v (set_ol_flags 0 m)).
Qed.

Lemma l4_sum_macs rw l4 n b3 :
  rw_wf rw -> frame b3 -> 34 <= l4 -> 14 <= len b3 ->
  l4_sum 14 l4 n (with_macs rw b3) = l4_sum 14 l4 n b3.
Proof.
  intros W F3 Hl4 Hl. destruct (with_macs_props rw b3 W F3 Hl) as (_ & A & _). unfold l4_sum.
  rewrite !(agrees_get32 _ _ _ _ _ A), (agrees_get8 _ _ _ _ _ A), (proj2 A) by lia. done.
Qed.

(** The receiver's check on the rewritten segment. *)
Definition tcp_sum (bs : list Z) : Z := l4_sum 14 (f_l4 bs) (f_total bs - f_ihl bs) bs.

Lemma l4_sum_pos l4 n bs :
  frame bs -> 34 <= len bs -> get8 23 bs <> 0 -> 0 < l4_sum 14 l4 n bs.
Proof.
  intros Hf Hl Hp. unfold l4_sum. change (14 + 12) with 26. change (14 + 16) with 30. change (14 + 9) with 23.
  destruct (pseudo_eq (get32 26 bs) (get32 30 bs) (get8 23 bs) n) as (-> & ? & ?);
    [apply get32_is; done || lia..|].
  pose proof (bswap16_pos (get8 23 bs) ltac:(apply get8_is; done || lia) Hp).
  pose proof (bswap16_is n). pose proof (wsum_bounds _ (frame_slice l4 n bs Hf)). zwrap. lia.
Qed.

Lemma sum_ok_same a b : 0 < a -> 0 < b -> same a b -> sum_ok b -> sum_ok a.
Proof.
  unfold sum_ok. intros. rewrite (red_cong a b) by done. done.
Qed.

(** The whole TCP rewrite. *)
Definition tcp_rewritten (hw : bool) (bs : list Z) (meta : PacketMeta) (rw : NatRewrite) (opt : NatOptions)
    (meta' : PacketMeta) (out : RewriteOutcome) (m' : Mbuf) : Prop :=
  let b := mdata m' in
  exists (full : bool) b1, options_done (f_l4 bs) (f_end bs) meta opt bs full meta' out b1
    /\ ready bs meta full meta' b1 /\ translated (f_l4 bs) 16 rw b1 b
    /\ if hw then offloaded F_TX_TCP_CKSUM (f_ihl b1) m'
                  /\ same (get16 (f_l4 bs + 16) b) (phdr (f_total b1 - f_ihl b1) b)
       else ol_flags m' = 0 /\ (if full then sum_ok (l4_sum 14 (f_l4 bs) (f_total b1 - f_ihl b1) b)
        else same (l4_sum 14 (f_l4 bs) (f_total b1 - f_ihl b1) b)
                  (l4_sum 14 (f_l4 bs) (f_total b1 - f_ihl b1) b1)).

Lemma nat_rewrite_tcp_wp `{ML : !RteMbufLaws MB} hwc meta rw opt Q bs m :
  frame bs -> ip_wf bs -> l4_wf bs -> f_proto bs = IPProtocol_TCP -> reports bs meta ->
  rw_wf rw -> opt_mtu opt <= 65535 ->
  (get8 22 bs <= 1 -> Q (TTL_EXCEEDED, meta, outcome0) (set_mdata bs m)) ->
  (1 < get8 22 bs -> forall meta' out m',
     tcp_rewritten (hwc && flag (tx_offloads opt) TX_OFFLOAD_TCP_CKSUM) bs meta rw opt meta' out m' ->
     Q (RW_OK, meta', out) m') ->
  wp (nat_rewrite hwc meta rw opt) Q (set_mdata bs m).
Proof.
  intros Hf Hwf Hl4wf Hp R W Hmtu HT HQ. pose proof Hwf as (Hl & Hv & Hi & He).
  unfold nat_rewrite; cbv zeta. rewrite (rp_l3 _ _ R). unfold Ip.ttl, Ip.is_tcp, Ip.is_udp, Ip.protocol.
  change (14 + 8) with 22. change (14 + 9) with 23.
  apply wp_bind, wp_onb, wp_rd8; [lia|lia|].
  destruct (Z.leb_spec (get8 22 bs) 1) as [Hle|Hgt]; [by apply wp_ret, HT|].
  apply wp_bind, wp_onb, wp_bind, wp_rd8; [lia|lia|]. apply wp_ret.
  fold (f_proto bs). rewrite Hp, Z.eqb_refl.
  apply wp_bind, nat_options_wp; try done. intros full meta' out b1 m1 Hod.
  pose proof (options_ready _ _ _ _ _ _ _ Hwf Hl4wf Hp R Hod) as Rd.
  destruct Rd as [F1 M3 M4 Hh Hm [Hfit Hfit'] Hdo Hpay Hsame] eqn:ERd. clear ERd.
  rewrite M3, M4. change (14 + 9) with 23. set (l4 := f_l4 bs) in *.
  assert (Ei : f_ihl b1 = f_ihl bs) by (unfold f_ihl; f_equal; apply (sub_get8 0 16 14 _ _ Hh); lia).
  assert (Ep : f_proto b1 = IPProtocol_TCP)
    by (rewrite <- Hp; apply (sub_get8 18 16 5 _ _ Hm); lia).
  assert (El4 : l4 = 14 + f_ihl b1) by (rewrite Ei; done).
  assert (Ht : f_total b1 < 65536) by apply bswap16_is.
  unfold f_end in Hfit, Hfit'.
  apply wp_bind, wp_onb, nat_ip_wp; [done|lia|fold (f_ihl b1); lia|fold (f_ihl b1); lia|apply W|apply W|].
  intros b2 Hir. change (14 + 12) with 26. change (14 + 16) with 30.
  pose proof Hir as [F2 [L2 A2] _ _ _ P2 _].
  apply wp_bind, wp_onb, wp_bind, wp_rd8; [lia|lia|]. apply wp_ret.
  apply wp_bind, wp_onb, wp_bind, wp_rd8; [lia|lia|]. apply wp_ret.
  change (14 + 9) with 23 in P2. rewrite P2. fold (f_proto b1). rewrite Ep, Z.eqb_refl.
  apply wp_bind. apply nat_tcp_wp; try done; unfold f_end; try lia.
  intros v m3 Hv16 Hck. set (b3 := with_l4 _ _ _ _ _ _) in *. assert (F3 : frame b3) by (by apply with_l4_frame).
  assert (L3 : len b3 = len b1) by (rewrite <- L2; apply (with_l4_agrees l4 16); lia).
  apply wp_bind, set_macs_wp; [done|lia|]. apply wp_ret. apply (HQ Hgt).
  exists full, b1. split; [done|]. split; [done|]. split.
  - apply translated_intro; try done; lia.
  - cbn [mdata set_mdata ol_flags]. destruct (hwc && _).
    + destruct Hck as [[O1 O2 O3] Hs]. split; [by split|]. fold l4.
      destruct (with_macs_props rw b3 W F3 ltac:(lia)) as (_ & A4 & _).
      destruct (with_l4_fields l4 16 (rw_src_port rw) (rw_dst_port rw) v b2) as (_ & _ & Gv);
        [lia|lia|lia|apply W|apply W|done|]. fold b3 in Gv.
      assert (A3 : agrees l4 (l4 + 16 + 2) b2 b3) by (apply with_l4_agrees; lia).
      rewrite (agrees_get16 _ _ _ _ (l4 + 16) A4), Gv by lia. unfold phdr.
      rewrite !(agrees_get32 _ _ _ _ _ A4), (agrees_get8 _ _ _ _ _ A4), !(agrees_get32 _ _ _ _ _ A3),
        (agrees_get8 _ _ _ _ _ A3) by lia. exact Hs.
    + destruct Hck as [Hz Hck]. split; [done|]. destruct full.
      * rewrite l4_sum_macs by (done || lia). exact Hck.
      * apply translated_sum; try done; lia.
Qed.

(** *** UDP *)

Definition udp_len (bs : list Z) : Z := ntohs (get16 (f_l4 bs + 4) bs).
Definition udp_sum (bs : list Z) : Z := l4_sum 14 (f_l4 bs) (udp_len bs) bs.

(** The whole UDP rewrite: a datagram without checksum stays without one. *)
Definition udp_rewritten (hw : bool) (bs : list Z) (rw : NatRewrite) (m' : Mbuf) : Prop :=
  let b := mdata m' in
  translated (f_l4 bs) 6 rw bs b
  /\ if hw then offloaded F_TX_UDP_CKSUM (f_ihl bs) m'
     else ol_flags m' = 0 /\ (if get16 (f_l4 bs + 6) bs =? 0 then get16 (f_l4 bs + 6) b = 0
      else get16 (f_l4 bs + 6) b <> 0
           /\ forall n, 8 <= n -> f_l4 bs + n <= len bs ->
              same (l4_sum 14 (f_l4 bs) n b) (l4_sum 14 (f_l4 bs) n bs)).

Lemma nat_rewrite_udp_wp `{ML : !RteMbufLaws MB} hwc meta rw opt Q bs m :
  frame bs -> ip_wf bs -> l4_wf bs -> f_proto bs = IPProtocol_UDP -> reports bs meta ->
  rw_wf rw ->
  (get8 22 bs <= 1 -> Q (TTL_EXCEEDED, meta, outcome0) (set_mdata bs m)) ->
  (1 < get8 22 bs -> forall m',
     udp_rewritten (hwc && flag (tx_offloads opt) TX_OFFLOAD_UDP_CKSUM) bs rw m' ->
     Q (RW_OK, meta, outcome0) m') ->
  wp (nat_rewrite hwc meta rw opt) Q (set_mdata bs m).
Proof.
  intros Hf Hwf Hl4wf Hp R W HT HQ. pose proof Hwf as (Hl & Hv & Hi & He).
  destruct Hl4wf as (_ & Hu & _). destruct (Hu Hp) as (U1 & U2 & U3).
  unfold nat_rewrite; cbv zeta. rewrite (rp_l3 _ _ R). unfold Ip.ttl, Ip.is_tcp, Ip.is_udp, Ip.protocol.
  change (14 + 8) with 22. change (14 + 9) with 23.
  apply wp_bind, wp_onb, wp_rd8; [lia|lia|].
  destruct (Z.leb_spec (get8 22 bs) 1) as [Hle|Hgt]; [by apply wp_ret, HT|].
  apply wp_bind, wp_onb, wp_bind, wp_rd8; [lia|lia|]. apply wp_ret.
  fold (f_proto bs). rewrite Hp. change (IPProtocol_UDP =? IPProtocol_TCP) with false.
  apply wp_bind, wp_ret. cbv beta iota zeta. rewrite (rp_l3 _ _ R), (rp_l4 _ _ R).
  change (14 + 9) with 23. set (l4 := f_l4 bs) in *. assert (El4 : l4 = 14 + f_ihl bs) by done.
  apply wp_bind, wp_onb, nat_ip_wp; [done|lia|fold (f_ihl bs); lia|fold (f_ihl bs); lia|apply W|apply W|].
  intros b2 Hir. change (14 + 12) with 26. change (14 + 16) with 30.
  pose proof Hir as [F2 [L2 A2] _ _ _ P2 _].
  apply wp_bind, wp_onb, wp_bind, wp_rd8; [lia|lia|]. apply wp_ret.
  apply wp_bind, wp_onb, wp_bind, wp_rd8; [lia|lia|]. apply wp_ret.
  change (14 + 9) with 23 in P2. rewrite P2. fold (f_proto bs). rewrite Hp.
  change (IPProtocol_UDP =? IPProtocol_TCP) with false. rewrite Z.eqb_refl.
  assert (G6 : get16 (l4 + 6) b2 = get16 (l4 + 6) bs) by (unfold get16; rewrite A2 by lia; done).
  apply wp_bind. apply nat_udp_wp; try done; unfold f_end in *; try lia; [apply (rp_l3 _ _ R)|].
  rewrite G6. intros v m3 Hv16 Hck. set (b3 := with_l4 _ _ _ _ _ _) in *.
  assert (F3 : frame b3) by (by apply with_l4_frame).
  assert (A3 : agrees l4 (l4 + 6 + 2) b2 b3) by (apply with_l4_agrees; lia).
  pose proof A3 as [L3 _].
  apply wp_bind, set_macs_wp; [done|lia|]. apply wp_ret. apply (HQ Hgt). split.
  - apply translated_intro; try done; lia.
  - cbn [mdata set_mdata ol_flags]. destruct (hwc && _); [by destruct Hck as [[? ? ?] _]|].
    fold l4. destruct Hck as [Hz Hck]. split; [done|].
    destruct (with_macs_props rw b3 W F3 ltac:(lia)) as (_ & A4 & _).
    rewrite (agrees_get16 _ _ _ _ (l4 + 6) A4) by lia.
    destruct (with_l4_fields l4 6 (rw_src_port rw) (rw_dst_port rw) v b2) as (_ & _ & Gv);
      [lia|lia|lia|apply W|apply W|done|]. fold b3 in Gv. rewrite Gv.
    destruct (get16 (l4 + 6) bs =? 0); [done|]. destruct Hck as [Hnz Hc]. split; [done|].
    intros n Hn Hln. apply translated_sum; try done; lia.
Qed.

(** *** ICMP errors *)

Record inner_rewritten (iip il4 : Z) (inn : FiveTuple) (bs b : list Z) : Prop := {
  in_frame : frame b;
  in_agrees : agrees (iip + 10) (il4 + 4) bs b;
  in_src : get32 (iip + 12) b = src_ip inn;
  in_dst : get32 (iip + 16) b = dst_ip inn;
  in_sp : get16 il4 b = src_port inn;
  in_dp : get16 (il4 + 2) b = dst_port inn;
  in_ok : sum_ok (wsum (slice iip (ihl_of (get8 iip b)) b))
}.

Lemma inner_rewrite_wp iip il4 inn Q bs :
  frame bs -> 0 <= iip -> 20 <= ihl_of (get8 iip bs) -> il4 = iip + ihl_of (get8 iip bs) ->
  il4 + 4 <= len bs -> FiveTuple_wf inn ->
  (forall b, inner_rewritten iip il4 inn bs b -> Q tt b) ->
  wp (inner_rewrite iip il4 inn) Q bs.
Proof.
  intros Hf Hi Hh El Hl (W1 & W2 & W3 & W4 & _) HQ. unfold inner_rewrite, Ip.src_ip, Ip.dst_ip.
  set (b1 := put (iip + 12) (le32 (src_ip inn)) bs). set (b2 := put (iip + 16) (le32 (dst_ip inn)) b1).
  assert (L1 : len b1 = len bs) by (apply len_put32; lia).
  assert (L2 : len b2 = len bs) by (unfold b2; rewrite len_put32; lia).
  assert (F2 : frame b2) by (unfold b2, b1; auto with pkt).
  assert (Hg : get8 iip b2 = get8 iip bs)
    by (unfold b2, b1; rewrite !get8_put_ne by (fold b1; lens; lia); done).
  apply wp_bind, wp_wr32; [lia|lia|]. fold b1. apply wp_bind, wp_wr32; [lia|lia|]. fold b2.
  apply wp_bind, update_wp; rewrite ?Hg; try done; try lia. intros c Hc Hok.
  set (b3 := put (iip + 10) (le16 c) b2) in *.
  assert (L3 : len b3 = len bs) by (unfold b3; rewrite len_put16; lia).
  set (b4 := put il4 (le16 (src_port inn)) b3).
  assert (L4 : len b4 = len bs) by (unfold b4; rewrite len_put16; lia).
  apply wp_bind, wp_wr16; [lia|lia|]. fold b4. apply wp_wr16; [lia|lia|].
  set (b5 := put (il4 + 2) (le16 (dst_port inn)) b4).
  assert (Hlow : forall off n, 0 <= off -> off + n <= il4 -> slice off n b5 = slice off n b3).
  { intros off n ? ?. unfold b5, b4. by rewrite !slice_put_ne by (fold b4; lens; lia). }
  apply HQ. split.
  - unfold b5, b4, b3. auto with pkt.
  - unfold b5, b4, b3, b2, b1. repeat apply agrees_put_then; lens; try lia. apply agrees_refl.
  - unfold get32. rewrite Hlow by lia. unfold b3. rewrite slice_put_ne by (lens; lia).
    unfold b2. rewrite slice_put_ne by (lens; lia). fold (get32 (iip + 12) b1).
    apply get32_put; lia || done.
  - unfold get32. rewrite Hlow by lia. unfold b3. rewrite slice_put_ne by (lens; lia).
    fold (get32 (iip + 16) b2). apply get32_put; lia || done.
  - unfold b5. rewrite get16_put_ne by (lens; lia). apply get16_put; lia || done.
  - apply get16_put; lia || done.
  - assert (E5 : get8 iip b5 = get8 iip bs).
    { unfold get8 at 1. rewrite Hlow by lia. fold (get8 iip b3).
      unfold b3. rewrite get8_put_ne by (lens; lia). exact Hg. }
    rewrite E5, Hlow by lia. exact Hok.
Qed.

(** The whole translation of an ICMP error. *)
Record icmp_translated (bs : list Z) (info : IcmpErrorInfo) (osrc odst : Z) (inn : FiveTuple)
    (smac dmac : MacAddr) (b : list Z) : Prop := {
  it_frame : frame b;
  it_len : len b = len bs;
  it_macs : slice 0 6 b = dmac /\ slice 6 6 b = smac;
  it_src : get32 26 b = osrc;
  it_dst : get32 30 b = odst;
  it_ttl : get8 22 b = u8 (get8 22 bs - 1);
  it_ip_ok : sum_ok (wsum (slice 14 (f_ihl b) b));
  it_inner : get32 (inner_l3_offset info + 12) b = src_ip inn
    /\ get32 (inner_l3_offset info + 16) b = dst_ip inn
    /\ get16 (inner_l4_offset info) b = src_port inn
    /\ get16 (inner_l4_offset info + 2) b = dst_port inn;
  it_inner_ok : sum_ok (wsum (slice (inner_l3_offset info)
    (ihl_of (get8 (inner_l3_offset info) b)) b));
  it_icmp_ok : sum_ok (wsum (slice (f_l4 b) (f_end b - f_l4 b) b))
}.

Lemma icmp_error_bytes_wp bs meta info osrc odst inn smac dmac Q :
  frame bs -> len bs <= 65535 -> ip_wf bs -> reports bs meta -> quotes bs meta info ->
  IcmpH.icmp_is_error (get8 (f_l4 bs) bs) = true ->
  is_u32 osrc -> is_u32 odst -> FiveTuple_wf inn ->
  len smac = 6 -> frame smac -> len dmac = 6 -> frame dmac ->
  (forall b, icmp_translated bs info osrc odst inn smac dmac b -> Q tt b) ->
  wp (_ ← inner_rewrite (inner_l3_offset info) (inner_l4_offset info) inn;
      _ ← nat_ip 14 osrc odst;
      _ ← wr16 (f_l4 bs + 2) 0;
      c ← calculate_checksum (f_l4 bs) (f_end bs - f_l4 bs);
      _ ← wr16 (f_l4 bs + 2) c;
      _ ← Eth.set_dst_mac 0 dmac;
      Eth.set_src_mac 0 smac) Q bs.
Proof.
  intros Hf Hmax (Hl & Hv & Hi & He) R (Q1 & Q2 & Q3 & Q4 & _) Herr Ws Wd Wi Ls Fs Ld Fd HQ.
  rewrite (rp_l4 _ _ R), (rp_total _ _ R) in *.
  set (l4 := f_l4 bs) in *. set (e := f_end bs) in *. assert (El4 : l4 = 14 + f_ihl bs) by done.
  set (iip := inner_l3_offset info) in *. set (il4 := inner_l4_offset info) in *.
  rewrite <- Q1 in Q2, Q3, Q4.
  apply wp_bind, inner_rewrite_wp; try done; try lia. intros b1 [F1 A1 IS ID IP IQ IO].
  pose proof A1 as [L1 _].
  assert (G14 : get8 14 b1 = get8 14 bs) by (apply (agrees_get8 _ _ _ _ 14 A1); lia).
  apply wp_bind, nat_ip_wp; rewrite ?G14; fold (f_ihl bs); try done; try lia.
  intros b2 [F2 A2 S2 D2 T2 P2 O2]. pose proof A2 as [L2 _].
  set (b3 := put (l4 + 2) (le16 0) b2).
  assert (L3 : len b3 = len bs) by (unfold b3; rewrite len_put16; lia).
  assert (F3 : frame b3) by (unfold b3; auto with pkt).
  destruct (sum_region_closes l4 (e - l4) 2 0 b2 F2 ltac:(lia) ltac:(lia) ltac:(lia) ltac:(lia)
    eq_refl ltac:(lia) ltac:(lia)) as [Hwp Hok].
  apply wp_bind, wp_wr16; [lia|lia|]. fold b3. apply wp_bind. unfold calculate_checksum.
  eapply wp_mono; [exact Hwp|]. intros c' b' [-> ->]. set (c := 65535 - red _) in *.
  apply wp_bind, wp_wr16; [lia|fold b3; lia|]. rewrite put16_zero_then by lia.
  set (b4 := put (l4 + 2) (le16 c) b2) in *.
  assert (L4 : len b4 = len bs) by (unfold b4; rewrite len_put16; lia).
  assert (A4 : agrees (l4 + 2) (l4 + 4) b2 b4) by (apply agrees_put; lens; lia).
  unfold Eth.set_dst_mac, Eth.set_src_mac, Eth.dst_mac, Eth.src_mac.
  apply wp_bind, wp_wr_bytes; [lia|lia|]. apply wp_wr_bytes; [lia|rewrite len_put by lia; lia|].
  set (b5 := put (0 + 6) smac (put 0 dmac b4)).
  assert (A5 : agrees 0 12 b4 b5).
  { unfold b5. do 2 (apply agrees_put_then; try lia). apply agrees_refl. }
  assert (Hfar : forall off n, 14 <= off -> off + n <= l4 + 2 \/ l4 + 4 <= off ->
    slice off n b5 = slice off n b2).
  { intros off n ? ?. rewrite (proj2 A5), (proj2 A4) by lia. done. }
  assert (Hinn : forall off n, l4 + 4 <= off -> slice off n b5 = slice off n b1).
  { intros off n ?. rewrite Hfar, (proj2 A2) by lia. done. }
  assert (E14 : get8 14 b5 = get8 14 bs).
  { unfold get8 at 1. rewrite Hfar, (proj2 A2) by lia. exact G14. }
  assert (E16 : get16 16 b5 = get16 16 bs).
  { unfold get16. rewrite Hfar, (proj2 A2), (proj2 A1) by lia. done. }
  assert (Ei : f_ihl b5 = f_ihl bs) by (unfold f_ihl; by rewrite E14).
  assert (Ee : f_end b5 = e) by (unfold f_end, f_total; by rewrite E16).
  assert (El : f_l4 b5 = l4) by (unfold f_l4; by rewrite Ei).
  apply HQ. split.
  - unfold b5. apply frame_put; [|done]. apply frame_put; [|done]. unfold b4. auto with pkt.
  - destruct A5 as [-> _]. lia.
  - unfold b5. split.
    + rewrite slice_put_ne by (rewrite ?len_put by lia; lia). rewrite <- Ld. apply slice_put_same; lia.
    + change 6 with (0 + 6) at 1. rewrite <- Ls at 2. apply slice_put_same; [lia|].
      rewrite len_put by lia. lia.
  - unfold get32. rewrite Hfar by lia. exact S2.
  - unfold get32. rewrite Hfar by lia. exact D2.
  - unfold get8 at 1. rewrite Hfar by lia. fold (get8 22 b2). change 22 with (14 + 8) at 1. rewrite T2.
    f_equal. f_equal. apply (agrees_get8 _ _ _ _ 22 A1); lia.
  - rewrite Ei, Hfar by lia.
    assert (E2 : get8 14 b2 = get8 14 bs)
      by (rewrite (agrees_get8 _ _ _ _ 14 A2) by lia; exact G14).
    rewrite E2 in O2. exact O2.
  - unfold get32, get16. rewrite !Hinn by lia. split_and!; [exact IS|exact ID|exact IP|exact IQ].
  - assert (Eg : get8 iip b5 = get8 iip b1) by (unfold get8; rewrite Hinn by lia; done).
    fold iip. rewrite Eg, Hinn by lia. exact IO.
  - rewrite El, Ee. rewrite (proj2 A5) by lia. exact Hok.
Qed.

(** [nat_rewrite_icmp_error] as a whole. *)
Lemma nat_rewrite_icmp_error_wp bs meta info osrc odst inn smac dmac Q m :
  frame bs -> len bs <= 65535 -> ip_wf bs -> reports bs meta -> quotes bs meta info ->
  IcmpH.icmp_is_error (get8 (f_l4 bs) bs) = true ->
  is_u32 osrc -> is_u32 odst -> FiveTuple_wf inn ->
  len smac = 6 -> frame smac -> len dmac = 6 -> frame dmac ->
  (get8 22 bs <= 1 -> Q TTL_EXCEEDED (set_mdata bs m)) ->
  (1 < get8 22 bs -> forall b m', icmp_translated bs info osrc odst inn smac dmac b ->
     Q RW_OK (set_mdata b m')) ->
  wp (nat_rewrite_icmp_error meta info osrc odst inn smac dmac) Q (set_mdata bs m).
Proof.
  intros Hf Hmax Hwf R Hq Herr Ws Wd Wi Ls Fs Ld Fd HT HQ. pose proof Hwf as (Hl & _).
  unfold nat_rewrite_icmp_error, Ip.ttl, IcmpH.checksum; cbv zeta.
  rewrite (rp_l3 _ _ R), (rp_l4 _ _ R), (rp_total _ _ R). change (14 + 8) with 22.
  apply wp_bind, wp_onb, wp_rd8; [lia|lia|].
  destruct (Z.leb_spec (get8 22 bs) 1) as [Hle|Hgt]; [by apply wp_ret, HT|].
  apply wp_bind, wp_onb.
  eapply (wp_mono _ (fun _ b => icmp_translated bs info osrc odst inn smac dmac b)).
  - by apply (icmp_error_bytes_wp bs meta).
  - intros [] b Hb. apply wp_bind, wp_modify, wp_ret.
    change (set_ol_flags 0 (set_mdata b m)) with (set_mdata b (set_ol_flags 0 m)). by apply HQ.
Qed.

End Rewrite.

End ForwardThms.
