(* ===== verification/ForwardProps.v ===== *)
(** What packet rewriting guarantees. *)
From S2P Require Import Prelude Types TcpState Mem Headers Dpdk Checksum ChecksumThms Parser ParserThms Forward ForwardThms.
Import Tcp Checksum ChecksumThms Parser ParserThms Forward ForwardThms.

Module ForwardProps.

(** C26. The incremental update of RFC 1624 is exact: if a field holds the
    checksum of data that sums to [s] (the complement of the folded sum) and one
    16-bit word of that data changes from [o] to [n], the updated field is the
    checksum a full computation over the changed data would give. *)
Theorem incremental_update_exact s o n :
  is_u16 o -> is_u16 n -> o <= s -> 0 < s - o + n ->
  incremental_update (65535 - red s) o n = Some (65535 - red (s - o + n)).
Proof.
  intros Ho Hn Hs Hp. unfold is_u16 in *. pose proof (red_range s).
  rewrite incremental_update_spec by (unfold is_u16; lia). f_equal. f_equal.
  replace (65535 - (65535 - red s) + (65535 - o) + n) with (red s + (65535 - o) + n) by lia.
  assert (0 <= s) by lia. apply red_cong; [|lia|].
  - destruct (decide (s = 0)) as [->|]; [change (red 0) with 0; lia|].
    assert (red s <> 0) by (intros E; apply red_zero in E; lia). lia.
  - replace (red s + (65535 - o) + n) with (red s + (n - o) + 1 * 65535) by lia.
    rewrite Z.mod_add by lia. replace (s - o + n) with (s + (n - o)) by lia.
    rewrite <- (Z.add_mod_idemp_l (red s)), red_mod, Z.add_mod_idemp_l by lia. done.
Qed.

Lemma incremental_update_exact_witness :
  incremental_update (65535 - red 70000) 7 65000 = Some (65535 - red (70000 - 7 + 65000)).
Proof. apply incremental_update_exact; vm_compute; done. Defined.

(** ** The NIC's side of checksum offload *)

(** The frame the NIC puts on the wire for a buffer it is given to send. *)
Class NicTx := { nic_wire : Mbuf -> list Z }.

(** Documented behaviour (rte_mbuf.h): a buffer without flags is sent as it is;
    with TX_IPV4 and a checksum flag the NIC sums the segment that begins at
    l2_len + l3_len, with the pseudo header's sum in the checksum field, and puts
    the complement there; UDP never gets a zero. *)
Class NicTxLaws (MB : RteMbuf) (NT : NicTx) := {
  wire_plain m : ol_flags m = 0 -> nic_wire m = mdata m;
  wire_l4 (tcp : bool) m :
    let l4 := l2_len m + l3_len m in
    let n := ntohs (get16 (l2_len m + 2) (mdata m)) - l3_len m in
    ol_flags m = Z.lor F_TX_IPV4 (cksum_flag tcp) -> frame (mdata m) ->
    0 <= l2_len m -> 20 <= l3_len m -> cksum_at tcp + 2 <= n -> l4 + n <= len (mdata m) ->
    exists c, is_u16 c /\ same (c + wsum (slice l4 n (mdata m))) 0 /\ (tcp = false -> c <> 0)
      /\ nic_wire m = put (l4 + cksum_at tcp) (le16 c) (mdata m)
}.

Section Props.
Context `{MB : RteMbuf} `{ML : !RteMbufLaws MB} {NT : NicTx} {NL : NicTxLaws MB NT} (hwc : bool).

(** A parsed frame, as the packet path hands it to the rewriter. *)
Record parsed (bs : list Z) (meta : PacketMeta) : Prop := {
  pa_frame : frame bs;
  pa_len : len bs <= 65535;
  pa_ip : ip_wf bs;
  pa_l4 : l4_wf bs;
  pa_reports : reports bs meta
}.

Lemma translated_lengths l4 cf rw b1 b :
  translated l4 cf rw b1 b -> f_ihl b = f_ihl b1 /\ f_total b = f_total b1.
Proof.
  intros T. pose proof (tr_ip_head _ _ _ _ _ T) as H. unfold f_ihl, f_total. split; f_equal.
  - apply (sub_get8 12 10 2 _ _ H); lia.
  - apply (sub_get16 12 10 4 _ _ H); lia.
Qed.

(** The sum over the unchanged part of the frame. *)
Lemma l4_sum_ext l4 n b1 bs :
  34 <= l4 -> slice 18 16 b1 = slice 18 16 bs -> slice l4 n b1 = slice l4 n bs ->
  l4_sum 14 l4 n b1 = l4_sum 14 l4 n bs.
Proof.
  intros Hl Hm Hs. unfold l4_sum. rewrite Hs.
  change (14 + 12) with (18 + 8). change (14 + 16) with (18 + 12). change (14 + 9) with (18 + 5).
  rewrite (sub_get32 18 16 8 _ _ Hm), (sub_get32 18 16 12 _ _ Hm), (sub_get8 18 16 5 _ _ Hm) by lia.
  done.
Qed.

(** On the wire the checksum is the only difference, and it is right. *)
Lemma wire_offloaded l4 n m :
  frame (mdata m) -> 20 <= f_ihl (mdata m) -> l4 = 14 + f_ihl (mdata m) -> n = f_total (mdata m) - f_ihl (mdata m) ->
  20 <= n -> l4 + n <= len (mdata m) -> get8 23 (mdata m) <> 0 ->
  offloaded F_TX_TCP_CKSUM (f_ihl (mdata m)) m -> same (get16 (l4 + 16) (mdata m)) (phdr n (mdata m)) ->
  frame (nic_wire m) /\ agrees (l4 + 16) (l4 + 18) (mdata m) (nic_wire m) /\ sum_ok (l4_sum 14 l4 n (nic_wire m)).
Proof.
  intros Hf Hi El En Hn Hl Hp [O1 O2 O3] Hs. pose proof (wire_l4 true m) as H. rewrite O2, O3 in H.
  change (14 + 2) with 16 in H. fold (f_total (mdata m)) in H. rewrite <- El, <- En in H. cbn [cksum_at cksum_flag] in H.
  destruct (H O1 Hf ltac:(lia) ltac:(lia) ltac:(lia) ltac:(lia)) as (c & Hc & Hz & _ & ->).
  set (b := mdata m) in *. split; [auto with pkt|]. split; [apply agrees_put; lens; lia|].
  assert (Hpos : 0 < l4_sum 14 l4 n (put (l4 + 16) (le16 c) b)).
  { apply l4_sum_pos; [auto with pkt|rewrite len_put16; lia|]. rewrite get8_put_ne by (lens; lia). done. }
  apply sum_ok_iff; [lia|]. split; [done|]. rewrite l4_sum_put by (lens; lia).
  rewrite wsum_field by (done || lia). fold (phdr n b). unfold same in *.
  change (14 + 12) with 26. change (14 + 16) with 30. change (14 + 9) with 23. fold (phdr n b).
  replace (phdr n b + (wsum (slice l4 n b) - get16 (l4 + 16) b + c))
    with ((c + wsum (slice l4 n b)) + (phdr n b - get16 (l4 + 16) b)) by lia.
  rewrite Zplus_mod, Hz, Zminus_mod, Hs, Z.sub_diag. done.
Qed.

Lemma tcp_checksum_kept hw bs meta rw opt meta' out m' :
  parsed bs meta -> f_proto bs = IPProtocol_TCP -> tcp_rewritten hw bs meta rw opt meta' out m' ->
  frame (nic_wire m') /\ agrees (f_l4 bs + 16) (f_l4 bs + 18) (mdata m') (nic_wire m') /\
  (sum_ok (tcp_sum bs) -> sum_ok (tcp_sum (nic_wire m'))).
Proof.
  intros [Hf Hmax (Hl & Hv & Hi & He) _ R] Hp (full & b1 & Hod & Rd & T & Hck).
  set (b := mdata m') in *. destruct (translated_lengths _ _ _ _ _ T) as [Ei Et].
  destruct Rd as [F1 M3 M4 Hh Hm [Hfit Hfit'] Hdo Hpay Hsame].
  assert (Ei1 : f_ihl b1 = f_ihl bs) by (unfold f_ihl; f_equal; apply (sub_get8 0 16 14 _ _ Hh); lia).
  assert (El4 : f_l4 bs = 14 + f_ihl bs) by done. unfold f_end in *.
  assert (H23 : get8 23 b1 = IPProtocol_TCP) by (rewrite <- Hp; apply (sub_get8 18 16 5 _ _ Hm); lia).
  assert (Hlb : len b = len b1) by apply (tr_len _ _ _ _ _ T).
  assert (W : frame (nic_wire m') /\ agrees (f_l4 bs + 16) (f_l4 bs + 18) b (nic_wire m') /\
    (sum_ok (tcp_sum bs) -> sum_ok (l4_sum 14 (f_l4 bs) (f_total b1 - f_ihl b1) (nic_wire m')))).
  { destruct hw.
    - destruct Hck as [O Hs]. rewrite <- Ei in O.
      destruct (wire_offloaded (f_l4 bs) (f_total b1 - f_ihl b1) m') as (W1 & W2 & W3); fold b; try done; try lia; [apply T|..].
      + rewrite (tr_proto _ _ _ _ _ T), H23. done.
    - destruct Hck as [Hz Hck]. rewrite (wire_plain _ Hz). fold b. split; [apply T|]. split; [apply agrees_refl|].
      intros Hok. destruct full; [done|]. destruct (Hsame eq_refl) as [Ee Hall].
      assert (Ett : f_total b1 = f_total bs) by lia. rewrite Ei1, Ett in *. unfold tcp_sum in Hok.
      rewrite (l4_sum_ext _ _ b1 bs) in Hck by (done || lia || (apply Hall; lia)).
      eapply (sum_ok_same _ (l4_sum 14 (f_l4 bs) (f_total bs - f_ihl bs) bs)); try done.
      + apply l4_sum_pos; [apply T|lia|]. rewrite (tr_proto _ _ _ _ _ T), H23. done.
      + apply l4_sum_pos; [done|lia|]. fold (f_proto bs). rewrite Hp. done. }
  destruct W as (W1 & W2 & W3). split; [done|]. split; [done|]. intros Hok. unfold tcp_sum.
  assert (Ew : f_ihl (nic_wire m') = f_ihl bs).
  { rewrite <- Ei1, <- Ei. unfold f_ihl. f_equal. apply (agrees_get8 _ _ _ _ _ W2); lia. }
  assert (Etw : f_total (nic_wire m') = f_total b1).
  { rewrite <- Et. unfold f_total. f_equal. apply (agrees_get16 _ _ _ _ _ W2); lia. }
  unfold f_l4. rewrite Ew, Etw. fold (f_l4 bs). rewrite Ei1 in W3. by apply W3.
Qed.

(** A forwarded TCP segment [b] on the wire, against the segment [bs] that came:
    every byte of the headers is accounted for. *)
Record tcp_forwarded (rw : NatRewrite) (opt : NatOptions) (out : RewriteOutcome) (bs b : list Z) : Prop := {
  tf_macs : slice 0 6 b = rw_dst_mac rw /\ slice 6 6 b = rw_src_mac rw;
  tf_type_tos : slice 12 4 b = slice 12 4 bs;
  tf_total : f_total b = f_total bs + grown out;
  tf_id_frag : slice 18 4 b = slice 18 4 bs;
  tf_ttl : get8 22 b = get8 22 bs - 1;
  tf_protocol : get8 23 b = get8 23 bs;
  tf_addrs : get32 26 b = rw_src_ip rw /\ get32 30 b = rw_dst_ip rw;
  tf_ip_options : slice 34 (f_l4 bs - 34) b = slice 34 (f_l4 bs - 34) bs;
  tf_ports : get16 (f_l4 bs) b = rw_src_port rw /\ get16 (f_l4 bs + 2) b = rw_dst_port rw;
  tf_seq_ack : slice (f_l4 bs + 4) 8 b = slice (f_l4 bs + 4) 8 bs;
  tf_doff : doff_of (get8 (f_l4 bs + 12) b) = doff_of (get8 (f_l4 bs + 12) bs) + grown out;
  tf_rsv : Z.land (get8 (f_l4 bs + 12) b) 15 = Z.land (get8 (f_l4 bs + 12) bs) 15;
  tf_flags_window : slice (f_l4 bs + 13) 3 b = slice (f_l4 bs + 13) 3 bs;
  tf_urgent : slice (f_l4 bs + 18) 2 b = slice (f_l4 bs + 18) 2 bs;
  tf_toa : toa_added out = true -> add_toa opt = true
    /\ slice (f_l4 bs + 20) 8 b = [254; 8] ++ le16 (toa_port opt) ++ le32 (toa_ip opt);
  tf_options k : 0 <= k < doff_of (get8 (f_l4 bs + 12) bs) - 20 ->
    get8 (f_l4 bs + 20 + grown out + k) b = get8 (f_l4 bs + 20 + k) bs
    \/ ts_stripped out = true /\ strip_ts opt = true
       /\ get8 (f_l4 bs + 20 + grown out + k) b = TcpH.TCPOPT_NOP;
  tf_ip_ok : sum_ok (wsum (slice 14 (f_ihl b) b));
  tf_tcp_ok : sum_ok (tcp_sum bs) -> sum_ok (tcp_sum b)
}.

(** Bytes the checksum field is not part of. *)
Lemma wire_forwarded hw bs meta rw opt meta' out m' :
  parsed bs meta -> f_proto bs = IPProtocol_TCP -> 1 < get8 22 bs ->
  tcp_rewritten hw bs meta rw opt meta' out m' ->
  tcp_forwarded rw opt out bs (nic_wire m')
  /\ slice (meta_payload_offset meta') (meta_payload_len meta') (nic_wire m')
     = slice (meta_payload_offset meta) (meta_payload_len meta) bs.
Proof.
  intros P Hp Httl Htr. pose proof (tcp_checksum_kept _ _ _ _ _ _ _ _ P Hp Htr) as (Fw & A & Hck).
  pose proof P as [Hf Hmax Hwf Hl4 R]. destruct Htr as (full & b1 & Hod & Rd & T & _).
  pose proof (options_kept_intro _ _ _ _ _ _ _ Hwf Hl4 Hp Hod) as [K1 K2 K3 K4 K5].
  destruct (translated_lengths _ _ _ _ _ T) as [Ei Et]. destruct Hod as (bx & _ & _ & Hst & Ho).
  pose proof (ihl_range (get8 14 bs)) as Hir. fold (f_ihl bs) in Hir.
  pose proof (doff_range (get8 (f_l4 bs + 12) bs)) as Hdr.
  assert (El4 : f_l4 bs = 14 + f_ihl bs) by done.
  destruct Hwf as (Hl & Hv & Hi & He). destruct Hl4 as [Ht _]. destruct (Ht Hp) as (T1 & T2 & T3).
  assert (H22 : is_u8 (get8 22 bs)) by (apply get8_is; done || lia). unfold is_u8 in H22.
  set (l4 := f_l4 bs) in *. set (w := nic_wire m') in *. set (b := mdata m') in *.
  pose proof (tr_rest _ _ _ _ _ T) as Hrest. pose proof (tr_l4_mid _ _ _ _ _ T) as Hmid.
  assert (Sw : forall off n, 0 <= off -> off + n <= l4 + 16 \/ l4 + 18 <= off -> slice off n w = slice off n b)
    by (intros; by apply A).
  assert (Smid : forall k n, 0 <= k -> 0 <= n -> k + n <= 12 -> slice (l4 + 4 + k) n w = slice (l4 + 4 + k) n b1).
  { intros k n ? ? ?. rewrite Sw by lia. rewrite <- (slice_slice (l4 + 4) (16 - 4) k n b), Hmid, slice_slice by lia. done. }
  assert (G12 : get8 (l4 + 12) w = get8 (l4 + 12) b1).
  { unfold get8. replace (l4 + 12) with (l4 + 4 + 8) by lia. by rewrite Smid by lia. }
  assert (Etw : f_total w = f_total b) by (unfold f_total, get16; by rewrite Sw by lia).
  assert (Eiw : f_ihl w = f_ihl b) by (unfold f_ihl, get8; by rewrite Sw by lia).
  pose proof (rp_payload _ _ R) as Hpo. rewrite Hp in Hpo. cbn in Hpo. fold l4 in Hpo.
  split; [split; fold l4|].
  - rewrite !Sw by lia. split; apply T.
  - rewrite Sw by lia. rewrite <- (slice_slice 12 10 0 4) by lia. rewrite (tr_ip_head _ _ _ _ _ T), slice_slice by lia. apply K1; lia.
  - rewrite Etw, Et. exact K2.
  - rewrite Sw by lia. change 18 with (12 + 6) at 1. rewrite <- (slice_slice 12 10 6 4) by lia.
    rewrite (tr_ip_head _ _ _ _ _ T), slice_slice by lia. apply K1; lia.
  - unfold get8 at 1. rewrite Sw by lia. fold (get8 22 b). rewrite (tr_ttl _ _ _ _ _ T).
    assert (E22 : get8 22 b1 = get8 22 bs) by (unfold get8; by rewrite K1 by lia). rewrite E22. apply u8_id. zwrap. lia.
  - unfold get8 at 1. rewrite Sw by lia. fold (get8 23 b). rewrite (tr_proto _ _ _ _ _ T). unfold get8. by rewrite K1 by lia.
  - unfold get32. rewrite !Sw by lia. split; apply T.
  - rewrite Sw by lia. rewrite (tr_ip_opt _ _ _ _ _ T). apply K1; lia.
  - unfold get16. rewrite !Sw by lia. split; apply T.
  - pose proof (Smid 0 8 ltac:(lia) ltac:(lia) ltac:(lia)) as E. rewrite Z.add_0_r in E. rewrite E. apply K1; lia.
  - rewrite G12. exact K3.
  - rewrite G12. exact K4.
  - pose proof (Smid 9 3 ltac:(lia) ltac:(lia) ltac:(lia)) as E. replace (l4 + 4 + 9) with (l4 + 13) in E by lia. rewrite E. apply K1; lia.
  - rewrite Sw, Hrest by lia. apply K1; lia.
  - intros Hta. rewrite Hta in Ho. destruct Ho as (_ & Ha & _ & Hti). split; [done|]. rewrite Sw, Hrest by lia. apply Hti.
  - intros k Hk. assert (Hg : 0 <= grown out) by (unfold grown; destruct (toa_added out); lia).
    assert (E : get8 (l4 + 20 + grown out + k) w = get8 (l4 + 20 + grown out + k) b1)
      by (unfold get8; by rewrite Sw, Hrest by lia).
    rewrite E. destruct (K5 k Hk) as [?|[? ?]]; [by left|right]. auto.
  - assert (Eb1 : f_ihl b1 = f_ihl bs) by (unfold f_ihl, get8; by rewrite K1 by lia).
    rewrite Eiw, Sw by lia. apply T.
  - exact Hck.
  - rewrite <- (rd_payload _ _ _ _ _ Rd). rewrite Sw, Hrest; [done|..].
    all: destruct (toa_added out); [destruct Ho as (_ & _ & -> & _); cbn [meta_payload_offset meta_grow];
      unfold TcpH.TCPOLEN_TOA; rewrite u16_id by (zwrap; lia); lia|destruct Ho as (_ & -> & _); lia].
Qed.


(** FULLNAT rewriting of a UDP datagram, software checksums: as for TCP;
    a datagram sent without checksum (field 0) stays without one, and a
    datagram with a checksum keeps a non-zero one that is valid whenever the
    original was. *)
Theorem nat_rewrite_udp_correct bs meta rw opt m :
  parsed bs meta -> f_proto bs = IPProtocol_UDP -> rw_wf rw ->
  hwc && flag (tx_offloads opt) TX_OFFLOAD_UDP_CKSUM = false -> mdata m = bs ->
  exists r m', nat_rewrite hwc meta rw opt m = Some ((r, meta, outcome0), m') /\
  let b := mdata m' in
  if get8 22 bs <=? 1 then r = TTL_EXCEEDED /\ m' = m
  else r = RW_OK
    /\ get32 26 b = rw_src_ip rw /\ get32 30 b = rw_dst_ip rw
    /\ get16 (f_l4 bs) b = rw_src_port rw /\ get16 (f_l4 bs + 2) b = rw_dst_port rw
    /\ slice 0 6 b = rw_dst_mac rw /\ slice 6 6 b = rw_src_mac rw
    /\ get8 22 b = get8 22 bs - 1
    /\ sum_ok (wsum (slice 14 (f_ihl b) b))
    /\ (get16 (f_l4 bs + 6) b = 0 <-> get16 (f_l4 bs + 6) bs = 0)
    /\ (get16 (f_l4 bs + 6) bs <> 0 -> sum_ok (udp_sum bs) -> sum_ok (udp_sum b))
    /\ slice (meta_payload_offset meta) (meta_payload_len meta) b
       = slice (meta_payload_offset meta) (meta_payload_len meta) bs.
Proof.
  intros P Hp W Hhw Hd. pose proof P as [Hf Hmax Hwf Hl4 R].
  assert (H : wp (nat_rewrite hwc meta rw opt)
    (fun x m' => x.1.2 = meta /\ x.2 = outcome0 /\
       if get8 22 bs <=? 1 then x.1.1 = TTL_EXCEEDED /\ m' = m
       else x.1.1 = RW_OK /\ udp_rewritten false bs rw m') (set_mdata bs m)).
  { apply nat_rewrite_udp_wp; try done.
    - intros Hle. rewrite (proj2 (Z.leb_le _ _) Hle). split_and!; try done.
      rewrite <- Hd. apply set_mdata_id.
    - intros Hgt m' Htr. rewrite Hhw in Htr. rewrite (proj2 (Z.leb_gt _ _) Hgt). split_and!; try done. }
  rewrite <- Hd, set_mdata_id in H. rewrite Hd in H. rewrite wp_run in H.
  destruct H as ([[r meta'] out] & m' & Hr & Hme & Hou & H). cbn [fst snd] in *. subst meta' out.
  exists r, m'. split; [done|]. cbv zeta. destruct (Z.leb_spec (get8 22 bs) 1); [done|].
  destruct H as [-> [T [_ Hck]]]. destruct (translated_lengths _ _ _ _ _ T) as [Ei Et].
  destruct Hwf as (Hl & Hv & Hi & He). destruct Hl4 as (_ & Hu & _). destruct (Hu Hp) as (U1 & U2 & U3).
  assert (H22 : is_u8 (get8 22 bs)) by (apply get8_is; done || lia). unfold is_u8 in H22.
  assert (El : f_l4 (mdata m') = f_l4 bs) by (unfold f_l4; by rewrite Ei).
  assert (El4 : f_l4 bs = 14 + f_ihl bs) by done.
  assert (Eul : udp_len (mdata m') = udp_len bs).
  { unfold udp_len. rewrite El. f_equal.
    pose proof (tr_l4_mid _ _ _ _ _ T) as Hmid. replace (f_l4 bs + 4) with (f_l4 bs + 4 + 0) by lia.
    apply (sub_get16 _ (6 - 4) _ _ _ Hmid); lia. }
  split_and!; try done; try apply T.
  - rewrite (tr_ttl _ _ _ _ _ T). apply u8_id. zwrap. lia.
  - destruct (Z.eqb_spec (get16 (f_l4 bs + 6) bs) 0); [done|]. split; [|done]. by destruct Hck.
  - intros Hnz Hok. rewrite (proj2 (Z.eqb_neq _ _) Hnz) in Hck. destruct Hck as [_ Hs].
    unfold udp_sum in Hok |- *. rewrite El, Eul.
    apply (sum_ok_same _ (l4_sum 14 (f_l4 bs) (udp_len bs) bs)); try done.
    + apply l4_sum_pos; [apply T|rewrite (tr_len _ _ _ _ _ T); lia|].
      rewrite (tr_proto _ _ _ _ _ T). fold (f_proto bs). by rewrite Hp.
    + apply l4_sum_pos; [done|lia|]. fold (f_proto bs). by rewrite Hp.
    + apply Hs; unfold udp_len; lia.
  - pose proof (rp_payload _ _ R) as Hpo. rewrite Hp in Hpo. cbn in Hpo. lia.
Qed.

(** C25. Translation of an ICMP error.  For a parsed error that quotes a TCP or
    UDP packet, the rewriter returns; unless the TTL is exhausted the outer
    header carries the given addresses and a valid checksum, the quoted packet
    carries the given addresses and ports and a valid header checksum, and the
    ICMP checksum over the whole message is valid. *)
Theorem nat_rewrite_icmp_error_correct bs meta info osrc odst inn smac dmac m :
  parsed bs meta -> quotes bs meta info -> IcmpH.icmp_is_error (get8 (f_l4 bs) bs) = true ->
  is_u32 osrc -> is_u32 odst -> FiveTuple_wf inn ->
  len smac = 6 -> frame smac -> len dmac = 6 -> frame dmac -> mdata m = bs ->
  exists r m', nat_rewrite_icmp_error meta info osrc odst inn smac dmac m = Some (r, m') /\
  if get8 22 bs <=? 1 then r = TTL_EXCEEDED /\ m' = m
  else r = RW_OK /\ icmp_translated bs info osrc odst inn smac dmac (mdata m').
Proof.
  intros [Hf Hmax Hwf Hl4 R] Hq Herr Ws Wd Wi Ls Fs Ld Fd Hd.
  rewrite <- wp_run, <- (set_mdata_id m), Hd. apply nat_rewrite_icmp_error_wp; try done.
  - intros Hle. by rewrite (proj2 (Z.leb_le _ _) Hle).
  - intros Hgt b m' Hb. by rewrite (proj2 (Z.leb_gt _ _) Hgt).
Qed.

End Props.

(** *** Concrete packets *)

Definition wit_rw : NatRewrite :=
  mkNatRewrite 16777482 33554698 20480 8080 [2;0;0;0;0;9] [2;0;0;0;0;8].

Lemma wit_rw_wf : rw_wf wit_rw.
Proof. split; try (split; [|apply frameb_frame]); vm_compute; done. Qed.

Definition meta_of (bs : list Z) : PacketMeta :=
  match parse (len bs) meta0 bs with Some ((_, m), _) => m | None => meta0 end.

Ltac solve_parsed :=
  split; [apply frameb_frame; vm_compute; reflexivity|vm_compute; discriminate
         |repeat split; vm_compute; congruence
         |repeat split; intros; vm_compute in *; congruence
         |split; intros; vm_compute in *; intuition (try congruence; try discriminate)].

Lemma syn_parsed : parsed syn_frame (meta_of syn_frame).
Proof. solve_parsed. Qed.

Definition mbuf_of (bs : list Z) : Mbuf := mkMbuf bs (len bs) 1 128 0 0 0 0 0.

(** A NIC that keeps to the laws. *)
Definition wire_sum (m : Mbuf) (tcp : bool) : list Z :=
  let l4 := l2_len m + l3_len m in
  let n := ntohs (get16 (l2_len m + 2) (mdata m)) - l3_len m in
  let c := 65535 - red (wsum (slice l4 n (mdata m))) in
  put (l4 + cksum_at tcp) (le16 (if negb tcp && (c =? 0) then 65535 else c)) (mdata m).

#[export] Instance flat_nic : NicTx := {|
  nic_wire m :=
    if ol_flags m =? Z.lor F_TX_IPV4 F_TX_TCP_CKSUM then wire_sum m true
    else if ol_flags m =? Z.lor F_TX_IPV4 F_TX_UDP_CKSUM then wire_sum m false else mdata m
|}.

#[export] Instance flat_nic_laws : NicTxLaws flat_mbuf flat_nic.
Proof.
  split.
  - intros m H. cbn. by rewrite H.
  - intros tcp m l4 n Ho Hf _ _ _ _. set (x := wsum (slice l4 n (mdata m))).
    assert (Hx : 0 <= x) by apply (wsum_bounds _ (frame_slice l4 n _ Hf)). pose proof (red_range x) as Hr.
    assert (Hs : same (65535 - red x + x) 0).
    { apply (same_trans _ (65535 - red x + red x)); [apply same_add; [done|]|].
      - unfold same. by rewrite red_mod.
      - by replace (65535 - red x + red x) with 65535 by lia. }
    assert (E : nic_wire m = wire_sum m tcp) by (cbn; rewrite Ho; by destruct tcp).
    rewrite E. unfold wire_sum. fold l4 n x. eexists. split; [|split; [|split; [|reflexivity]]].
    + destruct tcp; cbn [negb andb]; [unfold is_u16; lia|]. destruct (Z.eqb_spec (65535 - red x) 0); unfold is_u16; lia.
    + fold x. destruct tcp; cbn [negb andb]; [done|]. destruct (Z.eqb_spec (65535 - red x) 0) as [e|]; [|done].
      rewrite e in Hs. change (same (65535 + x) 0). apply (same_trans _ (0 + x)); [|done]. by apply same_add.
    + intros ->. cbn [negb andb]. destruct (Z.eqb_spec (65535 - red x) 0); lia.
Qed.


(** 10.0.0.1:1000 -> 10.0.0.2:53, four bytes of data, no checksum. *)
Definition udp_frame : list Z :=
  [2;0;0;0;0;1; 2;0;0;0;0;2; 8;0;
   69;0;0;32; 0;1;64;0; 64;17;0;0; 10;0;0;1; 10;0;0;2;
   3;232;0;53; 0;12;0;0; 1;2;3;4].

Lemma udp_parsed : parsed udp_frame (meta_of udp_frame).
Proof. solve_parsed. Qed.

Lemma nat_rewrite_udp_correct_witness :
  exists r m',
    nat_rewrite (MB := flat_mbuf) false (meta_of udp_frame) wit_rw
      (mkNatOptions false false 0 0 0 1500) (mbuf_of udp_frame)
    = Some ((r, meta_of udp_frame, outcome0), m') /\ get16 40 (mdata m') = 0.
Proof.
  destruct (nat_rewrite_udp_correct (MB := flat_mbuf) false udp_frame (meta_of udp_frame) wit_rw
    (mkNatOptions false false 0 0 0 1500) (mbuf_of udp_frame) udp_parsed) as (r & m' & H & _).
  - reflexivity.
  - exact wit_rw_wf.
  - reflexivity.
  - reflexivity.
  - exists r, m'. split; [exact H|]. vm_compute in H. injection H as <- <-. vm_compute. reflexivity.
Defined.

(** Destination unreachable from 10.0.0.9, quoting 10.0.0.2:80 -> 10.0.0.1:1000. *)
Definition icmp_frame : list Z :=
  [2;0;0;0;0;1; 2;0;0;0;0;2; 8;0;
   69;0;0;56; 0;1;64;0; 64;1;0;0; 10;0;0;9; 10;0;0;2;
   3;1;0;0; 0;0;0;0;
   69;0;0;40; 0;1;64;0; 63;6;0;0; 10;0;0;2; 10;0;0;1; 0;80;3;232; 0;0;0;1].

Lemma icmp_parsed : parsed icmp_frame (meta_of icmp_frame).
Proof. solve_parsed. Qed.

Definition icmp_info : IcmpErrorInfo :=
  mkIcmpErrorInfo 42 62 (mkFiveTuple 33554442 16777226 20480 59395 6).

Lemma nat_rewrite_icmp_error_correct_witness :
  exists r m',
    nat_rewrite_icmp_error (meta_of icmp_frame) icmp_info 1 2 (mkFiveTuple 3 4 5 6 6)
      [2;0;0;0;0;9] [2;0;0;0;0;8] (mbuf_of icmp_frame) = Some (r, m') /\ r = RW_OK.
Proof.
  destruct (nat_rewrite_icmp_error_correct icmp_frame (meta_of icmp_frame) icmp_info 1 2
    (mkFiveTuple 3 4 5 6 6) [2;0;0;0;0;9] [2;0;0;0;0;8] (mbuf_of icmp_frame) icmp_parsed)
    as (r & m' & H & H').
  - repeat split; vm_compute; try congruence. left. reflexivity.
  - reflexivity.
  - vm_compute. done.
  - vm_compute. done.
  - repeat split; vm_compute; congruence.
  - reflexivity.
  - apply frameb_frame. reflexivity.
  - reflexivity.
  - apply frameb_frame. reflexivity.
  - reflexivity.
  - exists r, m'. split; [exact H|]. vm_compute in H. injection H as <- _. reflexivity.
Defined.

End ForwardProps.
