(* ===== verification/Steering.v ===== *)
(** Worker selection: include/dataplane/steering.h, src/dataplane/steering.cpp,
    and the one-gateway route of include/net/route.h. *)
From S2P Require Import Prelude Types Mem Dpdk.

Module Route.
Record Route := mkRoute { netmask : IPv4Addr; network : IPv4Addr; gateway : IPv4Addr }.

Definition init (local_ip mask gw : IPv4Addr) : Route := mkRoute mask (Z.land local_ip mask) gw.
Definition on_link (r : Route) (ip : IPv4Addr) : bool :=
  (netmask r =? 0) || (Z.land ip (netmask r) =? network r).
Definition next_hop (r : Route) (dst : IPv4Addr) : IPv4Addr :=
  if on_link r dst then dst else gateway r.
End Route.

Module Steering.

Definition kMaxReta : Z := 512.
Definition kRssKeyLen : Z := 40.

Record Steering := mkSteering {
  hw_ : bool;
  tcp_l4_ : bool;
  udp_l4_ : bool;
  n_ : Z;
  reta_size_ : Z;
  reta_owner_ : list Z;
  key_be_ : list Z
}.

(** The default member initialisers. *)
Definition Steering0 : Steering :=
  mkSteering false false false 1 0 (replicate (Z.to_nat kMaxReta) 0)
    (replicate (Z.to_nat kRssKeyLen) 0).

Section Owner.
Context `{HF : RteHashFns}.

Definition init_sw (st : Steering) (num_workers : Z) : Steering :=
  mkSteering false false false (if num_workers =? 0 then 1 else num_workers)
    (reta_size_ st) (reta_owner_ st) (key_be_ st).

(** for (i = 0; i < reta_size && i < kMaxReta; ++i) reta_owner_[i] = reta[i] % n_; *)
Fixpoint fill_reta (i : nat) (reta : list Z) (n : Z) (owner : list Z) : list Z :=
  match reta with
  | [] => owner
  | q :: reta => fill_reta (S i) reta n (<[i := u16 (q mod n)]> owner)
  end.

Definition init_hw (st : Steering) (num_workers : Z) (rss_key reta : list Z)
    (reta_size : Z) (tcp_l4 udp_l4 : bool) : Steering :=
  mkSteering true tcp_l4 udp_l4 num_workers reta_size
    (fill_reta 0 (take (Z.to_nat (Z.min reta_size kMaxReta)) reta) num_workers (reta_owner_ st))
    (rte_convert_rss_key rss_key).

Definition l4_hashed (st : Steering) (proto : Z) : bool :=
  if proto =? 6 then tcp_l4_ st else udp_l4_ st.
Definition ret_by_rss (st : Steering) (proto : Z) : bool :=
  hw_ st && (if proto =? 6 then tcp_l4_ st else udp_l4_ st).
Definition port_step (st : Steering) (proto : Z) : Z :=
  if ret_by_rss st proto then 1 else n_ st.

Definition rss_hash (st : Steering) (t : FiveTuple) (l4 : bool) : Z :=
  let in0 := ntohl (src_ip t) in
  let in1 := ntohl (dst_ip t) in
  let in2 := Z.lor (u32 (Z.shiftl (ntohs (src_port t)) 16)) (ntohs (dst_port t)) in
  rte_softrss_be (if l4 then [in0; in1; in2] else [in0; in1]) (key_be_ st).

Definition by_reta (st : Steering) (h : Z) : Z :=
  if reta_size_ st =? 0 then u16 (h mod n_ st)
  else reta_owner_ st !!! Z.to_nat (h mod reta_size_ st).

Definition fwd_owner (st : Steering) (t : FiveTuple) : Z :=
  if n_ st =? 1 then 0
  else if negb (hw_ st) then
    let '(w0, w1, w2) := words t in
    u16 (rte_jhash_3words w0 w1 w2 19088743 mod n_ st)
  else by_reta st (rss_hash st t (l4_hashed st (protocol t))).

Definition ret_owner (st : Steering) (t : FiveTuple) : Z :=
  if n_ st =? 1 then 0
  else if negb (ret_by_rss st (protocol t)) then u16 (ntohs (dst_port t) mod n_ st)
  else by_reta st (rss_hash st t true).

End Owner.

(** *** Well-formedness: every table entry names a worker *)

Record steering_ok (st : Steering) : Prop := {
  so_n : 1 <= n_ st < 65536;
  so_size : 0 <= reta_size_ st <= kMaxReta;
  so_len : length (reta_owner_ st) = Z.to_nat kMaxReta;
  so_owner i : 0 <= i < reta_size_ st -> 0 <= reta_owner_ st !!! Z.to_nat i < n_ st
}.

Section Thms.
Context `{HF : RteHashFns} `{HL : !RteHashFnsLaws HF}.

Lemma fill_reta_spec i reta n owner j :
  1 <= n < 65536 -> (i + length reta <= length owner)%nat ->
  length (fill_reta i reta n owner) = length owner
  /\ (fill_reta i reta n owner !!! j =
      if decide (i <= j < i + length reta)%nat then (reta !!! (j - i)%nat) mod n else owner !!! j).
Proof.
  intros Hn. revert i owner. induction reta as [|q reta IH]; intros i owner Hl; simpl in *.
  { split; [done|]. by rewrite decide_False by lia. }
  destruct (IH (S i) (<[i:=u16 (q mod n)]> owner)) as [H1 H2]; [rewrite length_insert; lia|].
  rewrite H1, length_insert. split; [done|]. rewrite H2.
  pose proof (Z.mod_pos_bound q n ltac:(lia)).
  destruct (decide (j = i)) as [->|Hne].
  - rewrite decide_False by lia. rewrite decide_True by lia.
    rewrite list_lookup_total_insert_eq by lia. rewrite Nat.sub_diag. simpl.
    apply u16_id. zwrap. lia.
  - destruct (decide (S i <= j < S i + length reta)%nat).
    + rewrite decide_True by lia. destruct (j - i)%nat as [|k] eqn:E; [lia|].
      replace (j - S i)%nat with k by lia. done.
    + rewrite decide_False by lia. by rewrite list_lookup_total_insert_ne.
Qed.

Lemma init_sw_ok st nw :
  0 <= nw < 65536 -> 0 <= reta_size_ st <= kMaxReta -> length (reta_owner_ st) = Z.to_nat kMaxReta ->
  (forall i, 0 <= i < reta_size_ st -> reta_owner_ st !!! Z.to_nat i = 0) ->
  steering_ok (init_sw st nw).
Proof.
  intros Hn Hr Hl Ho. split; simpl; try done.
  - destruct (Z.eqb_spec nw 0); lia.
  - intros i Hi. rewrite Ho by done. destruct (Z.eqb_spec nw 0); lia.
Qed.

Lemma init_hw_ok st nw key reta size t u :
  1 <= nw < 65536 -> 0 <= size <= kMaxReta -> length reta = Z.to_nat size ->
  length (reta_owner_ st) = Z.to_nat kMaxReta ->
  steering_ok (init_hw st nw key reta size t u).
Proof.
  intros Hn Hs Hr Hl.
  assert (Hlen : length (take (Z.to_nat (Z.min size kMaxReta)) reta) = Z.to_nat size)
    by (rewrite length_take; unfold kMaxReta in *; lia).
  split; simpl; try done.
  - destruct (fill_reta_spec 0 (take (Z.to_nat (Z.min size kMaxReta)) reta) nw (reta_owner_ st) 0%nat)
      as [-> _]; [done|unfold kMaxReta in *; lia|done].
  - intros i Hi.
    destruct (fill_reta_spec 0 (take (Z.to_nat (Z.min size kMaxReta)) reta) nw (reta_owner_ st)
      (Z.to_nat i)) as [_ ->]; [done|unfold kMaxReta in *; lia|].
    rewrite decide_True by lia. apply Z.mod_pos_bound. lia.
Qed.

Lemma by_reta_range st h : steering_ok st -> 0 <= h -> 0 <= by_reta st h < n_ st.
Proof.
  intros [H1 H2 H3 H4] Hh. unfold by_reta. destruct (Z.eqb_spec (reta_size_ st) 0).
  - pose proof (Z.mod_pos_bound h (n_ st) ltac:(lia)). rewrite u16_id by (zwrap; lia). lia.
  - apply H4. apply Z.mod_pos_bound. lia.
Qed.

Lemma fwd_owner_range st t : steering_ok st -> 0 <= fwd_owner st t < n_ st.
Proof.
  intros Hok. pose proof Hok as [H1 _ _ _]. unfold fwd_owner.
  destruct (Z.eqb_spec (n_ st) 1); [lia|]. destruct (hw_ st); cbn [negb].
  - apply by_reta_range; [done|]. apply softrss_u32.
  - destruct (words t) as [[w0 w1] w2]. set (h := rte_jhash_3words _ _ _ _).
    pose proof (Z.mod_pos_bound h (n_ st) ltac:(lia)). rewrite u16_id by (zwrap; lia). lia.
Qed.

Lemma ret_owner_range st t : steering_ok st -> 0 <= ret_owner st t < n_ st.
Proof.
  intros Hok. pose proof Hok as [H1 _ _ _]. unfold ret_owner.
  destruct (Z.eqb_spec (n_ st) 1); [lia|]. destruct (ret_by_rss st (protocol t)); cbn [negb].
  - apply by_reta_range; [done|]. apply softrss_u32.
  - pose proof (Z.mod_pos_bound (ntohs (dst_port t)) (n_ st) ltac:(lia)).
    rewrite u16_id by (zwrap; lia). lia.
Qed.

End Thms.
End Steering.
