(* ===== verification/Scheduler.v ===== *)
(** Backend scheduling: include/lb/scheduler.h, src/lb/scheduler.cpp.

    The table is built in the control plane and read by the workers; the WRR
    cursors are the only mutable part, so [pick] returns the new scheduler. *)
From S2P Require Import Prelude Types Mem Dpdk.
From Stdlib Require Import SpecFloat.

Module Scheduler.

Inductive SchedulerType := WRR | MAGLEV.
#[export] Instance SchedulerType_eq_dec : EqDecision SchedulerType.
Proof. solve_decision. Defined.

Record SchedBackend := mkBackend { b_ip : IPv4Addr; b_port : Z; b_weight : Z }.

Record Scheduler := mkScheduler {
  type_ : SchedulerType;
  table_ : list Z;
  cursor_ : list Z
}.

Definition kMaglevSize : Z := 65537.
Definition kWrrMaxSeq : Z := 4096.

Definition zsum (l : list Z) : Z := foldr Z.add 0 l.

(** *** Smooth weighted round robin *)

(** The reduced weights and their sum. *)
Definition wrr_weights (b : list SchedBackend) : list Z * Z :=
  let w := b_weight <$> b in
  let total := u64 (zsum w) in
  let g := foldl Z.gcd 0 w in
  let w := (fun x => x / g) <$> w in
  let total := total / g in
  if total >? kWrrMaxSeq then
    let w := (fun x => if x =? 0 then x else Z.max 1 (u64 (x * kWrrMaxSeq) / total)) <$> w in
    (w, u64 (zsum w))
  else (w, total).

(** One round of the inner loop, from index [i] for [n] more backends. *)
Fixpoint wrr_scan (w : list Z) (n i best : nat) (cur : list Z) : nat * list Z :=
  match n with
  | O => (best, cur)
  | S n =>
    let cur := <[i := cur !!! i + w !!! i]> cur in
    let best := if negb (w !!! i =? 0) && ((w !!! best =? 0) || (cur !!! best <? cur !!! i))
                then i else best in
    wrr_scan w n (S i) best cur
  end.

(** The outer loop: [k] entries of the sequence. *)
Fixpoint wrr_rounds (k : nat) (w : list Z) (total : Z) (cur : list Z) : list Z :=
  match k with
  | O => []
  | S k =>
    let '(best, cur) := wrr_scan w (length w) 0 0 cur in
    let cur := <[best := cur !!! best - total]> cur in
    u16 (Z.of_nat best) :: wrr_rounds k w total cur
  end.

Definition build_wrr (b : list SchedBackend) : list Z :=
  let '(w, total) := wrr_weights b in
  wrr_rounds (Z.to_nat total) w total (replicate (length b) 0).

(** *** Maglev *)

(** double: IEEE 754 binary64. *)
Definition dbl := spec_float.
Definition d_of (z : Z) : dbl := binary_normalize 53 1024 z 0 false.
Definition d_add : dbl -> dbl -> dbl := SFadd 53 1024.
Definition d_sub : dbl -> dbl -> dbl := SFsub 53 1024.
Definition d_div : dbl -> dbl -> dbl := SFdiv 53 1024.

#[export] Instance dbl_inhabited : Inhabited dbl := populate (S754_zero false).

Record MaglevState := mkMaglev {
  mg_next : list Z;
  mg_credit : list dbl;
  mg_table : list Z;
  mg_filled : Z
}.

Definition kEmpty : Z := 65535.

Section Maglev.
Context `{HF : RteHashFns}.

Definition mg_offset (b : SchedBackend) : Z :=
  rte_jhash_32b [b_ip b; b_port b] 625341585 mod kMaglevSize.
Definition mg_skip (b : SchedBackend) : Z :=
  rte_jhash_32b [b_ip b; b_port b] 2050694237 mod (kMaglevSize - 1) + 1.

(** do { c = (offset + next * skip) % M; ++next; } while (table_[c] != kEmpty); *)
Fixpoint mg_probe (fuel : nat) (offset skip next : Z) (table : list Z) : option (Z * Z) :=
  match fuel with
  | O => None
  | S fuel =>
    let c := (offset + next * skip) mod kMaglevSize in
    let next := u32 (next + 1) in
    if table !!! Z.to_nat c =? kEmpty then Some (c, next)
    else mg_probe fuel offset skip next table
  end.

(** The body of the inner loop for backend [i]. *)
Definition mg_turn (max_w : Z) (i : nat) (b : SchedBackend) (s : MaglevState)
  : option MaglevState :=
  if b_weight b =? 0 then Some s
  else
    let credit := d_add (mg_credit s !!! i) (d_div (d_of (b_weight b)) (d_of max_w)) in
    if SFltb credit (d_of 1)
    then Some (mkMaglev (mg_next s) (<[i := credit]> (mg_credit s)) (mg_table s) (mg_filled s))
    else
      let credit := d_sub credit (d_of 1) in
      '(c, next) ← mg_probe (Z.to_nat kMaglevSize) (mg_offset b) (mg_skip b)
                     (mg_next s !!! i) (mg_table s);
      Some (mkMaglev (<[i := next]> (mg_next s)) (<[i := credit]> (mg_credit s))
              (<[Z.to_nat c := u16 (Z.of_nat i)]> (mg_table s)) (mg_filled s + 1)).

Fixpoint mg_round (max_w : Z) (i : nat) (bs : list SchedBackend) (s : MaglevState)
  : option MaglevState :=
  match bs with
  | [] => Some s
  | b :: bs =>
    if mg_filled s <? kMaglevSize then s ← mg_turn max_w i b s; mg_round max_w (S i) bs s
    else Some s
  end.

Fixpoint mg_fill (fuel : nat) (max_w : Z) (bs : list SchedBackend) (s : MaglevState)
  : option MaglevState :=
  if mg_filled s <? kMaglevSize then
    match fuel with
    | O => None
    | S fuel => s ← mg_round max_w 0 bs s; mg_fill fuel max_w bs s
    end
  else Some s.

Definition build_maglev (b : list SchedBackend) : option (list Z) :=
  let max_w := foldl (fun m x => Z.max m (b_weight x)) 0 b in
  let s := mkMaglev (replicate (length b) 0) (replicate (length b) (d_of 0))
             (replicate (Z.to_nat kMaglevSize) kEmpty) 0 in
  mg_table <$> mg_fill (Z.to_nat kMaglevSize) max_w b s.

(** *** The scheduler *)

(** [None]: the Maglev loops ran out of fuel. *)
Definition build (s : Scheduler) (type : SchedulerType) (backends : list SchedBackend)
  : option Scheduler :=
  if existsb (fun b => b_weight b >? 0) backends then
    table ← match type with
            | MAGLEV => build_maglev backends
            | WRR => Some (build_wrr backends)
            end;
    Some (mkScheduler type table
      (imap (fun i _ => u32 (Z.of_nat i * 7919)) (cursor_ s)))
  else Some (mkScheduler type [] (cursor_ s)).

(** A fresh scheduler has one zero cursor per lcore. *)
Definition Scheduler0 (max_lcore : nat) : Scheduler := mkScheduler WRR [] (replicate max_lcore 0).

Definition pick (s : Scheduler) (tuple : FiveTuple) (worker : Z) : Z * Scheduler :=
  if decide (table_ s = []) then (-1, s)
  else
    let size := Z.of_nat (length (table_ s)) in
    match type_ s with
    | MAGLEV =>
      let '(w0, w1, w2) := words tuple in
      let h := rte_jhash_3words w0 w1 w2 2654435769 in
      (table_ s !!! Z.to_nat (h mod size), s)
    | WRR =>
      let i := Z.to_nat (worker mod Z.of_nat (length (cursor_ s))) in
      let c := cursor_ s !!! i in
      (table_ s !!! Z.to_nat (c mod size),
       mkScheduler (type_ s) (table_ s) (<[i := u32 (c + 1)]> (cursor_ s)))
    end.

Definition distribution (s : Scheduler) (n_backends : nat) : list Z :=
  foldl (fun d i => if decide (Z.to_nat i < n_backends)%nat
                    then <[Z.to_nat i := u32 (d !!! Z.to_nat i + 1)]> d else d)
        (replicate n_backends 0) (table_ s).
End Maglev.

End Scheduler.
