(* ===== verification/SchedulerThms.v ===== *)
(** Smooth WRR hands out every backend exactly in proportion to its weight. *)
From S2P Require Import Prelude Types Mem Dpdk Scheduler.
Import Scheduler.

Module SchedulerThms.

(** *** Sums *)

Lemma zsum_cons x l : zsum (x :: l) = x + zsum l.
Proof. done. Qed.

Lemma zsum_app l k : zsum (l ++ k) = zsum l + zsum k.
Proof. induction l as [|x l IH]; simpl; [done|]. rewrite IH. lia. Qed.

Lemma zsum_insert l i x : (i < length l)%nat -> zsum (<[i := x]> l) = zsum l - l !!! i + x.
Proof.
  revert i. induction l as [|y l IH]; intros [|i] Hi; simpl in *; try lia.
  rewrite IH by lia. unfold lookup_total. simpl. lia.
Qed.

Lemma zsum_replicate n : zsum (replicate n 0) = 0.
Proof. induction n; simpl; lia. Qed.

Lemma zsum_zero l : Forall (fun x => 0 <= x) l -> zsum l = 0 ->
  forall i, (i < length l)%nat -> l !!! i = 0.
Proof.
  induction 1 as [|x l Hx Hl IH]; intros Hs i Hi; simpl in *; [lia|].
  assert (0 <= zsum l) by (clear -Hl; induction Hl; simpl; lia).
  destruct i; [simpl; lia|]. apply IH; lia.
Qed.

Lemma zsum_pos_ex l : 0 < zsum l -> exists i, (i < length l)%nat /\ 0 < l !!! i.
Proof.
  induction l as [|x l IH]; simpl; [lia|]. intros Hs.
  destruct (decide (0 < x)); [exists 0%nat; simpl; split; [lia|done]|].
  destruct IH as (i & Hi & Hp); [lia|]. exists (S i). split; [lia|done].
Qed.

Lemma lookup_total_pointwise (l k : list Z) :
  length l = length k -> (forall j, (j < length l)%nat -> l !!! j = k !!! j) -> l = k.
Proof.
  intros Hl H. apply list_eq. intros j. destruct (decide (j < length l)%nat).
  - rewrite !list_lookup_lookup_total_lt by lia. f_equal. auto.
  - by rewrite !lookup_ge_None_2 by lia.
Qed.

Lemma mult_low t d : 0 < t -> - t < t * d -> 0 <= d.
Proof. intros Ht H. destruct (Z.le_gt_cases 0 d); [done|]. assert (t * d <= t * -1) by nia. lia. Qed.

(** *** One round *)

Section Round.
Context (w : list Z).
Hypothesis Hw : Forall (fun x => 0 <= x) w.

Lemma w_nonneg i : 0 <= w !!! i.
Proof.
  destruct (decide (i < length w)%nat).
  - rewrite Forall_lookup in Hw. apply (Hw i). by apply list_lookup_lookup_total_lt.
  - rewrite list_lookup_total_alt, lookup_ge_None_2 by lia. done.
Qed.

(** State of the scan at index [i], started from [c]. *)
Record scan_inv (c : list Z) (i best : nat) (cur : list Z) : Prop := {
  si_len : length cur = length w;
  si_val j : (j < length w)%nat -> cur !!! j = c !!! j + (if decide (j < i)%nat then w !!! j else 0);
  si_best : (best < length w)%nat;
  si_ge : (best < i)%nat \/ best = 0%nat;
  si_max j : (j < i)%nat -> 0 < w !!! j -> 0 < w !!! best /\ cur !!! j <= cur !!! best
}.

Lemma scan_step c i best cur :
  scan_inv c i best cur -> (i < length w)%nat ->
  let cur' := <[i := cur !!! i + w !!! i]> cur in
  scan_inv c (S i)
    (if negb (w !!! i =? 0) && ((w !!! best =? 0) || (cur' !!! best <? cur' !!! i)) then i else best) cur'.
Proof.
  intros [L V B G M] Hi cur'. pose proof (w_nonneg i) as Hwi. pose proof (w_nonneg best) as Hwb.
  assert (Hcur : forall j, cur' !!! j = if decide (j = i) then cur !!! i + w !!! i else cur !!! j).
  { intros j. unfold cur'. case_decide as E.
    - subst j. by rewrite list_lookup_total_insert_eq by lia.
    - by rewrite list_lookup_total_insert_ne. }
  match goal with |- scan_inv _ _ ?x _ => set (b := x) end.
  assert (Hb : b = i /\ 0 < w !!! i /\ (w !!! best = 0 \/ cur' !!! best < cur' !!! i)
             \/ b = best /\ (w !!! i = 0 \/ (0 < w !!! best /\ cur' !!! i <= cur' !!! best))).
  { unfold b. destruct (Z.eqb_spec (w !!! i) 0), (Z.eqb_spec (w !!! best) 0),
      (Z.ltb_spec (cur' !!! best) (cur' !!! i)); simpl; [right|right|right|right|left|left|left|right];
      split; auto; try lia; split; try lia; auto. }
  split.
  - unfold cur'. by rewrite length_insert.
  - intros j Hj. rewrite Hcur. case_decide as E.
    + subst j. rewrite V by lia. rewrite decide_False by lia. rewrite decide_True by lia. lia.
    + rewrite V by lia. repeat case_decide; lia.
  - destruct Hb as [(-> & _)|(-> & _)]; lia.
  - destruct Hb as [(-> & _)|(-> & _)]; lia.
  - intros j Hj Hwj. destruct (decide (j = i)) as [->|Hne].
    + destruct Hb as [(-> & ? & _)|(-> & [?|?])]; [split; [done|lia]|lia|lia].
    + destruct (M j ltac:(lia) Hwj) as [M1 M2].
      assert (Hbi : best <> i).
      { destruct G as [?|E0]; [lia|]. intros ->. lia. }
      assert (Eb : cur' !!! best = cur !!! best) by (rewrite Hcur, decide_False by done; done).
      assert (Ej : cur' !!! j = cur !!! j) by (rewrite Hcur, decide_False by done; done).
      destruct Hb as [(-> & ? & [?|?])|(-> & _)]; [lia|split; lia|split; lia].
Qed.

Lemma scan_inv_end c n i best cur :
  scan_inv c i best cur -> (i + n = length w)%nat ->
  let '(best', cur') := wrr_scan w n i best cur in scan_inv c (length w) best' cur'.
Proof.
  revert i best cur. induction n as [|n IH]; intros i best cur Hinv Hn; cbn [wrr_scan].
  - by replace (length w) with i by lia.
  - apply IH; [|lia]. apply scan_step; [done|lia].
Qed.

Lemma scan_spec c :
  length c = length w -> (0 < length w)%nat ->
  let '(best, cur) := wrr_scan w (length w) 0 0 c in
  length cur = length w /\ (best < length w)%nat
  /\ (forall j, (j < length w)%nat -> cur !!! j = c !!! j + w !!! j)
  /\ (forall j, (j < length w)%nat -> 0 < w !!! j -> 0 < w !!! best /\ cur !!! j <= cur !!! best).
Proof.
  intros Hc Hl. pose proof (scan_inv_end c (length w) 0 0 c) as H.
  destruct (wrr_scan w (length w) 0 0 c) as [best cur].
  destruct H as [L V B G M]; [|lia|].
  - split; [done| |lia|by right|intros; lia]. intros. rewrite decide_False by lia. lia.
  - split_and!; try done. intros j Hj. rewrite V by done. by rewrite decide_True.
Qed.

(** *** The sequence *)

(** The current values between rounds. *)
Record cur_ok (total : Z) (cur : list Z) : Prop := {
  co_len : length cur = length w;
  co_sum : zsum cur = 0;
  co_low j : (j < length w)%nat -> - total < cur !!! j;
  co_idle j : (j < length w)%nat -> w !!! j = 0 -> cur !!! j = 0
}.

Lemma zsum_add a b c :
  length a = length b -> length c = length b ->
  (forall j, (j < length b)%nat -> c !!! j = a !!! j + b !!! j) -> zsum c = zsum a + zsum b.
Proof.
  revert a c. induction b as [|y b IH]; intros [|x a] [|z c] H1 H2 H; simpl in *; try lia.
  rewrite (IH a c); [|lia|lia|].
  - specialize (H 0%nat ltac:(lia)). simpl in H. lia.
  - intros j Hj. apply (H (S j)). lia.
Qed.

Lemma round_ok total cur :
  total = zsum w -> 0 < total -> cur_ok total cur ->
  let '(best, c1) := wrr_scan w (length w) 0 0 cur in
  let c2 := <[best := c1 !!! best - total]> c1 in
  cur_ok total c2 /\ (best < length w)%nat /\ 0 < w !!! best
  /\ forall j, (j < length w)%nat ->
     c2 !!! j = cur !!! j + w !!! j - (if decide (j = best) then total else 0).
Proof.
  intros Ht Hp [L S0 Lo Id].
  assert (Hlw : (0 < length w)%nat) by (destruct w; simpl in *; lia).
  pose proof (scan_spec cur L Hlw) as H.
  destruct (wrr_scan w (length w) 0 0 cur) as [best c1]. destruct H as (L1 & B & V & M).
  assert (Hs1 : zsum c1 = total) by (rewrite (zsum_add cur w c1) by (done || lia); lia).
  destruct (zsum_pos_ex c1 ltac:(lia)) as (p & Hpl & Hpp).
  assert (Hwp : 0 < w !!! p).
  { pose proof (w_nonneg p). destruct (decide (w !!! p = 0)) as [E|]; [|lia].
    rewrite V, (Id p ltac:(lia) E), E in Hpp by lia. lia. }
  destruct (M p ltac:(lia) Hwp) as [Hwb Hmax].
  set (c2 := <[best := c1 !!! best - total]> c1).
  assert (Hc2 : forall j, (j < length w)%nat ->
    c2 !!! j = cur !!! j + w !!! j - (if decide (j = best) then total else 0)).
  { intros j Hj. unfold c2. destruct (decide (j = best)) as [->|Hne].
    - rewrite list_lookup_total_insert_eq by lia. rewrite V by lia. lia.
    - rewrite list_lookup_total_insert_ne by done. rewrite V by lia. lia. }
  split; [|by split_and!]. split.
  - unfold c2. by rewrite length_insert.
  - unfold c2. rewrite zsum_insert by lia. lia.
  - intros j Hj. rewrite Hc2 by done. pose proof (w_nonneg j). specialize (Lo j Hj).
    case_decide as E; [|lia]. subst j. rewrite <- V by lia. lia.
  - intros j Hj Hwj. rewrite Hc2 by done. rewrite decide_False by (intros ->; lia).
    rewrite (Id j Hj Hwj). lia.
Qed.

(** How often [i] occurs. *)
Definition occurs (i : nat) (l : list Z) : Z := Z.of_nat (length (filter (fun x => x = Z.of_nat i) l)).

Lemma occurs_cons i x l : occurs i (x :: l) = occurs i l + (if decide (x = Z.of_nat i) then 1 else 0).
Proof.
  unfold occurs. rewrite filter_cons. case_decide; simpl; lia.
Qed.

Lemma rounds_ok total k cur :
  total = zsum w -> 0 < total -> Z.of_nat (length w) < 65536 -> cur_ok total cur ->
  exists cur', cur_ok total cur'
    /\ (forall j, (j < length w)%nat ->
        cur' !!! j = cur !!! j + Z.of_nat k * w !!! j - total * occurs j (wrr_rounds k w total cur))
    /\ length (wrr_rounds k w total cur) = k
    /\ Forall (fun x => exists i, x = Z.of_nat i /\ (i < length w)%nat /\ 0 < w !!! i)
         (wrr_rounds k w total cur).
Proof.
  intros Ht Hp Hl. revert cur. induction k as [|k IH]; intros cur Hc; cbn [wrr_rounds].
  - exists cur. split; [done|]. split; [|done]. intros j Hj. change (occurs j []) with 0. lia.
  - pose proof (round_ok total cur Ht Hp Hc) as H.
    destruct (wrr_scan w (length w) 0 0 cur) as [best c1]. destruct H as (Hc2 & Hb & Hwb & V).
    destruct (IH _ Hc2) as (cur' & H1 & H2 & H3 & H4).
    rewrite (u16_id (Z.of_nat best)) by (unfold is_u16; lia). exists cur'. split; [done|]. split; [|split].
    + intros j Hj. rewrite H2, V, occurs_cons by done.
      destruct (decide (j = best)) as [->|]; [rewrite decide_True by done; lia|].
      rewrite decide_False by lia. lia.
    + simpl. lia.
    + constructor; [eauto|done].
Qed.

(** A full period gives every backend exactly its weight. *)
Lemma period_exact total :
  total = zsum w -> 0 < total -> Z.of_nat (length w) < 65536 ->
  let t := wrr_rounds (Z.to_nat total) w total (replicate (length w) 0) in
  Z.of_nat (length t) = total
  /\ (forall j, (j < length w)%nat -> occurs j t = w !!! j)
  /\ Forall (fun x => exists i, x = Z.of_nat i /\ (i < length w)%nat /\ 0 < w !!! i) t.
Proof.
  intros Ht Hp Hl t.
  assert (H0 : cur_ok total (replicate (length w) 0)).
  { split.
    - by rewrite length_replicate.
    - apply zsum_replicate.
    - intros j Hj. rewrite lookup_total_replicate_2 by done. lia.
    - intros j Hj _. by rewrite lookup_total_replicate_2. }
  destruct (rounds_ok total (Z.to_nat total) _ Ht Hp Hl H0) as (cur' & [L Sz Lo _] & V & Hlen & Hall).
  fold t in V, Hlen, Hall. split; [lia|]. split; [|done].
  assert (Hv : forall j, (j < length w)%nat -> cur' !!! j = total * (w !!! j - occurs j t)).
  { intros j Hj. rewrite V by done. rewrite lookup_total_replicate_2 by done. lia. }
  assert (Hnn : Forall (fun x => 0 <= x) cur').
  { apply Forall_lookup. intros j x Hx. pose proof (lookup_lt_Some _ _ _ Hx).
    apply list_lookup_total_correct in Hx as <-. rewrite Hv by lia. specialize (Lo j ltac:(lia)).
    rewrite Hv in Lo by lia. apply Z.mul_nonneg_nonneg; [lia|]. by apply (mult_low total). }
  intros j Hj. pose proof (zsum_zero _ Hnn Sz j ltac:(lia)) as Hz. rewrite Hv in Hz by done.
  apply Z.mul_eq_0 in Hz. lia.
Qed.
End Round.

(** *** Reduced weights *)

Definition weights_ok (b : list SchedBackend) : Prop :=
  Forall (fun x => is_u32 (b_weight x)) b /\ Z.of_nat (length b) < 65536
  /\ existsb (fun x => b_weight x >? 0) b = true.

Lemma gcd_fold_divides l a : (foldl Z.gcd a l | a) /\ Forall (fun x => (foldl Z.gcd a l | x)) l.
Proof.
  revert a. induction l as [|x l IH]; intros a; cbn [foldl]; [split; [apply Z.divide_refl|constructor]|].
  destruct (IH (Z.gcd a x)) as [H1 H2]. split.
  - etransitivity; [exact H1|]. apply Z.gcd_divide_l.
  - constructor; [|done]. etransitivity; [exact H1|]. apply Z.gcd_divide_r.
Qed.

Lemma gcd_fold_nonneg l a : 0 <= a -> 0 <= foldl Z.gcd a l.
Proof. revert a. induction l as [|x l IH]; intros a Ha; simpl; [done|]. apply IH, Z.gcd_nonneg. Qed.

Lemma zsum_div g l :
  0 < g -> Forall (fun x => (g | x)) l -> zsum l / g = zsum ((fun x => x / g) <$> l)
  /\ (g | zsum l).
Proof.
  intros Hg. induction 1 as [|x l [k ->] Hl [IH1 IH2]]; rewrite ?fmap_cons, ?zsum_cons.
  - cbn. split; [apply Z.div_0_l; lia|apply Z.divide_0_r].
  - split; [|apply Z.divide_add_r; [apply Z.divide_factor_r|done]].
    rewrite Z.div_mul, <- IH1 by lia. rewrite Z.div_add_l by lia. done.
Qed.

Lemma zsum_nonneg l : Forall (fun x => 0 <= x) l -> 0 <= zsum l.
Proof. induction 1; simpl; lia. Qed.

Lemma zsum_bound l M : Forall (fun x => x <= M) l -> zsum l <= M * Z.of_nat (length l).
Proof. induction 1 as [|x l Hx Hl IH]; [simpl; lia|]. rewrite length_cons. cbn [zsum foldr]. fold (zsum l). lia. Qed.

Lemma zsum_ge l i : Forall (fun x => 0 <= x) l -> (i < length l)%nat -> l !!! i <= zsum l.
Proof.
  intros H. revert i. induction H as [|x l Hx Hl IH]; intros i Hi; simpl in *; [lia|].
  pose proof (zsum_nonneg l Hl). destruct i; simpl; [lia|]. specialize (IH i ltac:(lia)). lia.
Qed.

(** The common divisor and the reduced total. *)
Definition w_gcd (b : list SchedBackend) : Z := foldl Z.gcd 0 (b_weight <$> b).
Definition w_total (b : list SchedBackend) : Z := zsum (b_weight <$> b) / w_gcd b.

Lemma fmap_total_lt {A B} `{Inhabited A, Inhabited B} (f : A -> B) l i :
  (i < length l)%nat -> (f <$> l) !!! i = f (l !!! i).
Proof.
  intros Hi. destruct (lookup_lt_is_Some_2 l i Hi) as [x Hx].
  rewrite !list_lookup_total_alt, list_lookup_fmap, Hx. done.
Qed.

#[export] Instance backend_inhabited : Inhabited SchedBackend := populate (mkBackend 0 0 0).

Lemma weights_base b :
  weights_ok b ->
  let ws := b_weight <$> b in
  0 < w_gcd b /\ Forall (fun x => (w_gcd b | x)) ws /\ Forall (fun x => 0 <= x) ws
  /\ zsum ws < 18446744073709551616 /\ 0 < w_total b
  /\ w_total b = zsum ((fun x => x / w_gcd b) <$> ws)
  /\ (forall i, (i < length b)%nat -> 0 <= b_weight (b !!! i) < 4294967296).
Proof.
  intros (Hu & Hl & He) ws. apply List.existsb_exists in He as (x & Hx & Hpos).
  bprop. apply list_elem_of_In in Hx. rewrite Forall_forall in Hu.
  assert (Hd : Forall (fun x => (w_gcd b | x)) ws) by apply gcd_fold_divides.
  assert (Hnn : Forall (fun x => 0 <= x) ws).
  { apply Forall_fmap, Forall_forall. intros y Hy. apply (Hu y Hy). }
  assert (Hxw : b_weight x ∈ ws) by (by apply list_elem_of_fmap_2).
  assert (Hg : 0 < w_gcd b).
  { assert (Hn : 0 <= w_gcd b) by (apply gcd_fold_nonneg; lia).
    destruct (decide (w_gcd b = 0)) as [E|]; [|lia].
    rewrite Forall_forall in Hd. specialize (Hd _ Hxw). rewrite E in Hd.
    apply Z.divide_0_l in Hd. lia. }
  assert (Hub : zsum ws <= 4294967296 * Z.of_nat (length ws)).
  { apply zsum_bound, Forall_fmap, Forall_forall. intros y Hy. specialize (Hu y Hy). zwrap. simpl. lia. }
  unfold ws in Hub. rewrite length_fmap in Hub. fold ws in Hub.
  destruct (zsum_div (w_gcd b) ws Hg Hd) as [Ht Hdt].
  assert (Hpt : 0 < zsum ws).
  { apply list_elem_of_lookup in Hxw as [i Hi]. pose proof (lookup_lt_Some _ _ _ Hi) as Hil.
    pose proof (zsum_ge ws i Hnn Hil) as Hge. apply list_lookup_total_correct in Hi. lia. }
  split_and!; try done; try lia.
  - unfold w_total. fold ws. apply Z.div_str_pos. split; [done|]. by apply Z.divide_pos_le.
  - intros i Hi. by apply Hu, list_elem_of_lookup_total_2.
Qed.

(** The weights the sequence is built from. *)
Lemma wrr_weights_spec b :
  weights_ok b ->
  let '(w, total) := wrr_weights b in
  length w = length b /\ Forall (fun x => 0 <= x) w /\ total = zsum w /\ 0 < total
  /\ (forall i, (i < length b)%nat -> 0 < w !!! i <-> 0 < b_weight (b !!! i))
  /\ (forall i, (i < length b)%nat ->
        w !!! i = if w_total b <=? kWrrMaxSeq then b_weight (b !!! i) / w_gcd b
                  else if b_weight (b !!! i) =? 0 then 0
                  else Z.max 1 (b_weight (b !!! i) / w_gcd b * kWrrMaxSeq / w_total b)).
Proof.
  intros Hok. destruct (weights_base b Hok) as (Hg & Hd & Hnn & Hub & Htp & Hts & Hr).
  unfold wrr_weights. fold (w_gcd b). rewrite u64_id by (pose proof (zsum_nonneg _ Hnn); zwrap; lia).
  fold (w_total b). set (ws := b_weight <$> b) in *.
  assert (Hlen : length ws = length b) by apply length_fmap.
  assert (Hdiv : forall i, (i < length b)%nat -> 0 < b_weight (b !!! i) <-> 0 < b_weight (b !!! i) / w_gcd b).
  { intros i Hi. specialize (Hr i Hi). rewrite Forall_forall in Hd.
    assert (Hin : b_weight (b !!! i) ∈ ws) by (apply list_elem_of_fmap_2, list_elem_of_lookup_total_2; done).
    destruct (Hd _ Hin) as [k Hk]. rewrite Hk, Z.div_mul by lia. nia. }
  assert (Hw1 : forall i, (i < length b)%nat -> ((fun x => x / w_gcd b) <$> ws) !!! i = b_weight (b !!! i) / w_gcd b).
  { intros i Hi. rewrite fmap_total_lt by lia. unfold ws. by rewrite fmap_total_lt. }
  assert (Hn1 : Forall (fun x => 0 <= x) ((fun x => x / w_gcd b) <$> ws)).
  { apply Forall_fmap. eapply Forall_impl; [exact Hnn|]. intros x Hx. cbn beta in Hx. apply Z.div_pos; lia. }
  destruct (Z.gtb_spec (w_total b) kWrrMaxSeq) as [Hbig|Hsmall].
  - set (f := fun x => if x =? 0 then x else Z.max 1 (u64 (x * kWrrMaxSeq) / w_total b)).
    set (w2 := f <$> _). rewrite (proj2 (Z.leb_gt _ _) Hbig).
    assert (Hv : forall i, (i < length b)%nat -> w2 !!! i = if b_weight (b !!! i) =? 0 then 0
        else Z.max 1 (b_weight (b !!! i) / w_gcd b * kWrrMaxSeq / w_total b)).
    { intros i Hi. unfold w2. rewrite fmap_total_lt, Hw1 by (rewrite ?length_fmap; lia).
      specialize (Hr i Hi). specialize (Hdiv i Hi). unfold f.
      destruct (Z.eqb_spec (b_weight (b !!! i)) 0) as [E|E].
      - rewrite E, Z.div_0_l by lia. done.
      - destruct (Z.eqb_spec (b_weight (b !!! i) / w_gcd b) 0); [lia|].
        rewrite u64_id; [done|]. unfold kWrrMaxSeq. assert (b_weight (b !!! i) / w_gcd b <= b_weight (b !!! i)) by
          (apply Z.div_le_upper_bound; nia). zwrap. lia. }
    assert (Hn2 : Forall (fun x => 0 <= x) w2).
    { apply Forall_fmap. eapply Forall_impl; [exact Hn1|]. intros x Hx. cbn beta in Hx. unfold f, compose.
      destruct (x =? 0); [done|]. lia. }
    assert (Hl2 : length w2 = length b) by (unfold w2; rewrite !length_fmap; lia).
    assert (Hle2 : Forall (fun x => x <= 17592186044416) w2).
    { apply Forall_lookup. intros i x Hx. pose proof (lookup_lt_Some _ _ _ Hx) as Hi.
      apply list_lookup_total_correct in Hx as <-. rewrite Hv by lia. specialize (Hr i ltac:(lia)).
      destruct (_ =? 0); [lia|]. apply Z.max_lub; [lia|].
      apply Z.div_le_upper_bound; [lia|]. unfold kWrrMaxSeq.
      assert (b_weight (b !!! i) / w_gcd b <= b_weight (b !!! i)) by (apply Z.div_le_upper_bound; nia). nia. }
    assert (Hpos : forall i, (i < length b)%nat -> 0 < w2 !!! i <-> 0 < b_weight (b !!! i)).
    { intros i Hi. rewrite Hv by done. specialize (Hr i Hi).
      destruct (Z.eqb_spec (b_weight (b !!! i)) 0); lia. }
    assert (Hs2 : 0 < zsum w2).
    { destruct (zsum_pos_ex ((fun x => x / w_gcd b) <$> ws)) as (i & Hi & Hip); [lia|].
      rewrite length_fmap in Hi. rewrite Hw1 in Hip by lia.
      pose proof (zsum_ge w2 i Hn2 ltac:(lia)) as Hge.
      assert (0 < w2 !!! i) by (apply Hpos; [lia|]; apply Hdiv; lia). lia. }
    destruct Hok as (_ & Hbl & _). pose proof (zsum_bound w2 _ Hle2).
    rewrite u64_id by (zwrap; lia). split_and!; done.
  - rewrite (proj2 (Z.leb_le _ _) Hsmall). split_and!; try done.
    + rewrite length_fmap. done.
    + intros i Hi. rewrite Hw1 by done. symmetry. by apply Hdiv.
Qed.

Lemma build_wrr_spec b :
  weights_ok b ->
  let '(w, total) := wrr_weights b in
  Z.of_nat (length (build_wrr b)) = total
  /\ (forall i, (i < length b)%nat -> occurs i (build_wrr b) = w !!! i)
  /\ Forall (fun x => exists i, x = Z.of_nat i /\ (i < length b)%nat /\ 0 < b_weight (b !!! i))
       (build_wrr b).
Proof.
  intros Hok. pose proof (wrr_weights_spec b Hok) as H. unfold build_wrr.
  destruct (wrr_weights b) as [w total]. destruct H as (Hl & Hn & Ht & Hp & Hpos & _).
  pose proof Hok as (_ & Hbl & _). rewrite <- Hl.
  destruct (period_exact w Hn total Ht Hp ltac:(lia)) as (H1 & H2 & H3).
  split_and!; try done. eapply Forall_impl; [exact H3|]. intros x (i & -> & Hi & Hwi).
  exists i. split_and!; try done. apply Hpos; lia.
Qed.

End SchedulerThms.
