(* ===== verification/MaglevThms.v ===== *)
(** The Maglev table: construction ends, and fills every slot with a backend
    of non-zero weight.

    Two facts carry it.  A permutation [offset + j * skip mod 65537] visits
    every slot because 65537 is prime, so a turn that has credit always finds
    an empty slot.  The heaviest backend earns [w / w = 1.0] per round, exactly
    in binary64, so every round fills at least one slot. *)
From S2P Require Import Prelude Types Mem Dpdk Scheduler.
From Stdlib Require Import SpecFloat Znumtheory.
Import Scheduler.

Module MaglevThms.

(** ** The credit of the heaviest backend *)

Lemma digits_xO p n : Z.pos (digits2_pos (Pos.iter xO p n)) = Z.pos (digits2_pos p) + Z.pos n.
Proof.
  induction n as [|n IH] using Pos.peano_ind; [simpl; lia|].
  rewrite Pos.iter_succ. simpl. lia.
Qed.

Lemma digits_pow p : 2 ^ (Z.pos (digits2_pos p) - 1) <= Z.pos p.
Proof.
  induction p as [p IH|p IH|]; simpl digits2_pos; [| |done];
    (replace (Z.pos (Pos.succ (digits2_pos p)) - 1) with (Z.succ (Z.pos (digits2_pos p) - 1)) by lia);
    rewrite Z.pow_succ_r; lia.
Qed.

Lemma round_aux_exact m e :
  Z.pos (digits2_pos m) = 53 -> -1074 <= e <= 971 ->
  binary_round_aux 53 1024 false (Z.pos m) e loc_Exact = S754_finite false m e.
Proof.
  intros Hd He. unfold binary_round_aux, shr_fexp, fexp, emin, Zdigits2. rewrite Hd.
  replace (Z.max (53 + e - 53) (3 - 1024 - 53) - e) with 0 by lia. simpl shr.
  cbn [shr_m shr_record_of_loc loc_of_shr_record round_nearest_even Zdigits2]. rewrite Hd.
  replace (Z.max (53 + e - 53) (3 - 1024 - 53) - e) with 0 by lia. simpl shr.
  cbn [shr_m shr_record_of_loc]. by replace (e <=? 1024 - 53) with true by lia.
Qed.

(** A [uint32_t] is exact as a double. *)
Lemma d_of_finite w : 0 < w < 4294967296 -> ∃ m e, d_of w = S754_finite false m e.
Proof.
  intros Hw. destruct w as [|p|p]; [lia| |lia]. unfold d_of, binary_normalize, binary_round.
  set (d := Z.pos (digits2_pos p)).
  assert (d <= 32) as Hd.
  { pose proof (digits_pow p) as H. fold d in H. destruct (decide (d <= 32)); [done|].
    assert (2 ^ 32 <= 2 ^ (d - 1)) by (apply Z.pow_le_mono_r; lia). lia. }
  assert (0 < d) by (unfold d; lia).
  unfold shl_align, fexp, emin.
  replace (Z.max (d + 0 - 53) (3 - 1024 - 53) - 0) with (- (53 - d)) by lia.
  destruct (53 - d) as [|q|q] eqn:E; try lia. simpl (- Z.pos q).
  exists (Pos.iter xO p q), (Z.max (d + 0 - 53) (3 - 1024 - 53)).
  apply round_aux_exact; [rewrite digits_xO; fold d; lia | lia].
Qed.

Lemma d_div_self w : 0 < w < 4294967296 -> d_div (d_of w) (d_of w) = d_of 1.
Proof.
  intros (m & e & ->)%d_of_finite. unfold d_div, SFdiv, SFdiv_core_binary.
  replace (Zdigits2 (Z.pos m) + e - (Zdigits2 (Z.pos m) + e)) with 0 by lia.
  replace (e - e) with 0 by lia. change (Z.min (fexp 53 1024 0) 0) with (-53).
  change (0 - -53) with 53. cbv beta iota zeta.
  assert (Hq : Z.div_eucl (Z.shiftl (Z.pos m) 53) (Z.pos m) = (2 ^ 53, 0)).
  { pose proof (Z_div_mod (Z.shiftl (Z.pos m) 53) (Z.pos m) ltac:(lia)) as H.
    destruct (Z.div_eucl _ _) as [q r]. rewrite Z.shiftl_mul_pow2 in H by lia.
    assert (q = 2 ^ 53) by nia. f_equal; [done|]. nia. }
  rewrite Hq. unfold new_location, new_location_even, new_location_odd.
  destruct (Z.even _); reflexivity.
Qed.

Lemma credit_full w : 0 < w < 4294967296 ->
  d_add (d_of 0) (d_div (d_of w) (d_of w)) = d_of 1.
Proof. intros. by rewrite d_div_self. Qed.

(** ** 65537 is prime *)

Lemma small_divisor_free :
  forallb (fun d => negb (65537 mod d =? 0)) (seqZ 2 255) = true.
Proof. vm_compute. reflexivity. Qed.

Lemma maglev_prime d : 1 < d < 65537 -> ~ (d | 65537).
Proof.
  assert (S : ∀ d, 1 < d < 257 -> ~ (d | 65537)).
  { intros d' Hd [q Hq]. pose proof small_divisor_free as F. rewrite List.forallb_forall in F.
    specialize (F d'). rewrite <- list_elem_of_In, elem_of_seqZ in F.
    specialize (F ltac:(lia)). apply negb_true_iff, Z.eqb_neq in F.
    apply F. rewrite Hq. apply Z_mod_mult. }
  intros Hd [q Hq]. destruct (decide (d < 257)).
  - apply (S d); [lia|]. by exists q.
  - assert (1 < q < 257) by nia. apply (S q); [done|]. exists d. lia.
Qed.

Lemma coprime_skip s : 0 < s < 65537 -> Z.gcd 65537 s = 1.
Proof.
  intros Hs. pose proof (Z.gcd_nonneg 65537 s). pose proof (Z.gcd_divide_l 65537 s).
  pose proof (Z.gcd_divide_r 65537 s) as D. apply Z.divide_pos_le in D; [|lia].
  destruct (decide (Z.gcd 65537 s = 1)); [done|]. exfalso.
  assert (Z.gcd 65537 s <> 0) by (intros E; apply Z.gcd_eq_0_r in E; lia).
  eapply (maglev_prime (Z.gcd 65537 s)); [lia|done].
Qed.

(** The j-th slot of the permutation. *)
Definition perm (offset skip j : Z) : Z := (offset + j * skip) mod 65537.

Lemma perm_range o s j : 0 <= perm o s j < 65537.
Proof. apply Z.mod_pos_bound. lia. Qed.

(** Every slot is visited within one period. *)
Lemma perm_onto o s c :
  0 < s < 65537 -> 0 <= c < 65537 -> ∃ j, 0 <= j < 65537 /\ perm o s j = c.
Proof.
  intros Hs Hc. destruct (Z.gcd_bezout 65537 s 1 (coprime_skip s Hs)) as (a & b & Hab).
  exists (((c - o) * b) mod 65537). split; [apply Z.mod_pos_bound; lia|]. unfold perm.
  rewrite <- Zplus_mod_idemp_r, Zmult_mod_idemp_l, Zplus_mod_idemp_r.
  replace (o + (c - o) * b * s) with (c + (- (c - o) * a) * 65537) by nia.
  rewrite Z_mod_plus_full. by apply Z.mod_small.
Qed.

(** ** Counting the filled slots *)

Definition filled_slots (table : list Z) : Z := len (filter (fun x => x <> kEmpty) table).

Lemma filled_insert table c v :
  (c < length table)%nat -> table !!! c = kEmpty -> v <> kEmpty ->
  filled_slots (<[c := v]> table) = filled_slots table + 1.
Proof.
  intros Hc He Hv. unfold filled_slots, len.
  assert (table !! c = Some kEmpty) as Hl.
  { rewrite <- He. by apply list_lookup_lookup_total_lt. }
  rewrite <- (take_drop_middle table c _ Hl) at 2. rewrite insert_take_drop by done.
  rewrite !filter_app, !length_app, !filter_cons.
  rewrite decide_True by done. rewrite (decide_False (P := kEmpty <> kEmpty)) by naive_solver.
  simpl. lia.
Qed.

Lemma filled_le table : filled_slots table <= len table.
Proof. unfold filled_slots, len. pose proof (length_filter (fun x => x <> kEmpty) table). lia. Qed.

Lemma filled_all table : filled_slots table = len table <-> Forall (fun x => x <> kEmpty) table.
Proof.
  induction table as [|x l IH]; [done|]. pose proof (filled_le l). unfold filled_slots, len in *.
  rewrite filter_cons, Forall_cons. case_decide; simpl; [|naive_solver lia].
  rewrite <- IH. split; [split; [done|lia]|lia].
Qed.

Lemma filled_room table :
  filled_slots table < len table -> ∃ c, 0 <= c < len table /\ table !!! Z.to_nat c = kEmpty.
Proof.
  intros H. destruct (decide (Forall (fun x => x <> kEmpty) table)) as [E|E].
  - apply filled_all in E. lia.
  - apply not_Forall_Exists in E; [|apply _].
    apply Exists_exists in E as (x & Hx & E). apply list_elem_of_lookup in Hx as (c & Hc).
    pose proof (lookup_lt_Some _ _ _ Hc). exists (Z.of_nat c). rewrite Nat2Z.id. unfold len.
    split; [lia|]. rewrite (list_lookup_total_correct _ _ _ Hc).
    destruct (decide (x = kEmpty)); [done|]. by destruct E.
Qed.

Section Fill.
Context `{HF : RteHashFns}.
Context (bs : list SchedBackend) (max_w : Z).
Hypothesis Hlen : Z.of_nat (length bs) <= 65535.
Hypothesis Hmax : 0 < max_w < 4294967296.
Hypothesis Hheavy : ∃ b, b ∈ bs /\ b_weight b = max_w.

Definition names_backend (x : Z) : Prop :=
  ∃ i b, x = Z.of_nat i /\ bs !! i = Some b /\ b_weight b <> 0.

Record mg_ok (s : MaglevState) : Prop := {
  mo_table : len (mg_table s) = 65537;
  mo_next : length (mg_next s) = length bs;
  mo_credit : length (mg_credit s) = length bs;
  mo_filled : mg_filled s = filled_slots (mg_table s);
  mo_entry : ∀ x, x ∈ mg_table s -> x = kEmpty \/ names_backend x;
  mo_passed : ∀ i b, bs !! i = Some b -> 0 <= mg_next s !!! i /\
    ∀ j, 0 <= j < mg_next s !!! i ->
      mg_table s !!! Z.to_nat (perm (mg_offset b) (mg_skip b) j) <> kEmpty;
  mo_heavy : ∀ i b, bs !! i = Some b -> b_weight b = max_w -> mg_credit s !!! i = d_of 0
}.

Lemma skip_range b : 0 < mg_skip b < 65537.
Proof. unfold mg_skip, kMaglevSize. zlia. Qed.

(** The probe stops at the first empty slot of the permutation. *)
Lemma probe_first fuel o s n table :
  0 <= n -> n + Z.of_nat fuel < 4294967296 ->
  (∃ j, n <= j < n + Z.of_nat fuel /\ table !!! Z.to_nat (perm o s j) = kEmpty) ->
  ∃ k, n <= k < n + Z.of_nat fuel /\
    mg_probe fuel o s n table = Some (perm o s k, k + 1) /\
    table !!! Z.to_nat (perm o s k) = kEmpty /\
    ∀ j, n <= j < k -> table !!! Z.to_nat (perm o s j) <> kEmpty.
Proof.
  revert n. induction fuel as [|fuel IH]; intros n Hn Hb (j & Hj & He); [lia|].
  cbn [mg_probe]. fold (perm o s n). unfold kMaglevSize. change ((o + n * s) mod 65537) with (perm o s n).
  rewrite u32_id by zlia. destruct (Z.eqb_spec (table !!! Z.to_nat (perm o s n)) kEmpty) as [E|E].
  { exists n. split; [lia|]. split; [done|]. split; [done|lia]. }
  destruct (IH (n + 1)) as (k & Hk & Hf & Hem & Hlt); [lia|lia| |].
  { exists j. split; [|done]. destruct (decide (j = n)); [congruence|lia]. }
  exists k. split; [lia|]. split; [done|]. split; [done|]. intros i Hi.
  destruct (decide (i = n)) as [->|]; [done|]. apply Hlt. lia.
Qed.

Lemma probe_ok s i b :
  mg_ok s -> bs !! i = Some b -> mg_filled s < 65537 ->
  ∃ k, mg_next s !!! i <= k < 65537 /\
    mg_probe (Z.to_nat kMaglevSize) (mg_offset b) (mg_skip b) (mg_next s !!! i) (mg_table s)
    = Some (perm (mg_offset b) (mg_skip b) k, k + 1) /\
    mg_table s !!! Z.to_nat (perm (mg_offset b) (mg_skip b) k) = kEmpty /\
    ∀ j, 0 <= j < k -> mg_table s !!! Z.to_nat (perm (mg_offset b) (mg_skip b) j) <> kEmpty.
Proof.
  intros A Hb Hf. destruct (mo_passed _ A i b Hb) as [Hn Hp].
  destruct (filled_room (mg_table s)) as (c & Hc & He).
  { rewrite <- (mo_filled _ A), (mo_table _ A). done. }
  rewrite (mo_table _ A) in Hc.
  destruct (perm_onto (mg_offset b) (mg_skip b) c (skip_range b) Hc) as (j & Hj & Hjc).
  set (n := mg_next s !!! i) in *.
  assert (n <= j) by (destruct (decide (j < n)); [|lia]; exfalso; apply (Hp j); [lia|by rewrite Hjc]).
  destruct (probe_first (Z.to_nat kMaglevSize) (mg_offset b) (mg_skip b) n (mg_table s))
    as (k & Hk & Hpr & Hem & Hlt).
  - done.
  - unfold kMaglevSize. rewrite Z2Nat.id; lia.
  - exists j. unfold kMaglevSize. rewrite Z2Nat.id by lia. rewrite Hjc. split; [lia|done].
  - exists k. assert (k <= j).
    { destruct (decide (j < k)); [|lia]. exfalso. apply (Hlt j); [lia|by rewrite Hjc]. }
    split; [lia|]. split; [done|]. split; [done|]. intros i' Hi'.
    destruct (decide (i' < n)); [apply Hp; lia|apply Hlt; lia].
Qed.

Lemma u16_index i b : bs !! i = Some b -> u16 (Z.of_nat i) = Z.of_nat i /\ Z.of_nat i <> kEmpty.
Proof.
  intros H%lookup_lt_Some. unfold kEmpty. split; [apply u16_id; zlia|lia].
Qed.

Lemma elem_insert (l : list Z) c v x : x ∈ <[c := v]> l -> x = v \/ x ∈ l.
Proof.
  intros (k & Hk)%list_elem_of_lookup. apply list_lookup_insert_Some in Hk as [(_ & -> & _)|(_ & Hk)];
    [by left|right]. by apply list_elem_of_lookup_2 in Hk.
Qed.

(** Turns that earn no slot only change a credit. *)
Lemma wait_ok s i b c :
  mg_ok s -> bs !! i = Some b -> b_weight b <> max_w ->
  mg_ok (mkMaglev (mg_next s) (<[i := c]> (mg_credit s)) (mg_table s) (mg_filled s)).
Proof.
  intros [A1 A2 A3 A4 A5 A6 A7] Hb Hw. split; cbn; auto.
  - by rewrite length_insert.
  - intros i' b' Hb' Hw'. rewrite list_lookup_total_insert_ne; [by eapply A7|].
    intros ->. congruence.
Qed.

(** A turn that places backend [i] on the empty slot [perm k]. *)
Lemma place_ok s i b k c :
  mg_ok s -> bs !! i = Some b -> b_weight b <> 0 -> 0 <= k ->
  (b_weight b = max_w -> c = d_of 0) ->
  mg_table s !!! Z.to_nat (perm (mg_offset b) (mg_skip b) k) = kEmpty ->
  (∀ j, 0 <= j < k -> mg_table s !!! Z.to_nat (perm (mg_offset b) (mg_skip b) j) <> kEmpty) ->
  mg_ok (mkMaglev (<[i := k + 1]> (mg_next s)) (<[i := c]> (mg_credit s))
    (<[Z.to_nat (perm (mg_offset b) (mg_skip b) k) := u16 (Z.of_nat i)]> (mg_table s))
    (mg_filled s + 1)).
Proof.
  intros [A1 A2 A3 A4 A5 A6 A7] Hb Hw Hk Hc He Hlt.
  destruct (u16_index i b Hb) as [-> Hne]. pose proof (lookup_lt_Some _ _ _ Hb) as Hi.
  set (p := perm (mg_offset b) (mg_skip b) k) in *.
  pose proof (perm_range (mg_offset b) (mg_skip b) k) as Hp. fold p in Hp.
  unfold len in A1. assert (Hpl : (Z.to_nat p < length (mg_table s))%nat) by lia.
  assert (M : ∀ q, mg_table s !!! q <> kEmpty ->
            <[Z.to_nat p := Z.of_nat i]> (mg_table s) !!! q <> kEmpty).
  { intros q Hq. destruct (decide (Z.to_nat p = q)) as [<-|]; [congruence|].
    by rewrite list_lookup_total_insert_ne. }
  split; cbn.
  - unfold len. by rewrite length_insert.
  - by rewrite length_insert.
  - by rewrite length_insert.
  - by rewrite filled_insert, A4.
  - intros x [->|Hx]%elem_insert; [right|auto]. exists i, b. auto.
  - intros i' b' Hb'. destruct (decide (i = i')) as [<-|Hii].
    + replace b' with b by congruence. rewrite list_lookup_total_insert_eq by lia. split; [lia|].
      intros j Hj. destruct (decide (j = k)) as [->|]; [|apply M, Hlt; lia].
      fold p. by rewrite list_lookup_total_insert_eq.
    + rewrite list_lookup_total_insert_ne by done. destruct (A6 i' b' Hb'). split; [done|auto].
  - intros i' b' Hb' Hw'. destruct (decide (i = i')) as [<-|Hii].
    + replace b' with b in * by congruence. rewrite list_lookup_total_insert_eq by lia. auto.
    + rewrite list_lookup_total_insert_ne by done. by eapply A7.
Qed.

Lemma turn_ok s i b :
  mg_ok s -> bs !! i = Some b -> mg_filled s < 65537 ->
  ∃ s', mg_turn max_w i b s = Some s' /\ mg_ok s' /\ mg_filled s <= mg_filled s' /\
        (b_weight b = max_w -> mg_filled s < mg_filled s').
Proof.
  intros A Hb Hf. unfold mg_turn. destruct (Z.eqb_spec (b_weight b) 0) as [Hz|Hz].
  { exists s. split; [done|]. split; [done|]. lia. }
  destruct (decide (b_weight b = max_w)) as [Hw|Hw].
  - rewrite (mo_heavy _ A i b Hb Hw), Hw, credit_full by done.
    change (SFltb (d_of 1) (d_of 1)) with false. cbn [negb].
    destruct (probe_ok s i b A Hb Hf) as (k & Hk & -> & He & Hlt). cbn [mbind option_bind].
    destruct (mo_passed _ A i b Hb).
    eexists. split; [done|]. split; [apply place_ok; auto; lia|]. cbn. lia.
  - destruct (SFltb _ _).
    { eexists. split; [done|]. split; [by apply wait_ok with b|]. cbn. lia. }
    destruct (probe_ok s i b A Hb Hf) as (k & Hk & -> & He & Hlt). cbn [mbind option_bind].
    destruct (mo_passed _ A i b Hb).
    eexists. split; [done|]. split; [apply place_ok; auto; lia|]. cbn. lia.
Qed.

Lemma mg_round_ok i suf s :
  mg_ok s -> (∀ k b, suf !! k = Some b -> bs !! (i + k)%nat = Some b) ->
  ∃ s', mg_round max_w i suf s = Some s' /\ mg_ok s' /\ mg_filled s <= mg_filled s' /\
        (mg_filled s < 65537 -> (∃ b, b ∈ suf /\ b_weight b = max_w) -> mg_filled s < mg_filled s').
Proof.
  revert i s. induction suf as [|b suf IH]; intros i s A Hs.
  { exists s. split; [done|]. split; [done|]. split; [lia|]. intros _ (b0 & []%not_elem_of_nil & _). }
  cbn [mg_round]. unfold kMaglevSize. destruct (Z.ltb_spec (mg_filled s) 65537) as [Hf|Hf].
  2:{ exists s. split; [done|]. split; [done|]. lia. }
  pose proof (Hs 0%nat b eq_refl) as Hb. rewrite Nat.add_0_r in Hb.
  destruct (turn_ok s i b A Hb Hf) as (s1 & -> & A1 & Hle & Hgt). cbn [mbind option_bind].
  destruct (IH (S i) s1 A1) as (s2 & -> & A2 & Hle2 & Hgt2).
  { intros k b' Hk. specialize (Hs (S k) b' Hk). by rewrite Nat.add_succ_r in Hs. }
  exists s2. split; [done|]. split; [done|]. split; [lia|].
  intros _ (b' & Hin & Hw). apply elem_of_cons in Hin as [->|Hin].
  - specialize (Hgt Hw). lia.
  - destruct (decide (mg_filled s1 < 65537)); [|lia]. specialize (Hgt2 ltac:(lia)).
    assert (mg_filled s1 < mg_filled s2) by eauto. lia.
Qed.

Lemma fill_ok fuel s :
  mg_ok s -> 65537 - mg_filled s <= Z.of_nat fuel ->
  ∃ s', mg_fill fuel max_w bs s = Some s' /\ mg_ok s' /\ mg_filled s' = 65537.
Proof.
  revert s. induction fuel as [|fuel IH]; intros s A Hf; cbn [mg_fill]; unfold kMaglevSize;
    pose proof (filled_le (mg_table s)) as Hle; rewrite <- (mo_filled _ A), (mo_table _ A) in Hle.
  { replace (mg_filled s <? 65537) with false by lia. exists s. split; [done|]. split; [done|lia]. }
  destruct (Z.ltb_spec (mg_filled s) 65537); [|exists s; split; [done|]; split; [done|lia]].
  destruct (mg_round_ok 0 bs s A) as (s1 & -> & A1 & Hle1 & Hgt); [auto|]. cbn [mbind option_bind].
  apply IH; [done|]. specialize (Hgt ltac:(lia) Hheavy). lia.
Qed.

Lemma start_ok :
  mg_ok (mkMaglev (replicate (length bs) 0) (replicate (length bs) (d_of 0))
           (replicate (Z.to_nat kMaglevSize) kEmpty) 0).
Proof.
  split; cbn [mg_table mg_next mg_credit mg_filled].
  - unfold len, kMaglevSize. rewrite length_replicate. apply Z2Nat.id. lia.
  - apply length_replicate.
  - apply length_replicate.
  - unfold filled_slots, len. induction (Z.to_nat kMaglevSize) as [|n IH]; [done|].
    cbn [replicate]. rewrite filter_cons, decide_False; [done|naive_solver].
  - intros x [-> _]%elem_of_replicate. by left.
  - intros i b Hb%lookup_lt_Some. rewrite lookup_total_replicate_2 by done. split; lia.
  - intros i b Hb%lookup_lt_Some _. by rewrite lookup_total_replicate_2.
Qed.

End Fill.

Lemma max_fold_spec (l : list SchedBackend) m :
  Forall (fun b => 0 <= b_weight b < 4294967296) l -> 0 <= m < 4294967296 ->
  let r := foldl (fun m x => Z.max m (b_weight x)) m l in
  m <= r < 4294967296 /\ (r = m \/ ∃ b, b ∈ l /\ b_weight b = r) /\ Forall (fun b => b_weight b <= r) l.
Proof.
  revert m. induction l as [|b l IH]; intros m Hl Hm.
  { cbn. split; [lia|]. auto. }
  apply Forall_cons in Hl as [Hb Hl]. destruct (IH (Z.max m (b_weight b)) Hl ltac:(lia)) as (R & E & F).
  cbn [foldl]. split; [lia|]. split; [|constructor; [lia|done]].
  destruct E as [E|(b' & ? & ?)]; [|right; exists b'; split; [by right|done]].
  destruct (decide (m < b_weight b)); [right; exists b; split; [left|lia]|left; lia].
Qed.

(** Construction always ends; the table is full and names usable backends. *)
Lemma build_maglev_spec `{HF : RteHashFns} b :
  Z.of_nat (length b) <= 65535 -> Forall (fun x => 0 <= b_weight x < 4294967296) b ->
  Exists (fun x => 0 < b_weight x) b ->
  ∃ t, build_maglev b = Some t /\ len t = 65537 /\ Forall (names_backend b) t.
Proof.
  intros Hl Hw Hp. unfold build_maglev.
  destruct (max_fold_spec b 0 Hw ltac:(lia)) as (R & E & F).
  set (mw := foldl _ 0 b) in *.
  apply Exists_exists in Hp as (x & Hx & Hpos). rewrite Forall_forall in F. pose proof (F x Hx).
  destruct E as [E|E]; [lia|].
  destruct (fill_ok b mw Hl ltac:(lia) E (Z.to_nat kMaglevSize) _ (start_ok b mw ltac:(lia) E))
    as (s & -> & A & Hf).
  { cbn [mg_filled]. unfold kMaglevSize. rewrite Z2Nat.id; lia. }
  exists (mg_table s). split; [done|]. split; [apply A|].
  assert (Forall (fun y => y <> kEmpty) (mg_table s)) as N.
  { apply filled_all. by rewrite <- (mo_filled _ _ _ A), (mo_table _ _ _ A). }
  rewrite Forall_forall in N |- *. intros y Hy.
  destruct (mo_entry _ _ _ A y Hy) as [->|]; [by destruct (N _ Hy)|done].
Qed.

End MaglevThms.
