(* ===== verification/SchedulerProps.v ===== *)
(** Scheduling: what a built scheduler promises to the packet path. *)
From S2P Require Import Prelude Types Mem Dpdk Scheduler SchedulerThms MaglevThms.
Import Scheduler SchedulerThms MaglevThms.

Module SchedulerProps.

(** ** Building *)

(** Some backend has a positive weight, and sizes are those of the data types. *)
Lemma weights_ok_exists b :
  weights_ok b -> Exists (fun x => 0 < b_weight x) b.
Proof.
  intros (_ & _ & (x & Hx & Hp)%List.existsb_exists). apply Exists_exists. exists x.
  rewrite list_elem_of_In. split; [done|]. bprop. lia.
Qed.

Section Build.
Context `{HF : RteHashFns}.

(** What [build] leaves: a table of backends with positive weight, empty when
    there is none, one cursor per lcore. *)
Record built (max_lcore : nat) (ty : SchedulerType) (b : list SchedBackend) (s : Scheduler) : Prop := {
  bu_type : type_ s = ty;
  bu_cursors : length (cursor_ s) = max_lcore;
  bu_u32 : Forall is_u32 (cursor_ s);
  bu_names : Forall (fun x => ∃ i y, x = Z.of_nat i /\ b !! i = Some y /\ 0 < b_weight y) (table_ s);
  bu_empty : table_ s = [] <-> Forall (fun x => b_weight x = 0) b
}.

Lemma build_some ty b :
  Z.of_nat (length b) < 65536 -> Forall (fun x => is_u32 (b_weight x)) b ->
  existsb (fun x => b_weight x >? 0) b = true ->
  ∃ t, match ty with MAGLEV => build_maglev b | WRR => Some (build_wrr b) end = Some t /\
    t <> [] /\ Forall (fun x => ∃ i y, x = Z.of_nat i /\ b !! i = Some y /\ 0 < b_weight y) t.
Proof.
  intros Hl Hw He. assert (Hok : weights_ok b) by (split_and!; done). destruct ty.
  - pose proof (build_wrr_spec b Hok) as H. pose proof (wrr_weights_spec b Hok) as Hs.
    destruct (wrr_weights b) as [w total]. destruct H as (H1 & _ & H3). destruct Hs as (_ & _ & _ & Hp & _).
    eexists. split; [done|]. split.
    + intros E. rewrite E in H1. simpl in H1. lia.
    + eapply Forall_impl; [exact H3|]. intros x (i & -> & Hi & Hpos). exists i, (b !!! i).
      split; [done|]. split; [|done]. by apply list_lookup_lookup_total_lt.
  - destruct (build_maglev_spec b) as (t & Ht & Hlen & Hall); [lia|done|by apply weights_ok_exists|].
    exists t. split; [done|]. split; [by intros ->|].
    eapply Forall_impl; [exact Hall|]. intros x (i & y & -> & Hi & Hne). exists i, y.
    split; [done|]. split; [done|]. rewrite Forall_forall in Hw.
    specialize (Hw y (list_elem_of_lookup_2 _ _ _ Hi)). zwrap. lia.
Qed.

Lemma build_ok max_lcore ty b :
  Z.of_nat (length b) < 65536 -> Forall (fun x => is_u32 (b_weight x)) b ->
  ∃ s, build (Scheduler0 max_lcore) ty b = Some s /\ built max_lcore ty b s.
Proof.
  intros Hl Hw. unfold build. destruct (existsb _ b) eqn:He.
  - destruct (build_some ty b Hl Hw He) as (t & -> & Hne & Hall). cbn [mbind option_bind].
    eexists. split; [done|]. split; cbn [type_ table_ cursor_ Scheduler0]; [done| | |done|].
    + by rewrite length_imap, length_replicate.
    + apply Forall_lookup. intros i x. rewrite list_lookup_imap. intros (y & _ & ->)%fmap_Some.
      apply u32_is.
    + split; [done|]. intros F. apply List.existsb_exists in He as (x & Hx & Hp).
      rewrite Forall_forall in F. apply list_elem_of_In in Hx. rewrite (F x Hx) in Hp. done.
  - eexists. split; [done|]. split; cbn [type_ table_ cursor_ Scheduler0]; [done| | |done|].
    + by rewrite length_replicate.
    + apply Forall_replicate. zwrap. lia.
    + split; [intros _|done]. apply Forall_forall. intros x Hx. rewrite Forall_forall in Hw.
      specialize (Hw x Hx). destruct (decide (b_weight x = 0)); [done|]. exfalso.
      assert (existsb (fun x => b_weight x >? 0) b = true) as E; [|congruence].
      apply List.existsb_exists. exists x. rewrite <- list_elem_of_In. split; [done|]. zwrap. lia.
Qed.

(** ** Picking *)

Lemma pick_ok max_lcore ty b s tuple worker :
  built max_lcore ty b s -> (0 < max_lcore)%nat ->
  let '(r, s') := pick s tuple worker in
  built max_lcore ty b s' /\
  (r = -1 /\ Forall (fun x => b_weight x = 0) b
   \/ ∃ i y, r = Z.of_nat i /\ b !! i = Some y /\ 0 < b_weight y).
Proof.
  intros B Hm. unfold pick. case_decide as E.
  { split; [done|]. left. split; [done|]. by apply (bu_empty _ _ _ _ B). }
  assert (Hat : ∀ c, ∃ i y, table_ s !!! Z.to_nat (c mod Z.of_nat (length (table_ s))) = Z.of_nat i /\
                b !! i = Some y /\ 0 < b_weight y).
  { intros c. pose proof (bu_names _ _ _ _ B) as F. rewrite Forall_forall in F.
    apply F, list_elem_of_lookup_total_2.
    assert (length (table_ s) <> 0)%nat by (destruct (table_ s); simpl; done).
    pose proof (Z.mod_pos_bound c (Z.of_nat (length (table_ s)))). lia. }
  destruct (type_ s) eqn:T; [|destruct (words tuple) as [[w0 w1] w2]; auto].
  split; [|auto]. destruct B as [B1 B2 B3 B4 B5]. split; cbn [type_ table_ cursor_]; auto.
  - congruence.
  - by rewrite length_insert.
  - apply Forall_insert; [done|apply u32_is].
Qed.

(** The results of consecutive picks by one worker. *)
Fixpoint picks (s : Scheduler) (worker : Z) (ts : list FiveTuple) : list Z :=
  match ts with
  | [] => []
  | t :: ts => let '(r, s) := pick s t worker in r :: picks s worker ts
  end.

Definition cursor_of (s : Scheduler) (worker : Z) : Z :=
  cursor_ s !!! Z.to_nat (worker mod Z.of_nat (length (cursor_ s))).

Lemma picks_wrr s worker ts :
  type_ s = WRR -> table_ s <> [] -> cursor_ s <> [] -> 0 <= cursor_of s worker ->
  cursor_of s worker + len ts <= 4294967296 ->
  picks s worker ts
  = (fun c => table_ s !!! Z.to_nat (c mod Z.of_nat (length (table_ s))))
    <$> seqZ (cursor_of s worker) (len ts).
Proof.
  unfold len. revert s. induction ts as [|t ts IH]; intros s Ht Hn Hc H0 Hb; [done|].
  cbn [picks]. unfold pick. rewrite decide_False, Ht by done. fold (cursor_of s worker).
  set (i := Z.to_nat (worker mod Z.of_nat (length (cursor_ s)))).
  assert (Hi : (i < length (cursor_ s))%nat).
  { assert (length (cursor_ s) <> 0)%nat by (destruct (cursor_ s); simpl; done).
    pose proof (Z.mod_pos_bound worker (Z.of_nat (length (cursor_ s)))). unfold i. lia. }
  rewrite seqZ_cons by (simpl; lia). cbn [fmap list_fmap]. f_equal.
  destruct ts as [|t' ts]; [done|].
  set (s' := mkScheduler _ _ _).
  assert (E : cursor_of s' worker = cursor_of s worker + 1).
  { unfold cursor_of, s'. cbn [cursor_]. rewrite length_insert. fold i. fold (cursor_of s worker).
    change (cursor_ s !!! i) with (cursor_of s worker).
    rewrite list_lookup_total_insert_eq by done. apply u32_id. simpl in Hb. zwrap. lia. }
  rewrite IH; rewrite ?E; try done; try lia.
  - unfold s'. cbn [table_]. simpl length. f_equal. f_equal; lia.
  - unfold s'. cbn [cursor_]. intros F. apply (f_equal length) in F. rewrite length_insert in F.
    simpl in F. lia.
  - simpl in *. lia.
Qed.

(** The residues of [n] consecutive numbers are all residues. *)
Lemma seqZ_mod_perm c n : 0 < n -> (fun x => x mod n) <$> seqZ c n ≡ₚ seqZ 0 n.
Proof.
  intros Hn. apply NoDup_Permutation.
  - apply NoDup_fmap_2_strong; [|apply NoDup_seqZ]. intros x y Hx Hy E.
    apply elem_of_seqZ in Hx, Hy. rewrite (Z_div_mod_eq_full x n), (Z_div_mod_eq_full y n), E.
    assert (x / n = y / n) as ->; [|done].
    pose proof (Z_div_mod_eq_full x n). pose proof (Z_div_mod_eq_full y n).
    pose proof (Z.mod_pos_bound x n Hn). pose proof (Z.mod_pos_bound y n Hn). nia.
  - apply NoDup_seqZ.
  - intros r. rewrite elem_of_seqZ, list_elem_of_fmap. split.
    + intros (x & -> & _). pose proof (Z.mod_pos_bound x n Hn). lia.
    + intros Hr. exists (c + (r - c) mod n). split.
      * rewrite Zplus_mod_idemp_r. replace (c + (r - c)) with r by lia. symmetry. apply Z.mod_small. lia.
      * apply elem_of_seqZ. pose proof (Z.mod_pos_bound (r - c) n Hn). lia.
Qed.

Lemma table_seqZ (t : list Z) : (fun c => t !!! Z.to_nat c) <$> seqZ 0 (len t) = t.
Proof.
  apply list_eq. intros i. rewrite list_lookup_fmap. unfold len.
  destruct (decide (i < length t)%nat) as [Hi|Hi].
  - rewrite lookup_seqZ_lt by lia. cbn [fmap option_fmap option_map]. rewrite Z.add_0_l, Nat2Z.id. symmetry.
    by apply list_lookup_lookup_total_lt.
  - rewrite lookup_seqZ_ge by lia. symmetry. apply lookup_ge_None. lia.
Qed.

(** Picks of several workers, interleaved. *)
Fixpoint serve (s : Scheduler) (reqs : list (FiveTuple * Z)) : list Z :=
  match reqs with
  | [] => []
  | (t, worker) :: reqs => let '(r, s) := pick s t worker in r :: serve s reqs
  end.

Lemma serve_ok max_lcore ty b reqs s :
  built max_lcore ty b s -> (0 < max_lcore)%nat ->
  Forall (fun r => r = -1 /\ Forall (fun x => b_weight x = 0) b
                   \/ ∃ i y, r = Z.of_nat i /\ b !! i = Some y /\ 0 < b_weight y) (serve s reqs).
Proof.
  intros B Hm. revert s B. induction reqs as [|[t w] reqs IH]; intros s B; [constructor|].
  cbn [serve]. pose proof (pick_ok max_lcore ty b s t w B Hm) as H.
  destruct (pick s t w) as [r s']. destruct H as [B' Hr]. constructor; [done|by apply IH].
Qed.

(** The share of backend [i] in one period of the WRR sequence: the weight
    reduced by the gcd, scaled down (but never to 0) past 4096 entries. *)
Definition share (b : list SchedBackend) (i : nat) : Z :=
  let w := b_weight (b !!! i) / w_gcd b in
  if w_total b <=? kWrrMaxSeq then w
  else if b_weight (b !!! i) =? 0 then 0 else Z.max 1 (w * kWrrMaxSeq / w_total b).

(** C27. Every scheduler the control plane can build exists (both algorithms
    end), and whatever interleaving of workers then picks from it, each answer
    is the position of a backend with positive weight, or -1 exactly when no
    backend has one. *)
Theorem scheduler_picks_usable max_lcore ty b reqs :
  (0 < max_lcore)%nat -> Z.of_nat (length b) < 65536 ->
  Forall (fun x => is_u32 (b_weight x)) b ->
  ∃ s, build (Scheduler0 max_lcore) ty b = Some s /\
    Forall (fun r => r = -1 /\ Forall (fun x => b_weight x = 0) b
                     \/ ∃ i y, r = Z.of_nat i /\ b !! i = Some y /\ 0 < b_weight y)
           (serve s reqs).
Proof.
  intros Hm Hl Hw. destruct (build_ok max_lcore ty b Hl Hw) as (s & Hs & B).
  exists s. split; [done|]. by apply (serve_ok max_lcore ty b).
Qed.

(** C28. Smooth WRR is exact: as many consecutive picks of one worker as the
    sequence is long give every backend exactly its share, wherever the
    worker's cursor stands. *)
Theorem wrr_cycle_exact b s worker ts i :
  weights_ok b -> type_ s = WRR -> table_ s = build_wrr b -> cursor_ s <> [] ->
  0 <= cursor_of s worker -> cursor_of s worker + len ts <= 4294967296 ->
  len ts = len (table_ s) -> (i < length b)%nat ->
  occurs i (picks s worker ts) = share b i.
Proof.
  intros Hok Ht Htab Hc H0 Hb Hl Hi.
  pose proof (build_wrr_spec b Hok) as S. pose proof (wrr_weights_spec b Hok) as W.
  destruct (wrr_weights b) as [w total]. destruct S as (S1 & S2 & _), W as (_ & _ & _ & W1 & _ & W2).
  rewrite <- Htab in S1, S2. specialize (S2 i Hi). rewrite W2 in S2 by done. unfold share.
  rewrite <- S2. assert (table_ s <> []) by (intros E; rewrite E in S1; simpl in S1; lia).
  rewrite picks_wrr by done. unfold occurs. f_equal. rewrite Hl. unfold len.
  assert (P : (fun c => table_ s !!! Z.to_nat (c mod Z.of_nat (length (table_ s))))
              <$> seqZ (cursor_of s worker) (Z.of_nat (length (table_ s))) ≡ₚ table_ s).
  { transitivity ((fun c => table_ s !!! Z.to_nat c) <$> seqZ 0 (len (table_ s))).
    - unfold len. rewrite <- (seqZ_mod_perm (cursor_of s worker)) by lia.
      by rewrite <- list_fmap_compose.
    - by rewrite table_seqZ. }
  by rewrite P.
Qed.

(** C29. The Maglev construction ends for every set of at most 65535 backends,
    fills all 65537 slots, and puts only backends of non-zero weight there. *)
Theorem maglev_total_and_full b :
  Z.of_nat (length b) <= 65535 -> Forall (fun x => 0 <= b_weight x < 4294967296) b ->
  Exists (fun x => 0 < b_weight x) b ->
  ∃ t, build_maglev b = Some t /\ len t = 65537 /\ Forall (names_backend b) t.
Proof. apply build_maglev_spec. Qed.

End Build.

(** ** Witnesses *)

Definition three_backends : list SchedBackend :=
  [mkBackend 16777226 80 4; mkBackend 33554442 80 0; mkBackend 50331658 80 2].

Lemma scheduler_picks_usable_witness :
  ∃ s, build (HF := mix_fns) (Scheduler0 4) MAGLEV three_backends = Some s /\
    Forall (fun r => r = -1 /\ Forall (fun x => b_weight x = 0) three_backends
                     \/ ∃ i y, r = Z.of_nat i /\ three_backends !! i = Some y /\ 0 < b_weight y)
           (serve (HF := mix_fns) s [(FiveTuple_zero, 0); (FiveTuple_zero, 3)]).
Proof.
  apply (scheduler_picks_usable (HF := mix_fns) 4 MAGLEV three_backends); [lia|simpl; lia|].
  repeat constructor; simpl; zwrap; lia.
Defined.

Definition three_sched : Scheduler := mkScheduler WRR (build_wrr three_backends) [5; 7].
Definition three_tuples : list FiveTuple := [FiveTuple_zero; FiveTuple_zero; FiveTuple_zero].

Lemma three_backends_ok : weights_ok three_backends.
Proof. split_and!; [|simpl; lia|reflexivity]. repeat constructor; simpl; zwrap; lia. Qed.

Lemma wrr_cycle_exact_witness :
  occurs 0 (picks (HF := mix_fns) three_sched 1 three_tuples) = share three_backends 0.
Proof.
  apply (wrr_cycle_exact (HF := mix_fns) three_backends three_sched 1 three_tuples 0).
  - exact three_backends_ok.
  - reflexivity.
  - reflexivity.
  - discriminate.
  - vm_compute. congruence.
  - vm_compute. congruence.
  - vm_compute. reflexivity.
  - simpl. lia.
Defined.

Lemma maglev_total_and_full_witness :
  ∃ t, build_maglev (HF := mix_fns) three_backends = Some t /\ len t = 65537 /\
    Forall (names_backend three_backends) t.
Proof.
  apply (maglev_total_and_full (HF := mix_fns) three_backends).
  - simpl. lia.
  - repeat constructor; simpl; lia.
  - apply Exists_cons_hd. simpl. lia.
Defined.

End SchedulerProps.
