(* ===== verification/Config.v ===== *)
(** Configuration data and its validation: include/common/config.h and
    Config::validate of src/common/config.cpp.

    How the text of the file becomes an [LbConfig] is in ConfigText. *)
From S2P Require Import Prelude Types TcpState Mem Dpdk Scheduler.
From Stdlib Require Import String.
Import Tcp Scheduler.

Module Config.

Definition kNatPortMin : Z := 10000.
Definition kNatPortMax : Z := 60000.
Definition kHcPortMin : Z := 61000.
Definition kHcPortMax : Z := 61999.

Definition kMaxServices : Z := 64.
Definition kMaxRsPerService : Z := 256.
Definition kMaxLocalIps : Z := 64.

Record RsConf := mkRsConf {
  rc_ip : IPv4Addr;
  rc_port : Z;
  rc_weight : Z;
  rc_mac : MacAddr
}.

Record ServiceConf := mkServiceConf {
  sc_name : string;
  sc_vip : IPv4Addr;
  sc_port : Z;
  sc_proto : Z;
  sc_sched : SchedulerType;
  sc_rs : list RsConf
}.

Record HealthConf := mkHealthConf {
  hc_enabled : bool;
  hc_interval_ms : Z;
  hc_timeout_ms : Z;
  hc_fall : Z;
  hc_rise : Z
}.

Record LbConfig := mkLbConfig {
  c_mode : ForwardMode;
  c_max_sessions : Z;
  c_timeouts : TimeoutConf;
  c_toa : bool;
  c_strip_tcp_timestamp : bool;
  c_netmask : IPv4Addr;
  c_gateway : IPv4Addr;
  c_local_ips : list IPv4Addr;
  c_hc_src : IPv4Addr;
  c_health : HealthConf;
  c_services : list ServiceConf
}.

Definition set_local_ips (v : list IPv4Addr) (c : LbConfig) : LbConfig :=
  mkLbConfig (c_mode c) (c_max_sessions c) (c_timeouts c) (c_toa c) (c_strip_tcp_timestamp c)
    (c_netmask c) (c_gateway c) v (c_hc_src c) (c_health c) (c_services c).
Definition set_hc_src (v : IPv4Addr) (c : LbConfig) : LbConfig :=
  mkLbConfig (c_mode c) (c_max_sessions c) (c_timeouts c) (c_toa c) (c_strip_tcp_timestamp c)
    (c_netmask c) (c_gateway c) (c_local_ips c) v (c_health c) (c_services c).

Definition svc_key (s : ServiceConf) : IPv4Addr * Z * Z := (sc_vip s, sc_port s, sc_proto s).

Definition in_port_range (port lo hi : Z) : bool := (lo <=? port) && (port <=? hi).

(** The loop over the services: collects the keys and VIPs, stops at the
    first bad service. *)
Fixpoint validate_services (l : list ServiceConf) (vips : gset Z) (keys : gset (Z * Z * Z))
  : option (gset Z) :=
  match l with
  | [] => Some vips
  | svc :: l =>
    if decide (sc_rs svc = []) then None
    else if len (sc_rs svc) >? kMaxRsPerService then None
    else if decide (svc_key svc ∈ keys) then None
    else validate_services l ({[sc_vip svc]} ∪ vips) ({[svc_key svc]} ∪ keys)
  end.

(** [None]: validation failed.  The LIP and health-check source defaults are
    filled in. *)
Definition validate (c : LbConfig) : option LbConfig :=
  if decide (c_services c = []) then None
  else if len (c_services c) >? kMaxServices then None
  else
    vips ← validate_services (c_services c) ∅ ∅;
    let c := match c_mode c, c_local_ips c, c_services c with
             | NAT, [], s :: _ => set_local_ips [sc_vip s] c
             | _, _, _ => c
             end in
    if len (c_local_ips c) >? kMaxLocalIps then None
    else
      let c := match c_local_ips c with
               | ip :: _ => if c_hc_src c =? 0 then set_hc_src ip c else c
               | [] => c
               end in
      if hc_enabled (c_health c) && (c_hc_src c =? 0) then None
      else if bool_decide (c_mode c = DR) && bool_decide (c_hc_src c ∈ vips) then None
      else
        let locals := (list_to_set (c_local_ips c) : gset Z)
                      ∪ (if c_hc_src c =? 0 then ∅ else {[c_hc_src c]}) in
        if existsb (fun svc => bool_decide (sc_vip svc ∈ locals)
                      && in_port_range (sc_port svc) kNatPortMin kHcPortMax) (c_services c)
        then None
        else Some c.

(** *** What validation guarantees *)

Record config_ok (c : LbConfig) : Prop := {
  cf_services : 0 < len (c_services c) <= kMaxServices;
  cf_rs s : s ∈ c_services c -> 0 < len (sc_rs s) <= kMaxRsPerService;
  cf_keys : NoDup (svc_key <$> c_services c);
  cf_lips : len (c_local_ips c) <= kMaxLocalIps;
  cf_nat : c_mode c = NAT -> c_local_ips c <> [];
  cf_hc : hc_enabled (c_health c) = true -> c_hc_src c <> 0;
  cf_dr : c_mode c = DR -> forall s, s ∈ c_services c -> sc_vip s <> c_hc_src c;
  cf_ports s : s ∈ c_services c ->
    (sc_vip s ∈ c_local_ips c \/ (c_hc_src c <> 0 /\ sc_vip s = c_hc_src c)) ->
    sc_port s < kNatPortMin \/ kHcPortMax < sc_port s
}.

Lemma len_zero {A} (l : list A) : l <> [] -> 0 < len l.
Proof. destruct l; [done|]. unfold len. simpl. lia. Qed.

Lemma validate_services_ok l vips keys vips' :
  validate_services l vips keys = Some vips' ->
  (forall s, s ∈ l -> 0 < len (sc_rs s) <= kMaxRsPerService)
  /\ NoDup (svc_key <$> l) /\ (forall s, s ∈ l -> svc_key s ∉ keys)
  /\ forall v, v ∈ vips' <-> v ∈ vips \/ exists s, s ∈ l /\ sc_vip s = v.
Proof.
  revert vips keys. induction l as [|svc l IH]; intros vips keys; cbn [validate_services].
  { intros [= <-]. split_and!; [by intros s ?%elem_of_nil|constructor|by intros s ?%elem_of_nil|].
    intros v. split; [by left|]. intros [?|(s & ?%elem_of_nil & _)]; done. }
  destruct (decide (sc_rs svc = [])) as [|Hne]; [done|].
  destruct (Z.gtb_spec (len (sc_rs svc)) kMaxRsPerService) as [|Hle]; [done|].
  destruct (decide (svc_key svc ∈ keys)) as [|Hk]; [done|].
  intros H. apply IH in H as (H1 & H2 & H3 & H4). apply len_zero in Hne. split_and!.
  - intros s [->|Hs]%elem_of_cons; [lia|auto].
  - rewrite fmap_cons. constructor; [|done]. intros (s & Hs & Hin)%list_elem_of_fmap.
    apply (H3 s Hin). apply elem_of_union_l, elem_of_singleton. done.
  - intros s [->|Hs]%elem_of_cons; [done|]. intros Hin. apply (H3 s Hs), elem_of_union_r, Hin.
  - intros v. rewrite H4. split.
    + intros [[->%elem_of_singleton|?]%elem_of_union|(s & ? & <-)]; [right|by left|right].
      * exists svc. split; [apply elem_of_cons; by left|done].
      * exists s. split; [apply elem_of_cons; by right|done].
    + intros [?|(s & [->|Hs]%elem_of_cons & <-)].
      * left. by apply elem_of_union_r.
      * left. by apply elem_of_union_l, elem_of_singleton.
      * right. eauto.
Qed.

Lemma validate_ok c c' : validate c = Some c' -> config_ok c'.
Proof.
  unfold validate. destruct (decide (c_services c = [])) as [|Hne]; [done|].
  destruct (Z.gtb_spec (len (c_services c)) kMaxServices) as [|Hle]; [done|].
  destruct (validate_services (c_services c) ∅ ∅) as [vips|] eqn:Ev; [|done].
  apply validate_services_ok in Ev as (V1 & V2 & _ & V4). cbn [mbind option_bind].
  set (c1 := match c_mode c with NAT => _ | DR => c end).
  assert (E1 : c_services c1 = c_services c /\ c_mode c1 = c_mode c /\ c_health c1 = c_health c
    /\ (c_mode c = NAT -> c_local_ips c1 <> [])).
  { unfold c1. destruct (c_mode c) eqn:Em, (c_local_ips c) eqn:El, (c_services c) eqn:Es;
      split_and!; simpl; congruence. }
  destruct E1 as (S1 & M1 & H1 & N1). clearbody c1.
  destruct (Z.gtb_spec (len (c_local_ips c1)) kMaxLocalIps) as [|Hl]; [done|].
  set (c2 := match c_local_ips c1 with [] => c1 | _ => _ end).
  assert (E2 : c_services c2 = c_services c1 /\ c_mode c2 = c_mode c1 /\ c_health c2 = c_health c1
    /\ c_local_ips c2 = c_local_ips c1).
  { unfold c2. destruct (c_local_ips c1) eqn:El; [done|]. by destruct (c_hc_src c1 =? 0). }
  destruct E2 as (S2 & M2 & H2 & L2). clearbody c2.
  destruct (hc_enabled (c_health c2) && (c_hc_src c2 =? 0)) eqn:Eh; [done|].
  destruct (bool_decide (c_mode c2 = DR) && bool_decide (c_hc_src c2 ∈ vips)) eqn:Ed; [done|].
  destruct (existsb _ _) eqn:Ep; [done|]. intros [= <-].
  rewrite S2, S1 in Ep. split; rewrite ?S2, ?S1, ?M2, ?M1, ?H2, ?L2.
  - apply len_zero in Hne. lia.
  - done.
  - done.
  - done.
  - done.
  - intros He. rewrite H2 in Eh. rewrite He in Eh. bprop. destruct (Z.eqb_spec (c_hc_src c2) 0); done.
  - intros Hdr s Hs E. rewrite M2, M1, Hdr in Ed. rewrite bool_decide_eq_true_2 in Ed by done.
    simpl in Ed. bprop. apply Ed. apply V4. right. eauto.
  - intros s Hs Hloc. destruct (decide (sc_port s < kNatPortMin \/ kHcPortMax < sc_port s)) as [|Hin]; [done|].
    exfalso. match type of Ep with ?x = false => enough (x = true) by congruence end.
    apply List.existsb_exists. exists s. split; [by apply list_elem_of_In|].
    apply andb_true_iff. split.
    + apply bool_decide_eq_true. apply elem_of_union. rewrite elem_of_list_to_set, L2.
      destruct Hloc as [?|[Hnz ->]]; [by left|right].
      rewrite (proj2 (Z.eqb_neq _ _) Hnz). by apply elem_of_singleton.
    + unfold in_port_range. apply andb_true_iff. rewrite !Z.leb_le. lia.
Qed.

End Config.
