(* ===== verification/Snapshot.v ===== *)
(** Configuration snapshots: include/ctrl/snapshot.h, src/ctrl/snapshot.cpp.

    A [Snapshot] is immutable once built (the per-worker WRR cursors inside its
    schedulers apart), so pointers to its services and real servers are
    modelled by the values.  The manager's mutex and the RCU grace period of
    [publish] order concurrent readers and are not part of this sequential
    model. *)
From S2P Require Import Prelude Types TcpState Mem Dpdk Scheduler Config.
From Stdlib Require Import String.
Import Tcp Scheduler Config.

Module Snapshot.

Definition kMaxRsCounters : Z := 16384.
Definition kMaxRsId : Z := kMaxRsCounters.

Record RsState := mkRsState {
  r_id : Z;
  r_svc_idx : Z;
  r_ip : IPv4Addr;
  r_port_be : Port;
  r_port : Z;
  r_mac : MacAddr;
  r_weight : Z;
  r_enabled : bool;
  r_healthy : bool
}.

Definition usable (r : RsState) : bool := r_enabled r && r_healthy r.
Definition schedulable (r : RsState) : bool := usable r && (r_weight r >? 0).

Record Service := mkService {
  s_idx : Z;
  s_name : string;
  s_vip : IPv4Addr;
  s_port_be : Port;
  s_port : Z;
  s_proto : Z;
  s_rs : list RsState;
  s_sched : Scheduler
}.

Record Snapshot := mkSnapshot {
  version : Z;
  mode : ForwardMode;
  services : list Service;
  rs_pool : list RsState;
  rs_by_id : list (option RsState);
  local_ips : list IPv4Addr;
  hc_src : IPv4Addr;
  svc_slots_ : list Z;
  vips_ : list IPv4Addr;
  lips_ : list IPv4Addr;
  locals_ : list IPv4Addr
}.

Definition kSvcSlots : Z := 512.
Definition kAddrSlots : Z := 512.

Section Tables.
Context `{HF : RteHashFns}.

Definition svc_hash (vip : IPv4Addr) (port_be : Port) (proto : Z) : Z :=
  let k := Z.lor (Z.lor (u64 (Z.shiftl vip 24)) (u64 (Z.shiftl port_be 8))) proto in
  rte_hash_crc_8byte k 0.
Definition addr_hash (ip : IPv4Addr) : Z := rte_hash_crc_4byte ip 0.

(** i = (i + 1) & mask *)
Definition next_slot (i : Z) : Z := Z.land (u32 (i + 1)) (kAddrSlots - 1).

(** [None]: the probe loop did not end within [fuel] steps. *)
Fixpoint set_has_loop (fuel : nat) (set : list IPv4Addr) (ip : IPv4Addr) (i : Z) : option bool :=
  match fuel with
  | O => None
  | S fuel =>
    if set !!! Z.to_nat i =? ip then Some true
    else if set !!! Z.to_nat i =? 0 then Some false
    else set_has_loop fuel set ip (next_slot i)
  end.

Definition set_has (set : list IPv4Addr) (ip : IPv4Addr) : option bool :=
  set_has_loop (Z.to_nat kAddrSlots) set ip (Z.land (addr_hash ip) (kAddrSlots - 1)).

(** while (set[i] != 0) i = (i + 1) & mask; *)
Fixpoint find_free (fuel : nat) (free : Z -> bool) (i : Z) : option Z :=
  match fuel with
  | O => None
  | S fuel => if free i then Some i else find_free fuel free (next_slot i)
  end.

Definition set_add (set : list IPv4Addr) (ip : IPv4Addr) : option (list IPv4Addr) :=
  if ip =? 0 then Some set
  else
    present ← set_has set ip;
    if (present : bool) then Some set
    else
      i ← find_free (Z.to_nat kAddrSlots) (fun i => set !!! Z.to_nat i =? 0)
            (Z.land (addr_hash ip) (kAddrSlots - 1));
      Some (<[Z.to_nat i := ip]> set).

Fixpoint set_add_all (set : list IPv4Addr) (l : list IPv4Addr) : option (list IPv4Addr) :=
  match l with
  | [] => Some set
  | ip :: l => set ← set_add set ip; set_add_all set l
  end.

Definition svc_match (s : Service) (vip : IPv4Addr) (port_be : Port) (proto : Z) : bool :=
  (s_vip s =? vip) && (s_port_be s =? port_be) && (s_proto s =? proto).

#[export] Instance Service_inhabited : Inhabited Service :=
  populate (mkService 0 EmptyString 0 0 0 0 [] (mkScheduler WRR [] [])).

(** [Some None]: nullptr. *)
Fixpoint find_service_loop (fuel : nat) (slots : list Z) (svcs : list Service)
    (vip : IPv4Addr) (port_be : Port) (proto i : Z) : option (option Service) :=
  match fuel with
  | O => None
  | S fuel =>
    let idx := slots !!! Z.to_nat i in
    if idx <? 0 then Some None
    else
      let s := svcs !!! Z.to_nat idx in
      if svc_match s vip port_be proto then Some (Some s)
      else find_service_loop fuel slots svcs vip port_be proto (next_slot i)
  end.

Definition find_service (snap : Snapshot) (vip : IPv4Addr) (port_be : Port) (proto : Z)
  : option (option Service) :=
  find_service_loop (Z.to_nat kSvcSlots) (svc_slots_ snap) (services snap) vip port_be proto
    (Z.land (svc_hash vip port_be proto) (kSvcSlots - 1)).

Definition is_vip (snap : Snapshot) (ip : IPv4Addr) : option bool := set_has (vips_ snap) ip.
Definition is_lip (snap : Snapshot) (ip : IPv4Addr) : option bool := set_has (lips_ snap) ip.
Definition is_local (snap : Snapshot) (ip : IPv4Addr) : option bool := set_has (locals_ snap) ip.

(** Snapshot::rs *)
Definition rs (snap : Snapshot) (id : Z) : option RsState :=
  if id <? len (rs_by_id snap) then rs_by_id snap !!! Z.to_nat id else None.

(** The service loop of [index]. *)
Fixpoint index_services (svcs : list Service) (slots : list Z) : option (list Z) :=
  match svcs with
  | [] => Some slots
  | s :: svcs =>
    i ← find_free (Z.to_nat kSvcSlots) (fun i => slots !!! Z.to_nat i <? 0)
          (Z.land (svc_hash (s_vip s) (s_port_be s) (s_proto s)) (kSvcSlots - 1));
    index_services svcs (<[Z.to_nat i := s_idx s]> slots)
  end.

Definition index (snap : Snapshot) : option Snapshot :=
  slots ← index_services (services snap) (replicate (Z.to_nat kSvcSlots) (-1));
  let empty := replicate (Z.to_nat kAddrSlots) 0 in
  vips ← set_add_all empty (s_vip <$> services snap);
  lips ← set_add_all empty (local_ips snap);
  locals ← set_add_all empty ((s_vip <$> services snap) ++ local_ips snap ++ [hc_src snap]);
  Some (mkSnapshot (version snap) (mode snap) (services snap) (rs_pool snap) (rs_by_id snap)
          (local_ips snap) (hc_src snap) slots vips lips locals).

(** *** SnapshotManager *)

Record DesiredRs := mkDesiredRs {
  d_id : Z;
  d_conf : RsConf;
  d_enabled : bool;
  d_healthy : bool
}.

Record DesiredService := mkDesiredService {
  ds_conf : ServiceConf;
  ds_rs : list DesiredRs
}.

Record SnapshotManager := mkManager {
  mode_ : ForwardMode;
  local_ips_ : list IPv4Addr;
  hc_src_ : IPv4Addr;
  services_ : list DesiredService;
  next_rs_id_ : Z;
  version_ : Z;
  cur_ : option Snapshot
}.

Definition Manager0 : SnapshotManager := mkManager NAT [] 0 [] 1 0 None.

Definition with_services_ (v : list DesiredService) (m : SnapshotManager) : SnapshotManager :=
  mkManager (mode_ m) (local_ips_ m) (hc_src_ m) v (next_rs_id_ m) (version_ m) (cur_ m).

(** The RsState and the backend built from one desired real server. *)
Definition rs_state (svc_idx : Z) (d : DesiredRs) : RsState :=
  mkRsState (d_id d) svc_idx (rc_ip (d_conf d)) (htons (rc_port (d_conf d))) (rc_port (d_conf d))
    (rc_mac (d_conf d)) (rc_weight (d_conf d)) (d_enabled d) (d_healthy d).

Definition backend_of (r : RsState) : SchedBackend :=
  mkBackend (r_ip r) (r_port r) (if schedulable r then r_weight r else 0).

Definition ds_conf_sans_rs (c : ServiceConf) : ServiceConf :=
  mkServiceConf (sc_name c) (sc_vip c) (sc_port c) (sc_proto c) (sc_sched c) [].

Context (max_lcore : nat).

(** One service of [build]: its entry, and the pool and id table extended. *)
Definition build_service (i : nat) (ds : DesiredService) (by_id : list (option RsState))
  : option (Service * list RsState * list (option RsState)) :=
  let idx := u16 (Z.of_nat i) in
  let states := rs_state idx <$> ds_rs ds in
  sched ← build (Scheduler0 max_lcore) (sc_sched (ds_conf ds)) (backend_of <$> states);
  Some (mkService idx (sc_name (ds_conf ds)) (sc_vip (ds_conf ds)) (htons (sc_port (ds_conf ds)))
          (sc_port (ds_conf ds)) (sc_proto (ds_conf ds)) states sched,
        states,
        foldl (fun t r => <[Z.to_nat (r_id r) := Some r]> t) by_id states).

Fixpoint build_services (i : nat) (l : list DesiredService) (svcs : list Service)
    (pool : list RsState) (by_id : list (option RsState))
  : option (list Service * list RsState * list (option RsState)) :=
  match l with
  | [] => Some (svcs, pool, by_id)
  | ds :: l =>
    '(svc, states, by_id) ← build_service i ds by_id;
    build_services (S i) l (svcs ++ [svc]) (pool ++ states) by_id
  end.

Definition build_snapshot (m : SnapshotManager) : option Snapshot :=
  '(svcs, pool, by_id) ← build_services 0 (services_ m) [] []
                           (replicate (Z.to_nat (next_rs_id_ m)) None);
  index (mkSnapshot (version_ m) (mode_ m) svcs pool by_id (local_ips_ m) (hc_src_ m) [] [] [] []).

Definition publish (m : SnapshotManager) : option SnapshotManager :=
  let m := mkManager (mode_ m) (local_ips_ m) (hc_src_ m) (services_ m) (next_rs_id_ m)
             (u64 (version_ m + 1)) (cur_ m) in
  snap ← build_snapshot m;
  Some (mkManager (mode_ m) (local_ips_ m) (hc_src_ m) (services_ m) (next_rs_id_ m)
          (version_ m) (Some snap)).

(** Ids are handed out in configuration order. *)
Fixpoint number_rs (next : Z) (l : list RsConf) : list DesiredRs * Z :=
  match l with
  | [] => ([], next)
  | rc :: l =>
    let '(rest, next') := number_rs (u32 (next + 1)) l in
    (mkDesiredRs next rc true true :: rest, next')
  end.

Fixpoint number_services (next : Z) (l : list ServiceConf) : list DesiredService * Z :=
  match l with
  | [] => ([], next)
  | sc :: l =>
    let '(rs, next) := number_rs next (sc_rs sc) in
    let '(rest, next) := number_services next l in
    (mkDesiredService (ds_conf_sans_rs sc) rs :: rest, next)
  end.

Definition init (m : SnapshotManager) (cfg : LbConfig) : option SnapshotManager :=
  let '(svcs, next) := number_services (next_rs_id_ m) (c_services cfg) in
  publish (mkManager (c_mode cfg)
             (match c_mode cfg with NAT => c_local_ips cfg | DR => [] end)
             (c_hc_src cfg) (services_ m ++ svcs) next (version_ m) (cur_ m)).

(** The error strings of the control operations. *)
Inductive mgr_error :=
| NoSuchRs (id : Z) | WeightRange | NoSuchService (idx : Z) | TooManyRs
| RsExists (id : Z) | IdSpaceExhausted.

Fixpoint find_in (rs_id : Z) (l : list DesiredRs) : option DesiredRs :=
  match l with
  | [] => None
  | r :: l => if d_id r =? rs_id then Some r else find_in rs_id l
  end.

(** find_rs: the first match in service order. *)
Fixpoint find_rs (rs_id : Z) (l : list DesiredService) : option DesiredRs :=
  match l with
  | [] => None
  | ds :: l => match find_in rs_id (ds_rs ds) with Some r => Some r | None => find_rs rs_id l end
  end.

(** Assignment through the pointer [find_rs] returned. *)
Fixpoint update_in (rs_id : Z) (f : DesiredRs -> DesiredRs) (l : list DesiredRs)
  : list DesiredRs :=
  match l with
  | [] => []
  | r :: l => if d_id r =? rs_id then f r :: l else r :: update_in rs_id f l
  end.

Fixpoint update_rs (rs_id : Z) (f : DesiredRs -> DesiredRs) (l : list DesiredService)
  : list DesiredService :=
  match l with
  | [] => []
  | ds :: l =>
    match find_in rs_id (ds_rs ds) with
    | Some _ => mkDesiredService (ds_conf ds) (update_in rs_id f (ds_rs ds)) :: l
    | None => ds :: update_rs rs_id f l
    end
  end.

Definition set_conf_weight (w : Z) (r : DesiredRs) : DesiredRs :=
  mkDesiredRs (d_id r) (mkRsConf (rc_ip (d_conf r)) (rc_port (d_conf r)) w (rc_mac (d_conf r)))
    (d_enabled r) (d_healthy r).

(** [inr]: the operation succeeded. *)
Definition set_weight (m : SnapshotManager) (rs_id weight : Z) : mgr_error + SnapshotManager :=
  match find_rs rs_id (services_ m) with
  | None => inl (NoSuchRs rs_id)
  | Some _ =>
    if weight >? 65535 then inl WeightRange
    else inr (with_services_ (update_rs rs_id (set_conf_weight weight) (services_ m)) m)
  end.

Definition set_enabled (m : SnapshotManager) (rs_id : Z) (enabled : bool)
  : mgr_error + SnapshotManager :=
  match find_rs rs_id (services_ m) with
  | None => inl (NoSuchRs rs_id)
  | Some _ =>
    inr (with_services_ (update_rs rs_id
      (fun r => mkDesiredRs (d_id r) (d_conf r) enabled (d_healthy r)) (services_ m)) m)
  end.

Definition set_health (m : SnapshotManager) (rs_id : Z) (healthy : bool) : SnapshotManager :=
  match find_rs rs_id (services_ m) with
  | None => m
  | Some _ =>
    with_services_ (update_rs rs_id
      (fun r => mkDesiredRs (d_id r) (d_conf r) (d_enabled r) healthy) (services_ m)) m
  end.

Fixpoint find_addr (ip : IPv4Addr) (port : Z) (l : list DesiredRs) : option DesiredRs :=
  match l with
  | [] => None
  | r :: l => if (rc_ip (d_conf r) =? ip) && (rc_port (d_conf r) =? port) then Some r
              else find_addr ip port l
  end.

#[export] Instance DesiredService_inhabited : Inhabited DesiredService :=
  populate (mkDesiredService (mkServiceConf EmptyString 0 0 0 WRR []) []).

Definition add_rs (m : SnapshotManager) (svc_idx : Z) (rc : RsConf)
  : mgr_error + (Z * SnapshotManager) :=
  if svc_idx >=? len (services_ m) then inl (NoSuchService svc_idx)
  else
    let svc := services_ m !!! Z.to_nat svc_idx in
    if len (ds_rs svc) >=? kMaxRsPerService then inl TooManyRs
    else match find_addr (rc_ip rc) (rc_port rc) (ds_rs svc) with
    | Some r => inl (RsExists (d_id r))
    | None =>
      if next_rs_id_ m >=? kMaxRsId then inl IdSpaceExhausted
      else
        let id := next_rs_id_ m in
        let svc := mkDesiredService (ds_conf svc) (ds_rs svc ++ [mkDesiredRs id rc true true]) in
        inr (id, mkManager (mode_ m) (local_ips_ m) (hc_src_ m)
                   (<[Z.to_nat svc_idx := svc]> (services_ m)) (u32 (id + 1)) (version_ m) (cur_ m))
    end.

(** erase of the first match. *)
Fixpoint erase_in (rs_id : Z) (l : list DesiredRs) : list DesiredRs :=
  match l with
  | [] => []
  | r :: l => if d_id r =? rs_id then l else r :: erase_in rs_id l
  end.

Fixpoint erase_rs (rs_id : Z) (l : list DesiredService) : option (list DesiredService) :=
  match l with
  | [] => None
  | ds :: l =>
    match find_in rs_id (ds_rs ds) with
    | Some _ => Some (mkDesiredService (ds_conf ds) (erase_in rs_id (ds_rs ds)) :: l)
    | None => l' ← erase_rs rs_id l; Some (ds :: l')
    end
  end.

Definition del_rs (m : SnapshotManager) (rs_id : Z) : mgr_error + SnapshotManager :=
  match erase_rs rs_id (services_ m) with
  | Some l => inr (with_services_ l m)
  | None => inl (NoSuchRs rs_id)
  end.

End Tables.
End Snapshot.
