(* ===== verification/SnapshotThms.v ===== *)
(** The lookup tables of a snapshot and the identity of real servers.

    [find_free] is the probe loop shared by all three tables; the lookups are
    shown to be it with another stopping test, so one lemma on where it stops
    serves insertion and lookup. *)
From S2P Require Import Prelude Types TcpState Mem Dpdk Scheduler SchedulerThms Config Snapshot.
Import Tcp Scheduler Config Snapshot.

Module SnapshotThms.

(** ** Linear probing *)

Definition slot (start k : Z) : Z := (start + k) mod 512.

Lemma slot_range s k : 0 <= slot s k < 512.
Proof. unfold slot. apply Z.mod_pos_bound. lia. Qed.

Lemma next_slot_spec s k : next_slot (slot s k) = slot s (k + 1).
Proof.
  unfold next_slot, kAddrSlots. pose proof (slot_range s k).
  change (512 - 1) with (Z.ones 9). rewrite Z.land_ones by lia.
  rewrite u32_id by zlia. unfold slot.
  change (2 ^ 9) with 512. rewrite Zplus_mod_idemp_l. f_equal; lia.
Qed.

Lemma slot_start h : slot (Z.land h (512 - 1)) 0 = Z.land h (512 - 1).
Proof.
  unfold slot. rewrite Z.add_0_r, Z.mod_small; [done|].
  change (512 - 1) with (Z.ones 9). rewrite Z.land_ones by lia.
  apply Z.mod_pos_bound. lia.
Qed.

(** Every slot is on the probe sequence of every start. *)
Lemma slot_onto s i : 0 <= i < 512 -> slot s ((i - s) mod 512) = i.
Proof.
  intros. unfold slot. rewrite Zplus_mod_idemp_r. replace (s + (i - s)) with i by lia.
  by apply Z.mod_small.
Qed.

Lemma slot_inj s j k : 0 <= j < 512 -> 0 <= k < 512 -> slot s j = slot s k -> j = k.
Proof.
  unfold slot. intros Hj Hk E.
  assert (D : (j - k) mod 512 = 0).
  { replace (j - k) with ((s + j) - (s + k)) by lia. rewrite Zminus_mod, E, Z.sub_diag. done. }
  pose proof (Z_div_mod_eq_full (j - k) 512). lia.
Qed.

Lemma find_free_from fuel p s k :
  (∃ j, k <= j < k + Z.of_nat fuel /\ p (slot s j) = true) ->
  ∃ j, k <= j < k + Z.of_nat fuel /\ find_free fuel p (slot s k) = Some (slot s j) /\
       p (slot s j) = true /\ ∀ j', k <= j' < j -> p (slot s j') = false.
Proof.
  revert k. induction fuel as [|fuel IH]; intros k (j & Hj & Hp); [lia|].
  cbn [find_free]. destruct (p (slot s k)) eqn:E.
  { exists k. repeat split; try done; lia. }
  rewrite next_slot_spec. destruct (IH (k + 1)) as (j' & Hj' & Hf & Hp' & Hlt).
  { exists j. split; [|done]. destruct (decide (j = k)); [congruence|lia]. }
  exists j'. repeat split; try done; try lia.
  intros i Hi. destruct (decide (i = k)) as [->|]; [done|]. apply Hlt. lia.
Qed.

(** The loop stops at the first slot, in probe order, that passes the test. *)
Lemma find_free_first p h :
  (∃ i, 0 <= i < 512 /\ p i = true) ->
  ∃ k, 0 <= k < 512 /\
       find_free (Z.to_nat 512) p (Z.land h (512 - 1)) = Some (slot (Z.land h (512 - 1)) k) /\
       p (slot (Z.land h (512 - 1)) k) = true /\
       ∀ j, 0 <= j < k -> p (slot (Z.land h (512 - 1)) j) = false.
Proof.
  intros (i & Hi & Hp). set (s := Z.land h (512 - 1)).
  destruct (find_free_from (Z.to_nat 512) p s 0) as (k & Hk & Hf & Hp' & Hlt).
  { exists ((i - s) mod 512). rewrite Z2Nat.id, slot_onto by lia.
    pose proof (Z.mod_pos_bound (i - s) 512). split; [lia|done]. }
  rewrite Z2Nat.id in Hk by lia. unfold s in Hf at 1. rewrite slot_start in Hf. eauto.
Qed.

(** All slots probed before [i] are in use. *)
Definition probed (occ : Z -> bool) (s i : Z) : Prop :=
  ∀ k, 0 <= k < (i - s) mod 512 -> occ (slot s k) = true.

Lemma probed_slot occ s k :
  0 <= k < 512 -> (∀ j, 0 <= j < k -> occ (slot s j) = true) -> probed occ s (slot s k).
Proof.
  intros Hk H j Hj. apply H. unfold slot in Hj.
  rewrite Zminus_mod_idemp_l in Hj. replace (s + k - s) with k in Hj by lia.
  by rewrite Z.mod_small in Hj.
Qed.

Lemma probed_mono (occ occ' : Z -> bool) s i :
  (∀ j, occ j = true -> occ' j = true) -> probed occ s i -> probed occ' s i.
Proof. unfold probed. auto. Qed.

(** A lookup from the start of a stored key stops at an occupied slot, hence
    at a match. *)
Lemma probe_hit (occ hit : Z -> bool) h i :
  let s := Z.land h (512 - 1) in
  0 <= i < 512 -> probed occ s i -> occ i = true -> hit i = true ->
  ∃ j, 0 <= j < 512 /\ find_free (Z.to_nat 512) (fun i => hit i || negb (occ i)) s = Some j /\
       occ j = true /\ hit j = true.
Proof.
  intros s Hi Hpr Ho Hh.
  destruct (find_free_first (fun i => hit i || negb (occ i)) h) as (k & Hk & Hf & Hp & Hlt).
  { exists i. rewrite Hh. auto. }
  fold s in Hf, Hp, Hlt. exists (slot s k). pose proof (slot_range s k).
  assert (occ (slot s k) = true) as Hok.
  { set (d := (i - s) mod 512). pose proof (Z.mod_pos_bound (i - s) 512) as Hd.
    destruct (decide (k < d)) as [|Hge]; [by apply Hpr; lia|].
    destruct (decide (d < k)) as [Hlt'|].
    - specialize (Hlt d ltac:(unfold d in *; lia)). unfold d in Hlt. rewrite slot_onto in Hlt by done.
      by rewrite Hh in Hlt.
    - replace k with d by lia. unfold d. by rewrite slot_onto. }
  rewrite Hok, orb_false_r in Hp. repeat split; auto; lia.
Qed.

Lemma probe_miss (occ hit : Z -> bool) h :
  let s := Z.land h (512 - 1) in
  (∃ i, 0 <= i < 512 /\ occ i = false) -> (∀ i, 0 <= i < 512 -> occ i = true -> hit i = false) ->
  ∃ j, 0 <= j < 512 /\ find_free (Z.to_nat 512) (fun i => hit i || negb (occ i)) s = Some j /\
       occ j = false.
Proof.
  intros s (i & Hi & Ho) Hno.
  destruct (find_free_first (fun i => hit i || negb (occ i)) h) as (k & Hk & Hf & Hp & _).
  { exists i. rewrite Ho, orb_true_r. auto. }
  fold s in Hf, Hp. exists (slot s k). pose proof (slot_range s k). repeat split; auto; try lia.
  destruct (occ (slot s k)) eqn:E; [|done]. rewrite (Hno _ (slot_range s k) E) in Hp. done.
Qed.

(** Room: at most [n] slots are in use. *)
Definition fits (occ : Z -> bool) (n : nat) : Prop :=
  ∃ used : list Z, (length used <= n)%nat /\ ∀ i, 0 <= i < 512 -> occ i = true -> i ∈ used.

Lemma fits_room occ n : fits occ n -> Z.of_nat n < 512 -> ∃ i, 0 <= i < 512 /\ occ i = false.
Proof.
  intros (used & Hl & Hu) Hn.
  destruct (decide (Exists (fun i => occ i = false) (seqZ 0 512))) as [E|E].
  { apply Exists_exists in E as (i & Hi & Ho). apply elem_of_seqZ in Hi. exists i. split; [lia|done]. }
  exfalso. assert (seqZ 0 512 ⊆+ used) as Hsub.
  { apply NoDup_submseteq; [apply NoDup_seqZ|]. intros i Hi. apply elem_of_seqZ in Hi as Hr.
    apply Hu; [lia|]. destruct (occ i) eqn:Ho; [done|]. exfalso. apply E, Exists_exists. eauto. }
  apply submseteq_length in Hsub. rewrite length_seqZ in Hsub. lia.
Qed.

Lemma fits_add occ occ' n i :
  fits occ n -> (∀ j, 0 <= j < 512 -> occ' j = true -> occ j = true \/ j = i) -> fits occ' (S n).
Proof.
  intros (used & Hl & Hu) H. exists (i :: used). split; [simpl; lia|].
  intros j Hj Ho. destruct (H j Hj Ho) as [| ->]; [right; auto|left].
Qed.

Lemma fits_le occ n m : fits occ n -> (n <= m)%nat -> fits occ m.
Proof. intros (used & ? & ?) ?. exists used. split; [lia|done]. Qed.

Lemma insert_at {A} `{Inhabited A} (l : list A) i j v :
  len l = 512 -> 0 <= i < 512 -> 0 <= j < 512 ->
  <[Z.to_nat i := v]> l !!! Z.to_nat j = if decide (i = j) then v else l !!! Z.to_nat j.
Proof.
  intros Hl Hi Hj. unfold len in Hl. case_decide as E.
  - subst. apply list_lookup_total_insert_eq. lia.
  - apply list_lookup_total_insert_ne. lia.
Qed.

Section Tables.
Context `{HF : RteHashFns}.

(** ** Address sets *)

Definition in_use (set : list IPv4Addr) (i : Z) : bool := negb (set !!! Z.to_nat i =? 0).
Definition addr_start (ip : IPv4Addr) : Z := Z.land (addr_hash ip) (512 - 1).

(** [set] holds exactly the non-zero addresses of [l]. *)
Record addr_ok (set l : list IPv4Addr) : Prop := {
  ao_len : len set = 512;
  ao_in : ∀ x, x <> 0 -> x ∈ l -> ∃ i, 0 <= i < 512 /\ set !!! Z.to_nat i = x;
  ao_from : ∀ i, 0 <= i < 512 -> set !!! Z.to_nat i <> 0 -> set !!! Z.to_nat i ∈ l;
  ao_probed : ∀ i, 0 <= i < 512 -> set !!! Z.to_nat i <> 0 ->
    probed (in_use set) (addr_start (set !!! Z.to_nat i)) i;
  ao_fits : fits (in_use set) (length l)
}.

Lemma set_has_loop_find fuel set ip i :
  set_has_loop fuel set ip i
  = (fun j => set !!! Z.to_nat j =? ip) <$>
    find_free fuel (fun j => (set !!! Z.to_nat j =? ip) || negb (in_use set j)) i.
Proof.
  revert i. induction fuel as [|fuel IH]; intros i; cbn -[Z.to_nat]; [done|].
  unfold in_use at 1. rewrite negb_involutive.
  destruct (_ =? ip) eqn:E; cbn -[Z.to_nat]; [by rewrite E|].
  destruct (_ =? 0); cbn -[Z.to_nat]; [by rewrite E|]. apply IH.
Qed.

(** The membership test: exact but for the address 0, which it finds in the
    empty slots. *)
Lemma set_has_exact set l ip :
  addr_ok set l -> Z.of_nat (length l) < 512 ->
  set_has set ip = Some (bool_decide (ip = 0 \/ ip ∈ l)).
Proof.
  intros A Hl. unfold set_has, kAddrSlots. rewrite set_has_loop_find. fold (addr_start ip).
  destruct (decide (ip <> 0 /\ ip ∈ l)) as [[Hz Hi]|Hn].
  - destruct (ao_in _ _ A ip Hz Hi) as (i & Hr & Hs).
    destruct (probe_hit (in_use set) (fun j => set !!! Z.to_nat j =? ip) (addr_hash ip) i)
      as (j & _ & Hf & _ & Hj); [done|..].
    + rewrite <- Hs. apply (ao_probed _ _ A); [done|congruence].
    + unfold in_use. rewrite Hs. apply negb_true_iff, Z.eqb_neq. done.
    + by apply Z.eqb_eq.
    + fold (addr_start ip) in Hf. rewrite Hf. cbn -[Z.to_nat]. rewrite Hj, bool_decide_true; auto.
  - destruct (probe_miss (in_use set) (fun j => set !!! Z.to_nat j =? ip) (addr_hash ip))
      as (j & Hj & Hf & Ho).
    + eapply fits_room; [apply A|done].
    + intros i Hr Ho. apply Z.eqb_neq. intros Hs. unfold in_use in Ho. bprop. apply Hn.
      rewrite <- Hs. split; [done|by apply A].
    + fold (addr_start ip) in Hf. rewrite Hf. cbn -[Z.to_nat]. unfold in_use in Ho. bprop.
      rewrite Ho. f_equal. clear -Hn. destruct (Z.eqb_spec 0 ip) as [E|E]; symmetry.
      * apply bool_decide_true. by left.
      * apply bool_decide_false. intros [?|?]; [lia|]. apply Hn. split; [lia|done].
Qed.

Lemma in_use_insert set i ip j :
  len set = 512 -> 0 <= i < 512 -> 0 <= j < 512 -> ip <> 0 ->
  in_use (<[Z.to_nat i := ip]> set) j = if decide (i = j) then true else in_use set j.
Proof.
  intros. unfold in_use. rewrite insert_at by done. case_decide; [|done].
  by apply negb_true_iff, Z.eqb_neq.
Qed.

Lemma addr_ok_weaken set l ip :
  addr_ok set l -> ip = 0 \/ ip ∈ l -> addr_ok set (l ++ [ip]).
Proof.
  intros [A1 A2 A3 A4 A5] H. split; auto.
  - intros x Hx [| ->%list_elem_of_singleton]%elem_of_app; [auto|]. destruct H; [done|auto].
  - intros. apply elem_of_app. auto.
  - eapply fits_le; [done|]. rewrite length_app. lia.
Qed.

Lemma addr_ok_store set l ip i :
  addr_ok set l -> ip <> 0 -> 0 <= i < 512 -> in_use set i = false ->
  probed (in_use set) (addr_start ip) i ->
  addr_ok (<[Z.to_nat i := ip]> set) (l ++ [ip]).
Proof.
  intros [A1 A2 A3 A4 A5] Hz Hi Hfree Hpr.
  assert (M : ∀ j, 0 <= j < 512 -> in_use set j = true -> in_use (<[Z.to_nat i := ip]> set) j = true).
  { intros j Hj Ho. rewrite in_use_insert by done. by case_decide. }
  assert (P : ∀ s j, probed (in_use set) s j -> probed (in_use (<[Z.to_nat i := ip]> set)) s j).
  { intros s j H k Hk. apply M; [apply slot_range|auto]. }
  unfold in_use in Hfree. bprop. split.
  - unfold len in *. by rewrite length_insert.
  - intros x Hx [Hin|E]%elem_of_app.
    + destruct (A2 x Hx Hin) as (j & Hj & Hs). exists j. split; [done|].
      rewrite insert_at by done. case_decide; [congruence|done].
    + apply list_elem_of_singleton in E as ->. exists i. split; [done|]. rewrite insert_at by done.
      by case_decide.
  - intros j Hj. rewrite insert_at by done. rewrite elem_of_app, list_elem_of_singleton.
    case_decide; auto.
  - intros j Hj. rewrite insert_at by done. case_decide as E; [subst; auto|auto].
  - rewrite length_app, Nat.add_1_r. apply (fits_add (in_use set) _ _ i); [done|].
    intros j Hj Ho. rewrite in_use_insert in Ho by done. case_decide; auto.
Qed.

Lemma set_add_ok set l ip :
  addr_ok set l -> Z.of_nat (length l) < 512 ->
  ∃ set', set_add set ip = Some set' /\ addr_ok set' (l ++ [ip]).
Proof.
  intros A Hl. unfold set_add. destruct (Z.eqb_spec ip 0) as [->|Hz].
  { exists set. split; [done|]. apply addr_ok_weaken; auto. }
  rewrite (set_has_exact set l) by done. cbn -[Z.to_nat find_free].
  case_bool_decide as Hin.
  { exists set. split; [done|]. by apply addr_ok_weaken. }
  destruct (find_free_first (fun i => set !!! Z.to_nat i =? 0) (addr_hash ip))
    as (k & Hk & Hf & Hp & Hlt).
  { destruct (fits_room _ _ (ao_fits _ _ A) Hl) as (i & Hi & Ho). exists i. split; [done|].
    by apply negb_false_iff. }
  unfold kAddrSlots. rewrite Hf. cbn -[Z.to_nat]. eexists. split; [done|].
  apply addr_ok_store; auto using slot_range.
  - unfold in_use. by rewrite Hp.
  - apply probed_slot; [done|]. intros j Hj. unfold in_use. by rewrite Hlt.
Qed.

Lemma addr_ok_empty : addr_ok (replicate (Z.to_nat 512) 0) [].
Proof.
  assert (∀ i, 0 <= i < 512 -> replicate (Z.to_nat 512) 0 !!! Z.to_nat i = 0).
  { intros. apply lookup_total_replicate_2. lia. }
  split.
  - unfold len. rewrite length_replicate. lia.
  - intros x _ []%not_elem_of_nil.
  - intros i Hi []. auto.
  - intros i Hi []. auto.
  - exists []. split; [done|]. intros i Hi Ho. unfold in_use in Ho. by rewrite H in Ho.
Qed.

Lemma set_add_all_ok l set done_ :
  addr_ok set done_ -> Z.of_nat (length done_ + length l) < 512 ->
  ∃ set', set_add_all set l = Some set' /\ addr_ok set' (done_ ++ l).
Proof.
  revert set done_. induction l as [|ip l IH]; intros set done_ A Hl.
  { exists set. by rewrite app_nil_r. }
  destruct (set_add_ok set done_ ip) as (set' & Hs & A'); [done|simpl in *; lia|].
  cbn -[set_add]. rewrite Hs. cbn.
  destruct (IH set' (done_ ++ [ip])) as (set'' & Hs'' & A''); [done|rewrite length_app; simpl in *; lia|].
  exists set''. split; [done|]. by rewrite <- app_assoc in A''.
Qed.

(** Building a set and asking it: total and exact. *)
Lemma address_set_exact l :
  Z.of_nat (length l) < 512 ->
  ∃ set, set_add_all (replicate (Z.to_nat kAddrSlots) 0) l = Some set /\
    ∀ ip, set_has set ip = Some (bool_decide (ip = 0 \/ ip ∈ l)).
Proof.
  intros Hl. destruct (set_add_all_ok l _ [] addr_ok_empty Hl) as (set & Hs & A).
  exists set. split; [done|]. intros ip. by apply set_has_exact.
Qed.

(** ** The service table *)

Definition svc_used (slots : list Z) (i : Z) : bool := negb (slots !!! Z.to_nat i <? 0).
Definition svc_start (s : Service) : Z :=
  Z.land (svc_hash (s_vip s) (s_port_be s) (s_proto s)) (512 - 1).

(** [slots] indexes exactly the services of [l]. *)
Record svc_ok (slots : list Z) (l : list Service) : Prop := {
  so_len : len slots = 512;
  so_in : ∀ s, s ∈ l -> ∃ i, 0 <= i < 512 /\ slots !!! Z.to_nat i = s_idx s /\
    probed (svc_used slots) (svc_start s) i;
  so_from : ∀ i, 0 <= i < 512 -> 0 <= slots !!! Z.to_nat i ->
    ∃ s, s ∈ l /\ slots !!! Z.to_nat i = s_idx s;
  so_fits : fits (svc_used slots) (length l)
}.

Lemma svc_used_insert slots i v j :
  len slots = 512 -> 0 <= i < 512 -> 0 <= j < 512 -> 0 <= v ->
  svc_used (<[Z.to_nat i := v]> slots) j = if decide (i = j) then true else svc_used slots j.
Proof.
  intros. unfold svc_used. rewrite insert_at by done. case_decide; [|done].
  by apply negb_true_iff, Z.ltb_ge.
Qed.

Lemma svc_ok_store slots l s i :
  svc_ok slots l -> (∀ x, x ∈ l -> 0 <= s_idx x) -> 0 <= s_idx s -> 0 <= i < 512 ->
  svc_used slots i = false ->
  probed (svc_used slots) (svc_start s) i ->
  svc_ok (<[Z.to_nat i := s_idx s]> slots) (l ++ [s]).
Proof.
  intros [A1 A2 A3 A4] A0 Hz Hi Hfree Hpr.
  assert (P : ∀ s' j, probed (svc_used slots) s' j ->
    probed (svc_used (<[Z.to_nat i := s_idx s]> slots)) s' j).
  { intros s' j H k Hk. rewrite svc_used_insert by (done || lia || apply slot_range).
    case_decide; [done|auto]. }
  unfold svc_used in Hfree. bprop. split.
  - unfold len in *. by rewrite length_insert.
  - intros x [Hin|E]%elem_of_app.
    + destruct (A2 x Hin) as (j & Hj & Hs & Hp). exists j. split; [done|]; split; [|auto].
      rewrite insert_at by done. case_decide; [subst|done].
      pose proof (A0 x Hin). lia.
    + apply list_elem_of_singleton in E as ->. exists i. split; [done|]; split; [|auto].
      rewrite insert_at by done. by case_decide.
  - intros j Hj. rewrite insert_at by done. case_decide; intros Hv.
    + exists s. split; [|done]. apply elem_of_app. right. by apply list_elem_of_singleton.
    + destruct (A3 j Hj Hv) as (x & ? & ?). exists x. split; [|done]. apply elem_of_app. by left.
  - rewrite length_app, Nat.add_1_r. apply (fits_add (svc_used slots) _ _ i); [done|].
    intros j Hj Ho. rewrite svc_used_insert in Ho by done. case_decide; auto.
Qed.

Lemma index_services_ok svcs slots done_ :
  svc_ok slots done_ -> Z.of_nat (length done_ + length svcs) < 512 ->
  (∀ s, s ∈ done_ ++ svcs -> 0 <= s_idx s) ->
  ∃ slots', index_services svcs slots = Some slots' /\ svc_ok slots' (done_ ++ svcs).
Proof.
  revert slots done_. induction svcs as [|s svcs IH]; intros slots done_ A Hl Hs.
  { exists slots. by rewrite app_nil_r. }
  cbn [index_services].
  destruct (find_free_first (fun i => slots !!! Z.to_nat i <? 0)
              (svc_hash (s_vip s) (s_port_be s) (s_proto s))) as (k & Hk & Hf & Hp & Hlt).
  { destruct (fits_room _ _ (so_fits _ _ A)) as (i & Hi & Ho); [simpl in *; lia|].
    exists i. split; [done|]. by apply negb_false_iff. }
  unfold kSvcSlots. rewrite Hf. cbn [mbind option_bind].
  destruct (IH (<[Z.to_nat (slot (svc_start s) k) := s_idx s]> slots) (done_ ++ [s]))
    as (slots' & Hs' & A').
  - apply svc_ok_store; auto using slot_range.
    + intros. apply Hs, elem_of_app. by left.
    + apply Hs, elem_of_app. right. left.
    + unfold svc_used. unfold svc_start. by rewrite Hp.
    + apply probed_slot; [done|]. intros j Hj. unfold svc_used. unfold svc_start. by rewrite Hlt.
  - clear -Hl. rewrite length_app. simpl in *. lia.
  - by rewrite <- app_assoc.
  - exists slots'. split; [exact Hs'|]. by rewrite <- app_assoc in A'.
Qed.

Lemma svc_ok_empty : svc_ok (replicate (Z.to_nat 512) (-1)) [].
Proof.
  assert (H : ∀ i, 0 <= i < 512 -> replicate (Z.to_nat 512) (-1) !!! Z.to_nat i = -1).
  { intros. apply lookup_total_replicate_2. lia. }
  split.
  - unfold len. rewrite length_replicate. lia.
  - intros x []%not_elem_of_nil.
  - intros i Hi. rewrite H by done. lia.
  - exists []. split; [done|]. intros i Hi Ho. unfold svc_used in Ho. by rewrite H in Ho.
Qed.

Lemma find_service_loop_find fuel slots svcs vip port_be proto i :
  find_service_loop fuel slots svcs vip port_be proto i
  = (fun j => if slots !!! Z.to_nat j <? 0 then None
              else Some (svcs !!! Z.to_nat (slots !!! Z.to_nat j))) <$>
    find_free fuel (fun j => svc_match (svcs !!! Z.to_nat (slots !!! Z.to_nat j)) vip port_be proto
                             || negb (svc_used slots j)) i.
Proof.
  revert i. induction fuel as [|fuel IH]; intros i; cbn -[Z.to_nat svc_match]; [done|].
  unfold svc_used at 1. rewrite negb_involutive.
  destruct (_ <? 0) eqn:E; cbn -[Z.to_nat svc_match].
  { rewrite orb_true_r. cbn -[Z.to_nat]. by rewrite E. }
  rewrite orb_false_r. destruct (svc_match _ _ _ _); cbn -[Z.to_nat]; [by rewrite E|]. apply IH.
Qed.

(** Services sit at the position their index names. *)
Definition idx_ok (svcs : list Service) : Prop :=
  ∀ i s, svcs !! i = Some s -> s_idx s = Z.of_nat i.

Lemma idx_ok_at svcs s : idx_ok svcs -> s ∈ svcs -> svcs !!! Z.to_nat (s_idx s) = s.
Proof.
  intros H (i & Hi)%list_elem_of_lookup. rewrite (H i s Hi), Nat2Z.id.
  by apply list_lookup_total_correct.
Qed.

Lemma find_service_exact slots svcs vip port_be proto :
  svc_ok slots svcs -> idx_ok svcs -> Z.of_nat (length svcs) < 512 ->
  ∃ r, find_service_loop (Z.to_nat 512) slots svcs vip port_be proto
         (Z.land (svc_hash vip port_be proto) (512 - 1)) = Some r /\
    (∀ s, r = Some s -> s ∈ svcs /\ svc_match s vip port_be proto = true) /\
    (r = None -> ∀ s, s ∈ svcs -> svc_match s vip port_be proto = false).
Proof.
  intros A HI Hl. rewrite find_service_loop_find.
  set (hit j := svc_match (svcs !!! Z.to_nat (slots !!! Z.to_nat j)) vip port_be proto).
  destruct (decide (Exists (fun s => svc_match s vip port_be proto = true) svcs)) as [E|E].
  - apply Exists_exists in E as (s & Hs & Hm). destruct (so_in _ _ A s Hs) as (i & Hi & Hx & Hp).
    assert (0 <= s_idx s) as Hnn by (apply list_elem_of_lookup in Hs as (k & Hk); rewrite (HI _ _ Hk); lia).
    unfold svc_start in Hp. unfold svc_match in Hm. bprop. subst.
    destruct (probe_hit (svc_used slots) hit (svc_hash (s_vip s) (s_port_be s) (s_proto s)) i)
      as (j & Hj & Hf & Ho & Hh); [done|done|..].
    + unfold svc_used. rewrite Hx. by apply negb_true_iff, Z.ltb_ge.
    + unfold hit. rewrite Hx, idx_ok_at by done. unfold svc_match. by rewrite !Z.eqb_refl.
    + unfold hit in Hf. rewrite Hf. cbn -[Z.to_nat]. unfold svc_used in Ho. apply negb_true_iff in Ho. rewrite Ho.
      eexists. split; [done|]. split; [|done]. intros s' [= <-]. split; [|done].
      bprop. destruct (so_from _ _ A j Hj) as (x & Hin & ->); [lia|]. by rewrite idx_ok_at.
  - assert (N : ∀ s, s ∈ svcs -> svc_match s vip port_be proto = false).
    { intros s Hs. destruct (svc_match s vip port_be proto) eqn:Hm; [|done].
      exfalso. apply E, Exists_exists. eauto. }
    destruct (probe_miss (svc_used slots) hit (svc_hash vip port_be proto)) as (j & Hj & Hf & Ho).
    + eapply fits_room; [apply A|done].
    + intros i Hi Ho. unfold svc_used in Ho. bprop. unfold hit.
      destruct (so_from _ _ A i Hi) as (x & Hin & ->); [lia|]. rewrite idx_ok_at by done. auto.
    + unfold hit in Hf. rewrite Hf. cbn -[Z.to_nat]. unfold svc_used in Ho. apply negb_false_iff in Ho. rewrite Ho.
      exists None. split; [done|]. split; [done|auto].
Qed.

(** ** Indexing *)

(** What [index] promises of the snapshot it completes.  Every address set
    reports 0.0.0.0, the mark of an empty slot, as a member. *)
Record indexed (snap : Snapshot) : Prop := {
  ix_slots : svc_ok (svc_slots_ snap) (services snap);
  ix_idx : idx_ok (services snap);
  ix_len : Z.of_nat (length (services snap)) < 512;
  ix_svc vip port_be proto :
    ∃ r, find_service snap vip port_be proto = Some r /\
    (∀ s, r = Some s -> s ∈ services snap /\ svc_match s vip port_be proto = true) /\
    (r = None -> ∀ s, s ∈ services snap -> svc_match s vip port_be proto = false);
  ix_vip ip : is_vip snap ip = Some (bool_decide (ip = 0 \/ ip ∈ (s_vip <$> services snap)));
  ix_lip ip : is_lip snap ip = Some (bool_decide (ip = 0 \/ ip ∈ local_ips snap));
  ix_local ip : is_local snap ip = Some (bool_decide
    (ip = 0 \/ ip ∈ (s_vip <$> services snap) ++ local_ips snap ++ [hc_src snap]))
}.

Lemma index_ok snap :
  idx_ok (services snap) -> Z.of_nat (length (services snap) + length (local_ips snap)) < 511 ->
  ∃ snap', index snap = Some snap' /\ indexed snap' /\
    services snap' = services snap /\ rs_by_id snap' = rs_by_id snap /\
    local_ips snap' = local_ips snap /\ hc_src snap' = hc_src snap /\ mode snap' = mode snap.
Proof.
  intros HI Hl. unfold index.
  destruct (index_services_ok (services snap) (replicate (Z.to_nat kSvcSlots) (-1)) [] svc_ok_empty)
    as (slots & -> & SO); [simpl; lia| |]; cbn [app mbind option_bind].
  { intros s (i & Hi)%list_elem_of_lookup. rewrite (HI i s Hi). lia. }
  destruct (address_set_exact (s_vip <$> services snap)) as (vips & -> & V);
    [rewrite length_fmap; lia|cbn [mbind option_bind]].
  destruct (address_set_exact (local_ips snap)) as (lips & -> & L); [lia|cbn [mbind option_bind]].
  destruct (address_set_exact ((s_vip <$> services snap) ++ local_ips snap ++ [hc_src snap]))
    as (locals & -> & C); [rewrite !length_app, length_fmap; simpl; lia|cbn [mbind option_bind]].
  eexists. split; [reflexivity|]. split; [|done].
  split; cbn [services local_ips hc_src svc_slots_]; [done|done|lia| |apply V|apply L|apply C].
  intros. apply find_service_exact; [done|done|lia].
Qed.

End Tables.
End SnapshotThms.
