(* ===== verification/ManagerThms.v ===== *)
(** The snapshot manager: its invariant, and the snapshots it publishes. *)
From S2P Require Import Prelude Types TcpState Mem Dpdk Scheduler SchedulerThms SchedulerProps Config Snapshot SnapshotThms.
Import Tcp Scheduler Config Snapshot SnapshotThms SchedulerProps.

Module ManagerThms.

(** ** Desired state *)

Definition all_rs (l : list DesiredService) : list DesiredRs := l ≫= ds_rs.
Definition ids (l : list DesiredService) : list Z := d_id <$> all_rs l.
Definition ds_key (ds : DesiredService) : Z * Z * Z := svc_key (ds_conf ds).

Record mgr_ok (m : SnapshotManager) : Prop := {
  mk_svcs : len (services_ m) <= kMaxServices;
  mk_lips : len (local_ips_ m) <= kMaxLocalIps;
  mk_keys : NoDup (ds_key <$> services_ m);
  mk_ports : Forall (fun ds => is_u16 (sc_port (ds_conf ds))) (services_ m);
  mk_rs : Forall (fun ds => len (ds_rs ds) <= kMaxRsPerService) (services_ m);
  mk_weights : Forall (fun d => is_u32 (rc_weight (d_conf d))) (all_rs (services_ m));
  mk_ids : NoDup (ids (services_ m));
  mk_range : Forall (fun id => 0 < id < next_rs_id_ m) (ids (services_ m));
  mk_next : 0 < next_rs_id_ m <= kMaxRsId + 1
}.

Lemma all_rs_elem l d : d ∈ all_rs l <-> ∃ k ds, l !! k = Some ds /\ d ∈ ds_rs ds.
Proof.
  unfold all_rs. rewrite list_elem_of_bind. split.
  - intros (ds & Hd & (k & Hk)%list_elem_of_lookup). eauto.
  - intros (k & ds & Hk & Hd). exists ds. split; [done|]. by eapply list_elem_of_lookup_2.
Qed.

(** ** The id table *)

Lemma NoDup_key_inj {A B} (f : A -> B) (l : list A) x y :
  NoDup (f <$> l) -> x ∈ l -> y ∈ l -> f x = f y -> x = y.
Proof.
  intros H (i & Hi)%list_elem_of_lookup (j & Hj)%list_elem_of_lookup E.
  assert (i = j) as ->; [|congruence].
  eapply (NoDup_lookup _ i j (f x)); [done|..]; rewrite list_lookup_fmap; [by rewrite Hi|].
  by rewrite Hj, E.
Qed.

Definition store (t : list (option RsState)) (r : RsState) : list (option RsState) :=
  <[Z.to_nat (r_id r) := Some r]> t.

Lemma store_all_lookup (l : list RsState) t id :
  NoDup (r_id <$> l) -> Forall (fun r => 0 <= r_id r < len t) l -> 0 <= id < len t ->
  let t' := foldl store t l in
  length t' = length t /\
  ((∃ r, r ∈ l /\ r_id r = id /\ t' !!! Z.to_nat id = Some r)
   \/ ((∀ r, r ∈ l -> r_id r <> id) /\ t' !!! Z.to_nat id = t !!! Z.to_nat id)).
Proof.
  unfold len. revert t. induction l as [|r l IH]; intros t Hnd Hr Hid; cbn [foldl].
  { split; [done|]. right. split; [by intros r []%not_elem_of_nil|done]. }
  rewrite fmap_cons in Hnd. apply NoDup_cons in Hnd as [Hn Hnd].
  apply Forall_cons in Hr as [H0 Hr].
  destruct (IH (store t r)) as [Hl H]; unfold store in *; rewrite ?length_insert in *; try done.
  split; [done|]. destruct H as [(x & Hx & Hxi & E)|[Hno E]].
  { left. exists x. split; [by right|]. done. }
  destruct (decide (r_id r = id)) as [Hi|Hi].
  - left. exists r. split; [left|]. split; [done|]. rewrite E, Hi.
    apply list_lookup_total_insert_eq. lia.
  - right. split.
    + intros x [->|Hx]%elem_of_cons; auto.
    + rewrite E. apply list_lookup_total_insert_ne. lia.
Qed.

Section Build.
Context `{HF : RteHashFns} (max_lcore : nat).

(** What a service of the snapshot is, given the desired one. *)
Record svc_built (k : nat) (ds : DesiredService) (s : Service) : Prop := {
  sb_idx : s_idx s = Z.of_nat k;
  sb_key : (s_vip s, s_port s, s_proto s) = ds_key ds;
  sb_port : s_port_be s = htons (s_port s);
  sb_rs : s_rs s = rs_state (Z.of_nat k) <$> ds_rs ds;
  sb_sched : built max_lcore (sc_sched (ds_conf ds)) (backend_of <$> s_rs s) (s_sched s)
}.

(** All real servers with their service, in build order. *)
Fixpoint states (k : nat) (l : list DesiredService) : list RsState :=
  match l with
  | [] => []
  | ds :: l => (rs_state (Z.of_nat k) <$> ds_rs ds) ++ states (S k) l
  end.

Lemma states_elem k l r :
  r ∈ states k l <->
  ∃ i ds d, l !! i = Some ds /\ d ∈ ds_rs ds /\ r = rs_state (Z.of_nat (k + i)) d.
Proof.
  revert k. induction l as [|ds l IH]; intros k; cbn [states].
  { split; [intros []%not_elem_of_nil|intros (i & ds & d & H & _)]. by rewrite lookup_nil in H. }
  rewrite elem_of_app, IH, list_elem_of_fmap. split.
  - intros [(d & -> & Hd)|(i & ds' & d & Hi & Hd & ->)].
    + exists 0%nat, ds, d. rewrite Nat.add_0_r. auto.
    + exists (S i), ds', d. rewrite Nat.add_succ_r. auto.
  - intros (i & ds' & d & Hi & Hd & ->). destruct i as [|i].
    + left. simpl in Hi. injection Hi as ->. rewrite Nat.add_0_r. eauto.
    + right. exists i, ds', d. rewrite Nat.add_succ_r. auto.
Qed.

Lemma states_ids k l : r_id <$> states k l = ids l.
Proof.
  revert k. induction l as [|ds l IH]; intros k; [done|]. cbn [states].
  rewrite fmap_app, IH, <- list_fmap_compose. unfold ids, all_rs. rewrite bind_cons, fmap_app. done.
Qed.

Lemma backend_weights ds k :
  Forall (fun d => is_u32 (rc_weight (d_conf d))) (ds_rs ds) ->
  Forall (fun x => is_u32 (b_weight x)) (backend_of <$> (rs_state k <$> ds_rs ds)).
Proof.
  intros H. rewrite !Forall_fmap. eapply Forall_impl; [exact H|]. intros d Hd.
  unfold compose, backend_of. cbn. destruct (schedulable _); [done|]. zwrap. lia.
Qed.

Lemma build_service_ok k ds by_id :
  Z.of_nat k < 65536 -> len (ds_rs ds) <= kMaxRsPerService ->
  Forall (fun d => is_u32 (rc_weight (d_conf d))) (ds_rs ds) ->
  ∃ s, build_service max_lcore k ds by_id
       = Some (s, s_rs s, foldl store by_id (s_rs s)) /\ svc_built k ds s.
Proof.
  intros Hk Hl Hw. unfold build_service. rewrite u16_id by (zwrap; lia).
  destruct (build_ok max_lcore (sc_sched (ds_conf ds))
             (backend_of <$> (rs_state (Z.of_nat k) <$> ds_rs ds))) as (sched & -> & B).
  - rewrite !length_fmap. unfold len, kMaxRsPerService in Hl. lia.
  - by apply backend_weights.
  - cbn [mbind option_bind]. exists (mkService (Z.of_nat k) (sc_name (ds_conf ds)) (sc_vip (ds_conf ds))
      (htons (sc_port (ds_conf ds))) (sc_port (ds_conf ds)) (sc_proto (ds_conf ds))
      (rs_state (Z.of_nat k) <$> ds_rs ds) sched).
    split; [reflexivity|]. split; [reflexivity..|exact B].
Qed.

Lemma build_services_ok l k svcs pool by_id :
  Z.of_nat (k + length l) < 65536 ->
  Forall (fun ds => len (ds_rs ds) <= kMaxRsPerService) l ->
  Forall (fun d => is_u32 (rc_weight (d_conf d))) (all_rs l) ->
  ∃ new, build_services max_lcore k l svcs pool by_id
         = Some (svcs ++ new, pool ++ states k l, foldl store by_id (states k l)) /\
    length new = length l /\
    ∀ i ds, l !! i = Some ds -> ∃ s, new !! i = Some s /\ svc_built (k + i) ds s.
Proof.
  revert k svcs pool by_id. induction l as [|ds l IH]; intros k svcs pool by_id Hk Hl Hw.
  { exists []. cbn. rewrite !app_nil_r. done. }
  apply Forall_cons in Hl as [Hl1 Hl]. unfold all_rs in Hw. rewrite bind_cons in Hw.
  apply Forall_app in Hw as [Hw1 Hw]. cbn [build_services length] in *.
  destruct (build_service_ok k ds by_id) as (s & -> & B); [lia|done|done|].
  cbn [mbind option_bind].
  destruct (IH (S k) (svcs ++ [s]) (pool ++ s_rs s) (foldl store by_id (s_rs s))) as (new & -> & Hn & H);
    [lia|done|done|].
  exists (s :: new). cbn [states]. rewrite <- (sb_rs _ _ _ B), foldl_app, <- !app_assoc.
  split; [done|]. split; [simpl; lia|]. intros [|i] ds' Hi.
  - injection Hi as <-. exists s. rewrite Nat.add_0_r. done.
  - destruct (H i ds' Hi) as (s' & ? & ?). exists s'. rewrite Nat.add_succ_r. done.
Qed.

(** ** Published snapshots *)

(** The published snapshot answers lookups from the desired state; addresses
    are compared for every address but 0.0.0.0, which the address tables use for
    an empty slot ([set_has_exact]). *)
Record reflects (m : SnapshotManager) (snap : Snapshot) : Prop := {
  rf_mode : mode snap = mode_ m;
  rf_lips : local_ips snap = local_ips_ m;
  rf_indexed : indexed snap;
  rf_built i s : services snap !! i = Some s ->
    ∃ ds, services_ m !! i = Some ds /\ svc_built i ds s;
  rf_rs id r : 0 <= id ->
    rs snap id = Some r <->
    ∃ k ds d, services_ m !! k = Some ds /\ d ∈ ds_rs ds /\ d_id d = id /\
              r = rs_state (Z.of_nat k) d;
  rf_svc vip port proto : is_u16 port ->
    ∃ o, find_service snap vip (htons port) proto = Some o /\
    match o with
    | Some s => ∃ k ds, services_ m !! k = Some ds /\ ds_key ds = (vip, port, proto) /\
                        svc_built k ds s
    | None => (vip, port, proto) ∉ (ds_key <$> services_ m)
    end;
  rf_vip ip : ip <> 0 -> is_vip snap ip = Some (bool_decide (ip ∈ (sc_vip ∘ ds_conf <$> services_ m)));
  rf_lip ip : ip <> 0 -> is_lip snap ip = Some (bool_decide (ip ∈ local_ips_ m));
  rf_local ip : ip <> 0 -> is_local snap ip
    = Some (bool_decide (ip ∈ (sc_vip ∘ ds_conf <$> services_ m) ++ local_ips_ m ++ [hc_src_ m]))
}.

(** The empty-slot convention does not matter for other addresses. *)
Lemma not_zero_decide (ip : Z) (l : list Z) : ip <> 0 -> bool_decide (ip = 0 \/ ip ∈ l) = bool_decide (ip ∈ l).
Proof. intros H. apply bool_decide_ext. tauto. Qed.

Lemma htons_inj a b : is_u16 a -> is_u16 b -> htons a = htons b -> a = b.
Proof. unfold htons. intros Ha Hb E. by rewrite <- (bswap16_invol a), E, bswap16_invol. Qed.

Lemma vips_of m (svcs : list Service) :
  length svcs = length (services_ m) ->
  (∀ i ds, services_ m !! i = Some ds -> ∃ s, svcs !! i = Some s /\ svc_built i ds s) ->
  s_vip <$> svcs = sc_vip ∘ ds_conf <$> services_ m.
Proof.
  intros Hl H. apply list_eq_same_length with (length svcs); rewrite ?length_fmap; [done|done|].
  intros i x y Hi Hx Hy. apply list_lookup_fmap_Some in Hx as (s & -> & Hs).
  apply list_lookup_fmap_Some in Hy as (ds & -> & Hd). destruct (H i ds Hd) as (s' & Hs' & B).
  replace s' with s in B by congruence. pose proof (sb_key _ _ _ B) as K.
  unfold ds_key, svc_key in K. simpl in *. congruence.
Qed.

Lemma match_key m k ds s vip port proto :
  mgr_ok m -> services_ m !! k = Some ds -> svc_built k ds s -> is_u16 port ->
  svc_match s vip (htons port) proto = true <-> ds_key ds = (vip, port, proto).
Proof.
  intros M Hk [B1 B2 B3 B4 B5] Hp. unfold svc_match. rewrite <- B2, B3, !andb_true_iff, !Z.eqb_eq.
  pose proof (mk_ports _ M) as P. rewrite Forall_forall in P.
  specialize (P ds (list_elem_of_lookup_2 _ _ _ Hk)). simpl in P.
  assert (s_port s = sc_port (ds_conf ds)) by (unfold ds_key, svc_key in B2; congruence).
  split.
  - intros [[-> E] ->]. apply htons_inj in E; [congruence|congruence|done].
  - intros [= -> -> ->]. auto.
Qed.

Lemma built_idx m (svcs : list Service) :
  length svcs = length (services_ m) ->
  (∀ i ds, services_ m !! i = Some ds -> ∃ s, svcs !! i = Some s /\ svc_built i ds s) ->
  ∀ i s, svcs !! i = Some s -> ∃ ds, services_ m !! i = Some ds /\ svc_built i ds s.
Proof.
  intros Hl H i s Hs. destruct (services_ m !! i) as [ds|] eqn:E.
  - destruct (H i ds E) as (s' & Hs' & B). exists ds. replace s with s' by congruence. done.
  - apply lookup_ge_None in E. apply lookup_lt_Some in Hs. lia.
Qed.

(** The table by id of the built snapshot. *)
Lemma by_id_ok m id r :
  mgr_ok m -> 0 <= id ->
  let t := foldl store (replicate (Z.to_nat (next_rs_id_ m)) None) (states 0 (services_ m)) in
  (if id <? len t then t !!! Z.to_nat id else None) = Some r <->
  ∃ k ds d, services_ m !! k = Some ds /\ d ∈ ds_rs ds /\ d_id d = id /\ r = rs_state (Z.of_nat k) d.
Proof.
  intros M Hid t. pose proof (mk_next _ M) as Hn.
  set (t0 := replicate (Z.to_nat (next_rs_id_ m)) (None : option RsState)) in *.
  assert (L0 : len t0 = next_rs_id_ m) by (unfold t0, len; rewrite length_replicate; lia).
  assert (R : Forall (fun r => 0 <= r_id r < len t0) (states 0 (services_ m))).
  { rewrite L0. apply (Forall_fmap r_id (fun i => 0 <= i < next_rs_id_ m)). rewrite states_ids.
    eapply Forall_impl; [apply M|]. simpl. lia. }
  assert (ND : NoDup (r_id <$> states 0 (services_ m))) by (rewrite states_ids; apply M).
  destruct (Z.ltb_spec id (len t)) as [Hlt|Hge].
  2:{ split; [done|]. intros (k & ds & d & Hk & Hd & <- & _). exfalso.
      destruct (store_all_lookup (states 0 (services_ m)) t0 0 ND R ltac:(lia)) as [Hl _].
      assert (d_id d ∈ ids (services_ m)) as Hi.
      { apply list_elem_of_fmap. exists d. split; [done|]. apply all_rs_elem. eauto. }
      pose proof (mk_range _ M) as Hr. rewrite Forall_forall in Hr. specialize (Hr _ Hi).
      unfold t, len in *. lia. }
  destruct (store_all_lookup (states 0 (services_ m)) t0 id ND R) as [Hl H].
  { destruct (store_all_lookup (states 0 (services_ m)) t0 0 ND R ltac:(lia)) as [Hl _].
    unfold t, len in *. lia. }
  fold t in H. destruct H as [(x & Hx & Hxi & ->)|[Hno ->]].
  - split.
    + intros [= ->]. apply states_elem in Hx as (k & ds & d & Hk & Hd & ->). exists k, ds, d. auto.
    + intros (k & ds & d & Hk & Hd & Hdi & ->). f_equal. apply (NoDup_key_inj r_id (states 0 (services_ m))); auto.
      * apply states_elem. exists k, ds, d. auto.
      * rewrite Hxi. done.
  - split.
    + intros E. exfalso. unfold t0 in E. destruct (decide (Z.to_nat id < Z.to_nat (next_rs_id_ m))%nat) as [Hi|Hi].
      * by rewrite lookup_total_replicate_2 in E.
      * unfold t, t0, len in *. rewrite length_replicate in *. lia.
    + intros (k & ds & d & Hk & Hd & Hdi & ->). exfalso. apply (Hno (rs_state (Z.of_nat k) d)); [|done].
      apply states_elem. exists k, ds, d. auto.
Qed.

Lemma publish_ok m :
  mgr_ok m ->
  ∃ m' snap, publish max_lcore m = Some m' /\ cur_ m' = Some snap /\ reflects m' snap /\
    services_ m' = services_ m /\ next_rs_id_ m' = next_rs_id_ m /\ local_ips_ m' = local_ips_ m /\
    hc_src_ m' = hc_src_ m /\ mode_ m' = mode_ m.
Proof.
  intros M. unfold publish, build_snapshot. cbn [services_ next_rs_id_ mode_ local_ips_ hc_src_ version_].
  pose proof (mk_svcs _ M) as L1. pose proof (mk_lips _ M) as L2. unfold len, kMaxServices, kMaxLocalIps in L1, L2.
  destruct (build_services_ok (services_ m) 0 [] [] (replicate (Z.to_nat (next_rs_id_ m)) None))
    as (svcs & -> & Hl & Hs); [simpl; lia|apply M|apply M|]. cbn [mbind option_bind app].
  pose proof (vips_of m svcs Hl Hs) as V. pose proof (built_idx m svcs Hl Hs) as I.
  destruct (index_ok (mkSnapshot (u64 (version_ m + 1)) (mode_ m) svcs (states 0 (services_ m))
    (foldl store (replicate (Z.to_nat (next_rs_id_ m)) None) (states 0 (services_ m)))
    (local_ips_ m) (hc_src_ m) [] [] [] [])) as (snap & -> & X & F1 & F2 & F3 & F4 & F5).
  { intros i s Hi. cbn in Hi. destruct (I i s Hi) as (ds & _ & B). apply B. }
  { cbn. lia. }
  cbn [mbind option_bind services rs_by_id local_ips hc_src mode] in *.
  eexists _, snap. split; [reflexivity|]. split; [done|]. split; [|done].
  pose proof X as [_ _ _ X1 X2 X3 X4]. setoid_rewrite F1 in X1. rewrite F1, V in X2. rewrite F3 in X3. rewrite F1, F3, F4, V in X4.
  split; cbn [services_ local_ips_ hc_src_ mode_]; [done|done|exact X| | | |..].
  4: intros ip Hip; rewrite X2; by rewrite not_zero_decide.
  4: intros ip Hip; rewrite X3; by rewrite not_zero_decide.
  4: intros ip Hip; rewrite X4; by rewrite not_zero_decide.
  - rewrite F1. exact I.
  - intros id r Hid. unfold rs. rewrite F2. by apply by_id_ok.
  - intros vip port proto Hp. destruct (X1 vip (htons port) proto) as (o & Ho & HS & HN).
    exists o. split; [done|]. destruct o as [s|].
    + destruct (HS s eq_refl) as [(i & Hi)%list_elem_of_lookup Hm]. destruct (I i s Hi) as (ds & Hd & B).
      exists i, ds. split; [done|]. split; [|done]. by eapply match_key in Hm.
    + intros (ds & Hk & (i & Hi)%list_elem_of_lookup)%list_elem_of_fmap.
      destruct (Hs i ds Hi) as (s & Hsi & B).
      specialize (HN eq_refl s (list_elem_of_lookup_2 _ _ _ Hsi)).
      assert (svc_match s vip (htons port) proto = true); [|congruence].
      by eapply match_key.
Qed.

End Build.
End ManagerThms.
