(* ===== verification/ManagerProps.v ===== *)
(** Control-plane histories: every operation keeps the manager's invariant,
    so every snapshot published over any history is exact. *)
From S2P Require Import Prelude Types TcpState Mem Dpdk Scheduler SchedulerThms SchedulerProps Config Snapshot SnapshotThms ManagerThms.
From Stdlib Require String.
Import Tcp Scheduler Config Snapshot SnapshotThms SchedulerProps ManagerThms.

Module ManagerProps.

(** ** The desired state under each operation *)

(** Same services, same real servers, other fields changed. *)
Definition same_ids (l l' : list DesiredService) : Prop :=
  Forall2 (fun ds ds' => ds_conf ds' = ds_conf ds /\
                         (d_id <$> ds_rs ds') = (d_id <$> ds_rs ds)) l l'.

#[export] Instance same_ids_refl : Reflexive same_ids.
Proof. intros l. apply Forall_Forall2_diag, Forall_forall. done. Qed.

Lemma same_ids_facts l l' :
  same_ids l l' ->
  length l' = length l /\ ids l' = ids l /\ (ds_conf <$> l') = (ds_conf <$> l) /\
  ((fun ds => length (ds_rs ds)) <$> l') = ((fun ds => length (ds_rs ds)) <$> l).
Proof.
  intros H. induction H as [|ds ds' l l' [Hc Hi] H (IH1 & IH2 & IH3 & IH4)]; [done|].
  unfold ids, all_rs in *. rewrite !bind_cons, !fmap_app, !fmap_cons. cbn [length].
  rewrite IH1, IH2, IH3, IH4, Hc, Hi. apply (f_equal length) in Hi. rewrite !length_fmap in Hi.
  by rewrite Hi.
Qed.

Lemma update_in_ids id f l :
  (∀ d, d_id (f d) = d_id d) -> d_id <$> update_in id f l = d_id <$> l.
Proof.
  intros Hf. induction l as [|d l IH]; [done|]. cbn [update_in].
  destruct (_ =? _); rewrite !fmap_cons; [by rewrite Hf|by rewrite IH].
Qed.

Lemma update_rs_ids id f l : (∀ d, d_id (f d) = d_id d) -> same_ids l (update_rs id f l).
Proof.
  intros Hf. induction l as [|ds l IH]; [done|]. cbn [update_rs].
  destruct (find_in id (ds_rs ds)); constructor; try done.
  split; [done|]. by apply update_in_ids.
Qed.

Lemma update_in_all id f (P : DesiredRs -> Prop) l :
  (∀ d, P d -> P (f d)) -> Forall P l -> Forall P (update_in id f l).
Proof.
  intros Hf. induction 1 as [|d l Hd H IH]; cbn [update_in]; [constructor|].
  destruct (_ =? _); constructor; auto.
Qed.

Lemma update_rs_all id f (P : DesiredRs -> Prop) l :
  (∀ d, P d -> P (f d)) -> Forall P (all_rs l) -> Forall P (all_rs (update_rs id f l)).
Proof.
  intros Hf. unfold all_rs. induction l as [|ds l IH]; cbn [update_rs]; [done|].
  rewrite bind_cons, Forall_app. intros [H1 H2].
  destruct (find_in id (ds_rs ds)); rewrite bind_cons, Forall_app; split; auto.
  by apply update_in_all.
Qed.

Lemma keys_of_confs (l l' : list DesiredService) :
  ds_conf <$> l' = ds_conf <$> l -> ds_key <$> l' = ds_key <$> l.
Proof. intros E. change ds_key with (svc_key ∘ ds_conf). rewrite !list_fmap_compose. by rewrite E. Qed.

Lemma Forall_via {A B} (f : A -> B) (P : B -> Prop) (l l' : list A) :
  f <$> l' = f <$> l -> Forall (fun x => P (f x)) l -> Forall (fun x => P (f x)) l'.
Proof. intros E H. apply (Forall_fmap f P). rewrite E. by apply Forall_fmap. Qed.

(** An update that keeps ids and confs keeps the invariant. *)
Lemma mgr_ok_same m l :
  mgr_ok m -> same_ids (services_ m) l ->
  Forall (fun d => is_u32 (rc_weight (d_conf d))) (all_rs l) -> mgr_ok (with_services_ l m).
Proof.
  intros [M1 M2 M3 M4 M5 M6 M7 M8 M9] (E1 & E2 & E3 & E4)%same_ids_facts Hw.
  split; cbn [services_ with_services_ local_ips_ next_rs_id_]; rewrite ?E2; auto.
  - unfold len in *. by rewrite E1.
  - by rewrite (keys_of_confs _ _ E3).
  - by apply (Forall_via ds_conf (fun c => is_u16 (sc_port c)) (services_ m)).
  - unfold len in *. by apply (Forall_via (fun ds => length (ds_rs ds)) (fun n => Z.of_nat n <= kMaxRsPerService) (services_ m)).
Qed.

(** ** del_rs *)

Lemma erase_in_sublist id l : erase_in id l `sublist_of` l.
Proof.
  induction l as [|d l IH]; cbn [erase_in]; [done|]. destruct (_ =? _).
  - by apply sublist_cons.
  - by apply sublist_skip.
Qed.

Definition shrunk (l l' : list DesiredService) : Prop :=
  Forall2 (fun ds ds' => ds_conf ds' = ds_conf ds /\ ds_rs ds' `sublist_of` ds_rs ds) l l'.

Lemma erase_rs_shrunk id l l' : erase_rs id l = Some l' -> shrunk l l'.
Proof.
  revert l'. induction l as [|ds l IH]; intros l' H; [done|]. cbn [erase_rs] in H.
  destruct (find_in id (ds_rs ds)).
  - injection H as <-. constructor; [split; [done|apply erase_in_sublist]|].
    apply Forall_Forall2_diag, Forall_forall. done.
  - destruct (erase_rs id l) as [l0|]; [|done]. injection H as <-. constructor; [done|by apply IH].
Qed.

Lemma shrunk_facts l l' :
  shrunk l l' -> length l' = length l /\ all_rs l' `sublist_of` all_rs l /\
  ds_conf <$> l' = ds_conf <$> l.
Proof.
  intros H. induction H as [|ds ds' l l' [Hc Hi] H (IH1 & IH2 & IH3)]; [done|].
  unfold all_rs in *. rewrite !bind_cons, !fmap_cons. cbn [length]. rewrite IH1, IH3, Hc.
  split; [done|]. split; [|done]. by apply sublist_app.
Qed.

Lemma mgr_ok_shrunk m l : mgr_ok m -> shrunk (services_ m) l -> mgr_ok (with_services_ l m).
Proof.
  intros [M1 M2 M3 M4 M5 M6 M7 M8 M9] H. pose proof H as (E1 & E2 & E3)%shrunk_facts.
  assert (S : ids l `sublist_of` ids (services_ m)) by by apply fmap_sublist.
  split; cbn [services_ with_services_ local_ips_ next_rs_id_]; auto.
  - unfold len in *. by rewrite E1.
  - by rewrite (keys_of_confs _ _ E3).
  - by apply (Forall_via ds_conf (fun c => is_u16 (sc_port c)) (services_ m)).
  - clear -M5 H. induction H as [|ds ds' l l' [_ Hs] H IH]; [constructor|].
    apply Forall_cons in M5 as [M5 M6]. constructor; [|auto].
    apply sublist_length in Hs. unfold len in *. lia.
  - rewrite Forall_forall in M6 |- *. intros d Hd. by eapply M6, elem_of_sublist.
  - by eapply sublist_NoDup.
  - rewrite Forall_forall in M8 |- *. intros d Hd. by eapply M8, elem_of_sublist.
Qed.

(** ** add_rs *)

Lemma all_rs_insert (l : list DesiredService) k ds ds' d :
  l !! k = Some ds -> ds_rs ds' = ds_rs ds ++ [d] -> all_rs (<[k := ds']> l) ≡ₚ d :: all_rs l.
Proof.
  intros Hk E. unfold all_rs. rewrite insert_take_drop by (by eapply lookup_lt_Some).
  rewrite <- (take_drop_middle l k ds Hk) at 3. rewrite !bind_app, !bind_cons, E. solve_Permutation.
Qed.

Lemma mgr_ok_add m k ds rc :
  mgr_ok m -> services_ m !! k = Some ds -> len (ds_rs ds) < kMaxRsPerService ->
  next_rs_id_ m < kMaxRsId -> is_u32 (rc_weight rc) ->
  let ds' := mkDesiredService (ds_conf ds) (ds_rs ds ++ [mkDesiredRs (next_rs_id_ m) rc true true]) in
  mgr_ok (mkManager (mode_ m) (local_ips_ m) (hc_src_ m) (<[k := ds']> (services_ m))
            (u32 (next_rs_id_ m + 1)) (version_ m) (cur_ m)).
Proof.
  intros [M1 M2 M3 M4 M5 M6 M7 M8 M9] Hk Hl Hn Hw ds'. unfold kMaxRsId, kMaxRsCounters in *.
  pose proof (all_rs_insert (services_ m) k ds ds' _ Hk eq_refl) as P.
  assert (K : ds_conf <$> <[k := ds']> (services_ m) = ds_conf <$> services_ m).
  { rewrite list_fmap_insert. apply list_insert_id. by rewrite list_lookup_fmap, Hk. }
  assert (I : ids (<[k := ds']> (services_ m)) ≡ₚ next_rs_id_ m :: ids (services_ m)).
  { unfold ids. by rewrite P. }
  rewrite u32_id by (zwrap; lia). split; cbn [services_ local_ips_ next_rs_id_]; auto.
  - unfold len in *. by rewrite length_insert.
  - by rewrite (keys_of_confs _ _ K).
  - by apply (Forall_via ds_conf (fun c => is_u16 (sc_port c)) (services_ m)).
  - apply Forall_insert; [done|]. unfold len, ds' in *. cbn [ds_rs]. rewrite length_app. simpl. lia.
  - rewrite P. by constructor.
  - rewrite I. constructor; [|done]. intros Hin. rewrite Forall_forall in M8.
    specialize (M8 _ Hin). lia.
  - rewrite I. constructor; [lia|]. eapply Forall_impl; [exact M8|]. simpl. lia.
  - unfold kMaxRsId, kMaxRsCounters. lia.
Qed.

(** ** Histories *)

Inductive mgr_op :=
| OpWeight (rs_id weight : Z) | OpEnabled (rs_id : Z) (on : bool) | OpHealth (rs_id : Z) (up : bool)
| OpAdd (svc_idx : Z) (rc : RsConf) | OpDel (rs_id : Z) | OpPublish.

(** Arguments fit the parameter types. *)
Definition op_wf (op : mgr_op) : Prop :=
  match op with
  | OpWeight _ w => is_u32 w
  | OpAdd i rc => is_u16 i /\ is_u32 (rc_weight rc)
  | _ => True
  end.

Section Run.
Context `{HF : RteHashFns} (max_lcore : nat).

(** One operation: the new state and the ids it hands out; an operation that
    reports an error changes nothing. *)
Definition exec (m : SnapshotManager) (op : mgr_op) : option (SnapshotManager * list Z) :=
  match op with
  | OpWeight id w => Some (match set_weight m id w with inr m' => m' | inl _ => m end, [])
  | OpEnabled id b => Some (match set_enabled m id b with inr m' => m' | inl _ => m end, [])
  | OpHealth id b => Some (set_health m id b, [])
  | OpAdd i rc => Some (match add_rs m i rc with inr (id, m') => (m', [id]) | inl _ => (m, []) end)
  | OpDel id => Some (match del_rs m id with inr m' => m' | inl _ => m end, [])
  | OpPublish => m' ← publish max_lcore m; Some (m', [])
  end.

Fixpoint run (m : SnapshotManager) (ops : list mgr_op) : option (SnapshotManager * list Z) :=
  match ops with
  | [] => Some (m, [])
  | op :: ops =>
    '(m, a) ← exec m op;
    '(m, b) ← run m ops;
    Some (m, a ++ b)
  end.

(** A change of one real server's fields. *)
Lemma update_ok m id f :
  mgr_ok m -> (∀ d, d_id (f d) = d_id d) ->
  (∀ d, is_u32 (rc_weight (d_conf d)) -> is_u32 (rc_weight (d_conf (f d)))) ->
  mgr_ok (with_services_ (update_rs id f (services_ m)) m).
Proof.
  intros M Hf Hw. apply mgr_ok_same; [done|by apply update_rs_ids|].
  apply (update_rs_all id f (fun d => is_u32 (rc_weight (d_conf d)))); [done|apply M].
Qed.

(** Ids handed out start at [lo] and stay below [hi]. *)
Definition issued_in (lo hi : Z) (l : list Z) : Prop :=
  lo <= hi /\ NoDup l /\ Forall (fun id => lo <= id < hi) l.

Lemma mgr_exec_ok m op :
  mgr_ok m -> op_wf op ->
  ∃ m' a, exec m op = Some (m', a) /\ mgr_ok m' /\ issued_in (next_rs_id_ m) (next_rs_id_ m') a.
Proof.
  intros M W.
  assert (N : ∀ m', mgr_ok m' -> next_rs_id_ m' = next_rs_id_ m ->
    ∃ m'' a, Some (m', [] : list Z) = Some (m'', a) /\ mgr_ok m'' /\
             issued_in (next_rs_id_ m) (next_rs_id_ m'') a).
  { intros m' M' E. exists m', []. split; [done|]. split; [done|]. rewrite E.
    split; [lia|]. split; constructor. }
  destruct op as [id w|id b|id b|i rc|id|]; cbn [exec].
  - apply N; unfold set_weight; destruct (find_rs id (services_ m)); try done;
      destruct (Z.gtb_spec w 65535); try done. by apply update_ok.
  - apply N; unfold set_enabled; destruct (find_rs id (services_ m)); try done. by apply update_ok.
  - apply N; unfold set_health; destruct (find_rs id (services_ m)); try done. by apply update_ok.
  - destruct W as [Wi Wr]. unfold add_rs.
    assert (N0 := N m M eq_refl).
    destruct (Z.geb_spec i (len (services_ m))) as [|Hi]; [done|].
    destruct (services_ m !! Z.to_nat i) as [ds|] eqn:Hds.
    2:{ apply lookup_ge_None in Hds. unfold len in Hi. zwrap. lia. }
    rewrite (list_lookup_total_correct _ _ _ Hds).
    destruct (Z.geb_spec (len (ds_rs ds)) kMaxRsPerService) as [|Hl]; [done|].
    destruct (find_addr _ _ _); [done|].
    destruct (Z.geb_spec (next_rs_id_ m) kMaxRsId) as [|Hn]; [done|].
    eexists _, _. split; [reflexivity|]. split; [by apply mgr_ok_add|]. cbn [next_rs_id_].
    pose proof (mk_next _ M). unfold kMaxRsId, kMaxRsCounters in *.
    rewrite u32_id by (zwrap; lia). split; [lia|].
    split; [apply NoDup_singleton|constructor; [lia|constructor]].
  - apply N; unfold del_rs; destruct (erase_rs id (services_ m)) as [l|] eqn:E; try done.
    by eapply mgr_ok_shrunk, erase_rs_shrunk.
  - destruct (publish_ok max_lcore m M) as (m' & snap & -> & _ & _ & E1 & E2 & E3 & E4 & E5).
    cbn [mbind option_bind]. apply N; [|done].
    destruct M. split; rewrite ?E1, ?E2, ?E3; auto.
Qed.

Lemma issued_app a b c l k : issued_in a b l -> issued_in b c k -> issued_in a c (l ++ k).
Proof.
  intros (H1 & H2 & H3) (K1 & K2 & K3). split; [lia|]. rewrite Forall_forall in H3, K3. split.
  - apply NoDup_app. split; [done|]. split; [|done]. intros x Hx Hy.
    specialize (H3 x Hx). specialize (K3 x Hy). lia.
  - apply Forall_app. split; apply Forall_forall; intros x Hx; [specialize (H3 x Hx)|specialize (K3 x Hx)]; lia.
Qed.

Lemma run_ok m ops :
  mgr_ok m -> Forall op_wf ops ->
  ∃ m' a, run m ops = Some (m', a) /\ mgr_ok m' /\ issued_in (next_rs_id_ m) (next_rs_id_ m') a.
Proof.
  intros M W. revert m M. induction W as [|op ops W Ws IH]; intros m M; cbn [run].
  { exists m, []. split; [done|]. split; [done|]. split; [lia|]. split; constructor. }
  destruct (mgr_exec_ok m op M W) as (m1 & a & -> & M1 & I1). cbn [mbind option_bind].
  destruct (IH m1 M1) as (m2 & b & -> & M2 & I2). cbn [mbind option_bind].
  exists m2, (a ++ b). split; [done|]. split; [done|]. by eapply issued_app.
Qed.

(** ** Start-up *)

(** Field values fit their types. *)
Definition config_typed (c : LbConfig) : Prop :=
  Forall (fun s => is_u16 (sc_port s) /\ Forall (fun r => is_u32 (rc_weight r)) (sc_rs s)) (c_services c).

Lemma number_rs_spec next l :
  0 <= next -> next + len l < 4294967296 ->
  let '(rs, next') := number_rs next l in
  next' = next + len l /\ d_id <$> rs = seqZ next (len l) /\ d_conf <$> rs = l /\
  Forall (fun d => d_enabled d = true /\ d_healthy d = true) rs.
Proof.
  unfold len. revert next. induction l as [|rc l IH]; intros next H0 Hb; cbn [number_rs].
  { split; [simpl; lia|]. split; [done|]. split; [done|constructor]. }
  rewrite u32_id by (simpl in Hb; zwrap; lia).
  specialize (IH (next + 1) ltac:(lia) ltac:(simpl in Hb; lia)).
  destruct (number_rs (next + 1) l) as [rs next']. destruct IH as (-> & I2 & I3 & I4).
  rewrite !fmap_cons, I2, I3, (seqZ_cons next (Z.of_nat (length (rc :: l)))) by (cbn [length]; lia). cbn [length d_id d_conf].
  split; [lia|]. split; [|split; [done|by constructor]].
  f_equal. f_equal; lia.
Qed.

(** The real servers of a configuration. *)
Definition conf_rs (l : list ServiceConf) : list RsConf := l ≫= sc_rs.

Lemma number_services_spec next l :
  0 <= next -> next + len (conf_rs l) < 4294967296 ->
  let '(svcs, next') := number_services next l in
  next' = next + len (conf_rs l) /\ ids svcs = seqZ next (len (conf_rs l)) /\
  Forall2 (fun sc ds => ds_conf ds = ds_conf_sans_rs sc /\ d_conf <$> ds_rs ds = sc_rs sc) l svcs.
Proof.
  unfold len. revert next. induction l as [|sc l IH]; intros next H0 Hb; cbn [number_services].
  { split; [simpl; lia|]. split; [done|constructor]. }
  unfold conf_rs in *. rewrite bind_cons, length_app in *.
  pose proof (number_rs_spec next (sc_rs sc) H0 ltac:(unfold len; lia)) as R.
  destruct (number_rs next (sc_rs sc)) as [rs next1]. destruct R as (-> & R2 & R3 & _). unfold len in *.
  specialize (IH (next + Z.of_nat (length (sc_rs sc))) ltac:(lia) ltac:(lia)).
  destruct (number_services _ l) as [svcs next2]. destruct IH as (-> & I2 & I3).
  split; [lia|]. split.
  - unfold ids, all_rs in *. rewrite bind_cons, fmap_app. cbn [ds_rs]. rewrite R2, I2.
    rewrite Nat2Z.inj_add, seqZ_app by lia. done.
  - by constructor.
Qed.

Lemma conf_rs_bound l :
  Forall (fun s => len (sc_rs s) <= kMaxRsPerService) l -> len (conf_rs l) <= 256 * len l.
Proof.
  unfold len, kMaxRsPerService, conf_rs. induction 1 as [|s l Hs H IH]; [done|].
  rewrite bind_cons, length_app. cbn [length]. lia.
Qed.

Lemma confs_built (l : list ServiceConf) (svcs : list DesiredService) (P : ServiceConf -> Prop) (Q : DesiredService -> Prop) :
  Forall2 (fun sc ds => ds_conf ds = ds_conf_sans_rs sc /\ d_conf <$> ds_rs ds = sc_rs sc) l svcs ->
  (∀ sc ds, ds_conf ds = ds_conf_sans_rs sc -> d_conf <$> ds_rs ds = sc_rs sc -> P sc -> Q ds) ->
  Forall P l -> Forall Q svcs.
Proof.
  intros H HPQ. induction H as [|sc ds l svcs [? ?] H IH]; intros F; [constructor|].
  apply Forall_cons in F as [F1 F2]. constructor; eauto.
Qed.

(** The state [init] publishes from. *)
Lemma start_state_ok cfg :
  config_ok cfg -> config_typed cfg ->
  let '(svcs, next) := number_services 1 (c_services cfg) in
  mgr_ok (mkManager (c_mode cfg) (match c_mode cfg with NAT => c_local_ips cfg | DR => [] end)
            (c_hc_src cfg) svcs next 0 None) /\
  ids svcs = seqZ 1 (len (conf_rs (c_services cfg))) /\ next = 1 + len (conf_rs (c_services cfg)).
Proof.
  intros [C1 C2 C3 C4 _ _ _ _] T. unfold kMaxServices, kMaxLocalIps in *.
  assert (R : Forall (fun s => len (sc_rs s) <= kMaxRsPerService) (c_services cfg)).
  { apply Forall_forall. intros s Hs. specialize (C2 s Hs). lia. }
  pose proof (conf_rs_bound _ R) as B.
  pose proof (number_services_spec 1 (c_services cfg) ltac:(lia) ltac:(lia)) as N.
  destruct (number_services 1 (c_services cfg)) as [svcs next]. destruct N as (-> & I & F).
  split; [|done]. assert (L : length svcs = length (c_services cfg)) by (symmetry; by eapply Forall2_length).
  split; cbn [services_ local_ips_ next_rs_id_]; rewrite ?I.
  - unfold len, kMaxServices in *. lia.
  - unfold kMaxLocalIps. destruct (c_mode cfg); [done|]. unfold len. simpl. lia.
  - replace (ds_key <$> svcs) with (svc_key <$> c_services cfg); [done|]. clear -F.
    induction F as [|sc ds l svcs [E _] F IH]; [done|]. rewrite !fmap_cons, IH. unfold ds_key. by rewrite E.
  - eapply confs_built; [exact F| |exact T]. simpl. intros sc ds -> _ [? _]. done.
  - eapply confs_built; [exact F| |exact R]. simpl. intros sc ds _ E H. unfold len in *.
    by rewrite <- E, length_fmap in H.
  - assert (Forall (fun ds => Forall (fun d => is_u32 (rc_weight (d_conf d))) (ds_rs ds)) svcs) as W.
    { eapply confs_built; [exact F| |exact T]. simpl. intros sc ds _ E [_ H]. rewrite <- E in H.
      rewrite Forall_fmap in H. exact H. }
    clear -W. unfold all_rs. induction W; [constructor|]. rewrite bind_cons. by apply Forall_app.
  - apply NoDup_seqZ.
  - apply Forall_forall. intros id Hid%elem_of_seqZ. lia.
  - unfold kMaxRsId, kMaxRsCounters, len in *. lia.
Qed.

Lemma init_ok cfg :
  config_ok cfg -> config_typed cfg ->
  ∃ m snap, init max_lcore Manager0 cfg = Some m /\ mgr_ok m /\ cur_ m = Some snap /\
    reflects max_lcore m snap /\ ids (services_ m) = seqZ 1 (len (conf_rs (c_services cfg))) /\
    next_rs_id_ m = 1 + len (conf_rs (c_services cfg)).
Proof.
  intros C T. pose proof (start_state_ok cfg C T) as S. unfold init. cbn [next_rs_id_ Manager0 services_ version_ cur_].
  destruct (number_services 1 (c_services cfg)) as [svcs next]. destruct S as (M & I & ->). cbn [app].
  destruct (publish_ok max_lcore _ M) as (m & snap & -> & Hc & Rf & E1 & E2 & E3 & E4 & E5).
  cbn [services_ next_rs_id_ local_ips_ hc_src_ mode_] in *.
  exists m, snap. split; [done|]. split; [|split; [done|split; [done|split; congruence]]].
  destruct M. split; rewrite ?E1, ?E2, ?E3; auto.
Qed.

(** From any accepted configuration, any sequence of control operations and
    publications succeeds or reports an error (nothing loops), and the ids of
    real servers, those of start-up and every one handed out later, are
    pairwise different: an id is never used twice, also after a deletion. *)
Theorem rs_ids_never_reused c cfg ops :
  validate c = Some cfg -> config_typed cfg -> Forall op_wf ops ->
  ∃ m0 m issued, init max_lcore Manager0 cfg = Some m0 /\ run m0 ops = Some (m, issued) /\
    NoDup (ids (services_ m0) ++ issued) /\
    Forall (fun id => 0 < id <= kMaxRsId) (ids (services_ m0) ++ issued).
Proof.
  intros V T W. destruct (init_ok cfg (validate_ok _ _ V) T) as (m0 & snap & Hi & M0 & _ & _ & I & Hn).
  destruct (run_ok m0 ops M0 W) as (m & issued & Hr & M & H).
  exists m0, m, issued. split; [done|]. split; [done|].
  assert (issued_in 1 (next_rs_id_ m0) (ids (services_ m0))) as H0.
  { rewrite I, Hn. split; [unfold len; lia|]. split; [apply NoDup_seqZ|].
    apply Forall_forall. intros id Hid%elem_of_seqZ. lia. }
  destruct (issued_app _ _ _ _ _ H0 H) as (_ & ND & F). split; [done|].
  eapply Forall_impl; [exact F|]. pose proof (mk_next _ M). simpl. lia.
Qed.

(** C6. Publication is exact: after any history of control operations, the
    published snapshot finds a real server by id exactly when the desired
    state has it, with its current weight, state and health, finds the
    service of (vip, port, proto) exactly when it is configured, with a
    scheduler built from its schedulable real servers, and recognises exactly
    the configured service, local and health-check addresses (0.0.0.0 apart,
    which marks an empty slot); the probing tables always end their search. *)
Theorem published_snapshot_exact c cfg ops :
  validate c = Some cfg -> config_typed cfg -> Forall op_wf ops ->
  ∃ m0 m issued m' snap, init max_lcore Manager0 cfg = Some m0 /\ run m0 ops = Some (m, issued) /\
    publish max_lcore m = Some m' /\ cur_ m' = Some snap /\ services_ m' = services_ m /\
    reflects max_lcore m' snap.
Proof.
  intros V T W. destruct (init_ok cfg (validate_ok _ _ V) T) as (m0 & snap0 & Hi & M0 & _).
  destruct (run_ok m0 ops M0 W) as (m & issued & Hr & M & _).
  destruct (publish_ok max_lcore m M) as (m' & snap & Hp & Hc & Rf & E & _).
  exists m0, m, issued, m', snap. repeat (split; [done|]). done.
Qed.

End Run.

(** ** Witnesses *)

Definition rs_conf (i : nat) : RsConf := mkRsConf (Z.of_nat (S i)) 8080 1 mac_zero.
Definition svc_conf (n : nat) (i : nat) : ServiceConf :=
  mkServiceConf String.EmptyString (Z.of_nat (S i)) 80 6 WRR (rs_conf <$> seq 0 n).

(** [k] services of [n] real servers. *)
Definition cfg_of (k n : nat) : LbConfig :=
  mkLbConfig NAT 1048576 TimeoutConf_default false true 0 0 [167772161] 0
    (mkHealthConf false 5000 3000 3 2) (svc_conf n <$> seq 0 k).

Definition cfg_valid (k n : nat) : LbConfig := set_hc_src 167772161 (cfg_of k n).

(** A configuration that passes validation has at least one and at most 64
    services with distinct (vip, port, proto), each with 1 to 256 real servers;
    in FULLNAT mode there is a local address; health checks have a source
    address, which in DR mode is no VIP; and no service on a local address
    listens on a port reserved for SNAT or health checks. *)
Theorem validate_sound c c' : validate c = Some c' -> config_ok c'.
Proof. apply validate_ok. Qed.

Lemma validate_sound_witness : config_ok (cfg_valid 2 2).
Proof. apply (validate_sound (cfg_of 2 2)). vm_compute. reflexivity. Defined.

Lemma cfg_typed k n : config_typed (cfg_valid k n).
Proof.
  apply Forall_fmap, Forall_forall. intros i _. split; [cbn; zwrap; lia|].
  apply Forall_fmap, Forall_forall. intros j _. cbn. zwrap. lia.
Qed.

Definition demo_ops : list mgr_op :=
  [OpDel 2; OpAdd 0 (rs_conf 7); OpWeight 1 5; OpEnabled 3 false; OpPublish; OpDel 5; OpAdd 1 (rs_conf 8)].

Lemma demo_ops_wf : Forall op_wf demo_ops.
Proof. repeat constructor; cbn; zwrap; lia. Qed.

Lemma rs_ids_never_reused_witness :
  ∃ m0 m issued, init (HF := mix_fns) 4 Manager0 (cfg_valid 2 2) = Some m0 /\
    run (HF := mix_fns) 4 m0 demo_ops = Some (m, issued) /\
    NoDup (ids (services_ m0) ++ issued) /\
    Forall (fun id => 0 < id <= kMaxRsId) (ids (services_ m0) ++ issued).
Proof.
  apply (rs_ids_never_reused (HF := mix_fns) 4 (cfg_of 2 2) (cfg_valid 2 2) demo_ops).
  - vm_compute. reflexivity.
  - apply cfg_typed.
  - apply demo_ops_wf.
Defined.

Lemma published_snapshot_exact_witness :
  ∃ m0 m issued m' snap, init (HF := mix_fns) 4 Manager0 (cfg_valid 2 2) = Some m0 /\
    run (HF := mix_fns) 4 m0 demo_ops = Some (m, issued) /\
    publish (HF := mix_fns) 4 m = Some m' /\ cur_ m' = Some snap /\ services_ m' = services_ m /\
    reflects (HF := mix_fns) 4 m' snap.
Proof.
  apply (published_snapshot_exact (HF := mix_fns) 4 (cfg_of 2 2) (cfg_valid 2 2) demo_ops).
  - vm_compute. reflexivity.
  - apply cfg_typed.
  - apply demo_ops_wf.
Defined.

(** Start-up hands out one id too many: a configuration at the documented
    limits (64 services of 256 real servers) is accepted, and its last real
    server gets id 16384, one past the end of the per-worker counter arrays
    ([kMaxRsCounters] entries) that the packet path indexes by id; [add_rs]
    refuses that id, [init] does not. *)
Theorem init_id_past_counters `{HF : RteHashFns} max_lcore :
  ∃ m, validate (cfg_of 64 256) = Some (cfg_valid 64 256) /\
    init max_lcore Manager0 (cfg_valid 64 256) = Some m /\ kMaxRsCounters ∈ ids (services_ m).
Proof.
  assert (V : validate (cfg_of 64 256) = Some (cfg_valid 64 256)) by (vm_compute; reflexivity).
  destruct (init_ok max_lcore (cfg_valid 64 256) (validate_ok _ _ V) (cfg_typed 64 256))
    as (m & snap & Hi & _ & _ & _ & I & _).
  exists m. split; [done|]. split; [done|]. rewrite I.
  replace (len (conf_rs (c_services (cfg_valid 64 256)))) with 16384 by (vm_compute; reflexivity).
  apply elem_of_seqZ. unfold kMaxRsCounters. lia.
Qed.

End ManagerProps.
