(* ===== verification/Neigh.v ===== *)
(** The neighbour table: include/net/neigh.h, src/net/neigh.cpp.

    [store] and its callers run on the master thread; [lookup] and
    [generation] are what workers read.  The lock-free hash and its RCU
    reclamation are DPDK's: the hash is a parameter. *)
From S2P Require Import Prelude Types Mem Dpdk.

Module Neigh.

Definition kCapacity : Z := 65536.
Definition kReachableSec : Z := 300.
Definition kRefreshSec : Z := 240.
Definition kRequestGapSec : Z := 1.
Definition kValidBit : Z := 9223372036854775808.

Definition pack (mac : MacAddr) : Z := Z.lor (le_val mac) kValidBit.

(** memcpy of the six low bytes. *)
Definition unpack (v : Z) : MacAddr :=
  [v mod 256; (v / 256) mod 256; (v / 65536) mod 256; (v / 16777216) mod 256;
   (v / 4294967296) mod 256; (v / 1099511627776) mod 256].

Record Meta := mkMeta {
  confirmed : Z;
  requested : Z;
  is_static : bool;
  valid : bool
}.

Definition Meta0 : Meta := mkMeta 0 0 false false.

Definition set_confirmed (v : Z) (m : Meta) : Meta := mkMeta v (requested m) (is_static m) (valid m).
Definition set_requested (v : Z) (m : Meta) : Meta := mkMeta (confirmed m) v (is_static m) (valid m).
Definition set_static (v : bool) (m : Meta) : Meta := mkMeta (confirmed m) (requested m) v (valid m).
Definition set_valid (v : bool) (m : Meta) : Meta := mkMeta (confirmed m) (requested m) (is_static m) v.

Section NeighTable.
Context `{RH : RteHash Z}.

Record NeighTable := mkNeigh {
  nt_hash : rte_hash Z;
  nt_meta : gmap Z Meta;
  nt_gen : Z;
  nt_count : Z
}.

(** meta_[ip] creates a default entry. *)
Definition meta_at (t : NeighTable) (ip : IPv4Addr) : Meta := default Meta0 (nt_meta t !! ip).
Definition meta_set (t : NeighTable) (ip : IPv4Addr) (f : Meta -> Meta) : NeighTable :=
  mkNeigh (nt_hash t) (<[ip := f (meta_at t ip)]> (nt_meta t)) (nt_gen t) (nt_count t).

(** [None]: creating the hash or attaching RCU ([rcu_ok]) failed. *)
Definition init (rcu_ok : bool) : option NeighTable :=
  h ← rte_hash_create kCapacity;
  if rcu_ok then Some (mkNeigh h ∅ 1 0) else None.

Definition generation (t : NeighTable) : Z := nt_gen t.
Definition count (t : NeighTable) : Z := nt_count t.

Definition lookup (t : NeighTable) (ip : IPv4Addr) : option MacAddr :=
  v ← rte_hash_lookup_data (nt_hash t) ip;
  if Z.land v kValidBit =? 0 then None else Some (unpack v).

Definition store (t : NeighTable) (ip : IPv4Addr) (mac : MacAddr) : NeighTable :=
  match rte_hash_add_key_data (nt_hash t) ip (pack mac) with
  | None => t
  | Some h =>
    let m := meta_at t ip in
    mkNeigh h (<[ip := set_valid true m]> (nt_meta t)) (u32 (nt_gen t + 1))
      (if valid m then nt_count t else u32 (nt_count t + 1))
  end.

Definition erase (t : NeighTable) (ip : IPv4Addr) : NeighTable :=
  let h := rte_hash_del_key (nt_hash t) ip in
  match nt_meta t !! ip with
  | Some m => mkNeigh h (delete ip (nt_meta t)) (u32 (nt_gen t + 1))
                (if valid m then u32 (nt_count t - 1) else nt_count t)
  | None => mkNeigh h (nt_meta t) (u32 (nt_gen t + 1)) (nt_count t)
  end.

Definition add_static (t : NeighTable) (ip : IPv4Addr) (mac : MacAddr) : NeighTable :=
  meta_set (store t ip mac) ip (set_static true).

Definition learn (t : NeighTable) (ip : IPv4Addr) (mac : MacAddr) (solicited : bool) (now : Z)
  : NeighTable :=
  let m := meta_at t ip in
  if is_static m then t
  else
    let known := valid m in
    if negb solicited && negb known && (count t >=? kCapacity / 2) then t
    else
      let t := if negb known || negb (bool_decide (lookup t ip = Some mac))
               then store t ip mac else t in
      meta_set t ip (set_confirmed now).

Definition hint (t : NeighTable) (ip : IPv4Addr) (mac : MacAddr) (now : Z) : NeighTable :=
  if valid (meta_at t ip) then t
  else if count t >=? kCapacity / 2 then t
  else meta_set (store t ip mac) ip (set_confirmed now).

Definition want_request (t : NeighTable) (ip : IPv4Addr) (now : Z) : bool * NeighTable :=
  let m := meta_at t ip in
  let t := meta_set t ip (fun m => m) in
  if is_static m || (u64 (now - requested m) <? kRequestGapSec) then (false, t)
  else (true, meta_set t ip (set_requested now)).

(** The two lists collected by the first loop of [age]. *)
Definition is_dead (now : Z) (m : Meta) : bool :=
  negb (is_static m) && valid m && (u64 (now - confirmed m) >=? kReachableSec).
Definition is_stale (now : Z) (m : Meta) : bool :=
  negb (is_static m) && valid m && negb (u64 (now - confirmed m) >=? kReachableSec)
  && (u64 (now - confirmed m) >=? kRefreshSec)
  && (u64 (now - requested m) >=? kRequestGapSec * 5).

(** Entries that only record a request, and are old. *)
Definition is_leftover (now : Z) (m : Meta) : bool :=
  negb (valid m) && negb (is_static m) && (u64 (now - requested m) >? kReachableSec).

(** The iteration order of the unordered_map is unspecified; here it is that
    of [map_to_list]. *)
Definition age (t : NeighTable) (now : Z) (refresh : list IPv4Addr) : NeighTable * list IPv4Addr :=
  let all := map_to_list (nt_meta t) in
  let dead := fst <$> filter (fun kv => is_dead now kv.2 = true) all in
  let refresh := refresh ++ (fst <$> filter (fun kv => is_stale now kv.2 = true) all) in
  let t := foldl erase t dead in
  let t := foldl (fun t ip => meta_set t ip (set_requested now)) t refresh in
  (mkNeigh (nt_hash t) (filter (fun kv => is_leftover now kv.2 = false) (nt_meta t))
     (nt_gen t) (nt_count t), refresh).

End NeighTable.
End Neigh.
