(* ===== verification/NeighProps.v ===== *)
(** The neighbour table: consistency, cache coherence through the generation
    counter, protection of static entries and bounded growth. *)
From S2P Require Import Prelude Types Mem Dpdk Neigh.
Import Neigh.

Module NeighProps.

Definition mac_wf (mac : MacAddr) : Prop := len mac = 6 /\ frame mac.

Lemma mac_bytes mac : mac_wf mac -> ∃ a b c d e f, mac = [a; b; c; d; e; f] /\
  is_u8 a /\ is_u8 b /\ is_u8 c /\ is_u8 d /\ is_u8 e /\ is_u8 f.
Proof.
  intros [Hl Hf]. unfold len in Hl.
  destruct mac as [|a [|b [|c [|d [|e [|f [|]]]]]]]; simpl in Hl; try lia.
  unfold frame in Hf. rewrite !Forall_cons in Hf. exists a, b, c, d, e, f. tauto.
Qed.

Lemma land_high a : 0 <= a < kValidBit -> Z.land a kValidBit = 0.
Proof.
  unfold kValidBit. change 9223372036854775808 with (2 ^ 63). intros Ha. apply Z.bits_inj'. intros n Hn.
  rewrite Z.land_spec, Z.bits_0, Z.pow2_bits_eqb by lia.
  destruct (Z.eqb_spec 63 n) as [<-|]; [|by rewrite andb_false_r].
  rewrite (Z.bits_above_log2 a 63); [done|lia|]. destruct (decide (a = 0)) as [->|]; [simpl; lia|].
  apply Z.log2_lt_pow2; lia.
Qed.

Lemma lor_high a : 0 <= a < kValidBit -> Z.lor a kValidBit = a + kValidBit.
Proof.
  intros Ha. pose proof (land_high a Ha). rewrite <- Z.lxor_lor, <- Z.add_nocarry_lxor; done.
Qed.

Lemma valid_bit v : 0 <= v < kValidBit -> Z.land (v + kValidBit) kValidBit =? 0 = false.
Proof.
  intros Hv. rewrite <- lor_high, Z.land_lor_distr_l, land_high, Z.land_diag by done. done.
Qed.

(** One base-256 digit. *)
Lemma digit x B lo d hi :
  x = lo + B * (d + 256 * hi) -> 0 <= lo < B -> is_u8 d -> (x / B) mod 256 = d.
Proof.
  intros -> Hlo Hd. zwrap. rewrite <- (Z.div_unique (lo + B * (d + 256 * hi)) B (d + 256 * hi) lo) by lia.
  symmetry. apply (Z.mod_unique _ _ hi); lia.
Qed.

Lemma unpack_pack mac : mac_wf mac -> unpack (pack mac) = mac /\ Z.land (pack mac) kValidBit =? 0 = false.
Proof.
  intros (a & b & c & d & e & f & -> & Ha & Hb & Hc & Hd & He & Hf)%mac_bytes.
  unfold pack. cbn [le_val]. set (v := a + _).
  assert (Hv : v = a + 256 * b + 65536 * c + 16777216 * d + 4294967296 * e + 1099511627776 * f)
    by (unfold v; ring).
  assert (R : 0 <= v < 281474976710656) by (zwrap; lia).
  assert (R' : 0 <= v < kValidBit) by (unfold kValidBit; lia).
  split; [|rewrite lor_high by done; by apply valid_bit].
  rewrite lor_high by done. unfold unpack, kValidBit. clearbody v. zwrap.
  f_equal; [|f_equal; [|f_equal; [|f_equal; [|f_equal; [|f_equal]]]]].
  - rewrite <- (Z.div_1_r (v + _)). apply (digit _ 1 0 a (b + 256 * c + 65536 * d + 16777216 * e + 4294967296 * f + 36028797018963968)); zwrap; lia.
  - apply (digit _ _ a b (c + 256 * d + 65536 * e + 16777216 * f + 140737488355328)); zwrap; lia.
  - apply (digit _ _ (a + 256 * b) c (d + 256 * e + 65536 * f + 549755813888)); zwrap; lia.
  - apply (digit _ _ (a + 256 * b + 65536 * c) d (e + 256 * f + 2147483648)); zwrap; lia.
  - apply (digit _ _ (a + 256 * b + 65536 * c + 16777216 * d) e (f + 8388608)); zwrap; lia.
  - apply (digit _ _ (a + 256 * b + 65536 * c + 16777216 * d + 4294967296 * e) f 32768); zwrap; lia.
Qed.

Lemma u32_idem a b : u32 (u32 a + b) = u32 (a + b).
Proof. unfold u32. apply Zplus_mod_idemp_l. Qed.

Section Props.
Context `{RH : RteHash Z} `{RL : !RteHashLaws Z RH}.
Implicit Types t : NeighTable.

(** ** Consistency *)

Record neigh_ok t : Prop := {
  no_valid ip : is_Some (content (nt_hash t) !! ip) <-> valid (meta_at t ip) = true;
  no_packed ip v : content (nt_hash t) !! ip = Some v -> ∃ mac, mac_wf mac /\ v = pack mac;
  no_count : nt_count t = u32 (Z.of_nat (size (content (nt_hash t))))
}.

(** What workers see. *)
Definition view t : gmap Z MacAddr := unpack <$> content (nt_hash t).

Lemma neigh_lookup_view t ip : neigh_ok t -> lookup t ip = view t !! ip.
Proof.
  intros N. unfold lookup, view. rewrite content_lookup, lookup_fmap.
  destruct (content (nt_hash t) !! ip) as [v|] eqn:E; [|done]. cbn.
  destruct (no_packed _ N ip v E) as (mac & W & ->). by rewrite (proj2 (unpack_pack mac W)).
Qed.

Lemma meta_at_set t ip f ip' :
  meta_at (meta_set t ip f) ip' = if decide (ip = ip') then f (meta_at t ip) else meta_at t ip'.
Proof.
  unfold meta_set. unfold meta_at at 1. cbn [nt_meta]. rewrite lookup_insert. by case_decide; subst.
Qed.

(** Only bookkeeping changes. *)
Lemma meta_set_ok t ip f :
  (∀ m, valid (f m) = valid m) -> neigh_ok t -> neigh_ok (meta_set t ip f).
Proof.
  intros Hf [N1 N2 N3]. split; auto. intros ip'. rewrite meta_at_set.
  case_decide; [subst; rewrite Hf|]; apply N1.
Qed.

Definition entries_used t : Z := Z.of_nat (size (content (nt_hash t))).

(** [n] changes of the content, counted by the generation. *)
Definition moved (n : Z) t t' : Prop :=
  0 <= n /\ nt_gen t' = u32 (nt_gen t + n) /\ (n = 0 -> content (nt_hash t') = content (nt_hash t)).

Lemma nmoved_trans a b t1 t2 t3 : moved a t1 t2 -> moved b t2 t3 -> moved (a + b) t1 t3.
Proof.
  intros (A0 & A1 & A2) (B0 & B1 & B2). split; [lia|]. split.
  - rewrite B1, A1, u32_idem. f_equal. lia.
  - intros E. rewrite B2, A2 by lia. done.
Qed.

Definition gen_wf t : Prop := is_u32 (nt_gen t).

Lemma nmoved_refl t : gen_wf t -> moved 0 t t.
Proof. intros G. split; [lia|]. split; [|done]. rewrite Z.add_0_r. symmetry. by apply u32_id. Qed.

Lemma moved_meta t ip f : gen_wf t -> moved 0 t (meta_set t ip f).
Proof. intros G. split; [lia|]. split; [|done]. cbn. rewrite Z.add_0_r. symmetry. by apply u32_id. Qed.

Lemma moved_wf n t t' : moved n t t' -> gen_wf t'.
Proof. intros (_ & E & _). unfold gen_wf. rewrite E. apply u32_is. Qed.

Lemma store_ok t ip mac :
  neigh_ok t -> mac_wf mac -> gen_wf t ->
  neigh_ok (store t ip mac) /\ (∃ n, moved n t (store t ip mac) /\ n <= 1) /\
  (store t ip mac = t \/
   content (nt_hash (store t ip mac)) = <[ip := pack mac]> (content (nt_hash t)) /\
   valid (meta_at (store t ip mac) ip) = true).
Proof.
  intros N W G. pose proof N as [N1 N2 N3]. unfold store.
  destruct (rte_hash_add_key_data (nt_hash t) ip (pack mac)) as [h|] eqn:E.
  2:{ split; [done|]. split; [exists 0; split; [by apply nmoved_refl|lia]|by left]. }
  destruct (content_add _ _ _ _ E) as [C _].
  assert (V : ∀ ip', valid (meta_at (mkNeigh h (<[ip := set_valid true (meta_at t ip)]> (nt_meta t))
    (u32 (nt_gen t + 1)) (if valid (meta_at t ip) then nt_count t else u32 (nt_count t + 1))) ip')
    = if decide (ip = ip') then true else valid (meta_at t ip')).
  { intros ip'. unfold meta_at at 1. cbn [nt_meta]. rewrite lookup_insert. by case_decide. }
  split; [|split].
  - split; cbn [nt_hash nt_count].
    + intros ip'. rewrite V, C, lookup_insert. case_decide; [by split; [|eauto]|apply N1].
    + intros ip' v. rewrite C, lookup_insert. case_decide; [intros [= <-]; eauto|apply N2].
    + rewrite C. specialize (N1 ip). destruct (valid (meta_at t ip)).
      * rewrite map_size_insert_Some; [done|]. by apply N1.
      * rewrite map_size_insert_None, N3; [rewrite u32_idem; f_equal; lia|].
        apply eq_None_not_Some. intros H%N1. done.
  - exists 1. split; [|lia]. split; [lia|]. split; [done|lia].
  - right. cbn [nt_hash]. split; [done|]. rewrite V. by rewrite decide_True.
Qed.

Lemma meta_at_erase t ip ip' :
  meta_at (erase t ip) ip' = if decide (ip = ip') then Meta0 else meta_at t ip'.
Proof.
  unfold erase, meta_at. destruct (nt_meta t !! ip) as [m|] eqn:E; cbn [nt_meta].
  - rewrite lookup_delete. by case_decide.
  - case_decide; [subst; by rewrite E|done].
Qed.

Lemma erase_hash t ip : content (nt_hash (erase t ip)) = delete ip (content (nt_hash t)).
Proof. unfold erase. destruct (nt_meta t !! ip); cbn [nt_hash]; apply content_del. Qed.

Lemma erase_ok t ip :
  neigh_ok t -> neigh_ok (erase t ip) /\ moved 1 t (erase t ip).
Proof.
  intros [N1 N2 N3]. split; [|split; [lia|]; split; [by unfold erase; destruct (nt_meta t !! ip)|lia]].
  split.
  - intros ip'. rewrite meta_at_erase, erase_hash, lookup_delete. case_decide; [|apply N1].
    split; [by intros []|done].
  - intros ip' v. rewrite erase_hash, lookup_delete. case_decide; [done|apply N2].
  - rewrite erase_hash. specialize (N1 ip). unfold erase, meta_at in *.
    destruct (nt_meta t !! ip) as [m|]; cbn [nt_count default] in *.
    + destruct (valid m) eqn:Ev.
      * destruct (proj2 N1 Ev) as [v Hv]. rewrite (map_size_delete_Some ip _ ltac:(eauto)), N3. unfold Z.sub. rewrite u32_idem.
        f_equal. assert (size (content (nt_hash t)) <> 0)%nat; [|lia].
        intros E%map_size_empty_inv. by rewrite E in Hv.
      * rewrite map_size_delete_None; [done|]. apply eq_None_not_Some. intros H%N1. cbn in H. congruence.
    + rewrite map_size_delete_None; [done|]. apply eq_None_not_Some. intros H%N1. done.
Qed.

(** ** Operations of the master *)

Inductive nop :=
| NStatic (ip : IPv4Addr) (mac : MacAddr)
| NLearn (ip : IPv4Addr) (mac : MacAddr) (solicited : bool) (now : Z)
| NHint (ip : IPv4Addr) (mac : MacAddr) (now : Z)
| NWant (ip : IPv4Addr) (now : Z)
| NAge (now : Z) (refresh : list IPv4Addr).

Definition nop_wf (o : nop) : Prop :=
  match o with NStatic _ m | NLearn _ m _ _ | NHint _ m _ => mac_wf m | _ => True end.

Definition nexec t (o : nop) : NeighTable :=
  match o with
  | NStatic ip mac => add_static t ip mac
  | NLearn ip mac s now => learn t ip mac s now
  | NHint ip mac now => hint t ip mac now
  | NWant ip now => (want_request t ip now).2
  | NAge now refresh => (age t now refresh).1
  end.

Definition good t : Prop := neigh_ok t /\ gen_wf t.
(** A step keeps the table consistent; the generation counts its changes of the
    content, which are at most [k] more than the entries it frees. *)
Definition went (k : Z) t t' : Prop :=
  good t' /\ ∃ n, moved n t t' /\ n + entries_used t' <= entries_used t + k.

Lemma went_refl t : good t -> went 0 t t.
Proof. intros [N G]. split; [done|]. exists 0. split; [by apply nmoved_refl|lia]. Qed.

Lemma went_trans a b t1 t2 t3 : went a t1 t2 -> (good t2 -> went b t2 t3) -> went (a + b) t1 t3.
Proof.
  intros (G2 & n & M & Hn) H. destruct (H G2) as (G & k & M' & Hk). split; [done|].
  exists (n + k). split; [by eapply nmoved_trans|lia].
Qed.

Lemma went_le a b t t' : a <= b -> went a t t' -> went b t t'.
Proof. intros H (G & n & M & Hn). split; [done|]. exists n. split; [done|lia]. Qed.

Lemma went_store t ip mac : good t -> mac_wf mac -> went 2 t (store t ip mac).
Proof.
  intros [N G] W. destruct (store_ok t ip mac N W G) as (N' & (n & M & Hn) & H). split.
  { split; [done|by eapply moved_wf]. }
  exists n. split; [done|]. unfold entries_used. destruct H as [->|[-> _]]; [lia|].
  destruct (content (nt_hash t) !! ip) eqn:E; [rewrite map_size_insert_Some by eauto; lia|].
  rewrite map_size_insert_None by done. lia.
Qed.

Lemma went_meta t ip f : good t -> (∀ m, valid (f m) = valid m) -> went 0 t (meta_set t ip f).
Proof.
  intros [N G] Hf. split; [split; [by apply meta_set_ok|done]|]. exists 0. split; [by apply moved_meta|].
  change (entries_used (meta_set t ip f)) with (entries_used t). lia.
Qed.

Lemma went_erase t ip : good t -> is_Some (content (nt_hash t) !! ip) -> went 0 t (erase t ip).
Proof.
  intros [N G] Hs. destruct (erase_ok t ip N) as [N' M]. split; [split; [done|by eapply moved_wf]|].
  exists 1. split; [done|]. unfold entries_used. rewrite erase_hash, map_size_delete_Some by done.
  assert (size (content (nt_hash t)) <> 0)%nat; [|lia].
  intros E%map_size_empty_inv. rewrite E in Hs. by destruct Hs.
Qed.

Lemma went_erase_all l t :
  NoDup l -> (∀ ip, ip ∈ l -> is_Some (content (nt_hash t) !! ip)) -> good t -> went 0 t (foldl erase t l).
Proof.
  intros ND. revert t. induction ND as [|ip l Hip ND IH]; intros t Hl G; [by apply went_refl|]. cbn [foldl].
  apply (went_trans 0 0 _ (erase t ip)); [apply went_erase; [done|apply Hl; set_solver]|]. intros G'. apply IH; [|done].
  intros ip' Hip'. rewrite erase_hash, lookup_delete_ne by set_solver. apply Hl. set_solver.
Qed.

Lemma went_metas f l t :
  (∀ m, valid (f m) = valid m) -> good t -> went 0 t (foldl (fun t ip => meta_set t ip f) t l).
Proof.
  intros Hf. revert t. induction l as [|x l IH]; intros t G; [by apply went_refl|].
  cbn [foldl]. apply (went_trans 0 0 _ (meta_set t x f)); [by apply went_meta|]. apply IH.
Qed.

(** Dropping leftovers changes no answer. *)
Lemma went_sweep t now :
  good t ->
  went 0 t (mkNeigh (nt_hash t) (filter (fun kv => is_leftover now kv.2 = false) (nt_meta t))
              (nt_gen t) (nt_count t)).
Proof.
  intros [[N1 N2 N3] G]. split; [split; [|done]|].
  - split; auto. intros ip. cbn [nt_hash]. rewrite N1. unfold meta_at. cbn [nt_meta].
    rewrite map_lookup_filter. destruct (nt_meta t !! ip) as [m|]; [|done]. cbn.
    destruct (is_leftover now m) eqn:E.
    + rewrite option_guard_False by done. unfold is_leftover in E. bprop. cbn. by rewrite H.
    + by rewrite option_guard_True.
  - exists 0. split; [|unfold entries_used; cbn; lia]. split; [lia|]. split; [|done]. cbn. rewrite Z.add_0_r. symmetry. by apply u32_id.
Qed.

Lemma went_age t now refresh : good t -> went 0 t (age t now refresh).1.
Proof.
  intros G. unfold age. cbn [fst]. set (dead := fst <$> _). set (rf := refresh ++ _).
  apply (went_trans 0 0 _ (foldl erase t dead)).
  { apply went_erase_all; [|intros ip|done].
    - unfold dead. assert (S : (filter (fun kv => is_dead now kv.2 = true) (map_to_list (nt_meta t))).*1
        `sublist_of` (map_to_list (nt_meta t)).*1) by apply fmap_sublist, sublist_filter.
      exact (sublist_NoDup _ _ (NoDup_fst_map_to_list (nt_meta t)) S).
    - intros ([k m] & -> & [Hd Hin%elem_of_map_to_list]%list_elem_of_filter)%list_elem_of_fmap. cbn in *.
      apply (no_valid _ (proj1 G)). unfold meta_at. rewrite Hin. cbn. unfold is_dead in Hd. bprop. done. }
  intros G1. apply (went_trans 0 0 _ (foldl (fun t ip => meta_set t ip (set_requested now)) (foldl erase t dead) rf));
    [by apply went_metas|]. apply went_sweep.
Qed.

Lemma nexec_went t o : good t -> nop_wf o -> went 2 t (nexec t o).
Proof.
  intros G W. assert (R : went 2 t t) by (by apply (went_le 0), went_refl).
  destruct o as [ip mac|ip mac s now|ip mac now|ip now|now refresh]; cbn [nexec].
  - apply (went_trans 2 0 _ (store t ip mac)); [by apply went_store|]. intros. by apply went_meta.
  - unfold learn. destruct (is_static _); [done|]. destruct (_ && _); [done|].
    apply (went_trans 2 0 _ (if negb (valid (meta_at t ip)) || negb (bool_decide (lookup t ip = Some mac)) then store t ip mac else t));
      [|intros; by apply went_meta].
    destruct (_ || _); [by apply went_store|done].
  - unfold hint. destruct (valid _); [done|]. destruct (_ >=? _); [done|].
    apply (went_trans 2 0 _ (store t ip mac)); [by apply went_store|]. intros. by apply went_meta.
  - unfold want_request. apply (went_le 0); [lia|]. destruct (_ || _); cbn [snd]; [by apply went_meta|].
    apply (went_trans 0 0 _ (meta_set t ip (fun m => m))); [by apply went_meta|]. intros. by apply went_meta.
  - apply (went_le 0); [lia|]. by apply went_age.
Qed.

Lemma nexec_all t ops : good t -> Forall nop_wf ops -> went (2 * len ops) t (foldl nexec t ops).
Proof.
  intros G W. revert t G. induction W as [|o ops Wo W IH]; intros t G; [by apply went_refl|].
  cbn [foldl]. replace (2 * len (o :: ops)) with (2 + 2 * len ops) by (unfold len; cbn [length]; lia).
  apply (went_trans _ _ _ (nexec t o)); [by apply nexec_went|]. apply IH.
Qed.

(** The table was changed by its own operations only. *)
Definition goes t t' : Prop := good t' /\ ∃ ops, Forall nop_wf ops /\ t' = foldl nexec t ops.

Lemma goes_refl t : good t -> goes t t.
Proof. intros G. split; [done|]. by exists []. Qed.

Lemma goes_trans t1 t2 t3 : goes t1 t2 -> goes t2 t3 -> goes t1 t3.
Proof.
  intros (_ & l & W & ->) (G & l' & W' & ->). split; [done|]. exists (l ++ l'). by rewrite Forall_app, foldl_app.
Qed.

Lemma nexec_goes t o : good t -> nop_wf o -> goes t (nexec t o).
Proof. intros G W. split; [by apply (nexec_went t o)|]. exists [o]. by rewrite Forall_singleton. Qed.

Lemma init_good b t : init b = Some t -> good t /\ content (nt_hash t) = ∅.
Proof.
  unfold init. destruct (rte_hash_create kCapacity) as [h|] eqn:E; [|done].
  destruct b; [|done]. intros [= <-]. destruct (content_create _ _ E) as [C _].
  split; [split; [|unfold gen_wf; cbn; zwrap; lia]|done]. split; cbn [nt_hash nt_count].
  - intros ip. rewrite C, lookup_empty. unfold meta_at. cbn. split; [by intros []|done].
  - intros ip v. by rewrite C.
  - rewrite C. by rewrite map_size_empty.
Qed.

(** C37. Cached MAC addresses are coherent.  Take the table after any sequence of
    the master's operations from start-up, and again after further operations,
    at most 2^31 less half the entries of the table: if the generation is the
    same, every lookup gives the same answer, so a worker may keep using the
    address it cached under that generation. *)
Theorem neigh_generation_coherent b t0 before ops :
  init b = Some t0 -> Forall nop_wf before -> Forall nop_wf ops ->
  let t := foldl nexec t0 before in
  let t' := foldl nexec t ops in
  entries_used t + 2 * len ops < 4294967296 ->
  generation t' = generation t -> ∀ ip, lookup t' ip = lookup t ip.
Proof.
  intros I Wb W t t' Hb E ip. destruct (init_good b t0 I) as [G0 _].
  destruct (nexec_all t0 before G0 Wb) as [G _]. fold t in G.
  destruct (nexec_all t ops G W) as [G' (n & (M0 & M1 & M2) & Hn)]. fold t' in G', M1, M2, Hn.
  unfold generation in E. destruct G as [N Gt], G' as [N' Gt']. rewrite !neigh_lookup_view by done. unfold view. rewrite M2; [done|].
  assert (0 <= entries_used t') by (unfold entries_used; lia).
  rewrite E in M1. unfold gen_wf in Gt. zwrap. Z.to_euclidean_division_equations. lia.
Qed.

(** What is stored is what is read: if the hash has room, a stored MAC is
    returned by the next lookup of its address, byte for byte, through the
    packed 64-bit value, and no other address's answer changes. *)
Theorem neigh_store_lookup t ip mac :
  good t -> mac_wf mac -> Z.of_nat (size (content (nt_hash t))) < entries (nt_hash t) ->
  lookup (store t ip mac) ip = Some mac /\
  ∀ ip', ip' <> ip -> lookup (store t ip mac) ip' = lookup t ip'.
Proof.
  intros [N G] W Hroom. destruct (store_ok t ip mac N W G) as (N' & _ & H).
  destruct (add_has_room (nt_hash t) ip (pack mac) Hroom) as [h Hh].
  assert (C : content (nt_hash (store t ip mac)) = <[ip := pack mac]> (content (nt_hash t))).
  { unfold store. rewrite Hh. cbn [nt_hash]. by apply content_add in Hh as [-> _]. }
  split; [|intros ip' Hne]; rewrite !neigh_lookup_view by done; unfold view; rewrite C, fmap_insert.
  - rewrite lookup_insert_eq. by rewrite (proj1 (unpack_pack mac W)).
  - by rewrite lookup_insert_ne.
Qed.

(** ** Static entries *)

(** [ip] is pinned to [v]. *)
Definition pinned (ip : IPv4Addr) (v : option Z) t : Prop :=
  (is_static (meta_at t ip) = true /\ valid (meta_at t ip) = true) /\ content (nt_hash t) !! ip = v.

Lemma pinned_meta ip v t ip' f :
  (∀ m, is_static m = true -> is_static (f m) = true) -> (∀ m, valid (f m) = valid m) ->
  pinned ip v t -> pinned ip v (meta_set t ip' f).
Proof.
  intros Hf Hv [[H0 H1] H2]. split; [|done]. rewrite meta_at_set.
  case_decide; [subst; rewrite Hv; auto|done].
Qed.

Lemma pinned_store ip v t ip' mac : ip' <> ip -> pinned ip v t -> pinned ip v (store t ip' mac).
Proof.
  intros Hne [H1 H2]. unfold store. destruct (rte_hash_add_key_data _ _ _) as [h|] eqn:E; [|done].
  apply content_add in E as [C _]. split; cbn [nt_hash].
  - unfold meta_at. cbn [nt_meta]. by rewrite lookup_insert_ne.
  - by rewrite C, lookup_insert_ne.
Qed.

Lemma pinned_erase ip v t ip' : ip' <> ip -> pinned ip v t -> pinned ip v (erase t ip').
Proof.
  intros Hne [H1 H2]. split; [by rewrite meta_at_erase, decide_False|].
  by rewrite erase_hash, lookup_delete_ne.
Qed.

Lemma pinned_age ip v t now refresh : pinned ip v t -> pinned ip v (age t now refresh).1.
Proof.
  intros P. unfold age. cbn [fst]. set (dead := fst <$> _). set (rf := refresh ++ _).
  assert (D : ip ∉ dead).
  { intros ([k m] & -> & [Hd Hin%elem_of_map_to_list]%list_elem_of_filter)%list_elem_of_fmap.
    destruct P as [[Hs _] _]. unfold meta_at in Hs. cbn in *. rewrite Hin in Hs. cbn in Hs.
    unfold is_dead in Hd. by rewrite Hs in Hd. }
  assert (P1 : pinned ip v (foldl erase t dead)).
  { clearbody dead rf. revert t P. induction dead as [|k dead IH]; intros t P; [done|].
    apply not_elem_of_cons in D as [? D]. cbn [foldl]. apply IH; [done|]. by apply pinned_erase. }
  revert P1. generalize (foldl erase t dead). intros t1 P1.
  assert (P2 : pinned ip v (foldl (fun t ip => meta_set t ip (set_requested now)) t1 rf)).
  { clearbody rf. clear P D dead. revert t1 P1. induction rf as [|k rf IH]; intros t1 P1; [done|].
    cbn [foldl]. by apply IH, pinned_meta. }
  revert P2. generalize (foldl (fun t ip => meta_set t ip (set_requested now)) t1 rf). intros t2 [[Hs Hv] Hc].
  split; [|done]. unfold meta_at in *. cbn [nt_meta]. rewrite map_lookup_filter.
  destruct (nt_meta t2 !! ip) as [m|]; [|done]. cbn in Hs, Hv |- *.
  rewrite option_guard_True; [by cbn|]. unfold is_leftover. cbn. rewrite Hs. by rewrite andb_false_r.
Qed.

(** Everything but a new static configuration of the same address. *)
Definition leaves_static (ip : IPv4Addr) (o : nop) : Prop :=
  match o with NStatic ip' _ => ip' <> ip | _ => True end.

Lemma pinned_nexec ip v t o : pinned ip v t -> leaves_static ip o -> pinned ip v (nexec t o).
Proof.
  intros P L. destruct o as [ip' mac|ip' mac s now|ip' mac now|ip' now|now refresh]; cbn [nexec].
  - apply pinned_meta; [done|done|]. by apply pinned_store.
  - unfold learn. destruct (is_static (meta_at t ip')) eqn:E; [done|].
    assert (ip' <> ip) by (intros ->; destruct P as [[? ?] ?]; congruence).
    destruct (_ && _); [done|]. apply pinned_meta; [done|done|].
    destruct (_ || _); [by apply pinned_store|done].
  - unfold hint. destruct (valid (meta_at t ip')) eqn:E; [done|]. destruct (_ >=? _); [done|].
    assert (ip' <> ip) by (intros ->; destruct P as [[? ?] ?]; congruence).
    apply pinned_meta; [done|done|]. by apply pinned_store.
  - unfold want_request. destruct (_ || _); cbn [snd]; repeat (apply pinned_meta; [done|done|]); done.
  - by apply pinned_age.
Qed.

(** ** Growth *)

(** Unsolicited learning and hints.  (The master passes every ARP reply on as
    solicited, see processor.cpp:538.) *)
Definition unsolicited (o : nop) : Prop :=
  match o with NLearn _ _ s _ => s = false | NHint _ _ _ => True | _ => False end.

Lemma store_size t ip mac :
  good t -> mac_wf mac ->
  entries_used (store t ip mac) <= entries_used t + (if valid (meta_at t ip) then 0 else 1).
Proof.
  intros [N G] W. destruct (store_ok t ip mac N W G) as (_ & _ & [->|[C _]]); [destruct (valid _); lia|].
  unfold entries_used. rewrite C. pose proof (no_valid _ N ip) as V.
  destruct (valid (meta_at t ip)).
  - rewrite map_size_insert_Some; [lia|by apply V].
  - rewrite map_size_insert_None; [lia|]. apply eq_None_not_Some. intros H%V. done.
Qed.

Lemma count_exact t : good t -> entries_used t < 4294967296 -> count t = entries_used t.
Proof.
  intros [N _] H. unfold count. rewrite (no_count _ N). apply u32_id. unfold entries_used in *. zwrap. lia.
Qed.

Lemma unsolicited_size t o :
  good t -> nop_wf o -> unsolicited o -> entries_used t < 4294967296 ->
  entries_used (nexec t o) <= Z.max (kCapacity / 2) (entries_used t).
Proof.
  intros G W U Hb. pose proof (count_exact t G Hb) as C.
  destruct o as [|ip mac s now|ip mac now| |]; try done; cbn [nexec nop_wf] in *.
  - cbn in U. subst. unfold learn. rewrite C. destruct (is_static _); [lia|].
    destruct (valid (meta_at t ip)) eqn:V.
    + cbn [negb andb orb]. change (entries_used (meta_set ?a ?b ?c)) with (entries_used a).
      destruct (negb _); [|lia]. pose proof (store_size t ip mac G W). rewrite V in *. lia.
    + cbn [negb andb orb]. destruct (Z.geb_spec (entries_used t) (kCapacity / 2)); [lia|].
      change (entries_used (meta_set ?a ?b ?c)) with (entries_used a).
      pose proof (store_size t ip mac G W). rewrite V in *. lia.
  - unfold hint. rewrite C. destruct (valid (meta_at t ip)) eqn:V; [lia|].
    destruct (Z.geb_spec (entries_used t) (kCapacity / 2)); [lia|].
    change (entries_used (meta_set ?a ?b ?c)) with (entries_used a).
    pose proof (store_size t ip mac G W). rewrite V in *. lia.
Qed.

(** C38. The table defends itself.  Whatever is learned, hinted, requested or aged
    out, a statically configured address keeps the MAC it was configured with; and
    what is learned as unsolicited and session hints alone never fill more than
    half of the table, so that replies find room. *)
Theorem neigh_flood_safe t ops :
  good t -> Forall nop_wf ops -> entries_used t < 4294967296 ->
  (∀ ip v, pinned ip v t -> Forall (leaves_static ip) ops -> pinned ip v (foldl nexec t ops)) /\
  (Forall unsolicited ops ->
   entries_used (foldl nexec t ops) <= Z.max (kCapacity / 2) (entries_used t)).
Proof.
  intros G W Hb. split.
  - intros ip v P L. clear G W Hb. revert t P. induction L as [|o ops Lo L IH]; intros t P; [done|].
    cbn [foldl]. apply IH. by apply pinned_nexec.
  - revert t G Hb. induction W as [|o ops Wo W IH]; intros t G Hb U; [cbn; lia|].
    apply Forall_cons in U as [Uo U]. cbn [foldl].
    pose proof (unsolicited_size t o G Wo Uo Hb) as S1.
    pose proof (proj1 (nexec_goes t o G Wo)) as G1.
    specialize (IH (nexec t o) G1 ltac:(change (kCapacity / 2) with 32768 in *; lia) U). lia.
Qed.

End Props.

(** ** Witnesses *)

Definition demo_neigh : NeighTable (RH := gmap_hash Z) := mkNeigh (RH := gmap_hash Z) (∅, kCapacity) ∅ 1 0.
Definition demo_mac : MacAddr := [2; 0; 0; 0; 1; 255].

Lemma demo_mac_wf : mac_wf demo_mac.
Proof. split; [done|]. repeat constructor; zwrap; lia. Qed.

Definition demo_nops : list nop :=
  [NStatic 7 demo_mac; NLearn 8 demo_mac false 5; NHint 9 demo_mac 6; NWant 10 6; NAge 400 []].

Lemma demo_nops_wf : Forall nop_wf demo_nops.
Proof. do 3 (apply Forall_cons_2; [exact demo_mac_wf|]). do 2 (apply Forall_cons_2; [exact I|]). constructor. Qed.

Lemma demo_neigh_good : good demo_neigh.
Proof. apply (init_good (RH := gmap_hash Z) true). reflexivity. Qed.

(** A refresh of a known address, a hint and a request leave the generation. *)
Definition quiet_nops : list nop := [NLearn 7 demo_mac true 401; NHint 7 demo_mac 402; NWant 10 402; NAge 410 []].

Lemma neigh_generation_coherent_witness :
  let t := foldl nexec demo_neigh demo_nops in let t' := foldl nexec t quiet_nops in
  generation t' = generation t /\ ∀ ip, lookup t' ip = lookup t ip.
Proof.
  split; [vm_compute; reflexivity|].
  apply (neigh_generation_coherent (RH := gmap_hash Z) true demo_neigh demo_nops quiet_nops).
  - reflexivity.
  - apply demo_nops_wf.
  - do 2 (apply Forall_cons_2; [exact demo_mac_wf|]). do 2 (apply Forall_cons_2; [exact I|]). constructor.
  - vm_compute. reflexivity.
  - vm_compute. reflexivity.
Defined.

Lemma neigh_store_lookup_witness :
  lookup (store demo_neigh 7 demo_mac) 7 = Some demo_mac /\
  ∀ ip', ip' <> 7 -> lookup (store demo_neigh 7 demo_mac) ip' = lookup demo_neigh ip'.
Proof.
  apply (neigh_store_lookup (RH := gmap_hash Z) demo_neigh 7 demo_mac).
  - apply demo_neigh_good.
  - apply demo_mac_wf.
  - vm_compute. reflexivity.
Defined.

Lemma neigh_flood_safe_witness :
  let t := add_static demo_neigh 7 demo_mac in
  pinned 7 (Some (pack demo_mac)) (foldl nexec t [NLearn 7 [1; 1; 1; 1; 1; 1] true 9]).
Proof.
  apply (neigh_flood_safe (RH := gmap_hash Z) (add_static demo_neigh 7 demo_mac)
           [NLearn 7 [1; 1; 1; 1; 1; 1] true 9]).
  - apply (nexec_goes (RH := gmap_hash Z) demo_neigh (NStatic 7 demo_mac) demo_neigh_good demo_mac_wf).
  - repeat constructor; cbn; zwrap; lia.
  - vm_compute. reflexivity.
  - split; [split|]; vm_compute; reflexivity.
  - repeat constructor.
Defined.

End NeighProps.
