(* ===== verification/Context.v ===== *)
(** Data-plane state: include/common/stats.h, src/common/stats.cpp,
    include/dataplane/context.h and src/dataplane/context.cpp.

    [WorkerCtx] is what one worker owns and mutates.  [Dataplane] holds the
    parts of the global [g_dp] that the packet path reads. *)
From S2P Require Import Prelude Types TcpState Mem Dpdk Session Steering Config Snapshot Neigh.
Import Tcp Session Config Snapshot.

Module Context.

(** ** Counters *)

Inductive Stat :=
| ST_RX | ST_TX | ST_TX_FULL
| ST_ARP | ST_ICMP | ST_TCP | ST_UDP
| ST_FWD_IN | ST_FWD_OUT | ST_ICMP_ERR_FWD
| ST_DROP_MALFORMED | ST_DROP_FRAGMENT | ST_DROP_CKSUM | ST_DROP_NOT_LOCAL | ST_DROP_NO_SERVICE
| ST_DROP_NO_SESSION | ST_DROP_NO_RS | ST_DROP_RS_DOWN | ST_DROP_TABLE_FULL | ST_DROP_NO_PORT
| ST_DROP_NO_NEIGH | ST_DROP_TTL | ST_DROP_REDIRECT | ST_DROP_OTHER
| ST_SESS_NEW | ST_SESS_EXPIRED | ST_SESS_CLOSED
| ST_REDIRECT_OUT | ST_REDIRECT_IN | ST_RING_IN | ST_DROP_RX_RING | ST_RSS_MISMATCH | ST_RSS_NO_HASH
| ST_TOA_ADDED | ST_TOA_NO_ROOM | ST_TS_STRIPPED | ST_HC_RESP
| ST_COUNT.
#[export] Instance Stat_eq_dec : EqDecision Stat.
Proof. solve_decision. Defined.

Inductive ByteStat := BS_RX | BS_TX | BS_FWD_IN | BS_FWD_OUT.
#[export] Instance ByteStat_eq_dec : EqDecision ByteStat.
Proof. solve_decision. Defined.

(** ST_DROP_MALFORMED .. ST_DROP_OTHER *)
Definition drop_range : list Stat :=
  [ST_DROP_MALFORMED; ST_DROP_FRAGMENT; ST_DROP_CKSUM; ST_DROP_NOT_LOCAL; ST_DROP_NO_SERVICE;
   ST_DROP_NO_SESSION; ST_DROP_NO_RS; ST_DROP_RS_DOWN; ST_DROP_TABLE_FULL; ST_DROP_NO_PORT;
   ST_DROP_NO_NEIGH; ST_DROP_TTL; ST_DROP_REDIRECT; ST_DROP_OTHER].

Record WorkerStats := mkStats {
  c : Stat -> Z;
  bytes_ : ByteStat -> Z;
  busy_tsc : Z
}.

Definition stat_add (v n : Z) : Z := u64 (v + n).

Definition add (id : Stat) (n : Z) (s : WorkerStats) : WorkerStats :=
  mkStats (fun i => if decide (i = id) then stat_add (c s i) n else c s i) (bytes_ s) (busy_tsc s).
Definition add_bytes (id : ByteStat) (n : Z) (s : WorkerStats) : WorkerStats :=
  mkStats (c s) (fun i => if decide (i = id) then stat_add (bytes_ s i) n else bytes_ s i) (busy_tsc s).
Definition add_busy (n : Z) (s : WorkerStats) : WorkerStats :=
  mkStats (c s) (bytes_ s) (stat_add (busy_tsc s) n).

Definition Stats0 : WorkerStats := mkStats (fun _ => 0) (fun _ => 0) 0.

(** StatsTotal::drops, over the summed counters. *)
Definition drops (t : Stat -> Z) : Z :=
  foldl (fun n i => u64 (n + t i)) (u64 (t ST_TX_FULL + t ST_DROP_RX_RING)) drop_range.

Record RsCounters := mkRsCounters {
  conns : Z; rc_pkts_in : Z; rc_bytes_in : Z; rc_pkts_out : Z; rc_bytes_out : Z
}.
Definition RsCounters0 : RsCounters := mkRsCounters 0 0 0 0 0.
#[export] Instance RsCounters_inhabited : Inhabited RsCounters := populate RsCounters0.

(** BusyMeter: loop counters and the calibrated cost of an empty poll. *)
Record BusyMeter := mkBusy { last_ : Z; idle_cost_ : Z; bm_n : Z; bm_idle : Z }.
Definition kWindow : Z := 256.
Definition Busy0 : BusyMeter := mkBusy 0 0 0 0.

(** [now] is what rte_rdtsc returns if it is read. *)
Definition busy_loop (had_work : bool) (now : Z) (b : BusyMeter) (st : WorkerStats)
  : BusyMeter * WorkerStats :=
  let idle := u32 (bm_idle b + (if had_work then 0 else 1)) in
  let n := u32 (bm_n b + 1) in
  if n <? kWindow then (mkBusy (last_ b) (idle_cost_ b) n idle, st)
  else
    let '(cost, st) :=
      if last_ b =? 0 then (idle_cost_ b, st)
      else
        let el := u64 (now - last_ b) in
        if idle =? n then
          let c := el / n in
          ((if idle_cost_ b =? 0 then c else u64 (u64 (idle_cost_ b * 7) + c) / 8), st)
        else
          let idle_t := if idle_cost_ b =? 0 then u64 (el * idle) / n
                        else u64 (idle * idle_cost_ b) in
          (idle_cost_ b, add_busy (if idle_t <? el then el - idle_t else 0) st) in
    (mkBusy now cost 0 0, st).

(** ** Events for the master thread *)

Inductive MasterEventType := EV_ARP_FOR_US | EV_ARP_REPLY | EV_NEIGH_HINT | EV_NEIGH_MISS | EV_HC_RESP.
#[export] Instance MasterEventType_eq_dec : EqDecision MasterEventType.
Proof. solve_decision. Defined.

Record MasterEvent := mkEvent {
  ev_type : MasterEventType;
  ev_tcp_flags : Z;
  ev_port : Z;
  ev_ip : IPv4Addr;
  ev_seq : Z;
  ev_ack : Z;
  ev_mac : MacAddr;
  ev_aux : Z
}.

(** An event with only its type, address and MAC set. *)
Definition neigh_event (t : MasterEventType) (ip : IPv4Addr) (mac : MacAddr) : MasterEvent :=
  mkEvent t 0 0 ip 0 0 mac 0.

Section Ctx.
Context `{RH : RteHash FiveTuple} `{NH : RteHash Z}.

(** ** WorkerCtx *)

Record WorkerCtx := mkCtx {
  idx : Z;
  sessions : SessionTable;
  tx : list Mbuf;
  stats : WorkerStats;
  rs_stats : gmap Z RsCounters;
  lip_cursor : list Z;
  lip_rr : Z;
  now_tick : Z;
  now_ms : Z
}.

Definition set_sessions (v : SessionTable) (w : WorkerCtx) : WorkerCtx :=
  mkCtx (idx w) v (tx w) (stats w) (rs_stats w) (lip_cursor w) (lip_rr w) (now_tick w) (now_ms w).
Definition set_tx (v : list Mbuf) (w : WorkerCtx) : WorkerCtx :=
  mkCtx (idx w) (sessions w) v (stats w) (rs_stats w) (lip_cursor w) (lip_rr w) (now_tick w) (now_ms w).
Definition set_stats (v : WorkerStats) (w : WorkerCtx) : WorkerCtx :=
  mkCtx (idx w) (sessions w) (tx w) v (rs_stats w) (lip_cursor w) (lip_rr w) (now_tick w) (now_ms w).
Definition set_rs_stats (v : gmap Z RsCounters) (w : WorkerCtx) : WorkerCtx :=
  mkCtx (idx w) (sessions w) (tx w) (stats w) v (lip_cursor w) (lip_rr w) (now_tick w) (now_ms w).
Definition set_lip_cursor (v : list Z) (w : WorkerCtx) : WorkerCtx :=
  mkCtx (idx w) (sessions w) (tx w) (stats w) (rs_stats w) v (lip_rr w) (now_tick w) (now_ms w).
Definition set_lip_rr (v : Z) (w : WorkerCtx) : WorkerCtx :=
  mkCtx (idx w) (sessions w) (tx w) (stats w) (rs_stats w) (lip_cursor w) v (now_tick w) (now_ms w).
Definition set_now (tick ms : Z) (w : WorkerCtx) : WorkerCtx :=
  mkCtx (idx w) (sessions w) (tx w) (stats w) (rs_stats w) (lip_cursor w) (lip_rr w) tick ms.

Definition count (id : Stat) (n : Z) (w : WorkerCtx) : WorkerCtx := set_stats (add id n (stats w)) w.
Definition count_bytes (id : ByteStat) (n : Z) (w : WorkerCtx) : WorkerCtx :=
  set_stats (add_bytes id n (stats w)) w.

(** ** Dataplane *)

Record Dataplane := mkDp {
  local_mac : MacAddr;
  dp_tx_offloads : Z;
  dp_mtu : Z;
  dp_cfg : LbConfig;
  dp_steering : Steering.Steering;
  dp_route : Route.Route;
  dp_neigh : Neigh.NeighTable (RH := NH)
}.

(** [g_dp] as a worker finds it when the master has updated [g_dp.neigh]. *)
Definition with_neigh (n : Neigh.NeighTable (RH := NH)) (dp : Dataplane) : Dataplane :=
  mkDp (local_mac dp) (dp_tx_offloads dp) (dp_mtu dp) (dp_cfg dp) (dp_steering dp) (dp_route dp) n.

(** ** Totals *)

(** stats_total: workers (absent ones skipped), then receiver and master. *)
Definition stats_total (workers : list (option WorkerStats)) (receiver master : option WorkerStats)
    (i : Stat) : Z :=
  foldl (fun t o => match o with Some s => u64 (t + c s i) | None => t end) 0
    (workers ++ [receiver; master]).

Definition sessions_active (t : Stat -> Z) : Z :=
  let gone := u64 (t ST_SESS_EXPIRED + t ST_SESS_CLOSED) in
  if t ST_SESS_NEW >? gone then t ST_SESS_NEW - gone else 0.

(** rs_total: [None] stands for a worker without counters. *)
Definition rs_total (workers : list (option (gmap Z RsCounters))) (rs_id : Z) : RsCounters :=
  if rs_id >=? kMaxRsCounters then RsCounters0
  else foldl (fun t o =>
    match o with
    | None => t
    | Some m => let c := m !!! rs_id in
      mkRsCounters (u64 (conns t + conns c)) (u64 (rc_pkts_in t + rc_pkts_in c))
        (u64 (rc_bytes_in t + rc_bytes_in c)) (u64 (rc_pkts_out t + rc_pkts_out c))
        (u64 (rc_bytes_out t + rc_bytes_out c))
    end) RsCounters0 workers.

End Ctx.
End Context.
