(* ===== verification/SessionView.v ===== *)
(** The session table as the packet path sees it: a map from the index of a
    live session to its contents, without the wheel links and the deadline.

    The operations are specified on that map, next to the specification of
    their keys and deadlines in [SessionSpec]. *)
From S2P Require Import Prelude Types TcpState Dpdk Dlist Session SessionInv SessionSpec SessionThms.
Import Tcp Session SessionInv SessionSpec SessionThms.

Module SessionView.

(** A session without what the table itself maintains. *)
Definition pay (s : Session) : Session := set_expire_tick 0 (data s).

Definition has_key (p : Session) (k : FiveTuple) : Prop := client p = k \/ server_of p = Some k.

Section View.
Context `{RH : RteHash FiveTuple} `{RL : !RteHashLaws FiveTuple RH}.
Implicit Types t : SessionTable.

Definition view t : gmap Z Session :=
  omap (fun s => if wheel_prev s =? kFree then None else Some (pay s)) (sessions_ t).

Lemma view_lookup t i p :
  table_ok t -> view t !! i = Some p <-> live t i /\ pay (at_ t i) = p.
Proof.
  intros [(W & P & Hok) _ _ _ _ _]. unfold view, live, prv, at_. rewrite lookup_omap, lookup_total_alt.
  pose proof (wk_dom _ _ _ _ Hok i) as Hd.
  destruct (sessions_ t !! i) as [s|] eqn:E; simpl.
  - destruct (Z.eqb_spec (wheel_prev s) kFree); naive_solver.
  - split; [done|]. intros [[Hi _] _]. apply Hd in Hi as [? ?]. done.
Qed.

Lemma view_at t i p : table_ok t -> view t !! i = Some p -> pay (at_ t i) = p.
Proof. intros Ht H. by apply view_lookup in H as [_ H]. Qed.

Lemma view_abs t i p :
  table_ok t -> view t !! i = Some p -> abs t !! i = Some (entry_of (at_ t i)).
Proof.
  intros Ht H. apply view_lookup in H as [Hl _]; [|done]. pose proof Ht as [(W & P & Hok) _ _ _ _ _].
  by apply (abs_lookup t W P []).
Qed.

Lemma abs_view t i : table_ok t -> is_Some (abs t !! i) <-> is_Some (view t !! i).
Proof.
  intros Ht. pose proof Ht as [(W & P & Hok) _ _ _ _ _]. split.
  - intros [e [Hl _]%(abs_lookup _ _ _ _ _ _ Hok)]. exists (pay (at_ t i)). by apply view_lookup.
  - intros [p Hp]. eexists. by eapply view_abs.
Qed.

(** The index finds a session by its contents. *)
Lemma lookup_view t k i :
  table_ok t -> lookup t k = Some i <-> exists p, view t !! i = Some p /\ has_key p k.
Proof.
  intros Ht. rewrite lookup_spec by done. split.
  - intros (e & He & Ho). destruct (proj1 (abs_view t i Ht) ltac:(eauto)) as [p Hp].
    exists p. split; [done|]. rewrite (view_abs t i p Ht Hp) in He. injection He as <-.
    by rewrite <- (view_at t i p Ht Hp).
  - intros (p & Hp & Hk). exists (entry_of (at_ t i)). split; [by eapply view_abs|].
    rewrite <- (view_at t i p Ht Hp) in Hk. done.
Qed.

Lemma lookup_None_view t k j p :
  table_ok t -> lookup t k = None -> view t !! j = Some p -> ~ has_key p k.
Proof.
  intros Ht Hn Hj Hk. assert (lookup t k = Some j) by (apply lookup_view; eauto). congruence.
Qed.

(** ** Contents under the wheel operations *)

Lemma link_data t i tick j : data (at_ (wheel_link t i tick) j) = data (at_ t j).
Proof. rewrite proj_link by done. case_decide; [by subst|done]. Qed.

Lemma create_fill_data t i c srv now timeout j :
  data (at_ (create_fill t i c srv now timeout) j)
  = if decide (i = j) then data (fresh_session c srv now timeout) else data (at_ t j).
Proof.
  unfold create_fill; cbv zeta. rewrite link_data, at_upd. by case_decide.
Qed.

Lemma create_fill_cur t i c srv now timeout :
  cur_tick_ (create_fill t i c srv now timeout) = cur_tick_ t.
Proof. unfold create_fill; cbv zeta. by rewrite (proj1 (link_rest _ _ _)). Qed.

Lemma remove_data t i j : data (at_ (remove t i) j) = data (at_ t j).
Proof.
  rewrite remove_eq. unfold finish_remove; cbv zeta.
  change (data (at_ (upd (wheel_unlink t i) i (set_wheel_prev kFree)) j) = data (at_ t j)).
  rewrite (at_upd_proj data) by done. apply unlink_data.
Qed.

Lemma touch_pay t i now timeout j : pay (at_ (touch t i now timeout) j) = pay (at_ t j).
Proof.
  unfold touch; cbv zeta. rewrite (at_upd_proj pay) by done. unfold pay. f_equal.
  destruct (_ && _); [|done]. by rewrite link_data, unlink_data.
Qed.

(** The clock hand moves only in [expire]. *)
Lemma remove_cur t i : cur_tick_ (remove t i) = cur_tick_ t.
Proof. rewrite remove_eq. unfold finish_remove; cbv zeta. exact (proj1 (proj2 (unlink_rest t i))). Qed.

Lemma touch_cur t i now timeout : cur_tick_ (touch t i now timeout) = cur_tick_ t.
Proof.
  unfold touch; cbv zeta. change (cur_tick_ (upd ?t _ _)) with (cur_tick_ t).
  destruct (_ && _); [|done]. rewrite (proj1 (link_rest _ _ _)). exact (proj1 (proj2 (unlink_rest t i))).
Qed.

(** Every call but [expire] leaves the hand of the wheel alone and makes no
    session due that was not. *)
Record calm (now : Z) t t' : Prop := {
  ca_cur : cur_tick_ t' = cur_tick_ t;
  ca_cap : capacity_ t' = capacity_ t;
  ca_due n i : n <= now -> due_b t' n i = true -> due_b t n i = true
}.

Lemma calm_refl now t : calm now t t.
Proof. done. Qed.
Lemma calm_trans now t1 t2 t3 : calm now t1 t2 -> calm now t2 t3 -> calm now t1 t3.
Proof. intros [A1 A2 A3] [B1 B2 B3]. split; [congruence|congruence|eauto]. Qed.

Lemma calm_due_at now n t t' : calm now t t' -> n <= now -> (due_at t' n <= due_at t n)%nat.
Proof.
  intros [_ C D] Hn. unfold due_at. rewrite C. apply filter_length_le. eauto.
Qed.

Lemma live_abs t i : table_ok t -> live t i <-> is_Some (abs t !! i).
Proof.
  intros [(W & P & Hok) _ _ _ _ _]. split.
  - intros Hl. eexists. by apply (abs_lookup _ _ _ _ _ _ Hok).
  - by intros [e [? _]%(abs_lookup _ _ _ _ _ _ Hok)].
Qed.

(** Each live session was live with the same place in the wheel, or has a place
    later than [now]. *)
Lemma calm_intro now t t' :
  table_ok t -> table_ok t' -> cur_tick_ t' = cur_tick_ t -> capacity_ t' = capacity_ t ->
  (forall i, is_Some (abs t' !! i) ->
     is_Some (abs t !! i) /\ in_pending (at_ t' i) = in_pending (at_ t i) /\ slot_tick (at_ t' i) = slot_tick (at_ t i)
     \/ in_pending (at_ t' i) = false /\ now < slot_tick (at_ t' i)) ->
  calm now t t'.
Proof.
  intros Ht Ht' Hc Hcap H. split; [done|done|]. intros n i Hn [Hl Hd]%due_spec. apply due_spec.
  destruct (H i) as [(H1 & H2 & H3)|[H1 H2]]; [by apply live_abs| |].
  - split; [by apply live_abs|]. by rewrite <- H2, <- H3.
  - destruct Hd as [Hd|Hd]; [congruence|lia].
Qed.

Lemma remove_calm now t i e : table_ok t -> abs t !! i = Some e -> calm now t (remove t i).
Proof.
  intros Ht He. destruct (remove_spec t i e Ht He) as [Ht' Ha].
  apply calm_intro; [done|done|apply remove_cur|..].
  - rewrite remove_eq. unfold finish_remove; cbv zeta. exact (proj1 (unlink_rest t i)).
  - intros j Hj. left. rewrite Ha in Hj. destruct Hj as [x [_ Hx]%lookup_delete_Some]. split; [eauto|].
    rewrite remove_eq. unfold finish_remove; cbv zeta.
    set (t1 := upd (wheel_unlink t i) i (set_wheel_prev kFree)).
    change (in_pending (at_ t1 j) = in_pending (at_ t j) /\ slot_tick (at_ t1 j) = slot_tick (at_ t j)). unfold t1.
    rewrite (at_upd_proj in_pending), (at_upd_proj slot_tick), unlink_in_pending, unlink_slot_tick by done. done.
Qed.

Lemma touch_calm t i e now timeout :
  table_ok t -> abs t !! i = Some e ->
  cur_tick_ t <= deadline now timeout < cur_tick_ t + (kWheelSlots - 1) -> now < deadline now timeout ->
  calm now t (touch t i now timeout).
Proof.
  intros Ht He Hd Hn. destruct (touch_spec t i e now timeout Ht He Hd) as [Ht' Ha].
  apply calm_intro; [done|done|apply touch_cur|..].
  - unfold touch; cbv zeta. change (capacity_ (upd ?t _ _)) with (capacity_ t).
    destruct (_ && _); [|done]. rewrite link_capacity. exact (proj1 (unlink_rest t i)).
  - intros j Hj. assert (Hj' : is_Some (abs t !! j)).
    { rewrite Ha in Hj. destruct (decide (i = j)) as [<-|Hne]; [eauto|]. by rewrite lookup_insert_ne in Hj. }
    unfold touch; cbv zeta. rewrite (at_upd_proj in_pending), (at_upd_proj slot_tick) by done.
    destruct (_ && _); [|by left]. rewrite (proj_link in_pending), (proj_link slot_tick) by done.
    rewrite unlink_in_pending, unlink_slot_tick. case_decide as E; [|by left]. right. split; [done|].
    change (slot_tick (set_in_pending false (set_slot_tick ?v ?s))) with v. rewrite link_tick_max. lia.
Qed.

Lemma create_calm t c srv now timeout :
  table_ok t -> lookup t c = None -> (forall k, srv = Some k -> lookup t k = None) ->
  cur_tick_ t <= deadline now timeout < cur_tick_ t + (kWheelSlots - 1) -> now < deadline now timeout ->
  calm now t (create t c srv now timeout).2.
Proof.
  intros Ht Hc Hs Hd Hn. pose proof (create_spec t c srv now timeout Ht Hc Hs Hd) as H.
  assert (D : forall i t', create t c srv now timeout = (Some i, t') ->
    cur_tick_ t' = cur_tick_ t /\ capacity_ t' = capacity_ t /\
    forall j, if decide (i = j) then in_pending (at_ t' j) = false /\ now < slot_tick (at_ t' j)
              else in_pending (at_ t' j) = in_pending (at_ t j) /\ slot_tick (at_ t' j) = slot_tick (at_ t j)).
  { assert (F : forall t0 i, (forall j, at_ t0 j = at_ t j) -> cur_tick_ t0 = cur_tick_ t -> capacity_ t0 = capacity_ t ->
      let t' := create_fill t0 i c srv now timeout in cur_tick_ t' = cur_tick_ t /\ capacity_ t' = capacity_ t /\
      forall j, if decide (i = j) then in_pending (at_ t' j) = false /\ now < slot_tick (at_ t' j)
              else in_pending (at_ t' j) = in_pending (at_ t j) /\ slot_tick (at_ t' j) = slot_tick (at_ t j)).
    { intros t0 i E1 E2 E3. cbv zeta. rewrite create_fill_cur. split; [done|].
      unfold create_fill; cbv zeta. rewrite link_capacity. split; [exact E3|]. intros j.
      rewrite (proj_link in_pending), (proj_link slot_tick) by done. case_decide as E.
      - split; [done|]. change (slot_tick (set_in_pending false (set_slot_tick ?v ?s))) with v.
        rewrite link_tick_max. lia.
      - rewrite at_upd, decide_False by (by intros [? _] || done). by rewrite E1. }
    intros i t'. unfold create. destruct (free_top_ t =? 0); [done|].
    destruct (rte_hash_add_key_data _ _ _); [|done]. destruct srv as [k|].
    - destruct (rte_hash_add_key_data _ _ _); [|done]. intros [= <- <-]. by apply F.
    - intros [= <- <-]. by apply F. }
  destruct (create t c srv now timeout) as [[i|] t']; destruct H as [Ht' H]; cbn [snd].
  - destruct H as [Hi Ha]. destruct (D i t' eq_refl) as (D1 & D2 & D3). apply calm_intro; try done.
    intros j Hj. specialize (D3 j). case_decide as E; [by right|left].
    rewrite Ha, lookup_insert_ne in Hj by done. done.
  - destruct H as [_ ->]. apply calm_refl.
Qed.

(** ** Operations on the view *)

Lemma pay_data s s' : data s = data s' -> pay s = pay s'.
Proof. unfold pay. by intros ->. Qed.

Lemma view_ext t t' (m : gmap Z Session) :
  table_ok t' ->
  (forall j, is_Some (abs t' !! j) <-> is_Some (m !! j)) ->
  (forall j p, m !! j = Some p -> pay (at_ t' j) = p) -> view t' = m.
Proof.
  intros Ht' Hd Hp. apply map_eq. intros j. apply option_eq. intros p. split.
  - intros Hv. destruct (proj1 (Hd j)) as [q Hq]; [by apply abs_view; eauto|].
    rewrite Hq. rewrite <- (Hp j q Hq). f_equal. by apply view_at.
  - intros Hm. destruct (proj2 (Hd j)) as [e He]; [eauto|].
    destruct (proj1 (abs_view t' j Ht') ltac:(eauto)) as [q Hq].
    rewrite Hq. f_equal. rewrite <- (view_at t' j q Ht' Hq). by apply Hp.
Qed.

Lemma create_view t c srv now timeout :
  table_ok t -> lookup t c = None ->
  (forall k, srv = Some k -> lookup t k = None) ->
  cur_tick_ t <= deadline now timeout < cur_tick_ t + (kWheelSlots - 1) ->
  let '(r, t') := create t c srv now timeout in
  table_ok t' /\ cur_tick_ t' = cur_tick_ t /\
  match r with
  | Some i => view t !! i = None
      /\ view t' = <[i := pay (fresh_session c srv now timeout)]> (view t)
  | None => t' = t
  end.
Proof.
  intros Ht Hc Hs Hd. pose proof (create_spec t c srv now timeout Ht Hc Hs Hd) as H.
  assert (D : forall i t', create t c srv now timeout = (Some i, t') ->
    cur_tick_ t' = cur_tick_ t /\ forall j, data (at_ t' j)
    = if decide (i = j) then data (fresh_session c srv now timeout) else data (at_ t j)).
  { intros i t'. unfold create. destruct (free_top_ t =? 0); [done|].
    destruct (rte_hash_add_key_data _ _ _); [|done]. destruct srv as [k|].
    - destruct (rte_hash_add_key_data _ _ _); [|done]. intros [= <- <-].
      split; [by rewrite create_fill_cur|]. intros j. rewrite create_fill_data. by case_decide.
    - intros [= <- <-]. split; [by rewrite create_fill_cur|]. intros j. rewrite create_fill_data. by case_decide. }
  destruct (create t c srv now timeout) as [[i|] t']; destruct H as [Ht' H].
  - destruct H as [Hi Ha]. destruct (D i t' eq_refl) as [Hcur Hda]. split; [done|]. split; [done|].
    split.
    { destruct (view t !! i) eqn:E; [|done].
      assert (is_Some (abs t !! i)) as [? ?] by (apply abs_view; [done|eauto]). congruence. }
    apply (view_ext t); [done|..].
    + intros j. rewrite Ha. destruct (decide (i = j)) as [<-|Hne].
      * rewrite !lookup_insert_eq. naive_solver.
      * rewrite !lookup_insert_ne by done. by apply abs_view.
    + intros j p. rewrite lookup_insert_Some. intros [[<- <-]|[Hne Hp]].
      * apply pay_data. rewrite Hda. by rewrite decide_True.
      * rewrite <- (view_at t j p Ht Hp). apply pay_data. rewrite Hda. by rewrite decide_False.
  - destruct H as [_ ->]. done.
Qed.

Lemma remove_view t i :
  table_ok t -> is_Some (view t !! i) ->
  table_ok (remove t i) /\ view (remove t i) = delete i (view t) /\ cur_tick_ (remove t i) = cur_tick_ t.
Proof.
  intros Ht Hi. destruct (proj2 (abs_view t i Ht) Hi) as [e He].
  destruct (remove_spec t i e Ht He) as [Ht' Ha]. split; [done|]. split.
  - apply (view_ext t); [done|..].
    + intros j. rewrite Ha. destruct (decide (i = j)) as [<-|Hne].
      * rewrite !lookup_delete_eq. done.
      * rewrite !lookup_delete_ne by done. by apply abs_view.
    + intros j p [Hne Hp]%lookup_delete_Some. rewrite <- (view_at t j p Ht Hp).
      apply pay_data, remove_data.
  - apply remove_cur.
Qed.

Lemma touch_view t i now timeout :
  table_ok t -> is_Some (view t !! i) ->
  cur_tick_ t <= deadline now timeout < cur_tick_ t + (kWheelSlots - 1) ->
  table_ok (touch t i now timeout) /\ view (touch t i now timeout) = view t
  /\ cur_tick_ (touch t i now timeout) = cur_tick_ t.
Proof.
  intros Ht Hi Hd. destruct (proj2 (abs_view t i Ht) Hi) as [e He].
  destruct (touch_spec t i e now timeout Ht He Hd) as [Ht' Ha]. split; [done|]. split.
  - apply (view_ext t); [done|..].
    + intros j. rewrite Ha. destruct (decide (i = j)) as [<-|Hne].
      * rewrite lookup_insert_eq. naive_solver.
      * rewrite lookup_insert_ne by done. by apply abs_view.
    + intros j p Hp. rewrite touch_pay. by apply view_at.
  - apply touch_cur.
Qed.

(** An assignment to fields the table does not maintain. *)
Record neutral (f : Session -> Session) : Prop := {
  nt_entry s : entry_of (f s) = entry_of s;
  nt_prev s : wheel_prev (f s) = wheel_prev s;
  nt_next s : wheel_next (f s) = wheel_next s;
  nt_tick s : slot_tick (f s) = slot_tick s;
  nt_pend s : in_pending (f s) = in_pending s;
  nt_pay s : pay (f s) = f (pay s)
}.

Lemma upd_view t i f p :
  table_ok t -> view t !! i = Some p -> neutral f ->
  table_ok (upd t i f) /\ view (upd t i f) = <[i := f p]> (view t).
Proof.
  intros Ht Hp [N1 N2 N3 N4 N5 N6]. pose proof Ht as [(W & P & Hok) Htk Hfr Hha Hcn Hen].
  pose proof (view_lookup t i p Ht) as [[Hl Hpi] _]; [done|].
  set (t' := upd t i f).
  assert (Hok' : wheel_ok t' W P []).
  { apply upd_neutral_ok; try done. apply (wk_dom _ _ _ _ Hok), Hl. }
  assert (Hlv : forall j, live t' j <-> live t j).
  { intros j. unfold live, prv, t'. by rewrite at_upd_proj. }
  assert (He : forall j, entry_of (at_ t' j) = entry_of (at_ t j)).
  { intros j. unfold t'. by rewrite at_upd_proj. }
  assert (Ha : abs t' = abs t) by (eapply abs_ext; [exact Hok|exact Hok'|done|done]).
  assert (Hx : forall s, expire_tick (f s) = expire_tick s).
  { intros s. change (e_expire (entry_of (f s)) = e_expire (entry_of s)). by rewrite N1. }
  assert (Ht' : table_ok t').
  { split; [by exists W, P| | | | |done].
    - destruct Htk as [Hc Htk]. split; [done|]. intros j Hj%Hlv. unfold t'.
      rewrite (at_upd_proj in_pending), (at_upd_proj slot_tick), (at_upd_proj expire_tick) by done.
      by apply Htk.
    - by eapply free_ok_same.
    - intros k j. change (hash_ t') with (hash_ t). rewrite Ha. apply Hha.
    - by rewrite Ha. }
  split; [done|]. apply (view_ext t); [done|..].
  - intros j. rewrite Ha, abs_view by done. destruct (decide (i = j)) as [<-|Hne].
    + rewrite lookup_insert_eq, Hp. naive_solver.
    + by rewrite lookup_insert_ne.
  - intros j q. rewrite lookup_insert_Some. unfold t'. intros [[<- <-]|[Hne Hq]].
    + rewrite upd_self, N6. by rewrite Hpi.
    + rewrite upd_other by done. by apply view_at.
Qed.

Lemma upd_calm now t i f p :
  table_ok t -> view t !! i = Some p -> neutral f -> calm now t (upd t i f).
Proof.
  intros Ht Hp N. destruct (upd_view t i f p Ht Hp N) as [Ht' Hv]. destruct N as [N1 N2 N3 N4 N5 N6].
  apply calm_intro; try done. intros j Hj. left.
  rewrite (at_upd_proj in_pending), (at_upd_proj slot_tick) by done. split; [|done].
  apply abs_view; [done|]. apply abs_view in Hj; [|done]. rewrite Hv in Hj.
  destruct (decide (i = j)) as [<-|Hne]; [eauto|by rewrite lookup_insert_ne in Hj].
Qed.

(** ** Expiry *)

Lemma push_data t i j : data (at_ (pending_push t i) j) = data (at_ t j).
Proof.
  unfold pending_push; cbv zeta. change (at_ (with_pending_ ?v ?t)) with (at_ t).
  destruct (_ =? _); by rewrite ?(at_upd_proj data).
Qed.

Lemma pop_data t j : data (at_ (pending_pop t).2 j) = data (at_ t j).
Proof.
  unfold pending_pop; cbv zeta; cbn [snd]. rewrite (at_upd_proj data) by done. apply unlink_data.
Qed.

Lemma take_chain_data fuel t h t' j :
  take_chain fuel t h = Some t' -> data (at_ t' j) = data (at_ t j).
Proof.
  revert t h. induction fuel as [|fuel IH]; intros t h; cbn [take_chain]; destruct (h =? kNil);
    try congruence. intros H%IH. by rewrite H, push_data.
Qed.

Lemma expire_loop_data fuel t now r b t' r' j :
  expire_loop fuel t now r b = Some (t', r') -> data (at_ t' j) = data (at_ t j).
Proof.
  revert t r b. induction fuel as [|fuel IH]; intros t r b; cbn [expire_loop]; destruct (b =? 0); try congruence.
  destruct (pending_ t =? kNil).
  - destruct (now <? cur_tick_ t); [congruence|]. destruct (take_chain _ _ _) as [t1|] eqn:E; [|done].
    cbn [mbind option_bind]. intros H%IH. rewrite H. by apply take_chain_data with (j := j) in E.
  - pose proof (pop_data t) as D. destruct (pending_pop t) as [i t1]. cbn [snd] in D.
    destruct (_ <=? now); intros H%IH; rewrite H; [rewrite remove_data|rewrite link_data]; apply D.
Qed.

(** What is left is unchanged. *)
Lemma expire_view t now :
  table_ok t -> cur_tick_ t - 1 <= now < max_tick ->
  exists t' n, expire t now = Some (t', n) /\ table_ok t' /\ view t' ⊆ view t
    /\ cur_tick_ t <= cur_tick_ t' <= now + 1
    /\ capacity_ t' = capacity_ t
    /\ (forall tau, tau <= now ->
        tau < cur_tick_ t' \/ Z.of_nat (due_at t' tau) + kExpireBudget <= Z.of_nat (due_at t tau)).
Proof.
  intros Ht Hn. destruct (expire_spec t now Ht Hn) as (t' & n & He & Ht' & Hk & Hc & [Hs _] & _ & _ & Hpr).
  exists t', n. split; [done|]. split; [done|]. split; [|done].
  apply map_subseteq_spec. intros i p Hp. assert (Hi : is_Some (abs t' !! i)) by (apply abs_view; eauto).
  destruct Hi as [e Hi]. destruct (proj1 (abs_view t i Ht)) as [q Hq].
  { exists e. by eapply lookup_weaken. }
  rewrite Hq. f_equal. rewrite <- (view_at t i q Ht Hq), <- (view_at t' i p Ht' Hp).
  apply pay_data. symmetry. by eapply expire_loop_data.
Qed.

End View.

(** The assignments of the packet path. *)
Ltac neutral := split; intros; reflexivity.

Lemma neutral_comp f g : neutral f -> neutral g -> neutral (fun s => g (f s)).
Proof. intros [] []. split; intros; congruence. Qed.

End SessionView.
