(* ===== verification/Processor.v ===== *)
(** Packet processing: include/core/processor.h, src/core/processor.cpp.

    One call of [process_packet] runs on the worker's own context, the packet
    and the current snapshot; the rest of [g_dp] is only read, so it is the
    argument [dp].  Session pointers are indices into the session table.  An
    access through a null pointer, past the end of an array or outside the
    frame is a fault.  Events posted to the master are appended to [p_evs] (the
    ring may still drop them).  Log messages are left out. *)
From S2P Require Import Prelude Types TcpState Mem Headers Dpdk Session Checksum Parser Forward Steering Scheduler Config Snapshot Neigh Context.
Import Tcp Session Checksum Parser Forward Steering Scheduler Config Snapshot Context.

Module Processor.

Inductive Verdict := SEND | DROP | REDIRECT | CONSUMED.
#[export] Instance Verdict_eq_dec : EqDecision Verdict.
Proof. solve_decision. Defined.

Record Result := mkResult { verdict : Verdict; reason : Stat; target : Z }.

Definition drop (r : Stat) : Result := mkResult DROP r 0.
Definition send : Result := mkResult SEND ST_COUNT 0.
Definition consumed : Result := mkResult CONSUMED ST_COUNT 0.
Definition redirect (to : Z) : Result := mkResult REDIRECT ST_COUNT to.

Definition in_nat_range (port_be : Port) : bool :=
  let p := ntohs port_be in (p >=? kNatPortMin) && (p <=? kNatPortMax).
Definition in_hc_range (port_be : Port) : bool :=
  let p := ntohs port_be in (p >=? kHcPortMin) && (p <=? kHcPortMax).

Definition cksum_bad `{MB : RteMbuf} (m : Mbuf) : bool :=
  (Z.land (ol_flags m) F_RX_IP_CKSUM_MASK =? F_RX_IP_CKSUM_BAD)
  || (Z.land (ol_flags m) F_RX_L4_CKSUM_MASK =? F_RX_L4_CKSUM_BAD).

(** [None] is a fault. *)
Definition deref {S A} (o : option A) : ST S A :=
  match o with Some a => mret a | None => fault end.

(** Short-circuit conjunction. *)
Definition andM {S} (b : bool) (m : ST S bool) : ST S bool := if b then m else mret false.

Section Processor.
Context `{RH : RteHash FiveTuple} `{NH : RteHash Z} `{HF : RteHashFns} `{MB : RteMbuf}.
Context (hw_cksum : bool) (dp : Dataplane (NH := NH)).

Record PState := mkP {
  p_w : WorkerCtx (RH := RH);
  p_m : Mbuf;
  p_snap : Snapshot;
  p_evs : list MasterEvent
}.

Definition set_w (v : WorkerCtx) (s : PState) : PState := mkP v (p_m s) (p_snap s) (p_evs s).
Definition set_m (v : Mbuf) (s : PState) : PState := mkP (p_w s) v (p_snap s) (p_evs s).
Definition set_snap (v : Snapshot) (s : PState) : PState := mkP (p_w s) (p_m s) v (p_evs s).

Definition onm {A} (k : ST Mbuf A) : ST PState A := zoom p_m set_m k.
Definition onw (f : WorkerCtx -> WorkerCtx) : ST PState unit := modify (fun s => set_w (f (p_w s)) s).
Definition onf {A} (k : ST bytes A) : ST PState A := onm (onb k).

(** w.stats.add(id) *)
Definition stat (id : Stat) : ST PState unit := onw (count id 1).

Definition table : ST PState SessionTable := gets (fun s => sessions (p_w s)).
Definition set_table (t : SessionTable) : ST PState unit := onw (set_sessions t).

(** *s, and assignments to its fields. *)
Definition sess (i : Z) : ST PState Session := gets (fun s => at_ (sessions (p_w s)) i).
Definition sess_upd (i : Z) (f : Session -> Session) : ST PState unit :=
  onw (fun w => set_sessions (upd (sessions w) i f) w).

Definition post_master_event (ev : MasterEvent) : ST PState unit :=
  modify (fun s => mkP (p_w s) (p_m s) (p_snap s) (p_evs s ++ [ev])).

(** w.rs_stats[id], an array of kMaxRsCounters elements. *)
Definition rs_count (id : Z) (f : RsCounters -> RsCounters) : ST PState unit :=
  if (0 <=? id) && (id <? kMaxRsCounters)
  then onw (fun w => set_rs_stats (<[id := f (default RsCounters0 (rs_stats w !! id))]> (rs_stats w)) w)
  else fault.

Definition request_neigh (ip : IPv4Addr) : ST PState unit :=
  post_master_event (neigh_event EV_NEIGH_MISS ip mac_zero).

(** [cache] and [cache_gen] are in/out arguments; the first component is the
    address found. *)
Definition resolve_mac (next_hop : IPv4Addr) (cache : MacAddr) (cache_gen : Z) (fallback : MacAddr)
  : ST PState (option MacAddr * MacAddr * Z) :=
  let gen := Neigh.generation (dp_neigh dp) in
  if cache_gen =? gen then mret (Some cache, cache, cache_gen)
  else
    match (if next_hop =? 0 then None else Neigh.lookup (dp_neigh dp) next_hop) with
    | Some out => mret (Some out, out, gen)
    | None =>
      _ ← when (negb (next_hop =? 0)) (request_neigh next_hop);
      mret ((if mac_is_zero fallback then None else Some fallback), cache, cache_gen)
    end.

Definition resolve_rs_mac (i : Z) (rs : RsState) : ST PState (option MacAddr) :=
  if negb (mac_is_zero (r_mac rs)) then mret (Some (r_mac rs))
  else
    s ← sess i;
    '(out, cache, gen) ← resolve_mac (Route.next_hop (dp_route dp) (r_ip rs))
                           (Session.rs_mac s) (rs_mac_gen s) mac_zero;
    _ ← sess_upd i (fun s => set_rs_mac_gen gen (set_rs_mac cache s));
    mret out.

Definition resolve_client_mac (i : Z) : ST PState (option MacAddr) :=
  s ← sess i;
  let cip := src_ip (client s) in
  let on_link := Route.on_link (dp_route dp) cip in
  '(out, cache, gen) ← resolve_mac (Route.next_hop (dp_route dp) cip) (cli_mac s) (cli_mac_gen s)
                         (if on_link then cli_src_mac s else mac_zero);
  _ ← sess_upd i (fun s => set_cli_mac_gen gen (set_cli_mac cache s));
  mret out.

Definition count_fwd_in (i : Z) : ST PState unit :=
  n ← gets (fun s => pkt_len (p_m s));
  _ ← stat ST_FWD_IN;
  _ ← onw (count_bytes BS_FWD_IN n);
  s ← sess i;
  rs_count (rs_id s) (fun c =>
    mkRsCounters (conns c) (stat_add (rc_pkts_in c) 1) (stat_add (rc_bytes_in c) n)
      (rc_pkts_out c) (rc_bytes_out c)).

Definition count_fwd_out (i : Z) : ST PState unit :=
  n ← gets (fun s => pkt_len (p_m s));
  _ ← stat ST_FWD_OUT;
  _ ← onw (count_bytes BS_FWD_OUT n);
  s ← sess i;
  rs_count (rs_id s) (fun c =>
    mkRsCounters (conns c) (rc_pkts_in c) (rc_bytes_in c)
      (stat_add (rc_pkts_out c) 1) (stat_add (rc_bytes_out c) n)).

Definition close_session (i : Z) : ST PState unit :=
  t ← table;
  _ ← set_table (remove t i);
  stat ST_SESS_CLOSED.

Definition update_state (i flags : Z) (dir : Dir) : ST PState unit :=
  s ← sess i;
  _ ← (if decide (state s = UDP) then mret tt
       else let '(st, fin) := tcp_next_state (state s) flags dir (fin_seen s) in
            sess_upd i (fun s => set_fin_seen fin (set_state st s)));
  s ← sess i;
  t ← table;
  now ← gets (fun s => now_tick (p_w s));
  set_table (touch t i now (state_timeout (state s) (c_timeouts (dp_cfg dp)))).

(** ** New sessions *)

(** The candidate port number [k] of worker [idx]. *)
Definition nat_port (idx step k : Z) : Z :=
  u16 (u32 (kNatPortMin + u32 (k * step) +
    (if step >? 1 then (idx + step - kNatPortMin mod step) mod step else 0))).

(** What the port loop of one LIP came to. *)
Inductive Probe := Created (i : Z) | TableFull | Exhausted.

(** for (i = 0; i < probes; ++i) *)
Fixpoint probe_ports (probes : nat) (li : nat) (lip : IPv4Addr) (slots : Z)
    (client : FiveTuple) (r : RsState) (timeout : Z) : ST PState Probe :=
  match probes with
  | O => mret Exhausted
  | S probes =>
    let st := dp_steering dp in
    let proto := protocol client in
    cur ← gets (fun s => lip_cursor (p_w s) !!! li);
    _ ← onw (fun w => set_lip_cursor (<[li := u32 (cur + 1)]> (lip_cursor w)) w);
    idx ← gets (fun s => idx (p_w s));
    let port := nat_port idx (port_step st proto) (cur mod slots) in
    if port >? kNatPortMax then probe_ports probes li lip slots client r timeout
    else
      let server := mkFiveTuple (r_ip r) lip (r_port_be r) (htons port) proto in
      if ret_by_rss st proto && negb (ret_owner st server =? idx)
      then probe_ports probes li lip slots client r timeout
      else
        t ← table;
        if key_in_use t server then probe_ports probes li lip slots client r timeout
        else
          now ← gets (fun s => now_tick (p_w s));
          let '(o, t) := create t client (Some server) now timeout in
          _ ← set_table t;
          match o with
          | None => mret TableFull
          | Some i =>
            _ ← onw (set_lip_rr (u32 (Z.of_nat li + 1)));
            mret (Created i)
          end
  end.

(** for (n = 0; n < lips.size(); ++n); [inl] is the failure reason. *)
Fixpoint probe_lips (rounds : nat) (n : Z) (lips : list IPv4Addr) (probes : nat) (slots : Z)
    (client : FiveTuple) (r : RsState) (timeout : Z) : ST PState (Stat + Z) :=
  match rounds with
  | O => mret (inl ST_DROP_NO_PORT)
  | S rounds =>
    rr ← gets (fun s => lip_rr (p_w s));
    let li := Z.to_nat ((rr + n) mod len lips) in
    x ← probe_ports probes li (lips !!! li) slots client r timeout;
    match x with
    | Created i => mret (inr i)
    | TableFull => mret (inl ST_DROP_TABLE_FULL)
    | Exhausted => probe_lips rounds (n + 1) lips probes slots client r timeout
    end
  end.

(** The number of candidates tried on one LIP. *)
Definition nat_probes (st : Steering.Steering) (proto : Z) : Z :=
  if ret_by_rss st proto then u32 (64 * n_ st) else 64.

(** lip_cursor.resize(n, 0) when shorter. *)
Definition grow_cursors (n : nat) (l : list Z) : list Z :=
  if (length l <? n)%nat then l ++ replicate (n - length l) 0 else l.

Definition create_fullnat (client : FiveTuple) (r : RsState) (timeout : Z)
  : ST PState (Stat + Z) :=
  lips ← gets (fun s => local_ips (p_snap s));
  if decide (lips = []) then mret (inl ST_DROP_NO_PORT)
  else
    _ ← onw (fun w => set_lip_cursor (grow_cursors (length lips) (lip_cursor w)) w);
    let st := dp_steering dp in
    let proto := protocol client in
    let step := port_step st proto in
    let range := kNatPortMax - kNatPortMin + 1 in
    if step =? 0 then fault
    else
      let slots := range / step in
      if slots =? 0 then fault
      else probe_lips (length lips) 0 lips (Z.to_nat (nat_probes st proto)) slots client r timeout.

(** The scheduler's cursor lives in the snapshot. *)
Definition set_sched (svc : Service) (sc : Scheduler) (snap : Snapshot) : Snapshot :=
  mkSnapshot (version snap) (Snapshot.mode snap)
    (<[Z.to_nat (s_idx svc) :=
       mkService (s_idx svc) (s_name svc) (s_vip svc) (s_port_be svc) (s_port svc) (s_proto svc)
         (s_rs svc) sc]> (services snap))
    (rs_pool snap) (rs_by_id snap) (local_ips snap) (hc_src snap) (svc_slots_ snap)
    (vips_ snap) (lips_ snap) (locals_ snap).

(** [inl]: nullptr, with the reason stored in [fail]. *)
Definition new_session (svc : Service) (tuple : FiveTuple) : ST PState (Stat + Z) :=
  widx ← gets (fun s => idx (p_w s));
  let '(pick, sc) := Scheduler.pick (s_sched svc) tuple widx in
  _ ← modify (fun s => set_snap (set_sched svc sc (p_snap s)) s);
  if pick <? 0 then mret (inl ST_DROP_NO_RS)
  else
    r ← deref (s_rs svc !! Z.to_nat pick);
    let cfg := dp_cfg dp in
    let tcp := protocol tuple =? 6 in
    let timeout := if tcp then tcp_syn (c_timeouts cfg) else udp (c_timeouts cfg) in
    md ← gets (fun s => Snapshot.mode (p_snap s));
    x ← (match md with
         | NAT => create_fullnat tuple r timeout
         | DR =>
           t ← table;
           now ← gets (fun s => now_tick (p_w s));
           let '(o, t) := create t tuple None now timeout in
           _ ← set_table t;
           mret (match o with Some i => inr i | None => inl ST_DROP_TABLE_FULL end)
         end : ST PState (Stat + Z));
    match x with
    | inl fail => mret (inl fail)
    | inr i =>
      _ ← sess_upd i (fun s =>
            set_state (if tcp then NONE else UDP) (set_svc_idx (s_idx svc) (set_rs_id (r_id r) s)));
      mac ← onf (Eth.get_src_mac 0);
      _ ← sess_upd i (set_cli_src_mac mac);
      _ ← when (bool_decide (md = NAT) && tcp && c_toa cfg)
            (sess_upd i (fun s => set_flags (Z.lor (Session.flags s) SF_TOA_PENDING) s));
      _ ← stat ST_SESS_NEW;
      _ ← rs_count (r_id r) (fun c =>
            mkRsCounters (stat_add (conns c) 1) (rc_pkts_in c) (rc_bytes_in c) (rc_pkts_out c)
              (rc_bytes_out c));
      _ ← when (bool_decide (md = NAT) && Route.on_link (dp_route dp) (src_ip tuple))
            (s ← sess i;
             post_master_event (neigh_event EV_NEIGH_HINT (src_ip tuple) (cli_src_mac s)));
      mret (inr i)
    end.

(** ** Client -> VIP *)

Definition is_syn (meta : PacketMeta) : bool :=
  (meta_ip_protocol meta =? 6)
  && (Z.land (meta_tcp_flags meta) (Z.lor (Z.lor TCP_SYN TCP_ACK) TCP_RST) =? TCP_SYN).

(** The spot check of the NIC's RSS hash. *)
Definition rss_check (tuple : FiveTuple) : ST PState unit :=
  let st := dp_steering dp in
  m ← gets p_m;
  if Z.land (ol_flags m) F_RX_RSS_HASH =? 0 then stat ST_RSS_NO_HASH
  else when (negb (rss m =? rss_hash st tuple (l4_hashed st 6))) (stat ST_RSS_MISMATCH).

(** Session lookup of [handle_inbound]: [inl] is an early return, [inr] the
    session to use (if any) and its real server. *)
Definition inbound_lookup (tuple : FiveTuple) (tcp syn : bool)
  : ST PState (Result + option (Z * RsState)) :=
  t ← table;
  match lookup t tuple with
  | None => mret (inr None)
  | Some i =>
    s ← sess i;
    snap ← gets p_snap;
    let r := rs snap (rs_id s) in
    let reuse := syn && tcp_state_reusable (state s) in
    match r with
    | Some r' =>
      if negb (usable r') || reuse then
        _ ← close_session i;
        mret (if negb syn && tcp
              then inl (drop (if negb reuse then ST_DROP_RS_DOWN else ST_DROP_NO_SESSION))
              else inr None)
      else mret (inr (Some (i, r')))
    | None =>
      _ ← close_session i;
      mret (if negb syn && tcp then inl (drop ST_DROP_NO_SESSION) else inr None)
    end
  end.

(** The forwarding half of [handle_inbound], once a session is there. *)
Definition inbound_forward (i : Z) (r : RsState) (meta : PacketMeta) (is_new tcp : bool)
  : ST PState Result :=
  _ ← update_state i (meta_tcp_flags meta) CLIENT_TO_RS;
  n ← gets (fun s => pkt_len (p_m s));
  _ ← sess_upd i (fun s => set_bytes_in (u64 (bytes_in s + n)) (set_pkts_in (u64 (pkts_in s + 1)) s));
  mac ← resolve_rs_mac i r;
  match mac with
  | None => _ ← when is_new (close_session i); mret (drop ST_DROP_NO_NEIGH)
  | Some mac =>
    md ← gets (fun s => Snapshot.mode (p_snap s));
    match md with
    | DR =>
      _ ← onm (dr_rewrite (local_mac dp) mac);
      _ ← count_fwd_in i;
      mret send
    | NAT =>
      s ← sess i;
      let rw := mkNatRewrite (dst_ip (server s)) (src_ip (server s)) (dst_port (server s))
                  (src_port (server s)) (local_mac dp) mac in
      let opt := mkNatOptions (tcp && c_strip_tcp_timestamp (dp_cfg dp))
                   (flag (Session.flags s) SF_TOA_PENDING
                    && negb (flag (meta_tcp_flags meta) (Z.lor TCP_SYN TCP_RST)))
                   (src_ip (client s)) (src_port (client s)) (dp_tx_offloads dp) (dp_mtu dp) in
      '(res, _, out) ← onm (nat_rewrite hw_cksum meta rw opt);
      match res with
      | TTL_EXCEEDED => _ ← when is_new (close_session i); mret (drop ST_DROP_TTL)
      | RW_OK =>
        _ ← when (ts_stripped out) (stat ST_TS_STRIPPED);
        _ ← when (toa_added out) (stat ST_TOA_ADDED);
        _ ← when (toa_no_room out) (stat ST_TOA_NO_ROOM);
        _ ← count_fwd_in i;
        mret send
      end
    end
  end.

(** The tail of every ownership test. *)
Definition not_owner (redirected : bool) (owner : Z) : Result :=
  if redirected then drop ST_DROP_OTHER else redirect owner.

Definition handle_inbound (svc : Service) (meta : PacketMeta) (redirected : bool)
  : ST PState Result :=
  let tuple := to_five_tuple meta in
  let st := dp_steering dp in
  widx ← gets (fun s => idx (p_w s));
  let owner := fwd_owner st tuple in
  if negb (owner =? widx) then mret (not_owner redirected owner)
  else
    let tcp := meta_ip_protocol meta =? 6 in
    let syn := is_syn meta in
    _ ← when (syn && hw_ st && negb redirected) (rss_check tuple);
    x ← inbound_lookup tuple tcp syn;
    match x with
    | inl r => mret r
    | inr (Some (i, r)) => inbound_forward i r meta false tcp
    | inr None =>
      if tcp && negb syn then mret (drop ST_DROP_NO_SESSION)
      else
        x ← new_session svc tuple;
        match x with
        | inl fail => mret (drop fail)
        | inr i =>
          s ← sess i;
          snap ← gets p_snap;
          r ← deref (rs snap (rs_id s));
          inbound_forward i r meta true tcp
        end
    end.

(** ** RS -> LIP *)

Definition handle_return (meta : PacketMeta) (redirected : bool) : ST PState Result :=
  let tuple := to_five_tuple meta in
  widx ← gets (fun s => idx (p_w s));
  let owner := ret_owner (dp_steering dp) tuple in
  if negb (owner =? widx) then mret (not_owner redirected owner)
  else
    t ← table;
    match lookup t tuple with
    | None => mret (drop ST_DROP_NO_SESSION)
    | Some i =>
      s ← sess i;
      if negb (flag (Session.flags s) SF_FULLNAT) || negb (FiveTuple_eqb (server s) tuple)
      then mret (drop ST_DROP_NO_SESSION)
      else
        snap ← gets p_snap;
        let dead := match rs snap (rs_id s) with Some r => negb (usable r) | None => true end in
        if dead then _ ← close_session i; mret (drop ST_DROP_RS_DOWN)
        else
          _ ← update_state i (meta_tcp_flags meta) RS_TO_CLIENT;
          s ← sess i;
          _ ← when (flag (Session.flags s) SF_TOA_PENDING && negb (flag (meta_tcp_flags meta) TCP_SYN))
                (sess_upd i (fun s => set_flags (Z.land (Session.flags s) (255 - SF_TOA_PENDING)) s));
          n ← gets (fun s => pkt_len (p_m s));
          _ ← sess_upd i (fun s =>
                set_bytes_out (u64 (bytes_out s + n)) (set_pkts_out (u64 (pkts_out s + 1)) s));
          mac ← resolve_client_mac i;
          match mac with
          | None => mret (drop ST_DROP_NO_NEIGH)
          | Some mac =>
            s ← sess i;
            let rw := mkNatRewrite (dst_ip (client s)) (src_ip (client s)) (dst_port (client s))
                        (src_port (client s)) (local_mac dp) mac in
            let opt := mkNatOptions false false 0 0 (dp_tx_offloads dp) (dp_mtu dp) in
            '(res, _, _) ← onm (nat_rewrite hw_cksum meta rw opt);
            match res with
            | TTL_EXCEEDED => mret (drop ST_DROP_TTL)
            | RW_OK => _ ← count_fwd_out i; mret send
            end
          end
    end.

(** ** ICMP *)

(** Case 1: the error is about a packet sent to a real server. *)
Definition icmp_to_client (meta : PacketMeta) (info : IcmpErrorInfo) (redirected : bool)
  : ST PState Result :=
  let key := reverse (inner info) in
  widx ← gets (fun s => idx (p_w s));
  let owner := ret_owner (dp_steering dp) key in
  if negb (owner =? widx) then mret (not_owner redirected owner)
  else
    t ← table;
    match lookup t key with
    | None => mret (drop ST_DROP_NO_SESSION)
    | Some i =>
      s ← sess i;
      if negb (FiveTuple_eqb (server s) key) then mret (drop ST_DROP_NO_SESSION)
      else
        mac ← resolve_client_mac i;
        match mac with
        | None => mret (drop ST_DROP_NO_NEIGH)
        | Some mac =>
          s ← sess i;
          res ← onm (nat_rewrite_icmp_error meta info (dst_ip (client s)) (src_ip (client s))
                       (client s) (local_mac dp) mac);
          match res with
          | TTL_EXCEEDED => mret (drop ST_DROP_TTL)
          | RW_OK => _ ← stat ST_ICMP_ERR_FWD; mret send
          end
        end
    end.

(** Case 2: the error is about a packet sent to a client. *)
Definition icmp_to_rs (meta : PacketMeta) (info : IcmpErrorInfo) (redirected : bool)
  : ST PState Result :=
  let key := reverse (inner info) in
  widx ← gets (fun s => idx (p_w s));
  let owner := fwd_owner (dp_steering dp) key in
  if negb (owner =? widx) then mret (not_owner redirected owner)
  else
    t ← table;
    match lookup t key with
    | None => mret (drop ST_DROP_NO_SESSION)
    | Some i =>
      s ← sess i;
      if negb (FiveTuple_eqb (client s) key) then mret (drop ST_DROP_NO_SESSION)
      else
        snap ← gets p_snap;
        mac ← (match rs snap (rs_id s) with
               | None => mret None
               | Some r => resolve_rs_mac i r
               end : ST PState (option MacAddr));
        match mac with
        | None => mret (drop ST_DROP_NO_NEIGH)
        | Some mac =>
          match Snapshot.mode snap with
          | DR =>
            _ ← onm (dr_rewrite (local_mac dp) mac);
            _ ← stat ST_ICMP_ERR_FWD; mret send
          | NAT =>
            s ← sess i;
            res ← onm (nat_rewrite_icmp_error meta info (dst_ip (server s)) (src_ip (server s))
                         (server s) (local_mac dp) mac);
            match res with
            | TTL_EXCEEDED => mret (drop ST_DROP_TTL)
            | RW_OK => _ ← stat ST_ICMP_ERR_FWD; mret send
            end
          end
        end
    end.

Definition handle_icmp_error (meta : PacketMeta) (redirected : bool) : ST PState Result :=
  o ← onf (parse_icmp_error meta);
  match o with
  | None => mret (drop ST_DROP_MALFORMED)
  | Some info =>
    snap ← gets p_snap;
    dlip ← andM (bool_decide (Snapshot.mode snap = NAT)) (deref (is_lip snap (meta_dst_ip meta)));
    slip ← andM dlip (deref (is_lip snap (src_ip (inner info))));
    if slip && in_nat_range (src_port (inner info)) then icmp_to_client meta info redirected
    else
      dvip ← deref (is_vip snap (meta_dst_ip meta));
      svip ← andM dvip (deref (is_vip snap (src_ip (inner info))));
      if (svip : bool) then icmp_to_rs meta info redirected
      else mret (drop ST_DROP_NO_SESSION)
  end.

Definition echo_reply (meta : PacketMeta) : ST PState Result :=
  ok ← onf (handle_echo_request (meta_l4_offset meta) (meta_total_len meta - meta_l4_offset meta));
  if negb ok then mret (drop ST_DROP_OTHER)
  else
    let ip := meta_l3_offset meta in
    _ ← onf (
      _ ← Eth.swap_mac 0;
      _ ← Eth.set_src_mac 0 (local_mac dp);
      _ ← Ip.swap_ip ip;
      _ ← wr8 (Ip.ttl ip) 64;
      update ip);
    _ ← onm clear_tx_offload;
    mret send.

Definition handle_icmp (meta : PacketMeta) (redirected : bool) : ST PState Result :=
  ty ← onf (rd8 (IcmpH.type (meta_l4_offset meta)));
  if IcmpH.icmp_is_error ty then handle_icmp_error meta redirected
  else echo_reply meta.

(** ** Health-check answers and ARP *)

Definition handle_hc_response (meta : PacketMeta) : ST PState Result :=
  if negb (meta_ip_protocol meta =? 6) then mret (drop ST_DROP_OTHER)
  else
    let tcp := meta_l4_offset meta in
    sn ← onf (rd32 (TcpH.seq_num tcp));
    an ← onf (rd32 (TcpH.ack_num tcp));
    _ ← post_master_event (mkEvent EV_HC_RESP (meta_tcp_flags meta) (ntohs (meta_dst_port meta))
          (meta_src_ip meta) (ntohl sn) (ntohl an) mac_zero (ntohs (meta_src_port meta)));
    _ ← stat ST_HC_RESP;
    mret consumed.

Definition handle_arp : ST PState Result :=
  n ← gets (fun s => data_len (p_m s));
  if n <? Eth.HEADER_SIZE + Arp.HEADER_SIZE then mret (drop ST_DROP_MALFORMED)
  else
    let arp := Eth.HEADER_SIZE in
    _ ← stat ST_ARP;
    v4 ← onf (Arp.is_eth_ipv4 arp);
    if negb v4 then mret consumed
    else
      snap ← gets p_snap;
      sip ← onf (rd32 (Arp.sender_ip arp));
      mine ← deref (is_local snap sip);
      if (mine : bool) then mret consumed
      else
        tip ← onf (rd32 (Arp.target_ip arp));
        forus ← deref (is_local snap tip);
        if negb forus then mret consumed
        else
          mac ← onf (rd_bytes (Arp.sender_mac arp) 6);
          req ← onf (Arp.is_request arp);
          if (req : bool) then
            _ ← when (negb (sip =? 0) && Route.on_link (dp_route dp) sip)
                  (post_master_event (neigh_event EV_ARP_FOR_US sip mac));
            _ ← onf (Arp.make_reply 0 arp (local_mac dp));
            _ ← onm clear_tx_offload;
            mret send
          else
            rep ← onf (Arp.is_reply arp);
            _ ← when rep (post_master_event (neigh_event EV_ARP_REPLY sip mac));
            mret consumed.

(** ** Entry point *)

(** TCP and UDP. *)
Definition handle_l4 (meta : PacketMeta) (redirected : bool) : ST PState Result :=
  snap ← gets p_snap;
  let dst := meta_dst_ip meta in
  _ ← when (negb redirected) (stat (if meta_ip_protocol meta =? 6 then ST_TCP else ST_UDP));
  lip ← andM (bool_decide (Snapshot.mode snap = NAT)) (deref (is_lip snap dst));
  if lip && in_nat_range (meta_dst_port meta) then handle_return meta redirected
  else if (dst =? hc_src snap) && in_hc_range (meta_dst_port meta) then handle_hc_response meta
  else
    svc ← deref (find_service snap dst (meta_dst_port meta) (meta_ip_protocol meta));
    match svc with
    | Some svc => handle_inbound svc meta redirected
    | None =>
      local ← deref (is_local snap dst);
      mret (drop (if (local : bool) then ST_DROP_NO_SERVICE else ST_DROP_NOT_LOCAL))
    end.

(** After parsing. *)
Definition handle_ipv4 (meta : PacketMeta) (redirected : bool) : ST PState Result :=
  m ← gets p_m;
  if cksum_bad m then mret (drop ST_DROP_CKSUM)
  else if Eth.mac_equal (meta_src_mac meta) (local_mac dp) then mret consumed
  else
    snap ← gets p_snap;
    let dst := meta_dst_ip meta in
    if meta_ip_protocol meta =? 1 then
      local ← deref (is_local snap dst);
      if negb local then mret (drop ST_DROP_NOT_LOCAL)
      else
        _ ← when (negb redirected) (stat ST_ICMP);
        handle_icmp meta redirected
    else if negb (meta_ip_protocol meta =? 6) && negb (meta_ip_protocol meta =? 17) then
      local ← deref (is_local snap dst);
      mret (drop (if (local : bool) then ST_DROP_NO_SERVICE else ST_DROP_NOT_LOCAL))
    else handle_l4 meta redirected.

(** [meta0] is the content of the uninitialised [PacketMeta]. *)
Definition process_packet (meta0 : PacketMeta) (redirected : bool) : ST PState Result :=
  n ← gets (fun s => data_len (p_m s));
  if n <? Eth.HEADER_SIZE then mret (drop ST_DROP_MALFORMED)
  else
    arp ← onf (Eth.is_arp 0);
    if (arp : bool) then handle_arp
    else
      v4 ← onf (Eth.is_ipv4 0);
      if negb v4 then mret (drop ST_DROP_OTHER)
      else
        '(pr, meta) ← onf (parse n meta0);
        match pr with
        | OK => handle_ipv4 meta redirected
        | FRAGMENT => mret (drop ST_DROP_FRAGMENT)
        | MALFORMED => mret (drop ST_DROP_MALFORMED)
        end.

End Processor.
End Processor.
