(* ===== verification/ProcessorInv.v ===== *)
(** What the packet path relies on and keeps: the invariant of a worker's
    sessions, of the snapshot it reads and of the data plane's constants. *)
From S2P Require Import Prelude Types TcpState Mem Headers Dpdk Session SessionInv SessionSpec SessionThms SessionView Checksum Parser ParserThms Forward ForwardThms Steering Scheduler SchedulerProps Config Snapshot SnapshotThms Neigh NeighProps Context Processor.
Import Tcp Session SessionSpec SessionView Checksum Parser ParserThms Forward ForwardThms Steering Scheduler SchedulerProps Config Snapshot SnapshotThms Context Processor.

Module ProcessorInv.

Abbreviation mac_wf := NeighProps.mac_wf.

(** ** Snapshots *)

Record rs_ok (r : RsState) : Prop := {
  ro_id : 0 <= r_id r < kMaxRsCounters;
  ro_ip : is_u32 (r_ip r);
  ro_port : is_u16 (r_port_be r);
  ro_mac : mac_wf (r_mac r)
}.

Section Snap.
Context `{HF : RteHashFns} (max_lcore : nat).

Record snap_ok (snap : Snapshot) : Prop := {
  sk_indexed : indexed snap;
  sk_sched s : s ∈ services snap ->
    exists ty, built max_lcore ty (backend_of <$> s_rs s) (s_sched s);
  sk_member s r : s ∈ services snap -> r ∈ s_rs s -> rs snap (r_id r) = Some r;
  sk_rs id r : rs snap id = Some r -> rs_ok r;
  sk_lips : Forall is_u32 (local_ips snap)
}.

(** The part of a service the tables depend on. *)
Definition svc_id (s : Service) : Z * Z * Z * Z := (s_idx s, s_vip s, s_port_be s, s_proto s).

Lemma svc_ok_ext slots l l' :
  svc_id <$> l' = svc_id <$> l -> svc_ok slots l -> svc_ok slots l'.
Proof.
  intros E [H1 H2 H3 H4].
  assert (K : forall (a b : list Service) s, svc_id <$> a = svc_id <$> b -> s ∈ a -> exists s0, s0 ∈ b /\ svc_id s0 = svc_id s).
  { intros a b s Eab Hs. assert (svc_id s ∈ svc_id <$> b) as (s0 & ? & ?)%list_elem_of_fmap.
    { rewrite <- Eab. by apply list_elem_of_fmap_2. } eauto. }
  split; [done|..].
  - intros s Hs. destruct (K _ _ s E Hs) as (s0 & Hs0 & E0). unfold svc_id in E0.
    destruct (H2 s0 Hs0) as (i & Hi & Hx & Hp). exists i. split; [done|].
    unfold svc_start in *. replace (s_idx s) with (s_idx s0) by congruence.
    replace (s_vip s) with (s_vip s0) by congruence. replace (s_port_be s) with (s_port_be s0) by congruence.
    replace (s_proto s) with (s_proto s0) by congruence. done.
  - intros i Hi Hx. destruct (H3 i Hi Hx) as (x & Hx1 & Hx2).
    destruct (K _ _ x (eq_sym E) Hx1) as (y & Hy & Ey). unfold svc_id in Ey. exists y. split; [done|].
    congruence.
  - apply (f_equal length) in E. rewrite !length_fmap in E. by rewrite E.
Qed.

(** Services whose identity is unchanged are found the same way. *)
Lemma indexed_ext snap snap' :
  indexed snap -> svc_id <$> services snap' = svc_id <$> services snap ->
  svc_slots_ snap' = svc_slots_ snap -> vips_ snap' = vips_ snap -> lips_ snap' = lips_ snap ->
  locals_ snap' = locals_ snap -> local_ips snap' = local_ips snap -> hc_src snap' = hc_src snap ->
  indexed snap'.
Proof.
  intros [X1 X2 X3 X4 X5 X6 X7] E E1 E2 E3 E4 E5 E6.
  assert (Ev : s_vip <$> services snap' = s_vip <$> services snap).
  { assert (F : forall l : list Service, s_vip <$> l = (fun k => k.1.1.2) <$> (svc_id <$> l)).
    { intros l. rewrite <- list_fmap_compose. done. }
    by rewrite !F, E. }
  assert (El : length (services snap') = length (services snap)).
  { apply (f_equal length) in E. by rewrite !length_fmap in E. }
  assert (S : svc_ok (svc_slots_ snap') (services snap')).
  { rewrite E1. by eapply svc_ok_ext. }
  assert (I : idx_ok (services snap')).
  { intros i s Hs. assert (Hk : (svc_id <$> services snap') !! i = Some (svc_id s))
      by (by rewrite list_lookup_fmap, Hs).
    rewrite E in Hk. apply list_lookup_fmap_Some in Hk as (s0 & Es & Hs0).
    rewrite <- (X2 i s0 Hs0). unfold svc_id in Es. congruence. }
  split; [done|done|by rewrite El|..].
  - intros. apply find_service_exact; [done|done|by rewrite El].
  - intros. unfold is_vip. rewrite E2, Ev. apply X5.
  - intros. unfold is_lip. rewrite E3, E5. apply X6.
  - intros. unfold is_local. rewrite E4, E5, E6, Ev. apply X7.
Qed.

Lemma found_service snap vip port proto s :
  snap_ok snap -> find_service snap vip port proto = Some (Some s) ->
  s ∈ services snap /\ services snap !! Z.to_nat (s_idx s) = Some s.
Proof.
  intros K H. destruct (ix_svc _ (sk_indexed _ K) vip port proto) as (o & Ho & Hs & _).
  assert (o = Some s) as -> by congruence. destruct (Hs s eq_refl) as [Hin _]. split; [done|].
  apply list_elem_of_lookup in Hin as (i & Hi).
  rewrite (ix_idx _ (sk_indexed _ K) i s Hi), Nat2Z.id. done.
Qed.

Lemma set_sched_ok snap svc ty sc :
  snap_ok snap -> services snap !! Z.to_nat (s_idx svc) = Some svc ->
  built max_lcore ty (backend_of <$> s_rs svc) sc -> snap_ok (set_sched svc sc snap).
Proof.
  intros [K1 K2 K3 K4 K5] Hs B. unfold set_sched. set (svc' := mkService _ _ _ _ _ _ _ _).
  assert (M : forall s, s ∈ <[Z.to_nat (s_idx svc) := svc']> (services snap) -> s = svc' \/ s ∈ services snap).
  { intros s (i & Hi)%list_elem_of_lookup. apply list_lookup_insert_Some in Hi as [(_ & <- & _)|[_ Hi]];
      [by left|]. right. by eapply list_elem_of_lookup_2. }
  split; cbn [services local_ips].
  - eapply indexed_ext; [exact K1|..]; try done. cbn [services].
    rewrite list_fmap_insert. change (svc_id svc') with (svc_id svc).
    apply list_insert_id. by rewrite list_lookup_fmap, Hs.
  - intros s [->|Hin]%M; [by exists ty|]. by apply K2.
  - intros s r [->|Hin]%M Hr; [|by apply (K3 s)]. apply (K3 svc); [|done].
    by eapply list_elem_of_lookup_2.
  - apply K4.
  - done.
Qed.

(** A pick names a usable real server of the snapshot. *)
Lemma pick_usable snap svc tuple w pick sc :
  snap_ok snap -> svc ∈ services snap -> (0 < max_lcore)%nat ->
  Scheduler.pick (s_sched svc) tuple w = (pick, sc) ->
  (exists ty, built max_lcore ty (backend_of <$> s_rs svc) sc) /\
  (pick = -1 \/ 0 <= pick /\ exists r, s_rs svc !! Z.to_nat pick = Some r /\ rs snap (r_id r) = Some r
     /\ usable r = true).
Proof.
  intros K Hs Hm Hp. destruct (sk_sched _ K svc Hs) as [ty B].
  pose proof (pick_ok max_lcore ty _ _ tuple w B Hm) as H. rewrite Hp in H. destruct H as [B' H].
  split; [by exists ty|]. destruct H as [[-> _]|(i & y & -> & Hi & Hw)]; [by left|]. right. split; [lia|].
  rewrite Nat2Z.id. rewrite list_lookup_fmap in Hi. destruct (s_rs svc !! i) as [r|] eqn:E; [|done].
  injection Hi as <-. exists r. split; [done|]. split.
  - apply (sk_member _ K svc); [done|]. by eapply list_elem_of_lookup_2.
  - unfold backend_of in Hw. cbn [b_weight] in Hw. unfold schedulable in Hw.
    destruct (usable r); [done|]. cbn in Hw. lia.
Qed.

End Snap.

(** ** Workers *)

Section Inv.
Context `{RH : RteHash FiveTuple} `{RL : !RteHashLaws FiveTuple RH} `{NH : RteHash Z} `{HF : RteHashFns}.
Context (dp : Dataplane (NH := NH)) (max_lcore : nat).

(** The constants the packet path uses. *)
Record dp_ok : Prop := {
  do_mac : mac_wf (local_mac dp);
  do_mtu : dp_mtu dp <= 65535;
  do_steering : steering_ok (dp_steering dp);
  do_workers : n_ (dp_steering dp) <= 5000;
  do_lcore : (0 < max_lcore)%nat
}.

(** A session of worker [w]: in FULLNAT mode its return key comes back to the
    same worker and to the SNAT port range of a local address. *)
Record sess_ok (md : ForwardMode) (lips : list IPv4Addr) (w : Z) (p : Session) : Prop := {
  so_client : FiveTuple_wf (client p);
  so_server : FiveTuple_wf (server p);
  so_rs : 0 <= rs_id p < kMaxRsCounters;
  so_rs_mac : mac_wf (Session.rs_mac p);
  so_cli_mac : mac_wf (cli_mac p);
  so_src_mac : mac_wf (cli_src_mac p);
  so_owner : fwd_owner (dp_steering dp) (client p) = w;
  so_nat : md = NAT -> has_flag (flags p) SF_FULLNAT = true
    /\ ret_owner (dp_steering dp) (server p) = w
    /\ dst_ip (server p) ∈ lips /\ in_nat_range (dst_port (server p)) = true
    /\ protocol (server p) = protocol (client p);
  so_dr : md = DR -> has_flag (flags p) SF_FULLNAT = false
}.

(** Every timeout of the configuration fits the time wheel at [now] and ends
    later. *)
Definition timely (t : SessionTable) (now : Z) : Prop :=
  forall st, cur_tick_ t <= deadline now (state_timeout st (c_timeouts (dp_cfg dp)))
               < cur_tick_ t + (kWheelSlots - 1)
             /\ now < deadline now (state_timeout st (c_timeouts (dp_cfg dp))).

Record winv (t : SessionTable) (now w : Z) (snap : Snapshot) : Prop := {
  wi_table : table_ok t;
  wi_sess : map_Forall (fun _ p => sess_ok (Snapshot.mode snap) (local_ips snap) w p) (view t);
  wi_timely : timely t now;
  wi_snap : snap_ok max_lcore snap;
  wi_idx : 0 <= w < n_ (dp_steering dp)
}.

Definition inv (s : PState) : Prop :=
  winv (sessions (p_w s)) (now_tick (p_w s)) (idx (p_w s)) (p_snap s).

(** What one packet does not change. *)
Definition stable (s s' : PState) : Prop :=
  idx (p_w s') = idx (p_w s) /\ now_tick (p_w s') = now_tick (p_w s)
  /\ Snapshot.mode (p_snap s') = Snapshot.mode (p_snap s)
  /\ local_ips (p_snap s') = local_ips (p_snap s)
  /\ (forall id, rs (p_snap s') id = rs (p_snap s) id)
  /\ calm (now_tick (p_w s)) (sessions (p_w s)) (sessions (p_w s')).

Lemma stable_refl s : stable s s.
Proof. done. Qed.
Lemma stable_trans s1 s2 s3 : stable s1 s2 -> stable s2 s3 -> stable s1 s3.
Proof. intros (A1 & A2 & A3 & A4 & A5 & A6) (B1 & B2 & B3 & B4 & B5 & B6). split_and!; [congruence..|].
  rewrite A2 in B6. by eapply calm_trans.
Qed.

(** The invariant under a change of the session table. *)
Lemma winv_table t t' now w snap :
  winv t now w snap -> table_ok t' -> cur_tick_ t' = cur_tick_ t ->
  map_Forall (fun _ p => sess_ok (Snapshot.mode snap) (local_ips snap) w p) (view t') ->
  winv t' now w snap.
Proof.
  intros [W1 W2 W3 W4 W5] Ht Hc Hs. split; try done. intros st. rewrite Hc. apply W3.
Qed.

Lemma winv_sess t now w snap i p :
  winv t now w snap -> view t !! i = Some p ->
  sess_ok (Snapshot.mode snap) (local_ips snap) w p.
Proof. intros W Hp. exact (wi_sess _ _ _ _ W i p Hp). Qed.

Lemma winv_remove t now w snap i :
  winv t now w snap -> is_Some (view t !! i) -> winv (remove t i) now w snap.
Proof.
  intros W Hi. destruct (remove_view t i (wi_table _ _ _ _ W) Hi) as (H1 & H2 & H3).
  apply (winv_table t); [done..|]. rewrite H2. apply map_Forall_delete, W.
Qed.

Lemma winv_touch t now w snap i st :
  winv t now w snap -> is_Some (view t !! i) ->
  let t' := touch t i now (state_timeout st (c_timeouts (dp_cfg dp))) in
  winv t' now w snap /\ view t' = view t.
Proof.
  intros W Hi. destruct (touch_view t i now (state_timeout st (c_timeouts (dp_cfg dp)))
    (wi_table _ _ _ _ W) Hi (proj1 (wi_timely _ _ _ _ W st))) as (H1 & H2 & H3).
  split; [|done]. apply (winv_table t); [done..|]. rewrite H2. apply W.
Qed.

Lemma winv_upd t now w snap i p f :
  winv t now w snap -> view t !! i = Some p -> neutral f ->
  sess_ok (Snapshot.mode snap) (local_ips snap) w (f p) ->
  winv (upd t i f) now w snap /\ view (upd t i f) = <[i := f p]> (view t).
Proof.
  intros W Hp N Hs. destruct (upd_view t i f p (wi_table _ _ _ _ W) Hp N) as [H1 H2].
  split; [|done]. apply (winv_table t); [done..|]. rewrite H2. apply map_Forall_insert_2; [done|apply W].
Qed.

(** An assignment that keeps what [sess_ok] speaks of. *)
Lemma sess_ok_ext md lips w p q :
  sess_ok md lips w p -> client q = client p -> server q = server p -> rs_id q = rs_id p ->
  mac_wf (Session.rs_mac q) -> mac_wf (cli_mac q) -> cli_src_mac q = cli_src_mac p ->
  has_flag (flags q) SF_FULLNAT = has_flag (flags p) SF_FULLNAT ->
  sess_ok md lips w q.
Proof.
  intros [S1 S2 S3 S4 S5 S6 S7 S8 S9] E1 E2 E3 E4 E5 E6 E7.
  split; rewrite ?E1, ?E2, ?E3, ?E6, ?E7; done.
Qed.

(** ** Results *)

Definition res_ok (redirected : bool) (w : Z) (r : Result) : Prop :=
  match verdict r with
  | SEND | CONSUMED => True
  | DROP => reason r ∈ drop_range
  | REDIRECT => redirected = false /\ 0 <= target r < n_ (dp_steering dp) /\ target r <> w
  end.

End Inv.

(** Nothing of this depends on the neighbour table, which the master updates. *)
Section Neighbours.
Context `{RH : RteHash FiveTuple} `{RL : !RteHashLaws FiveTuple RH} `{NH : RteHash Z} `{HF : RteHashFns}.
Context (n : Neigh.NeighTable (RH := NH)) (dp : Dataplane (NH := NH)) (max_lcore : nat).

Lemma dp_ok_neigh : dp_ok dp max_lcore -> dp_ok (with_neigh n dp) max_lcore.
Proof. intros [D1 D2 D3 D4 D5]. by split. Qed.

Lemma winv_neigh t now w snap :
  winv (RH := RH) (with_neigh n dp) max_lcore t now w snap <-> winv (RH := RH) dp max_lcore t now w snap.
Proof.
  split; intros [W1 W2 W3 W4 W5]; (split; [done| |done|done|done]); intros i p Hp;
    destruct (W2 i p Hp) as [S1 S2 S3 S4 S5 S6 S7 S8 S9]; by split.
Qed.

End Neighbours.
End ProcessorInv.
