(* ===== verification/ProcessorThms.v ===== *)
(** Total-correctness specifications of the packet path's helpers. *)
From S2P Require Import Prelude Types TcpState Mem Headers Dpdk Session SessionInv SessionSpec SessionThms SessionView Checksum ChecksumThms Parser ParserThms Forward ForwardThms Steering Scheduler SchedulerProps Config Snapshot SnapshotThms Neigh NeighProps Context Processor ProcessorInv.
Import Tcp Session SessionSpec SessionView Checksum ChecksumThms Parser ParserThms Forward ForwardThms Steering Scheduler SchedulerProps Config Snapshot SnapshotThms Context Processor ProcessorInv.

Module ProcessorThms.

Lemma wp_deref {S A} (o : option A) a (Q : A -> S -> Prop) s : o = Some a -> Q a s -> wp (deref o) Q s.
Proof. by intros ->. Qed.

Lemma wp_andM {S} (b : bool) (m : ST S bool) Q s :
  (b = false -> Q false s) -> (b = true -> wp m Q s) -> wp (andM b m) Q s.
Proof. destruct b; intros H1 H2; [by apply H2|]. by apply H1. Qed.

(** What identifies a connection in a session. *)
Record same_conn (p q : Session) : Prop := {
  sc_client : client q = client p;
  sc_server : server q = server p;
  sc_rs : rs_id q = rs_id p;
  sc_nat : has_flag (flags q) SF_FULLNAT = has_flag (flags p) SF_FULLNAT
}.

Lemma same_conn_refl p : same_conn p p.
Proof. done. Qed.
Lemma same_conn_trans p q r : same_conn p q -> same_conn q r -> same_conn p r.
Proof. intros [] []. split; congruence. Qed.

Lemma unpack_wf v : mac_wf (Neigh.unpack v).
Proof.
  split; [done|]. unfold Neigh.unpack. repeat (apply Forall_cons; split); [..|constructor];
    apply Z.mod_pos_bound; lia.
Qed.

Lemma mac_zero_wf : mac_wf mac_zero.
Proof. split; [done|]. by apply frameb_frame. Qed.

Section Steps.
Context `{RH : RteHash FiveTuple} `{RL : !RteHashLaws FiveTuple RH} `{NH : RteHash Z}.
Context `{HF : RteHashFns} `{HL : !RteHashFnsLaws HF} `{MB : RteMbuf} `{ML : !RteMbufLaws MB}.
Context (hw_cksum : bool) (dp : Dataplane (NH := NH)) (max_lcore : nat).
Abbreviation inv := (inv dp max_lcore).
Implicit Types s : PState (RH := RH).

Definition tbl s : SessionTable := sessions (p_w s).

(** Only counters, events and port cursors changed. *)
Record quiet s s' : Prop := {
  qu_tbl : tbl s' = tbl s;
  qu_idx : idx (p_w s') = idx (p_w s);
  qu_now : now_tick (p_w s') = now_tick (p_w s);
  qu_m : p_m s' = p_m s;
  qu_snap : p_snap s' = p_snap s
}.

Lemma quiet_refl s : quiet s s.
Proof. done. Qed.
Lemma quiet_trans s1 s2 s3 : quiet s1 s2 -> quiet s2 s3 -> quiet s1 s3.
Proof. intros [] []. split; congruence. Qed.
Lemma quiet_inv s s' : quiet s s' -> inv s -> inv s'.
Proof.
  intros [Q1 Q2 Q3 Q4 Q5] I. unfold ProcessorInv.inv in *. unfold tbl in Q1. by rewrite Q1, Q2, Q3, Q5.
Qed.
Lemma quiet_stable s s' : quiet s s' -> stable s s'.
Proof. intros [Q1 Q2 Q3 Q4 Q5]. unfold stable. unfold tbl in Q1. by rewrite Q1, Q2, Q3, Q5. Qed.

(** Session [i] was updated, nothing else but counters and events changed. *)
Record moved (i : Z) s s' : Prop := {
  mv_inv : inv s';
  mv_stable : stable s s';
  mv_m : p_m s' = p_m s;
  mv_snap : p_snap s' = p_snap s;
  mv_view : exists p q, view (tbl s) !! i = Some p /\ view (tbl s') = <[i := q]> (view (tbl s))
                        /\ same_conn p q
}.

Lemma moved_refl i s : inv s -> is_Some (view (tbl s) !! i) -> moved i s s.
Proof.
  intros I [p Hp]. split; [done|apply stable_refl|done|done|]. exists p, p.
  split; [done|]. split; [|apply same_conn_refl]. by rewrite insert_id.
Qed.

Lemma moved_trans i s1 s2 s3 : moved i s1 s2 -> moved i s2 s3 -> moved i s1 s3.
Proof.
  intros [A1 A2 A3 A4 (p & q & A5 & A6 & A7)] [B1 B2 B3 B4 (p' & q' & B5 & B6 & B7)].
  split; [done|by eapply stable_trans|congruence|congruence|]. exists p, q'. split; [done|].
  rewrite A6, lookup_insert_eq in B5. injection B5 as <-. split.
  - by rewrite B6, A6, insert_insert_eq.
  - by eapply same_conn_trans.
Qed.

Lemma moved_quiet i s1 s2 s3 : moved i s1 s2 -> quiet s2 s3 -> moved i s1 s3.
Proof.
  intros [A1 A2 A3 A4 A5] Q. split.
  - by eapply quiet_inv.
  - eapply stable_trans; [done|by apply quiet_stable].
  - rewrite (qu_m _ _ Q). done.
  - rewrite (qu_snap _ _ Q). done.
  - rewrite (qu_tbl _ _ Q). done.
Qed.

Lemma moved_live i s s' : moved i s s' -> is_Some (view (tbl s') !! i).
Proof. intros [_ _ _ _ (p & q & _ & -> & _)]. rewrite lookup_insert_eq. eauto. Qed.

(** ** Elementary steps *)

Lemma stat_wp id Q s : (forall s', quiet s s' -> Q tt s') -> wp (stat id) Q s.
Proof. intros H. apply wp_modify, H. done. Qed.

Lemma post_wp ev Q s : (forall s', quiet s s' -> Q tt s') -> wp (post_master_event ev) Q s.
Proof. intros H. apply wp_modify, H. done. Qed.

Lemma when_quiet_wp b (m : ST PState unit) Q s :
  (forall Q s, (forall s', quiet s s' -> Q tt s') -> wp m Q s) ->
  (forall s', quiet s s' -> Q tt s') -> wp (when b m) Q s.
Proof. intros Hm H. apply wp_when; intros _; [by apply Hm|apply H, quiet_refl]. Qed.

Lemma rs_count_wp id f Q s :
  0 <= id < kMaxRsCounters -> (forall s', quiet s s' -> Q tt s') -> wp (rs_count id f) Q s.
Proof.
  intros Hid H. unfold rs_count. rewrite (proj2 (Z.leb_le 0 id)), (proj2 (Z.ltb_lt id _)) by lia.
  apply wp_modify, H. done.
Qed.

Lemma onm_wp {A} (k : ST Mbuf A) Q s :
  wp k (fun a m => Q a (set_m m s)) (p_m s) -> wp (onm k) Q s.
Proof. apply wp_zoom. Qed.

Lemma onf_wp {A} (k : ST (list Z) A) Q s :
  wp k (fun a b => Q a (set_m (set_mdata b (p_m s)) s)) (mdata (p_m s)) -> wp (onf k) Q s.
Proof. intros H. apply onm_wp. by apply wp_zoom. Qed.

(** Reading the frame. *)
Lemma set_m_id s : set_m (set_mdata (mdata (p_m s)) (p_m s)) s = s.
Proof. rewrite set_mdata_id. by destruct s. Qed.

Lemma onf_read_wp {A} (k : ST (list Z) A) Q s :
  wp k (fun a b => b = mdata (p_m s) /\ Q a s) (mdata (p_m s)) -> wp (onf k) Q s.
Proof.
  intros H. apply onf_wp. eapply wp_mono; [exact H|]. intros a b [-> HQ]. by rewrite set_m_id.
Qed.

Lemma sess_at s i p : inv s -> view (tbl s) !! i = Some p -> pay (at_ (tbl s) i) = p.
Proof. intros I Hp. by apply (view_at (tbl s) i p (wi_table _ _ _ _ _ _ I)). Qed.

Lemma sess_upd_wp i f p Q s :
  inv s -> view (tbl s) !! i = Some p -> neutral f -> same_conn p (f p) ->
  mac_wf (Session.rs_mac (f p)) -> mac_wf (cli_mac (f p)) -> cli_src_mac (f p) = cli_src_mac p ->
  (forall s', moved i s s' -> Q tt s') -> wp (sess_upd i f) Q s.
Proof.
  intros I Hp N C M1 M2 M3 H. apply wp_modify, H. pose proof C as [C1 C2 C3 C4].
  destruct (winv_upd dp max_lcore _ _ _ _ i p f I Hp N) as [I' V].
  { eapply sess_ok_ext; [by eapply winv_sess|..]; done. }
  pose proof (upd_calm (now_tick (p_w s)) _ i f p (wi_table _ _ _ _ _ _ I) Hp N) as Cm.
  split; [exact I'|done|done|done|]. exists p, (f p). split; [done|]. split; [exact V|done].
Qed.

(** Assignments to a session that [sess_ok] does not speak of. *)
Lemma sess_upd_plain_wp i f Q s :
  inv s -> is_Some (view (tbl s) !! i) -> neutral f ->
  (forall p, same_conn p (f p) /\ Session.rs_mac (f p) = Session.rs_mac p /\ cli_mac (f p) = cli_mac p
     /\ cli_src_mac (f p) = cli_src_mac p) ->
  (forall s', moved i s s' -> Q tt s') -> wp (sess_upd i f) Q s.
Proof.
  intros I [p Hp] N F H. destruct (F p) as (F1 & F2 & F3 & F4).
  pose proof (winv_sess _ _ _ _ _ _ _ _ I Hp) as S.
  eapply sess_upd_wp; try done; [rewrite F2|rewrite F3]; apply S.
Qed.

Lemma update_state_wp i flags dir Q s :
  inv s -> is_Some (view (tbl s) !! i) -> (forall s', moved i s s' -> Q tt s') ->
  wp (update_state dp i flags dir) Q s.
Proof.
  intros I Hi H. unfold update_state. apply wp_bind, wp_gets.
  assert (K : forall s1, moved i s s1 -> wp (s ← sess i; t ← table; now ← gets (fun s => now_tick (p_w s));
    set_table (touch t i now (state_timeout (state s) (c_timeouts (dp_cfg dp))))) Q s1).
  { intros s1 M. do 3 apply wp_bind, wp_gets. apply wp_modify, H.
    eapply moved_trans; [exact M|]. pose proof (mv_inv _ _ _ M) as I1.
    destruct (winv_touch dp max_lcore _ _ _ _ i (state (at_ (sessions (p_w s1)) i)) I1 (moved_live _ _ _ M))
      as [I2 V]. destruct (moved_live _ _ _ M) as [p Hp].
    split; [exact I2|split_and!; try done|done|done|].
    { destruct (proj2 (abs_view _ _ (wi_table _ _ _ _ _ _ I1)) (moved_live _ _ _ M)) as [e He].
      eapply touch_calm; [apply I1|exact He|apply (wi_timely _ _ _ _ _ _ I1)..]. } exists p, p. split; [done|]. split; [|apply same_conn_refl].
    rewrite insert_id by done. exact V. }
  apply wp_bind. case_decide; [apply wp_ret, K; by apply moved_refl|].
  destruct (tcp_next_state _ _ _ _) as [st fin].
  apply sess_upd_plain_wp; [done|done|neutral| |exact K]. intros p. done.
Qed.

(** No MAC address is known for the next hop [nh]. *)
Definition unresolved (nh : IPv4Addr) : Prop := nh = 0 \/ Neigh.lookup (dp_neigh dp) nh = None.

Lemma resolve_mac_wp nh cache gen fb Q s :
  mac_wf cache -> mac_wf fb ->
  (forall o cache' gen' s', quiet s s' -> mac_wf cache' -> (forall m, o = Some m -> mac_wf m) ->
     (o = None -> unresolved nh) -> Q (o, cache', gen') s') ->
  wp (resolve_mac dp nh cache gen fb) Q s.
Proof.
  intros Hc Hf H. unfold resolve_mac; cbv zeta. wp_if.
  { apply wp_ret, H; [done|done| |done]. intros m [= <-]. done. }
  destruct (if nh =? 0 then None else Neigh.lookup (dp_neigh dp) nh) as [out|] eqn:El.
  - assert (mac_wf out).
    { destruct (nh =? 0); [done|]. unfold Neigh.lookup in El.
      destruct (rte_hash_lookup_data _ _) as [v|]; [|done]. cbn [mbind option_bind] in El.
      destruct (_ =? 0); [done|]. injection El as <-. apply unpack_wf. }
    apply wp_ret, H; [done|done| |done]. intros m [= <-]. done.
  - apply wp_bind, when_quiet_wp; [intros; by apply post_wp|]. intros s' Hq. apply wp_ret, H; [done|done|..].
    + intros m. destruct (mac_is_zero fb); [done|]. by intros [= <-].
    + intros _. unfold unresolved. destruct (Z.eqb_spec nh 0); [by left|by right].
Qed.

Lemma resolve_rs_mac_wp i r Q s :
  inv s -> is_Some (view (tbl s) !! i) -> rs_ok r ->
  (forall o s', moved i s s' -> (forall m, o = Some m -> mac_wf m) -> Q o s') ->
  wp (resolve_rs_mac dp i r) Q s.
Proof.
  intros I [p Hp] R H. unfold resolve_rs_mac. wp_if.
  { apply wp_ret, H; [apply moved_refl; eauto|]. intros m [= <-]. apply R. }
  apply wp_bind, wp_gets. pose proof (winv_sess _ _ _ _ _ _ _ _ I Hp) as S.
  apply wp_bind, resolve_mac_wp.
  { rewrite <- (sess_at s i p I Hp) in S. apply S. }
  { apply mac_zero_wf. }
  intros o c g s' Hq Hc Ho _. cbv beta iota.
  assert (I' : inv s') by (by eapply quiet_inv).
  assert (Hp' : view (tbl s') !! i = Some p) by (rewrite (qu_tbl _ _ Hq); done).
  apply wp_bind. eapply sess_upd_wp; [exact I'|exact Hp'|neutral|done|done|apply S|done|].
  intros s2 M. apply wp_ret, H; [|done].
  eapply moved_trans; [|exact M]. eapply moved_quiet; [apply moved_refl; eauto|done].
Qed.

Lemma resolve_client_mac_wp i Q s :
  inv s -> is_Some (view (tbl s) !! i) ->
  (forall o s', moved i s s' -> (forall m, o = Some m -> mac_wf m) ->
     (o = None -> forall p, view (tbl s) !! i = Some p -> unresolved (Route.next_hop (dp_route dp) (src_ip (client p)))) ->
     Q o s') ->
  wp (resolve_client_mac dp i) Q s.
Proof.
  intros I [p Hp] H. unfold resolve_client_mac; cbv zeta. apply wp_bind, wp_gets.
  pose proof (winv_sess _ _ _ _ _ _ _ _ I Hp) as S. pose proof S as S0.
  rewrite <- (sess_at s i p I Hp) in S0. apply wp_bind, resolve_mac_wp.
  { apply S0. }
  { destruct (Route.on_link _ _); [apply S0|apply mac_zero_wf]. }
  intros o c g s' Hq Hc Ho Hu. cbv beta iota.
  assert (I' : inv s') by (by eapply quiet_inv).
  assert (Hp' : view (tbl s') !! i = Some p) by (rewrite (qu_tbl _ _ Hq); done).
  apply wp_bind. eapply sess_upd_wp; [exact I'|exact Hp'|neutral|done|apply S|done|done|].
  intros s2 M. apply wp_ret, H; [|done|].
  - eapply moved_trans; [|exact M]. eapply moved_quiet; [apply moved_refl; eauto|done].
  - intros E p1 Hp1. specialize (Hu E). assert (p1 = p) as -> by congruence.
    rewrite <- (sess_at s i p I Hp). exact Hu.
Qed.

(** [inv] does not depend on the packet. *)
Lemma inv_set_m m s : inv (set_m m s) <-> inv s.
Proof. done. Qed.

Lemma count_fwd_in_wp i Q s :
  inv s -> is_Some (view (tbl s) !! i) -> (forall s', quiet s s' -> Q tt s') -> wp (count_fwd_in i) Q s.
Proof.
  intros I [p Hp] H. unfold count_fwd_in. apply wp_bind, wp_gets. apply wp_bind, stat_wp. intros s1 Q1.
  apply wp_bind, wp_modify. apply wp_bind, wp_gets.
  pose proof (winv_sess _ _ _ _ _ _ _ _ I Hp) as S. rewrite <- (sess_at s i p I Hp) in S.
  apply rs_count_wp.
  - change (0 <= rs_id (at_ (tbl s1) i) < kMaxRsCounters). rewrite (qu_tbl _ _ Q1). apply S.
  - intros s2 Q2. apply H. eapply quiet_trans; [exact Q1|]. eapply quiet_trans; [|exact Q2]. done.
Qed.

Lemma count_fwd_out_wp i Q s :
  inv s -> is_Some (view (tbl s) !! i) -> (forall s', quiet s s' -> Q tt s') -> wp (count_fwd_out i) Q s.
Proof.
  intros I [p Hp] H. unfold count_fwd_out. apply wp_bind, wp_gets. apply wp_bind, stat_wp. intros s1 Q1.
  apply wp_bind, wp_modify. apply wp_bind, wp_gets.
  pose proof (winv_sess _ _ _ _ _ _ _ _ I Hp) as S. rewrite <- (sess_at s i p I Hp) in S.
  apply rs_count_wp.
  - change (0 <= rs_id (at_ (tbl s1) i) < kMaxRsCounters). rewrite (qu_tbl _ _ Q1). apply S.
  - intros s2 Q2. apply H. eapply quiet_trans; [exact Q1|]. eapply quiet_trans; [|exact Q2]. done.
Qed.

(** Session [i] was removed. *)
Record closed (i : Z) s s' : Prop := {
  cl_inv : inv s';
  cl_stable : stable s s';
  cl_m : p_m s' = p_m s;
  cl_snap : p_snap s' = p_snap s;
  cl_view : view (tbl s') = delete i (view (tbl s))
}.

Lemma close_session_wp i Q s :
  inv s -> is_Some (view (tbl s) !! i) -> (forall s', closed i s s' -> Q tt s') -> wp (close_session i) Q s.
Proof.
  intros I Hi H. unfold close_session. apply wp_bind, wp_gets. apply wp_bind, wp_modify.
  apply wp_modify, H. split; [|split_and!; try done|done|done|].
  - exact (winv_remove dp max_lcore _ _ _ _ i I Hi).
  - destruct (proj2 (abs_view _ _ (wi_table _ _ _ _ _ _ I)) Hi) as [e He].
    eapply remove_calm; [apply I|exact He].
  - exact (proj1 (proj2 (remove_view (tbl s) i (wi_table _ _ _ _ _ _ I) Hi))).
Qed.

End Steps.
End ProcessorThms.
