(* ===== verification/ProcessorNew.v ===== *)
(** New sessions: SNAT port selection and [new_session]. *)
From S2P Require Import Prelude Types TcpState Mem Headers Dpdk Session SessionInv SessionSpec SessionThms SessionView Checksum ChecksumThms Parser ParserThms Forward ForwardThms Steering Scheduler SchedulerProps Config Snapshot SnapshotThms Neigh NeighProps Context Processor ProcessorInv ProcessorThms.
Import Tcp Session SessionSpec SessionView Checksum ChecksumThms Parser ParserThms Forward ForwardThms Steering Scheduler SchedulerProps Config Snapshot SnapshotThms Context Processor ProcessorInv ProcessorThms.

Module ProcessorNew.

(** ** Ports *)

Lemma nat_port_spec idx step k :
  1 <= step <= 5000 -> 0 <= idx < step \/ step = 1 -> 0 <= k < 50001 / step ->
  kNatPortMin <= nat_port idx step k <= kNatPortMax /\ (step > 1 -> nat_port idx step k mod step = idx).
Proof.
  intros Hs Hi Hk. unfold nat_port, kNatPortMin, kNatPortMax in *.
  assert (Hks : k * step + step <= 50001).
  { pose proof (Z.mul_div_le 50001 step ltac:(lia)). nia. }
  assert (0 <= k * step) by nia.
  rewrite (u32_id (k * step)) by (zwrap; lia).
  destruct (Z.gtb_spec step 1).
  - pose proof (Z.mod_pos_bound (idx + step - 10000 mod step) step ltac:(lia)) as Ho.
    rewrite u32_id by (zwrap; lia). rewrite u16_id by (zwrap; lia). split; [lia|]. intros _.
    replace (10000 + k * step + (idx + step - 10000 mod step) mod step)
      with ((10000 + (idx + step - 10000 mod step) mod step) + k * step) by lia.
    rewrite Z.mod_add, Z.add_mod_idemp_r by lia.
    rewrite (Z.mod_eq 10000 step) by lia.
    replace (10000 + (idx + step - (10000 - step * (10000 / step)))) with (idx + (1 + 10000 / step) * step) by lia.
    rewrite Z.mod_add by lia. apply Z.mod_small. lia.
  - assert (step = 1) by lia. subst. rewrite u32_id by (zwrap; lia). rewrite u16_id by (zwrap; lia).
    split; lia.
Qed.

Lemma nat_port_range p : kNatPortMin <= p <= kNatPortMax -> in_nat_range (htons p) = true /\ is_u16 p.
Proof.
  unfold in_nat_range, kNatPortMin, kNatPortMax. intros H.
  assert (is_u16 p) by (unfold is_u16; lia). unfold ntohs, htons. rewrite bswap16_invol by done. split; [|done].
  apply andb_true_iff. rewrite Z.geb_leb, !Z.leb_le. lia.
Qed.

Section New.
Context `{RH : RteHash FiveTuple} `{RL : !RteHashLaws FiveTuple RH} `{NH : RteHash Z}.
Context `{HF : RteHashFns} `{HL : !RteHashFnsLaws HF} `{MB : RteMbuf}.
Context (dp : Dataplane (NH := NH)) (max_lcore : nat) (DP : dp_ok dp max_lcore).
Abbreviation inv := (inv dp max_lcore).
Abbreviation st := (dp_steering dp).
Implicit Types s : PState (RH := RH).

(** Candidate number [c] on [lip]: the return key of the session. *)
Definition candidate (w : Z) (client : FiveTuple) (r : RsState) (lip : IPv4Addr) (c : Z) : FiveTuple :=
  let step := port_step st (protocol client) in
  mkFiveTuple (r_ip r) lip (r_port_be r) (htons (nat_port w step (c mod (50001 / step))))
    (protocol client).

Lemma step_bounds proto : 1 <= port_step st proto <= 5000.
Proof.
  pose proof (do_steering _ _ DP) as [H _ _ _]. pose proof (do_workers _ _ DP).
  unfold port_step. destruct (ret_by_rss _ _); lia.
Qed.

Lemma slots_pos proto : 0 < 50001 / port_step st proto.
Proof. pose proof (step_bounds proto). apply Z.div_str_pos. lia. Qed.

(** A candidate that passes the RSS test comes back to worker [w]. *)
Lemma candidate_ok w client r lip c :
  0 <= w < n_ st -> is_u8 (protocol client) -> rs_ok r -> is_u32 lip ->
  let k := candidate w client r lip c in
  FiveTuple_wf k /\ in_nat_range (dst_port k) = true
  /\ (ret_by_rss st (protocol client) && negb (ret_owner st k =? w) = false -> ret_owner st k = w)
  /\ (nat_port w (port_step st (protocol client)) (c mod (50001 / port_step st (protocol client)))
       >? kNatPortMax) = false.
Proof.
  intros Hw Hp R Hl k. pose proof (step_bounds (protocol client)) as Hst.
  set (step := port_step st (protocol client)) in *. pose proof (slots_pos (protocol client)) as Hsl.
  fold step in Hsl. pose proof (Z.mod_pos_bound c _ Hsl) as Hc.
  assert (Hi : 0 <= w < step \/ step = 1).
  { unfold step, port_step. destruct (ret_by_rss _ _); [by right|by left]. }
  destruct (nat_port_spec w step (c mod (50001 / step)) Hst Hi Hc) as [Hr Hm].
  destruct (nat_port_range _ Hr) as [Hin H16]. split; [|split; [|split]].
  - pose proof R as [_ R2 R3 _]. split_and!; try done. apply bswap16_is.
  - exact Hin.
  - destruct (ret_by_rss st (protocol client)) eqn:Er; cbn [andb].
    + intros E. apply negb_false_iff, Z.eqb_eq in E. done.
    + intros _. unfold ret_owner. cbn [protocol dst_port k candidate]. rewrite Er.
      destruct (Z.eqb_spec (n_ st) 1); [lia|]. cbn [negb].
      assert (Es : step = n_ st) by (unfold step, port_step; by rewrite Er).
      unfold ntohs, htons. rewrite bswap16_invol by done. fold step. rewrite <- Es, Hm by lia.
      apply u16_id. pose proof (do_steering _ _ DP) as [? _ _ _]. zwrap. lia.
  - rewrite Z.gtb_ltb. apply Z.ltb_ge. lia.
Qed.

(** A port cursor after [j] probes. *)
Definition advance (j : nat) (c : Z) : Z := Nat.iter j (fun c => u32 (c + 1)) c.

(** Every one of [n] candidates from [c] on is taken or belongs to another
    worker. *)
Definition blocked s (client : FiveTuple) (r : RsState) (lip c : Z) (n : nat) : Prop :=
  forall j, (j < n)%nat ->
    let k := candidate (idx (p_w s)) client r lip (advance j c) in
    ret_by_rss st (protocol client) = true /\ ret_owner st k <> idx (p_w s)
    \/ key_in_use (tbl s) k = true.

(** A session was added at [i]. *)
Record created (i : Z) (p : Session) s s' : Prop := {
  cr_inv : inv s';
  cr_stable : stable s s';
  cr_m : p_m s' = p_m s;
  cr_snap : p_snap s' = p_snap s;
  cr_fresh : view (tbl s) !! i = None;
  cr_view : view (tbl s') = <[i := p]> (view (tbl s))
}.

Lemma created_from i p s s1 s' : quiet s s1 -> created i p s1 s' -> created i p s s'.
Proof.
  intros Q [C1 C2 C3 C4 C5 C6]. rewrite (qu_tbl _ _ Q) in C5, C6. split; [done|..|done|done].
  - eapply stable_trans; [by apply quiet_stable|done].
  - by rewrite C3, (qu_m _ _ Q).
  - by rewrite C4, (qu_snap _ _ Q).
Qed.

Lemma blocked_ext s s1 client r lip c n :
  quiet s s1 -> blocked s1 client r lip c n -> blocked s client r lip c n.
Proof. intros Q B j Hj. specialize (B j Hj). by rewrite (qu_idx _ _ Q), (qu_tbl _ _ Q) in B. Qed.

Lemma blocked_cons s client r lip c n :
  ret_by_rss st (protocol client) = true
    /\ ret_owner st (candidate (idx (p_w s)) client r lip c) <> idx (p_w s)
  \/ key_in_use (tbl s) (candidate (idx (p_w s)) client r lip c) = true ->
  blocked s client r lip (u32 (c + 1)) n -> blocked s client r lip c (S n).
Proof.
  intros H0 H j Hj. destruct j as [|j]; [exact H0|].
  specialize (H j ltac:(lia)). unfold advance in *. rewrite Nat.iter_succ_r. exact H.
Qed.

(** A fresh FULLNAT session. *)
Lemma fresh_nat_ok lips w client k now timeout :
  FiveTuple_wf client -> FiveTuple_wf k -> fwd_owner st client = w -> ret_owner st k = w ->
  dst_ip k ∈ lips -> in_nat_range (dst_port k) = true -> protocol k = protocol client ->
  sess_ok dp NAT lips w (pay (fresh_session client (Some k) now timeout)).
Proof.
  intros. split; try done; apply mac_zero_wf.
Qed.

Context (client : FiveTuple) (r : RsState) (timeout : Z).
Context (WF : FiveTuple_wf client) (R : rs_ok r).
Context (TO : exists x, timeout = state_timeout x (c_timeouts (dp_cfg dp))).

(** What a search for a port leaves. *)
Definition probe_post (li : nat) (lip : Z) (n : nat) s (x : Probe) s' : Prop :=
  match x with
  | Created i => exists c, let k := candidate (idx (p_w s)) client r lip c in
      created i (pay (fresh_session client (Some k) (now_tick (p_w s)) timeout)) s s'
      /\ ret_owner st k = idx (p_w s) /\ in_nat_range (dst_port k) = true
      /\ key_in_use (tbl s) k = false
  | TableFull => quiet s s'
  | Exhausted => quiet s s' /\ length (lip_cursor (p_w s')) = length (lip_cursor (p_w s))
      /\ lip_rr (p_w s') = lip_rr (p_w s)
      /\ blocked s client r lip (lip_cursor (p_w s) !!! li) n
  end.

Lemma probe_ports_wp n li lip s :
  inv s -> Snapshot.mode (p_snap s) = NAT -> lip ∈ local_ips (p_snap s) ->
  lookup (tbl s) client = None -> fwd_owner st client = idx (p_w s) ->
  (li < length (lip_cursor (p_w s)))%nat ->
  wp (probe_ports dp n li lip (50001 / port_step st (protocol client)) client r timeout)
     (probe_post li lip n s) s.
Proof.
  revert s. induction n as [|n IH]; intros s I Md Hlip Hnone Hown Hli.
  { apply wp_ret. split_and!; try done. intros j Hj. lia. }
  cbn [probe_ports]. cbv zeta. apply wp_bind, wp_gets. apply wp_bind, wp_modify. apply wp_bind, wp_gets.
  set (c := lip_cursor (p_w s) !!! li). cbn [p_w set_w idx set_lip_cursor].
  set (s1 := set_w _ s). set (w := idx (p_w s)). set (step := port_step st (protocol client)).
  assert (Hw : 0 <= w < n_ st) by apply I.
  assert (Hlu : is_u32 lip).
  { pose proof (sk_lips _ _ (wi_snap _ _ _ _ _ _ I)) as L. rewrite Forall_forall in L. by apply L. }
  destruct (candidate_ok w client r lip c Hw ltac:(apply WF) R Hlu) as (K1 & K2 & K3 & K4).
  fold step in K4. rewrite K4. change (mkFiveTuple (r_ip r) lip (r_port_be r)
    (htons (nat_port w step (c mod (50001 / step)))) (protocol client)) with (candidate w client r lip c).
  set (k := candidate w client r lip c) in *.
  assert (Q1 : quiet s s1) by done.
  assert (Next : ret_by_rss st (protocol client) = true /\ ret_owner st k <> w \/ key_in_use (tbl s) k = true ->
    wp (probe_ports dp n li lip (50001 / step) client r timeout) (probe_post li lip (S n) s) s1).
  { intros Hb. eapply wp_mono; [apply IH|].
    - exact I.
    - exact Md.
    - exact Hlip.
    - exact Hnone.
    - exact Hown.
    - cbn. by rewrite length_insert.
    - intros [i| |] s'; cbn [probe_post].
      + intros (c' & C & C2 & C3 & C4). exists c'. split_and!; try done.
        by eapply created_from.
      + intros. by eapply quiet_trans.
      + intros (H1 & H2 & H4 & H5). split_and!; try done.
        * by eapply quiet_trans.
        * rewrite H2. cbn. by rewrite length_insert.
        * apply blocked_cons; [exact Hb|]. eapply blocked_ext; [exact Q1|].
          cbn in H5. rewrite list_lookup_total_insert_eq in H5 by done. exact H5. }
  destruct (ret_by_rss st (protocol client) && negb (ret_owner st k =? w)) eqn:E1.
  { apply Next. apply andb_true_iff in E1 as [E1 E2]. apply negb_true_iff, Z.eqb_neq in E2. by left. }
  apply wp_bind, wp_gets. change (sessions (p_w s1)) with (tbl s).
  destruct (key_in_use (tbl s) k) eqn:E2; [apply Next; by right|].
  apply wp_bind, wp_gets. change (now_tick (p_w s1)) with (now_tick (p_w s)).
  assert (Hk : lookup (tbl s) k = None).
  { unfold key_in_use in E2. apply bool_decide_eq_false in E2. by apply eq_None_not_Some. }
  destruct TO as [x Hx]. pose proof (wi_timely _ _ _ _ _ _ I x) as [Ht Htn]. rewrite <- Hx in Ht, Htn.
  pose proof (create_view (tbl s) client (Some k) (now_tick (p_w s)) timeout (wi_table _ _ _ _ _ _ I)
    Hnone ltac:(by intros ? [= <-]) Ht) as Hc.
  pose proof (create_calm (tbl s) client (Some k) (now_tick (p_w s)) timeout (wi_table _ _ _ _ _ _ I)
    Hnone ltac:(by intros ? [= <-]) Ht Htn) as Hcalm.
  destruct (create (tbl s) client (Some k) (now_tick (p_w s)) timeout) as [[i|] t'].
  - destruct Hc as (T1 & T2 & T3 & T4). apply wp_bind, wp_modify. apply wp_bind, wp_modify. apply wp_ret.
    exists c. fold k. cbv zeta. split_and!; try done; [|by apply K3].
    split; [|done|done|done|exact T3|exact T4].
    apply (winv_table dp max_lcore (tbl s)); [exact I|done|done|].
    change (map_Forall (fun _ p => sess_ok dp (Snapshot.mode (p_snap s)) (local_ips (p_snap s)) w p) (view t')).
    rewrite T4. apply map_Forall_insert_2; [|apply I].
    rewrite Md. apply fresh_nat_ok; try done. by apply K3.
  - destruct Hc as (T1 & T2 & ->). apply wp_bind, wp_modify. apply wp_ret. done.
Qed.

(** The LIP tried in round [n]. *)
Definition lip_at s (lips : list IPv4Addr) (n : Z) : IPv4Addr :=
  lips !!! Z.to_nat ((lip_rr (p_w s) + n) mod len lips).

Definition lips_post (n : Z) (rounds probes : nat) (lips : list IPv4Addr) s (x : Stat + Z) s' : Prop :=
  match x with
  | inr i => exists lip c, let k := candidate (idx (p_w s)) client r lip c in
      lip ∈ local_ips (p_snap s)
      /\ created i (pay (fresh_session client (Some k) (now_tick (p_w s)) timeout)) s s'
      /\ ret_owner st k = idx (p_w s) /\ in_nat_range (dst_port k) = true
      /\ key_in_use (tbl s) k = false
  | inl f => quiet s s' /\ (f = ST_DROP_TABLE_FULL \/ f = ST_DROP_NO_PORT /\
      forall m, n <= m < n + Z.of_nat rounds ->
        exists c, blocked s client r (lip_at s lips m) c probes)
  end.

Lemma probe_lips_wp rounds n probes lips s :
  inv s -> Snapshot.mode (p_snap s) = NAT -> lips = local_ips (p_snap s) -> lips <> [] ->
  lookup (tbl s) client = None -> fwd_owner st client = idx (p_w s) ->
  (length lips <= length (lip_cursor (p_w s)))%nat ->
  wp (probe_lips dp rounds n lips probes (50001 / port_step st (protocol client)) client r timeout)
     (lips_post n rounds probes lips s) s.
Proof.
  revert n s. induction rounds as [|rounds IH]; intros n s I Md El Hne Hnone Hown Hli.
  { apply wp_ret. split; [done|]. right. split; [done|]. intros; lia. }
  cbn [probe_lips]. apply wp_bind, wp_gets. cbv zeta.
  assert (Hlen : 0 < len lips) by (destruct lips; [done|]; rewrite len_cons; pose proof (len_nonneg lips); lia).
  pose proof (Z.mod_pos_bound (lip_rr (p_w s) + n) (len lips) Hlen) as Hm.
  set (li := Z.to_nat ((lip_rr (p_w s) + n) mod len lips)).
  assert (Hl : (li < length lips)%nat) by (unfold li, len in *; lia).
  assert (Hin : lips !!! li ∈ local_ips (p_snap s)) by (rewrite <- El; by apply list_elem_of_lookup_total_2).
  apply wp_bind. eapply wp_mono; [apply (probe_ports_wp probes li (lips !!! li)); try done; lia|].
  intros [i| |] s'; cbn [probe_post].
  - intros (c & C1 & C2 & C3 & C4). apply wp_ret. exists (lips !!! li), c. done.
  - intros Q. apply wp_ret. split; [done|by left].
  - intros (Q & L & RR & B). eapply wp_mono; [apply (IH (n + 1) s')|].
    + by eapply quiet_inv.
    + by rewrite (qu_snap _ _ Q).
    + by rewrite (qu_snap _ _ Q).
    + done.
    + by rewrite (qu_tbl _ _ Q).
    + by rewrite (qu_idx _ _ Q).
    + lia.
    + intros [f|i] s2; cbn [lips_post].
      * intros [Q2 H]. split; [by eapply quiet_trans|]. destruct H as [->|[-> H]]; [by left|]. right.
        split; [done|]. intros m Hm'. destruct (decide (m = n)) as [->|].
        -- exists (lip_cursor (p_w s) !!! li). exact B.
        -- destruct (H m ltac:(lia)) as [c Hc]. exists c. unfold lip_at in *. rewrite RR in Hc.
           by eapply blocked_ext.
      * rewrite (qu_idx _ _ Q), (qu_now _ _ Q), (qu_snap _ _ Q), (qu_tbl _ _ Q).
        intros (lip & c & H1 & H2 & H3). exists lip, c. split; [done|]. split; [|done].
        by eapply created_from.
Qed.

(** [create_fullnat]: the session comes back to this worker, or every
    candidate of every local address was unusable, or the table is full. *)
Lemma create_fullnat_wp s :
  inv s -> Snapshot.mode (p_snap s) = NAT ->
  lookup (tbl s) client = None -> fwd_owner st client = idx (p_w s) ->
  wp (create_fullnat dp client r timeout) (fun x s' =>
    lips_post 0 (length (local_ips (p_snap s))) (Z.to_nat (nat_probes st (protocol client)))
      (local_ips (p_snap s)) s x s') s.
Proof.
  intros I Md Hnone Hown. unfold create_fullnat. apply wp_bind, wp_gets. cbv zeta.
  case_decide as E.
  { apply wp_ret. split; [done|]. right. split; [done|]. rewrite E. intros; simpl in *; lia. }
  apply wp_bind, wp_modify. pose proof (step_bounds (protocol client)).
  pose proof (slots_pos (protocol client)).
  change (kNatPortMax - kNatPortMin + 1) with 50001.
  rewrite (proj2 (Z.eqb_neq (port_step st (protocol client)) 0)) by lia.
  rewrite (proj2 (Z.eqb_neq (50001 / port_step st (protocol client)) 0)) by lia.
  set (s1 := set_w _ s). assert (Q1 : quiet s s1) by done.
  eapply wp_mono; [apply (probe_lips_wp _ 0 _ (local_ips (p_snap s)) s1); try done|].
  - cbn. unfold grow_cursors. destruct (_ <? _)%nat eqn:El.
    + rewrite length_app, length_replicate. apply Nat.ltb_lt in El. lia.
    + apply Nat.ltb_ge in El. done.
  - intros [f|i] s'; cbn [lips_post].
    + intros [Q HB]. split; [by eapply quiet_trans|]. exact HB.
    + intros (lip & c & H1 & H2 & H3). exists lip, c. split; [done|]. split; [|done].
      by eapply created_from.
Qed.

End New.

(** ** [new_session] *)

Lemma neutral_flags (g : Z -> Z) :
  (forall v, has_flag (g v) SF_FULLNAT = has_flag v SF_FULLNAT) ->
  neutral (fun s => set_flags (g (flags s)) s).
Proof.
  intros H. split; intros; try reflexivity. unfold entry_of, server_of. cbn. by rewrite H.
Qed.

Lemma toa_set_nat v : has_flag (Z.lor v SF_TOA_PENDING) SF_FULLNAT = has_flag v SF_FULLNAT.
Proof. unfold has_flag, SF_TOA_PENDING, SF_FULLNAT. rewrite Z.land_lor_distr_l. by rewrite Z.lor_0_r. Qed.

Lemma toa_clear_nat v : has_flag (Z.land v (255 - SF_TOA_PENDING)) SF_FULLNAT = has_flag v SF_FULLNAT.
Proof. unfold has_flag, SF_TOA_PENDING, SF_FULLNAT. by rewrite <- Z.land_assoc. Qed.

Section NewSession.
Context `{RH : RteHash FiveTuple} `{RL : !RteHashLaws FiveTuple RH} `{NH : RteHash Z}.
Context `{HF : RteHashFns} `{HL : !RteHashFnsLaws HF} `{MB : RteMbuf}.
Context (dp : Dataplane (NH := NH)) (max_lcore : nat) (DP : dp_ok dp max_lcore).
Abbreviation inv := (inv dp max_lcore).
Implicit Types s : PState (RH := RH).

(** Session [p] stands at [i], next to the sessions of [s0]. *)
Record opened (i : Z) (p : Session) s0 s : Prop := {
  op_inv : inv s;
  op_stable : stable s0 s;
  op_m : p_m s = p_m s0;
  op_fresh : view (tbl s0) !! i = None;
  op_view : view (tbl s) = <[i := p]> (view (tbl s0))
}.

Lemma opened_at i p s0 s : opened i p s0 s -> view (tbl s) !! i = Some p.
Proof. intros O. rewrite (op_view _ _ _ _ O). apply lookup_insert_eq. Qed.

Lemma opened_quiet i p s0 s s' : opened i p s0 s -> quiet s s' -> opened i p s0 s'.
Proof.
  intros [O1 O2 O3 O4 O5] Q. split; [by eapply quiet_inv|..|done|].
  - eapply stable_trans; [done|by apply quiet_stable].
  - by rewrite (qu_m _ _ Q).
  - by rewrite (qu_tbl _ _ Q).
Qed.

Lemma opened_upd_wp i p f Q s0 s :
  opened i p s0 s -> neutral f ->
  sess_ok dp (Snapshot.mode (p_snap s)) (local_ips (p_snap s)) (idx (p_w s)) (f p) ->
  (forall s', opened i (f p) s0 s' -> p_snap s' = p_snap s -> idx (p_w s') = idx (p_w s) -> Q tt s') ->
  wp (sess_upd i f) Q s.
Proof.
  intros O N S H. pose proof O as [O1 O2 O3 O4 O5].
  destruct (winv_upd dp max_lcore _ _ _ _ i p f O1 (opened_at _ _ _ _ O) N S) as [I' V].
  apply wp_modify, H; [|done|done]. split; [exact I'| |exact O3|done|].
  { eapply stable_trans; [exact O2|]. split_and!; try done.
    exact (upd_calm _ _ i f p (wi_table _ _ _ _ _ _ O1) (opened_at _ _ _ _ O) N). }
  change (view (upd (tbl s) i f) = <[i:=f p]> (view (tbl s0))).
  unfold tbl in *. by rewrite V, O5, insert_insert_eq.
Qed.

Definition new_post (tuple : FiveTuple) s (x : Stat + Z) s' : Prop :=
  match x with
  | inr i => exists p r, opened i p s s' /\ client p = tuple
      /\ rs (p_snap s') (rs_id p) = Some r /\ usable r = true /\ rs_ok r
  | inl f => inv s' /\ stable s s' /\ p_m s' = p_m s /\ tbl s' = tbl s /\ f ∈ drop_range
  end.

(** The DR case: a session without return key. *)
Lemma create_dr_wp tuple timeout s :
  inv s -> Snapshot.mode (p_snap s) = DR -> FiveTuple_wf tuple ->
  (exists x, timeout = state_timeout x (c_timeouts (dp_cfg dp))) ->
  lookup (tbl s) tuple = None -> fwd_owner (dp_steering dp) tuple = idx (p_w s) ->
  wp (t ← table; now ← gets (fun s => now_tick (p_w s));
      let '(o, t) := create t tuple None now timeout in
      _ ← set_table t;
      mret (match o with Some i => inr i | None => inl ST_DROP_TABLE_FULL end) : ST PState (Stat + Z))
    (fun x s' => match x with
     | inr i => exists p, opened i p s s' /\ client p = tuple /\ p_snap s' = p_snap s
     | inl f => quiet s s' /\ f = ST_DROP_TABLE_FULL end) s.
Proof.
  intros I Md WF [x Hx] Hn Ho. do 2 apply wp_bind, wp_gets.
  pose proof (wi_timely _ _ _ _ _ _ I x) as [Ht Htn]. rewrite <- Hx in Ht, Htn.
  pose proof (create_view (tbl s) tuple None (now_tick (p_w s)) timeout (wi_table _ _ _ _ _ _ I)
    Hn ltac:(done) Ht) as Hc.
  pose proof (create_calm (tbl s) tuple None (now_tick (p_w s)) timeout (wi_table _ _ _ _ _ _ I)
    Hn ltac:(done) Ht Htn) as Hcalm. unfold tbl in Hc at 1. unfold tbl in Hcalm.
  destruct (create (sessions (p_w s)) tuple None (now_tick (p_w s)) timeout) as [[i|] t'].
  - destruct Hc as (T1 & T2 & T3 & T4). apply wp_bind, wp_modify, wp_ret. exists (pay (fresh_session tuple None (now_tick (p_w s)) timeout)).
    split; [|done]. split; [|done|done|exact T3|exact T4].
    apply (winv_table dp max_lcore (tbl s)); [exact I|done|done|].
    change (map_Forall (fun _ p => sess_ok dp (Snapshot.mode (p_snap s)) (local_ips (p_snap s)) (idx (p_w s)) p) (view t')).
    rewrite T4. apply map_Forall_insert_2; [|apply I]. rewrite Md.
    split; try done; apply mac_zero_wf.
  - destruct Hc as (T1 & T2 & ->). apply wp_bind, wp_modify, wp_ret. done.
Qed.

(** Filling in a session that was just created. *)
Lemma fill_session_wp i p svc r (md : ForwardMode) (tcp toa hint : bool) tuple s0 s :
  opened i p s0 s -> client p = tuple -> rs_ok r -> rs (p_snap s) (r_id r) = Some r -> usable r = true ->
  frame (mdata (p_m s)) -> 14 <= data_len (p_m s) ->
  wp (_ ← sess_upd i (fun p =>
            set_state (if tcp then NONE else UDP) (set_svc_idx (s_idx svc) (set_rs_id (r_id r) p)));
      mac ← onf (Eth.get_src_mac 0);
      _ ← sess_upd i (set_cli_src_mac mac);
      _ ← when toa (sess_upd i (fun p => set_flags (Z.lor (Session.flags p) SF_TOA_PENDING) p));
      _ ← stat ST_SESS_NEW;
      _ ← rs_count (r_id r) (fun c =>
            mkRsCounters (stat_add (conns c) 1) (rc_pkts_in c) (rc_bytes_in c) (rc_pkts_out c)
              (rc_bytes_out c));
      _ ← when hint
            (p ← sess i;
             post_master_event (neigh_event EV_NEIGH_HINT (src_ip tuple) (cli_src_mac p)));
      mret (inr i) : ST PState (Stat + Z)) (new_post tuple s0) s.
Proof.
  intros O Hc R Hr Hu Hf Hl. unfold data_len in Hl.
  pose proof (winv_sess _ _ _ _ _ _ _ _ (op_inv _ _ _ _ O) (opened_at _ _ _ _ O)) as S.
  apply wp_bind. eapply opened_upd_wp; [exact O|neutral| |].
  { destruct S as [S1 S2 S3 S4 S5 S6 S7 S8 S9]. split; try done. apply R. }
  intros s1 O1 Es1 Ei1. apply wp_bind, onf_read_wp.
  assert (Em : mdata (p_m s1) = mdata (p_m s)) by (by rewrite (op_m _ _ _ _ O1), <- (op_m _ _ _ _ O)).
  apply wp_rd_bytes; [unfold Eth.src_mac; lia..|rewrite Em; unfold Eth.src_mac; lia|]. split; [done|].
  set (mac := slice _ _ _).
  assert (Hmac : mac_wf mac).
  { unfold mac. rewrite Em. split; [apply len_slice; unfold Eth.src_mac; lia|by apply frame_slice]. }
  pose proof (winv_sess _ _ _ _ _ _ _ _ (op_inv _ _ _ _ O1) (opened_at _ _ _ _ O1)) as S1.
  apply wp_bind. eapply opened_upd_wp; [exact O1|neutral| |].
  { destruct S1 as [X1 X2 X3 X4 X5 X6 X7 X8 X9]. by split. }
  intros s2 O2 Es2 Ei2. apply wp_bind.
  assert (K : forall s3 q, opened i q s0 s3 -> client q = tuple -> rs_id q = r_id r -> p_snap s3 = p_snap s ->
    wp (_ ← stat ST_SESS_NEW;
      _ ← rs_count (r_id r) (fun c =>
            mkRsCounters (stat_add (conns c) 1) (rc_pkts_in c) (rc_bytes_in c) (rc_pkts_out c)
              (rc_bytes_out c));
      _ ← when hint
            (p ← sess i;
             post_master_event (neigh_event EV_NEIGH_HINT (src_ip tuple) (cli_src_mac p)));
      mret (inr i) : ST PState (Stat + Z)) (new_post tuple s0) s3).
  { intros s3 q O3 Hq1 Hq2 Es3. apply wp_bind, stat_wp. intros s4 Q4.
    apply wp_bind, rs_count_wp; [apply R|]. intros s5 Q5. apply wp_bind.
    apply when_quiet_wp; [intros; apply wp_bind, wp_gets; by apply post_wp|]. intros s6 Q6. apply wp_ret.
    assert (Q : quiet s3 s6) by (eapply quiet_trans; [exact Q4|by eapply quiet_trans]).
    exists q, r. split; [by eapply opened_quiet|].
    rewrite (qu_snap _ _ Q), Es3, Hq2. done. }
  pose proof (winv_sess _ _ _ _ _ _ _ _ (op_inv _ _ _ _ O2) (opened_at _ _ _ _ O2)) as S2.
  apply wp_when; intros _.
  - eapply opened_upd_wp; [exact O2|apply (neutral_flags (fun v => Z.lor v SF_TOA_PENDING)), toa_set_nat| |].
    { eapply sess_ok_ext; [exact S2|done|done|done|apply S2|apply S2|done|apply toa_set_nat]. }
    intros s3 O3 Es3 _. eapply K; [exact O3|done|done|]. congruence.
  - eapply K; [exact O2|done|done|]. congruence.
Qed.

Lemma new_session_wp svc tuple s :
  inv s -> services (p_snap s) !! Z.to_nat (s_idx svc) = Some svc ->
  FiveTuple_wf tuple -> lookup (tbl s) tuple = None ->
  fwd_owner (dp_steering dp) tuple = idx (p_w s) ->
  frame (mdata (p_m s)) -> 14 <= data_len (p_m s) ->
  wp (new_session dp svc tuple) (new_post tuple s) s.
Proof.
  intros I Hs WF Hn Ho Hf Hl. unfold new_session. apply wp_bind, wp_gets.
  destruct (Scheduler.pick (s_sched svc) tuple (idx (p_w s))) as [pick sc] eqn:Ep.
  destruct (pick_usable max_lcore (p_snap s) svc tuple _ pick sc (wi_snap _ _ _ _ _ _ I)
    ltac:(by eapply list_elem_of_lookup_2) (do_lcore _ _ DP) Ep) as [[ty B] Hpick].
  apply wp_bind, wp_modify. set (s1 := set_snap _ s).
  assert (I1 : inv s1).
  { destruct I as [I1 I2 I3 I4 I5]. split; try done. by eapply set_sched_ok. }
  assert (St : stable s s1) by done.
  destruct Hpick as [->|(Hp0 & r & Hr & Hrs & Hu)].
  { cbn [Z.ltb Z.compare]. apply wp_ret. split_and!; try done. vm_compute. set_solver. }
  rewrite (proj2 (Z.ltb_ge pick 0)) by lia. apply wp_bind, (wp_deref _ r _ _ Hr). cbv zeta.
  assert (R : rs_ok r) by (by eapply (sk_rs _ _ (wi_snap _ _ _ _ _ _ I))).
  set (timeout := if protocol tuple =? 6 then tcp_syn _ else _).
  assert (TO : exists x, timeout = state_timeout x (c_timeouts (dp_cfg dp))).
  { unfold timeout. destruct (_ =? 6); [by exists NONE|by exists UDP]. }
  apply wp_bind, wp_gets. apply wp_bind. destruct (Snapshot.mode (p_snap s1)) eqn:Em.
  - eapply wp_mono; [apply (create_fullnat_wp dp max_lcore DP tuple r timeout WF R TO s1 I1 Em Hn Ho)|].
    intros [f|i] s2; cbn [lips_post].
    + intros [Q Hfail]. apply wp_ret. split_and!.
      * by eapply quiet_inv.
      * eapply stable_trans; [exact St|by apply quiet_stable].
      * by rewrite (qu_m _ _ Q).
      * by rewrite (qu_tbl _ _ Q).
      * destruct Hfail as [->|[-> _]]; vm_compute; set_solver.
    + intros (lip & c & _ & [C1 C2 C3 C4 C5 C6] & _).
      assert (O : exists p, opened i p s s2 /\ client p = tuple).
      { eexists. split; [split; [done|by eapply stable_trans|by rewrite C3|done|exact C6]|]. done. }
      destruct O as (p & O & Hc). apply (fill_session_wp i p svc r NAT); rewrite ?C4, ?C3; done.
  - eapply wp_mono; [apply (create_dr_wp tuple timeout s1 I1 Em WF TO Hn Ho)|].
    intros [f|i] s2.
    + intros [Q ->]. apply wp_ret. split_and!.
      * by eapply quiet_inv.
      * eapply stable_trans; [exact St|by apply quiet_stable].
      * by rewrite (qu_m _ _ Q).
      * by rewrite (qu_tbl _ _ Q).
      * vm_compute; set_solver.
    + intros (p & [C1 C2 C3 C5 C6] & Hc & Es). apply (fill_session_wp i p svc r DR); rewrite ?Es, ?C3; try done.
Qed.

End NewSession.
End ProcessorNew.
