(* ===== verification/ProcessorHandlers.v ===== *)
(** The handlers of the packet path: they return on every packet, keep the
    worker's invariant, and forward what they promise. *)
From S2P Require Import Prelude Types TcpState Mem Headers Dpdk Session SessionInv SessionSpec SessionThms SessionView Checksum ChecksumThms Parser ParserThms Forward ForwardThms ForwardProps Steering Scheduler SchedulerProps Config Snapshot SnapshotThms Neigh NeighProps Context Processor ProcessorInv ProcessorThms ProcessorNew.
Import Tcp Session SessionSpec SessionView Checksum ChecksumThms Parser ParserThms Forward ForwardThms ForwardProps Steering Scheduler SchedulerProps Config Snapshot SnapshotThms Context Processor ProcessorInv ProcessorThms ProcessorNew.

Module ProcessorHandlers.

(** Membership of a drop reason in [drop_range]. *)
Ltac in_drop := unfold drop_range; rewrite !elem_of_cons; auto 20.

(** ** Frames *)

Definition l4proto (p : Z) : Prop := p = IPProtocol_TCP \/ p = IPProtocol_UDP.

(** The addresses and ports a frame carries. *)
Definition ftuple (bs : list Z) : FiveTuple :=
  mkFiveTuple (get32 26 bs) (get32 30 bs) (get16 (f_l4 bs) bs) (get16 (f_l4 bs + 2) bs) (f_proto bs).

Lemma reports_tuple bs meta : reports bs meta -> l4proto (f_proto bs) -> to_five_tuple meta = ftuple bs.
Proof.
  intros R Hp. destruct (rp_ports _ _ R Hp) as [E1 E2]. unfold to_five_tuple, ftuple.
  by rewrite (rp_sip _ _ R), (rp_dip _ _ R), (rp_proto _ _ R), E1, E2.
Qed.

Lemma l4_room bs : ip_wf bs -> l4_wf bs -> l4proto (f_proto bs) -> 34 <= f_l4 bs /\ f_l4 bs + 8 <= len bs.
Proof.
  intros (H1 & _ & H3 & H4) (T & U & _) Hp. unfold f_l4 at 1. split; [lia|].
  destruct Hp as [Hp|Hp]; [specialize (T Hp)|specialize (U Hp)]; lia.
Qed.

Lemma ftuple_wf bs : frame bs -> ip_wf bs -> l4_wf bs -> l4proto (f_proto bs) -> FiveTuple_wf (ftuple bs).
Proof.
  intros Hf Hi Hl Hp. destruct (l4_room bs Hi Hl Hp). pose proof Hi as (? & _).
  split_and!; cbn; [apply get32_is|apply get32_is|apply get16_is|apply get16_is|apply get8_is]; done || lia.
Qed.

(** What a successful rewrite sends. *)
Record forwarded (rw : NatRewrite) (bs b : list Z) : Prop := {
  fo_frame : frame b;
  fo_tuple : ftuple b = mkFiveTuple (rw_src_ip rw) (rw_dst_ip rw) (rw_src_port rw) (rw_dst_port rw)
                          (f_proto bs);
  fo_dmac : slice 0 6 b = rw_dst_mac rw;
  fo_smac : slice 6 6 b = rw_src_mac rw;
  fo_ttl : get8 22 b = get8 22 bs - 1;
  fo_ip_ok : sum_ok (wsum (slice 14 (f_ihl b) b))
}.

Lemma translated_forwarded bs b1 b rw cf :
  translated (f_l4 bs) cf rw b1 b -> f_ihl b1 = f_ihl bs -> f_proto b1 = f_proto bs ->
  get8 22 b1 = get8 22 bs -> 1 < get8 22 bs < 256 -> forwarded rw bs b.
Proof.
  intros T Ei Ep Et Ht. destruct (translated_lengths _ _ _ _ _ T) as [El _].
  assert (E4 : f_l4 b = f_l4 bs) by (unfold f_l4; by rewrite El, Ei).
  split; try apply T.
  - unfold ftuple. rewrite E4, (tr_src _ _ _ _ _ T), (tr_dst _ _ _ _ _ T), (tr_sp _ _ _ _ _ T),
      (tr_dp _ _ _ _ _ T). f_equal. unfold f_proto in *. rewrite <- Ep. apply T.
  - rewrite (tr_ttl _ _ _ _ _ T), Et. apply u8_id. zwrap. lia.
Qed.

Section Handlers.
Context `{RH : RteHash FiveTuple} `{RL : !RteHashLaws FiveTuple RH} `{NH : RteHash Z}.
Context `{HF : RteHashFns} `{HL : !RteHashFnsLaws HF} `{MB : RteMbuf} `{ML : !RteMbufLaws MB}.
Context (hw_cksum : bool) (dp : Dataplane (NH := NH)) (max_lcore : nat) (DP : dp_ok dp max_lcore).
Abbreviation inv := (inv dp max_lcore).
Abbreviation st := (dp_steering dp).
Implicit Types s : PState (RH := RH).

Lemma nat_fwd_wp meta rw opt Q m :
  parsed (mdata m) meta -> l4proto (f_proto (mdata m)) -> rw_wf rw -> opt_mtu opt <= 65535 ->
  (get8 22 (mdata m) <= 1 -> Q (TTL_EXCEEDED, meta, outcome0) m) ->
  (1 < get8 22 (mdata m) -> forall meta' out m', forwarded rw (mdata m) (mdata m') ->
     Q (RW_OK, meta', out) m') ->
  wp (nat_rewrite hw_cksum meta rw opt) Q m.
Proof.
  intros [Hf Hmax Hwf Hl4 R] Hp W Hm HT HQ. pose proof Hwf as (Hl & _).
  assert (H22 : is_u8 (get8 22 (mdata m))) by (apply get8_is; done || lia). unfold is_u8 in H22.
  rewrite <- (set_mdata_id m) at 1. destruct Hp as [Hp|Hp].
  - apply nat_rewrite_tcp_wp; try done.
    + by rewrite set_mdata_id.
    + intros Hgt meta' out m' (full & b1 & _ & Rd & T & _). apply HQ; [done|].
      pose proof (rd_head _ _ _ _ _ Rd) as Hh. pose proof (rd_mid _ _ _ _ _ Rd) as Hmid.
      eapply translated_forwarded; [exact T|..]; try lia.
      * unfold f_ihl. f_equal. apply (sub_get8 0 16 14 _ _ Hh); lia.
      * apply (sub_get8 18 16 5 _ _ Hmid); lia.
      * apply (sub_get8 18 16 4 _ _ Hmid); lia.
  - apply nat_rewrite_udp_wp; try done.
    + by rewrite set_mdata_id.
    + intros Hgt m' [T _]. apply HQ; [done|]. eapply translated_forwarded; [exact T|..]; done || lia.
Qed.

(** ** Client -> VIP *)

Definition in_post (tuple : FiveTuple) (redirected : bool) s (r : Result) s' : Prop :=
  inv s' /\ stable s s' /\ res_ok dp redirected (idx (p_w s)) r /\
  (r = send -> Snapshot.mode (p_snap s) = NAT -> exists i p rr,
     view (tbl s') !! i = Some p /\ client p = tuple
     /\ ftuple (mdata (p_m s')) = reverse (server p)
     /\ rs (p_snap s') (rs_id p) = Some rr /\ usable rr = true).

Lemma in_post_trans tuple redirected s s1 r s' :
  stable s s1 -> in_post tuple redirected s1 r s' -> in_post tuple redirected s r s'.
Proof.
  intros S (H1 & H2 & H3 & H4). pose proof S as (E1 & E2 & E3 & E4 & E5). rewrite E1, E3 in *.
  split; [done|]. split; [by eapply stable_trans|]. done.
Qed.

Lemma drop_in_post tuple redirected s s' f :
  inv s' -> stable s s' -> f ∈ drop_range -> in_post tuple redirected s (drop f) s'.
Proof. intros. split_and!; try done. Qed.

Lemma close_new_wp (b : bool) i f tuple redirected s0 s :
  inv s -> is_Some (view (tbl s) !! i) -> stable s0 s -> f ∈ drop_range ->
  wp (_ ← when b (close_session i); mret (drop f)) (in_post tuple redirected s0) s.
Proof.
  intros I Hi S Hf. apply wp_bind, wp_when; intros _.
  - eapply close_session_wp; [done|done|]. intros s' [C1 C2 _ _ _]. apply wp_ret, drop_in_post; [done|..|done].
    by eapply stable_trans.
  - by apply wp_ret, drop_in_post.
Qed.

Lemma inbound_forward_wp i r meta is_new tcp redirected p s :
  inv s -> view (tbl s) !! i = Some p -> rs (p_snap s) (rs_id p) = Some r -> usable r = true -> rs_ok r ->
  parsed (mdata (p_m s)) meta -> l4proto (f_proto (mdata (p_m s))) ->
  client p = ftuple (mdata (p_m s)) ->
  wp (inbound_forward hw_cksum dp i r meta is_new tcp)
     (in_post (ftuple (mdata (p_m s))) redirected s) s.
Proof.
  intros I Hi Hr Hu R P Hp Hc. unfold inbound_forward. apply wp_bind.
  eapply update_state_wp; [done|eauto|]. intros s1 M1.
  apply wp_bind, wp_gets. apply wp_bind.
  eapply sess_upd_plain_wp; [apply M1|by eapply moved_live|neutral|done|]. intros s2 M2.
  pose proof (moved_trans _ _ _ _ _ _ M1 M2) as M12.
  apply wp_bind. eapply resolve_rs_mac_wp; [apply M2|by eapply moved_live|done|]. intros o s3 M3 Ho.
  pose proof (moved_trans _ _ _ _ _ _ M12 M3) as M. clear M1 M2 M12 M3.
  pose proof M as [I3 S3 E3 N3 (p0 & q & V0 & V3 & C)]. assert (p0 = p) as -> by congruence.
  assert (Hq : view (tbl s3) !! i = Some q) by (rewrite V3; apply lookup_insert_eq).
  destruct o as [mac|]; [|apply close_new_wp; [done|eauto|done|in_drop]].
  specialize (Ho mac eq_refl). apply wp_bind, wp_gets.
  pose proof (winv_sess _ _ _ _ _ _ _ _ I3 Hq) as Sq. pose proof (do_mac _ _ DP) as [Lm Fm].
  destruct (Snapshot.mode (p_snap s3)) eqn:Em.
  - apply wp_bind, wp_gets. cbv zeta. pose proof (sess_at _ _ _ _ _ I3 Hq) as Hat. unfold tbl in Hat.
    set (x := at_ (sessions (p_w s3)) i) in *.
    assert (X : client x = client q /\ server x = server q) by (by rewrite <- Hat).
    destruct X as [X1 X2]. rewrite X1, X2. pose proof (so_server _ _ _ _ _ Sq) as (W1 & W2 & W3 & W4 & _).
    destruct Ho as [Lo Fo]. apply wp_bind, onm_wp.
    apply nat_fwd_wp; rewrite ?E3; try done; [apply DP|..].
    + intros _. cbv beta iota. apply close_new_wp; [exact I3| |exact S3|in_drop]. change (is_Some (view (tbl s3) !! i)). eauto.
    + intros Hgt meta' out m' F. cbv beta iota.
      apply wp_bind, when_quiet_wp; [intros; by apply stat_wp|]. intros s4 Q4.
      apply wp_bind, when_quiet_wp; [intros; by apply stat_wp|]. intros s5 Q5.
      apply wp_bind, when_quiet_wp; [intros; by apply stat_wp|]. intros s6 Q6.
      pose proof (quiet_trans _ _ _ Q4 (quiet_trans _ _ _ Q5 Q6)) as Q.
      assert (I6 : inv s6) by (eapply quiet_inv; [exact Q|exact I3]).
      assert (V6 : view (tbl s6) !! i = Some q) by (rewrite (qu_tbl _ _ Q); exact Hq).
      apply wp_bind. eapply count_fwd_in_wp; [exact I6|eauto|]. intros s7 Q7. apply wp_ret.
      split; [by eapply quiet_inv|]. split.
      { eapply stable_trans; [exact S3|]. eapply stable_trans; [|by apply quiet_stable].
        eapply stable_trans; [|by apply quiet_stable]. done. }
      split; [done|]. intros _ _. exists i, q, r.
      rewrite (qu_tbl _ _ Q7), (qu_snap _ _ Q7), (qu_snap _ _ Q), (qu_m _ _ Q7), (qu_m _ _ Q).
      cbn [set_m p_m p_snap]. rewrite N3, (sc_client _ _ C), (sc_rs _ _ C).
      split; [done|]. split; [done|]. split; [|done].
      rewrite (fo_tuple _ _ _ F). cbn. destruct (so_nat _ _ _ _ _ Sq eq_refl) as (_ & _ & _ & _ & Hpr).
      rewrite (sc_client _ _ C), Hc in Hpr. unfold reverse. by rewrite Hpr.
  - apply wp_bind, onm_wp. unfold dr_rewrite. pose proof P as [Pf _ (Pl & _) _ _].
    apply wp_bind, wp_zoom. rewrite E3. unfold Eth.set_dst_mac, Eth.set_src_mac, Eth.dst_mac, Eth.src_mac.
    destruct Ho as [Lo Fo]. apply wp_bind, wp_wr_bytes; [lia|lia|].
    apply wp_wr_bytes; [lia|rewrite len_put by lia; lia|]. apply wp_modify.
    apply wp_bind. eapply count_fwd_in_wp; [exact I3|exists q; exact Hq|]. intros s4 Q4. apply wp_ret.
    split; [eapply quiet_inv; [exact Q4|exact I3]|]. split.
    { eapply stable_trans; [exact S3|]. eapply stable_trans; [|by apply quiet_stable]. done. }
    split; [done|]. intros _ Hm. destruct S3 as (_ & _ & E & _). congruence.
Qed.

(** A key that belongs to no return key of a session of this worker. *)
Definition not_return (tuple : FiveTuple) s : Prop :=
  Snapshot.mode (p_snap s) = NAT -> dst_ip tuple ∈ local_ips (p_snap s) ->
  in_nat_range (dst_port tuple) = false.

Lemma lookup_client tuple s i :
  inv s -> not_return tuple s -> lookup (tbl s) tuple = Some i ->
  exists p, view (tbl s) !! i = Some p /\ client p = tuple.
Proof.
  intros I N Hl. apply lookup_view in Hl as (p & Hp & Hk); [|apply I]. exists p. split; [done|].
  destruct Hk as [Hk|Hk]; [done|]. pose proof (winv_sess _ _ _ _ _ _ _ _ I Hp) as S.
  unfold server_of in Hk. destruct (Snapshot.mode (p_snap s)) eqn:Em.
  - destruct (so_nat _ _ _ _ _ S eq_refl) as (Hf & _ & Hd & Hn & _). rewrite Hf in Hk. injection Hk as Hk.
    rewrite Hk in Hd, Hn. unfold not_return in N. rewrite (N Em Hd) in Hn. done.
  - rewrite (so_dr _ _ _ _ _ S eq_refl) in Hk. done.
Qed.

Lemma lookup_deleted tuple i s s' :
  inv s -> lookup (tbl s) tuple = Some i -> inv s' -> view (tbl s') = delete i (view (tbl s)) ->
  lookup (tbl s') tuple = None.
Proof.
  intros I Hl I' V. destruct (lookup (tbl s') tuple) as [j|] eqn:E; [|done].
  apply lookup_view in E as (p & Hp & Hk); [|apply I']. rewrite V in Hp.
  apply lookup_delete_Some in Hp as [Hne Hp].
  assert (lookup (tbl s) tuple = Some j) by (apply lookup_view; [apply I|eauto]). congruence.
Qed.

Definition lookup_post (tuple : FiveTuple) (redirected : bool) s (x : Result + option (Z * RsState)) s' : Prop :=
  match x with
  | inl r => in_post tuple redirected s r s'
  | inr None => inv s' /\ stable s s' /\ p_m s' = p_m s /\ p_snap s' = p_snap s
                /\ lookup (tbl s') tuple = None
  | inr (Some (i, r)) => s' = s /\ exists p, view (tbl s) !! i = Some p /\ client p = tuple
      /\ rs (p_snap s) (rs_id p) = Some r /\ usable r = true
  end.

Lemma inbound_lookup_wp tuple tcp syn redirected s :
  inv s -> not_return tuple s ->
  wp (inbound_lookup tuple tcp syn) (lookup_post tuple redirected s) s.
Proof.
  intros I N. unfold inbound_lookup. apply wp_bind, wp_gets. change (sessions (p_w s)) with (tbl s).
  destruct (lookup (tbl s) tuple) as [i|] eqn:El; [|by apply wp_ret].
  destruct (lookup_client tuple s i I N El) as (p & Hp & Hc).
  do 2 apply wp_bind, wp_gets. cbv zeta. pose proof (sess_at _ _ _ _ _ I Hp) as Hat. unfold tbl in Hat.
  set (x := at_ (sessions (p_w s)) i) in *. assert (Hx : rs_id x = rs_id p) by (by rewrite <- Hat).
  assert (K : forall y, match y with inl r => exists f, r = drop f /\ f ∈ drop_range | inr o => o = None end ->
    wp (_ ← close_session i; mret y) (lookup_post tuple redirected s) s).
  { intros y Hy. apply wp_bind. eapply close_session_wp; [done|eauto|]. intros s' [C1 C2 C3 C4 C5]. apply wp_ret.
    destruct y as [r|o].
    - destruct Hy as (f & -> & Hf). by apply drop_in_post.
    - subst o. split; [done|]. split; [done|]. split; [done|]. split; [done|]. exact (lookup_deleted tuple i s s' I El C1 C5). }
  rewrite Hx. destruct (rs (p_snap s) (rs_id p)) as [r|] eqn:Er.
  - destruct (negb (usable r) || _) eqn:Eu.
    + apply K. destruct (negb syn && tcp); [|done]. eexists. split; [done|].
      destruct (syn && tcp_state_reusable (state x)); in_drop.
    + apply wp_ret. apply orb_false_iff in Eu as [Eu _]. apply negb_false_iff in Eu. cbn.
      split; [done|]. eauto.
  - apply K. destruct (negb syn && tcp); [|done]. eexists. split; [done|]. in_drop.
Qed.

Lemma not_owner_ok redirected owner w :
  0 <= owner < n_ st -> owner <> w -> res_ok dp redirected w (not_owner redirected owner).
Proof. intros. unfold not_owner. destruct redirected; [|done].
  change (ST_DROP_OTHER ∈ drop_range). in_drop.
Qed.

Lemma handle_inbound_wp svc meta redirected s :
  inv s -> services (p_snap s) !! Z.to_nat (s_idx svc) = Some svc ->
  parsed (mdata (p_m s)) meta -> l4proto (f_proto (mdata (p_m s))) ->
  not_return (ftuple (mdata (p_m s))) s ->
  wp (handle_inbound hw_cksum dp svc meta redirected)
     (in_post (ftuple (mdata (p_m s))) redirected s) s.
Proof.
  intros I Hs P Hp N. pose proof P as [Pf Pm Pi Pl R]. unfold handle_inbound; cbv zeta.
  rewrite (reports_tuple _ _ R Hp). set (tuple := ftuple (mdata (p_m s))) in *.
  pose proof (ftuple_wf _ Pf Pi Pl Hp) as WF. fold tuple in WF.
  apply wp_bind, wp_gets. pose proof (fwd_owner_range st tuple (do_steering _ _ DP)) as Ho.
  destruct (Z.eqb_spec (fwd_owner st tuple) (idx (p_w s))) as [Eo|Eo]; cbn [negb].
  2:{ apply wp_ret. split; [done|]. split; [apply stable_refl|]. split; [by apply not_owner_ok|].
      unfold not_owner. by destruct redirected. }
  apply wp_bind, when_quiet_wp.
  { intros Q s0 HQ. unfold rss_check; cbv zeta. apply wp_bind, wp_gets. wp_if; [by apply stat_wp|].
    apply when_quiet_wp; [intros; by apply stat_wp|done]. }
  intros s1 Q1. assert (I1 : inv s1) by (by eapply quiet_inv).
  assert (St1 : stable s s1) by (by apply quiet_stable).
  apply wp_bind. eapply wp_mono; [apply (inbound_lookup_wp tuple _ _ redirected); [done|]|].
  { unfold not_return. rewrite (qu_snap _ _ Q1). exact N. }
  intros [r|[[i r]|]] s2; cbn [lookup_post].
  - intros H. apply wp_ret. by eapply in_post_trans.
  - intros (-> & p & Hv & Hc & Hr & Hu). eapply wp_mono; [|intros a s' H; eapply in_post_trans; [exact St1|exact H]].
    unfold tuple. rewrite <- (qu_m _ _ Q1). eapply inbound_forward_wp; rewrite ?(qu_m _ _ Q1); try done.
    by eapply (sk_rs _ _ (wi_snap _ _ _ _ _ _ I1)).
  - intros (I2 & S2 & E2 & N2 & L2). wp_if.
    { apply wp_ret, drop_in_post; [done|by eapply stable_trans|in_drop]. }
    assert (Em : p_m s2 = p_m s) by (by rewrite E2, (qu_m _ _ Q1)).
    pose proof (stable_trans _ _ _ St1 S2) as S12.
    apply wp_bind. eapply wp_mono; [apply (new_session_wp dp max_lcore DP svc tuple s2); try done|].
    + by rewrite N2, (qu_snap _ _ Q1).
    + rewrite Eo. symmetry. apply S12.
    + by rewrite Em.
    + rewrite Em. unfold data_len. destruct Pi. lia.
    + intros [f|i] s3; cbn [new_post].
      * intros (I3 & S3 & E3 & T3 & Hf). apply wp_ret, drop_in_post; [done|by eapply stable_trans|done].
      * intros (p & r & O & Hc & Hr & Hu & Rr). apply wp_bind, wp_gets.
        pose proof (opened_at _ _ _ _ _ _ O) as Hv. pose proof (op_inv _ _ _ _ _ _ O) as I3.
        pose proof (sess_at _ _ _ _ _ I3 Hv) as Hat. unfold tbl in Hat.
        assert (Hx : rs_id (at_ (sessions (p_w s3)) i) = rs_id p) by (by rewrite <- Hat).
        rewrite Hx. apply wp_bind, wp_gets. apply wp_bind, (wp_deref _ r); [done|].
        assert (E3 : p_m s3 = p_m s) by (by rewrite (op_m _ _ _ _ _ _ O)).
        eapply wp_mono; [|intros a s' H; eapply in_post_trans; [|exact H]; eapply stable_trans; [exact S12|apply O]].
        unfold tuple in *. rewrite <- E3 in *. eapply inbound_forward_wp; try done.
Qed.

(** ** RS -> LIP *)

(** The reply of a known session: it is dropped only when the client's MAC
    address is unknown or its hop limit is used up. *)
Definition ret_post (p : Session) s (r : Result) s' : Prop :=
  inv s' /\ stable s s' /\
  (r = send /\ ftuple (mdata (p_m s')) = reverse (client p)
   \/ r = drop ST_DROP_NO_NEIGH /\ unresolved dp (Route.next_hop (dp_route dp) (src_ip (client p)))
   \/ r = drop ST_DROP_TTL /\ get8 22 (mdata (p_m s)) <= 1).

Lemma return_forward_wp i p meta s :
  inv s -> view (tbl s) !! i = Some p -> parsed (mdata (p_m s)) meta ->
  l4proto (f_proto (mdata (p_m s))) -> protocol (client p) = f_proto (mdata (p_m s)) ->
  wp (_ ← update_state dp i (meta_tcp_flags meta) RS_TO_CLIENT;
      x ← sess i;
      _ ← when (flag (Session.flags x) SF_TOA_PENDING && negb (flag (meta_tcp_flags meta) TCP_SYN))
            (sess_upd i (fun x => set_flags (Z.land (Session.flags x) (255 - SF_TOA_PENDING)) x));
      n ← gets (fun s => pkt_len (p_m s));
      _ ← sess_upd i (fun x =>
            set_bytes_out (u64 (bytes_out x + n)) (set_pkts_out (u64 (pkts_out x + 1)) x));
      mac ← resolve_client_mac dp i;
      match mac with
      | None => mret (drop ST_DROP_NO_NEIGH)
      | Some mac =>
        x ← sess i;
        let rw := mkNatRewrite (dst_ip (client x)) (src_ip (client x)) (dst_port (client x))
                    (src_port (client x)) (local_mac dp) mac in
        let opt := mkNatOptions false false 0 0 (dp_tx_offloads dp) (dp_mtu dp) in
        '(res, _, _) ← onm (nat_rewrite hw_cksum meta rw opt);
        match res with
        | TTL_EXCEEDED => mret (drop ST_DROP_TTL)
        | RW_OK => _ ← count_fwd_out i; mret send
        end
      end : ST PState Result) (ret_post p s) s.
Proof.
  intros I Hi P Hp Hpr. apply wp_bind. eapply update_state_wp; [done|eauto|]. intros s1 M1.
  apply wp_bind, wp_gets. apply wp_bind.
  assert (K : forall s2, moved dp max_lcore i s s2 -> wp (n ← gets (fun s => pkt_len (p_m s));
      _ ← sess_upd i (fun x =>
            set_bytes_out (u64 (bytes_out x + n)) (set_pkts_out (u64 (pkts_out x + 1)) x));
      mac ← resolve_client_mac dp i;
      match mac with
      | None => mret (drop ST_DROP_NO_NEIGH)
      | Some mac =>
        x ← sess i;
        let rw := mkNatRewrite (dst_ip (client x)) (src_ip (client x)) (dst_port (client x))
                    (src_port (client x)) (local_mac dp) mac in
        let opt := mkNatOptions false false 0 0 (dp_tx_offloads dp) (dp_mtu dp) in
        '(res, _, _) ← onm (nat_rewrite hw_cksum meta rw opt);
        match res with
        | TTL_EXCEEDED => mret (drop ST_DROP_TTL)
        | RW_OK => _ ← count_fwd_out i; mret send
        end
      end : ST PState Result) (ret_post p s) s2).
  { intros s2 M2. apply wp_bind, wp_gets. apply wp_bind.
    eapply sess_upd_plain_wp; [apply M2|by eapply moved_live|neutral|done|]. intros s3 M3.
    pose proof (moved_trans _ _ _ _ _ _ M2 M3) as M23. apply wp_bind.
    eapply resolve_client_mac_wp; [apply M3|by eapply moved_live|]. intros o s4 M4 Ho Hun.
    pose proof (mv_view _ _ _ _ _ M23) as (p1 & q1 & V1 & V1' & C1).
    pose proof (moved_trans _ _ _ _ _ _ M23 M4) as M. clear M1 M2 M3 M4 M23.
    pose proof M as [I4 S4 E4 N4 (p0 & q & V0 & V4 & C)]. assert (p0 = p) as -> by congruence.
    assert (Hq : view (tbl s4) !! i = Some q) by (rewrite V4; apply lookup_insert_eq).
    destruct o as [mac|].
    2:{ apply wp_ret. split_and!; [done|done|]. right; left. split; [done|]. assert (p1 = p) as -> by congruence.
        rewrite <- (sc_client _ _ C1). apply (Hun eq_refl). rewrite V1'. apply lookup_insert_eq. }
    destruct (Ho mac eq_refl) as [Lo Fo]. apply wp_bind, wp_gets. cbv zeta.
    pose proof (winv_sess _ _ _ _ _ _ _ _ I4 Hq) as Sq. pose proof (do_mac _ _ DP) as [Lm Fm].
    pose proof (sess_at _ _ _ _ _ I4 Hq) as Hat. unfold tbl in Hat.
    set (x := at_ (sessions (p_w s4)) i) in *. assert (X1 : client x = client q) by (by rewrite <- Hat).
    rewrite X1. pose proof (so_client _ _ _ _ _ Sq) as (W1 & W2 & W3 & W4 & _).
    apply wp_bind, onm_wp. apply nat_fwd_wp; rewrite ?E4; try done; [apply DP|..].
    - intros Httl. cbv beta iota. apply wp_ret. split; [exact I4|]. split; [exact S4|]. right; right. done.
    - intros Hgt meta' out m' F. cbv beta iota. apply wp_bind.
      eapply count_fwd_out_wp; [exact I4|exists q; exact Hq|]. intros s5 Q5. apply wp_ret.
      split; [eapply quiet_inv; [exact Q5|exact I4]|]. split.
      { eapply stable_trans; [exact S4|]. eapply stable_trans; [|by apply quiet_stable]. done. }
      left. split; [done|]. rewrite (qu_m _ _ Q5). cbn [set_m p_m]. rewrite (fo_tuple _ _ _ F). cbn.
      rewrite (sc_client _ _ C). unfold reverse. by rewrite Hpr. }
  apply wp_when; intros _; [|by apply K].
  destruct (moved_live _ _ _ _ _ M1) as [q Hq]. pose proof (mv_inv _ _ _ _ _ M1) as I1.
  pose proof (winv_sess _ _ _ _ _ _ _ _ I1 Hq) as Sq.
  eapply sess_upd_wp; [exact I1|exact Hq|apply (neutral_flags (fun v => Z.land v _)), toa_clear_nat|..].
  - split; try done. apply toa_clear_nat.
  - apply Sq.
  - apply Sq.
  - done.
  - intros s2 M2. apply K. by eapply moved_trans.
Qed.

Definition ok_post (redirected : bool) s (r : Result) s' : Prop :=
  inv s' /\ stable s s' /\ res_ok dp redirected (idx (p_w s)) r.

Lemma ret_ok redirected p s r s' : ret_post p s r s' -> ok_post redirected s r s'.
Proof.
  intros (H1 & H2 & H3). split_and!; try done. destruct H3 as [[-> _]|[[-> _] | [-> _]]]; [done|..].
  - change (ST_DROP_NO_NEIGH ∈ drop_range). in_drop.
  - change (ST_DROP_TTL ∈ drop_range). in_drop.
Qed.

(** A reply of a session whose real server is usable is translated back. *)
Lemma handle_return_found_wp meta redirected i p r s :
  inv s -> Snapshot.mode (p_snap s) = NAT -> parsed (mdata (p_m s)) meta ->
  l4proto (f_proto (mdata (p_m s))) ->
  view (tbl s) !! i = Some p -> server p = ftuple (mdata (p_m s)) ->
  rs (p_snap s) (rs_id p) = Some r -> usable r = true ->
  wp (handle_return hw_cksum dp meta redirected) (ret_post p s) s.
Proof.
  intros I Md P Hp Hi Hs Hr Hu. pose proof P as [Pf Pm Pi Pl R]. unfold handle_return; cbv zeta.
  rewrite (reports_tuple _ _ R Hp). pose proof (winv_sess _ _ _ _ _ _ _ _ I Hi) as S.
  destruct (so_nat _ _ _ _ _ S Md) as (N1 & N2 & N3 & N4 & N5).
  apply wp_bind, wp_gets. rewrite <- Hs, N2, Z.eqb_refl. cbn [negb].
  apply wp_bind, wp_gets. change (sessions (p_w s)) with (tbl s).
  assert (El : lookup (tbl s) (server p) = Some i).
  { apply lookup_view; [apply I|]. exists p. split; [done|]. right. unfold server_of. by rewrite N1. }
  rewrite El. apply wp_bind, wp_gets. pose proof (sess_at _ _ _ _ _ I Hi) as Hat. unfold tbl in Hat.
  set (x := at_ (sessions (p_w s)) i) in *.
  assert (X : flags x = flags p /\ server x = server p /\ rs_id x = rs_id p) by (by rewrite <- Hat).
  destruct X as (X1 & X2 & X3). rewrite X1, X2, X3.
  change (flag (flags p) SF_FULLNAT) with (has_flag (flags p) SF_FULLNAT). rewrite N1.
  unfold FiveTuple_eqb. rewrite bool_decide_true by done. cbn [negb orb].
  apply wp_bind, wp_gets. rewrite Hr, Hu. cbn [negb].
  apply return_forward_wp; try done. rewrite <- N5, Hs. done.
Qed.

Lemma handle_return_wp meta redirected s :
  inv s -> Snapshot.mode (p_snap s) = NAT -> parsed (mdata (p_m s)) meta ->
  l4proto (f_proto (mdata (p_m s))) ->
  wp (handle_return hw_cksum dp meta redirected) (ok_post redirected s) s.
Proof.
  intros I Md P Hp. pose proof P as [Pf Pm Pi Pl R]. unfold handle_return; cbv zeta.
  rewrite (reports_tuple _ _ R Hp). set (tuple := ftuple (mdata (p_m s))).
  apply wp_bind, wp_gets. pose proof (ret_owner_range st tuple (do_steering _ _ DP)) as Ho.
  destruct (Z.eqb_spec (ret_owner st tuple) (idx (p_w s))) as [Eo|Eo]; cbn [negb].
  2:{ apply wp_ret. split; [done|]. split; [apply stable_refl|]. by apply not_owner_ok. }
  apply wp_bind, wp_gets. change (sessions (p_w s)) with (tbl s).
  assert (Dr : forall f s', inv s' -> stable s s' -> f ∈ drop_range -> ok_post redirected s (drop f) s').
  { intros. split_and!; try done. }
  destruct (lookup (tbl s) tuple) as [i|] eqn:El; [|apply wp_ret, Dr; [done|apply stable_refl|in_drop]].
  apply lookup_view in El as (p & Hi & Hk); [|apply I].
  apply wp_bind, wp_gets. pose proof (sess_at _ _ _ _ _ I Hi) as Hat. unfold tbl in Hat.
  pose proof (winv_sess _ _ _ _ _ _ _ _ I Hi) as S.
  set (x := at_ (sessions (p_w s)) i) in *.
  assert (X : flags x = flags p /\ server x = server p /\ rs_id x = rs_id p) by (by rewrite <- Hat).
  destruct X as (X1 & X2 & X3). rewrite X1, X2, X3. unfold FiveTuple_eqb.
  destruct (decide (server p = tuple)) as [Es|Es];
    [rewrite (bool_decide_true (server p = tuple)) by done|rewrite (bool_decide_false (server p = tuple)) by done].
  2:{ rewrite orb_true_r. apply wp_ret, Dr; [done|apply stable_refl|in_drop]. }
  destruct (so_nat _ _ _ _ _ S Md) as (N1 & N2 & N3 & N4 & N5).
  change (flag (flags p) SF_FULLNAT) with (has_flag (flags p) SF_FULLNAT). rewrite N1. cbn [negb orb].
  apply wp_bind, wp_gets. wp_if.
  { apply wp_bind. eapply close_session_wp; [done|eauto|]. intros s' [C1 C2 _ _ _].
    apply wp_ret, Dr; [done|done|in_drop]. }
  eapply wp_mono; [apply return_forward_wp; try done|].
  - rewrite <- N5, Es. done.
  - intros r s' H. by eapply ret_ok.
Qed.

End Handlers.
End ProcessorHandlers.
