(* ===== verification/LocalThms.v ===== *)
(** Packets the load balancer answers itself: ICMP echo and ARP requests. *)
From S2P Require Import Prelude Types Mem Headers Dpdk Checksum ChecksumThms Parser ParserThms Forward ForwardThms.
Import Checksum ChecksumThms Parser ParserThms Forward ForwardThms.

Module LocalThms.

Lemma slice_put_len off n l bs :
  len l = n -> 0 <= off -> off + n <= len bs -> slice off n (put off l bs) = l.
Proof. intros <-. apply slice_put_same. Qed.

(** ** ICMP echo *)

(** The reply [b] to the echo request [bs]. *)
Record echoed (mac : MacAddr) (bs b : list Z) : Prop := {
  ec_frame : frame b;
  ec_len : len b = len bs;
  ec_dmac : slice 0 6 b = slice 6 6 bs;
  ec_smac : slice 6 6 b = mac;
  ec_src : get32 26 b = get32 30 bs;
  ec_dst : get32 30 b = get32 26 bs;
  ec_ttl : get8 22 b = 64;
  ec_ihl : f_ihl b = f_ihl bs;
  ec_total : f_total b = f_total bs;
  ec_type : get8 (f_l4 bs) b = IcmpH.ECHO_REPLY /\ get8 (f_l4 bs + 1) b = 0;
  ec_data n : slice (f_l4 bs + 4) n b = slice (f_l4 bs + 4) n bs;
  ec_ip_ok : sum_ok (wsum (slice 14 (f_ihl bs) b));
  ec_icmp_ok : sum_ok (wsum (slice (f_l4 bs) (f_end bs - f_l4 bs) b))
}.

(** The ICMP part. *)
Record icmp_answered (bs b : list Z) : Prop := {
  ia_frame : frame b;
  ia_agrees : agrees (f_l4 bs) (f_l4 bs + 4) bs b;
  ia_type : get8 (f_l4 bs) b = IcmpH.ECHO_REPLY /\ get8 (f_l4 bs + 1) b = 0;
  ia_ok : sum_ok (wsum (slice (f_l4 bs) (f_end bs - f_l4 bs) b))
}.

Lemma handle_echo_wp Q bs :
  frame bs -> len bs <= 65535 -> ip_wf bs -> f_l4 bs + 8 <= f_end bs ->
  (get8 (f_l4 bs) bs <> IcmpH.ECHO_REQUEST -> Q false bs) ->
  (forall b, get8 (f_l4 bs) bs = IcmpH.ECHO_REQUEST -> icmp_answered bs b -> Q true b) ->
  wp (handle_echo_request (f_l4 bs) (f_end bs - f_l4 bs)) Q bs.
Proof.
  intros Hf Hm (Hl & Hv & Hi & He) Hl4 HF HT.
  unfold handle_echo_request, IcmpH.is_echo_request, IcmpH.type, IcmpH.code, IcmpH.checksum, calculate_checksum.
  assert (E4 : f_l4 bs = 14 + f_ihl bs) by done. set (l4 := f_l4 bs) in *. set (e := f_end bs) in *.
  repeat wp_step. destruct (Z.eqb_spec (get8 l4 bs) IcmpH.ECHO_REQUEST) as [Et|Et]; cbn [negb].
  2:{ apply wp_ret, HF, Et. }
  set (b1 := put l4 [u8 IcmpH.ECHO_REPLY] bs). set (b2 := put (l4 + 1) [u8 0] b1).
  assert (L1 : len b1 = len bs) by (apply len_put8; lia).
  assert (L2 : len b2 = len bs) by (unfold b2; rewrite len_put8; lia).
  assert (F2 : frame b2) by (unfold b2, b1; auto with pkt).
  apply wp_bind, wp_wr8; [lia|lia|]. fold b1. apply wp_bind, wp_wr8; [lia|lia|]. fold b2.
  destruct (sum_region_closes l4 (e - l4) 2 0 b2 F2 ltac:(lia) ltac:(lia) ltac:(lia) ltac:(lia)
    eq_refl ltac:(lia) ltac:(lia)) as [Hwp Hok].
  apply wp_bind, wp_wr16; [lia|lia|]. apply wp_bind. eapply wp_mono; [exact Hwp|]. intros c' b' [-> ->].
  set (c := 65535 - red _) in *.
  apply wp_bind, wp_wr16; [lia|rewrite len_put16 by lia; lia|]. rewrite put16_zero_then by lia.
  apply wp_ret, HT; [done|]. split.
  - auto with pkt.
  - unfold b2, b1. repeat apply agrees_put_then; lens; try lia. apply agrees_refl.
  - fold l4. split.
    + rewrite get8_put_ne by (lens; lia). unfold b2. rewrite get8_put_ne by (lens; lia). unfold b1.
      rewrite get8_put_same by lia. done.
    + rewrite get8_put_ne by (lens; lia). unfold b2. rewrite get8_put_same by lia. done.
  - exact Hok.
Qed.

(** The link and network part. *)
Lemma echo_headers_wp mac Q bs b0 :
  len mac = 6 -> frame mac -> ip_wf bs -> icmp_answered bs b0 ->
  (forall b, echoed mac bs b -> Q tt b) ->
  wp (_ ← Eth.swap_mac 0; _ ← Eth.set_src_mac 0 mac; _ ← Ip.swap_ip 14; _ ← wr8 (Ip.ttl 14) 64; update 14) Q b0.
Proof.
  intros Lm Fm (Hl & Hv & Hi & He) [F0 A0 T0 O0] HQ. pose proof A0 as [L0 _].
  assert (E4 : f_l4 bs = 14 + f_ihl bs) by done. set (l4 := f_l4 bs) in *. set (e := f_end bs) in *.
  assert (S6 : forall off, 0 <= off -> off + 6 <= 14 -> len (slice off 6 b0) = 6) by (intros; apply len_slice; lia).
  unfold Eth.swap_mac, Eth.set_src_mac, Eth.dst_mac, Eth.src_mac, Ip.swap_ip, Ip.src_ip, Ip.dst_ip, Ip.ttl.
  change (0 + 6) with 6. change (14 + 12) with 26. change (14 + 16) with 30. change (14 + 8) with 22.
  repeat wp_step. set (d := slice 0 6 b0). set (sm := slice 6 6 b0).
  assert (Ld : len d = 6) by (apply S6; lia). assert (Ls : len sm = 6) by (apply S6; lia).
  assert (Fd : frame d) by (by apply frame_slice). assert (Fs : frame sm) by (by apply frame_slice).
  apply wp_wr_bytes; [lia|lia|]. set (b1 := put 0 sm b0).
  assert (L1 : len b1 = len bs) by (unfold b1; rewrite len_put; lia).
  apply wp_wr_bytes; [lia|lia|]. set (b2 := put 6 d b1).
  assert (L2 : len b2 = len bs) by (unfold b2; rewrite len_put; lia).
  apply wp_bind, wp_wr_bytes; [lia|lia|]. set (b3 := put 6 mac b2).
  assert (L3 : len b3 = len bs) by (unfold b3; rewrite len_put; lia).
  assert (F3 : frame b3) by (unfold b3, b2, b1; repeat apply frame_put; done).
  assert (A3 : agrees 0 12 b0 b3) by (unfold b3, b2, b1; repeat apply agrees_put_then; try lia; apply agrees_refl).
  repeat wp_step.
  apply wp_wr32; [lia|lia|]. set (b4 := put 26 _ b3).
  assert (L4 : len b4 = len bs) by (unfold b4; rewrite len_put32; lia).
  apply wp_wr32; [lia|lia|]. set (b5 := put 30 _ b4).
  assert (L5 : len b5 = len bs) by (unfold b5; rewrite len_put32; lia).
  apply wp_bind, wp_wr8; [lia|lia|]. set (b6 := put 22 _ b5).
  assert (L6 : len b6 = len bs) by (unfold b6; rewrite len_put8; lia).
  assert (F6 : frame b6) by (unfold b6, b5, b4; auto with pkt).
  assert (A6 : agrees 22 34 b3 b6) by (unfold b6, b5, b4; do 3 (apply agrees_put_then; lens; try lia); apply agrees_refl).
  assert (E14 : get8 14 b6 = get8 14 bs).
  { rewrite (agrees_get8 _ _ _ _ 14 A6), (agrees_get8 _ _ _ _ 14 A3), (agrees_get8 _ _ _ _ 14 A0) by lia. done. }
  assert (G : forall off, 26 <= off <= 30 -> get32 off b3 = get32 off bs).
  { intros. rewrite (agrees_get32 _ _ _ _ off A3), (agrees_get32 _ _ _ _ off A0) by lia. done. }
  apply update_wp; rewrite ?E14; fold (f_ihl bs); try done; try lia;
    [unfold e, f_end in He; lia|]. intros c Hc Hok.
  set (b7 := put (14 + 10) (le16 c) b6).
  assert (A7 : agrees 24 26 b6 b7) by (apply agrees_put; lens; lia).
  assert (L7 : len b7 = len bs) by (destruct A7; lia).
  assert (Far : forall off n, 34 <= off -> slice off n b7 = slice off n b0).
  { intros. rewrite (proj2 A7), (proj2 A6), (proj2 A3) by lia. done. }
  assert (Low : forall off n, 0 <= off -> off + n <= 12 -> slice off n b7 = slice off n b3).
  { intros. rewrite (proj2 A7), (proj2 A6) by lia. done. }
  apply HQ. split.
  - unfold b7. auto with pkt.
  - lia.
  - rewrite Low by lia. unfold b3. rewrite slice_put_ne by lia. unfold b2. rewrite slice_put_ne by lia.
    unfold b1. rewrite (slice_put_len 0 6 sm) by lia. unfold sm. apply (proj2 A0); lia.
  - rewrite Low by lia. unfold b3. apply slice_put_len; lia.
  - rewrite (agrees_get32 _ _ _ _ 26 A7) by lia. unfold b6.
    rewrite get32_put_ne by (lens; lia). unfold b5. rewrite get32_put_ne by (lens; lia).
    unfold b4. rewrite get32_put by (lia || (apply get32_is; done || lia)). apply G. lia.
  - rewrite (agrees_get32 _ _ _ _ 30 A7) by lia. unfold b6.
    rewrite get32_put_ne by (lens; lia). unfold b5.
    rewrite get32_put by (lia || (apply get32_is; done || lia)). apply G. lia.
  - rewrite (agrees_get8 _ _ _ _ 22 A7) by lia. unfold b6. by rewrite get8_put_same by lia.
  - unfold f_ihl. rewrite (agrees_get8 _ _ _ _ 14 A7), E14 by lia. done.
  - unfold f_total. rewrite (agrees_get16 _ _ _ _ 16 A7), (agrees_get16 _ _ _ _ 16 A6),
      (agrees_get16 _ _ _ _ 16 A3), (agrees_get16 _ _ _ _ 16 A0) by lia. done.
  - fold l4. unfold get8. rewrite !Far by lia. exact T0.
  - fold l4. intros n. rewrite Far, (proj2 A0) by lia. done.
  - exact Hok.
  - fold l4 e. rewrite Far by lia. exact O0.
Qed.

(** ** ARP *)

(** The reply [b] to the ARP request [bs]. *)
Record arp_answered (mac : MacAddr) (bs b : list Z) : Prop := {
  aa_frame : frame b;
  aa_len : len b = len bs;
  aa_dmac : slice 0 6 b = slice 22 6 bs;
  aa_smac : slice 6 6 b = mac;
  aa_op : get16 20 b = htons Arp.REPLY;
  aa_sender : slice 22 6 b = mac /\ get32 28 b = get32 38 bs;
  aa_target : slice 32 6 b = slice 22 6 bs /\ get32 38 b = get32 28 bs;
  aa_type : slice 12 8 b = slice 12 8 bs
}.

Lemma make_reply_wp mac Q bs :
  len mac = 6 -> frame mac -> frame bs -> 42 <= len bs ->
  (forall b, arp_answered mac bs b -> Q tt b) -> wp (Arp.make_reply 0 14 mac) Q bs.
Proof.
  intros Lm Fm Hf Hl HQ. unfold Arp.make_reply, Eth.set_src_mac, Eth.dst_mac, Eth.src_mac, Arp.target_ip,
    Arp.sender_mac, Arp.set_operation, Arp.operation, Arp.target_mac, Arp.sender_ip.
  change (14 + 24) with 38. change (14 + 8) with 22. change (0 + 6) with 6. change (14 + 6) with 20.
  change (14 + 18) with 32. change (14 + 14) with 28.
  set (sm := slice 22 6 bs). assert (Ls : len sm = 6) by (apply len_slice; lia).
  assert (Fs : frame sm) by (by apply frame_slice).
  repeat wp_step. fold sm. apply wp_wr_bytes; [lia|lia|]. set (b1 := put 0 sm bs).
  assert (L1 : len b1 = len bs) by (apply len_put; lia).
  apply wp_bind, wp_wr_bytes; [lia|lia|]. set (b2 := put 6 mac b1).
  assert (L2 : len b2 = len bs) by (unfold b2; rewrite len_put; lia).
  apply wp_bind, wp_wr16; [lia|lia|]. set (b3 := put 20 _ b2).
  assert (L3 : len b3 = len bs) by (unfold b3; rewrite len_put16; lia).
  repeat wp_step.
  assert (E3 : slice 22 6 b3 = sm).
  { unfold b3. rewrite slice_put_ne by (lens; lia). unfold b2. rewrite slice_put_ne by lia.
    unfold b1. by rewrite slice_put_ne by lia. }
  rewrite E3. apply wp_wr_bytes; [lia|lia|]. set (b4 := put 32 sm b3).
  assert (L4 : len b4 = len bs) by (unfold b4; rewrite len_put; lia).
  repeat wp_step.
  assert (A3 : agrees 0 22 bs b3) by (unfold b3, b2, b1; do 3 (apply agrees_put_then; lens; try lia); apply agrees_refl).
  assert (A4 : agrees 32 38 b3 b4) by (apply agrees_put; lia).
  assert (E28 : get32 28 b4 = get32 28 bs).
  { rewrite (agrees_get32 _ _ _ _ 28 A4), (agrees_get32 _ _ _ _ 28 A3) by lia. done. }
  assert (U28 : is_u32 (get32 28 bs)) by (apply get32_is; done || lia).
  assert (U38 : is_u32 (get32 38 bs)) by (apply get32_is; done || lia).
  rewrite E28. apply wp_wr32; [lia|lia|]. set (b5 := put 38 _ b4).
  assert (L5 : len b5 = len bs) by (unfold b5; rewrite len_put32; lia).
  apply wp_bind, wp_wr_bytes; [lia|lia|]. set (b6 := put 22 mac b5).
  assert (L6 : len b6 = len bs) by (unfold b6; rewrite len_put; lia).
  apply wp_wr32; [lia|lia|]. set (b7 := put 28 _ b6).
  assert (L7 : len b7 = len bs) by (unfold b7; rewrite len_put32; lia).
  assert (A7 : agrees 22 42 b3 b7)
    by (unfold b7, b6, b5, b4; do 4 (apply agrees_put_then; lens; try lia); apply agrees_refl).
  apply HQ. split.
  - unfold b7, b6, b5, b4, b3, b2, b1. repeat first [apply frame_put32|apply frame_put16|apply frame_put]; done.
  - done.
  - rewrite (proj2 A7) by lia. unfold b3. rewrite slice_put_ne by (lens; lia). unfold b2.
    rewrite slice_put_ne by lia. unfold b1. apply (slice_put_len 0 6 sm); lia.
  - rewrite (proj2 A7) by lia. unfold b3. rewrite slice_put_ne by (lens; lia). unfold b2.
    apply slice_put_len; lia.
  - rewrite (agrees_get16 _ _ _ _ 20 A7) by lia. unfold b3. apply get16_put; [lia|lia|]. apply bswap16_is.
  - split.
    + unfold b7. rewrite slice_put_ne by (lens; lia). unfold b6. apply slice_put_len; lia.
    + unfold b7. apply get32_put; lia || done.
  - split.
    + unfold b7. rewrite slice_put_ne by (lens; lia). unfold b6. rewrite slice_put_ne by lia.
      unfold b5. rewrite slice_put_ne by (lens; lia). unfold b4. apply (slice_put_len 32 6 sm); lia.
    + unfold b7. rewrite get32_put_ne by (lens; lia). unfold b6. rewrite get32_put_ne by lia.
      unfold b5. apply get32_put; lia || done.
  - rewrite (proj2 A7) by lia. unfold b3. rewrite slice_put_ne by (lens; lia). unfold b2.
    rewrite slice_put_ne by lia. unfold b1. by rewrite slice_put_ne by lia.
Qed.

End LocalThms.
