(* ===== verification/ProcessorMain.v ===== *)
(** ICMP, ARP and health-check packets, classification, and the entry point. *)
From S2P Require Import Prelude Types TcpState Mem Headers Dpdk Session SessionInv SessionSpec SessionThms SessionView Checksum ChecksumThms Parser ParserThms Forward ForwardThms ForwardProps LocalThms Steering Scheduler SchedulerProps Config Snapshot SnapshotThms Neigh NeighProps Context Processor ProcessorInv ProcessorThms ProcessorNew ProcessorHandlers.
Import Tcp Session SessionSpec SessionView Checksum ChecksumThms Parser ParserThms Forward ForwardThms ForwardProps LocalThms Steering Scheduler SchedulerProps Config Snapshot SnapshotThms Context Processor ProcessorInv ProcessorThms ProcessorNew ProcessorHandlers.

Module ProcessorMain.

Section Main.
Context `{RH : RteHash FiveTuple} `{RL : !RteHashLaws FiveTuple RH} `{NH : RteHash Z}.
Context `{HF : RteHashFns} `{HL : !RteHashFnsLaws HF} `{MB : RteMbuf} `{ML : !RteMbufLaws MB}.
Context (hw_cksum : bool) (dp : Dataplane (NH := NH)) (max_lcore : nat) (DP : dp_ok dp max_lcore).
Abbreviation inv := (inv dp max_lcore).
Abbreviation st := (dp_steering dp).
Abbreviation ok_post := (ok_post dp max_lcore).
Implicit Types s : PState (RH := RH).

Lemma drop_ok redirected s s' f :
  inv s' -> stable s s' -> f ∈ drop_range -> ok_post redirected s (drop f) s'.
Proof. intros. split_and!; done. Qed.

Lemma send_ok redirected s s' : inv s' -> stable s s' -> ok_post redirected s send s'.
Proof. intros. split_and!; done. Qed.

Lemma consumed_ok redirected s s' : inv s' -> stable s s' -> ok_post redirected s consumed s'.
Proof. intros. split_and!; done. Qed.

Lemma ok_trans redirected s s1 r s' :
  stable s s1 -> ok_post redirected s1 r s' -> ok_post redirected s r s'.
Proof.
  intros S (H1 & H2 & H3). pose proof S as (E1 & _). rewrite E1 in H3.
  split; [done|]. split; [by eapply stable_trans|done].
Qed.

Lemma in_ok tuple redirected s r s' :
  in_post dp max_lcore tuple redirected s r s' -> ok_post redirected s r s'.
Proof. intros (H1 & H2 & H3 & _). done. Qed.

(** ** ICMP errors *)

Lemma icmp_rewrite_wp meta info osrc odst inn mac redirected s0 s :
  inv s -> stable s0 s -> parsed (mdata (p_m s)) meta -> quotes (mdata (p_m s)) meta info ->
  IcmpH.icmp_is_error (get8 (f_l4 (mdata (p_m s))) (mdata (p_m s))) = true ->
  is_u32 osrc -> is_u32 odst -> FiveTuple_wf inn -> mac_wf mac ->
  wp (res ← onm (nat_rewrite_icmp_error meta info osrc odst inn (local_mac dp) mac);
      match res with
      | TTL_EXCEEDED => mret (drop ST_DROP_TTL)
      | RW_OK => _ ← stat ST_ICMP_ERR_FWD; mret send
      end : ST PState Result) (ok_post redirected s0) s.
Proof.
  intros I S [Pf Pm Pi Pl R] Hq He Ho Hd Wi [Lm Fm]. pose proof (do_mac _ _ DP) as [Ll Fl].
  apply wp_bind, onm_wp. rewrite <- (set_mdata_id (p_m s)).
  apply nat_rewrite_icmp_error_wp; try done.
  intros _. apply wp_ret, drop_ok; [exact I|exact S|in_drop].
Qed.

Lemma icmp_to_client_wp meta info redirected s :
  inv s -> parsed (mdata (p_m s)) meta -> quotes (mdata (p_m s)) meta info ->
  IcmpH.icmp_is_error (get8 (f_l4 (mdata (p_m s))) (mdata (p_m s))) = true ->
  wp (icmp_to_client dp meta info redirected) (ok_post redirected s) s.
Proof.
  intros I P Hq He. unfold icmp_to_client; cbv zeta. apply wp_bind, wp_gets.
  set (key := reverse (inner info)). pose proof (ret_owner_range st key (do_steering _ _ DP)) as Ho.
  destruct (Z.eqb_spec (ret_owner st key) (idx (p_w s))) as [Eo|Eo]; cbn [negb].
  2:{ apply wp_ret. split; [done|]. split; [apply stable_refl|]. by apply not_owner_ok. }
  apply wp_bind, wp_gets. change (sessions (p_w s)) with (tbl s).
  destruct (lookup (tbl s) key) as [i|] eqn:El; [|apply wp_ret, drop_ok; [done|apply stable_refl|in_drop]].
  apply lookup_view in El as (p & Hi & _); [|apply I]. apply wp_bind, wp_gets.
  wp_if; [apply wp_ret, drop_ok; [done|apply stable_refl|in_drop]|].
  apply wp_bind. eapply resolve_client_mac_wp; [done|eauto|]. intros o s1 M Ho1 _.
  pose proof M as [I1 S1 E1 N1 _]. destruct o as [mac|]; [|apply wp_ret, drop_ok; [done|done|in_drop]].
  destruct (moved_live _ _ _ _ _ M) as [q Hv]. apply wp_bind, wp_gets.
  pose proof (sess_at _ _ _ _ _ I1 Hv) as Hat. unfold tbl in Hat.
  pose proof (winv_sess _ _ _ _ _ _ _ _ I1 Hv) as Sq. rewrite <- Hat in Sq.
  pose proof (so_client _ _ _ _ _ Sq) as Wc. pose proof Wc as (W1 & W2 & _).
  apply icmp_rewrite_wp; rewrite ?E1; try done. by apply Ho1.
Qed.

Lemma icmp_to_rs_wp meta info redirected s :
  inv s -> parsed (mdata (p_m s)) meta -> quotes (mdata (p_m s)) meta info ->
  IcmpH.icmp_is_error (get8 (f_l4 (mdata (p_m s))) (mdata (p_m s))) = true ->
  wp (icmp_to_rs dp meta info redirected) (ok_post redirected s) s.
Proof.
  intros I P Hq He. unfold icmp_to_rs; cbv zeta. apply wp_bind, wp_gets.
  set (key := reverse (inner info)). pose proof (fwd_owner_range st key (do_steering _ _ DP)) as Ho.
  destruct (Z.eqb_spec (fwd_owner st key) (idx (p_w s))) as [Eo|Eo]; cbn [negb].
  2:{ apply wp_ret. split; [done|]. split; [apply stable_refl|]. by apply not_owner_ok. }
  apply wp_bind, wp_gets. change (sessions (p_w s)) with (tbl s).
  destruct (lookup (tbl s) key) as [i|] eqn:El; [|apply wp_ret, drop_ok; [done|apply stable_refl|in_drop]].
  apply lookup_view in El as (p & Hi & _); [|apply I]. apply wp_bind, wp_gets.
  wp_if; [apply wp_ret, drop_ok; [done|apply stable_refl|in_drop]|].
  apply wp_bind, wp_gets. apply wp_bind.
  destruct (rs (p_snap s) _) as [r|] eqn:Er.
  2:{ apply wp_ret. apply wp_ret, drop_ok; [done|apply stable_refl|in_drop]. }
  eapply resolve_rs_mac_wp; [done|eauto|by eapply (sk_rs _ _ (wi_snap _ _ _ _ _ _ I))|]. intros o s1 M Ho1.
  pose proof M as [I1 S1 E1 N1 _]. destruct o as [mac|]; [|apply wp_ret, drop_ok; [done|done|in_drop]].
  destruct (Ho1 mac eq_refl) as [Lm Fm]. pose proof (do_mac _ _ DP) as [Ll Fl].
  destruct (moved_live _ _ _ _ _ M) as [q Hv]. destruct (Snapshot.mode (p_snap s)).
  - apply wp_bind, wp_gets. pose proof (sess_at _ _ _ _ _ I1 Hv) as Hat. unfold tbl in Hat.
    pose proof (winv_sess _ _ _ _ _ _ _ _ I1 Hv) as Sq. rewrite <- Hat in Sq.
    pose proof (so_server _ _ _ _ _ Sq) as Wc. pose proof Wc as (W1 & W2 & _).
    apply icmp_rewrite_wp; rewrite ?E1; try done.
  - apply wp_bind, onm_wp. unfold dr_rewrite. pose proof P as [Pf _ (Pl & _) _ _].
    apply wp_bind, wp_zoom. rewrite E1. unfold Eth.set_dst_mac, Eth.set_src_mac, Eth.dst_mac, Eth.src_mac.
    apply wp_bind, wp_wr_bytes; [lia|lia|].
    apply wp_wr_bytes; [lia|rewrite len_put by lia; lia|]. apply wp_modify.
    apply wp_bind, stat_wp. intros s2 Q2. apply wp_ret, send_ok.
    + eapply quiet_inv; [exact Q2|exact I1].
    + eapply stable_trans; [exact S1|]. eapply stable_trans; [|by apply quiet_stable]. done.
Qed.

Lemma handle_icmp_error_wp meta redirected s :
  inv s -> parsed (mdata (p_m s)) meta -> f_proto (mdata (p_m s)) = IPProtocol_ICMP ->
  wp (handle_icmp_error dp meta redirected) (ok_post redirected s) s.
Proof.
  intros I P Hp. pose proof P as [Pf Pm Pi Pl R]. pose proof Pi as (P1 & P2 & P3 & P4).
  destruct Pl as (_ & _ & Pc). specialize (Pc Hp). unfold handle_icmp_error.
  assert (E4 : f_l4 (mdata (p_m s)) = 14 + f_ihl (mdata (p_m s))) by done.
  apply wp_bind, onf_read_wp. apply parse_icmp_error_wp; rewrite ?(rp_l4 _ _ R), ?(rp_total _ _ R); try lia.
  intros o Ho. split; [done|]. destruct o as [info|]; [|apply wp_ret, drop_ok; [done|apply stable_refl|in_drop]].
  destruct (Ho info eq_refl) as [Hq He].
  pose proof (sk_indexed _ _ (wi_snap _ _ _ _ _ _ I)) as X.
  apply wp_bind, wp_gets. apply wp_bind.
  assert (Case2 : wp (dvip ← deref (is_vip (p_snap s) (meta_dst_ip meta));
      svip ← andM dvip (deref (is_vip (p_snap s) (src_ip (inner info))));
      if (svip : bool) then icmp_to_rs dp meta info redirected
      else mret (drop ST_DROP_NO_SESSION)) (ok_post redirected s) s).
  { apply wp_bind, (wp_deref _ _ _ _ (ix_vip _ X _)). apply wp_bind, wp_andM.
    - intros _. apply wp_ret, drop_ok; [done|apply stable_refl|in_drop].
    - intros _. apply (wp_deref _ _ _ _ (ix_vip _ X _)). wp_if; [by apply icmp_to_rs_wp|].
      apply wp_ret, drop_ok; [done|apply stable_refl|in_drop]. }
  apply wp_andM.
  - intros _. apply wp_bind, wp_ret. cbn [andb]. exact Case2.
  - intros _. apply (wp_deref _ _ _ _ (ix_lip _ X _)). apply wp_bind, wp_andM.
    + intros _. cbn [andb]. exact Case2.
    + intros _. apply (wp_deref _ _ _ _ (ix_lip _ X _)). wp_if; [by apply icmp_to_client_wp|exact Case2].
Qed.

(** ** Echo *)

Definition echo_post (redirected : bool) s (r : Result) s' : Prop :=
  ok_post redirected s r s' /\ tbl s' = tbl s /\
  (r = send /\ get8 (f_l4 (mdata (p_m s))) (mdata (p_m s)) = IcmpH.ECHO_REQUEST
     /\ echoed (local_mac dp) (mdata (p_m s)) (mdata (p_m s'))
   \/ r = drop ST_DROP_OTHER /\ get8 (f_l4 (mdata (p_m s))) (mdata (p_m s)) <> IcmpH.ECHO_REQUEST).

Lemma echo_reply_wp meta redirected s :
  inv s -> parsed (mdata (p_m s)) meta -> f_proto (mdata (p_m s)) = IPProtocol_ICMP ->
  wp (echo_reply dp meta) (echo_post redirected s) s.
Proof.
  intros I P Hp. pose proof P as [Pf Pm Pi Pl R]. destruct Pl as (_ & _ & Pc). specialize (Pc Hp).
  pose proof (do_mac _ _ DP) as [Ll Fl]. unfold echo_reply; cbv zeta.
  rewrite (rp_l4 _ _ R), (rp_total _ _ R), (rp_l3 _ _ R).
  apply wp_bind, onf_wp. apply handle_echo_wp; try done.
  - intros Hn. cbn [negb]. rewrite set_m_id. apply wp_ret. split; [apply drop_ok; [done|apply stable_refl|in_drop]|].
    split; [done|]. by right.
  - intros b Ht Ha. cbn [negb]. apply wp_bind, onf_wp.
    apply (echo_headers_wp (local_mac dp) _ (mdata (p_m s))); try done. intros b' He.
    apply wp_bind, onm_wp, wp_modify. apply wp_ret. split; [apply send_ok; [exact I|done]|].
    split; [done|]. left. done.
Qed.

Lemma handle_icmp_wp meta redirected s :
  inv s -> parsed (mdata (p_m s)) meta -> f_proto (mdata (p_m s)) = IPProtocol_ICMP ->
  wp (handle_icmp dp meta redirected) (ok_post redirected s) s.
Proof.
  intros I P Hp. pose proof P as [Pf Pm Pi Pl R]. destruct Pl as (_ & _ & Pc). specialize (Pc Hp).
  pose proof Pi as (P1 & P2 & P3 & P4).
  assert (E4 : f_l4 (mdata (p_m s)) = 14 + f_ihl (mdata (p_m s))) by done.
  unfold handle_icmp, IcmpH.type. rewrite (rp_l4 _ _ R). apply wp_bind, onf_read_wp, wp_rd8; [lia|lia|].
  split; [done|]. wp_if; [by apply handle_icmp_error_wp|].
  eapply wp_mono; [by apply (echo_reply_wp meta redirected)|]. intros r s' H. apply H.
Qed.

(** ** Health checks *)

Lemma handle_hc_response_wp meta redirected s :
  inv s -> parsed (mdata (p_m s)) meta ->
  wp (handle_hc_response meta) (fun r s' => ok_post redirected s r s' /\ r <> send) s.
Proof.
  intros I P. pose proof P as [Pf Pm Pi Pl R]. unfold handle_hc_response.
  wp_if; [apply wp_ret; split; [apply drop_ok; [done|apply stable_refl|in_drop]|done]|].
  apply negb_false_iff, Z.eqb_eq in E. rewrite (rp_proto _ _ R) in E.
  destruct Pl as (Pt & _). specialize (Pt E). pose proof Pi as (P1 & P2 & P3 & P4).
  assert (E4 : f_l4 (mdata (p_m s)) = 14 + f_ihl (mdata (p_m s))) by done.
  cbv zeta. unfold TcpH.seq_num, TcpH.ack_num. rewrite (rp_l4 _ _ R).
  apply wp_bind, onf_read_wp, wp_rd32; [lia|lia|]. split; [done|].
  apply wp_bind, onf_read_wp, wp_rd32; [lia|lia|]. split; [done|].
  apply wp_bind, post_wp. intros s1 Q1. apply wp_bind, stat_wp. intros s2 Q2. apply wp_ret. split; [apply consumed_ok|done].
  - eapply quiet_inv; [|exact I]. by eapply quiet_trans.
  - apply quiet_stable. by eapply quiet_trans.
Qed.

(** ** ARP *)

(** A request for an address of the load balancer from somebody else's. *)
Definition arp_request (snap : Snapshot) (bs : list Z) : Prop :=
  42 <= len bs
  /\ ((ntohs (get16 14 bs) =? 1) && (ntohs (get16 16 bs) =? 2048)
      && (get8 18 bs =? 6) && (get8 19 bs =? 4)) && (ntohs (get16 20 bs) =? 1) = true
  /\ is_local snap (get32 28 bs) = Some false /\ is_local snap (get32 38 bs) = Some true.

Definition arp_post (redirected : bool) s (r : Result) s' : Prop :=
  ok_post redirected s r s' /\ tbl s' = tbl s /\
  (r = send /\ arp_request (p_snap s) (mdata (p_m s)) /\ arp_answered (local_mac dp) (mdata (p_m s)) (mdata (p_m s'))
   \/ (r = consumed \/ r = drop ST_DROP_MALFORMED) /\ ~ arp_request (p_snap s) (mdata (p_m s)) /\ p_m s' = p_m s).

Lemma handle_arp_wp redirected s :
  inv s -> frame (mdata (p_m s)) -> wp (handle_arp dp) (arp_post redirected s) s.
Proof.
  intros I Hf. unfold handle_arp. apply wp_bind, wp_gets.
  wp_if.
  { apply wp_ret. split; [apply drop_ok; [done|apply stable_refl|in_drop]|]. split; [done|]. right. split; [by right|].
    split; [|done]. apply Z.ltb_lt in E. unfold data_len in E. change (Eth.HEADER_SIZE + Arp.HEADER_SIZE) with 42 in E.
    intros [? _]. lia. }
  apply Z.ltb_ge in E. unfold data_len in E. change (Eth.HEADER_SIZE + Arp.HEADER_SIZE) with 42 in E. cbv zeta.
  pose proof (do_mac _ _ DP) as [Ll Fl]. pose proof (sk_indexed _ _ (wi_snap _ _ _ _ _ _ I)) as X.
  apply wp_bind, stat_wp. intros s1 Q1. assert (I1 : inv s1) by (by eapply quiet_inv).
  pose proof (quiet_stable _ _ Q1) as S1. pose proof (qu_m _ _ Q1) as E1. pose proof (qu_snap _ _ Q1) as N1.
  assert (Con : forall s', quiet s1 s' -> ~ arp_request (p_snap s) (mdata (p_m s)) -> arp_post redirected s consumed s').
  { intros s' Q Hn. split; [apply consumed_ok; [by eapply quiet_inv|]|].
    - eapply stable_trans; [exact S1|by apply quiet_stable].
    - split; [by rewrite (qu_tbl _ _ Q), (qu_tbl _ _ Q1)|]. right. split; [by left|]. split; [done|].
      by rewrite (qu_m _ _ Q). }
  unfold arp_request in Con.
  unfold Arp.is_eth_ipv4, Arp.hw_type, Arp.proto_type, Arp.hw_len, Arp.proto_len, Arp.sender_ip, Arp.target_ip,
    Arp.sender_mac, Arp.is_request, Arp.is_reply, Arp.get_operation, Arp.operation, Eth.HEADER_SIZE.
  change (14 + 2) with 16. change (14 + 4) with 18. change (14 + 5) with 19. change (14 + 6) with 20.
  change (14 + 8) with 22. change (14 + 14) with 28. change (14 + 24) with 38.
  apply wp_bind, onf_read_wp. rewrite E1. repeat wp_step. split; [done|].
  wp_if; [apply wp_ret, Con; [done|]; apply negb_true_iff in E0; rewrite E0; cbn [andb]; naive_solver|].
  apply negb_false_iff in E0. rewrite E0 in Con. cbn [andb] in Con. apply wp_bind, wp_gets. rewrite N1.
  apply wp_bind, onf_read_wp. rewrite E1. repeat wp_step. split; [done|].
  rewrite !(ix_local _ X) in Con. apply wp_bind, (wp_deref _ _ _ _ (ix_local _ X _)).
  wp_if; [apply wp_ret, Con; [done|]; naive_solver|].
  apply wp_bind, onf_read_wp. rewrite E1. repeat wp_step. split; [done|].
  apply wp_bind, (wp_deref _ _ _ _ (ix_local _ X _)).
  wp_if; [apply wp_ret, Con; [done|]; apply negb_true_iff in E3; rewrite ?E3; naive_solver|].
  apply negb_false_iff in E3.
  apply wp_bind, onf_read_wp. rewrite E1. repeat wp_step. split; [done|].
  apply wp_bind, onf_read_wp. rewrite E1. repeat wp_step. split; [done|].
  wp_if.
  - apply wp_bind, when_quiet_wp; [intros; by apply post_wp|]. intros s2 Q2.
    apply wp_bind, onf_wp. rewrite (qu_m _ _ Q2), E1. apply make_reply_wp; try done. intros b Hb.
    apply wp_bind, onm_wp, wp_modify. apply wp_ret. assert (inv s2) as I2 by (by eapply quiet_inv).
    split; [apply send_ok; [exact I2|]|split].
    + eapply stable_trans; [exact S1|]. eapply stable_trans; [by apply quiet_stable|]. done.
    + by rewrite <- (qu_tbl _ _ Q1), <- (qu_tbl _ _ Q2).
    + left. split; [done|]. split; [|exact Hb]. unfold arp_request. change Arp.REQUEST with 1 in E4.
      rewrite E0, E4, !(ix_local _ X), E2, E3. done.
  - apply wp_bind, onf_read_wp. rewrite E1. repeat wp_step. split; [done|].
    apply wp_bind, when_quiet_wp; [intros; by apply post_wp|]. intros s2 Q2. apply wp_ret, Con; [done|].
    change Arp.REQUEST with 1 in E4. rewrite E4. naive_solver.
Qed.

(** ** Classification *)

(** Addressed to the SNAT port range of a local address. *)
Definition is_return (tuple : FiveTuple) s : bool :=
  bool_decide (Snapshot.mode (p_snap s) = NAT)
  && bool_decide (dst_ip tuple = 0 \/ dst_ip tuple ∈ local_ips (p_snap s))
  && in_nat_range (dst_port tuple).

Lemma handle_l4_case_wp meta redirected Q s :
  inv s -> parsed (mdata (p_m s)) meta -> l4proto (f_proto (mdata (p_m s))) ->
  (forall s1, quiet s s1 -> is_return (ftuple (mdata (p_m s))) s = true ->
     wp (handle_return hw_cksum dp meta redirected) Q s1) ->
  (forall s1, quiet s s1 -> is_return (ftuple (mdata (p_m s))) s = false ->
     wp (if (meta_dst_ip meta =? hc_src (p_snap s)) && in_hc_range (meta_dst_port meta)
         then handle_hc_response meta
         else svc ← deref (find_service (p_snap s) (meta_dst_ip meta) (meta_dst_port meta) (meta_ip_protocol meta));
           match svc with
           | Some svc => handle_inbound hw_cksum dp svc meta redirected
           | None =>
             local ← deref (is_local (p_snap s) (meta_dst_ip meta));
             mret (drop (if (local : bool) then ST_DROP_NO_SERVICE else ST_DROP_NOT_LOCAL))
           end) Q s1) ->
  wp (handle_l4 hw_cksum dp meta redirected) Q s.
Proof.
  intros I P Hp H1 H2. pose proof P as [Pf Pm Pi Pl R]. unfold handle_l4. apply wp_bind, wp_gets. cbv zeta.
  apply wp_bind, when_quiet_wp; [intros; by apply stat_wp|]. intros s1 Q1.
  pose proof (sk_indexed _ _ (wi_snap _ _ _ _ _ _ I)) as X.
  pose proof (reports_tuple _ _ R Hp) as Ht.
  assert (Ed : meta_dst_ip meta = dst_ip (ftuple (mdata (p_m s)))) by (by rewrite <- Ht).
  assert (Ep : meta_dst_port meta = dst_port (ftuple (mdata (p_m s)))) by (by rewrite <- Ht).
  assert (Fin : forall b : bool,
    b && in_nat_range (meta_dst_port meta) = is_return (ftuple (mdata (p_m s))) s ->
    wp (if b && in_nat_range (meta_dst_port meta) then handle_return hw_cksum dp meta redirected
        else if (meta_dst_ip meta =? hc_src (p_snap s)) && in_hc_range (meta_dst_port meta)
         then handle_hc_response meta
         else svc ← deref (find_service (p_snap s) (meta_dst_ip meta) (meta_dst_port meta) (meta_ip_protocol meta));
           match svc with
           | Some svc => handle_inbound hw_cksum dp svc meta redirected
           | None =>
             local ← deref (is_local (p_snap s) (meta_dst_ip meta));
             mret (drop (if (local : bool) then ST_DROP_NO_SERVICE else ST_DROP_NOT_LOCAL))
           end) Q s1).
  { intros b Hb. destruct (b && _) eqn:E; [apply H1|apply H2]; congruence. }
  unfold is_return in Fin. rewrite <- Ed, <- Ep in Fin.
  apply wp_bind, wp_andM.
  - intros E. apply Fin. by rewrite E.
  - intros E. apply (wp_deref _ _ _ _ (ix_lip _ X _)). apply Fin. by rewrite E.
Qed.

Lemma not_return_case tuple s : is_return tuple s = false -> not_return tuple s.
Proof.
  unfold is_return, not_return. intros H Em Hd. rewrite bool_decide_true, bool_decide_true in H by (done || by right).
  exact H.
Qed.

(** Everything but return traffic. *)
Definition fwd_post (redirected : bool) s (r : Result) s' : Prop :=
  ok_post redirected s r s' /\
  (r = send -> in_post dp max_lcore (ftuple (mdata (p_m s))) redirected s r s').

Lemma handle_rest_wp meta redirected s s1 :
  inv s -> quiet s s1 -> parsed (mdata (p_m s)) meta -> l4proto (f_proto (mdata (p_m s))) ->
  is_return (ftuple (mdata (p_m s))) s = false ->
  wp (if (meta_dst_ip meta =? hc_src (p_snap s)) && in_hc_range (meta_dst_port meta)
      then handle_hc_response meta
      else svc ← deref (find_service (p_snap s) (meta_dst_ip meta) (meta_dst_port meta) (meta_ip_protocol meta));
        match svc with
        | Some svc => handle_inbound hw_cksum dp svc meta redirected
        | None =>
          local ← deref (is_local (p_snap s) (meta_dst_ip meta));
          mret (drop (if (local : bool) then ST_DROP_NO_SERVICE else ST_DROP_NOT_LOCAL))
        end) (fwd_post redirected s) s1.
Proof.
  intros I Q1 P Hp Hr. assert (I1 : inv s1) by (by eapply quiet_inv).
  pose proof (quiet_stable _ _ Q1) as S1. pose proof (qu_m _ _ Q1) as E1. pose proof (qu_snap _ _ Q1) as N1.
  pose proof (sk_indexed _ _ (wi_snap _ _ _ _ _ _ I)) as X. wp_if.
  { eapply wp_mono; [apply (handle_hc_response_wp meta redirected); rewrite ?E1; done|].
    intros r s' [H Hn]. split; [by eapply ok_trans|done]. }
  destruct (ix_svc _ X (meta_dst_ip meta) (meta_dst_port meta) (meta_ip_protocol meta)) as (o & Ho & _).
  apply wp_bind, (wp_deref _ o); [done|]. destruct o as [svc|].
  - destruct (found_service max_lcore _ _ _ _ _ (wi_snap _ _ _ _ _ _ I) Ho) as [_ Hs].
    eapply wp_mono; [apply (handle_inbound_wp hw_cksum dp max_lcore DP svc meta redirected s1); rewrite ?N1, ?E1; try done|].
    + apply not_return_case. unfold is_return in *. by rewrite N1.
    + intros r s' H. rewrite E1 in H. split; [eapply ok_trans; [exact S1|by eapply in_ok]|].
      intros _. by eapply in_post_trans.
  - apply wp_bind, (wp_deref _ _ _ _ (ix_local _ X _)). apply wp_ret. split; [|done].
    apply drop_ok; [done|done|]. destruct (bool_decide _); in_drop.
Qed.

Lemma is_return_nat tuple s : is_return tuple s = true -> Snapshot.mode (p_snap s) = NAT.
Proof. unfold is_return. rewrite !andb_true_iff, bool_decide_eq_true. intros H. apply H. Qed.

Definition l4_post (redirected : bool) s (r : Result) s' : Prop :=
  ok_post redirected s r s' /\
  (is_return (ftuple (mdata (p_m s))) s = false -> r = send ->
   in_post dp max_lcore (ftuple (mdata (p_m s))) redirected s r s').

Lemma handle_l4_wp meta redirected s :
  inv s -> parsed (mdata (p_m s)) meta -> l4proto (f_proto (mdata (p_m s))) ->
  wp (handle_l4 hw_cksum dp meta redirected) (l4_post redirected s) s.
Proof.
  intros I P Hp. apply handle_l4_case_wp; [done..| |]; intros s1 Q1 Hr.
  - pose proof (qu_m _ _ Q1) as E1. pose proof (qu_snap _ _ Q1) as N1.
    eapply wp_mono; [apply (handle_return_wp hw_cksum dp max_lcore DP meta redirected s1)|].
    + by eapply quiet_inv.
    + rewrite N1. by eapply is_return_nat.
    + by rewrite E1.
    + by rewrite E1.
    + intros r s' H. split; [|congruence]. eapply ok_trans; [|exact H]. by apply quiet_stable.
  - eapply wp_mono; [by apply handle_rest_wp|]. intros r s' [H1 H2]. by split.
Qed.

(** ** IPv4 packets *)

(** [handle_ipv4] gets past the checksum flags and the packet's own source. *)
Definition admitted (m : Mbuf) : Prop :=
  cksum_bad m = false /\ slice 6 6 (mdata m) <> local_mac dp.

Definition v4_post (redirected : bool) s (r : Result) s' : Prop :=
  ok_post redirected s r s' /\
  (l4proto (f_proto (mdata (p_m s))) -> is_return (ftuple (mdata (p_m s))) s = false -> r = send ->
   in_post dp max_lcore (ftuple (mdata (p_m s))) redirected s r s').

Lemma handle_ipv4_wp meta redirected s :
  inv s -> parsed (mdata (p_m s)) meta ->
  wp (handle_ipv4 hw_cksum dp meta redirected) (v4_post redirected s) s.
Proof.
  intros I P. pose proof P as [Pf Pm Pi Pl R]. unfold handle_ipv4. apply wp_bind, wp_gets.
  pose proof (sk_indexed _ _ (wi_snap _ _ _ _ _ _ I)) as X.
  assert (Drop : forall f, f ∈ drop_range -> v4_post redirected s (drop f) s).
  { intros f Hf. split; [apply drop_ok; [done|apply stable_refl|done]|done]. }
  wp_if; [apply wp_ret, Drop; in_drop|].
  wp_if; [apply wp_ret; split; [apply consumed_ok; [done|apply stable_refl]|done]|].
  apply wp_bind, wp_gets. cbv zeta. rewrite (rp_proto _ _ R). wp_if.
  - apply Z.eqb_eq in E1. apply wp_bind, (wp_deref _ _ _ _ (ix_local _ X _)).
    wp_if; [apply wp_ret, Drop; in_drop|].
    apply wp_bind, when_quiet_wp; [intros; by apply stat_wp|]. intros s1 Q1.
    pose proof (qu_m _ _ Q1) as Em. assert (I1 : inv s1) by (by eapply quiet_inv).
    eapply wp_mono; [apply (handle_icmp_wp meta redirected s1); [done|by rewrite Em|by rewrite Em]|].
    intros r s' H. split; [eapply ok_trans; [by apply quiet_stable|exact H]|].
    intros Hp _ _. rewrite E1 in Hp. by destruct Hp.
  - wp_if.
    + apply wp_bind, (wp_deref _ _ _ _ (ix_local _ X _)). apply wp_ret, Drop.
      destruct (bool_decide _); in_drop.
    + assert (Hp : l4proto (f_proto (mdata (p_m s)))).
      { unfold l4proto, IPProtocol_TCP, IPProtocol_UDP. bprop. lia. }
      eapply wp_mono; [by apply (handle_l4_wp meta redirected)|]. intros r s' [H1 H2]. split; auto.
Qed.

Lemma admitted_l4_wp meta redirected Q s :
  parsed (mdata (p_m s)) meta -> l4proto (f_proto (mdata (p_m s))) -> admitted (p_m s) ->
  wp (handle_l4 hw_cksum dp meta redirected) Q s ->
  wp (handle_ipv4 hw_cksum dp meta redirected) Q s.
Proof.
  intros [_ _ _ _ R] Hp [H1 H2] H. unfold handle_ipv4. apply wp_bind, wp_gets. rewrite H1.
  unfold Eth.mac_equal. rewrite (rp_smac _ _ R), bool_decide_false by done.
  apply wp_bind, wp_gets. cbv zeta. rewrite (rp_proto _ _ R). by destruct Hp as [->| ->].
Qed.

(** ** The entry point *)

(** The frames the first checks let through. *)
Definition good (bs : list Z) : Prop :=
  14 <= len bs /\ (f_type bs = EtherType_ARP
                   \/ f_type bs = EtherType_IPv4 /\ ip_wf bs /\ unfragmented bs /\ l4_wf bs).

Lemma process_packet_case_wp meta0 redirected Q s :
  frame (mdata (p_m s)) -> len (mdata (p_m s)) <= 65535 ->
  (forall f, f ∈ [ST_DROP_MALFORMED; ST_DROP_OTHER; ST_DROP_FRAGMENT] -> ~ good (mdata (p_m s)) -> Q (drop f) s) ->
  (f_type (mdata (p_m s)) = EtherType_ARP -> wp (handle_arp dp) Q s) ->
  (forall meta, f_type (mdata (p_m s)) = EtherType_IPv4 -> unfragmented (mdata (p_m s)) ->
     parsed (mdata (p_m s)) meta -> wp (handle_ipv4 hw_cksum dp meta redirected) Q s) ->
  wp (process_packet hw_cksum dp meta0 redirected) Q s.
Proof.
  intros Hf Hl HD HA H4. unfold process_packet. apply wp_bind, wp_gets. unfold data_len, good in *.
  wp_if; [apply wp_ret, HD; [set_solver|apply Z.ltb_lt in E; unfold Eth.HEADER_SIZE in E; lia]|].
  apply Z.ltb_ge in E. unfold Eth.HEADER_SIZE in E.
  apply wp_bind, onf_read_wp. unfold Eth.is_arp, Eth.get_ether_type, Eth.ether_type. repeat wp_step. split; [done|].
  change (0 + 12) with 12. fold (f_type (mdata (p_m s))). wp_if; [apply Z.eqb_eq in E0; by apply HA|].
  apply wp_bind, onf_read_wp. unfold Eth.is_ipv4, Eth.get_ether_type, Eth.ether_type. repeat wp_step. split; [done|].
  change (0 + 12) with 12. fold (f_type (mdata (p_m s))). apply Z.eqb_neq in E0. wp_if.
  { apply negb_true_iff, Z.eqb_neq in E1. apply wp_ret, HD; [set_solver|]. naive_solver. }
  apply negb_false_iff, Z.eqb_eq in E1. apply wp_bind, onf_read_wp.
  eapply wp_mono; [by apply parse_wp|]. intros [pr meta] b [-> H]. split; [done|]. cbn [fst snd] in H.
  destruct pr.
  - destruct H as (_ & _ & H). destruct (H E1) as (W1 & W2 & W3 & W4). by apply H4.
  - apply wp_ret, HD; [set_solver|]. intros [_ [G|(_ & G1 & _ & G2)]]; [by rewrite G in E1|].
    destruct H as [H|(_ & [H|(_ & _ & H)])]; [lia|done|done].
  - apply wp_ret, HD; [set_solver|]. destruct H as (_ & _ & Hn). intros [_ [G|(_ & _ & G & _)]]; [by rewrite G in E1|done].
Qed.

Lemma process_packet_wp meta0 redirected s :
  inv s -> frame (mdata (p_m s)) -> len (mdata (p_m s)) <= 65535 ->
  wp (process_packet hw_cksum dp meta0 redirected)
    (fun r s' => ok_post redirected s r s' /\
  (f_type (mdata (p_m s)) = EtherType_IPv4 -> v4_post redirected s r s')) s.
Proof.
  intros I Hf Hl. apply process_packet_case_wp; [done..| | |].
  - intros f Hd _. assert (ok_post redirected s (drop f) s).
    { apply drop_ok; [done|apply stable_refl|]. unfold drop_range. set_solver. }
    split; [done|]. intros _. by split.
  - intros Ht. eapply wp_mono; [by apply (handle_arp_wp redirected)|]. intros r s' H. split; [apply H|].
    rewrite Ht. done.
  - intros meta _ _ P. eapply wp_mono; [by apply (handle_ipv4_wp meta redirected)|]. intros r s' H. split; [apply H|done].
Qed.

End Main.
End ProcessorMain.
