(* ===== verification/ProcessorStart.v ===== *)
(** Where the packet path starts from: a published snapshot and a fresh worker
    satisfy what the packet path relies on, and a newer snapshot keeps it.  The
    small data plane at the end is used by the witnesses. *)
From Stdlib Require String.
From S2P Require Import Prelude Types TcpState Mem Headers Dpdk Session SessionInv SessionSpec SessionThms SessionProps SessionView Checksum Parser ParserThms Forward ForwardThms ForwardProps Steering Scheduler SchedulerThms SchedulerProps Config Snapshot SnapshotThms ManagerThms ManagerProps Neigh NeighProps Context Processor ProcessorInv ProcessorThms.
Import Tcp Session SessionSpec SessionThms SessionView Checksum Parser ParserThms Forward ForwardThms ForwardProps Steering Scheduler SchedulerProps Config Snapshot SnapshotThms ManagerThms ManagerProps Context Processor ProcessorInv ProcessorThms.

Module ProcessorStart.

(** ** Snapshots *)

(** The C++ types of a real server's fields. *)
Definition rs_typed (c : RsConf) : Prop :=
  is_u32 (rc_ip c) /\ is_u16 (rc_port c) /\ mac_wf (rc_mac c).

Section Start.
Context `{RH : RteHash FiveTuple} `{RL : !RteHashLaws FiveTuple RH} `{NH : RteHash Z}.
Context `{HF : RteHashFns} (max_lcore : nat).

(** What is published serves the packet path as long as the ids fit the
    counters. *)
Lemma published_ok m snap :
  reflects max_lcore m snap -> Forall is_u32 (local_ips_ m) ->
  Forall (fun id => 0 <= id < kMaxRsCounters) (ids (services_ m)) ->
  Forall (fun d => rs_typed (d_conf d)) (all_rs (services_ m)) ->
  snap_ok max_lcore snap.
Proof.
  intros R HL Hid Ht. rewrite Forall_forall in Hid. pose proof (rf_indexed _ _ _ R) as X.
  assert (M : forall id r, 0 <= id -> rs snap id = Some r -> rs_ok r).
  { intros id r H0 Hr. apply (rf_rs _ _ _ R) in Hr as (k & ds & d & Hk & Hd & <- & ->); [|done].
    assert (Ha : d ∈ all_rs (services_ m)) by (apply all_rs_elem; eauto).
    rewrite Forall_forall in Ht. destruct (Ht _ Ha) as (T1 & T2 & T3).
    split; cbn; [|done|by apply bswap16_is|done].
    apply Hid. unfold ids. by apply list_elem_of_fmap_2. }
  split; [done|..].
  - intros s (i & Hi)%list_elem_of_lookup. destruct (rf_built _ _ _ R i s Hi) as (ds & _ & B).
    exists (sc_sched (ds_conf ds)). apply B.
  - intros s r (i & Hi)%list_elem_of_lookup Hr. destruct (rf_built _ _ _ R i s Hi) as (ds & Hds & B).
    rewrite (sb_rs _ _ _ _ B) in Hr. apply list_elem_of_fmap in Hr as (d & -> & Hd).
    apply (rf_rs _ _ _ R); cbn; [|by exists i, ds, d].
    apply Hid. unfold ids. apply list_elem_of_fmap_2, all_rs_elem. eauto.
  - intros id r Hr. destruct (Z.le_gt_cases 0 id) as [H0|H0]; [by eapply M|].
    apply (M 0 r); [lia|]. revert Hr. unfold rs, len. 
    destruct (rs_by_id snap) as [|o l]; [by destruct (id <? _)|].
    rewrite (proj2 (Z.ltb_lt id _)), (proj2 (Z.ltb_lt 0 _)) by (cbn [length]; lia).
    by replace (Z.to_nat id) with 0%nat by lia.
  - by rewrite (rf_lips _ _ _ R).
Qed.

(** ** Workers *)

Context (dp : Dataplane (NH := NH)).

Definition timeouts_fit (c : TimeoutConf) : Prop :=
  forall st, 0 <= state_timeout st c < 4093.

Lemma fresh_timely t now :
  timeouts_fit (c_timeouts (dp_cfg dp)) -> 0 <= now < 2 ^ 62 -> cur_tick_ t = now -> timely dp t now.
Proof.
  intros F Hn E st. specialize (F st). rewrite E. unfold deadline, kWheelSlots.
  rewrite u64_id; [destruct (_ =? 0); lia|]. unfold is_u64. destruct (_ =? 0); lia.
Qed.

Lemma fresh_view capacity now t :
  0 < capacity <= 67108864 -> 0 <= now -> Session.init capacity now true = Some t -> view t = ∅.
Proof.
  intros Hc Hn Hi. destruct (init_spec capacity now t Hc Hn Hi) as (T & A & _).
  apply map_eq. intros i. rewrite lookup_empty. destruct (view t !! i) as [p|] eqn:E; [|done].
  assert (Hs : is_Some (abs t !! i)) by (apply abs_view; eauto). rewrite A, lookup_empty in Hs. by destruct Hs.
Qed.

(** A worker with a new session table. *)
Lemma fresh_winv capacity now t w snap :
  0 < capacity <= 67108864 -> 0 <= now < 2 ^ 62 -> Session.init capacity now true = Some t ->
  timeouts_fit (c_timeouts (dp_cfg dp)) -> snap_ok max_lcore snap -> 0 <= w < n_ (dp_steering dp) ->
  winv dp max_lcore t now w snap.
Proof.
  intros Hc Hn Hi F K Hw. destruct (init_spec capacity now t Hc ltac:(lia) Hi) as (T & A & _ & E).
  split; try done.
  - rewrite (fresh_view capacity now t) by (done || lia). apply map_Forall_empty.
  - by apply fresh_timely.
Qed.

(** A snapshot of the same mode and local addresses takes over. *)
Lemma winv_snapshot t now w snap snap' :
  winv dp max_lcore t now w snap -> snap_ok max_lcore snap' ->
  Snapshot.mode snap' = Snapshot.mode snap -> local_ips snap' = local_ips snap ->
  winv dp max_lcore t now w snap'.
Proof. intros [W1 W2 W3 W4 W5] K E1 E2. split; try done. by rewrite E1, E2. Qed.

End Start.

(** ** A small data plane: 10.0.0.100:80 in front of 10.0.0.2:8080, local
    address 10.0.0.200, two workers. *)

Definition demo_cfg : LbConfig :=
  mkLbConfig NAT 16 TimeoutConf_default true true 16777215 4261412874 [3355443210] 3355443210
    (mkHealthConf false 5000 3000 3 2)
    [mkServiceConf String.EmptyString 1677721610 80 6 WRR [mkRsConf 33554442 8080 1 [2;0;0;0;0;2]]].

Definition demo_dp : Dataplane (NH := gmap_hash Z) :=
  mkDp [2;0;0;0;0;9] 0 1500 demo_cfg (init_sw Steering0 2) (Route.init 3355443210 16777215 4261412874)
    NeighProps.demo_neigh.

Definition demo_mgr : SnapshotManager :=
  default Manager0 (Snapshot.init (HF := mix_fns) 4 Manager0 demo_cfg).
Definition demo_snap : Snapshot := default (mkSnapshot 0 NAT [] [] [] [] 0 [] [] [] []) (cur_ demo_mgr).

Lemma demo_published : reflects (HF := mix_fns) 4 demo_mgr demo_snap.
Proof.
  assert (V : validate demo_cfg = Some demo_cfg) by (vm_compute; reflexivity).
  destruct (init_ok (HF := mix_fns) 4 demo_cfg (validate_ok _ _ V)) as (m & snap & Hi & _ & Hc & R & _).
  { repeat constructor; cbn; zwrap; lia. }
  assert (E : demo_mgr = m) by (unfold demo_mgr; by rewrite Hi). unfold demo_snap. by rewrite E, Hc.
Qed.

Lemma demo_snap_ok : snap_ok (HF := mix_fns) 4 demo_snap.
Proof.
  apply (published_ok (HF := mix_fns) 4 demo_mgr); [exact demo_published|..].
  - assert (E : local_ips_ demo_mgr = [3355443210]) by (vm_compute; reflexivity). rewrite E.
    repeat constructor; zwrap; lia.
  - assert (E : ids (services_ demo_mgr) = [1]) by (vm_compute; reflexivity). rewrite E.
    repeat constructor; unfold kMaxRsCounters; lia.
  - assert (E : d_conf <$> all_rs (services_ demo_mgr) = [mkRsConf 33554442 8080 1 [2;0;0;0;0;2]])
      by (vm_compute; reflexivity).
    apply (Forall_fmap d_conf rs_typed). rewrite E. repeat constructor; cbn; zwrap; lia.
Qed.

Lemma demo_dp_ok : dp_ok demo_dp 4.
Proof.
  split; cbn [local_mac dp_mtu dp_steering demo_dp]; [|lia|apply init_sw_ok; cbn; [lia|unfold kMaxReta; lia|done|lia]|cbn; lia|lia].
  split; [done|]. repeat constructor; zwrap; lia.
Qed.

(** The worker that owns the client's connection. *)
Definition demo_w : WorkerCtx (RH := gmap_hash FiveTuple) :=
  mkCtx 1 SessionProps.tbl0 [] Stats0 ∅ [] 0 1 0.

Definition demo_state (m : Mbuf) : PState (RH := gmap_hash FiveTuple) := mkP demo_w m demo_snap [].

Lemma demo_inv m : inv (HF := mix_fns) demo_dp 4 (demo_state m).
Proof.
  apply (fresh_winv (HF := mix_fns) 4 demo_dp 4 1 SessionProps.tbl0);
    [lia|lia|exact SessionProps.tbl0_init| |exact demo_snap_ok|cbn; lia].
  intros []; cbn; lia.
Qed.

(** 10.0.0.1:1000 -> 10.0.0.100:80, SYN. *)
Definition demo_syn : list Z :=
  [2;0;0;0;0;9; 2;0;0;0;0;1; 8;0;
   69;0;0;40; 0;1;64;0; 64;6;0;0; 10;0;0;1; 10;0;0;100;
   3;232;0;80; 0;0;0;1; 0;0;0;0; 80;2;255;255; 0;0;0;0].

End ProcessorStart.
