(* ===== verification/ProcessorProps.v ===== *)
(** What a worker promises for a packet. *)
From S2P Require Import Prelude Types TcpState Mem Headers Dpdk Session SessionInv SessionSpec SessionThms SessionProps SessionView Checksum ChecksumThms Parser ParserThms Forward ForwardThms ForwardProps LocalThms Steering Scheduler SchedulerProps Config Snapshot SnapshotThms Neigh NeighProps Context Processor ProcessorInv ProcessorThms ProcessorNew ProcessorHandlers ProcessorMain ProcessorStart.
Import Tcp Session SessionSpec SessionView Checksum ChecksumThms Parser ParserThms Forward ForwardThms ForwardProps LocalThms Steering Scheduler SchedulerProps Config Snapshot SnapshotThms Context Processor ProcessorInv ProcessorThms ProcessorNew ProcessorHandlers ProcessorMain ProcessorStart.

Module ProcessorProps.

(** A TCP or UDP frame the packet path takes up. *)
Record l4_frame (bs : list Z) : Prop := {
  lf_frame : frame bs;
  lf_len : len bs <= 65535;
  lf_type : f_type bs = EtherType_IPv4;
  lf_ip : ip_wf bs;
  lf_frag : unfragmented bs;
  lf_l4 : l4_wf bs;
  lf_proto : l4proto (f_proto bs)
}.

(** The addresses of the load balancer. *)
Definition own_addrs (snap : Snapshot) : list IPv4Addr :=
  (s_vip <$> services snap) ++ local_ips snap ++ [hc_src snap].

(** An Ethernet/IPv4 ARP request for one of [own] that does not come from one
    of them. *)
Definition arp_wanted (own : list IPv4Addr) (bs : list Z) : Prop :=
  42 <= len bs
  /\ ntohs (get16 14 bs) = 1 /\ ntohs (get16 16 bs) = 2048 /\ get8 18 bs = 6 /\ get8 19 bs = 4
  /\ ntohs (get16 20 bs) = 1 /\ get32 28 bs ∉ own /\ get32 38 bs ∈ own.

Lemma arp_request_wanted `{HF : RteHashFns} max_lcore snap bs :
  snap_ok max_lcore snap -> (42 <= len bs -> get32 28 bs <> 0 /\ get32 38 bs <> 0) ->
  arp_request snap bs <-> arp_wanted (own_addrs snap) bs.
Proof.
  intros K Hnz. unfold arp_request, arp_wanted, own_addrs. rewrite !(ix_local _ (sk_indexed _ _ K)).
  rewrite !andb_true_iff, !Z.eqb_eq. split.
  - intros (H1 & H2 & [= H3%bool_decide_eq_false] & [= H4%bool_decide_eq_true]). specialize (Hnz H1). tauto.
  - intros (H1 & H2 & H3 & H4 & H5 & H6 & H7 & H8). specialize (Hnz H1).
    rewrite bool_decide_false, bool_decide_true; tauto.
Qed.

Section Props.
Context `{RH : RteHash FiveTuple} `{RL : !RteHashLaws FiveTuple RH} `{NH : RteHash Z}.
Context `{HF : RteHashFns} `{HL : !RteHashFnsLaws HF} `{MB : RteMbuf} `{ML : !RteMbufLaws MB}.
Implicit Types s : PState (RH := RH).

(** C1. Every frame of at most 65535 bytes, whatever its content, gets a verdict:
    no read or write leaves the packet, no array is indexed out of bounds and no
    null pointer is used, whether checksums are computed in software or by the
    NIC.  The worker's invariant (a consistent session table whose sessions belong
    to this worker, timeouts that fit the timing wheel at the worker's clock)
    survives; a drop has a drop reason; a packet is handed to another, existing
    worker only if it was not handed over before. *)
Theorem process_packet_total hw_cksum (dp : Dataplane (NH := NH)) max_lcore meta0 redirected s :
  dp_ok dp max_lcore ->
  inv dp max_lcore s -> frame (mdata (p_m s)) -> len (mdata (p_m s)) <= 65535 ->
  exists r s', process_packet hw_cksum dp meta0 redirected s = Some (r, s') /\
    inv dp max_lcore s' /\ stable s s' /\ res_ok dp redirected (idx (p_w s)) r.
Proof.
  intros DP I Hf Hl. rewrite <- wp_run.
  eapply wp_mono; [by apply (process_packet_wp hw_cksum dp max_lcore DP meta0 redirected)|].
  intros r s' [(H1 & H2 & H3) _]. done.
Qed.

(** C3. FULLNAT round trip: when a client's packet to a service is forwarded to a
    real server, the real server's answer (the reversed addresses and ports of
    what was sent) handled by the same worker goes back to the client with the
    reversed addresses and ports of the client's packet.  It is dropped only if
    the neighbour table, as it is when the answer arrives, has no MAC address
    for the client's next hop, or if the answer's TTL is used up. *)
Theorem fullnat_round_trip hw_cksum (dp : Dataplane (NH := NH)) max_lcore meta0 redirected redirected' s s1 m2 neigh :
  dp_ok dp max_lcore ->
  inv dp max_lcore s -> Snapshot.mode (p_snap s) = NAT -> l4_frame (mdata (p_m s)) ->
  is_return (ftuple (mdata (p_m s))) s = false ->
  process_packet hw_cksum dp meta0 redirected s = Some (send, s1) ->
  l4_frame (mdata m2) -> admitted dp m2 -> ftuple (mdata m2) = reverse (ftuple (mdata (p_m s1))) ->
  exists r s2, process_packet hw_cksum (with_neigh neigh dp) meta0 redirected' (set_m m2 s1) = Some (r, s2) /\
    inv dp max_lcore s2 /\
    (r = send /\ ftuple (mdata (p_m s2)) = reverse (ftuple (mdata (p_m s)))
     \/ r = drop ST_DROP_NO_NEIGH
        /\ unresolved (with_neigh neigh dp) (Route.next_hop (dp_route dp) (get32 26 (mdata (p_m s))))
     \/ r = drop ST_DROP_TTL /\ get8 22 (mdata m2) <= 1).
Proof.
  intros DP I Md [F1 F2 F3 F4 F5 F6 F7] Hret Hrun [G1 G2 G3 G4 G5 G6 G7] Ha Ht.
  pose proof (process_packet_wp hw_cksum dp max_lcore DP meta0 redirected s I F1 F2) as W.
  apply wp_run in W as (r & s' & E & W). rewrite Hrun in E. injection E as <- <-.
  destruct W as [_ W]. destruct (W F3) as [_ Win].
  destruct (Win F7 Hret eq_refl) as (I1 & S1 & _ & Hs).
  destruct (Hs eq_refl Md) as (i & p & rr & Hi & Hc & Hf & Hr & Hu).
  pose proof S1 as (_ & _ & Em & _). rewrite Hf in Ht. rewrite reverse_involutive in Ht.
  rewrite Md in Em. pose proof (so_nat _ _ _ _ _ (winv_sess _ _ _ _ _ _ _ _ I1 Hi) Em) as (N1 & N2 & N3 & N4 & N5).
  set (dp' := with_neigh neigh dp). pose proof (dp_ok_neigh neigh dp max_lcore DP) as DP'.
  assert (I1' : inv dp' max_lcore (set_m m2 s1)) by (by apply winv_neigh).
  rewrite <- wp_run. apply (process_packet_case_wp hw_cksum dp' max_lcore DP' meta0 redirected' _ (set_m m2 s1)); try done.
  - intros f _ Hn. destruct Hn. unfold good. cbn. destruct (G4) as (L & _). split; [lia|]. by right.
  - intros Hty. cbn in Hty. by rewrite Hty in G3.
  - intros meta _ _ P. apply (admitted_l4_wp hw_cksum dp'); [exact P|exact G7|exact Ha|].
    apply (handle_l4_case_wp hw_cksum dp' max_lcore meta redirected'); [exact I1'|done|done|..].
    + intros s2 Q2 _.
      eapply wp_mono; [eapply (handle_return_found_wp hw_cksum dp' max_lcore DP' meta redirected' i p rr s2)|].
      * by eapply (quiet_inv dp' max_lcore (set_m m2 s1)).
      * by rewrite (qu_snap _ _ Q2).
      * by rewrite (qu_m _ _ Q2).
      * by rewrite (qu_m _ _ Q2).
      * by rewrite (qu_tbl _ _ Q2).
      * by rewrite (qu_m _ _ Q2).
      * by rewrite (qu_snap _ _ Q2).
      * done.
      * intros r s3 (H1 & H2 & H3). split; [exact (proj1 (winv_neigh _ _ _ _ _ _ _) H1)|].
        rewrite Hc, (qu_m _ _ Q2) in H3. exact H3.
    + intros s2 Q2 Hn. exfalso. revert Hn. unfold is_return. cbn [p_snap p_m set_m]. rewrite Ht.
      rewrite bool_decide_true by done. rewrite N4.
      rewrite bool_decide_true; [done|]. right. exact N3.
Qed.

(** C13. SNAT port allocation: a new FULLNAT session gets a return key no live
    session uses, on a local address of the snapshot, with a port in
    [10000, 60000], and replies to it come back to this worker.  Without a
    session nothing changes but the cursors, and "no port" is reported only if
    every candidate tried on every local address was in use or another
    worker's. *)
Theorem create_fullnat_exact (dp : Dataplane (NH := NH)) max_lcore client r timeout s :
  dp_ok dp max_lcore -> inv dp max_lcore s -> Snapshot.mode (p_snap s) = NAT ->
  rs_ok r -> FiveTuple_wf client -> (exists st, timeout = state_timeout st (c_timeouts (dp_cfg dp))) ->
  lookup (tbl s) client = None -> fwd_owner (dp_steering dp) client = idx (p_w s) ->
  exists x s', create_fullnat dp client r timeout s = Some (x, s') /\ inv dp max_lcore s' /\
  match x with
  | inr i => exists k, dst_ip k ∈ local_ips (p_snap s) /\ src_ip k = r_ip r /\ src_port k = r_port_be r
      /\ kNatPortMin <= ntohs (dst_port k) <= kNatPortMax
      /\ ret_owner (dp_steering dp) k = idx (p_w s) /\ key_in_use (tbl s) k = false
      /\ lookup (tbl s') client = Some i /\ lookup (tbl s') k = Some i
  | inl f => tbl s' = tbl s /\ (f = ST_DROP_TABLE_FULL \/ f = ST_DROP_NO_PORT /\
      forall m, 0 <= m < len (local_ips (p_snap s)) -> exists c,
        blocked dp s client r (lip_at s (local_ips (p_snap s)) m) c
          (Z.to_nat (nat_probes (dp_steering dp) (protocol client))))
  end.
Proof.
  intros DP I Md Hr Hw Ht Hn Ho. rewrite <- wp_run.
  eapply wp_mono; [by apply (create_fullnat_wp dp max_lcore DP client r timeout)|].
  intros x s' H. destruct x as [f|i]; cbn in H.
  - destruct H as [Q H]. split; [by eapply quiet_inv|]. split; [apply Q|].
    destruct H as [H|[H1 H2]]; [by left|]. right. split; [done|]. intros m Hm. by apply H2.
  - destruct H as (lip & c & Hlip & [C1 C2 C3 C4 C5 C6] & Hown & Hran & Hfree). split; [done|].
    exists (candidate dp (idx (p_w s)) client r lip c). split; [done|]. split; [done|]. split; [done|].
    split.
    { unfold in_nat_range in Hran. apply andb_true_iff in Hran as [R1 R2].
      apply Z.geb_le in R1. apply Z.leb_le in R2. done. }
    split; [done|]. split; [done|].
    split; (apply lookup_view; [apply C1|]; eexists; split; [rewrite C6; apply lookup_insert_eq|]);
      [by left|by right].
Qed.

(** A TCP packet of an unknown connection that is not a SYN (with ACK and RST
    clear) creates no session: it is dropped and nothing else changes. *)
Theorem stray_segment_dropped hw_cksum (dp : Dataplane (NH := NH)) svc meta redirected s :
  meta_ip_protocol meta = 6 -> is_syn meta = false ->
  fwd_owner (dp_steering dp) (to_five_tuple meta) = idx (p_w s) ->
  lookup (tbl s) (to_five_tuple meta) = None ->
  handle_inbound hw_cksum dp svc meta redirected s = Some (drop ST_DROP_NO_SESSION, s).
Proof.
  intros Hp Hs Ho Hn. assert (W : wp (handle_inbound hw_cksum dp svc meta redirected)
    (fun r s' => r = drop ST_DROP_NO_SESSION /\ s' = s) s).
  { unfold handle_inbound; cbv zeta. apply wp_bind, wp_gets. rewrite Ho, Z.eqb_refl, Hs, Hp. cbn [negb andb].
    apply wp_bind, wp_ret. apply wp_bind. unfold inbound_lookup. apply wp_bind, wp_gets.
    change (sessions (p_w s)) with (tbl s). rewrite Hn. by do 2 apply wp_ret. }
  apply wp_run in W as (r & s' & E & -> & ->). exact E.
Qed.

(** A well-formed ICMP message to one of the load balancer's addresses that is
    no error message: an echo request is answered with its addresses swapped,
    TTL 64, the same identifier, sequence number and data, and correct IP and
    ICMP checksums; anything else is dropped.  Sessions are not touched. *)
Theorem echo_answered hw_cksum (dp : Dataplane (NH := NH)) max_lcore meta redirected s :
  dp_ok dp max_lcore -> inv dp max_lcore s -> parsed (mdata (p_m s)) meta ->
  f_proto (mdata (p_m s)) = IPProtocol_ICMP -> admitted dp (p_m s) ->
  is_local (p_snap s) (get32 30 (mdata (p_m s))) = Some true ->
  IcmpH.icmp_is_error (get8 (f_l4 (mdata (p_m s))) (mdata (p_m s))) = false ->
  exists r s', handle_ipv4 hw_cksum dp meta redirected s = Some (r, s') /\ tbl s' = tbl s /\
  if get8 (f_l4 (mdata (p_m s))) (mdata (p_m s)) =? IcmpH.ECHO_REQUEST
  then r = send /\ echoed (local_mac dp) (mdata (p_m s)) (mdata (p_m s'))
  else r = drop ST_DROP_OTHER.
Proof.
  intros DP I P Hp [Ha Hm] Hloc Herr. rewrite <- wp_run. pose proof P as [Pf Pm Pi Pl R].
  unfold handle_ipv4. apply wp_bind, wp_gets. rewrite Ha. unfold Eth.mac_equal.
  rewrite (rp_smac _ _ R), bool_decide_false by done. apply wp_bind, wp_gets. cbv zeta.
  rewrite (rp_proto _ _ R), Hp. change (IPProtocol_ICMP =? 1) with true. cbv iota.
  apply wp_bind, (wp_deref _ true); [by rewrite (rp_dip _ _ R)|]. cbn [negb].
  apply wp_bind, when_quiet_wp; [intros; by apply stat_wp|]. intros s1 Q1.
  pose proof (qu_m _ _ Q1) as Em. destruct Pl as (_ & _ & Pc). specialize (Pc Hp).
  pose proof Pi as (P1 & P2 & P3 & P4). assert (E4 : f_l4 (mdata (p_m s)) = 14 + f_ihl (mdata (p_m s))) by done.
  unfold handle_icmp, IcmpH.type. rewrite (rp_l4 _ _ R). apply wp_bind, onf_read_wp. rewrite Em.
  apply wp_rd8; [lia|lia|]. split; [done|]. rewrite Herr.
  eapply wp_mono; [apply (echo_reply_wp dp max_lcore DP meta redirected s1); rewrite ?Em; try done; by eapply quiet_inv|].
  intros r s' (_ & Ht & H). rewrite Em, (qu_tbl _ _ Q1) in *. split; [done|].
  destruct H as [(H1 & H2 & H3)|[H1 H2]].
  - by rewrite (proj2 (Z.eqb_eq _ _)).
  - by rewrite (proj2 (Z.eqb_neq _ _)) by done.
Qed.

(** C36. ARP, for frames in which neither the sender nor the target address is
    0.0.0.0: a frame is answered exactly if it is an Ethernet/IPv4 request for an
    address of the load balancer (a service's, a local or the health-check
    address) whose sender address is not one of them; the answer carries the
    load balancer's MAC for the requested address to the requester.  Every other
    frame leaves packet and sessions alone.  (A probe from 0.0.0.0 is the subject
    of [arp_probe_swallowed].) *)
Theorem arp_answered_exactly (dp : Dataplane (NH := NH)) max_lcore s :
  dp_ok dp max_lcore -> inv dp max_lcore s -> frame (mdata (p_m s)) ->
  (42 <= len (mdata (p_m s)) -> get32 28 (mdata (p_m s)) <> 0 /\ get32 38 (mdata (p_m s)) <> 0) ->
  exists r s', handle_arp dp s = Some (r, s') /\ inv dp max_lcore s' /\ tbl s' = tbl s /\
    (r = send /\ arp_wanted (own_addrs (p_snap s)) (mdata (p_m s))
       /\ arp_answered (local_mac dp) (mdata (p_m s)) (mdata (p_m s'))
     \/ r <> send /\ ~ arp_wanted (own_addrs (p_snap s)) (mdata (p_m s)) /\ p_m s' = p_m s).
Proof.
  intros DP I Hf Hnz. rewrite <- wp_run.
  eapply wp_mono; [by apply (handle_arp_wp dp max_lcore DP false)|].
  intros r s' ((H1 & _) & H2 & H3). split; [done|]. split; [done|].
  rewrite (arp_request_wanted max_lcore) in H3 by (done || apply I).
  destruct H3 as [H3|([->| ->] & H3 & H4)]; [by left|by right|by right].
Qed.

(** ARP probes (RFC 5227: sender address 0.0.0.0) for an address of the load
    balancer are not answered, because the address sets report 0.0.0.0 as a
    member; the branch that would answer without learning the sender cannot be
    reached. *)
Theorem arp_probe_swallowed (dp : Dataplane (NH := NH)) max_lcore s :
  dp_ok dp max_lcore -> inv dp max_lcore s -> frame (mdata (p_m s)) -> get32 28 (mdata (p_m s)) = 0 ->
  exists r s', handle_arp dp s = Some (r, s') /\ r <> send /\ p_m s' = p_m s.
Proof.
  intros DP I Hf H0. rewrite <- wp_run.
  eapply wp_mono; [by apply (handle_arp_wp dp max_lcore DP false)|].
  intros r s' (_ & _ & H). destruct H as [(_ & (_ & _ & Hl & _) & _)|([->| ->] & _ & H4)]; [|done|done].
  exfalso. rewrite H0, (ix_local _ (sk_indexed _ _ (wi_snap _ _ _ _ _ _ I))) in Hl.
  rewrite bool_decide_true in Hl by (by left). done.
Qed.

End Props.

(** ** Witnesses *)

Lemma process_packet_total_witness :
  exists r s', process_packet (HF := mix_fns) (MB := flat_mbuf) false demo_dp meta0 false
                 (demo_state (mbuf_of demo_syn)) = Some (r, s') /\ inv (HF := mix_fns) demo_dp 4 s'.
Proof.
  destruct (process_packet_total (HF := mix_fns) (MB := flat_mbuf) false demo_dp 4 meta0 false
              (demo_state (mbuf_of demo_syn)) demo_dp_ok (demo_inv _)) as (r & s' & H & I & _).
  - apply frameb_frame. vm_compute. reflexivity.
  - vm_compute. discriminate.
  - exists r, s'. split; [exact H|exact I].
Defined.

(** The worker after the SYN. *)
Definition demo_after : PState (RH := gmap_hash FiveTuple) :=
  default (demo_state (mbuf_of demo_syn))
    (snd <$> process_packet (HF := mix_fns) (MB := flat_mbuf) false demo_dp meta0 false
               (demo_state (mbuf_of demo_syn))).

Lemma demo_after_eq :
  process_packet (HF := mix_fns) (MB := flat_mbuf) false demo_dp meta0 false
    (demo_state (mbuf_of demo_syn)) = Some (send, demo_after).
Proof.
  unfold demo_after. set (x := process_packet _ _ _ _ _).
  assert (E : fst <$> x = Some send) by (vm_compute; reflexivity).
  destruct x as [[r s']|]; [|discriminate]. injection E as ->. reflexivity.
Qed.

(** 10.0.0.2:8080 -> 10.0.0.200:10001, SYN ACK. *)
Definition demo_synack : list Z :=
  [2;0;0;0;0;9; 2;0;0;0;0;2; 8;0;
   69;0;0;40; 0;1;64;0; 64;6;0;0; 10;0;0;2; 10;0;0;200;
   31;144;39;17; 0;0;0;7; 0;0;0;2; 80;18;255;255; 0;0;0;0].

Ltac solve_l4_frame :=
  split; [apply frameb_frame; vm_compute; reflexivity|vm_compute; discriminate|vm_compute; reflexivity
         |repeat split; vm_compute; congruence|repeat split; vm_compute; congruence
         |repeat split; intros; vm_compute in *; congruence|left; vm_compute; reflexivity].

Lemma demo_syn_l4 : l4_frame demo_syn.
Proof. solve_l4_frame. Qed.
Lemma demo_synack_l4 : l4_frame demo_synack.
Proof. solve_l4_frame. Qed.

Lemma fullnat_round_trip_witness :
  exists r s2, process_packet (HF := mix_fns) (MB := flat_mbuf) false (with_neigh NeighProps.demo_neigh demo_dp) meta0 true
                 (set_m (mbuf_of demo_synack) demo_after) = Some (r, s2)
    /\ r = send /\ ftuple (mdata (p_m s2)) = reverse (ftuple demo_syn).
Proof.
  destruct (fullnat_round_trip (HF := mix_fns) (MB := flat_mbuf) false demo_dp 4 meta0 false true
              (demo_state (mbuf_of demo_syn)) demo_after (mbuf_of demo_synack) NeighProps.demo_neigh demo_dp_ok
              (demo_inv _)) as (r & s2 & H & _ & Hc).
  - vm_compute. reflexivity.
  - exact demo_syn_l4.
  - vm_compute. reflexivity.
  - exact demo_after_eq.
  - exact demo_synack_l4.
  - split; [vm_compute; reflexivity|vm_compute; discriminate].
  - vm_compute. reflexivity.
  - exists r, s2. split; [exact H|].
    assert (E : fst <$> process_packet (HF := mix_fns) (MB := flat_mbuf) false (with_neigh NeighProps.demo_neigh demo_dp) meta0 true
                 (set_m (mbuf_of demo_synack) demo_after) = Some send) by (vm_compute; reflexivity).
    rewrite H in E. change (Some r = Some send) in E. injection E as ->. clear H.
    destruct Hc as [[_ Hc]|[[Hc _]|[Hc _]]]; [|discriminate Hc|discriminate Hc]. split; [reflexivity|exact Hc].
Defined.

Definition demo_rs : RsState := mkRsState 1 0 33554442 (htons 8080) 8080 [2;0;0;0;0;2] 1 true true.

Lemma create_fullnat_exact_witness :
  exists x s', create_fullnat (HF := mix_fns) demo_dp (ftuple demo_syn) demo_rs 10
                 (demo_state (mbuf_of demo_syn)) = Some (x, s') /\ inv (HF := mix_fns) demo_dp 4 s'.
Proof.
  destruct (create_fullnat_exact (HF := mix_fns) demo_dp 4 (ftuple demo_syn) demo_rs 10
              (demo_state (mbuf_of demo_syn)) demo_dp_ok (demo_inv _)) as (x & s' & H & I & _).
  - vm_compute. reflexivity.
  - split; [vm_compute; split; congruence|vm_compute; split; congruence|vm_compute; split; congruence|].
    split; [reflexivity|]. apply frameb_frame. vm_compute. reflexivity.
  - repeat split; vm_compute; congruence.
  - exists SYN_RECV. reflexivity.
  - vm_compute. reflexivity.
  - vm_compute. reflexivity.
  - exists x, s'. split; [exact H|exact I].
Defined.

(** The same connection, ACK only. *)
Definition demo_ack : list Z :=
  [2;0;0;0;0;9; 2;0;0;0;0;1; 8;0;
   69;0;0;40; 0;1;64;0; 64;6;0;0; 10;0;0;1; 10;0;0;100;
   3;232;0;80; 0;0;0;1; 0;0;0;0; 80;16;255;255; 0;0;0;0].

Lemma stray_segment_dropped_witness :
  exists svc, services demo_snap !! 0%nat = Some svc /\
  handle_inbound (HF := mix_fns) (MB := flat_mbuf) false demo_dp svc (meta_of demo_ack) false
    (demo_state (mbuf_of demo_ack)) = Some (drop ST_DROP_NO_SESSION, demo_state (mbuf_of demo_ack)).
Proof.
  destruct (services demo_snap !! 0%nat) as [svc|] eqn:E; [|vm_compute in E; discriminate].
  exists svc. split; [reflexivity|].
  apply (stray_segment_dropped (HF := mix_fns) (MB := flat_mbuf) false demo_dp svc
    (meta_of demo_ack) false (demo_state (mbuf_of demo_ack))); vm_compute; reflexivity.
Defined.

(** Echo request 10.0.0.1 -> 10.0.0.100. *)
Definition demo_ping : list Z :=
  [2;0;0;0;0;9; 2;0;0;0;0;1; 8;0;
   69;0;0;32; 0;1;64;0; 64;1;0;0; 10;0;0;1; 10;0;0;100;
   8;0;0;0; 0;7;0;1; 1;2;3;4].

Lemma echo_answered_witness :
  exists s', handle_ipv4 (HF := mix_fns) (MB := flat_mbuf) false demo_dp (meta_of demo_ping) false
    (demo_state (mbuf_of demo_ping)) = Some (send, s') /\ echoed (local_mac demo_dp) demo_ping (mdata (p_m s')).
Proof.
  destruct (echo_answered (HF := mix_fns) (MB := flat_mbuf) false demo_dp 4 (meta_of demo_ping) false
              (demo_state (mbuf_of demo_ping)) demo_dp_ok (demo_inv _)) as (r & s' & H & _ & Hr).
  - solve_parsed.
  - vm_compute. reflexivity.
  - split; [vm_compute; reflexivity|vm_compute; discriminate].
  - vm_compute. reflexivity.
  - vm_compute. reflexivity.
  - destruct Hr as [-> Hr]. exists s'. split; [exact H|exact Hr].
Defined.

(** Who has 10.0.0.100?  Tell the sender. *)
Definition demo_arp (a b c d : Z) : list Z :=
  [255;255;255;255;255;255; 2;0;0;0;0;1; 8;6;
   0;1;8;0; 6;4;0;1; 2;0;0;0;0;1; a;b;c;d; 0;0;0;0;0;0; 10;0;0;100].

Lemma arp_answered_exactly_witness :
  exists s', handle_arp (HF := mix_fns) demo_dp (demo_state (mbuf_of (demo_arp 10 0 0 1))) = Some (send, s')
    /\ arp_answered (local_mac demo_dp) (demo_arp 10 0 0 1) (mdata (p_m s')).
Proof.
  destruct (arp_answered_exactly (HF := mix_fns) demo_dp 4 (demo_state (mbuf_of (demo_arp 10 0 0 1)))
              demo_dp_ok (demo_inv _)) as (r & s' & H & _ & _ & Hr).
  - apply frameb_frame. vm_compute. reflexivity.
  - intros _. vm_compute. split; congruence.
  - destruct Hr as [(-> & _ & Hr)|(_ & Hn & _)].
    + exists s'. split; [exact H|exact Hr].
    + destruct Hn. apply (arp_request_wanted (HF := mix_fns) 4); [exact demo_snap_ok| |].
      * intros _. vm_compute. split; congruence.
      * repeat split; vm_compute; congruence.
Defined.

Lemma arp_probe_swallowed_witness :
  is_local demo_snap (get32 38 (demo_arp 0 0 0 0)) = Some true /\
  exists r s', handle_arp (HF := mix_fns) demo_dp (demo_state (mbuf_of (demo_arp 0 0 0 0))) = Some (r, s')
    /\ r <> send /\ p_m s' = mbuf_of (demo_arp 0 0 0 0).
Proof.
  split; [vm_compute; reflexivity|].
  apply (arp_probe_swallowed (HF := mix_fns) demo_dp 4 (demo_state (mbuf_of (demo_arp 0 0 0 0)))
           demo_dp_ok (demo_inv _)).
  - apply frameb_frame. vm_compute. reflexivity.
  - vm_compute. reflexivity.
Defined.

End ProcessorProps.
