(* ===== verification/Worker.v ===== *)
(** The worker loop: src/dataplane/worker.cpp.

    [worker_round] is the body of the loop in [worker_loop]; it runs as often as
    [g_running] is found set.  [g_dp.snapshots.current()] may return a newer
    snapshot in each round.  The master changes [g_dp.neigh] while the workers
    run: [neigh_at] gives the neighbour table a packet meets.  Reporting
    quiescence and log messages have no effect on the model's state. *)
From S2P Require Import Prelude Types TcpState Mem Headers Dpdk Session Parser Steering Config Snapshot Neigh Context Processor.
Import Tcp Session Parser Steering Config Snapshot Context Processor.

Module Worker.

(** The constants of [g_dp] the loops use. *)
Record LoopConf := mkLoopConf {
  pipeline : bool;
  num_workers : Z;
  num_rx_queues : Z;
  tsc_hz : Z;
  start_tsc : Z;
  present : list bool
}.

Section Worker.
Context `{RH : RteHash FiveTuple} `{NH : RteHash Z} `{HF : RteHashFns} `{MB : RteMbuf} `{IO : RteIo}.
Context (hw_cksum : bool) (dp : Dataplane (NH := NH)) (lc : LoopConf) (meta0 : PacketMeta).

Record WState := mkWS {
  ws_w : WorkerCtx (RH := RH);
  ws_snap : Snapshot;
  ws_evs : list MasterEvent;
  ws_io : world;
  ws_busy : BusyMeter;
  ws_loops : Z
}.

(** [g_dp.neigh] at the moment a packet is processed; any function. *)
Context (neigh_at : WState -> Neigh.NeighTable (RH := NH)).

Definition set_ctx (v : WorkerCtx) (s : WState) : WState :=
  mkWS v (ws_snap s) (ws_evs s) (ws_io s) (ws_busy s) (ws_loops s).
Definition set_io (v : world) (s : WState) : WState :=
  mkWS (ws_w s) (ws_snap s) (ws_evs s) v (ws_busy s) (ws_loops s).

Definition onctx (f : WorkerCtx -> WorkerCtx) : ST WState unit :=
  modify (fun s => set_ctx (f (ws_w s)) s).
Definition io {A} (f : world -> A * world) : ST WState A :=
  fun s => let '(a, x) := f (ws_io s) in Some (a, set_io x s).
Definition free_mbuf (m : Mbuf) : ST WState unit := io (fun x => (tt, rte_pktmbuf_free m x)).

(** for (...) body(x) *)
Fixpoint each {A} (body : A -> ST WState unit) (l : list A) : ST WState unit :=
  match l with
  | [] => mret tt
  | x :: l => _ ← body x; each body l
  end.

Definition sum_len (l : list Mbuf) : Z := foldl (fun n m => u64 (n + pkt_len m)) 0 l.

Definition tx_flush : ST WState unit :=
  b ← gets (fun s => tx (ws_w s));
  if len b =? 0 then mret tt
  else
    q ← gets (fun s => idx (ws_w s));
    nb ← io (rte_eth_tx_burst q b);
    _ ← onctx (count ST_TX nb);
    _ ← onctx (count_bytes BS_TX (sum_len (take (Z.to_nat nb) b)));
    _ ← when (nb <? len b)
          (_ ← onctx (count ST_TX_FULL (len b - nb));
           each free_mbuf (skipn (Z.to_nat nb) b));
    onctx (set_tx []).

Definition tx_buffer_add (m : Mbuf) : ST WState unit :=
  b ← gets (fun s => tx (ws_w s));
  if len b >=? BURST_SIZE then fault
  else
    _ ← onctx (set_tx (b ++ [m]));
    when (len b + 1 >=? BURST_SIZE) tx_flush.

(** process_packet on the worker's context; the packet is rewritten in place. *)
Definition run_packet (m : Mbuf) (redirected : bool) : ST WState (Result * Mbuf) := fun s =>
  match process_packet hw_cksum (with_neigh (neigh_at s) dp) meta0 redirected (mkP (ws_w s) m (ws_snap s) (ws_evs s)) with
  | Some (r, p) =>
    Some ((r, p_m p), mkWS (p_w p) (p_snap p) (p_evs p) (ws_io s) (ws_busy s) (ws_loops s))
  | None => None
  end.

Definition handle (redirected : bool) (m : Mbuf) : ST WState unit :=
  '(r, m) ← run_packet m redirected;
  match verdict r with
  | SEND => tx_buffer_add m
  | REDIRECT =>
    to ← deref (present lc !! Z.to_nat (target r));
    ok ← (if (to : bool) then io (rte_ring_mp_enqueue (REDIRECT_RING (target r)) m) else mret false);
    if (ok : bool) then onctx (count ST_REDIRECT_OUT 1)
    else _ ← onctx (count ST_DROP_REDIRECT 1); free_mbuf m
  | DROP => _ ← onctx (count (reason r) 1); free_mbuf m
  | CONSUMED => free_mbuf m
  end.

(** The RX queues idx, idx + N, ... of a worker. *)
Fixpoint rx_queues (fuel : nat) (q : Z) : list Z :=
  match fuel with
  | O => []
  | S fuel => if q <? num_rx_queues lc then q :: rx_queues fuel (u16 (q + num_workers lc)) else []
  end.
Definition rxqs (idx : Z) : list Z :=
  if pipeline lc then [] else rx_queues (Z.to_nat (num_rx_queues lc)) idx.

Definition poll_ring (r : ring) (redirected : bool) (id : Stat) : ST WState Z :=
  l ← io (rte_ring_sc_dequeue_burst r);
  _ ← when (negb (len l =? 0))
        (_ ← onctx (count id (len l)); each (handle redirected) l);
  mret (len l).

Definition poll_queue (q : Z) : ST WState Z :=
  l ← io (rte_eth_rx_burst q);
  _ ← when (negb (len l =? 0))
        (_ ← onctx (count ST_RX (len l));
         _ ← onctx (count_bytes BS_RX (sum_len l));
         each (handle false) l);
  mret (len l).

Fixpoint poll_queues (qs : list Z) : ST WState Z :=
  match qs with
  | [] => mret 0
  | q :: qs => n ← poll_queue q; work ← poll_queues qs; mret (n + work)
  end.

(** busy.loop(work != 0, w.stats) *)
Definition busy_step (had_work : bool) : ST WState unit :=
  b ← gets ws_busy;
  now ← (if u32 (bm_n b + 1) <? kWindow then mret 0 else io rte_rdtsc);
  modify (fun s =>
    let '(b, st) := busy_loop had_work now (ws_busy s) (stats (ws_w s)) in
    mkWS (set_stats st (ws_w s)) (ws_snap s) (ws_evs s) (ws_io s) b (ws_loops s)).

Definition ms_of (tsc : Z) : Z := u64 (u64 (tsc - start_tsc lc) * 1000) / tsc_hz lc.
Definition tick_of (tsc : Z) : Z := u64 (1 + ms_of tsc / 1000).

(** Every 1024 rounds: read the clock and expire sessions. *)
Definition clock_step : ST WState unit :=
  _ ← modify (fun s => mkWS (ws_w s) (ws_snap s) (ws_evs s) (ws_io s) (ws_busy s) (u64 (ws_loops s + 1)));
  loops ← gets ws_loops;
  if Z.land loops 1023 =? 0 then
    if tsc_hz lc =? 0 then fault
    else
      tsc ← io rte_rdtsc;
      _ ← onctx (set_now (tick_of tsc) (ms_of tsc));
      w ← gets ws_w;
      '(t, n) ← deref (expire (sessions w) (now_tick w));
      _ ← onctx (set_sessions t);
      when (negb (n =? 0)) (onctx (count ST_SESS_EXPIRED n))
  else mret tt.

(** The part of a round before the clock: packets; [current] is a newly
    published snapshot. *)
Definition worker_polls (current : option Snapshot) : ST WState unit :=
  _ ← modify (fun s => mkWS (ws_w s) (default (ws_snap s) current) (ws_evs s) (ws_io s) (ws_busy s) (ws_loops s));
  i ← gets (fun s => idx (ws_w s));
  work ← (if pipeline lc then poll_ring (RX_RING i) false ST_RING_IN else poll_queues (rxqs i));
  nr ← poll_ring (REDIRECT_RING i) true ST_REDIRECT_IN;
  _ ← tx_flush;
  busy_step (negb (work + nr =? 0)).

(** One round. *)
Definition worker_round (current : option Snapshot) : ST WState unit :=
  _ ← worker_polls current; clock_step.

(** The loop, one element per round in which [g_running] was set. *)
Fixpoint worker_loop (rounds : list (option Snapshot)) : ST WState unit :=
  match rounds with
  | [] => tx_flush
  | current :: rounds => _ ← worker_round current; worker_loop rounds
  end.

End Worker.
End Worker.
