(* ===== verification/ProcessorFrame.v ===== *)
(** What the packet path leaves alone, and which packets it hands over.

    It uses two partial-correctness judgements on stateful computations that
    follow their structure: what a computation leaves alone ([keeps]) and which
    results it can have ([yields]). *)
From S2P Require Import Prelude Types TcpState Mem Headers Dpdk Session Checksum Parser Forward Steering Scheduler Config Snapshot Neigh Context Processor.
Import Tcp Session Checksum Parser Forward Steering Scheduler Config Snapshot Context Processor.

(** ** Judgements *)

Section Judgements.
Context {S : Type}.

Definition keeps {X A} (f : S -> X) (k : ST S A) : Prop :=
  forall s a s', k s = Some (a, s') -> f s' = f s.

Definition yields {A} (P : A -> Prop) (k : ST S A) : Prop :=
  forall s a s', k s = Some (a, s') -> P a.

Lemma bind_inv {A B} (k : ST S A) (g : A -> ST S B) s b s' :
  (k ≫= g) s = Some (b, s') -> exists a s1, k s = Some (a, s1) /\ g a s1 = Some (b, s').
Proof. unfold mbind, ST_bind. destruct (k s) as [[a s1]|]; [eauto|done]. Qed.

Section Keeps.
Context {X : Type} (f : S -> X).

Lemma keeps_ret {A} (a : A) : keeps f (mret a : ST S A).
Proof. by intros s b s' [= _ <-]. Qed.

Lemma keeps_fault {A} : keeps f (fault : ST S A).
Proof. by intros s b s'. Qed.

Lemma keeps_bind {A B} (k : ST S A) (g : A -> ST S B) :
  keeps f k -> (forall a, keeps f (g a)) -> keeps f (k ≫= g).
Proof. intros H1 H2 s b s' (a & s1 & E1%H1 & E2%H2)%bind_inv. congruence. Qed.

Lemma keeps_gets {A} (h : S -> A) : keeps f (gets h).
Proof. by intros s b s' [= _ <-]. Qed.

Lemma keeps_modify (h : S -> S) : (forall s, f (h s) = f s) -> keeps f (modify h).
Proof. intros H s b s' [= _ <-]. apply H. Qed.

Lemma keeps_when b (k : ST S unit) : keeps f k -> keeps f (when b k).
Proof. intros H. destruct b; [done|apply keeps_ret]. Qed.

Lemma keeps_zoom {T A} get set (k : ST T A) :
  (forall t s, f (set t s) = f s) -> keeps f (zoom get set k).
Proof. intros H s b s'. unfold zoom. destruct (k (get s)) as [[a t]|]; [|done]. intros [= _ <-]. apply H. Qed.

End Keeps.

Section Yields.
Context {A : Type} (P : A -> Prop).

Lemma yields_ret (a : A) : P a -> yields P (mret a : ST S A).
Proof. by intros H s b s' [= <- _]. Qed.

Lemma yields_fault : yields P (fault : ST S A).
Proof. by intros s b s'. Qed.

Lemma yields_bind {B} (k : ST S B) (g : B -> ST S A) :
  (forall b, yields P (g b)) -> yields P (k ≫= g).
Proof. intros H s b s' (a & s1 & _ & E2%H)%bind_inv. done. Qed.

End Yields.

(** Frame facts carry over to total correctness. *)
Lemma wp_keeps {X A} (f : S -> X) (k : ST S A) Q s :
  keeps f k -> wp k Q s -> wp k (fun a s' => Q a s' /\ f s' = f s) s.
Proof.
  intros H. unfold wp. destruct (k s) as [[a s']|] eqn:E; [|done]. intros HQ. split; [done|]. by eapply H.
Qed.

Lemma wp_yields {A} (P : A -> Prop) (k : ST S A) Q s :
  yields P k -> wp k Q s -> wp k (fun a s' => Q a s' /\ P a) s.
Proof.
  intros H. unfold wp. destruct (k s) as [[a s']|] eqn:E; [|done]. intros HQ. split; [done|]. by eapply H.
Qed.

End Judgements.

Create HintDb keeps.
#[export] Hint Resolve keeps_ret keeps_fault keeps_gets : keeps.

(** Walk down a computation; calls are settled by the hints. *)
Ltac keeps_step :=
  match goal with
  | |- forall _, _ => intros ?
  | |- keeps _ (mbind _ _) => apply keeps_bind
  | |- keeps _ (when _ _) => apply keeps_when
  | |- keeps _ (modify _) => apply keeps_modify; [intros; reflexivity]
  | |- keeps _ (if ?b then _ else _) => destruct b
  | |- keeps _ (match ?x with _ => _ end) => destruct x
  | |- keeps _ (let '(_, _) := ?x in _) => destruct x
  | |- keeps _ _ => solve [eauto with keeps]
  end.
Ltac keeps_solve := repeat keeps_step.

Create HintDb yields.

Ltac yields_step :=
  match goal with
  | |- forall _, _ => intros ?
  | |- yields _ (mbind _ _) => apply yields_bind
  | |- yields _ (if ?b then _ else _) => destruct b
  | |- yields _ (match ?x with _ => _ end) => destruct x
  | |- yields _ (mret _) => apply yields_ret; done
  | |- yields _ _ => solve [eauto with yields]
  end.
Ltac yields_solve := repeat yields_step.

(** ** The packet path *)

Module ProcessorFrame.

Section Frame.
Context `{RH : RteHash FiveTuple} `{NH : RteHash Z} `{HF : RteHashFns} `{MB : RteMbuf}.
Context (hw_cksum : bool) (dp : Dataplane (NH := NH)).
Implicit Types s : PState (RH := RH).

(** ** The TX buffer *)

Definition txb s : list Mbuf := tx (p_w s).

Lemma keeps_onm {A} (k : ST Mbuf A) : keeps txb (onm k).
Proof. by apply keeps_zoom. Qed.
Lemma keeps_onf {A} (k : ST (list Z) A) : keeps txb (onf k).
Proof. apply keeps_onm. Qed.
Lemma keeps_deref {A} (o : option A) : keeps txb (deref o).
Proof. destruct o; [apply keeps_ret|apply keeps_fault]. Qed.
Lemma keeps_andM b (k : ST PState bool) : keeps txb k -> keeps txb (andM b k).
Proof. destruct b; [done|]. intros _. apply keeps_ret. Qed.
#[local] Hint Resolve keeps_onm keeps_onf keeps_deref keeps_andM : keeps.

Lemma keeps_rs_count id g : keeps txb (rs_count id g).
Proof. unfold rs_count, onw. keeps_solve. Qed.
Lemma keeps_sess i : keeps txb (sess i).
Proof. apply keeps_gets. Qed.
Lemma keeps_table : keeps txb table.
Proof. apply keeps_gets. Qed.
Lemma keeps_set_table t : keeps txb (set_table t).
Proof. unfold set_table, onw. keeps_solve. Qed.
Lemma keeps_sess_upd i g : keeps txb (sess_upd i g).
Proof. unfold sess_upd, onw. keeps_solve. Qed.
Lemma keeps_stat id : keeps txb (stat id).
Proof. unfold stat, onw. keeps_solve. Qed.
Lemma keeps_post ev : keeps txb (post_master_event ev).
Proof. unfold post_master_event. keeps_solve. Qed.
#[local] Hint Resolve keeps_rs_count keeps_sess keeps_table keeps_set_table keeps_sess_upd keeps_stat keeps_post : keeps.

Lemma keeps_resolve_mac nh ca g fb : keeps txb (resolve_mac dp nh ca g fb).
Proof. unfold resolve_mac, request_neigh. keeps_solve. Qed.
#[local] Hint Resolve keeps_resolve_mac : keeps.
Lemma keeps_resolve_rs_mac i r : keeps txb (resolve_rs_mac dp i r).
Proof. unfold resolve_rs_mac. keeps_solve. Qed.
Lemma keeps_resolve_client_mac i : keeps txb (resolve_client_mac dp i).
Proof. unfold resolve_client_mac. keeps_solve. Qed.
Lemma keeps_count_fwd_in i : keeps txb (count_fwd_in i).
Proof. unfold count_fwd_in, onw. keeps_solve. Qed.
Lemma keeps_count_fwd_out i : keeps txb (count_fwd_out i).
Proof. unfold count_fwd_out, onw. keeps_solve. Qed.
Lemma keeps_close_session i : keeps txb (close_session i).
Proof. unfold close_session. keeps_solve. Qed.
Lemma keeps_update_state i fl d : keeps txb (update_state dp i fl d).
Proof. unfold update_state. keeps_solve. Qed.
#[local] Hint Resolve keeps_resolve_rs_mac keeps_resolve_client_mac keeps_count_fwd_in keeps_count_fwd_out keeps_close_session keeps_update_state : keeps.

Lemma keeps_probe_ports n li lip slots client r timeout :
  keeps txb (probe_ports dp n li lip slots client r timeout).
Proof. induction n; cbn [probe_ports]; cbv zeta; unfold onw; keeps_solve. Qed.
#[local] Hint Resolve keeps_probe_ports : keeps.
Lemma keeps_probe_lips rounds n lips probes slots client r timeout :
  keeps txb (probe_lips dp rounds n lips probes slots client r timeout).
Proof. revert n. induction rounds; intros n; cbn [probe_lips]; cbv zeta; keeps_solve. Qed.
#[local] Hint Resolve keeps_probe_lips : keeps.
Lemma keeps_create_fullnat client r timeout : keeps txb (create_fullnat dp client r timeout).
Proof. unfold create_fullnat, onw; cbv zeta. keeps_solve. Qed.
#[local] Hint Resolve keeps_create_fullnat : keeps.
Lemma keeps_new_session svc tuple : keeps txb (new_session dp svc tuple).
Proof. unfold new_session; cbv zeta. keeps_solve. Qed.
Lemma keeps_inbound_lookup tuple tcp syn : keeps txb (inbound_lookup tuple tcp syn).
Proof. unfold inbound_lookup; cbv zeta. keeps_solve. Qed.
Lemma keeps_inbound_forward i r meta b tcp : keeps txb (inbound_forward hw_cksum dp i r meta b tcp).
Proof. unfold inbound_forward; cbv zeta. keeps_solve. Qed.
#[local] Hint Resolve keeps_new_session keeps_inbound_lookup keeps_inbound_forward : keeps.
Lemma keeps_handle_inbound svc meta rd : keeps txb (handle_inbound hw_cksum dp svc meta rd).
Proof. unfold handle_inbound, rss_check; cbv zeta. keeps_solve. Qed.
Lemma keeps_handle_return meta rd : keeps txb (handle_return hw_cksum dp meta rd).
Proof. unfold handle_return; cbv zeta. keeps_solve. Qed.
Lemma keeps_handle_icmp meta rd : keeps txb (handle_icmp dp meta rd).
Proof.
  unfold handle_icmp, handle_icmp_error, icmp_to_client, icmp_to_rs, echo_reply; cbv zeta. keeps_solve.
Qed.
Lemma keeps_handle_arp : keeps txb (handle_arp dp).
Proof. unfold handle_arp; cbv zeta. keeps_solve. Qed.
#[local] Hint Resolve keeps_handle_inbound keeps_handle_return keeps_handle_icmp keeps_handle_arp : keeps.

(** Sending is left to the worker. *)
Lemma keeps_process_packet meta0 rd : keeps txb (process_packet hw_cksum dp meta0 rd).
Proof.
  unfold process_packet, handle_ipv4, handle_l4, handle_hc_response; cbv zeta. keeps_solve.
Qed.

(** ** Hand-overs *)

Definition stays (r : Result) : Prop := verdict r <> REDIRECT.

Lemma drop_stays f : stays (drop f).
Proof. done. Qed.
Lemma send_stays : stays send.
Proof. done. Qed.
Lemma consumed_stays : stays consumed.
Proof. done. Qed.

Lemma yields_inbound_forward i r meta b tcp : yields stays (inbound_forward hw_cksum dp i r meta b tcp).
Proof. unfold inbound_forward; cbv zeta. yields_solve. Qed.
#[local] Hint Resolve yields_inbound_forward : yields.

Lemma yields_inbound_lookup tuple tcp syn :
  yields (fun x => match x with inl r => stays r | inr _ => True end) (inbound_lookup tuple tcp syn).
Proof. unfold inbound_lookup; cbv zeta. destruct syn, tcp; cbn [negb andb]; yields_solve. Qed.

(** The owner of a connection keeps its packets. *)
Lemma owner_keeps_inbound svc meta rd s :
  fwd_owner (dp_steering dp) (to_five_tuple meta) = idx (p_w s) ->
  forall r s', handle_inbound hw_cksum dp svc meta rd s = Some (r, s') -> stays r.
Proof.
  intros Ho r s'. unfold handle_inbound; cbv zeta. intros (w & s1 & [= <- <-] & E)%bind_inv.
  rewrite Ho, Z.eqb_refl in E. cbn [negb] in E. apply bind_inv in E as (u & s2 & _ & E).
  apply bind_inv in E as (x & s3 & Hx & E). apply yields_inbound_lookup in Hx.
  revert E. destruct x as [r0|[[i r0]|]].
  - by intros [= <- _].
  - apply yields_inbound_forward.
  - revert s3 r s' Hx. enough (Y : yields stays
      (if (meta_ip_protocol meta =? 6) && negb (is_syn meta) then mret (drop ST_DROP_NO_SESSION)
       else x ← new_session dp svc (to_five_tuple meta);
         match x with
         | inl fail => mret (drop fail)
         | inr i => s ← sess i; snap ← gets p_snap; r ← deref (rs snap (rs_id s));
                    inbound_forward hw_cksum dp i r meta true (meta_ip_protocol meta =? 6)
         end)) by (intros s3 r s' _ E; by eapply Y).
    yields_solve.
Qed.

Lemma owner_keeps_return meta rd s :
  ret_owner (dp_steering dp) (to_five_tuple meta) = idx (p_w s) ->
  forall r s', handle_return hw_cksum dp meta rd s = Some (r, s') -> stays r.
Proof.
  intros Ho r s'. unfold handle_return; cbv zeta. intros (w & s1 & [= <- <-] & E)%bind_inv.
  rewrite Ho, Z.eqb_refl in E. cbn [negb] in E. revert E.
  match goal with |- ?k s = _ -> _ => enough (Y : yields stays k) by apply Y end.
  yields_solve.
Qed.

End Frame.
End ProcessorFrame.
