(* ===== verification/WorkerThms.v ===== *)
(** The worker loop returns every round, keeps the worker's invariant, and
    neither leaks nor loses a packet. *)
From S2P Require Import Prelude Types TcpState Mem Headers Dpdk Session SessionInv SessionSpec SessionThms SessionView Checksum Parser ParserThms Forward ForwardThms Steering Scheduler SchedulerProps Config Snapshot SnapshotThms Neigh NeighProps Context Processor ProcessorInv ProcessorThms ProcessorHandlers ProcessorMain ProcessorStart ProcessorFrame Worker.
Import Tcp Session SessionSpec SessionView Parser Forward Steering Scheduler Config Snapshot SnapshotThms Context Processor ProcessorInv ProcessorThms ProcessorHandlers ProcessorMain ProcessorStart ProcessorFrame Worker.

Module WorkerThms.

Section Thms.
Context `{RH : RteHash FiveTuple} `{RL : !RteHashLaws FiveTuple RH} `{NH : RteHash Z}.
Context `{HF : RteHashFns} `{HL : !RteHashFnsLaws HF} `{MB : RteMbuf} `{ML : !RteMbufLaws MB}.
Context `{IO : RteIo} `{IL : !RteIoLaws IO}.
Context (hw_cksum : bool) (dp : Dataplane (NH := NH)) (max_lcore : nat) (DP : dp_ok dp max_lcore).
Context (lc : LoopConf) (meta0 : PacketMeta).
Implicit Types s : WState (RH := RH) (IO := IO).
Context (neigh_at : WState (RH := RH) (IO := IO) -> Neigh.NeighTable (RH := NH)).

(** Packets the worker holds outside its TX buffer. *)
Definition loose s : Z := held (ws_io s) - len (tx (ws_w s)).

(** Every worker a packet can be handed to has an entry in g_dp.workers. *)
Definition conf_ok : Prop := n_ (dp_steering dp) <= len (present lc) /\ 0 < tsc_hz lc.

Record WInv s : Prop := {
  wv_inv : winv dp max_lcore (sessions (ws_w s)) (now_tick (ws_w s)) (idx (ws_w s)) (ws_snap s);
  wv_tx : len (tx (ws_w s)) < BURST_SIZE
}.

(** What a step of the loop does not change. *)
Definition same s s' : Prop :=
  idx (ws_w s') = idx (ws_w s) /\ Snapshot.mode (ws_snap s') = Snapshot.mode (ws_snap s)
  /\ local_ips (ws_snap s') = local_ips (ws_snap s).

(** Clock and round counter are as before, the session table is calm. *)
Record kept s s' : Prop := {
  ke_now : now_tick (ws_w s') = now_tick (ws_w s);
  ke_loops : ws_loops s' = ws_loops s;
  ke_calm : calm (now_tick (ws_w s)) (sessions (ws_w s)) (sessions (ws_w s'))
}.

Lemma kept_trans s1 s2 s3 : kept s1 s2 -> kept s2 s3 -> kept s1 s3.
Proof.
  intros [A1 A2 A3] [B1 B2 B3]. rewrite A1 in B3. split; [congruence|congruence|by eapply calm_trans].
Qed.

Lemma kept_table s s' :
  sessions (ws_w s') = sessions (ws_w s) -> now_tick (ws_w s') = now_tick (ws_w s) -> ws_loops s' = ws_loops s ->
  kept s s'.
Proof. intros E1 E2 E3. split; [done|done|]. rewrite E1. apply calm_refl. Qed.

(** [n] loose packets are accounted for. *)
Record step (n : Z) s s' : Prop := {
  st_inv : WInv s';
  st_same : same s s';
  st_loose : loose s' = loose s - n;
  st_clock : clock (ws_io s) <= clock (ws_io s');
  st_kept : kept s s'
}.

Lemma step_trans n m s1 s2 s3 : step n s1 s2 -> step m s2 s3 -> step (n + m) s1 s3.
Proof.
  intros [A1 (A2 & A3 & A4) A5 A6 A7] [B1 (B2 & B3 & B4) B5 B6 B7].
  split; [done|split_and!; congruence|lia|lia|by eapply kept_trans].
Qed.

Lemma step_refl s : WInv s -> step 0 s s.
Proof. intros W. split; [done|done|lia|lia|done]. Qed.

(** Counters only. *)
Lemma onctx_count_wp g Q s :
  WInv s -> (forall w, tx (g w) = tx w /\ sessions (g w) = sessions w /\ idx (g w) = idx w
                       /\ now_tick (g w) = now_tick w) ->
  (forall s', step 0 s s' -> tx (ws_w s') = tx (ws_w s) -> ws_io s' = ws_io s -> Q tt s') ->
  wp (onctx g) Q s.
Proof.
  intros [W1 W2] Hg HQ. apply wp_modify. destruct (Hg (ws_w s)) as (E1 & E2 & E3 & E4). apply HQ.
  - split; cbn.
    + split; cbn; [by rewrite E2, E3, E4|by rewrite E1].
    + done.
    + unfold loose. cbn. rewrite E1. lia.
    + lia.
    + by apply kept_table.
  - done.
  - done.
Qed.

Lemma free_wp m Q s :
  WInv s -> (forall s', step 1 s s' -> Q tt s') -> wp (free_mbuf m) Q s.
Proof.
  intros W HQ. apply HQ. destruct (free_spec m (ws_io s)) as [F1 F2]. split; cbn; try done.
  - destruct W. by split.
  - unfold loose. cbn. lia.
Qed.

(** ** The TX buffer *)

Lemma free_all_wp l Q s :
  (forall x, held x = held (ws_io s) - len l -> clock (ws_io s) <= clock x -> Q tt (set_io x s)) ->
  wp (each free_mbuf l) Q s.
Proof.
  revert s. induction l as [|m l IH]; intros s HQ; cbn [each].
  - apply wp_ret. replace s with (set_io (ws_io s) s) by (by destruct s).
    apply HQ; [unfold len; cbn [length]; lia|lia].
  - apply wp_bind. unfold wp at 1, free_mbuf, io. apply IH. intros x H1 H2.
    destruct (free_spec m (ws_io s)) as [F1 F2]. cbn in *.
    apply (HQ x); [unfold len in *; cbn [length]; lia|lia].
Qed.

(** What sending leaves alone. *)
Record sent s s' : Prop := {
  se_sessions : sessions (ws_w s') = sessions (ws_w s);
  se_idx : idx (ws_w s') = idx (ws_w s);
  se_tick : now_tick (ws_w s') = now_tick (ws_w s);
  se_ms : now_ms (ws_w s') = now_ms (ws_w s);
  se_loops : ws_loops s' = ws_loops s;
  se_snap : ws_snap s' = ws_snap s;
  se_clock : clock (ws_io s) <= clock (ws_io s')
}.

(** Flushing empties the buffer: what the NIC does not take is freed. *)
Lemma tx_flush_raw_wp Q s :
  (forall s', sent s s' -> tx (ws_w s') = [] -> loose s' = loose s -> Q tt s') -> wp tx_flush Q s.
Proof.
  intros HQ. unfold tx_flush. apply wp_bind, wp_gets. wp_if.
  - apply Z.eqb_eq in E. apply wp_ret, HQ; [done| |done].
    destruct (tx (ws_w s)); [done|]. unfold len in E. cbn [length] in E. lia.
  - apply wp_bind, wp_gets, wp_bind. unfold wp at 1, io.
    destruct (rte_eth_tx_burst _ _ _) as [nb x] eqn:Eb. apply tx_spec in Eb as (Hn & Hh & Hc).
    apply wp_bind, wp_modify, wp_bind, wp_modify. set (b := tx (ws_w s)) in *.
    assert (Fin : forall x s', held x = held (ws_io s) - len b -> clock (ws_io s) <= clock x ->
      ws_io s' = x -> sessions (ws_w s') = sessions (ws_w s) -> idx (ws_w s') = idx (ws_w s) ->
      now_tick (ws_w s') = now_tick (ws_w s) -> now_ms (ws_w s') = now_ms (ws_w s) -> ws_snap s' = ws_snap s ->
      ws_loops s' = ws_loops s -> Q tt (set_ctx (set_tx [] (ws_w s')) s')).
    { intros x' s' H1 H2 H3 H4 H5 H6 H7 H8 H9. apply HQ; [|done|].
      - split; cbn; [done..|by rewrite H3].
      - unfold loose. cbn [ws_io set_ctx ws_w tx set_tx]. rewrite H3, H1. fold b. unfold len. cbn [length]. lia. }
    apply wp_bind, wp_when.
    + intros Hlt%Z.ltb_lt. apply wp_bind, wp_modify, free_all_wp.
      intros x' H1 H2. cbn in H1, H2. apply wp_modify, (Fin x'); try done; [|lia].
      rewrite H1, Hh. unfold len in *. rewrite length_skipn. lia.
    + intros Hge%Z.ltb_ge. apply wp_modify, (Fin x); try done. lia.
Qed.

Lemma tx_buffer_add_raw_wp m Q s :
  len (tx (ws_w s)) < BURST_SIZE ->
  (forall s', sent s s' -> len (tx (ws_w s')) < BURST_SIZE -> loose s' = loose s - 1 -> Q tt s') ->
  wp (tx_buffer_add m) Q s.
Proof.
  intros W2 HQ. unfold tx_buffer_add. apply wp_bind, wp_gets.
  rewrite Z.geb_leb, (proj2 (Z.leb_gt _ _)) by done. apply wp_bind, wp_modify.
  set (s1 := set_ctx _ s). assert (E1 : tx (ws_w s1) = tx (ws_w s) ++ [m]) by done.
  assert (L1 : len (tx (ws_w s1)) = len (tx (ws_w s)) + 1).
  { rewrite E1. unfold len. rewrite length_app. cbn [length]. lia. }
  assert (L2 : loose s1 = loose s - 1) by (unfold loose; rewrite L1; cbn; lia).
  assert (S1 : sent s s1) by done. apply wp_when.
  - intros _. apply tx_flush_raw_wp. intros s' [A1 A2 A3 A4 A5 A6 A7] T L. apply HQ; [by split|by rewrite T|lia].
  - intros Hl. rewrite Z.geb_leb in Hl. apply Z.leb_gt in Hl. apply HQ; [done|lia|done].
Qed.

Lemma sent_step n s s' :
  winv dp max_lcore (sessions (ws_w s)) (now_tick (ws_w s)) (idx (ws_w s)) (ws_snap s) ->
  sent s s' -> len (tx (ws_w s')) < BURST_SIZE -> loose s' = loose s - n -> step n s s'.
Proof.
  intros W [A1 A2 A3 A4 A5 A6 A7] T L. split; [split; [by rewrite A1, A2, A3, A6|done]|split_and!; congruence|done|done|].
  by apply kept_table.
Qed.

Lemma tx_flush_wp Q s :
  winv dp max_lcore (sessions (ws_w s)) (now_tick (ws_w s)) (idx (ws_w s)) (ws_snap s) ->
  (forall s', step 0 s s' -> tx (ws_w s') = [] -> Q tt s') -> wp tx_flush Q s.
Proof.
  intros W HQ. apply tx_flush_raw_wp. intros s' S T L. apply HQ; [|done].
  apply sent_step; [done|done|by rewrite T|lia].
Qed.

Lemma tx_buffer_add_wp m Q s :
  WInv s -> (forall s', step 1 s s' -> Q tt s') -> wp (tx_buffer_add m) Q s.
Proof.
  intros [W1 W2] HQ. apply tx_buffer_add_raw_wp; [done|]. intros s' S T L. apply HQ. by apply sent_step.
Qed.

(** ** Packets *)

Lemma run_packet_wp m rd Q s :
  WInv s -> mbuf_ok m ->
  (forall r m' s', step 0 s s' -> res_ok dp rd (idx (ws_w s)) r -> Q (r, m') s') ->
  wp (run_packet hw_cksum dp meta0 neigh_at m rd) Q s.
Proof.
  intros [W1 W2] [Hf Hl] HQ. unfold run_packet, wp. set (p0 := mkP _ _ _ _).
  set (dp' := with_neigh (neigh_at s) dp).
  pose proof (process_packet_wp hw_cksum dp' max_lcore (dp_ok_neigh _ _ _ DP) meta0 rd p0
    (proj2 (winv_neigh _ _ _ _ _ _ _) W1) Hf Hl) as H.
  apply (wp_keeps _ _ _ _ (keeps_process_packet hw_cksum dp' meta0 rd)) in H.
  unfold wp in H. destruct (process_packet _ _ _ _ _) as [[r p]|]; [|done].
  destruct H as [[(I & S & R) _] T]. pose proof (proj1 (winv_neigh _ _ _ _ _ _ _) I) as I'. unfold txb in T. pose proof S as (S1 & S2 & S3 & S4 & _ & S6).
  apply HQ; [|done]. split; cbn.
  - split; cbn; [exact I'|by rewrite T].
  - done.
  - unfold loose. cbn. rewrite T. cbn. lia.
  - lia.
  - split; [exact S2|done|exact S6].
Qed.

Context (CO : conf_ok).

Lemma handle_wp rd m Q s :
  WInv s -> mbuf_ok m -> (forall s', step 1 s s' -> Q tt s') -> wp (handle hw_cksum dp lc meta0 neigh_at rd m) Q s.
Proof.
  intros W Hm HQ. unfold handle. apply wp_bind, run_packet_wp; [done|done|]. intros r m' s1 S1 R.
  pose proof (st_inv _ _ _ S1) as W1.
  assert (C : forall s', step 1 s1 s' -> Q tt s').
  { intros s' S2. apply HQ. exact (step_trans 0 1 _ _ _ S1 S2). }
  assert (F : forall id, wp (_ ← onctx (count id 1); free_mbuf m') Q s1).
  { intros id. apply wp_bind, onctx_count_wp; [done|done|]. intros s2 S2 _ _.
    apply free_wp; [apply S2|]. intros s3 S3. apply C. exact (step_trans 0 1 _ _ _ S2 S3). }
  unfold res_ok in R. destruct (verdict r).
  - by apply tx_buffer_add_wp.
  - apply F.
  - destruct R as (_ & R & _). destruct CO as [Hp _].
    destruct (lookup_lt_is_Some_2 (present lc) (Z.to_nat (target r))) as [to Hto]; [unfold len in Hp; lia|].
    rewrite Hto. apply wp_bind, (wp_deref _ to); [done|]. apply wp_bind. destruct to.
    + unfold wp at 1, io. destruct (rte_ring_mp_enqueue _ _ _) as [ok x] eqn:Ee.
      apply enq_spec in Ee as [He Hc]. destruct ok.
      * apply onctx_count_wp; [destruct W1; by split|done|]. intros s2 [T1 T2 T3 T4 T5] _ _. apply C.
        split; [done|done| |cbn in T4; lia|destruct T5; by split]. rewrite T3. unfold loose. cbn. lia.
      * apply wp_bind, onctx_count_wp; [destruct W1; by split|done|]. intros s2 [T1 T2 T3 T4 T5] _ _.
        apply free_wp; [done|]. intros s3 S3. apply C. apply (step_trans 0 1 _ s2 _); [|done].
        split; [done|done| |cbn in T4; lia|destruct T5; by split]. rewrite T3. unfold loose. cbn. lia.
    + apply wp_ret. apply F.
  - by apply free_wp.
Qed.

Lemma handle_all_wp rd l Q s :
  WInv s -> Forall mbuf_ok l -> (forall s', step (len l) s s' -> Q tt s') ->
  wp (each (handle hw_cksum dp lc meta0 neigh_at rd) l) Q s.
Proof.
  intros W Hl. revert s W Q. induction Hl as [|m l Hm Hl IH]; intros s W Q HQ; cbn [each].
  - apply wp_ret, HQ. by apply step_refl.
  - apply wp_bind, handle_wp; [done|done|]. intros s1 S1. apply IH; [apply S1|]. intros s2 S2. apply HQ.
    replace (len (m :: l)) with (1 + len l) by (unfold len; cbn [length]; lia). by eapply step_trans.
Qed.

(** ** Polling *)

(** A batch taken from the outside and worked off. *)
Lemma batch_wp g l x rd Q s :
  WInv s -> Forall mbuf_ok l -> held x = held (ws_io s) + len l -> clock (ws_io s) <= clock x ->
  (forall w, tx (g w) = tx w /\ sessions (g w) = sessions w /\ idx (g w) = idx w /\ now_tick (g w) = now_tick w) ->
  (forall s', step 0 s s' -> Q tt s') ->
  wp (_ ← onctx g; each (handle hw_cksum dp lc meta0 neigh_at rd) l) Q (set_io x s).
Proof.
  intros W Hl Hh Hc Hg HQ. assert (W1 : WInv (set_io x s)) by (destruct W; by split).
  apply wp_bind, onctx_count_wp; [done|done|]. intros s1 [T1 T2 T3 T4 T5] _ _.
  apply handle_all_wp; [done|done|]. intros s2 S2. apply HQ.
  replace 0 with (- len l + len l) by lia. apply (step_trans _ _ _ s1); [|done].
  split; [done|done| |cbn in T4; lia|destruct T5; by split]. rewrite T3. unfold loose. cbn. lia.
Qed.

Lemma io_wp {A} (f : world -> A * world) Q s :
  (forall a x, f (ws_io s) = (a, x) -> Q a (set_io x s)) -> wp (io f) Q s.
Proof. intros H. unfold wp, io. destruct (f (ws_io s)) as [a x]. by apply H. Qed.

Lemma empty_step (l : list Mbuf) x s :
  WInv s -> len l = 0 -> held x = held (ws_io s) + len l -> clock (ws_io s) <= clock x -> step 0 s (set_io x s).
Proof. intros [W1 W2] H0 Hh Hc. split; [by split|done| |done|done]. unfold loose. cbn. lia. Qed.

Lemma poll_ring_wp r rd id Q s :
  WInv s -> (forall n s', step 0 s s' -> Q n s') -> wp (poll_ring hw_cksum dp lc meta0 neigh_at r rd id) Q s.
Proof.
  intros W HQ. unfold poll_ring. apply wp_bind, io_wp. intros l x (_ & Hl & Hh & Hc)%deq_spec.
  apply wp_bind, wp_when.
  - intros _. apply batch_wp; try done. intros s' S. apply wp_ret. by apply HQ.
  - intros H0%negb_false_iff%Z.eqb_eq. apply wp_ret, HQ. by apply (empty_step l).
Qed.

Lemma poll_queues_wp qs Q s :
  WInv s -> (forall n s', step 0 s s' -> Q n s') -> wp (poll_queues hw_cksum dp lc meta0 neigh_at qs) Q s.
Proof.
  revert Q s. induction qs as [|q qs IH]; intros Q s W HQ; cbn [poll_queues].
  { apply wp_ret, HQ. by apply step_refl. }
  apply wp_bind. unfold poll_queue. apply wp_bind, io_wp. intros l x (_ & Hl & Hh & Hc)%rx_spec.
  assert (N : forall s1, step 0 s s1 -> wp (work ← poll_queues hw_cksum dp lc meta0 neigh_at qs; mret (len l + work)) Q s1).
  { intros s1 S1. apply wp_bind, IH; [apply S1|]. intros n s2 S2. apply wp_ret, HQ.
    exact (step_trans 0 0 _ _ _ S1 S2). }
  apply wp_bind, wp_when.
  - intros _. apply wp_bind, wp_modify.
    apply (batch_wp (count_bytes BS_RX (sum_len l)) l x false _ (set_ctx (count ST_RX (len l) (ws_w s)) s)); try done.
    + destruct W. by split.
    + intros s' S. apply wp_ret, N. destruct S as [T1 T2 T3 T4 []]. by split.
  - intros H0%negb_false_iff%Z.eqb_eq. apply wp_ret, N. by apply (empty_step l).
Qed.

(** ** Time *)

(** The clock's range: (tsc - start) * 1000 does not overflow. *)
Definition in_range : Prop :=
  forall x : world, start_tsc lc <= clock x /\ (clock x - start_tsc lc) * 1000 < 2 ^ 64.

Lemma ms_of_eq t :
  start_tsc lc <= t -> (t - start_tsc lc) * 1000 < 2 ^ 64 -> ms_of lc t = (t - start_tsc lc) * 1000 / tsc_hz lc.
Proof. intros H1 H2. unfold ms_of. rewrite (u64_id (t - _)), u64_id by (unfold is_u64; lia). done. Qed.

Lemma tick_of_eq t :
  start_tsc lc <= t -> (t - start_tsc lc) * 1000 < 2 ^ 64 ->
  tick_of lc t = 1 + (t - start_tsc lc) * 1000 / tsc_hz lc / 1000 /\ 1 <= tick_of lc t < 2 ^ 62.
Proof.
  intros H1 H2. destruct CO as [_ Hz]. unfold tick_of. rewrite ms_of_eq by done.
  set (m := (t - start_tsc lc) * 1000 / tsc_hz lc).
  assert (0 <= m < 2 ^ 64).
  { unfold m. split; [apply Z.div_pos; lia|]. apply Z.div_lt_upper_bound; nia. }
  assert (0 <= m / 1000 < 2 ^ 62 - 1).
  { split; [apply Z.div_pos; lia|]. apply Z.div_lt_upper_bound; lia. }
  rewrite u64_id by (unfold is_u64; lia). lia.
Qed.

Lemma tick_mono t t' :
  start_tsc lc <= t <= t' -> (t' - start_tsc lc) * 1000 < 2 ^ 64 -> tick_of lc t <= tick_of lc t'.
Proof.
  intros H1 H2. destruct CO as [_ Hz].
  rewrite (proj1 (tick_of_eq t ltac:(lia) ltac:(lia))), (proj1 (tick_of_eq t' ltac:(lia) ltac:(lia))).
  apply Zplus_le_compat_l, Z.div_le_mono; [lia|]. apply Z.div_le_mono; lia.
Qed.

(** The wheel is not ahead of the worker's clock, nor that of the real one. *)
Definition behind s : Prop :=
  cur_tick_ (sessions (ws_w s)) - 1 <= now_tick (ws_w s) <= tick_of lc (clock (ws_io s)).

Lemma step_behind n s s' : in_range -> step n s s' -> behind s -> behind s'.
Proof.
  intros R [_ _ _ Hc [K1 _ [K2 _ _]]] B. unfold behind in *. rewrite K1, K2. split; [apply B|]. etransitivity; [apply B|].
  destruct (R (ws_io s)), (R (ws_io s')). by apply tick_mono.
Qed.

Lemma busy_step_wp b Q s :
  WInv s -> (forall s', step 0 s s' -> tx (ws_w s') = tx (ws_w s) -> Q tt s') -> wp (busy_step b) Q s.
Proof.
  intros W HQ. unfold busy_step. apply wp_bind, wp_gets, wp_bind.
  assert (K : forall now x, held x = held (ws_io s) -> clock (ws_io s) <= clock x ->
    wp (modify (fun s => let '(b, st) := busy_loop b now (ws_busy s) (stats (ws_w s)) in
      mkWS (set_stats st (ws_w s)) (ws_snap s) (ws_evs s) (ws_io s) b (ws_loops s))) Q (set_io x s)).
  { intros now x Hh Hc. apply wp_modify. destruct (busy_loop _ _ _ _) as [bm st]. apply HQ; [|done].
    destruct W. split; [by split|done| |done|done]. unfold loose. cbn. lia. }
  wp_if.
  - apply wp_ret. specialize (K 0 (ws_io s) eq_refl ltac:(lia)). by destruct s.
  - apply io_wp. intros n x (-> & Hh & Hc)%tsc_spec. by apply K.
Qed.

(** What [clock_step] does to clock and table: every 1024 rounds it reads the
    clock and sweeps, removing or moving up to [kExpireBudget] due sessions. *)
Definition swept_or_kept s s' : Prop :=
  if Z.land (ws_loops s') 1023 =? 0
  then now_tick (ws_w s) <= now_tick (ws_w s')
       /\ cur_tick_ (sessions (ws_w s)) <= cur_tick_ (sessions (ws_w s'))
       /\ capacity_ (sessions (ws_w s')) = capacity_ (sessions (ws_w s))
       /\ forall tau, tau <= now_tick (ws_w s) -> tau < cur_tick_ (sessions (ws_w s'))
            \/ Z.of_nat (SessionThms.due_at (sessions (ws_w s')) tau) + kExpireBudget <= Z.of_nat (SessionThms.due_at (sessions (ws_w s)) tau)
  else now_tick (ws_w s') = now_tick (ws_w s) /\ calm (now_tick (ws_w s)) (sessions (ws_w s)) (sessions (ws_w s')).

(** After a round: the invariant holds if the timeouts still fit the wheel. *)
Record rounded s s' : Prop := {
  rd_inv : timely dp (sessions (ws_w s')) (now_tick (ws_w s')) -> WInv s';
  rd_same : same s s';
  rd_loose : loose s' = loose s;
  rd_clock : clock (ws_io s) <= clock (ws_io s');
  rd_behind : behind s';
  rd_tx : tx (ws_w s') = [];
  rd_loops : ws_loops s' = u64 (ws_loops s + 1);
  rd_sweep : swept_or_kept s s';
  rd_table : table_ok (sessions (ws_w s'))
}.

Lemma clock_step_wp s :
  in_range -> WInv s -> behind s -> tx (ws_w s) = [] -> wp (clock_step lc) (fun _ s' => rounded s s') s.
Proof.
  intros R [W1 W2] B T. unfold clock_step. apply wp_bind, wp_modify. apply wp_bind, wp_gets.
  cbn [ws_loops]. destruct (Z.land (u64 (ws_loops s + 1)) 1023 =? 0) eqn:El.
  2:{ apply wp_ret. split; try done; [|apply W1]. unfold swept_or_kept. cbn [ws_loops]. rewrite El. done. }
  destruct CO as [_ Hz]. rewrite (proj2 (Z.eqb_neq _ _)) by lia. apply wp_bind, io_wp.
  intros tsc x (-> & Hh & Hc)%tsc_spec. cbn in Hh, Hc. destruct (R x) as [Rx1 Rx2]. destruct (R (ws_io s)) as [Rs1 Rs2].
  apply wp_bind, wp_modify, wp_bind, wp_gets. cbn [sessions now_tick ws_w set_ctx set_io set_now].
  pose proof (tick_mono _ _ (conj Rs1 Hc) Rx2) as Hm. destruct (tick_of_eq _ Rx1 Rx2) as [_ Ht].
  unfold behind in B.
  destruct (expire_view (sessions (ws_w s)) (tick_of lc (clock x)) (wi_table _ _ _ _ _ _ W1))
    as (t' & n & He & Ht' & Hv & Hcur & Hcap & Hpr); [unfold SessionThms.max_tick; lia|].
  apply wp_bind, (wp_deref _ (t', n)); [done|]. apply wp_bind, wp_modify.
  assert (F : forall s', sessions (ws_w s') = t' -> now_tick (ws_w s') = tick_of lc (clock x) ->
    ws_snap s' = ws_snap s -> idx (ws_w s') = idx (ws_w s) -> tx (ws_w s') = [] -> ws_io s' = x ->
    ws_loops s' = u64 (ws_loops s + 1) -> rounded s s').
  { intros s' E1 E2 E3 E4 E5 E6 E7. split.
    - rewrite E1, E2. intros Htm. destruct W1 as [A1 A2 A3 A4 A5].
      split; [rewrite E1, E2, E3, E4|by rewrite E5]. split; try done.
      intros i p Hp. apply (A2 i p). by eapply lookup_weaken.
    - split_and!; congruence.
    - unfold loose. rewrite E5, E6, T. lia.
    - by rewrite E6.
    - unfold behind. rewrite E1, E2, E6. lia.
    - done.
    - done.
    - unfold swept_or_kept. rewrite E7, El, E1, E2. split_and!; [lia|lia|done|]. intros tau Htau. apply Hpr. lia.
    - by rewrite E1. }
  apply wp_when; intros _; [apply wp_modify|]; apply F; done.
Qed.

(** ** Rounds *)

Definition snapshot_ok (o : option Snapshot) s : Prop :=
  forall snap, o = Some snap -> snap_ok max_lcore snap
    /\ Snapshot.mode snap = Snapshot.mode (ws_snap s) /\ local_ips snap = local_ips (ws_snap s).

Lemma worker_polls_wp current s :
  WInv s -> snapshot_ok current s ->
  wp (worker_polls hw_cksum dp lc meta0 neigh_at current) (fun _ s' => step 0 s s' /\ tx (ws_w s') = []) s.
Proof.
  intros W K. unfold worker_polls. apply wp_bind, wp_modify. set (s0 := mkWS _ _ _ _ _ _).
  assert (S0 : step 0 s s0).
  { destruct W as [W1 W2]. unfold s0. destruct current as [snap|].
    - destruct (K snap eq_refl) as (K1 & K2 & K3). split; [split; [|exact W2]|done|unfold loose; cbn; lia|cbn; lia|done].
      by eapply winv_snapshot.
    - split; [by split|done|unfold loose; cbn; lia|cbn; lia|done]. }
  apply wp_bind, wp_gets, wp_bind.
  assert (F : forall n s1, step 0 s0 s1 -> wp (nr ← poll_ring hw_cksum dp lc meta0 neigh_at (REDIRECT_RING (idx (ws_w s0))) true ST_REDIRECT_IN;
    _ ← tx_flush; busy_step (negb (n + nr =? 0))) (fun _ s' => step 0 s s' /\ tx (ws_w s') = []) s1).
  { intros n s1 S1. apply wp_bind, poll_ring_wp; [apply S1|]. intros nr s2 S2.
    apply wp_bind, tx_flush_wp; [apply S2|]. intros s3 S3 T3.
    apply busy_step_wp; [apply S3|]. intros s4 S4 T4. split; [|congruence].
    exact (step_trans _ _ _ _ _ S0 (step_trans _ _ _ _ _ S1 (step_trans _ _ _ _ _ S2 (step_trans _ _ _ _ _ S3 S4)))). }
  destruct (pipeline lc).
  - apply poll_ring_wp; [apply S0|]. intros n s1 S1. by apply F.
  - apply poll_queues_wp; [apply S0|]. intros n s1 S1. by apply F.
Qed.

(** The table's part of a round. *)
Lemma kept_then s s1 s2 : kept s s1 -> swept_or_kept s1 s2 -> swept_or_kept s s2.
Proof.
  unfold swept_or_kept. intros [K1 K2 K3] H. rewrite K1 in H. pose proof K3 as [C1 C2 _].
  destruct (_ =? 0).
  - destruct H as (H1 & H2 & H3 & H4). split_and!; [done|lia|congruence|]. intros tau Ht.
    pose proof (calm_due_at _ tau _ _ K3 Ht). destruct (H4 tau Ht); [by left|right; lia].
  - destruct H as [H1 H2]. split; [done|]. by eapply calm_trans.
Qed.

Lemma worker_round_wp current s :
  in_range -> WInv s -> behind s -> snapshot_ok current s ->
  wp (worker_round hw_cksum dp lc meta0 neigh_at current) (fun _ s' => rounded s s') s.
Proof.
  intros R W B K. unfold worker_round. apply wp_bind. eapply wp_mono; [by apply worker_polls_wp|].
  intros _ s1 [S T]. eapply wp_mono; [apply clock_step_wp; [done|apply S| |done]|].
  - by eapply step_behind.
  - intros _ s' [C1 C2 C3 C4 C5 C6 C7 C8 C9]. destruct S as [D1 D2 D3 D4 D5]. split; try done.
    + destruct D2 as (? & ? & ?), C2 as (? & ? & ?). split_and!; congruence.
    + rewrite C3, D3. lia.
    + lia.
    + by rewrite C7, (ke_loops _ _ D5).
    + by eapply kept_then.
Qed.

End Thms.
End WorkerThms.
