(* ===== verification/WorkerProps.v ===== *)
(** What the worker loop promises. *)
From S2P Require Import Prelude Types TcpState Mem Headers Dpdk Session SessionInv SessionSpec SessionThms SessionProps SessionView Parser ParserThms Forward ForwardProps Steering Scheduler Config Snapshot SnapshotThms Neigh NeighProps Context Processor ProcessorInv ProcessorThms ProcessorHandlers ProcessorMain ProcessorStart Worker WorkerThms.
Import Tcp Session SessionSpec SessionView Parser ParserThms Forward ForwardProps Steering Scheduler Config Snapshot SnapshotThms Context Processor ProcessorInv ProcessorThms ProcessorHandlers ProcessorMain ProcessorStart Worker WorkerThms.

Module WorkerProps.

Section Props.
Context `{RH : RteHash FiveTuple} `{RL : !RteHashLaws FiveTuple RH} `{NH : RteHash Z}.
Context `{HF : RteHashFns} `{HL : !RteHashFnsLaws HF} `{MB : RteMbuf} `{ML : !RteMbufLaws MB}.
Context `{IO : RteIo} `{IL : !RteIoLaws IO}.
Implicit Types s : WState (RH := RH) (IO := IO).

Section Pace.
Context (hw_cksum : bool) (dp : Dataplane (NH := NH)) (lc : LoopConf) (meta0 : PacketMeta) (max_lcore : nat).
Context (neigh_at : WState (RH := RH) (IO := IO) -> Neigh.NeighTable (RH := NH)).

(** The rounds alone, to speak of the states in between. *)
Fixpoint rounds (l : list (option Snapshot)) : ST (WState (RH := RH) (IO := IO)) unit :=
  match l with
  | [] => mret tt
  | current :: l => _ ← worker_round hw_cksum dp lc meta0 neigh_at current; rounds l
  end.

(** Sweeps enough to visit every session of the table once, and the number of
    rounds that contain twice as many. *)
Definition sweeps (t : SessionTable (RH := RH)) : Z := capacity_ t / kExpireBudget + 1.
Definition window (t : SessionTable (RH := RH)) : Z := 2048 * sweeps t.

(** The loop is fast enough: no [window] of consecutive rounds takes more than
    [slack] seconds by the worker's clock. *)
Definition paced (slack : Z) (l : list (option Snapshot)) s : Prop :=
  forall l1 l2 l3 s1 s2, l = l1 ++ l2 ++ l3 -> rounds l1 s = Some (tt, s1) -> rounds l2 s1 = Some (tt, s2) ->
    len l2 <= window (sessions (ws_w s)) -> now_tick (ws_w s2) <= now_tick (ws_w s1) + slack.

(** The configured timeouts leave [slack] seconds of the timing wheel free. *)
Definition room (c : TimeoutConf) (slack : Z) : Prop :=
  0 <= slack /\ forall st, 0 <= state_timeout st c /\ state_timeout st c + slack < 4093.

Lemma room_fit c slack : room c slack -> timeouts_fit c.
Proof. intros [H0 H] st. destruct (H st). lia. Qed.

Lemma rounds_app l1 l2 s s1 : rounds l1 s = Some (tt, s1) -> rounds (l1 ++ l2) s = rounds l2 s1.
Proof.
  revert s. induction l1 as [|o l1 IH]; intros s; cbn [rounds app].
  - intros [= ->]. done.
  - unfold mbind, ST_bind. destruct (worker_round _ _ _ _ _ _ _) as [[[] s']|]; [|done]. apply IH.
Qed.

Lemma due_le_cap (t : SessionTable (RH := RH)) n : table_ok t -> Z.of_nat (SessionThms.due_at t n) <= capacity_ t.
Proof.
  intros [(W & P & Hok) _ _ _ _ _]. pose proof (SessionInv.wk_cap _ _ _ _ Hok).
  unfold SessionThms.due_at. etransitivity; [apply inj_le, length_filter|]. rewrite length_seqZ. lia.
Qed.

(** The number of sweeps in the first [i] rounds, the counter starting at [a]. *)
Definition swept_by (a i : Z) : Z := (a + i) / 1024.

(** Two earlier moments, at most [sweeps] sweeps apart: the wheel has passed the
    first, and every sweep since the second has worked off a full budget of the
    sessions due at it. *)
Definition pace (l : list (option Snapshot)) s0 s : Prop :=
  exists la lb lr sa sb, l = la ++ lb ++ lr
    /\ rounds la s0 = Some (tt, sa) /\ rounds lb sa = Some (tt, sb) /\ rounds lr sb = Some (tt, s)
    /\ now_tick (ws_w sa) <= cur_tick_ (sessions (ws_w s)) /\ now_tick (ws_w sb) <= now_tick (ws_w s)
    /\ swept_by (ws_loops s0) (len la + len lb) - swept_by (ws_loops s0) (len la) <= sweeps (sessions (ws_w s0))
    /\ Z.of_nat (SessionThms.due_at (sessions (ws_w s)) (now_tick (ws_w sb)))
       + kExpireBudget * (swept_by (ws_loops s0) (len l) - swept_by (ws_loops s0) (len la + len lb))
       <= capacity_ (sessions (ws_w s0))
    /\ capacity_ (sessions (ws_w s)) = capacity_ (sessions (ws_w s0))
    /\ ws_loops s = u64 (ws_loops s0 + len l).

Lemma pace_start s : table_ok (sessions (ws_w s)) -> is_u64 (ws_loops s) ->
  now_tick (ws_w s) <= cur_tick_ (sessions (ws_w s)) -> pace [] s s.
Proof.
  intros T U H. exists [], [], [], s, s. split_and!; try done; try lia.
  - unfold swept_by, sweeps. replace (len (@nil (option Snapshot)) + len (@nil (option Snapshot))) with (len (@nil (option Snapshot))) by done.
    pose proof (due_le_cap _ 0 T). assert (0 <= capacity_ (sessions (ws_w s)) / kExpireBudget) by (apply Z.div_pos; unfold kExpireBudget; lia). lia.
  - change (len (@nil (option Snapshot))) with 0. rewrite !Z.add_0_r, Z.sub_diag, Z.mul_0_r, Z.add_0_r. by apply due_le_cap.
  - change (len (@nil (option Snapshot))) with 0. rewrite Z.add_0_r. by rewrite u64_id.
Qed.

Lemma sweep_count a n :
  swept_by a (n + 1) = swept_by a n + (if Z.land (u64 (u64 (a + n) + 1)) 1023 =? 0 then 1 else 0).
Proof.
  unfold swept_by. change 1023 with (Z.ones 10). rewrite Z.land_ones by lia. zwrap. change (2 ^ 10) with 1024.
  case_match eqn:E; [apply Z.eqb_eq in E|apply Z.eqb_neq in E]; zlia.
Qed.

Lemma len_app' {A} (l1 l2 : list A) : len (l1 ++ l2) = len l1 + len l2.
Proof. unfold len. rewrite length_app. lia. Qed.

Lemma pace_round l o s0 s s' :
  pace l s0 s -> worker_round hw_cksum dp lc meta0 neigh_at o s = Some (tt, s') -> rounded dp max_lcore lc s s' ->
  pace (l ++ [o]) s0 s'.
Proof.
  intros (la & lb & lr & sa & sb & -> & Ra & Rb & Rr & Hcur & Hnow & Hk & Hd & Hcap & Hlo) E R.
  set (l := la ++ lb ++ lr) in *. set (a := ws_loops s0) in *.
  assert (Hloop : ws_loops s' = u64 (u64 (a + len l) + 1)) by (by rewrite (rd_loops _ _ _ _ _ R), Hlo).
  assert (Rr' : rounds (lr ++ [o]) sb = Some (tt, s')).
  { rewrite (rounds_app _ _ _ _ Rr). cbn [rounds]. unfold mbind, ST_bind. by rewrite E. }
  assert (Hl : len (l ++ [o]) = len l + 1) by (by rewrite len_app').
  assert (Ell : len l = len la + len lb + len lr) by (unfold l; rewrite !len_app'; lia).
  pose proof (sweep_count a (len l)) as Hs. rewrite <- Hloop in Hs.
  pose proof (rd_sweep _ _ _ _ _ R) as S. unfold swept_or_kept in S.
  assert (Hloop' : ws_loops s' = u64 (a + len (l ++ [o]))).
  { rewrite Hloop, Hl. zwrap. rewrite Zplus_mod_idemp_l. f_equal. lia. }
  assert (Same : forall d, swept_by a (len l + 1) = swept_by a (len l) + d ->
    now_tick (ws_w s) <= now_tick (ws_w s') -> cur_tick_ (sessions (ws_w s)) <= cur_tick_ (sessions (ws_w s')) ->
    capacity_ (sessions (ws_w s')) = capacity_ (sessions (ws_w s)) ->
    Z.of_nat (SessionThms.due_at (sessions (ws_w s')) (now_tick (ws_w sb))) + kExpireBudget * d
    <= Z.of_nat (SessionThms.due_at (sessions (ws_w s)) (now_tick (ws_w sb))) -> pace (l ++ [o]) s0 s').
  { intros d Hdd H1 H2 H3 H4. exists la, lb, (lr ++ [o]), sa, sb. fold a. rewrite Hl. split_and!; try done; try lia.
    - unfold l. by rewrite <- !app_assoc.
    - by rewrite Hloop', Hl. }
  destruct (Z.land (ws_loops s') 1023 =? 0).
  - destruct S as (S1 & S2 & S3 & S4). destruct (S4 _ Hnow) as [S5|S5]; [|apply (Same 1); lia].
    exists (la ++ lb), (lr ++ [o]), [], sb, s'. fold a. rewrite Hl, !len_app'. change (len [o]) with 1.
    split_and!; try done; try lia.
    + unfold l. by rewrite app_nil_r, <- !app_assoc.
    + rewrite (rounds_app _ _ _ _ Ra). exact Rb.
    + rewrite <- Z.add_assoc, (Z.add_assoc (len la)), (Z.add_assoc _ _ 1), <- Ell, Hs. unfold sweeps.
      assert (swept_by a (len l) - swept_by a (len la + len lb) <= capacity_ (sessions (ws_w s0)) / kExpireBudget).
      { apply Z.div_le_lower_bound; unfold kExpireBudget in *; lia. }
      lia.
    + replace (len la + len lb + (len lr + 1)) with (len l + 1) by lia. rewrite Z.sub_diag, Z.mul_0_r, Z.add_0_r, <- Hcap, <- S3.
      apply due_le_cap, (rd_table _ _ _ _ _ R).
    + by rewrite Hloop', Hl.
  - destruct S as [S1 S2]. pose proof (calm_due_at _ _ _ _ S2 Hnow). destruct S2 as [S2 S3 _].
    apply (Same 0); lia.
Qed.

(** While the loop keeps its pace the timeouts fit the wheel. *)
Lemma pace_timely slack l l2 s0 s :
  conf_ok dp lc -> in_range (IO := IO) lc -> room (c_timeouts (dp_cfg dp)) slack -> paced slack (l ++ l2) s0 -> pace l s0 s ->
  behind lc s -> table_ok (sessions (ws_w s)) -> timely dp (sessions (ws_w s)) (now_tick (ws_w s)).
Proof.
  intros CO R [Hs Hr] P (la & lb & lr & sa & sb & -> & Ra & Rb & Rr & Hcur & Hnow & Hk & Hd & Hcap & _) B T.
  assert (H : now_tick (ws_w s) <= now_tick (ws_w sa) + slack).
  { apply (P la (lb ++ lr) l2 sa s).
    - by rewrite <- !app_assoc.
    - done.
    - by rewrite (rounds_app _ _ _ _ Rb).
    - rewrite !len_app' in *. unfold window.
      assert (swept_by (ws_loops s0) (len la + (len lb + len lr)) - swept_by (ws_loops s0) (len la + len lb)
        <= capacity_ (sessions (ws_w s0)) / kExpireBudget).
      { apply Z.div_le_lower_bound; unfold kExpireBudget in *; lia. }
      unfold sweeps in *. set (q := capacity_ (sessions (ws_w s0)) / kExpireBudget) in *. clearbody q.
      unfold swept_by in *. zlia. }
  destruct B as [B1 B2]. destruct (R (ws_io s)) as [R1 R2]. destruct (tick_of_eq dp lc CO _ R1 R2) as [_ Ht].
  destruct T as [_ [Tk _] _ _ _ _]. intros st. destruct (Hr st) as [H1 H2]. unfold deadline, kWheelSlots.
  rewrite u64_id; [destruct (_ =? 0); lia|]. unfold is_u64. destruct (_ =? 0); lia.
Qed.

Lemma worker_loop_from slack l :
  dp_ok dp max_lcore -> conf_ok dp lc -> in_range (IO := IO) lc -> room (c_timeouts (dp_cfg dp)) slack ->
  forall l0 s0 s, paced slack (l0 ++ l) s0 -> pace l0 s0 s ->
  WInv dp max_lcore s -> behind lc s -> Forall (fun o => snapshot_ok max_lcore o s) l ->
  wp (worker_loop hw_cksum dp lc meta0 neigh_at l)
    (fun _ s' => WInv dp max_lcore s' /\ tx (ws_w s') = [] /\ loose s' = loose s) s.
Proof.
  intros DP CO R Ro. induction l as [|o l IH]; intros l0 s0 s P K W B HK; cbn [worker_loop].
  - apply (tx_flush_wp dp max_lcore); [apply W|]. intros s' [S1 S2 S3 _ _] T.
    split; [done|]. split; [done|]. lia.
  - apply Forall_cons in HK as [Ho HK].
    pose proof (worker_round_wp hw_cksum dp max_lcore DP lc meta0 neigh_at CO o s R W B Ho) as H.
    apply wp_bind. apply wp_run in H as ([] & s1 & E & Rd). unfold wp at 1. rewrite E.
    pose proof (pace_round _ _ _ _ _ K E Rd) as K1. destruct Rd as [R1 (R3 & R4 & R5) R6 R7 R8 R9 _ _ R10].
    change (o :: l) with ([o] ++ l) in P. rewrite (app_assoc l0 [o] l) in P.
    eapply wp_mono; [apply (IH (l0 ++ [o]) s0 s1)|].
    + done.
    + done.
    + apply R1. by eapply pace_timely.
    + done.
    + eapply Forall_impl; [exact HK|]. intros o' Hs snap E'. destruct (Hs snap E') as (? & ? & ?).
      split; [done|]. split; congruence.
    + intros _ s' (H1 & H2 & H3). split; [done|]. split; [done|]. lia.
Qed.

Lemma paced_one slack o s :
  0 <= slack -> (forall s1, rounds [o] s = Some (tt, s1) -> now_tick (ws_w s1) <= now_tick (ws_w s) + slack) ->
  paced slack [o] s.
Proof.
  intros H0 H l1 l2 l3 s1 s2 E H1 H2 _. destruct l1 as [|o1 l1].
  - injection H1 as <-. destruct l2 as [|o2 l2]; [injection H2 as <-; lia|].
    injection E as <- E. destruct l2; [|discriminate E]. by apply H.
  - injection E as <- E. destruct l1; [|discriminate E]. destruct l2; [|discriminate E].
    injection H2 as <-. lia.
Qed.

End Pace.

(** C5. The worker loop, over any number of rounds, any traffic, any sequence of
    published snapshots and any neighbour tables the master leaves behind, with
    checksums computed by the NIC or in software: every round returns, the
    session invariant holds afterwards, the TX buffer never overflows and is
    empty at the end, and no packet is leaked or released twice (the packets
    taken from queues and rings are exactly those sent, handed over or freed).
    It is assumed that the uptime in milliseconds fits 64 bits, that the
    configured timeouts are shorter than the timing wheel by [slack] seconds, and
    that rounds are fast: no 2048 * (capacity / 4096 + 1) consecutive rounds take
    more than [slack] seconds.  That the wheel then never falls behind so far
    that a deadline does not fit is part of what is proved. *)
Theorem worker_loop_safe hw_cksum (dp : Dataplane (NH := NH)) lc meta0 neigh_at max_lcore slack l s :
  dp_ok dp max_lcore -> conf_ok dp lc -> in_range (IO := IO) lc ->
  room (c_timeouts (dp_cfg dp)) slack -> paced hw_cksum dp lc meta0 neigh_at slack l s ->
  WInv dp max_lcore s -> behind lc s -> now_tick (ws_w s) <= cur_tick_ (sessions (ws_w s)) -> is_u64 (ws_loops s) ->
  Forall (fun o => snapshot_ok max_lcore o s) l ->
  exists s', worker_loop hw_cksum dp lc meta0 neigh_at l s = Some (tt, s') /\
    WInv dp max_lcore s' /\ tx (ws_w s') = [] /\ loose s' = loose s.
Proof.
  intros DP CO R Ro P W B Hc Hu HK.
  pose proof (pace_start hw_cksum dp lc meta0 neigh_at s (wi_table _ _ _ _ _ _ (wv_inv _ _ _ W)) Hu Hc) as K.
  destruct (proj1 (wp_run _ _ _) (worker_loop_from hw_cksum dp lc meta0 max_lcore neigh_at slack l DP CO R Ro [] s s P K W B HK))
    as ([] & s' & H). eauto.
Qed.

(** Uptime overflow: (tsc - start) * 1000 wraps at 2^64, after 71 days at
    3 GHz.  At that moment the tick falls back to 1, and from then on the sweep
    removes nothing, whatever the deadlines of the sessions, until the tick has
    caught up with its old value. *)
Theorem uptime_wrap_stops_expiry lc (t : SessionTable (RH := RH)) :
  start_tsc lc = 0 -> 384 < tsc_hz lc -> pending_ t = kNil -> 1 < cur_tick_ t ->
  tick_of lc 18446744073709551 = 1 + 18446744073709551000 / tsc_hz lc / 1000 /\
  tick_of lc 18446744073709552 = 1 /\
  expire t (tick_of lc 18446744073709552) = Some (t, 0).
Proof.
  intros H0 Hz Hp Hc. assert (T : tick_of lc 18446744073709552 = 1).
  { unfold tick_of, ms_of. rewrite H0. change (u64 (u64 (18446744073709552 - 0) * 1000)) with 384.
    rewrite (Z.div_small 384) by lia. reflexivity. }
  split; [|split; [done|]].
  - unfold tick_of, ms_of. rewrite H0.
    change (u64 (u64 (18446744073709551 - 0) * 1000)) with 18446744073709551000. apply u64_id.
    assert (0 <= 18446744073709551000 / tsc_hz lc < 2 ^ 63).
    { split; [apply Z.div_pos; lia|]. apply Z.div_lt_upper_bound; lia. }
    assert (0 <= 18446744073709551000 / tsc_hz lc / 1000 < 2 ^ 63).
    { split; [apply Z.div_pos; lia|]. apply Z.div_lt_upper_bound; lia. }
    unfold is_u64. lia.
  - rewrite T. unfold expire, expire_fuel, kExpireBudget. rewrite Z.max_l by lia.
    destruct (Z.to_nat (4096 + 0 + 1)) as [|fuel] eqn:E; [lia|]. clear E. cbn [expire_loop].
    rewrite Hp, Z.eqb_refl, (proj2 (Z.ltb_lt _ _)) by lia. done.
Qed.

End Props.

(** In run-to-completion mode every RX queue is polled by exactly one worker,
    the one whose index is the queue number modulo the number of workers. *)
Theorem rx_queues_partition lc i q :
  pipeline lc = false -> 0 <= i < num_workers lc -> 0 <= num_rx_queues lc ->
  num_rx_queues lc + num_workers lc <= 65536 -> 0 <= q < num_rx_queues lc ->
  q ∈ rxqs lc i <-> q mod num_workers lc = i.
Proof.
  intros Hp Hi Hn Hb Hq. unfold rxqs. rewrite Hp.
  assert (G : forall fuel a, 0 <= a -> num_rx_queues lc <= a + Z.of_nat fuel * num_workers lc ->
    q ∈ rx_queues lc fuel a <-> a <= q /\ q mod num_workers lc = a mod num_workers lc).
  { induction fuel as [|fuel IH]; intros a Ha Hf; cbn [rx_queues].
    { rewrite elem_of_nil. lia. }
    destruct (Z.ltb_spec a (num_rx_queues lc)) as [Hlt|Hge]; [|rewrite elem_of_nil; lia].
    rewrite elem_of_cons, u16_id by (unfold is_u16; lia). rewrite IH by lia.
    replace (a + num_workers lc) with (a + 1 * num_workers lc) by lia. rewrite Z.mod_add by lia.
    split.
    - intros [->|[? ?]]; [done|]. split; [lia|done].
    - intros [H1 H2]. destruct (Z.eq_dec q a) as [->|Hne]; [by left|]. right. split; [|done].
      pose proof (Z.div_mod q (num_workers lc) ltac:(lia)). pose proof (Z.div_mod a (num_workers lc) ltac:(lia)).
      assert (a / num_workers lc < q / num_workers lc) by nia. nia. }
  rewrite G by nia. rewrite (Z.mod_small i) by lia.
  split; [tauto|]. intros <-. split; [|done]. apply Z.mod_le; lia.
Qed.

(** ** Witnesses *)

Definition demo_lc : LoopConf := mkLoopConf false 2 2 3000000000 0 [true; true].

(** The worker of [demo_state] with a SYN waiting in its RX queue. *)
Definition demo_ws : WState (RH := gmap_hash FiveTuple) (IO := toy_io) :=
  mkWS (RH := gmap_hash FiveTuple) (IO := toy_io) demo_w demo_snap []
    (mkToy [mbuf_of demo_syn] 0 0 [] : world (RteIo := toy_io)) Busy0 0.

Lemma demo_WInv : WInv (HF := mix_fns) (IO := toy_io) demo_dp 4 demo_ws.
Proof. split; [exact (demo_inv (mbuf_of demo_syn))|reflexivity]. Qed.

(** The master learns nothing while the demonstration runs. *)
Definition demo_neigh_at : WState (RH := gmap_hash FiveTuple) (IO := toy_io) -> Neigh.NeighTable (RH := gmap_hash Z) :=
  fun _ => NeighProps.demo_neigh.

Lemma demo_in_range : in_range (IO := toy_io) demo_lc.
Proof. intros x. cbn. lia. Qed.

(** One round, in which the SYN is forwarded. *)
Lemma demo_paced :
  paced (HF := mix_fns) (MB := flat_mbuf) (IO := toy_io) false demo_dp demo_lc meta0 demo_neigh_at 60 [None] demo_ws.
Proof.
  assert (V : (fun x => now_tick (ws_w x.2)) <$> rounds (HF := mix_fns) (MB := flat_mbuf) (IO := toy_io) false demo_dp demo_lc
    meta0 demo_neigh_at [None] demo_ws = Some 1) by (vm_compute; reflexivity).
  apply paced_one; [lia|]. intros s1 H. rewrite H in V. change (Some (now_tick (ws_w s1)) = Some 1) in V.
  injection V as ->. vm_compute. congruence.
Qed.

Lemma worker_loop_safe_witness :
  exists s', worker_loop (HF := mix_fns) (MB := flat_mbuf) (IO := toy_io) false demo_dp demo_lc meta0 demo_neigh_at [None] demo_ws
    = Some (tt, s') /\ WInv (HF := mix_fns) (IO := toy_io) demo_dp 4 s'.
Proof.
  destruct (worker_loop_safe (HF := mix_fns) (MB := flat_mbuf) (IO := toy_io) false demo_dp demo_lc meta0 demo_neigh_at 4 60 [None]
    demo_ws demo_dp_ok) as (s' & H & W & _).
  - split; [vm_compute; congruence|reflexivity].
  - exact demo_in_range.
  - split; [lia|]. intros []; vm_compute; split; congruence.
  - exact demo_paced.
  - exact demo_WInv.
  - vm_compute. split; congruence.
  - vm_compute. congruence.
  - vm_compute. split; congruence.
  - constructor; [intros snap; discriminate|constructor].
  - exists s'. split; [exact H|exact W].
Defined.

Definition old_table : SessionTable (RH := gmap_hash FiveTuple) := with_cur_tick_ 6148915 SessionProps.tbl0.

Lemma uptime_wrap_stops_expiry_witness :
  tick_of demo_lc 18446744073709551 = 6148915 /\ expire old_table (tick_of demo_lc 18446744073709552) = Some (old_table, 0).
Proof.
  destruct (uptime_wrap_stops_expiry (RH := gmap_hash FiveTuple) demo_lc old_table) as (H1 & _ & H3).
  - reflexivity.
  - reflexivity.
  - vm_compute. reflexivity.
  - reflexivity.
  - split; [rewrite H1; reflexivity|exact H3].
Defined.

Lemma rx_queues_partition_witness : 1 ∈ rxqs demo_lc 1.
Proof.
  apply (rx_queues_partition demo_lc 1 1); cbn; try lia; reflexivity.
Defined.

End WorkerProps.
