(* ===== verification/Receiver.v ===== *)
(** Pipeline mode's receiver: include/dataplane/receiver.h,
    src/dataplane/receiver.cpp. *)
From stdpp Require Import sorting.
From S2P Require Import Prelude Types TcpState Mem Headers Dpdk Session Parser Steering Config Snapshot Neigh Context Processor Worker.
Import Tcp Steering Config Context Processor Worker.

Module Receiver.

Definition kMaxPipelineWorkers : Z := 16.

Section Receiver.
Context `{HF : RteHashFns} `{IO : RteIo}.

Record Dispatcher := mkDispatcher { st_ : Steering.Steering; fullnat_ : bool; lips_ : list IPv4Addr }.

Definition init (steering : Steering.Steering) (mode : ForwardMode) (local_ips : list IPv4Addr) : Dispatcher :=
  mkDispatcher steering (bool_decide (mode = NAT)) (merge_sort Z.le local_ips).

(** for (l : lips_) if (l == ip) return true; return false *)
Definition is_lip (d : Dispatcher) (ip : IPv4Addr) : bool := existsb (Z.eqb ip) (lips_ d).

Definition target (d : Dispatcher) (len : Z) : ST (list Z) Z :=
  let n := n_ (st_ d) in
  if n =? 1 then mret 0
  else if len <? Eth.HEADER_SIZE + Ip.HEADER_SIZE then mret 0
  else
    v4 ← Eth.is_ipv4 0;
    if negb v4 then mret 0
    else
      let ip := Eth.HEADER_SIZE in
      ihl ← Ip.get_header_len ip;
      ff ← rd16 (Ip.flags_fragment ip);
      let frag := Z.land (ntohs ff) 0x3FFF in
      proto ← rd8 (Ip.protocol ip);
      sip ← rd32 (Ip.src_ip ip);
      dip ← rd32 (Ip.dst_ip ip);
      let l4 := ((proto =? 6) || (proto =? 17)) && (frag =? 0) && (ihl >=? Ip.HEADER_SIZE)
                && (len >=? Eth.HEADER_SIZE + ihl + 4) in
      if negb l4 then mret (u16 (rte_jhash_2words sip dip 0 mod n))
      else
        let l4h := Eth.HEADER_SIZE + ihl in
        sport ← rd16 l4h;
        dport ← rd16 (l4h + 2);
        let t := mkFiveTuple sip dip sport dport proto in
        let p := ntohs dport in
        mret (if fullnat_ d && (p >=? kNatPortMin) && (p <=? kNatPortMax) && is_lip d dip
              then ret_owner (st_ d) t else fwd_owner (st_ d) t).

(** ** One batch *)

Record RState := mkR { rv_stats : WorkerStats; rv_io : world; rv_busy : BusyMeter }.

Definition onstats (f : WorkerStats -> WorkerStats) : ST RState unit :=
  modify (fun s => mkR (f (rv_stats s)) (rv_io s) (rv_busy s)).
Definition rio {A} (f : world -> A * world) : ST RState A :=
  fun s => let '(a, x) := f (rv_io s) in Some (a, mkR (rv_stats s) x (rv_busy s)).

Fixpoint free_rest (l : list Mbuf) : ST RState unit :=
  match l with
  | [] => mret tt
  | m :: l => _ ← rio (fun x => (tt, rte_pktmbuf_free m x)); free_rest l
  end.

(** groups[to][counts[to]++] = m for every packet of the batch; the arrays have
    room for kMaxPipelineWorkers groups of BURST_SIZE packets. *)
Fixpoint group (d : Dispatcher) (bufs : list Mbuf) (groups : list (list Mbuf))
  : option (list (list Mbuf)) :=
  match bufs with
  | [] => Some groups
  | m :: bufs =>
    '(to, _) ← target d (data_len m) (mdata m);
    g ← groups !! Z.to_nat to;
    if len g >=? BURST_SIZE then None
    else group d bufs (<[Z.to_nat to := g ++ [m]]> groups)
  end.

(** for (w = 0; w < nw; ++w): one enqueue per group. *)
Fixpoint enqueue_groups (present : list bool) (n : nat) (w : Z) (groups : list (list Mbuf)) : ST RState unit :=
  match n with
  | O => mret tt
  | S n =>
    g ← deref (groups !! Z.to_nat w);
    _ ← (if len g =? 0 then mret tt
         else
           p ← deref (present !! Z.to_nat w);
           if negb p then fault
           else
             ndone ← rio (rte_ring_sp_enqueue_burst (RX_RING w) g);
             when (ndone <? len g)
               (_ ← onstats (add ST_DROP_RX_RING (len g - ndone));
                free_rest (skipn (Z.to_nat ndone) g)));
    enqueue_groups present n (w + 1) groups
  end.

Definition dispatch_rx_queue (lc : LoopConf) (d : Dispatcher) (queue : Z) : ST RState Z :=
  bufs ← rio (rte_eth_rx_burst queue);
  if len bufs =? 0 then mret 0
  else
    _ ← onstats (add ST_RX (len bufs));
    groups ← deref (group d bufs (replicate (Z.to_nat kMaxPipelineWorkers) []));
    _ ← onstats (add_bytes BS_RX (sum_len bufs));
    _ ← enqueue_groups (present lc) (Z.to_nat (num_workers lc)) 0 groups;
    mret (len bufs).

Fixpoint dispatch_all (lc : LoopConf) (d : Dispatcher) (n : nat) (q : Z) : ST RState Z :=
  match n with
  | O => mret 0
  | S n => a ← dispatch_rx_queue lc d q; b ← dispatch_all lc d n (q + 1); mret (a + b)
  end.

(** One round of [receiver_loop]. *)
Definition receiver_round (lc : LoopConf) (d : Dispatcher) : ST RState unit :=
  work ← dispatch_all lc d (Z.to_nat (num_rx_queues lc)) 0;
  b ← gets rv_busy;
  now ← (if u32 (bm_n b + 1) <? kWindow then mret 0 else rio rte_rdtsc);
  modify (fun s => let '(b, st) := busy_loop (negb (work =? 0)) now (rv_busy s) (rv_stats s) in mkR st (rv_io s) b).

(** [rounds] times round the loop of [receiver_loop]. *)
Fixpoint receiver_loop (lc : LoopConf) (cfg : LbConfig) (st : Steering.Steering) (rounds : nat) : ST RState unit :=
  match rounds with
  | O => mret tt
  | S rounds =>
    _ ← receiver_round lc (init st (c_mode cfg) (c_local_ips cfg));
    receiver_loop lc cfg st rounds
  end.

End Receiver.
End Receiver.
