(* ===== verification/ReceiverProps.v ===== *)
(** What the receiver promises: it classifies every frame without leaving it,
    hands each packet to one worker in order, and chooses the worker that owns
    the packet's session. *)
From stdpp Require Import sorting.
From S2P Require Import Prelude Types TcpState Mem Headers Dpdk Session SessionInv SessionSpec SessionThms SessionView Parser ParserThms Forward ForwardThms ForwardProps Steering Scheduler Config Snapshot SnapshotThms Neigh NeighProps Context Processor ProcessorInv ProcessorThms ProcessorHandlers ProcessorMain ProcessorStart ProcessorFrame ProcessorProps Worker Receiver.
Import Tcp Session SessionView Parser ParserThms Forward ForwardProps Steering Config Snapshot SnapshotThms Context Processor ProcessorInv ProcessorThms ProcessorHandlers ProcessorMain ProcessorStart ProcessorFrame ProcessorProps Worker Receiver.

Module ReceiverProps.

Section Target.
Context `{HF : RteHashFns} `{HL : !RteHashFnsLaws HF} `{IO : RteIo}.

Definition dispatch_owner (d : Dispatcher) (t : FiveTuple) : Z :=
  if fullnat_ d && in_nat_range (dst_port t) && is_lip d (dst_ip t)
  then ret_owner (st_ d) t else fwd_owner (st_ d) t.

Lemma dispatch_owner_range d t : steering_ok (st_ d) -> 0 <= dispatch_owner d t < n_ (st_ d).
Proof. intros S. unfold dispatch_owner. case_match; [by apply ret_owner_range|by apply fwd_owner_range]. Qed.

Lemma unfragmented_mask bs : unfragmented bs -> Z.land (ntohs (get16 20 bs)) 0x3FFF = 0.
Proof.
  unfold unfragmented, flag, f_frag. intros [H1%negb_false_iff%Z.eqb_eq H2%negb_false_iff%Z.eqb_eq].
  change 0x3FFF with (Z.lor kIpFlagMF kIpFragOffMask). by rewrite Z.land_lor_distr_r, H1, H2.
Qed.

(** What [target] reads; any frame. *)
Lemma target_wp d bs Q :
  steering_ok (st_ d) ->
  (forall t, 0 <= t < n_ (st_ d) ->
     (l4_frame bs -> t = dispatch_owner d (ftuple bs)) -> Q t bs) ->
  wp (target d (len bs)) Q bs.
Proof.
  intros S HQ. pose proof S as [Sn _ _ _]. unfold target; cbv zeta.
  assert (Z0 : forall t, n_ (st_ d) = 1 -> dispatch_owner d t = 0).
  { intros t E. pose proof (dispatch_owner_range d t S). lia. }
  wp_if; [apply Z.eqb_eq in E; apply wp_ret, HQ; [lia|intros _; by rewrite Z0]|].
  unfold Eth.HEADER_SIZE, Ip.HEADER_SIZE. wp_if.
  { apply Z.ltb_lt in E0. apply wp_ret, HQ; [lia|]. intros [_ _ _ (L & _) _ _ _]. lia. }
  apply Z.ltb_ge in E0. apply wp_bind. unfold Eth.is_ipv4, Eth.get_ether_type, Eth.ether_type. repeat wp_step.
  change (0 + 12) with 12. fold (f_type bs). wp_if.
  { apply negb_true_iff, Z.eqb_neq in E1. apply wp_ret, HQ; [lia|]. intros [_ _ T _ _ _ _]. by rewrite T in E1. }
  unfold Ip.get_header_len, Ip.get_ihl, Ip.version_ihl, Ip.flags_fragment, Ip.protocol, Ip.src_ip, Ip.dst_ip.
  change (14 + 6) with 20. change (14 + 9) with 23. change (14 + 12) with 26. change (14 + 16) with 30.
  repeat wp_step. fold (ihl_of (get8 14 bs)). fold (f_ihl bs) (f_proto bs). change (14 + f_ihl bs) with (f_l4 bs).
  wp_if.
  { apply wp_ret, HQ.
    - pose proof (Z.mod_pos_bound (rte_jhash_2words (get32 26 bs) (get32 30 bs) 0) (n_ (st_ d)) ltac:(lia)).
      rewrite u16_id by (unfold is_u16; lia). lia.
    - intros [_ _ _ Hi Hfr Hl Hp]. exfalso. apply negb_true_iff in E2. destruct (l4_room bs Hi Hl Hp) as [R1 R2].
      destruct Hi as (I1 & I2 & I3 & I4). rewrite (unfragmented_mask bs Hfr), Z.eqb_refl in E2.
      rewrite !Z.geb_leb, (proj2 (Z.leb_le 20 _)), (proj2 (Z.leb_le (f_l4 bs + 4) _)) in E2 by lia.
      destruct Hp as [Hp|Hp]; by rewrite Hp in E2. }
  apply negb_false_iff in E2. apply andb_true_iff in E2 as [E2 E3]. apply Z.geb_le in E3.
  apply andb_true_iff in E2 as [E2 E4]. apply Z.geb_le in E4.
  repeat wp_step; try (unfold f_l4; lia).
  match goal with |- Q ?t bs => assert (Et : t = dispatch_owner d (ftuple bs)) end.
  { unfold dispatch_owner, in_nat_range, ftuple. cbn [dst_port dst_ip]. by rewrite !andb_assoc. }
  rewrite Et. apply HQ; [by apply dispatch_owner_range|done].
Qed.

(** ** Batches *)

(** The worker a packet goes to. *)
Definition dest (d : Dispatcher) (m : Mbuf) : Z :=
  match target d (data_len m) (mdata m) with Some (t, _) => t | None => 0 end.

Lemma target_dest d m :
  steering_ok (st_ d) ->
  target d (data_len m) (mdata m) = Some (dest d m, mdata m) /\ 0 <= dest d m < n_ (st_ d).
Proof.
  intros S. assert (W : wp (target d (len (mdata m))) (fun t b => b = mdata m /\ 0 <= t < n_ (st_ d)) (mdata m)).
  { apply target_wp; [done|]. intros t Ht _. done. }
  unfold dest, data_len. unfold wp in W. destruct (target _ _ _) as [[t b]|]; [|done]. by destruct W as [-> W].
Qed.

Abbreviation to_worker d w := (filter (fun m => dest d m = w)).

(** Grouping keeps the order of the packets of a worker. *)
Lemma group_spec d bufs groups seen :
  steering_ok (st_ d) -> n_ (st_ d) <= len groups -> len seen + len bufs <= BURST_SIZE ->
  (forall w g, groups !! w = Some g -> g = to_worker d (Z.of_nat w) seen) ->
  exists groups', group d bufs groups = Some groups' /\ length groups' = length groups /\
    forall w g, groups' !! w = Some g -> g = to_worker d (Z.of_nat w) (seen ++ bufs).
Proof.
  intros S Hn. revert groups seen Hn. induction bufs as [|m bufs IH]; intros groups seen Hn Hb Hg; cbn [group].
  { exists groups. by rewrite app_nil_r. }
  destruct (target_dest d m S) as [-> Ht]. cbn [mbind option_bind].
  destruct (lookup_lt_is_Some_2 groups (Z.to_nat (dest d m))) as [g Eg]; [unfold len in Hn; lia|].
  rewrite Eg. cbn [mbind option_bind]. pose proof (Hg _ _ Eg) as Hgs.
  assert (Hlen : len g <= len seen).
  { rewrite Hgs. unfold len. apply inj_le, length_filter. }
  unfold len in Hb, Hlen, Hn |- *. cbn [length] in Hb. rewrite Z.geb_leb, (proj2 (Z.leb_gt _ _)) by lia.
  destruct (IH (<[Z.to_nat (dest d m) := g ++ [m]]> groups) (seen ++ [m])) as (groups' & H1 & H2 & H3).
  - unfold len. rewrite length_insert. lia.
  - unfold len. rewrite length_app. cbn [length]. lia.
  - intros w g'. rewrite filter_app, filter_cons, filter_nil. intros [(<- & <- & _)|[Hne Hw]]%list_lookup_insert_Some.
    + rewrite decide_True by lia. rewrite Hgs, Z2Nat.id by lia. done.
    + rewrite decide_False by lia. rewrite app_nil_r. by apply Hg.
  - exists groups'. rewrite H1, H2, length_insert. split; [done|]. split; [done|].
    intros w g' Hw. rewrite (H3 w g' Hw), <- app_assoc. done.
Qed.

(** ** Enqueueing *)
Section Enqueue.
Context `{IL : !RteIoLaws IO}.
Implicit Types s : RState (IO := IO).

Lemma rio_wp {A} (f : world -> A * world) Q s :
  (forall a x, f (rv_io s) = (a, x) -> Q a (mkR (rv_stats s) x (rv_busy s))) -> wp (rio f) Q s.
Proof. intros H. unfold wp, rio. destruct (f (rv_io s)) as [a x]. by apply H. Qed.

Lemma free_rest_wp l Q s :
  (forall x, held x = held (rv_io s) - len l -> Q tt (mkR (rv_stats s) x (rv_busy s))) -> wp (free_rest l) Q s.
Proof.
  revert s. induction l as [|m l IH]; intros s HQ; cbn [free_rest].
  - apply wp_ret. replace s with (mkR (rv_stats s) (rv_io s) (rv_busy s)) by (by destruct s).
    apply HQ. unfold len. cbn [length]. lia.
  - apply wp_bind, rio_wp. intros [] x [= <-]. apply IH. intros x Hx. cbn [rv_io rv_stats rv_busy] in *.
    apply HQ. rewrite Hx, (proj1 (free_spec m _)). unfold len. cbn [length]. lia.
Qed.

(** The packets of a range of groups. *)
Definition group_total (groups : list (list Mbuf)) (w n : nat) : Z := len (mjoin (take n (skipn w groups))).

Lemma enqueue_groups_wp present n w groups Q s :
  (w + n <= length groups)%nat -> (forall i, (i < w + n)%nat -> present !! i = Some true) ->
  (forall s', held (rv_io s') = held (rv_io s) - group_total groups w n -> Q tt s') ->
  wp (enqueue_groups present n (Z.of_nat w) groups) Q s.
Proof.
  revert w s. induction n as [|n IH]; intros w s Hl Hp HQ; cbn [enqueue_groups].
  { apply wp_ret, HQ. unfold group_total. rewrite take_0. unfold len. cbn. lia. }
  rewrite Nat2Z.id. destruct (lookup_lt_is_Some_2 groups w) as [g Eg]; [lia|].
  apply wp_bind, (wp_deref _ g); [done|].
  assert (T : group_total groups w (S n) = len g + group_total groups (S w) n).
  { unfold group_total, len. rewrite (drop_S groups g w Eg), firstn_cons.
    change (mjoin (g :: ?l)) with (g ++ mjoin l). rewrite length_app. lia. }
  assert (K : forall s1, held (rv_io s1) = held (rv_io s) - len g ->
    wp (enqueue_groups present n (Z.of_nat w + 1) groups) Q s1).
  { intros s1 H1. replace (Z.of_nat w + 1) with (Z.of_nat (S w)) by lia. apply IH; [lia|intros; apply Hp; lia|].
    intros s' Hs. apply HQ. rewrite Hs, H1, T. lia. }
  apply wp_bind. wp_if; [apply Z.eqb_eq in E; apply wp_ret, K; lia|].
  rewrite (Hp w) by lia. apply wp_bind, (wp_deref _ true); [done|]. cbn [negb].
  apply wp_bind, rio_wp. intros k x (Hk & Hh & _)%enq_burst_spec. apply wp_when.
  - intros _. apply wp_bind, wp_modify, free_rest_wp. intros x' Hx. apply K. cbn [rv_io] in *.
    rewrite Hx, Hh. unfold len in *. rewrite length_skipn. lia.
  - intros Hge%Z.ltb_ge. apply K. cbn [rv_io]. lia.
Qed.

End Enqueue.

Lemma filter_total (f : Mbuf -> nat) n l :
  Forall (fun m => f m < n)%nat l ->
  length (mjoin ((fun w => filter (fun m => f m = w) l) <$> seq 0 n)) = length l.
Proof.
  intros H. induction H as [|m l Hm H IH].
  { assert (E : forall k a, length (mjoin ((fun w => filter (fun m : Mbuf => f m = w) []) <$> seq a k)) = 0%nat).
    { induction k as [|k IH]; intros a; [done|]. cbn. apply IH. } apply E. }
  assert (C : forall k a, length (mjoin ((fun w => filter (fun m => f m = w) (m :: l)) <$> seq a k))
    = ((if decide (a <= f m < a + k)%nat then 1 else 0)
       + length (mjoin ((fun w => filter (fun m => f m = w) l) <$> seq a k)))%nat).
  { induction k as [|k IHk]; intros a; [by rewrite decide_False by lia|].
    change (seq a (S k)) with (a :: seq (S a) k). rewrite !fmap_cons.
    change (mjoin (?x :: ?l)) with (x ++ mjoin l). rewrite !length_app, IHk, filter_cons.
    repeat case_decide; cbn [length]; lia. }
  rewrite C, IH, decide_True by lia. cbn [length]. lia.
Qed.

Lemma group_batch d bufs :
  steering_ok (st_ d) -> n_ (st_ d) <= kMaxPipelineWorkers -> len bufs <= BURST_SIZE ->
  exists groups, group d bufs (replicate (Z.to_nat kMaxPipelineWorkers) []) = Some groups /\
    groups = (fun w => to_worker d (Z.of_nat w) bufs) <$> seq 0 16.
Proof.
  intros S Hn Hb. destruct (group_spec d bufs (replicate (Z.to_nat kMaxPipelineWorkers) []) [] S) as (g & H1 & H2 & H3).
  - unfold len. rewrite length_replicate. unfold kMaxPipelineWorkers in *. lia.
  - unfold len in *. cbn [length]. lia.
  - intros w g [-> _]%lookup_replicate. done.
  - exists g. split; [done|]. rewrite length_replicate in H2. change (Z.to_nat kMaxPipelineWorkers) with 16%nat in H2.
    apply list_eq_same_length with 16%nat; [by rewrite length_fmap, length_seq|done|].
    intros i x y Hi Hx Hy. rewrite (H3 i x Hx). cbn [app].
    rewrite list_lookup_fmap, lookup_seq_lt in Hy by done. injection Hy as <-. done.
Qed.

Lemma groups_total d bufs n :
  steering_ok (st_ d) -> n_ (st_ d) <= Z.of_nat n <= 16 ->
  group_total ((fun w => to_worker d (Z.of_nat w) bufs) <$> seq 0 16) 0 n = len bufs.
Proof.
  intros S Hn. unfold group_total. rewrite drop_0, <- fmap_take, take_seq, Nat.min_l by lia.
  unfold len. f_equal.
  rewrite <- (filter_total (fun m => Z.to_nat (dest d m)) n bufs).
  - f_equal. f_equal. apply list_fmap_ext. intros i w _. apply list_filter_iff.
    intros m. pose proof (proj2 (target_dest d m S)). lia.
  - apply Forall_forall. intros m _. pose proof (proj2 (target_dest d m S)). lia.
Qed.

End Target.
(** ** Properties *)

Section Props.
Context `{RH : RteHash FiveTuple} `{RL : !RteHashLaws FiveTuple RH} `{NH : RteHash Z}.
Context `{HF : RteHashFns} `{HL : !RteHashFnsLaws HF} `{MB : RteMbuf} `{ML : !RteMbufLaws MB}.
Context `{IO : RteIo} `{IL : !RteIoLaws IO}.

(** C23. A batch is split without loss: whatever the frames contain, the receiver
    stays inside them and inside its arrays, worker [w] is offered exactly its
    packets in the order of arrival, and every packet ends up on a ring or is
    freed (none is kept). *)
Theorem dispatch_conserves lc d q (s : RState (IO := IO)) :
  steering_ok (st_ d) -> n_ (st_ d) = num_workers lc -> num_workers lc <= kMaxPipelineWorkers ->
  (forall i, Z.of_nat i < num_workers lc -> present lc !! i = Some true) ->
  (forall bufs, len bufs <= BURST_SIZE -> exists groups,
     group d bufs (replicate (Z.to_nat kMaxPipelineWorkers) []) = Some groups /\
     forall w, (w < 16)%nat -> groups !! w = Some (filter (fun m => dest d m = Z.of_nat w) bufs)) /\
  exists nb s', dispatch_rx_queue lc d q s = Some (nb, s') /\ held (rv_io s') = held (rv_io s).
Proof.
  intros S En Hw Hp. split.
  - intros bufs Hb. destruct (group_batch d bufs S ltac:(lia) Hb) as (g & H & ->). eexists. split; [exact H|].
    intros w Hw16. by rewrite list_lookup_fmap, lookup_seq_lt.
  - rewrite <- wp_run. unfold dispatch_rx_queue. pose proof (so_n _ S) as Sn.
    apply wp_bind, rio_wp. intros bufs x (Hb & _ & Hh & _)%rx_spec. wp_if.
    { apply Z.eqb_eq in E. apply wp_ret. cbn [rv_io]. lia. }
    apply wp_bind, wp_modify. destruct (group_batch d bufs S ltac:(lia) Hb) as (g & -> & ->).
    apply wp_bind, (wp_deref _ ((fun w => filter (fun m => dest d m = Z.of_nat w) bufs) <$> seq 0 16)); [done|].
    apply wp_bind, wp_modify, wp_bind.
    apply (enqueue_groups_wp (present lc) (Z.to_nat (num_workers lc)) 0).
    + rewrite length_fmap, length_seq. unfold kMaxPipelineWorkers in Hw. lia.
    + intros i Hi. apply Hp. lia.
    + intros s' Hs. apply wp_ret. cbn [rv_io] in Hs. rewrite Hs, groups_total by (done || unfold kMaxPipelineWorkers in Hw; lia).
      lia.
Qed.

Lemma rest_stays hw_cksum (dp : Dataplane (NH := NH)) snap meta rd (s : PState (RH := RH)) r s' :
  fwd_owner (dp_steering dp) (to_five_tuple meta) = idx (p_w s) ->
  (if (meta_dst_ip meta =? hc_src snap) && in_hc_range (meta_dst_port meta)
   then handle_hc_response meta
   else svc ← deref (find_service snap (meta_dst_ip meta) (meta_dst_port meta) (meta_ip_protocol meta));
     match svc with
     | Some svc => handle_inbound hw_cksum dp svc meta rd
     | None =>
       local ← deref (is_local snap (meta_dst_ip meta));
       mret (drop (if (local : bool) then ST_DROP_NO_SERVICE else ST_DROP_NOT_LOCAL))
     end) s = Some (r, s') -> stays r.
Proof.
  intros Ho. destruct (_ && _).
  - assert (Y : yields (S := PState (RH := RH)) stays (handle_hc_response meta)) by (unfold handle_hc_response; cbv zeta; yields_solve).
    apply Y.
  - intros ([svc|] & s1 & Hd & E)%bind_inv.
    + assert (s1 = s) as ->. { destruct (find_service _ _ _ _); [by injection Hd|done]. }
      revert E. by apply owner_keeps_inbound.
    + apply bind_inv in E as (b & s2 & _ & E). by injection E as <- _.
Qed.

(** C30. The receiver finds the owner: a TCP or UDP packet (not to 0.0.0.0) that the
    receiver assigns to a worker is never handed on to another worker. *)
Theorem dispatched_not_redirected hw_cksum (dp : Dataplane (NH := NH)) max_lcore meta0 mode lips (s : PState (RH := RH)) :
  dp_ok dp max_lcore ->
  inv dp max_lcore s -> l4_frame (mdata (p_m s)) -> admitted dp (p_m s) ->
  mode = Snapshot.mode (p_snap s) -> (mode = NAT -> lips = local_ips (p_snap s)) ->
  get32 30 (mdata (p_m s)) <> 0 ->
  target (Receiver.init (dp_steering dp) mode lips) (data_len (p_m s)) (mdata (p_m s))
    = Some (idx (p_w s), mdata (p_m s)) ->
  exists r s', process_packet hw_cksum dp meta0 false s = Some (r, s') /\ stays r.
Proof.
  intros DP I LF Ha Em El Hd Ht. set (d := Receiver.init (dp_steering dp) mode lips) in *.
  assert (Eo : idx (p_w s) = dispatch_owner d (ftuple (mdata (p_m s)))).
  { assert (W : wp (target d (data_len (p_m s))) (fun t _ => t = dispatch_owner d (ftuple (mdata (p_m s)))) (mdata (p_m s))).
    { apply target_wp; [apply (do_steering _ _ DP)|]. intros t _ H. by apply H. }
    unfold wp in W. by rewrite Ht in W. }
  assert (Er : is_return (ftuple (mdata (p_m s))) s
    = fullnat_ d && in_nat_range (dst_port (ftuple (mdata (p_m s)))) && Receiver.is_lip d (dst_ip (ftuple (mdata (p_m s))))).
  { unfold is_return, d, Receiver.init, Receiver.is_lip. cbn [fullnat_ lips_]. rewrite Em.
    destruct (Snapshot.mode (p_snap s)) eqn:Emd; [|done]. rewrite bool_decide_true by done. cbn [andb].
    rewrite andb_comm. f_equal. rewrite (El Em). cbn [dst_ip ftuple]. apply Bool.eq_true_iff_eq.
    rewrite bool_decide_eq_true, existsb_exists. split.
    - intros [H|H]; [done|]. exists (get32 30 (mdata (p_m s))). split; [|apply Z.eqb_refl].
      apply list_elem_of_In. by rewrite merge_sort_Permutation.
    - intros (x & Hx%list_elem_of_In & ->%Z.eqb_eq). right. by rewrite merge_sort_Permutation in Hx. }
  rewrite <- wp_run. pose proof LF as [F1 F2 F3 F4 F5 F6 F7].
  apply (process_packet_case_wp hw_cksum dp max_lcore DP meta0 false); try done.
  - intros Hty. by rewrite Hty in F3.
  - intros meta _ _ P. apply (admitted_l4_wp hw_cksum dp); [done|done|done|].
    pose proof (reports_tuple _ _ (pa_reports _ _ P) F7) as Htu. unfold dispatch_owner in Eo. rewrite <- Er in Eo.
    apply (handle_l4_case_wp hw_cksum dp max_lcore meta false); [done|done|done|..]; intros s1 Q1 Hr; rewrite Hr in Eo.
    + pose proof (handle_return_wp hw_cksum dp max_lcore DP meta false s1) as W. rewrite (qu_m _ _ Q1), (qu_snap _ _ Q1) in W.
      assert (I1 : inv dp max_lcore s1) by (by eapply quiet_inv).
      specialize (W I1 (is_return_nat _ _ Hr) P F7). unfold wp in *.
      destruct (handle_return _ _ _ _ _) as [[r s']|] eqn:E; [|done]. eapply owner_keeps_return; [|exact E].
      rewrite Htu, (qu_idx _ _ Q1). done.
    + pose proof (handle_rest_wp hw_cksum dp max_lcore DP meta false s s1 I Q1 P F7 Hr) as W. unfold wp in *.
      match type of W with context [match ?k s1 with _ => _ end] => destruct (k s1) as [[r s']|] eqn:E end; [|done].
      eapply rest_stays; [|exact E]. rewrite Htu, (qu_idx _ _ Q1). done.
Qed.

End Props.
(** ** Witnesses *)

Definition demo_pipe : LoopConf := mkLoopConf true 2 1 3000000000 0 [true; true].
Definition demo_dispatcher : Dispatcher := Receiver.init (dp_steering demo_dp) NAT [3355443210].
Definition demo_rstate : RState (IO := toy_io) :=
  mkR (IO := toy_io) Stats0 (mkToy [mbuf_of demo_syn; mbuf_of []; mbuf_of demo_syn] 0 0 [] : world (RteIo := toy_io)) Busy0.

Lemma dispatch_conserves_witness :
  exists nb s', dispatch_rx_queue (HF := mix_fns) (IO := toy_io) demo_pipe demo_dispatcher 0 demo_rstate = Some (nb, s')
    /\ held (rv_io s') = 0.
Proof.
  destruct (dispatch_conserves (HF := mix_fns) (IO := toy_io) demo_pipe demo_dispatcher 0 demo_rstate)
    as (_ & nb & s' & H & Hh).
  - exact (do_steering _ _ demo_dp_ok).
  - reflexivity.
  - vm_compute. congruence.
  - intros [|[|i]] Hi; [reflexivity|reflexivity|cbn in Hi; lia].
  - exists nb, s'. split; [exact H|exact Hh].
Defined.

Lemma dispatched_not_redirected_witness :
  exists r s', process_packet (HF := mix_fns) (MB := flat_mbuf) false demo_dp meta0 false (demo_state (mbuf_of demo_syn))
    = Some (r, s') /\ stays r.
Proof.
  apply (dispatched_not_redirected (HF := mix_fns) (MB := flat_mbuf) false demo_dp 4 meta0 NAT [3355443210]
           (demo_state (mbuf_of demo_syn)) demo_dp_ok (demo_inv _)).
  - exact demo_syn_l4.
  - split; [vm_compute; reflexivity|vm_compute; discriminate].
  - vm_compute. reflexivity.
  - intros _. vm_compute. reflexivity.
  - vm_compute. discriminate.
  - vm_compute. reflexivity.
Defined.

End ReceiverProps.
