(* ===== verification/HealthCheck.v ===== *)
(** Health checks: include/ctrl/healthcheck.h, src/ctrl/healthcheck.cpp, with
    what they use of the master thread: ARP requests (src/dataplane/master.cpp)
    and the TX buffer (src/dataplane/worker.cpp).

    The iteration order of an unordered_map is unspecified; where it matters it
    is an argument. *)
From S2P Require Import Prelude Types TcpState Mem Headers Dpdk Session Checksum Parser Steering Config Snapshot Neigh Context Processor Worker.
Import Tcp Session Checksum Parser Steering Config Snapshot Context Processor Worker.

(** The packet pool and the rings between master, workers and control thread. *)
Class RteCtl {IO : RteIo} := {
  rte_pktmbuf_alloc : world -> option Mbuf * world;
  health_enqueue : Z -> bool -> world -> bool * world;
  master_dequeue : world -> list MasterEvent * world
}.

(** Documented behaviour: an allocated packet is empty and held by the caller;
    at most 64 events are taken from the ring at a time, as the workers posted
    them, with the six bytes of a MAC address. *)
Class RteCtlLaws {IO : RteIo} {IL : RteIoLaws IO} (RC : RteCtl (IO := IO)) := {
  alloc_spec x o x' : rte_pktmbuf_alloc x = (o, x') ->
    (forall m, o = Some m -> mdata m = []) /\
    held x' = held x + (if o then 1 else 0) /\ clock x <= clock x';
  health_spec id b x r x' : health_enqueue id b x = (r, x') -> held x' = held x /\ clock x <= clock x';
  events_spec x l x' : master_dequeue x = (l, x') ->
    len l <= 64 /\ Forall (fun e => len (ev_mac e) = 6 /\ frame (ev_mac e)) l
    /\ held x' = held x /\ clock x <= clock x'
}.

(** Packets to be had at any time; one event in the ring: 10.0.0.7 is wanted. *)
#[export] Instance toy_ctl : RteCtl (IO := toy_io) := {|
  rte_pktmbuf_alloc x :=
    (Some (mkMbuf [] 0 1 2048 0 0 0 0 0), mkToy (toy_rx x) (toy_held x + 1) (toy_clock x) (toy_sent x));
  health_enqueue id b x := (true, x);
  master_dequeue x := ([mkEvent EV_NEIGH_MISS 0 0 117440522 0 0 mac_zero 0], x)
|}.

#[export] Instance toy_ctl_laws : RteCtlLaws toy_ctl.
Proof.
  split; cbn.
  - intros x o x' [= <- <-]. split; [by intros m [= <-]|]. split; [done|exact (Z.le_refl _)].
  - intros id b x r x' [= <- <-]. split; [done|exact (Z.le_refl _)].
  - intros x l x' [= <- <-]. split; [unfold len; cbn; lia|]. split; [|split; [done|exact (Z.le_refl _)]].
    apply Forall_singleton. split; [done|]. repeat constructor; zwrap; lia.
Qed.

Module HealthCheck.

Record Probe := mkProbe {
  p_rs_id : Z;
  p_ip : IPv4Addr;
  p_port : Z;
  p_mac : MacAddr;
  p_snap_healthy : bool;
  p_healthy : bool;
  p_in_flight : bool;
  p_src_port : Z;
  p_isn : Z;
  p_sent_ms : Z;
  p_next_ms : Z;
  p_reported_ms : Z;
  p_ok : Z;
  p_fail : Z
}.

Definition Probe0 : Probe := mkProbe 0 0 0 mac_zero true true false 0 0 0 0 0 0 0.

Record HealthChecker := mkHc {
  conf_ : HealthConf;
  src_ip_ : IPv4Addr;
  next_port_ : Z;
  isn_seed_ : Z;
  probes_ : gmap Z Probe;
  by_port_ : gmap Z Z
}.

(** The default member initialisers. *)
Definition Hc0 (conf : HealthConf) : HealthChecker := mkHc conf 0 kHcPortMin 1515852340 ∅ ∅.

Definition init (conf : HealthConf) (src_ip : IPv4Addr) (h : HealthChecker) : HealthChecker :=
  mkHc conf src_ip (next_port_ h) (isn_seed_ h) (probes_ h) (by_port_ h).

Definition set_probes (v : gmap Z Probe) (h : HealthChecker) : HealthChecker :=
  mkHc (conf_ h) (src_ip_ h) (next_port_ h) (isn_seed_ h) v (by_port_ h).
Definition set_ports (v : gmap Z Z) (h : HealthChecker) : HealthChecker :=
  mkHc (conf_ h) (src_ip_ h) (next_port_ h) (isn_seed_ h) (probes_ h) v.

(** ** The verdict on a real server *)

Definition set_counts (ok fail : Z) (healthy : bool) (p : Probe) : Probe :=
  mkProbe (p_rs_id p) (p_ip p) (p_port p) (p_mac p) (p_snap_healthy p) healthy (p_in_flight p)
    (p_src_port p) (p_isn p) (p_sent_ms p) (p_next_ms p) (p_reported_ms p) ok fail.
Definition set_flight (v : bool) (p : Probe) : Probe :=
  mkProbe (p_rs_id p) (p_ip p) (p_port p) (p_mac p) (p_snap_healthy p) (p_healthy p) v
    (p_src_port p) (p_isn p) (p_sent_ms p) (p_next_ms p) (p_reported_ms p) (p_ok p) (p_fail p).
Definition set_next (v : Z) (p : Probe) : Probe :=
  mkProbe (p_rs_id p) (p_ip p) (p_port p) (p_mac p) (p_snap_healthy p) (p_healthy p) (p_in_flight p)
    (p_src_port p) (p_isn p) (p_sent_ms p) v (p_reported_ms p) (p_ok p) (p_fail p).
Definition set_reported (v : Z) (p : Probe) : Probe :=
  mkProbe (p_rs_id p) (p_ip p) (p_port p) (p_mac p) (p_snap_healthy p) (p_healthy p) (p_in_flight p)
    (p_src_port p) (p_isn p) (p_sent_ms p) (p_next_ms p) v (p_ok p) (p_fail p).
(** ip, port, mac and snap_healthy, from the snapshot. *)
Definition set_target (r : RsState) (p : Probe) : Probe :=
  mkProbe (p_rs_id p) (r_ip r) (r_port r) (r_mac r) (r_healthy r) (p_healthy p) (p_in_flight p)
    (p_src_port p) (p_isn p) (p_sent_ms p) (p_next_ms p) (p_reported_ms p) (p_ok p) (p_fail p).
Definition set_sent (port isn now : Z) (p : Probe) : Probe :=
  mkProbe (p_rs_id p) (p_ip p) (p_port p) (p_mac p) (p_snap_healthy p) (p_healthy p) true
    port isn now (p_next_ms p) (p_reported_ms p) (p_ok p) (p_fail p).

Definition result (c : HealthConf) (p : Probe) (ok : bool) : Probe :=
  if ok then
    let n := u32 (p_ok p + 1) in
    set_counts n 0 (if (n >=? hc_rise c) && negb (p_healthy p) then true else p_healthy p) p
  else
    let n := u32 (p_fail p + 1) in
    set_counts 0 n (if (n >=? hc_fall c) && p_healthy p then false else p_healthy p) p.

(** ** The real servers of the snapshot *)

(** One element of [snap.rs_pool]; [None] is a fault. *)
Definition sync_rs (c : HealthConf) (snap : Snapshot) (now_ms : Z) (acc : gmap Z Probe * list Z) (r : RsState)
  : option (gmap Z Probe * list Z) :=
  let '(probes, seen) := acc in
  svc ← services snap !! Z.to_nat (r_svc_idx r);
  if negb (s_proto svc =? 6) then Some (probes, seen)
  else
    p ← (match probes !! r_id r with
         | Some p => Some p
         | None =>
           if hc_interval_ms c =? 0 then None
           else Some (mkProbe (r_id r) 0 0 mac_zero true (r_healthy r) false 0 0 0
                        (u64 (now_ms + u32 (r_id r * 37) mod hc_interval_ms c)) 0 0 0)
         end);
    Some (<[r_id r := set_target r p]> probes, seen ++ [r_id r]).

(** Probes of real servers that are gone are dropped. *)
Definition drop_gone (seen : list Z) (h : HealthChecker) : HealthChecker :=
  let gone := filter (fun kv => kv.1 ∉ seen) (probes_ h) in
  set_ports (map_fold (fun _ p ports => if p_in_flight p then delete (p_src_port p) ports else ports)
               (by_port_ h) gone)
    (set_probes (filter (fun kv => kv.1 ∈ seen) (probes_ h)) h).

Definition sync (snap : Snapshot) (now_ms : Z) (h : HealthChecker) : option HealthChecker :=
  '(probes, seen) ← foldl (fun acc r => a ← acc; sync_rs (conf_ h) snap now_ms a r)
                      (Some (probes_ h, [])) (rs_pool snap);
  Some (drop_gone seen (set_probes probes h)).

(** ** Probes *)

(** The port loop of [send_probe]: the port chosen (if any) and next_port_. *)
Fixpoint pick_port (n : nat) (next : Z) (by_port : gmap Z Z) : option Z * Z :=
  match n with
  | O => (None, next)
  | S n =>
    let next' := if next >=? kHcPortMax then kHcPortMin else next + 1 in
    match by_port !! next with
    | None => (Some next, next')
    | Some _ => pick_port n next' by_port
    end
  end.

(** The state changes of [send_probe]; the packet follows. *)
Definition start_probe (id now_ms : Z) (p : Probe) (h : HealthChecker) : Probe * HealthChecker :=
  let '(port, next) := pick_port (Z.to_nat (kHcPortMax - kHcPortMin + 1)) (next_port_ h) (by_port_ h) in
  let port := default (p_src_port p) port in
  let seed := u32 (u32 (isn_seed_ h * 1103515245) + 12345) in
  let p := set_sent port seed now_ms p in
  (p, mkHc (conf_ h) (src_ip_ h) next seed (<[id := p]> (probes_ h)) (<[port := p_rs_id p]> (by_port_ h))).

(** The frame of [build_tcp]: 54 bytes, cleared first. *)
Definition tcp_frame (src_ip : IPv4Addr) (local_mac dst_mac : MacAddr) (p : Probe) (flags seq ack : Z)
  : ST (list Z) unit :=
  let eth := 0 in
  let ip := Eth.HEADER_SIZE in
  let tcp := ip + Ip.HEADER_SIZE in
  _ ← wr_bytes 0 (replicate 54 0);
  _ ← Eth.set_dst_mac eth dst_mac;
  _ ← Eth.set_src_mac eth local_mac;
  _ ← Eth.set_ether_type eth 2048;
  _ ← wr8 (Ip.version_ihl ip) 69;
  _ ← wr16 (Ip.total_length ip) (htons 40);
  _ ← wr16 (Ip.flags_fragment ip) (htons 16384);
  _ ← wr8 (Ip.ttl ip) 64;
  _ ← wr8 (Ip.protocol ip) 6;
  _ ← wr32 (Ip.src_ip ip) src_ip;
  _ ← wr32 (Ip.dst_ip ip) (p_ip p);
  _ ← update ip;
  _ ← wr16 (TcpH.src_port tcp) (htons (p_src_port p));
  _ ← wr16 (TcpH.dst_port tcp) (htons (p_port p));
  _ ← wr32 (TcpH.seq_num tcp) (htonl seq);
  _ ← wr32 (TcpH.ack_num tcp) (htonl ack);
  _ ← wr8 (TcpH.data_offset tcp) 80;
  _ ← wr8 (TcpH.flags tcp) flags;
  _ ← wr16 (TcpH.flags tcp + 1) (htons (if flag flags TCP_RST then 0 else 1024));
  recalculate_tcp_checksum ip tcp 20.

Section Master.
Context `{RH : RteHash FiveTuple} `{NH : RteHash Z} `{HF : RteHashFns} `{MB : RteMbuf} `{IO : RteIo}.
Context `{RC : !RteCtl}.
Context (dp : Dataplane (NH := NH)).

(** The master thread: its context (in [m_ws]), the neighbour table it owns, and
    the health checker. *)
Record MState := mkM {
  m_ws : WState (RH := RH) (IO := IO);
  m_neigh : Neigh.NeighTable (RH := NH);
  m_hc : HealthChecker
}.

Definition onws {A} (k : ST WState A) : ST MState A :=
  zoom m_ws (fun v s => mkM v (m_neigh s) (m_hc s)) k.
Definition onneigh (f : Neigh.NeighTable -> Neigh.NeighTable) : ST MState unit :=
  modify (fun s => mkM (m_ws s) (f (m_neigh s)) (m_hc s)).
Definition onhc (f : HealthChecker -> HealthChecker) : ST MState unit :=
  modify (fun s => mkM (m_ws s) (m_neigh s) (f (m_hc s))).
Definition now_of : ST MState Z := gets (fun s => now_ms (ws_w (m_ws s))).
Definition tick_now : ST MState Z := gets (fun s => now_tick (ws_w (m_ws s))).

(** ** ARP requests (master.cpp) *)

(** [None]: no service is configured. *)
Definition arp_src_ip : option IPv4Addr :=
  match c_local_ips (dp_cfg dp) with
  | ip :: _ => Some ip
  | [] => if negb (c_hc_src (dp_cfg dp) =? 0) then Some (c_hc_src (dp_cfg dp))
          else sc_vip <$> head (c_services (dp_cfg dp))
  end.

(** A new packet of [n] bytes filled by [fill]; nothing if the pool is empty. *)
Definition new_packet (n : Z) (fill : ST (list Z) unit) : ST MState bool :=
  o ← onws (io rte_pktmbuf_alloc);
  match o with
  | None => mret false
  | Some m =>
    match rte_pktmbuf_append m n with
    | None => _ ← onws (free_mbuf m); mret false
    | Some m =>
      '(_, b) ← deref (fill (mdata m));
      _ ← onws (tx_buffer_add (set_mdata b m));
      mret true
    end
  end.

Definition send_arp (target : IPv4Addr) (gratuitous : bool) : ST MState unit :=
  _ ← new_packet (Eth.HEADER_SIZE + Arp.HEADER_SIZE)
        (if gratuitous then _ ← Arp.build_gratuitous target (local_mac dp); mret tt
         else src ← deref arp_src_ip; _ ← Arp.build_request target src (local_mac dp); mret tt);
  mret tt.

Definition master_request_neigh (ip : IPv4Addr) : ST MState unit :=
  if ip =? 0 then mret tt
  else
    now ← tick_now;
    t ← gets m_neigh;
    let '(want, t) := Neigh.want_request t ip now in
    _ ← onneigh (fun _ => t);
    when want (send_arp ip false).

(** ** Probes *)

Definition build_tcp (p : Probe) (flags seq ack : Z) : ST MState bool :=
  t ← gets m_neigh;
  h ← gets m_hc;
  let nh := Route.next_hop (dp_route dp) (p_ip p) in
  match (if mac_is_zero (p_mac p) then Neigh.lookup t nh else Some (p_mac p)) with
  | None => _ ← master_request_neigh nh; mret false
  | Some dst_mac => new_packet 54 (tcp_frame (src_ip_ h) (local_mac dp) dst_mac p flags seq ack)
  end.

Definition set_probe (id : Z) (p : Probe) : ST MState unit :=
  onhc (fun h => set_probes (<[id := p]> (probes_ h)) h).

Definition send_probe (id now_ms : Z) (p : Probe) : ST MState Probe :=
  h ← gets m_hc;
  let '(p, h) := start_probe id now_ms p h in
  _ ← onhc (fun _ => h);
  _ ← build_tcp p TCP_SYN (p_isn p) 0;
  mret p.

(** The body of the last loop of [tick]. *)
Definition tick_probe (now_ms id : Z) : ST MState unit :=
  h ← gets m_hc;
  p ← deref (probes_ h !! id);
  let c := conf_ h in
  p ← (if p_in_flight p && (u64 (now_ms - p_sent_ms p) >=? hc_timeout_ms c) then
         _ ← onhc (fun h => set_ports (delete (p_src_port p) (by_port_ h)) h);
         mret (result c (set_flight false p) false)
       else mret p);
  p ← (if negb (p_in_flight p) && (now_ms >=? p_next_ms p) then
         p ← send_probe id now_ms p;
         mret (set_next (u64 (now_ms + hc_interval_ms c)) p)
       else mret p);
  p ← (if negb (Bool.eqb (p_healthy p) (p_snap_healthy p)) && (u64 (now_ms - p_reported_ms p) >=? 1000) then
         ok ← onws (io (health_enqueue (p_rs_id p) (p_healthy p)));
         mret (if (ok : bool) then set_reported now_ms p else p)
       else mret p);
  set_probe id p.

Fixpoint tick_probes (now_ms : Z) (ids : list Z) : ST MState unit :=
  match ids with
  | [] => mret tt
  | id :: ids => _ ← tick_probe now_ms id; tick_probes now_ms ids
  end.

(** [order] enumerates the probes left after the first two loops. *)
Definition tick (snap : Snapshot) (order : gmap Z Probe -> list Z) : ST MState unit :=
  h ← gets m_hc;
  if negb (hc_enabled (conf_ h)) then mret tt
  else
    now ← now_of;
    h ← deref (sync snap now h);
    _ ← onhc (fun _ => h);
    tick_probes now (order (probes_ h)).

Definition on_response (ev : MasterEvent) : ST MState unit :=
  h ← gets m_hc;
  match by_port_ h !! ev_port ev with
  | None => mret tt
  | Some id =>
    match probes_ h !! id with
    | None => mret tt
    | Some p =>
      if negb (p_in_flight p) || negb (ev_ip ev =? p_ip p) || negb (ev_aux ev =? p_port p) then mret tt
      else
        let both := Z.lor TCP_SYN TCP_ACK in
        let synack := Z.land (ev_tcp_flags ev) both =? both in
        if synack && negb (ev_ack ev =? u32 (p_isn p + 1)) then mret tt
        else
          let p := set_flight false p in
          _ ← onhc (fun h => set_ports (delete (ev_port ev) (by_port_ h)) h);
          if synack then
            _ ← build_tcp p TCP_RST (ev_ack ev) 0;
            set_probe id (result (conf_ h) p true)
          else set_probe id (if flag (ev_tcp_flags ev) TCP_RST then result (conf_ h) p false else p)
    end
  end.

End Master.
End HealthCheck.
