(* ===== verification/Master.v ===== *)
(** The master thread: src/dataplane/master.cpp.

    It owns the neighbour table and the health checker, answers the workers'
    events and sends ARP packets and probes through its own TX queue.  The
    periodic report only writes the log, and the NIC counters are only shown:
    this file has the timers of both, Report their contents. *)
From stdpp Require Import sorting.
From S2P Require Import Prelude Types TcpState Mem Headers Dpdk Session Checksum Parser Steering Config Snapshot Neigh Context Processor Worker HealthCheck.
Import Tcp Session Steering Config Snapshot Context Processor Worker HealthCheck.

Module Master.

Record MasterTimers := mkTimers {
  hc_ms : Z;
  neigh_ms : Z;
  garp_ms : Z;
  stats_ms : Z;
  nic_ms : Z;
  garp_count : Z
}.
Definition Timers0 : MasterTimers := mkTimers 0 0 0 0 0 0.

Definition set_hc_ms (v : Z) (t : MasterTimers) : MasterTimers :=
  mkTimers v (neigh_ms t) (garp_ms t) (stats_ms t) (nic_ms t) (garp_count t).
Definition set_neigh_ms (v : Z) (t : MasterTimers) : MasterTimers :=
  mkTimers (hc_ms t) v (garp_ms t) (stats_ms t) (nic_ms t) (garp_count t).
Definition set_garp (v n : Z) (t : MasterTimers) : MasterTimers :=
  mkTimers (hc_ms t) (neigh_ms t) v (stats_ms t) (nic_ms t) n.
Definition set_stats_ms (v : Z) (t : MasterTimers) : MasterTimers :=
  mkTimers (hc_ms t) (neigh_ms t) (garp_ms t) v (nic_ms t) (garp_count t).
Definition set_nic_ms (v : Z) (t : MasterTimers) : MasterTimers :=
  mkTimers (hc_ms t) (neigh_ms t) (garp_ms t) (stats_ms t) v (garp_count t).

(** std::unique on a sorted vector. *)
Fixpoint unique (l : list Z) : list Z :=
  match l with
  | [] => []
  | x :: l => match unique l with
              | [] => [x]
              | y :: l' => if x =? y then y :: l' else x :: y :: l'
              end
  end.

Section Master.
Context `{RH : RteHash FiveTuple} `{NH : RteHash Z} `{HF : RteHashFns} `{MB : RteMbuf} `{IO : RteIo}.
Context `{RC : !RteCtl}.
Context (dp : Dataplane (NH := NH)) (lc : LoopConf).
(** How the unordered_map of probes is enumerated; g_dp.cfg.stats_interval. *)
Context (order : gmap Z Probe -> list Z) (stats_interval : Z).

Fixpoint foreach {A} (body : A -> ST MState unit) (l : list A) : ST (MState (RH := RH) (NH := NH)) unit :=
  match l with
  | [] => mret tt
  | x :: l => _ ← body x; foreach body l
  end.

Definition garp_addrs (snap : Snapshot) : list IPv4Addr :=
  unique (merge_sort Z.le
    ((s_vip <$> services snap) ++ local_ips snap ++ (if hc_src snap =? 0 then [] else [hc_src snap]))).

Definition send_garp (snap : Snapshot) : ST MState unit :=
  foreach (fun ip => send_arp dp ip true) (garp_addrs snap).

Definition preresolve (snap : Snapshot) : ST MState unit :=
  let gw := Route.gateway (dp_route dp) in
  t ← gets m_neigh;
  _ ← when (negb (gw =? 0) && negb (bool_decide (is_Some (Neigh.lookup t gw)))) (master_request_neigh dp gw);
  foreach (fun r =>
    let nh := Route.next_hop (dp_route dp) (r_ip r) in
    t ← gets m_neigh;
    when (mac_is_zero (r_mac r) && negb (nh =? 0) && negb (bool_decide (is_Some (Neigh.lookup t nh))))
      (master_request_neigh dp nh)) (rs_pool snap).

Definition handle_event (e : MasterEvent) : ST MState unit :=
  now ← tick_now;
  match ev_type e with
  | EV_ARP_FOR_US => onneigh (fun t => Neigh.learn t (ev_ip e) (ev_mac e) false now)
  | EV_ARP_REPLY => onneigh (fun t => Neigh.learn t (ev_ip e) (ev_mac e) true now)
  | EV_NEIGH_HINT => onneigh (fun t => Neigh.hint t (ev_ip e) (ev_mac e) now)
  | EV_NEIGH_MISS => master_request_neigh dp (ev_ip e)
  | EV_HC_RESP => on_response dp e
  end.

(** The do-while loop, cut after [batches] times round: as long as the workers
    refill the ring it does not end, and what is proved for every [batches] holds
    of every part of such a run. *)
Fixpoint drain_master_events (batches : nat) : ST MState unit :=
  match batches with
  | O => mret tt
  | S batches =>
    evs ← onws (io master_dequeue);
    _ ← foreach handle_event evs;
    if len evs =? 64 then drain_master_events batches else mret tt
  end.

Definition age_neighbours (snap : Snapshot) : ST MState unit :=
  tk ← tick_now;
  nt ← gets m_neigh;
  let '(nt, refresh) := Neigh.age nt tk [] in
  _ ← onneigh (fun _ => nt);
  _ ← foreach (fun ip => send_arp dp ip false) refresh;
  preresolve snap.

Definition master_periodic (snap : Snapshot) (t : MasterTimers) : ST MState MasterTimers :=
  now ← now_of;
  let gap := if garp_count t <? 3 then 1000 else 60000 in
  let garp := (garp_count t =? 0) || (u64 (now - garp_ms t) >=? gap) in
  _ ← when garp (send_garp snap);
  let t := if garp then set_garp now (garp_count t + 1) t else t in
  let hc := u64 (now - hc_ms t) >=? 100 in
  _ ← when hc (tick dp snap order);
  let t := if hc then set_hc_ms now t else t in
  let t := if u64 (now - nic_ms t) >=? 1000 then set_nic_ms now t else t in
  let aging := u64 (now - neigh_ms t) >=? 1000 in
  _ ← when aging (age_neighbours snap);
  let t := if aging then set_neigh_ms now t else t in
  let report := u64 (now - stats_ms t) >=? u64 (stats_interval * 1000) in
  _ ← when report (_ ← onws (io rte_rdtsc); mret tt);
  mret (if report then set_stats_ms (if now =? 0 then 1 else now) t else t).

(** One round of [master_loop]. *)
Definition master_round (batches : nat) (current : Snapshot) (t : MasterTimers) : ST MState MasterTimers :=
  if tsc_hz lc =? 0 then fault
  else
    tsc ← onws (io rte_rdtsc);
    _ ← onws (onctx (set_now (tick_of lc tsc) (ms_of lc tsc)));
    _ ← drain_master_events batches;
    t ← master_periodic current t;
    _ ← onws tx_flush;
    mret t.

(** The loop: what current() returned in each round in which g_running was set. *)
Fixpoint master_loop (batches : nat) (rounds : list Snapshot) (t : MasterTimers) : ST MState unit :=
  match rounds with
  | [] => onws tx_flush
  | snap :: rounds => t ← master_round batches snap t; master_loop batches rounds t
  end.

End Master.
End Master.
