(* ===== verification/HealthThms.v ===== *)
(** Health checks: the frame of a probe, the ports in use, and the rise and fall
    counters. *)
From S2P Require Import Prelude Types TcpState Mem Headers Dpdk Session Checksum ChecksumThms Parser ParserThms Forward ForwardThms ForwardProps Steering Config Snapshot Neigh NeighProps Context Processor ProcessorInv ProcessorHandlers ProcessorProps Worker HealthCheck.
Import Tcp Checksum ChecksumThms Parser ParserThms Forward ForwardThms ForwardProps Steering Config Snapshot Context Processor ProcessorInv ProcessorHandlers ProcessorProps Worker HealthCheck.

Module HealthThms.

(** ** The frame of a probe *)

Definition hc_bytes (dmac smac : list Z) (src dst sp dp seq ack flags win c k : Z) : list Z :=
  dmac ++ smac ++ [8;0; 69;0;0;40; 0;0;64;0; 64;6] ++ le16 c ++ le32 src ++ le32 dst
  ++ le16 (htons sp) ++ le16 (htons dp) ++ le32 (htonl seq) ++ le32 (htonl ack) ++ [80; u8 flags]
  ++ le16 (htons win) ++ le16 k ++ [0;0].

(** Bring the frame into explicit form. *)
Ltac norm_state :=
  match goal with |- wp ?m ?Q ?b =>
    let b' := eval cbv [put take drop app Z.to_nat Pos.to_nat Pos.iter_op Nat.add le16 le32 replicate len
      length Z.of_nat Pos.of_succ_nat Pos.succ Z.add Pos.add firstn skipn] in b in
    change (wp m Q b') end.
Ltac w8 := apply wp_bind, wp_wr8; [lia|vm_compute; congruence|]; norm_state.
Ltac w16 := apply wp_bind, wp_wr16; [lia|vm_compute; congruence|]; norm_state.
Ltac w32 := apply wp_bind, wp_wr32; [lia|vm_compute; congruence|]; norm_state.
Ltac six l := do 6 (destruct l as [|? l]; [discriminate|]); destruct l; [|discriminate].
Ltac explicit_frame :=
  repeat (apply Forall_cons_2; [first [assumption | apply Z.mod_pos_bound; lia | zwrap; lia]|]); apply Forall_nil_2.

Lemma tcp_frame_wp src smac dmac p fl seq ack Q bs :
  length bs = 54%nat -> mac_wf smac -> mac_wf dmac ->
  (forall c k, is_u16 c -> is_u16 k ->
     let b := hc_bytes dmac smac src (p_ip p) (p_src_port p) (p_port p) seq ack fl
                (if flag fl TCP_RST then 0 else 1024) c k in
     frame b -> sum_ok (wsum (slice 14 20 b)) -> sum_ok (l4_sum 14 34 20 b) -> Q tt b) ->
  wp (tcp_frame src smac dmac p fl seq ack) Q bs.
Proof.
  intros L [L1 F1] [L2 F2] HQ. unfold tcp_frame; cbv zeta.
  assert (N1 : length smac = 6%nat) by (unfold len in L1; lia). assert (N2 : length dmac = 6%nat) by (unfold len in L2; lia).
  clear L1 L2. six smac. six dmac. unfold frame in F1, F2.
  repeat match goal with H : Forall _ (_ :: _) |- _ => apply Forall_cons in H as [? H] end. clear F1 F2.
  apply wp_bind, wp_wr_bytes; [lia|unfold len; rewrite L; done|].
  assert (E : put 0 (replicate 54 0) bs = replicate 54 0).
  { unfold put. change (Z.to_nat (0 + len (replicate 54 0))) with 54%nat. rewrite drop_ge by lia. done. }
  rewrite E. clear E L bs N1 N2. norm_state.
  unfold Eth.set_dst_mac, Eth.set_src_mac, Eth.set_ether_type, Eth.dst_mac, Eth.src_mac, Eth.ether_type, Ip.version_ihl,
    Ip.total_length, Ip.flags_fragment, Ip.ttl, Ip.protocol, Ip.src_ip, Ip.dst_ip, Eth.HEADER_SIZE, Ip.HEADER_SIZE,
    TcpH.src_port, TcpH.dst_port, TcpH.seq_num, TcpH.ack_num, TcpH.data_offset, TcpH.flags.
  do 2 (apply wp_bind, wp_wr_bytes; [lia|vm_compute; congruence|]; norm_state).
  w16. w8. w16. w16. w8. w8. w32. w32.
  apply wp_bind, update_wp.
  { explicit_frame. }
  { lia. }
  { vm_compute. congruence. }
  { vm_compute. congruence. }
  intros c Hc Hok. norm_state.
  do 2 w16. do 2 w32. do 2 w8. w16.
  apply recalculate_tcp_wp.
  { explicit_frame. }
  { lia. }
  { lia. }
  { lia. }
  { vm_compute. congruence. }
  { vm_compute. congruence. }
  intros k Hk Hok2. apply (HQ c k Hc Hk).
  - explicit_frame.
  - exact Hok.
  - exact Hok2.
Qed.

(** What the frame says. *)
Lemma hc_bytes_l4 dmac smac src dst sp dp seq ack fl win c k :
  mac_wf dmac -> mac_wf smac -> is_u32 src -> is_u32 dst ->
  let b := hc_bytes dmac smac src dst sp dp seq ack fl win c k in
  frame b ->
  l4_frame b /\ ftuple b = mkFiveTuple src dst (htons sp) (htons dp) 6
  /\ get8 47 b = u8 fl /\ get32 38 b = htonl seq /\ get32 42 b = htonl ack
  /\ slice 0 6 b = dmac /\ slice 6 6 b = smac.
Proof.
  intros [L2 F2] [L1 F1] Hs Hd b Hf.
  assert (N1 : length smac = 6%nat) by (unfold len in L1; lia). assert (N2 : length dmac = 6%nat) by (unfold len in L2; lia).
  clear L1 L2 F1 F2. six smac. six dmac.
  assert (E : ftuple b = mkFiveTuple src dst (htons sp) (htons dp) 6).
  { unfold ftuple. f_equal.
    - exact (le_val_le32 src Hs).
    - exact (le_val_le32 dst Hd).
    - exact (le_val_le16 (htons sp) (bswap16_is sp)).
    - exact (le_val_le16 (htons dp) (bswap16_is dp)). }
  split; [|split; [done|]].
  - clear E. assert (E2 : f_l4 b = 34) by (vm_compute; reflexivity). assert (E3 : f_end b = 54) by (vm_compute; reflexivity).
    assert (E4 : f_proto b = 6) by (vm_compute; reflexivity).
    assert (E5 : doff_of (get8 46 b) = 20) by (vm_compute; reflexivity).
    assert (E6 : len b = 54) by (vm_compute; reflexivity).
    assert (E7 : f_ver b = 4 /\ f_ihl b = 20 /\ f_total b = 40) by (vm_compute; split_and!; reflexivity).
    split; [exact Hf|lia|vm_compute; reflexivity| | | |left; exact E4].
    + destruct E7 as (V1 & V2 & V3). unfold ip_wf. rewrite V1, V2, V3, E3, E6. split_and!; try lia.
    + split; vm_compute; reflexivity.
    + unfold l4_wf. rewrite E2, E3, E4. change (34 + 12) with 46. rewrite E5.
      unfold IPProtocol_TCP, IPProtocol_UDP, IPProtocol_ICMP. split_and!; intros; lia.
  - split; [unfold u8; exact (Z.add_0_r _)|]. split; [exact (le_val_le32 (htonl seq) (bswap32_is seq))|].
    split; [exact (le_val_le32 (htonl ack) (bswap32_is ack))|]. done.
Qed.

(** ** Rise and fall *)

(** The length of the run of equal results at the end. *)
Fixpoint streak (b : bool) (rev : list bool) : Z :=
  match rev with
  | r :: rev => if Bool.eqb r b then streak b rev + 1 else 0
  | [] => 0
  end.

(** The state the counters stand for, from the results, newest first. *)
Fixpoint verdict_of (c : HealthConf) (start : bool) (rev : list bool) : bool :=
  match rev with
  | [] => start
  | true :: rev' => if streak true rev >=? hc_rise c then true else verdict_of c start rev'
  | false :: rev' => if streak false rev >=? hc_fall c then false else verdict_of c start rev'
  end.

Lemma streak_bounds b rev : 0 <= streak b rev <= len rev.
Proof.
  unfold len. induction rev as [|r rev IH]; cbn [streak length]; [lia|]. destruct (Bool.eqb r b); lia.
Qed.

Lemma results_counts c p rev :
  len rev < 4294967296 -> p_ok p = 0 -> p_fail p = 0 ->
  let q := foldr (fun ok p => result c p ok) p rev in
  p_ok q = streak true rev /\ p_fail q = streak false rev /\ p_healthy q = verdict_of c (p_healthy p) rev
  /\ p_rs_id q = p_rs_id p /\ p_in_flight q = p_in_flight p /\ p_src_port q = p_src_port p.
Proof.
  intros Hl H0 H1. induction rev as [|r rev IH]; [done|]. unfold len in Hl. cbn [length] in Hl.
  destruct IH as (A1 & A2 & A3 & A4 & A5 & A6); [unfold len; lia|]. cbn [foldr].
  set (q := foldr _ p rev) in *. pose proof (streak_bounds true rev) as B1. pose proof (streak_bounds false rev) as B2.
  unfold len in B1, B2. unfold result.
  destruct r; cbn [streak verdict_of Bool.eqb p_ok p_fail p_healthy p_rs_id p_in_flight p_src_port set_counts].
  - rewrite A1, u32_id by (zwrap; lia). split_and!; try done. rewrite A3.
    destruct (_ >=? _); [|done]. by destruct (verdict_of _ _ _).
  - rewrite A2, u32_id by (zwrap; lia). split_and!; try done. rewrite A3.
    destruct (_ >=? _); [|done]. by destruct (verdict_of _ _ _).
Qed.

(** ** Source ports *)

Definition port_at (next : Z) (j : nat) : Z := kHcPortMin + (next - kHcPortMin + Z.of_nat j) mod 1000.

Definition in_hc (port : Z) : Prop := kHcPortMin <= port <= kHcPortMax.

Lemma port_at_0 next : in_hc next -> port_at next 0 = next.
Proof. unfold in_hc, port_at, kHcPortMin, kHcPortMax. intros H. rewrite Z.mod_small by lia. lia. Qed.

Lemma pick_port_spec n next by_port :
  in_hc next ->
  in_hc (pick_port n next by_port).2 /\
  match (pick_port n next by_port).1 with
  | Some port => in_hc port /\ by_port !! port = None
  | None => forall j, (j < n)%nat -> is_Some (by_port !! port_at next j)
  end.
Proof.
  revert next. induction n as [|n IH]; intros next Hn; cbn [pick_port].
  { split; [done|]. intros j Hj. lia. }
  set (next' := if next >=? kHcPortMax then kHcPortMin else next + 1).
  assert (Hn' : in_hc next' /\ forall j, port_at next' j = port_at next (S j)).
  { unfold in_hc, next', port_at, kHcPortMin, kHcPortMax in *. destruct (Z.geb_spec next 61999).
    - split; [lia|]. intros j. f_equal. replace next with 61999 by lia.
      replace (61999 - 61000 + Z.of_nat (S j)) with (61000 - 61000 + Z.of_nat j + 1 * 1000) by lia.
      by rewrite Z.mod_add.
    - split; [lia|]. intros j. f_equal. f_equal. lia. }
  destruct Hn' as [Hn' Hp]. destruct (by_port !! next) as [id|] eqn:E; [|done].
  destruct (IH next' Hn') as [H1 H2]. split; [done|]. destruct (pick_port n next' by_port).1; [done|].
  intros [|j] Hj; [by rewrite port_at_0, E|]. rewrite <- Hp. apply H2. lia.
Qed.

(** A full search fails only if all ports are taken. *)
Lemma pick_port_full next by_port :
  in_hc next -> (pick_port 1000 next by_port).1 = None -> (1000 <= size by_port)%nat.
Proof.
  intros Hn E. destruct (pick_port_spec 1000 next by_port Hn) as [_ H]. rewrite E in H.
  assert (Hs : (list_to_set (seqZ 61000 1000) : gset Z) ⊆ dom by_port).
  { intros port. rewrite elem_of_list_to_set, elem_of_seqZ. intros Hp. apply elem_of_dom.
    set (j := Z.to_nat ((port - next) mod 1000)).
    assert (Ej : Z.of_nat j = (port - next) mod 1000).
    { unfold j. apply Z2Nat.id, Z.mod_pos_bound. lia. }
    assert (Hj : (j < 1000)%nat) by (pose proof (Z.mod_pos_bound (port - next) 1000 ltac:(lia)); lia).
    specialize (H j Hj). replace (port_at next j) with port in H; [done|].
    unfold port_at, kHcPortMin. rewrite Ej, Z.add_mod_idemp_r by lia.
    replace (next - 61000 + (port - next)) with (port - 61000) by lia. rewrite Z.mod_small by lia. lia. }
  apply subseteq_size in Hs. rewrite size_list_to_set, length_seqZ in Hs by apply NoDup_seqZ.
  rewrite size_dom in Hs. lia.
Qed.

(** ** The invariant of the health checker

    A port is taken exactly by the probe in flight from it. *)

Record HcInv (h : HealthChecker) : Prop := {
  hi_next : in_hc (next_port_ h);
  hi_probe id p : probes_ h !! id = Some p -> p_rs_id p = id /\ mac_wf (p_mac p);
  hi_fly id p : probes_ h !! id = Some p -> p_in_flight p = true -> by_port_ h !! p_src_port p = Some id;
  hi_port port id : by_port_ h !! port = Some id ->
    in_hc port /\ ∃ p, probes_ h !! id = Some p /\ p_in_flight p = true /\ p_src_port p = port
}.

(** [h] with the probe [id] in state [p]: the loops hold the probe by reference. *)
Definition at_ (id : Z) (p : Probe) (h : HealthChecker) : HealthChecker := set_probes (<[id := p]> (probes_ h)) h.

Lemma Hc0_inv conf src : HcInv (init conf src (Hc0 conf)).
Proof.
  split; cbn; [unfold in_hc, kHcPortMin, kHcPortMax; lia|intros id p H..|intros port id H];
    by rewrite lookup_empty in H.
Qed.

(** Ports in use are fewer than probes, if one is not in flight. *)
Lemma ports_fewer h id p :
  HcInv h -> probes_ h !! id = Some p -> p_in_flight p = false -> (size (by_port_ h) < size (probes_ h))%nat.
Proof.
  intros I Hp Hf. rewrite <- (size_dom (by_port_ h)), <- (size_dom (probes_ h)).
  set (l := (map_to_list (by_port_ h)).*2).
  assert (Hn : NoDup l).
  { apply NoDup_fmap_2_strong; [|apply NoDup_map_to_list]. intros [k1 v1] [k2 v2] H1 H2 E. cbn in E. subst v2.
    apply elem_of_map_to_list in H1, H2. destruct (hi_port _ I _ _ H1) as (_ & p1 & A1 & _ & A2).
    destruct (hi_port _ I _ _ H2) as (_ & p2 & B1 & _ & B2). congruence. }
  assert (Hs : list_to_set l ⊆@{gset Z} dom (probes_ h) ∖ {[id]}).
  { intros v. rewrite elem_of_list_to_set. intros ([k v'] & -> & H%elem_of_map_to_list)%list_elem_of_fmap. cbn.
    destruct (hi_port _ I _ _ H) as (_ & q & A1 & A2 & _). apply elem_of_difference. split; [by apply elem_of_dom_2 in A1|].
    rewrite elem_of_singleton. intros ->. congruence. }
  apply subseteq_size in Hs. rewrite size_list_to_set in Hs by done.
  rewrite size_difference, size_singleton in Hs by (apply elem_of_dom_2 in Hp; set_solver).
  assert (0 < size (dom (probes_ h)))%nat.
  { apply Nat.neq_0_lt_0. intros E%size_empty_inv. apply elem_of_dom_2 in Hp. set_solver. }
  unfold l in Hs. rewrite length_fmap, length_map_to_list in Hs. rewrite size_dom. lia.
Qed.

(** Another state of the same probe, with the same port. *)
Lemma at_same id p q h :
  HcInv (at_ id p h) -> p_rs_id q = p_rs_id p -> p_mac q = p_mac p -> p_in_flight q = p_in_flight p ->
  p_src_port q = p_src_port p -> HcInv (at_ id q h).
Proof.
  intros [I1 I2 I3 I4] E1 E2 E3 E4. pose proof (I2 id p (lookup_insert_eq _ _ _)) as Hp. cbn in *.
  split; cbn; [done|..].
  - intros id' p' [[<- <-]|[Hne H]]%lookup_insert_Some; [by rewrite E1, E2|]. apply I2. by rewrite lookup_insert_ne.
  - intros id' p' [[<- <-]|[Hne H]]%lookup_insert_Some; [rewrite E3, E4|]; apply I3; [apply lookup_insert_eq|].
    by rewrite lookup_insert_ne.
  - intros port id' H. destruct (I4 _ _ H) as (R & r & [[<- <-]|[Hne Hr]]%lookup_insert_Some & F & S); split; try done.
    + exists q. rewrite lookup_insert_eq, E3, E4. done.
    + exists r. by rewrite lookup_insert_ne.
Qed.

(** The end of a probe: its port is free. *)
Lemma at_done id p q h :
  HcInv (at_ id p h) -> p_in_flight p = true -> p_rs_id q = p_rs_id p -> p_mac q = p_mac p -> p_in_flight q = false ->
  HcInv (at_ id q (set_ports (delete (p_src_port p) (by_port_ h)) h)).
Proof.
  intros [I1 I2 I3 I4] Ef E1 E2 E3. pose proof (I2 id p (lookup_insert_eq _ _ _)) as Hp.
  pose proof (I3 id p (lookup_insert_eq _ _ _) Ef) as Hport. cbn in *. split; cbn; [done|..].
  - intros id' p' [[<- <-]|[Hne H]]%lookup_insert_Some; [by rewrite E1, E2|]. apply I2. by rewrite lookup_insert_ne.
  - intros id' p' [[<- <-]|[Hne H]]%lookup_insert_Some; [congruence|]. intros F.
    assert (H' : by_port_ h !! p_src_port p' = Some id') by (apply I3; [by rewrite lookup_insert_ne|done]).
    rewrite lookup_delete_ne; [done|]. intros E. rewrite <- E in H'. congruence.
  - intros port id' [Hne H]%lookup_delete_Some. destruct (I4 _ _ H) as (R & r & [[<- <-]|[Hn Hr]]%lookup_insert_Some & F & S).
    + congruence.
    + split; [done|]. exists r. by rewrite lookup_insert_ne.
Qed.

(** The start of a probe: with at most 1000 probes it gets a port of its own. *)
Lemma start_probe_inv id now p h :
  HcInv (at_ id p h) -> p_in_flight p = false -> (size (<[id := p]> (probes_ h)) <= 1000)%nat ->
  let '(p', h') := start_probe id now p h in
  HcInv h' /\ by_port_ h !! p_src_port p' = None /\ in_hc (p_src_port p') /\ p_in_flight p' = true
  /\ conf_ h' = conf_ h /\ probes_ h' = <[id := p']> (probes_ h) /\ p_mac p' = p_mac p.
Proof.
  intros I Ef Hs. pose proof I as [I1 I2 I3 I4]. cbn in *. unfold start_probe.
  pose proof (pick_port_spec 1000 (next_port_ h) (by_port_ h) I1) as [N P].
  pose proof (pick_port_full (next_port_ h) (by_port_ h) I1) as Full.
  pose proof (ports_fewer _ id p I (lookup_insert_eq _ _ _) Ef) as Few. cbn in Few.
  change (Z.to_nat (kHcPortMax - kHcPortMin + 1)) with 1000%nat.
  destruct (pick_port 1000 (next_port_ h) (by_port_ h)) as [[port|] next]; cbn [fst snd default] in *;
    [|specialize (Full eq_refl); lia].
  destruct P as [Pr Pn]. set (seed := u32 _). cbn [p_src_port p_in_flight p_rs_id set_sent p_mac].
  destruct (I2 id p (lookup_insert_eq _ _ _)) as [Hid Hmac].
  assert (K : forall id' p', id' <> id -> probes_ h !! id' = Some p' -> <[id := p]> (probes_ h) !! id' = Some p').
  { intros id' p' Hne H. by rewrite lookup_insert_ne. }
  split; [|done]. split; cbn; [done|..].
  - intros id' p' [[<- <-]|[Hne H]]%lookup_insert_Some; [done|]. by apply I2, K.
  - intros id' p' [[<- <-]|[Hne H]]%lookup_insert_Some; cbn; [by rewrite lookup_insert_eq, Hid|]. intros F.
    assert (H' : by_port_ h !! p_src_port p' = Some id') by (apply I3; [by apply K|done]).
    rewrite lookup_insert_ne; [done|]. intros E. congruence.
  - intros port' id' [[<- <-]|[Hne H]]%lookup_insert_Some.
    + split; [done|]. rewrite Hid. eexists. rewrite lookup_insert_eq. done.
    + destruct (I4 _ _ H) as (R & r & [[<- <-]|[Hn Hr]]%lookup_insert_Some & F & S); [congruence|].
      split; [done|]. exists r. by rewrite lookup_insert_ne.
Qed.

(** *** Following the snapshot *)

(** What [sync] needs of the snapshot. *)
Definition pool_ok (c : HealthConf) (snap : Snapshot) : Prop :=
  hc_interval_ms c <> 0 /\
  Forall (fun r => is_Some (services snap !! Z.to_nat (r_svc_idx r)) /\ mac_wf (r_mac r)) (rs_pool snap).

Lemma at_fresh id p h :
  HcInv h -> probes_ h !! id = None -> p_rs_id p = id -> mac_wf (p_mac p) -> p_in_flight p = false -> HcInv (at_ id p h).
Proof.
  intros [I1 I2 I3 I4] Hn Hid Hm Hf. split; cbn; [done|..].
  - intros id' p' [[<- <-]|[Hne H]]%lookup_insert_Some; [done|by apply I2].
  - intros id' p' [[<- <-]|[Hne H]]%lookup_insert_Some; [congruence|by apply I3].
  - intros port id' H. destruct (I4 _ _ H) as (R & r & Hr & F & S). split; [done|]. exists r.
    rewrite lookup_insert_ne; [done|]. intros ->. congruence.
Qed.

Lemma set_probes_same h : set_probes (probes_ h) h = h.
Proof. by destruct h. Qed.

(** Writing a probe's target keeps the invariant. *)
Lemma at_target id p r h :
  HcInv h -> probes_ h !! id = Some p -> mac_wf (r_mac r) -> HcInv (at_ id (set_target r p) h).
Proof.
  intros [I1 I2 I3 I4] Hp Hm. destruct (I2 _ _ Hp) as [Hid _]. split; cbn; [done|..].
  - intros id' p' [[<- <-]|[Hne H]]%lookup_insert_Some; [done|by apply I2].
  - intros id' p' [[<- <-]|[Hne H]]%lookup_insert_Some; [cbn; by apply I3|by apply I3].
  - intros port id' H. destruct (I4 _ _ H) as (R & q & Hr & F & S). split; [done|].
    destruct (decide (id' = id)) as [->|]; [|exists q; by rewrite lookup_insert_ne].
    rewrite Hr in Hp. injection Hp as ->. exists (set_target r p). by rewrite lookup_insert_eq.
Qed.

Lemma sync_rs_inv c snap now h seen r :
  HcInv h -> hc_interval_ms c <> 0 -> is_Some (services snap !! Z.to_nat (r_svc_idx r)) -> mac_wf (r_mac r) ->
  ∃ probes seen', sync_rs c snap now (probes_ h, seen) r = Some (probes, seen') /\ HcInv (set_probes probes h)
    /\ (length seen' <= S (length seen))%nat.
Proof.
  intros I Hc [svc Hs] Hm. unfold sync_rs. rewrite Hs. cbn [mbind option_bind].
  destruct (negb (s_proto svc =? 6)).
  { exists (probes_ h), seen. rewrite set_probes_same. auto. }
  destruct (probes_ h !! r_id r) as [p|] eqn:Ep.
  - do 2 eexists. split; [reflexivity|]. split; [by apply at_target|]. rewrite length_app. cbn. lia.
  - rewrite (proj2 (Z.eqb_neq _ _) Hc). cbn [mbind option_bind]. do 2 eexists. split; [reflexivity|].
    split; [by apply at_fresh|]. rewrite length_app. cbn. lia.
Qed.

Lemma fold_delete (gone : gmap Z Probe) (ports : gmap Z Z) port id :
  map_fold (fun _ p ports => if p_in_flight p then delete (p_src_port p) ports else ports) ports gone !! port = Some id
  <-> ports !! port = Some id /\ forall k p, gone !! k = Some p -> p_in_flight p = true -> p_src_port p <> port.
Proof.
  apply (map_fold_weak_ind (fun (res : gmap Z Z) (gone : gmap Z Probe) => res !! port = Some id
    <-> ports !! port = Some id /\ forall k p, gone !! k = Some p -> p_in_flight p = true -> p_src_port p <> port)).
  - split; [|by intros []]. intros H. split; [done|]. intros k p Hk. by rewrite lookup_empty in Hk.
  - clear gone. intros k p gone res Hk IH.
    assert (S : (forall k' p', <[k := p]> gone !! k' = Some p' -> p_in_flight p' = true -> p_src_port p' <> port)
      <-> (p_in_flight p = true -> p_src_port p <> port)
          /\ forall k' p', gone !! k' = Some p' -> p_in_flight p' = true -> p_src_port p' <> port).
    { split.
      - intros H. split; [apply (H k), lookup_insert_eq|]. intros k' p' Hk'. apply (H k').
        rewrite lookup_insert_ne; [done|]. intros ->. congruence.
      - intros [H1 H2] k' p' [[<- <-]|[_ H]]%lookup_insert_Some; [done|by apply (H2 k')]. }
    rewrite S. destruct (p_in_flight p); [|rewrite IH; naive_solver]. rewrite lookup_delete_Some, IH. naive_solver.
Qed.

Lemma drop_gone_inv seen h : HcInv h -> HcInv (drop_gone seen h).
Proof.
  intros [I1 I2 I3 I4]. unfold drop_gone. split; cbn; [done|..].
  - intros id p [H _]%map_lookup_filter_Some. by apply I2.
  - intros id p [H Hs]%map_lookup_filter_Some F. apply fold_delete. split; [by apply I3|].
    intros k q [Hq Hg]%map_lookup_filter_Some Fq E. cbn in *. pose proof (I3 _ _ Hq Fq) as A. rewrite E in A.
    pose proof (I3 _ _ H F) as B. rewrite A in B. injection B as ->. done.
  - intros port id [H Hd]%fold_delete. destruct (I4 _ _ H) as (R & p & Hp & F & S). split; [done|]. exists p.
    split; [|done]. apply map_lookup_filter_Some. split; [done|]. cbn.
    destruct (decide (id ∈ seen)); [done|]. exfalso. apply (Hd id p); [|done|done].
    by apply map_lookup_filter_Some.
Qed.

Lemma size_list_le (l : list Z) : (size (list_to_set l : gset Z) <= length l)%nat.
Proof.
  induction l as [|x l IH]; cbn [list_to_set foldr length]; [by rewrite size_empty|].
  rewrite size_union_alt, size_singleton.
  assert (size (list_to_set l ∖ {[x]} : gset Z) <= size (list_to_set l : gset Z))%nat by (apply subseteq_size; set_solver).
  lia.
Qed.

(** The probes after [sync] are those of the snapshot's real servers. *)
Lemma sync_inv snap now h :
  HcInv h -> pool_ok (conf_ h) snap ->
  ∃ h', sync snap now h = Some h' /\ HcInv h' /\ (size (probes_ h') <= length (rs_pool snap))%nat /\ conf_ h' = conf_ h.
Proof.
  intros I [Hc Hr]. unfold sync.
  assert (L : forall l seen h0, HcInv h0 -> conf_ h0 = conf_ h ->
    Forall (fun r => is_Some (services snap !! Z.to_nat (r_svc_idx r)) /\ mac_wf (r_mac r)) l ->
    ∃ probes seen', foldl (fun acc r => a ← acc; sync_rs (conf_ h) snap now a r) (Some (probes_ h0, seen)) l
      = Some (probes, seen') /\ HcInv (set_probes probes h0) /\ (length seen' <= length l + length seen)%nat).
  { induction l as [|r l IH]; intros seen h0 I0 C0 Hl; cbn [foldl].
    - exists (probes_ h0), seen. rewrite set_probes_same. auto.
    - apply Forall_cons in Hl as [[H1 H2] Hl].
      destruct (sync_rs_inv (conf_ h) snap now h0 seen r I0 Hc H1 H2) as (probes & seen' & E & I' & S).
      cbn [mbind option_bind]. rewrite E.
      destruct (IH seen' (set_probes probes h0) I' C0 Hl) as (pr & sn & E' & I'' & S').
      exists pr, sn. split; [exact E'|]. split; [exact I''|]. cbn [length]. lia. }
  destruct (L (rs_pool snap) [] h I eq_refl Hr) as (probes & seen & E & I' & S). rewrite E. cbn [mbind option_bind].
  eexists. split; [reflexivity|]. split; [by apply drop_gone_inv|]. split; [|done].
  cbn [probes_ set_probes drop_gone set_ports]. rewrite <- size_dom.
  transitivity (size (list_to_set seen : gset Z)).
  - apply subseteq_size. intros id (p & [_ H]%map_lookup_filter_Some)%elem_of_dom. by apply elem_of_list_to_set.
  - etransitivity; [apply size_list_le|]. cbn [length] in S. lia.
Qed.

End HealthThms.
