(* ===== verification/MasterThms.v ===== *)
(** The master thread: every packet it makes is sent or freed, the health
    checker and the neighbour table keep their invariants. *)
From S2P Require Import Prelude Types TcpState Mem Headers Dpdk Session Checksum Parser Steering Config Snapshot Neigh NeighProps Context Processor ProcessorInv ProcessorThms Worker WorkerThms HealthCheck Master HealthThms.
Import ProcessorThms Tcp Steering Config Snapshot Context Processor Worker WorkerThms HealthCheck Master HealthThms.
Import NeighProps.

Module MasterThms.

Section Thms.
Context `{RH : RteHash FiveTuple} `{NH : RteHash Z} `{NL : !RteHashLaws Z NH}.
Context `{HF : RteHashFns} `{MB : RteMbuf} `{ML : !RteMbufLaws MB}.
Context `{IO : RteIo} `{IL : !RteIoLaws IO} `{RC : !RteCtl} `{CL : !RteCtlLaws RC}.
Context (dp : Dataplane (NH := NH)) (lc : LoopConf) (order : gmap Z Probe -> list Z) (stats_interval : Z).
Implicit Types s : MState (RH := RH) (NH := NH) (IO := IO).

(** The local MAC address is one; a service is configured. *)
Record master_conf : Prop := {
  mc_mac : mac_wf (local_mac dp);
  mc_src : is_Some (arp_src_ip dp);
  mc_hz : 0 < tsc_hz lc
}.
Context (MC : master_conf).

Record MInv s : Prop := {
  mi_tx : len (tx (ws_w (m_ws s))) < BURST_SIZE;
  mi_neigh : good (m_neigh s);
  mi_hc : HcInv (m_hc s)
}.

(** A step that leaves the health checker alone and accounts for its packets. *)
Record quiet s s' : Prop := {
  q_tx : len (tx (ws_w (m_ws s'))) < BURST_SIZE;
  q_neigh : goes (m_neigh s) (m_neigh s');
  q_hc : m_hc s' = m_hc s;
  q_loose : loose (m_ws s') = loose (m_ws s);
  q_clock : clock (ws_io (m_ws s)) <= clock (ws_io (m_ws s'))
}.

Lemma mquiet_trans s1 s2 s3 : quiet s1 s2 -> quiet s2 s3 -> quiet s1 s3.
Proof.
  intros [A1 A2 A3 A4 A5] [B1 B2 B3 B4 B5]. split; [done|by eapply goes_trans|congruence|lia|lia].
Qed.

Definition calm s : Prop := len (tx (ws_w (m_ws s))) < BURST_SIZE /\ good (m_neigh s).

Lemma mquiet_refl s : calm s -> quiet s s.
Proof. intros [T G]. split; [done|by apply goes_refl|done|done|lia]. Qed.

Lemma quiet_calm s s' : quiet s s' -> calm s'.
Proof. intros [T [G _] _ _ _]. done. Qed.

Lemma quiet_then s s1 Q :
  quiet s s1 -> (forall s', quiet s s' -> Q s') -> forall s', quiet s1 s' -> Q s'.
Proof. intros H HQ s' H'. apply HQ. by eapply mquiet_trans. Qed.

(** ** Packets *)

Lemma wp_onws {A} (k : ST WState A) (Q : A -> MState -> Prop) s :
  wp k (fun a v => Q a (mkM v (m_neigh s) (m_hc s))) (m_ws s) -> wp (onws k) Q s.
Proof. intros H. by apply wp_zoom. Qed.

Lemma new_packet_wp n fill Q s :
  calm s -> 0 <= n ->
  (forall bs, len bs = n -> frame bs -> wp fill (fun _ _ => True) bs) ->
  (forall b s', quiet s s' -> Q b s') -> wp (new_packet n fill) Q s.
Proof.
  intros [T G] Hn Hfill HQ. unfold new_packet. apply wp_bind, wp_onws. unfold wp, io at 1.
  destruct (rte_pktmbuf_alloc _) as [o x] eqn:Ea. apply alloc_spec in Ea as (E0 & Eh & Ec).
  destruct o as [m|].
  - destruct (rte_pktmbuf_append m n) as [m'|] eqn:Eap.
    + apply append_spec in Eap as (ext & Ed & El & Ef & _); [|done]. rewrite (E0 m eq_refl) in Ed. cbn [app] in Ed.
      rewrite Ed. specialize (Hfill ext El Ef). apply wp_run in Hfill as ([] & b & Eb & _).
      apply wp_bind. unfold deref. rewrite Eb. cbn. apply wp_bind, wp_onws, tx_buffer_add_raw_wp; [exact T|].
      intros s' S Tx L. apply wp_ret, HQ. split; cbn; [done|by apply goes_refl|done| |].
      * rewrite L. unfold loose. cbn. rewrite Eh. lia.
      * pose proof (se_clock _ _ S) as C. cbn in C. lia.
    + apply wp_bind, wp_onws. unfold wp, free_mbuf, io. cbn.
      destruct (free_spec m x) as [F1 F2]. apply HQ. split; cbn; [done|by apply goes_refl|done| |lia].
      unfold loose. cbn. lia.
  - apply wp_ret, HQ. split; cbn; [done|by apply goes_refl|done| |lia]. unfold loose. cbn. lia.
Qed.

(** A broadcast ARP packet fits in 42 bytes. *)
Lemma build_request_wp tip lip mac bs :
  len bs = 42 -> mac_wf mac -> wp (Arp.build_request tip lip mac) (fun _ _ => True) bs.
Proof.
  intros L [Lm _]. unfold Arp.build_request; cbv zeta. unfold Eth.set_ether_type, Arp.set_operation.
  assert (W : forall off l (k : unit -> ST (list Z) Z) (b : list Z), len b = 42 -> 0 <= off -> off + len l <= 42 ->
    (forall b', len b' = 42 -> wp (k tt) (fun _ _ => True) b') -> wp (wr_bytes off l ≫= k) (fun _ _ => True) b).
  { intros off l k b Hb Ho Hl Hk. apply wp_bind, wp_wr_bytes; [lia|lia|]. apply Hk. rewrite len_put; lia. }
  unfold wr16, wr32, wr8.
  repeat (apply W; [assumption|apply Z.leb_le; reflexivity|rewrite ?Lm; apply Z.leb_le; reflexivity|
    clear bs L; intros bs L]).
  by apply wp_ret.
Qed.

Lemma send_arp_wp target g Q s :
  calm s -> (forall s', quiet s s' -> Q tt s') -> wp (send_arp dp target g) Q s.
Proof.
  intros C HQ. unfold send_arp. apply wp_bind, new_packet_wp; [done|done| |].
  - intros bs L _. change (Eth.HEADER_SIZE + Arp.HEADER_SIZE) with 42 in L. destruct MC as [Hm [src Hs] _]. destruct g.
    + apply wp_bind. eapply wp_mono; [exact (build_request_wp _ _ _ _ L Hm)|]. intros v b _. exact I.
    + rewrite Hs. apply wp_bind, (wp_deref _ src); [done|]. apply wp_bind.
      eapply wp_mono; [exact (build_request_wp _ _ _ _ L Hm)|]. intros v b _. exact I.
  - intros b s' S. apply wp_ret. by apply HQ.
Qed.

Lemma onneigh_wp f Q s :
  calm s -> goes (m_neigh s) (f (m_neigh s)) -> (forall s', quiet s s' -> Q tt s') -> wp (onneigh f) Q s.
Proof. intros [T G] F HQ. apply wp_modify, HQ. split; cbn; [done|done|done|done|lia]. Qed.

Lemma master_request_neigh_wp ip Q s :
  calm s -> (forall s', quiet s s' -> Q tt s') -> wp (master_request_neigh dp ip) Q s.
Proof.
  intros C HQ. unfold master_request_neigh. destruct (ip =? 0); [apply wp_ret, HQ; by apply mquiet_refl|].
  apply wp_bind, wp_gets, wp_bind, wp_gets. set (now := now_tick _).
  pose proof (nexec_goes (m_neigh s) (NWant ip now) (proj2 C) I) as Gn. cbn [nexec] in Gn.
  destruct (Neigh.want_request (m_neigh s) ip now) as [want t]. cbn in Gn.
  apply wp_bind, onneigh_wp; [done|done|]. intros s1 S1. apply wp_when.
  - intros _. apply send_arp_wp; [by eapply quiet_calm|]. by eapply quiet_then.
  - intros _. by apply HQ.
Qed.

Lemma lookup_mac t ip mac : good t -> Neigh.lookup t ip = Some mac -> mac_wf mac.
Proof.
  intros [N _]. rewrite neigh_lookup_view by done. unfold view. rewrite lookup_fmap.
  destruct (content (Neigh.nt_hash t) !! ip) as [v|] eqn:E; [|done]. cbn. intros [= <-].
  destruct (no_packed _ N ip v E) as (m & W & ->). by rewrite (proj1 (unpack_pack m W)).
Qed.

Lemma build_tcp_wp p fl seq ack Q s :
  calm s -> mac_wf (p_mac p) -> (forall b s', quiet s s' -> Q b s') -> wp (build_tcp dp p fl seq ack) Q s.
Proof.
  intros C Hm HQ. unfold build_tcp. apply wp_bind, wp_gets, wp_bind, wp_gets.
  set (o := if mac_is_zero (p_mac p) then _ else _).
  assert (Ho : forall m, o = Some m -> mac_wf m).
  { intros m. unfold o. destruct (mac_is_zero _); [apply lookup_mac, C|by intros [= <-]]. }
  destruct o as [m|].
  - apply new_packet_wp; [done|done| |done]. intros bs L _. apply tcp_frame_wp; [unfold len in L; lia|apply MC|by apply Ho|done].
  - apply wp_bind, master_request_neigh_wp; [done|]. intros s' S. apply wp_ret. by apply HQ.
Qed.

(** ** Health checks *)

(** What every step of the master keeps. *)
Record mstep s s' : Prop := {
  ms_inv : MInv s';
  ms_neigh : goes (m_neigh s) (m_neigh s');
  ms_loose : loose (m_ws s') = loose (m_ws s);
  ms_clock : clock (ws_io (m_ws s)) <= clock (ws_io (m_ws s'));
  ms_conf : conf_ (m_hc s') = conf_ (m_hc s)
}.

Lemma mstep_trans s1 s2 s3 : mstep s1 s2 -> mstep s2 s3 -> mstep s1 s3.
Proof. intros [A1 A2 A3 A4 A5] [B1 B2 B3 B4 B5]. split; [done|by eapply goes_trans|lia|lia|congruence]. Qed.

Lemma minv_calm s : MInv s -> calm s.
Proof. by intros [T G _]. Qed.

Lemma mstep_refl s : MInv s -> mstep s s.
Proof. intros I. split; [done|apply goes_refl, I|done|lia|done]. Qed.

Lemma quiet_mstep s s' : MInv s -> quiet s s' -> mstep s s'.
Proof.
  intros [T G H] [A1 A2 A3 A4 A5]. split; [split; [done|apply A2|by rewrite A3]|done|done|lia|by rewrite A3].
Qed.

(** The loop body of [tick] holds the probe [id], now [p], since [s0]. *)
Record holds id s0 s p : Prop := {
  ho_calm : calm s;
  ho_inv : HcInv (at_ id p (m_hc s));
  ho_neigh : goes (m_neigh s0) (m_neigh s);
  ho_loose : loose (m_ws s) = loose (m_ws s0);
  ho_clock : clock (ws_io (m_ws s0)) <= clock (ws_io (m_ws s));
  ho_conf : conf_ (m_hc s) = conf_ (m_hc s0);
  ho_dom : dom (probes_ (m_hc s)) = dom (probes_ (m_hc s0));
  ho_id : id ∈ dom (probes_ (m_hc s0))
}.

Lemma holds_start id s p : MInv s -> probes_ (m_hc s) !! id = Some p -> holds id s s p.
Proof.
  intros [T G H] Hp. split; [done| |by apply goes_refl|done|lia|done|done|by apply elem_of_dom_2 in Hp].
  unfold at_. by rewrite insert_id, set_probes_same.
Qed.

Lemma holds_same id s0 s p q :
  holds id s0 s p -> p_rs_id q = p_rs_id p -> p_mac q = p_mac p -> p_in_flight q = p_in_flight p ->
  p_src_port q = p_src_port p -> holds id s0 s q.
Proof. intros [A1 A2 A3 A4 A5 A6 A7 A8] E1 E2 E3 E4. split; try done. by eapply at_same. Qed.

Lemma holds_quiet id s0 s s' p : holds id s0 s p -> quiet s s' -> holds id s0 s' p.
Proof.
  intros [A1 A2 A3 A4 A5 A6 A7 A8] [B1 B2 B3 B4 B5].
  split; [split; [done|apply B2]|by rewrite B3|by eapply goes_trans|lia|lia|by rewrite B3|by rewrite B3|done].
Qed.

Lemma holds_end id s0 s p Q :
  holds id s0 s p ->
  (forall s', mstep s0 s' -> dom (probes_ (m_hc s')) = dom (probes_ (m_hc s0)) -> Q tt s') ->
  wp (set_probe id p) Q s.
Proof.
  intros [[T G] A2 A3 A4 A5 A6 A7 A8] HQ. apply wp_modify, HQ.
  - split; [split; [done|done|exact A2]|done|done|done|exact A6].
  - cbn. rewrite dom_insert_L, A7. set_solver.
Qed.

Lemma result_frame c p ok :
  p_rs_id (result c p ok) = p_rs_id p /\ p_mac (result c p ok) = p_mac p
  /\ p_in_flight (result c p ok) = p_in_flight p /\ p_src_port (result c p ok) = p_src_port p.
Proof. by destruct ok. Qed.

(** A probe that ends gives its port back. *)
Lemma holds_done id s0 s p q Q :
  holds id s0 s p -> p_in_flight p = true -> p_rs_id q = p_rs_id p -> p_mac q = p_mac p -> p_in_flight q = false ->
  (forall s', holds id s0 s' q -> Q tt s') ->
  wp (onhc (fun h => set_ports (delete (p_src_port p) (by_port_ h)) h)) Q s.
Proof.
  intros [A1 A2 A3 A4 A5 A6 A7 A8] Ef E1 E2 E3 HQ. apply wp_modify, HQ.
  split; [exact A1|by apply (at_done id p)|exact A3|exact A4|exact A5|exact A6|exact A7|exact A8].
Qed.

Lemma send_probe_wp id now s0 s p Q :
  holds id s0 s p -> p_in_flight p = false -> (size (probes_ (m_hc s0)) <= 1000)%nat ->
  (forall q s', holds id s0 s' q -> Q q s') -> wp (send_probe dp id now p) Q s.
Proof.
  intros H Hf Hs HQ. pose proof H as [A1 A2 A3 A4 A5 A6 A7 A8]. unfold send_probe. apply wp_bind, wp_gets.
  assert (Hs' : (size (<[id := p]> (probes_ (m_hc s))) <= 1000)%nat).
  { rewrite <- size_dom, dom_insert_L, A7, subseteq_union_1_L, size_dom by set_solver. done. }
  pose proof (start_probe_inv id now p (m_hc s) A2 Hf Hs') as SP.
  destruct (start_probe id now p (m_hc s)) as [q h]. destruct SP as (I & _ & _ & _ & C & P & M).
  apply wp_bind, wp_modify. set (s1 := mkM _ _ _).
  assert (H1 : holds id s0 s1 q).
  { split; [exact A1| |exact A3|exact A4|exact A5|cbn; congruence| |exact A8].
    - cbn. unfold at_. rewrite P, insert_insert_eq, <- P, set_probes_same. exact I.
    - cbn. rewrite P, dom_insert_L, A7. set_solver. }
  apply wp_bind, build_tcp_wp; [exact A1| |].
  - rewrite M. apply (hi_probe _ A2 id p), lookup_insert_eq.
  - intros b s' S. apply wp_ret, HQ. by eapply holds_quiet.
Qed.

Lemma tick_probe_wp now id Q s :
  MInv s -> id ∈ dom (probes_ (m_hc s)) -> (size (probes_ (m_hc s)) <= 1000)%nat ->
  (forall s', mstep s s' -> dom (probes_ (m_hc s')) = dom (probes_ (m_hc s)) -> Q tt s') ->
  wp (tick_probe dp now id) Q s.
Proof.
  intros I [p Hp]%elem_of_dom Hs HQ. unfold tick_probe. apply wp_bind, wp_gets, wp_bind, (wp_deref _ p); [done|].
  pose proof (holds_start id s p I Hp) as H0. set (c := conf_ (m_hc s)).
  apply wp_bind, (wp_mono _ (fun p' s' => holds id s s' p')).
  { destruct (p_in_flight p) eqn:Ef; cbn [andb]; [|by apply wp_ret]. destruct (_ >=? _); [|by apply wp_ret].
    destruct (result_frame c (set_flight false p) false) as (R1 & R2 & R3 & R4).
    apply wp_bind, (holds_done id s s p (result c (set_flight false p) false)); done. }
  clear p Hp H0. intros p s1 H1. apply wp_bind, (wp_mono _ (fun p' s' => holds id s s' p')).
  { destruct (p_in_flight p) eqn:Ef; cbn [negb andb]; [by apply wp_ret|]. destruct (now >=? p_next_ms p); [|by apply wp_ret].
    apply wp_bind, (send_probe_wp id now s); [done|done|done|]. intros q s' H. apply wp_ret. by eapply holds_same. }
  clear p s1 H1. intros p s1 H1. apply wp_bind, (wp_mono _ (fun p' s' => holds id s s' p')).
  { destruct (_ && _); [|by apply wp_ret]. apply wp_bind, wp_onws. unfold wp, io.
    destruct (health_enqueue _ _ _) as [ok x] eqn:Eh. apply health_spec in Eh as [Eh Ec].
    assert (H2 : holds id s (mkM (set_io x (m_ws s1)) (m_neigh s1) (m_hc s1)) p).
    { apply (holds_quiet _ _ s1); [done|]. destruct (ho_calm _ _ _ _ H1) as [T G].
      split; cbn; [done|by apply goes_refl|done| |done]. unfold loose. cbn. lia. }
    apply wp_ret. destruct ok; [by eapply holds_same|done]. }
  intros p' s' H. by apply (holds_end id s s' p').
Qed.

Lemma tick_probes_wp now ids Q s :
  MInv s -> Forall (fun id => id ∈ dom (probes_ (m_hc s))) ids -> (size (probes_ (m_hc s)) <= 1000)%nat ->
  (forall s', mstep s s' -> Q tt s') -> wp (tick_probes dp now ids) Q s.
Proof.
  intros I F Hs. revert s I F Hs Q. induction ids as [|id ids IH]; intros s I F Hs Q HQ; cbn [tick_probes].
  - apply wp_ret, HQ. by apply mstep_refl.
  - apply Forall_cons in F as [F1 F]. apply wp_bind, tick_probe_wp; [done|done|done|]. intros s1 S1 D.
    apply IH; [apply S1|by rewrite D|by rewrite <- size_dom, D, size_dom|]. intros s2 S2. apply HQ. by eapply mstep_trans.
Qed.

(** The enumeration visits probes of the table. *)
Definition order_ok : Prop := forall m : gmap Z Probe, Forall (fun id => id ∈ dom m) (order m).
Context (OO : order_ok).

(** What the master needs of a snapshot: [pool_ok], and at most as many real
    servers as there are ports for probes. *)
Definition snap_fits (c : HealthConf) (snap : Snapshot) : Prop := pool_ok c snap /\ (length (rs_pool snap) <= 1000)%nat.

Lemma tick_wp snap Q s :
  MInv s -> snap_fits (conf_ (m_hc s)) snap -> (forall s', mstep s s' -> Q tt s') -> wp (tick dp snap order) Q s.
Proof.
  intros I [Hp Hl] HQ. unfold tick. apply wp_bind, wp_gets. wp_if; [apply wp_ret, HQ; by apply mstep_refl|].
  apply wp_bind, wp_gets. set (now := now_ms _).
  destruct (sync_inv snap now (m_hc s) (mi_hc _ I) Hp) as (h & Es & Ih & Sz & C).
  apply wp_bind, (wp_deref _ h); [done|]. apply wp_bind, wp_modify. set (s1 := mkM _ _ _).
  assert (I1 : MInv s1) by (destruct I; by split).
  apply tick_probes_wp; [done|apply OO|cbn; lia|]. intros s' S. apply HQ. eapply mstep_trans; [|exact S].
  split; [done|apply goes_refl, I|done|cbn; lia|done].
Qed.

Lemma on_response_wp ev Q s :
  MInv s -> (forall s', mstep s s' -> Q tt s') -> wp (on_response dp ev) Q s.
Proof.
  intros I HQ. assert (Nop : Q tt s) by (apply HQ; by apply mstep_refl).
  unfold on_response. apply wp_bind, wp_gets. destruct (by_port_ (m_hc s) !! ev_port ev) as [id|] eqn:Eb; [|by apply wp_ret].
  destruct (probes_ (m_hc s) !! id) as [p|] eqn:Ep; [|by apply wp_ret].
  destruct (hi_port _ (mi_hc _ I) _ _ Eb) as (_ & p' & E' & Ef & Es). assert (p' = p) as -> by congruence.
  wp_if; [by apply wp_ret|]. cbv zeta. set (synack := _ =? _). wp_if; [by apply wp_ret|].
  rewrite <- Es. clear E E0. set (c := conf_ (m_hc s)). pose proof (holds_start id s p I Ep) as H0.
  apply wp_bind, (holds_done id s s p (set_flight false p)); try done. intros s1 H1.
  pose proof (hi_probe _ (mi_hc _ I) id p Ep) as [_ Hm].
  assert (Fin : forall q s', holds id s s' (set_flight false p) -> p_rs_id q = p_rs_id p -> p_mac q = p_mac p ->
    p_in_flight q = false -> p_src_port q = p_src_port p -> wp (set_probe id q) Q s').
  { intros q s' H E1 E2 E3 E4. apply (holds_end id s); [by eapply holds_same|]. intros s2 S2 _. by apply HQ. }
  destruct synack.
  - apply wp_bind, build_tcp_wp; [apply H1|done|]. intros b s2 S2.
    destruct (result_frame c (set_flight false p) true) as (R1 & R2 & R3 & R4). apply Fin; try done. by eapply holds_quiet.
  - destruct (flag (ev_tcp_flags ev) TCP_RST); [|by apply Fin].
    destruct (result_frame c (set_flight false p) false) as (R1 & R2 & R3 & R4). by apply Fin.
Qed.

(** ** The rounds *)

Lemma foreach_wp {A} (body : A -> ST MState unit) (R : A -> Prop) l Q s :
  (forall x s0 Q0, R x -> MInv s0 -> (forall s', mstep s0 s' -> Q0 tt s') -> wp (body x) Q0 s0) ->
  Forall R l -> MInv s -> (forall s', mstep s s' -> Q tt s') -> wp (foreach body l) Q s.
Proof.
  intros Hb F. revert s Q. induction F as [|x l Hx F IH]; intros s Q I HQ; cbn [foreach].
  - apply wp_ret, HQ. by apply mstep_refl.
  - apply wp_bind, Hb; [done|done|]. intros s1 S1. apply IH; [apply S1|]. intros s2 S2. apply HQ. by eapply mstep_trans.
Qed.

Lemma loud {A} (m : ST MState A) s :
  (forall Q, calm s -> (forall a s', quiet s s' -> Q a s') -> wp m Q s) ->
  forall Q, MInv s -> (forall a s', mstep s s' -> Q a s') -> wp m Q s.
Proof. intros H Q I HQ. apply H; [by apply minv_calm|]. intros a s' S. apply HQ. by apply quiet_mstep. Qed.

Lemma arp_step target g Q s :
  MInv s -> (forall s', mstep s s' -> Q tt s') -> wp (send_arp dp target g) Q s.
Proof.
  intros I HQ. apply (loud _ _ (fun Q C H => send_arp_wp target g Q s C (H tt))); [done|]. by intros [].
Qed.

Lemma request_step ip Q s :
  MInv s -> (forall s', mstep s s' -> Q tt s') -> wp (master_request_neigh dp ip) Q s.
Proof.
  intros I HQ. apply (loud _ _ (fun Q C H => master_request_neigh_wp ip Q s C (H tt))); [done|]. by intros [].
Qed.

Lemma neigh_step f Q s :
  MInv s -> goes (m_neigh s) (f (m_neigh s)) -> (forall s', mstep s s' -> Q tt s') -> wp (onneigh f) Q s.
Proof.
  intros I Hg HQ. apply (loud _ _ (fun Q C H => onneigh_wp f Q s C Hg (H tt))); [done|]. by intros [].
Qed.

Lemma send_garp_wp snap Q s :
  MInv s -> (forall s', mstep s s' -> Q tt s') -> wp (send_garp dp snap) Q s.
Proof.
  intros I HQ. apply (foreach_wp _ (fun _ => True)); [|by apply Forall_true|done|done].
  intros x s0 Q0 _ I0 H0. by apply arp_step.
Qed.

Lemma preresolve_wp snap Q s :
  MInv s -> (forall s', mstep s s' -> Q tt s') -> wp (preresolve dp snap) Q s.
Proof.
  intros I HQ. unfold preresolve. cbv zeta. apply wp_bind, wp_gets.
  assert (L : forall s1, mstep s s1 -> wp (foreach (fun r =>
    let nh := Route.next_hop (dp_route dp) (r_ip r) in
    t ← gets m_neigh;
    when (mac_is_zero (r_mac r) && negb (nh =? 0) && negb (bool_decide (is_Some (Neigh.lookup t nh))))
      (master_request_neigh dp nh)) (rs_pool snap)) Q s1).
  { intros s1 S1. apply (foreach_wp _ (fun _ => True)); [|by apply Forall_true|apply S1|].
    - intros r s0 Q0 _ I0 H0. cbv zeta. apply wp_bind, wp_gets, wp_when; intros _; [by apply request_step|].
      apply H0. by apply mstep_refl.
    - intros s2 S2. apply HQ. by eapply mstep_trans. }
  apply wp_bind, wp_when; intros _; [|apply L; by apply mstep_refl]. by apply request_step.
Qed.

Definition event_ok (e : MasterEvent) : Prop := mac_wf (ev_mac e).

Lemma handle_event_wp e Q s :
  event_ok e -> MInv s -> (forall s', mstep s s' -> Q tt s') -> wp (handle_event dp e) Q s.
Proof.
  intros He I HQ. unfold handle_event. apply wp_bind, wp_gets. set (now := now_tick _).
  pose proof (mi_neigh _ I) as G. destruct (ev_type e).
  - apply neigh_step; [done| |done]. by apply (nexec_goes (m_neigh s) (NLearn (ev_ip e) (ev_mac e) false now)).
  - apply neigh_step; [done| |done]. by apply (nexec_goes (m_neigh s) (NLearn (ev_ip e) (ev_mac e) true now)).
  - apply neigh_step; [done| |done]. by apply (nexec_goes (m_neigh s) (NHint (ev_ip e) (ev_mac e) now)).
  - by apply request_step.
  - by apply on_response_wp.
Qed.

Lemma world_step x s :
  MInv s -> held x = held (ws_io (m_ws s)) -> clock (ws_io (m_ws s)) <= clock x ->
  mstep s (mkM (set_io x (m_ws s)) (m_neigh s) (m_hc s)).
Proof.
  intros [T G H] Hh Hc. split; cbn; [by split|by apply goes_refl| |done|done]. unfold loose. cbn. lia.
Qed.

Lemma drain_wp n Q s :
  MInv s -> (forall s', mstep s s' -> Q tt s') -> wp (drain_master_events dp n) Q s.
Proof.
  revert s Q. induction n as [|n IH]; intros s Q I HQ; cbn [drain_master_events].
  { apply wp_ret, HQ. by apply mstep_refl. }
  apply wp_bind, wp_onws. unfold wp at 1, io. destruct (master_dequeue _) as [evs x] eqn:Ed.
  apply events_spec in Ed as (_ & Fe & Eh & Ec). pose proof (world_step x s I Eh Ec) as S1.
  apply wp_bind, (foreach_wp _ event_ok); [intros; by apply handle_event_wp|exact Fe|apply S1|]. intros s2 S2.
  assert (S : mstep s s2) by (by eapply mstep_trans). wp_if; [|by apply wp_ret, HQ].
  apply IH; [apply S|]. intros s3 S3. apply HQ. by eapply mstep_trans.
Qed.

Lemma when_step b m Q s :
  MInv s -> (forall Q0, (forall s', mstep s s' -> Q0 tt s') -> wp m Q0 s) ->
  (forall s', mstep s s' -> Q tt s') -> wp (when b m) Q s.
Proof. intros I Hm HQ. apply wp_when; intros _; [by apply Hm|apply HQ; by apply mstep_refl]. Qed.

Lemma age_neighbours_wp snap Q s :
  MInv s -> (forall s', mstep s s' -> Q tt s') -> wp (age_neighbours dp snap) Q s.
Proof.
  intros I HQ. unfold age_neighbours. apply wp_bind, wp_gets, wp_bind, wp_gets. set (tk := now_tick _).
  pose proof (nexec_goes (m_neigh s) (NAge tk []) (mi_neigh _ I) Logic.I) as G. cbn [nexec] in G.
  destruct (Neigh.age (m_neigh s) tk []) as [nt refresh]. cbn [fst] in G.
  apply wp_bind, neigh_step; [done|done|]. intros s3 S3.
  apply wp_bind, (foreach_wp _ (fun _ => True)); [intros; by apply arp_step|by apply Forall_true|apply S3|]. intros s4 S4.
  apply preresolve_wp; [apply S4|]. intros s5 S5. apply HQ. eapply mstep_trans; [exact S3|]. by eapply mstep_trans.
Qed.

Lemma tsc_step_wp Q s :
  MInv s -> (forall s', mstep s s' -> Q tt s') -> wp (_ ← onws (io rte_rdtsc); mret tt) Q s.
Proof.
  intros I HQ. apply wp_bind, wp_onws. unfold wp, io. destruct (rte_rdtsc _) as [tsc x] eqn:Et.
  apply tsc_spec in Et as (_ & Eh & Ec). apply wp_ret, HQ. by apply world_step.
Qed.

Lemma master_periodic_wp snap t Q s :
  MInv s -> snap_fits (conf_ (m_hc s)) snap -> (forall t' s', mstep s s' -> Q t' s') ->
  wp (master_periodic dp order stats_interval snap t) Q s.
Proof.
  intros I F HQ. unfold master_periodic. apply wp_bind, wp_gets. cbv zeta. set (now := now_ms _).
  apply wp_bind, when_step; [done|intros; by apply send_garp_wp|]. intros s1 S1.
  apply wp_bind, when_step; [apply S1|intros; apply tick_wp; [apply S1|by rewrite (ms_conf _ _ S1)|done]|]. intros s2 S2.
  apply wp_bind, when_step; [apply S2|intros; apply age_neighbours_wp; [apply S2|done]|]. intros s3 S3.
  apply wp_bind, when_step; [apply S3|intros; apply tsc_step_wp; [apply S3|done]|]. intros s4 S4.
  apply wp_ret, HQ. eapply mstep_trans; [exact S1|]. eapply mstep_trans; [exact S2|]. by eapply mstep_trans.
Qed.

Lemma master_round_wp n snap t Q s :
  MInv s -> snap_fits (conf_ (m_hc s)) snap ->
  (forall t' s', mstep s s' -> tx (ws_w (m_ws s')) = [] -> Q t' s') -> wp (master_round dp lc order stats_interval n snap t) Q s.
Proof.
  intros I F HQ. unfold master_round. pose proof (mc_hz MC) as Hz. rewrite (proj2 (Z.eqb_neq _ _)) by lia.
  apply wp_bind, wp_onws. unfold wp at 1, io. destruct (rte_rdtsc _) as [tsc x] eqn:Et.
  apply tsc_spec in Et as (_ & Eh & Ec). pose proof (world_step x s I Eh Ec) as S1.
  apply wp_bind, wp_onws, wp_modify. set (s2 := mkM _ _ _).
  assert (S2 : mstep s s2) by (destruct S1 as [[A1 A2 A3] A4 A5 A6 A7]; split; [by split|done|exact A5|exact A6|done]).
  clearbody s2. apply wp_bind, drain_wp; [apply S2|]. intros s3 S3. assert (S : mstep s s3) by (by eapply mstep_trans).
  apply wp_bind, master_periodic_wp; [apply S|by rewrite (ms_conf _ _ S)|]. intros t' s4 S4.
  assert (S' : mstep s s4) by (by eapply mstep_trans). apply wp_bind, wp_onws, tx_flush_raw_wp. intros v Sv Tv Lv.
  apply wp_ret, HQ; [|done]. destruct S' as [[A1 A2 A3] A4 A5 A6 A7]. split; [split; cbn; [by rewrite Tv|done|done]|done|cbn; lia| |done].
  pose proof (se_clock _ _ Sv). cbn in *. lia.
Qed.

Lemma master_loop_wp n rounds t Q s :
  MInv s -> Forall (snap_fits (conf_ (m_hc s))) rounds ->
  (forall s', mstep s s' -> tx (ws_w (m_ws s')) = [] -> Q tt s') -> wp (master_loop dp lc order stats_interval n rounds t) Q s.
Proof.
  intros I F. revert s t I F Q. induction rounds as [|snap rounds IH]; intros s t I F Q HQ; cbn [master_loop].
  - apply wp_onws, tx_flush_raw_wp. intros v Sv Tv Lv. apply HQ; [|done]. pose proof (se_clock _ _ Sv).
    destruct I as [A1 A2 A3]. split; [split; cbn; [by rewrite Tv|done|done]|by apply goes_refl|cbn; lia|done|done].
  - apply Forall_cons in F as [F1 F]. apply wp_bind, master_round_wp; [done|done|]. intros t' s1 S1 _.
    apply IH; [apply S1|by rewrite (ms_conf _ _ S1)|]. intros s2 S2 T2. apply HQ; [by eapply mstep_trans|done].
Qed.

End Thms.
End MasterThms.
