(* ===== verification/HealthProps.v ===== *)
(** What health checks guarantee: the rise and fall of a real server, the frame
    of a probe and the way back of its answer, and what happens when the probe
    ports run out. *)
From S2P Require Import Prelude Types TcpState Mem Headers Dpdk Session Checksum ChecksumThms Parser ParserThms Forward ForwardThms ForwardProps Steering Config Snapshot SnapshotThms Neigh NeighProps Context SessionView Processor ProcessorInv ProcessorThms ProcessorHandlers ProcessorStart ProcessorProps Worker WorkerThms HealthCheck Master HealthThms MasterThms.
Import Tcp Checksum ChecksumThms Parser ParserThms Forward ForwardThms ForwardProps Steering Config Snapshot SnapshotThms Context SessionView Processor ProcessorInv ProcessorThms ProcessorHandlers ProcessorStart ProcessorProps Worker WorkerThms HealthCheck Master HealthThms MasterThms.

Module HealthProps.

(** ** Rise and fall *)

Definition threshold (c : HealthConf) (b : bool) : Z := if b then hc_rise c else hc_fall c.

(** A probe after the results [rev], newest first. *)
Definition after (c : HealthConf) (p : Probe) (rev : list bool) : Probe := foldr (fun ok p => result c p ok) p rev.

(** A real server is UP after [rise] successes in a row and DOWN after [fall]
    failures in a row, and its state changes at no other time: a result that
    changes it is of the new kind and completes such a run. *)
Theorem hc_rise_fall c p rev :
  1 <= hc_rise c -> 1 <= hc_fall c -> len rev < 4294967296 -> p_ok p = 0 -> p_fail p = 0 ->
  (forall b, threshold c b <= streak b rev -> p_healthy (after c p rev) = b) /\
  (forall r older, rev = r :: older -> p_healthy (after c p rev) <> p_healthy (after c p older) ->
     p_healthy (after c p rev) = r /\ threshold c r <= streak r rev).
Proof.
  intros Hr Hf Hl H0 H1. split.
  - intros b Hb. destruct (results_counts c p rev Hl H0 H1) as (_ & _ & H & _). unfold after. rewrite H. clear H.
    destruct rev as [|r rev]; [destruct b; cbn in Hb; lia|].
    assert (r = b) as ->.
    { destruct (Bool.eqb r b) eqn:E; [by apply eqb_prop|]. cbn in Hb. rewrite E in Hb. destruct b; cbn in Hb; lia. }
    destruct b; cbn [verdict_of threshold] in *; by rewrite Z.geb_leb, (proj2 (Z.leb_le _ _) Hb).
  - intros r older -> Hne. assert (Hl' : len older < 4294967296) by (rewrite len_cons in Hl; lia).
    destruct (results_counts c p _ Hl H0 H1) as (_ & _ & H & _). destruct (results_counts c p _ Hl' H0 H1) as (_ & _ & H' & _).
    unfold after in *. rewrite H in *. rewrite H' in Hne. clear H H'.
    destruct r; cbn [verdict_of threshold] in *; rewrite Z.geb_leb in *;
      match goal with H : context [?a <=? ?b] |- _ => destruct (Z.leb_spec a b) end; done.
Qed.

(** ** Probes *)

(** The frame of a probe is a well-formed unfragmented TCP segment between the
    health check address and the real server with the given flags and sequence
    numbers, and its IP and TCP checksums are correct, whatever the buffer held. *)
Theorem probe_frame_valid src smac dmac p fl seq ack bs :
  length bs = 54%nat -> mac_wf smac -> mac_wf dmac -> is_u32 src -> is_u32 (p_ip p) ->
  exists b, tcp_frame src smac dmac p fl seq ack bs = Some (tt, b) /\ l4_frame b
  /\ ftuple b = mkFiveTuple src (p_ip p) (htons (p_src_port p)) (htons (p_port p)) 6
  /\ get8 47 b = u8 fl /\ get32 38 b = htonl seq /\ get32 42 b = htonl ack
  /\ slice 0 6 b = dmac /\ slice 6 6 b = smac
  /\ sum_ok (wsum (slice 14 20 b)) /\ sum_ok (l4_sum 14 34 20 b).
Proof.
  intros L Hs Hd Hi Hp.
  assert (W : wp (tcp_frame src smac dmac p fl seq ack) (fun _ b => l4_frame b
    /\ ftuple b = mkFiveTuple src (p_ip p) (htons (p_src_port p)) (htons (p_port p)) 6
    /\ get8 47 b = u8 fl /\ get32 38 b = htonl seq /\ get32 42 b = htonl ack
    /\ slice 0 6 b = dmac /\ slice 6 6 b = smac
    /\ sum_ok (wsum (slice 14 20 b)) /\ sum_ok (l4_sum 14 34 20 b)) bs).
  { apply tcp_frame_wp; [done|done|done|]. intros c k Hc Hk b Hf C1 C2.
    destruct (hc_bytes_l4 dmac smac src (p_ip p) (p_src_port p) (p_port p) seq ack fl
      (if flag fl TCP_RST then 0 else 1024) c k Hd Hs Hi Hp Hf) as (A1 & A2 & A3 & A4 & A5 & A6 & A7).
    exact (conj A1 (conj A2 (conj A3 (conj A4 (conj A5 (conj A6 (conj A7 (conj C1 C2)))))))). }
  apply wp_run in W as ([] & b & E & H). by exists b.
Qed.

Section Answers.
Context `{RH : RteHash FiveTuple} `{RL : !RteHashLaws FiveTuple RH} `{NH : RteHash Z} `{NL : !RteHashLaws Z NH}.
Context `{HF : RteHashFns} `{MB : RteMbuf} `{ML : !RteMbufLaws MB}.
Context `{IO : RteIo} `{IL : !RteIoLaws IO} `{RC : !RteCtl} `{CL : !RteCtlLaws RC}.
Implicit Types ps : PState (RH := RH).
Implicit Types ms : MState (RH := RH) (NH := NH) (IO := IO).

(** The event a worker posts for a segment to the health check address. *)
Definition resp_event (bs : list Z) : MasterEvent :=
  mkEvent EV_HC_RESP (get8 (f_l4 bs + 13) bs) (ntohs (get16 (f_l4 bs + 2) bs)) (get32 26 bs)
    (ntohl (get32 (f_l4 bs + 4) bs)) (ntohl (get32 (f_l4 bs + 8) bs)) mac_zero (ntohs (get16 (f_l4 bs) bs)).

(** Such segments reach the master, and touch nothing else. *)
Lemma handle_l4_resp hw_cksum (dp : Dataplane (NH := NH)) max_lcore meta redirected ps :
  let bs := mdata (p_m ps) in
  inv dp max_lcore ps -> parsed bs meta -> f_proto bs = IPProtocol_TCP ->
  get32 30 bs = hc_src (p_snap ps) -> in_hc_range (get16 (f_l4 bs + 2) bs) = true ->
  wp (handle_l4 hw_cksum dp meta redirected)
    (fun r ps' => r = consumed /\ p_evs ps' = p_evs ps ++ [resp_event bs] /\ tbl ps' = tbl ps /\ p_m ps' = p_m ps) ps.
Proof.
  intros bs I P Hp Hd Hr. assert (Eb : mdata (p_m ps) = bs) by done. clearbody bs. pose proof P as [Pf Pm Pi Pl R]. unfold handle_l4. apply wp_bind, wp_gets. cbv zeta.
  pose proof (sk_indexed _ _ (wi_snap _ _ _ _ _ _ I)) as X.
  destruct (rp_ports _ _ R (or_introl Hp)) as [Es Ed].
  pose proof (rp_flags _ _ R) as Ef. rewrite Hp in Ef. change (IPProtocol_TCP =? IPProtocol_TCP) with true in Ef.
  cbv iota in Ef.
  set (K := fun ps1 : PState => p_evs ps1 = p_evs ps /\ tbl ps1 = tbl ps /\ p_m ps1 = p_m ps).
  assert (Hn : in_nat_range (meta_dst_port meta) = false).
  { rewrite Ed. revert Hr. unfold in_hc_range, in_nat_range, kHcPortMin, kNatPortMax.
    rewrite andb_true_iff, Z.geb_le, andb_false_iff. intros [H _]. right. apply Z.leb_gt. lia. }
  assert (Main : forall ps1, K ps1 -> wp (handle_hc_response meta) (fun r ps' => r = consumed /\
     p_evs ps' = p_evs ps ++ [resp_event bs] /\ tbl ps' = tbl ps /\ p_m ps' = p_m ps) ps1).
  { intros ps1 (K1 & K2 & K3). unfold handle_hc_response. rewrite (rp_proto _ _ R). rewrite Hp.
    change (negb (IPProtocol_TCP =? 6)) with false. cbv iota zeta. destruct Pl as (Pt & _). specialize (Pt Hp).
    pose proof Pi as (P1 & P2 & P3 & P4). assert (E4 : f_l4 bs = 14 + f_ihl bs) by done.
    unfold TcpH.seq_num, TcpH.ack_num. rewrite (rp_l4 _ _ R).
    apply wp_bind, onf_read_wp. rewrite K3, Eb. apply wp_rd32; [lia|lia|]. split; [done|].
    apply wp_bind, onf_read_wp. rewrite K3, Eb. apply wp_rd32; [lia|lia|]. split; [done|].
    apply wp_bind, wp_modify, wp_bind, wp_modify, wp_ret. split; [done|]. split; [|done].
    cbn [p_evs set_w]. rewrite K1. unfold resp_event. rewrite Ef, Es, Ed, (rp_sip _ _ R). done. }
  assert (Rest : forall b ps1, K ps1 -> wp (if b && in_nat_range (meta_dst_port meta)
      then handle_return hw_cksum dp meta redirected
      else if (meta_dst_ip meta =? hc_src (p_snap ps)) && in_hc_range (meta_dst_port meta) then handle_hc_response meta
      else
        svc ← deref (find_service (p_snap ps) (meta_dst_ip meta) (meta_dst_port meta) (meta_ip_protocol meta));
        match svc with
        | Some svc => handle_inbound hw_cksum dp svc meta redirected
        | None =>
          local ← deref (is_local (p_snap ps) (meta_dst_ip meta));
          mret (drop (if (local : bool) then ST_DROP_NO_SERVICE else ST_DROP_NOT_LOCAL))
        end) (fun r ps' => r = consumed /\
     p_evs ps' = p_evs ps ++ [resp_event bs] /\ tbl ps' = tbl ps /\ p_m ps' = p_m ps) ps1).
  { intros b ps1 K1. rewrite Hn, andb_false_r, (rp_dip _ _ R). rewrite Hd, Z.eqb_refl, Ed, Hr. by apply Main. }
  apply wp_bind, wp_when; intros _; [apply wp_modify|]; apply wp_bind, wp_andM; intros _;
    first [apply Rest | apply (wp_deref _ _ _ _ (ix_lip _ X _)), Rest]; exact (conj eq_refl (conj eq_refl eq_refl)).
Qed.

(** The master's side. *)
Lemma answer_wp (dp : Dataplane (NH := NH)) lc bs ms id p :
  master_conf dp lc -> MInv ms -> probes_ (m_hc ms) !! id = Some p -> p_in_flight p = true -> is_u16 (p_port p) ->
  get32 26 bs = p_ip p -> get16 (f_l4 bs) bs = htons (p_port p) -> ntohs (get16 (f_l4 bs + 2) bs) = p_src_port p ->
  Z.land (get8 (f_l4 bs + 13) bs) (Z.lor TCP_SYN TCP_ACK) = Z.lor TCP_SYN TCP_ACK ->
  get32 (f_l4 bs + 8) bs = htonl (u32 (p_isn p + 1)) ->
  wp (handle_event dp (resp_event bs)) (fun _ ms' => MInv ms' /\
    m_hc ms' = at_ id (result (conf_ (m_hc ms)) (set_flight false p) true)
                  (set_ports (delete (p_src_port p) (by_port_ (m_hc ms))) (m_hc ms))) ms.
Proof.
  intros MC M Ep Ef Hport T1 T3 T4 Hfl Hack. pose proof (hi_fly _ (mi_hc _ M) _ _ Ep Ef) as Eb.
  assert (Hack' : ntohl (get32 (f_l4 bs + 8) bs) = u32 (p_isn p + 1)).
  { rewrite Hack. apply bswap32_invol, u32_is. }
  assert (Haux : ntohs (get16 (f_l4 bs) bs) = p_port p) by (rewrite T3; by apply bswap16_invol).
  unfold handle_event. apply wp_bind, wp_gets. unfold resp_event at 1. cbn [ev_type].
  unfold on_response. apply wp_bind, wp_gets. unfold resp_event.
  cbn [ev_port ev_ip ev_aux ev_tcp_flags ev_ack]. rewrite T4, Eb, Ep, Ef, T1, Haux, Hfl, Hack', !Z.eqb_refl. cbn [negb andb orb].
  pose proof (holds_start id ms p M Ep) as H0. apply wp_bind, wp_modify. set (ms1 := mkM _ _ _).
  assert (H1 : holds id ms ms1 (set_flight false p)).
  { destruct H0 as [A1 A2 A3 A4 A5 A6 A7 A8]. split; try done. by apply (at_done id p). }
  apply wp_bind, (build_tcp_wp dp lc MC); [apply H1|apply (hi_probe _ (mi_hc _ M) _ _ Ep)|]. intros b ms2 S2.
  pose proof (holds_quiet _ _ _ _ _ H1 S2) as H2.
  apply wp_modify. destruct H2 as [[B1 B1'] B2 _ _ _ _ _ _].
  assert (Ehc : m_hc ms2 = m_hc ms1) by apply S2.
  destruct (result_frame (conf_ (m_hc ms)) (set_flight false p) true) as (R1 & R2 & R3 & R4).
  split; [split; [done|done|]|cbn; by rewrite Ehc]. by apply (at_same id (set_flight false p)).
Qed.

(** C24. A probe and its answer: a SYN-ACK from the probed server to the probe's
    port, with the acknowledgement number the probe asks for, is consumed by
    whatever worker receives it, and the event it becomes counts as one success
    of that server, ends the probe and frees its port; no session and no other
    probe is touched. *)
Theorem probe_round_trip hw_cksum (dp : Dataplane (NH := NH)) max_lcore lc meta redirected ps ms id p :
  let bs := mdata (p_m ps) in
  inv dp max_lcore ps -> parsed bs meta ->
  master_conf dp lc -> MInv ms -> probes_ (m_hc ms) !! id = Some p -> p_in_flight p = true -> is_u16 (p_port p) ->
  src_ip_ (m_hc ms) = hc_src (p_snap ps) ->
  ftuple bs = mkFiveTuple (p_ip p) (src_ip_ (m_hc ms)) (htons (p_port p)) (htons (p_src_port p)) 6 ->
  Z.land (get8 (f_l4 bs + 13) bs) (Z.lor TCP_SYN TCP_ACK) = Z.lor TCP_SYN TCP_ACK ->
  get32 (f_l4 bs + 8) bs = htonl (u32 (p_isn p + 1)) ->
  exists ps' ms', handle_l4 hw_cksum dp meta redirected ps = Some (consumed, ps')
  /\ p_evs ps' = p_evs ps ++ [resp_event bs] /\ tbl ps' = tbl ps
  /\ handle_event dp (resp_event bs) ms = Some (tt, ms') /\ MInv ms'
  /\ m_hc ms' = at_ id (result (conf_ (m_hc ms)) (set_flight false p) true)
                  (set_ports (delete (p_src_port p) (by_port_ (m_hc ms))) (m_hc ms)).
Proof.
  intros bs I P MC M Ep Ef Hport Hsrc Ht Hfl Hack.
  assert (Hq : ntohs (htons (p_src_port p)) = p_src_port p /\ in_hc (p_src_port p)).
  { destruct (hi_port _ (mi_hc _ M) _ _ (hi_fly _ (mi_hc _ M) _ _ Ep Ef)) as [R _].
    split; [|done]. apply bswap16_invol. revert R. unfold in_hc, kHcPortMin, kHcPortMax. zwrap. lia. }
  destruct Hq as [Hq Hr]. injection Ht as T1 T2 T3 T4 T5.
  assert (W : wp (handle_l4 hw_cksum dp meta redirected) (fun r ps' => r = consumed
    /\ p_evs ps' = p_evs ps ++ [resp_event bs] /\ tbl ps' = tbl ps /\ p_m ps' = p_m ps) ps).
  { apply (handle_l4_resp hw_cksum dp max_lcore); [done|done|exact T5|exact (eq_trans T2 Hsrc)|]. fold bs. unfold in_hc_range. cbv zeta.
    rewrite T4, Hq. destruct Hr. by rewrite Z.geb_leb, !(proj2 (Z.leb_le _ _)). }
  apply wp_run in W as (r & ps' & E & -> & E1 & E2 & _). exists ps'.
  assert (W : wp (handle_event dp (resp_event bs)) (fun _ ms' => MInv ms' /\
    m_hc ms' = at_ id (result (conf_ (m_hc ms)) (set_flight false p) true)
                  (set_ports (delete (p_src_port p) (by_port_ (m_hc ms))) (m_hc ms))) ms).
  { exact (answer_wp dp lc bs ms id p MC M Ep Ef Hport T1 T3 (eq_trans (f_equal ntohs T4) Hq) Hfl Hack). }
  apply wp_run in W as ([] & ms' & E' & W1 & W2). by exists ms'.
Qed.

(** When all 1000 probe ports are in use (the configuration admits more real
    servers than that), a probe is sent from the port its server used last, even
    if another server's probe is in flight from it.  That probe stays in flight,
    and whatever the other server answers is ignored. *)
Theorem hc_port_stolen (dp : Dataplane (NH := NH)) now h id p other q :
  in_hc (next_port_ h) -> (forall port, in_hc port -> is_Some (by_port_ h !! port)) ->
  p_rs_id p = id -> other <> id ->
  probes_ h !! other = Some q -> p_in_flight q = true -> p_src_port q = p_src_port p -> p_ip q <> p_ip p ->
  let h' := (start_probe id now p h).2 in
  probes_ h' !! other = Some q /\ by_port_ h' !! p_src_port q = Some id /\
  (forall ev ms, ev_port ev = p_src_port q -> ev_ip ev = p_ip q -> m_hc ms = h' -> on_response dp ev ms = Some (tt, ms)).
Proof.
  intros Hn Full Hid Hne Hq Ef Hport Hip. unfold start_probe.
  pose proof (pick_port_spec (Z.to_nat (kHcPortMax - kHcPortMin + 1)) (next_port_ h) (by_port_ h) Hn) as [_ P].
  destruct (pick_port _ (next_port_ h) (by_port_ h)) as [[port|] next]; cbn [fst snd] in P.
  { destruct P as [P1 P2]. destruct (Full port P1) as [x Hx]. congruence. }
  cbv zeta. cbn [default snd probes_ by_port_ set_sent p_src_port p_rs_id]. set (p' := set_sent _ _ _ p).
  split; [by rewrite lookup_insert_ne|]. rewrite Hport, lookup_insert_eq, Hid. split; [done|].
  intros ev ms E1 E2 E3. unfold on_response. unfold mbind, ST_bind, gets. rewrite E3. cbn [by_port_ probes_].
  rewrite E1, lookup_insert_eq, lookup_insert_eq, E2. cbn [p_in_flight p_ip p' set_sent negb orb].
  rewrite (proj2 (Z.eqb_neq _ _) Hip). done.
Qed.

End Answers.

(** ** Witnesses *)

Definition demo_conf : HealthConf := mkHealthConf true 5000 3000 3 2.

Lemma hc_rise_fall_witness :
  p_healthy (after demo_conf Probe0 [false; false; false; true]) = false /\
  p_healthy (after demo_conf Probe0 [false; false; true; false]) = true.
Proof.
  split.
  - apply (hc_rise_fall demo_conf Probe0 [false; false; false; true]); [cbn; lia|cbn; lia|vm_compute; reflexivity|done|done|].
    vm_compute. discriminate.
  - reflexivity.
Defined.

(** The probe of 10.0.0.2:8080 in flight from port 61000. *)
Definition demo_started : Probe * HealthChecker :=
  start_probe 1 100 (mkProbe 1 33554442 8080 [2;0;0;0;0;2] true true false 0 0 0 0 0 0 0)
    (HealthCheck.init demo_conf 3355443210 (Hc0 demo_conf)).
Definition demo_probe : Probe := Eval vm_compute in demo_started.1.
Definition demo_hc : HealthChecker := Eval vm_compute in demo_started.2.

Lemma demo_hc_inv : HcInv demo_hc.
Proof.
  assert (Hm : mac_wf [2;0;0;0;0;2]) by (split; [done|repeat constructor; zwrap; lia]).
  pose proof (start_probe_inv 1 100 (mkProbe 1 33554442 8080 [2;0;0;0;0;2] true true false 0 0 0 0 0 0 0)
    (HealthCheck.init demo_conf 3355443210 (Hc0 demo_conf))) as H.
  assert (E : start_probe 1 100 (mkProbe 1 33554442 8080 [2;0;0;0;0;2] true true false 0 0 0 0 0 0 0)
    (HealthCheck.init demo_conf 3355443210 (Hc0 demo_conf)) = (demo_probe, demo_hc)) by (vm_compute; reflexivity).
  rewrite E in H. apply H; [|done|vm_compute; lia].
  apply at_fresh; [apply Hc0_inv|done|done|exact Hm|done].
Qed.

Definition demo_mac : MacAddr := [2;0;0;0;0;9].

Lemma probe_frame_valid_witness :
  exists b, tcp_frame 3355443210 demo_mac [2;0;0;0;0;2] demo_probe TCP_SYN (p_isn demo_probe) 0 (replicate 54 0) = Some (tt, b)
  /\ sum_ok (l4_sum 14 34 20 b).
Proof.
  destruct (probe_frame_valid 3355443210 demo_mac [2;0;0;0;0;2] demo_probe TCP_SYN (p_isn demo_probe) 0 (replicate 54 0))
    as (b & H1 & _ & _ & _ & _ & _ & _ & _ & _ & H2); [done| | | | |].
  - split; [done|repeat constructor; zwrap; lia].
  - split; [done|repeat constructor; zwrap; lia].
  - zwrap. lia.
  - vm_compute. split; congruence.
  - exists b. split; [exact H1|exact H2].
Defined.

(** The server's SYN-ACK. *)
Definition demo_answer : list Z :=
  [2;0;0;0;0;9; 2;0;0;0;0;2; 8;0;
   69;0;0;40; 0;1;64;0; 64;6;0;0; 10;0;0;2; 10;0;0;200;
   31;144;238;72; 0;0;0;1; 50;29;200;94; 80;18;255;255; 0;0;0;0].

Definition demo_ms : MState (RH := gmap_hash FiveTuple) (NH := gmap_hash Z) (IO := toy_io) :=
  mkM (IO := toy_io) (mkWS (IO := toy_io) demo_w demo_snap [] (mkToy [] 0 1000 []) Busy0 0) NeighProps.demo_neigh demo_hc.

Definition demo_lc : LoopConf := mkLoopConf false 2 2 1000 0 [true; true].

Lemma demo_master_conf : master_conf demo_dp demo_lc.
Proof. split; [split; [done|repeat constructor; zwrap; lia]|by eexists|done]. Qed.

Lemma demo_ms_inv : MInv demo_ms.
Proof. split; [done|apply NeighProps.demo_neigh_good|apply demo_hc_inv]. Qed.

Lemma probe_round_trip_witness :
  exists ps' ms', handle_l4 (HF := mix_fns) (MB := flat_mbuf) false demo_dp (meta_of demo_answer) false
    (demo_state (mbuf_of demo_answer)) = Some (consumed, ps')
  /\ handle_event (MB := flat_mbuf) demo_dp (resp_event demo_answer) demo_ms = Some (tt, ms')
  /\ p_ok <$> probes_ (m_hc ms') !! 1 = Some 1.
Proof.
  destruct (probe_round_trip (HF := mix_fns) (MB := flat_mbuf) false demo_dp 4 demo_lc (meta_of demo_answer) false
              (demo_state (mbuf_of demo_answer)) demo_ms 1 demo_probe)
    as (ps' & ms' & H1 & _ & _ & H2 & _ & H3).
  - apply demo_inv.
  - solve_parsed.
  - apply demo_master_conf.
  - apply demo_ms_inv.
  - vm_compute. reflexivity.
  - vm_compute. reflexivity.
  - vm_compute. split; congruence.
  - vm_compute. reflexivity.
  - vm_compute. reflexivity.
  - vm_compute. reflexivity.
  - vm_compute. reflexivity.
  - exists ps', ms'. split; [exact H1|]. split; [exact H2|]. rewrite H3. vm_compute. reflexivity.
Defined.

(** 1000 servers with a probe in flight each. *)
Definition crowd : list (Z * Probe) :=
  (fun i => (i, mkProbe i (i * 256 + 10) 80 mac_zero true true true (60999 + i) 0 0 0 0 0 0)) <$> seqZ 1 1000.
Definition crowded : HealthChecker :=
  mkHc demo_conf 3355443210 61000 0 (list_to_map crowd) (list_to_map ((fun kv => (p_src_port kv.2, kv.1)) <$> crowd)).

Lemma crowded_full port : in_hc port -> is_Some (by_port_ crowded !! port).
Proof.
  intros Hp. assert (F : forallb (fun k => bool_decide (is_Some (by_port_ crowded !! k))) (seqZ 61000 1000) = true)
    by (vm_compute; reflexivity).
  rewrite forallb_forall in F. eapply bool_decide_eq_true_1, F, list_elem_of_In, elem_of_seqZ.
  unfold in_hc, kHcPortMin, kHcPortMax in Hp. lia.
Qed.

(** One more server, which used port 61004 last; a SYN-ACK of the fifth. *)
Definition late_probe : Probe := mkProbe 1001 10 80 mac_zero true true false 61004 0 0 0 0 0 0.
Definition fifth_probe : Probe := mkProbe 5 (5 * 256 + 10) 80 mac_zero true true true 61004 0 0 0 0 0 0.
Definition crowded_ms : MState (RH := gmap_hash FiveTuple) (NH := gmap_hash Z) (IO := toy_io) :=
  mkM (IO := toy_io) (m_ws demo_ms) (m_neigh demo_ms) (start_probe 1001 7 late_probe crowded).2.
Definition fifth_answer : MasterEvent := mkEvent EV_HC_RESP 18 61004 (5 * 256 + 10) 0 1 mac_zero 80.

Lemma hc_port_stolen_witness :
  probes_ (m_hc crowded_ms) !! 5 = Some fifth_probe /\
  on_response (MB := flat_mbuf) demo_dp fifth_answer crowded_ms = Some (tt, crowded_ms).
Proof.
  destruct (hc_port_stolen (RH := gmap_hash FiveTuple) (MB := flat_mbuf) (IO := toy_io) demo_dp 7 crowded 1001 late_probe 5 fifth_probe)
    as (H1 & _ & H2).
  - vm_compute. split; congruence.
  - exact crowded_full.
  - reflexivity.
  - lia.
  - vm_compute. reflexivity.
  - reflexivity.
  - reflexivity.
  - vm_compute. congruence.
  - split; [exact H1|]. apply H2; reflexivity.
Defined.

End HealthProps.

(** * The master thread as a whole *)

Import Tcp Steering Config Snapshot Context Processor ProcessorStart Worker WorkerThms HealthCheck Master HealthThms MasterThms HealthProps.

Module MasterProps.

Section Props.
Context `{RH : RteHash FiveTuple} `{NH : RteHash Z} `{NL : !RteHashLaws Z NH}.
Context `{HF : RteHashFns} `{MB : RteMbuf} `{ML : !RteMbufLaws MB}.
Context `{IO : RteIo} `{IL : !RteIoLaws IO} `{RC : !RteCtl} `{CL : !RteCtlLaws RC}.
Implicit Types s : MState (RH := RH) (NH := NH) (IO := IO).

(** C15. The master thread, over any number of rounds, any events from the workers
    and any snapshots with at most 1000 real servers: it does not fault; at the
    end every packet it allocated has been sent or freed, and its TX buffer is
    empty; the neighbour table has been changed by its own operations only, with
    well-formed addresses; and no two servers' probes are in flight from the same
    port. *)
Theorem master_loop_safe (dp : Dataplane (NH := NH)) lc order stats_interval batches rounds t s :
  master_conf dp lc -> order_ok order -> MInv s -> Forall (snap_fits (conf_ (m_hc s))) rounds ->
  exists s', master_loop dp lc order stats_interval batches rounds t s = Some (tt, s')
  /\ tx (ws_w (m_ws s')) = []
  /\ held (ws_io (m_ws s')) = held (ws_io (m_ws s)) - len (tx (ws_w (m_ws s)))
  /\ NeighProps.goes (m_neigh s) (m_neigh s')
  /\ forall id p id' p', probes_ (m_hc s') !! id = Some p -> probes_ (m_hc s') !! id' = Some p' ->
       p_in_flight p = true -> p_in_flight p' = true -> p_src_port p = p_src_port p' -> id = id'.
Proof.
  intros MC OO I F.
  assert (W : wp (master_loop dp lc order stats_interval batches rounds t) (fun _ s' => mstep s s' /\ tx (ws_w (m_ws s')) = []) s).
  { apply (master_loop_wp dp lc order stats_interval MC OO); [done|done|]. intros s' S T. by split. }
  apply wp_run in W as ([] & s' & E & [[_ _ H] G L _ _] & T). exists s'. split; [done|]. split; [done|].
  split; [unfold loose in L; rewrite T in L; unfold len in *; cbn [length] in L; lia|]. split; [done|].
  intros id p id' p' Hp Hp' Hf Hf' Es. pose proof (hi_fly _ H _ _ Hp Hf). pose proof (hi_fly _ H _ _ Hp' Hf'). congruence.
Qed.

End Props.

Definition demo_order (m : gmap Z Probe) : list Z := elements (dom m : gset Z).

Lemma demo_order_ok : order_ok demo_order.
Proof. intros m. unfold demo_order. apply Forall_forall. intros id H. by apply elem_of_elements in H. Qed.

Lemma demo_fits : snap_fits demo_conf demo_snap.
Proof.
  split; [split; [done|]|vm_compute; lia].
  assert (E : (fun r => (r_svc_idx r, r_mac r)) <$> rs_pool demo_snap = [(0, [2;0;0;0;0;2])]) by (vm_compute; reflexivity).
  assert (E' : is_Some (services demo_snap !! 0%nat)) by (vm_compute; by eexists).
  apply (Forall_fmap (fun r => (r_svc_idx r, r_mac r))
    (fun k => is_Some (services demo_snap !! Z.to_nat k.1) /\ NeighProps.mac_wf k.2)). rewrite E.
  apply Forall_singleton. split; [exact E'|]. split; [done|]. repeat constructor; zwrap; lia.
Qed.

Lemma master_loop_safe_witness :
  exists s', master_loop (MB := flat_mbuf) demo_dp demo_lc demo_order 10 4 [demo_snap; demo_snap] Timers0 demo_ms = Some (tt, s')
  /\ held (ws_io (m_ws s')) = 0.
Proof.
  destruct (master_loop_safe (MB := flat_mbuf) demo_dp demo_lc demo_order 10 4 [demo_snap; demo_snap] Timers0 demo_ms)
    as (s' & H1 & _ & H2 & _).
  - apply demo_master_conf.
  - apply demo_order_ok.
  - apply demo_ms_inv.
  - change (conf_ (m_hc demo_ms)) with demo_conf. repeat (apply Forall_cons_2; [apply demo_fits|]). constructor.
  - exists s'. split; [exact H1|]. rewrite H2. reflexivity.
Defined.

End MasterProps.
