(* ===== verification/Text.v ===== *)
(** Text: what the sources use of the C and C++ string functions, and the
    address parsers of src/common/types.cpp.

    A std::string is a [string]; functions that take a [char *] see it up to the
    first NUL ([c_str]).  unsigned long has 64 bits. *)
From S2P Require Import Prelude Types Mem.
From Stdlib Require Import String Ascii.

(** inet_pton for AF_INET is the C library's: the address in network byte order. *)
Class Inet := { inet_pton : string -> option Z }.
Class InetLaws (I : Inet) := { inet_u32 s a : inet_pton s = Some a -> is_u32 a }.

Module Text.

Definition code (c : ascii) : Z := Z.of_N (N_of_ascii c).
Definition chr (n : Z) : ascii := ascii_of_N (Z.to_N n).

Definition isspace (c : ascii) : bool := (code c =? 32) || ((9 <=? code c) && (code c <=? 13)).
Definition isdigit (c : ascii) : bool := (48 <=? code c) && (code c <=? 57).
Definition tolower (c : ascii) : ascii :=
  if (65 <=? code c) && (code c <=? 90) then chr (code c + 32) else c.

Fixpoint c_str (s : string) : string :=
  match s with
  | EmptyString => EmptyString
  | String c s => if code c =? 0 then EmptyString else String c (c_str s)
  end.

Definition empty (s : string) : bool := match s with EmptyString => true | _ => false end.

(** *** Numbers *)

Fixpoint skip_space (s : string) : string :=
  match s with
  | EmptyString => EmptyString
  | String c t => if isspace c then skip_space t else s
  end.

Definition sign (s : string) : bool * string :=
  match s with
  | String c t => if code c =? 45 then (true, t) else if code c =? 43 then (false, t) else (false, s)
  | EmptyString => (false, s)
  end.

Definition decimal (c : ascii) : option Z := if isdigit c then Some (code c - 48) else None.
Definition hexadecimal (c : ascii) : option Z :=
  if isdigit c then Some (code c - 48)
  else let n := code (tolower c) in if (97 <=? n) && (n <=? 102) then Some (n - 87) else None.

(** The longest run of digits: its value after [acc], and the rest. *)
Fixpoint scan_digits (digit : ascii -> option Z) (base acc : Z) (s : string) : Z * string :=
  match s with
  | EmptyString => (acc, s)
  | String c t => match digit c with
                  | Some d => scan_digits digit base (acc * base + d) t
                  | None => (acc, s)
                  end
  end.

Definition starts_digit (digit : ascii -> option Z) (s : string) : bool :=
  match s with String c _ => match digit c with Some _ => true | None => false end | EmptyString => false end.

Definition ULONG_MAX : Z := 18446744073709551615.

(** The value converted to unsigned long, and whether it was out of range. *)
Definition to_ulong (neg : bool) (v : Z) : Z * bool :=
  if v >? ULONG_MAX then (ULONG_MAX, true) else (if neg then u64 (- v) else v, false).

(** strtoul(s, &end, 10): value, errno == ERANGE, and what [end] points to. *)
Definition strtoul (s : string) : Z * bool * string :=
  let '(neg, t) := sign (skip_space s) in
  if starts_digit decimal t then
    let '(v, rest) := scan_digits decimal 10 0 t in (to_ulong neg v, rest)
  else (0, false, s).

(** %x of sscanf into an unsigned int. *)
Definition scan_x (s : string) : option (Z * string) :=
  let '(neg, t) := sign (skip_space s) in
  let t := match t with
           | String c (String x t') => if (code c =? 48) && (code (tolower x) =? 120) then t' else t
           | _ => t
           end in
  if starts_digit hexadecimal t then
    let '(v, rest) := scan_digits hexadecimal 16 0 t in Some (u32 (to_ulong neg v).1, rest)
  else None.

(** *** Splitting *)

(** Before and after the first [c]. *)
Fixpoint cut (c : ascii) (s : string) : option (string * string) :=
  match s with
  | EmptyString => None
  | String x t => if (x =? c)%char then Some (EmptyString, t)
                  else '(a, b) ← cut c t; Some (String x a, b)
  end.

(** Repeated std::getline(ss, part, sep): nothing follows a final separator. *)
Fixpoint getlines (sep : ascii) (acc s : string) : list string :=
  match s with
  | EmptyString => if empty acc then [] else [acc]
  | String c t => if (c =? sep)%char then acc :: getlines sep EmptyString t
                  else getlines sep (String.append acc (String c EmptyString)) t
  end.

(** Repeated is >> word. *)
Fixpoint words (acc s : string) : list string :=
  match s with
  | EmptyString => if empty acc then [] else [acc]
  | String c t => if isspace c then (if empty acc then words EmptyString t else acc :: words EmptyString t)
                  else words (String.append acc (String c EmptyString)) t
  end.

Fixpoint rtrim (s : string) : string :=
  match s with
  | EmptyString => EmptyString
  | String c t => let t := rtrim t in if empty t && isspace c then EmptyString else String c t
  end.

Definition trim (s : string) : string := rtrim (skip_space s).

Fixpoint to_lower (s : string) : string :=
  match s with
  | EmptyString => EmptyString
  | String c t => String (tolower c) (to_lower t)
  end.

Definition split (s : string) (sep : ascii) : list string :=
  filter (fun p => empty p = false) (trim <$> getlines sep EmptyString s).

(** *** Addresses *)

Definition parse_ipv4 {I : Inet} (s : string) : option IPv4Addr := inet_pton (c_str s).

(** [n] numbers separated by colons; then the string must end. *)
Fixpoint scan_mac (n : nat) (s : string) : option (list Z) :=
  '(v, rest) ← scan_x s;
  match n with
  | O => if empty rest then Some [v] else None
  | S n => match rest with
           | String c t => if code c =? 58 then l ← scan_mac n t; Some (v :: l) else None
           | EmptyString => None
           end
  end.

Definition parse_mac (s : string) : option MacAddr :=
  a ← scan_mac 5 (c_str s);
  if forallb (fun v => v <=? 255) a then Some a else None.

(** *** Facts *)

Lemma scan_digits_nonneg digit base acc s :
  (forall c d, digit c = Some d -> 0 <= d) -> 0 <= base -> 0 <= acc -> 0 <= (scan_digits digit base acc s).1.
Proof.
  intros Hd Hb. revert acc. induction s as [|c s IH]; intros acc Ha; cbn [scan_digits]; [done|].
  destruct (digit c) as [d|] eqn:E; [|done]. apply IH. specialize (Hd c d E). nia.
Qed.

Lemma decimal_nonneg c d : decimal c = Some d -> 0 <= d.
Proof. unfold decimal, isdigit. destruct (_ && _) eqn:E; [|done]. intros [= <-]. lia. Qed.

Lemma to_ulong_u64 neg v : 0 <= v -> is_u64 (to_ulong neg v).1.
Proof.
  intros H. unfold to_ulong, ULONG_MAX. destruct (Z.gtb_spec v 18446744073709551615); cbn [fst]; [zwrap; lia|].
  destruct neg; [apply u64_is|zwrap; lia].
Qed.

Lemma strtoul_u64 s v r e : strtoul s = (v, r, e) -> is_u64 v.
Proof.
  unfold strtoul. destruct (sign (skip_space s)) as [neg t]. destruct (starts_digit decimal t); [|intros [= <- <- <-]; zwrap; lia].
  pose proof (scan_digits_nonneg decimal 10 0 t decimal_nonneg) as N.
  destruct (scan_digits decimal 10 0 t) as [n rest]. pose proof (to_ulong_u64 neg n) as U.
  destruct (to_ulong neg n) as [n' r']. intros [= <- <- <-]. apply U, N; lia.
Qed.

Lemma scan_x_u32 s v rest : scan_x s = Some (v, rest) -> is_u32 v.
Proof.
  unfold scan_x. destruct (sign (skip_space s)) as [neg t].
  destruct (starts_digit _ _); [|done]. destruct (scan_digits _ _ _ _) as [n r]. intros [= <- <-]. apply u32_is.
Qed.

Lemma scan_mac_len n s l : scan_mac n s = Some l -> List.length l = S n /\ Forall is_u32 l.
Proof.
  revert s l. induction n as [|n IH]; intros s l; cbn [scan_mac]; destruct (scan_x s) as [[v rest]|] eqn:E; cbn; try done.
  - apply scan_x_u32 in E. destruct (empty rest); [|done]. intros [= <-]. auto.
  - apply scan_x_u32 in E. destruct rest as [|c t]; [done|]. destruct (code c =? 58); [|done].
    destruct (scan_mac n t) as [l'|] eqn:El; [|done]. intros [= <-]. apply IH in El as [L F]. split; [cbn; lia|by constructor].
Qed.

(** A parsed MAC address is six bytes. *)
Lemma parse_mac_wf s m : parse_mac s = Some m -> len m = 6 /\ frame m.
Proof.
  unfold parse_mac. destruct (scan_mac 5 (c_str s)) as [l|] eqn:E; [|done]. cbn. apply scan_mac_len in E as [L F].
  destruct (forallb _ l) eqn:B; [|done]. intros [= <-]. split; [unfold len; lia|].
  rewrite forallb_forall in B. apply Forall_forall. intros x Hx. rewrite Forall_forall in F. specialize (F x Hx).
  apply list_elem_of_In in Hx. specialize (B x Hx). apply Z.leb_le in B. revert F. zwrap. lia.
Qed.

End Text.

(** *** A strict dotted-decimal reader *)

Module Dotted.

(** Octets most significant first; no leading zeros. *)
Definition octet (s : string) : option Z :=
  if (String.length s =? 0)%nat || (3 <? String.length s)%nat then None
  else match Text.scan_digits Text.decimal 10 0 s with
       | (v, EmptyString) =>
         if (v >? 255) || ((1 <? String.length s)%nat && String.prefix "0" s) then None else Some v
       | _ => None
       end.

Definition read (s : string) : option Z :=
  '(a, s) ← Text.cut "."%char s;
  '(b, s) ← Text.cut "."%char s;
  '(c, d) ← Text.cut "."%char s;
  a ← octet a; b ← octet b; c ← octet c; d ← octet d;
  Some (u32 (a + 256 * b + 65536 * c + 16777216 * d)).

End Dotted.

#[export] Instance dotted_inet : Inet := { inet_pton := Dotted.read }.

#[export] Instance dotted_inet_laws : InetLaws dotted_inet.
Proof.
  split. intros s a. unfold inet_pton, dotted_inet, Dotted.read.
  intros ([x t] & _ & ([y t2] & _ & ([z w] & _ & (x' & _ & (y' & _ & (z' & _ & (w' & _ & [= <-])%bind_Some)%bind_Some)%bind_Some)%bind_Some)%bind_Some)%bind_Some)%bind_Some.
  apply u32_is.
Qed.
