(* ===== verification/Print.v ===== *)
(** Print: numbers and addresses as text.

    std::to_string, the conversions of printf the sources use (%lu, %02X, %0Nd),
    and the address printers of src/common/types.cpp.  inet_ntop is the C
    library's ([InetPrint]). *)
From S2P Require Import Prelude Types Mem Text.
From Stdlib Require Import String Ascii.

Class InetPrint := { inet_ntop : Z -> string }.

(** What is printed is read back, and has no NUL inside. *)
Class InetPrintLaws (I : Inet) (P : InetPrint) := {
  ntop_pton a : is_u32 a -> inet_pton (inet_ntop a) = Some a;
  ntop_c_str a : is_u32 a -> Text.c_str (inet_ntop a) = inet_ntop a;
}.

Module Print.
Import Text.
Local Open Scope string_scope.
Local Open Scope Z_scope.

(** Decimal, at most 20 digits: enough for 64 bits. *)
Fixpoint decimal_digits (fuel : nat) (n : Z) : string :=
  match fuel with
  | O => EmptyString
  | S fuel => String.append (if n <? 10 then EmptyString else decimal_digits fuel (n / 10)) (String (chr (48 + n mod 10)) EmptyString)
  end.
Definition to_string (n : Z) : string := decimal_digits 20 n.

(** %0<w>d of a number that is not negative. *)
Fixpoint zeros (n : nat) : string := match n with O => EmptyString | S n => String "0"%char (zeros n) end.
Definition pad (w : nat) (s : string) : string := String.append (zeros (w - String.length s)) s.

(** %02X of a byte. *)
Definition hex_digit (d : Z) : ascii := if d <? 10 then chr (48 + d) else chr (55 + d).
Definition hex2 (b : Z) : string := String (hex_digit (b / 16)) (String (hex_digit (b mod 16)) EmptyString).

Fixpoint colons (l : list Z) : string :=
  match l with
  | [] => EmptyString
  | [b] => hex2 b
  | b :: l => String.append (hex2 b) (String ":"%char (colons l))
  end.

Definition mac_to_string (mac : MacAddr) : string := colons mac.

Definition ip_to_string {P : InetPrint} (ip : IPv4Addr) : string := inet_ntop ip.

Definition ip_from_string {I : Inet} (s : string) : IPv4Addr :=
  match parse_ipv4 s with Some ip => ip | None => 0 end.

Definition mac_from_string (s : string) : MacAddr :=
  match parse_mac s with Some m => m | None => mac_zero end.

(** *** Facts *)

Lemma append_nil s : String.append EmptyString s = s.
Proof. done. Qed.

Lemma append_cons c s t : String.append (String c s) t = String c (String.append s t).
Proof. done. Qed.

Lemma append_nil_r s : String.append s EmptyString = s.
Proof. induction s as [|c s IH]; [done|]. by rewrite append_cons, IH. Qed.

Lemma append_assoc s t u : String.append s (String.append t u) = String.append (String.append s t) u.
Proof. induction s as [|c s IH]; [done|]. by rewrite !append_cons, IH. Qed.

Lemma append_inv_head s t u : String.append s t = String.append s u -> t = u.
Proof. induction s as [|c s IH]; [done|]. rewrite !append_cons. intros [=]. auto. Qed.

Lemma length_append s t : String.length (String.append s t) = (String.length s + String.length t)%nat.
Proof. induction s as [|c s IH]; [done|]. rewrite append_cons. simpl. lia. Qed.

Lemma digit_cases d : 0 <= d < 16 ->
  exists k, (k < 16)%nat /\ d = Z.of_nat k.
Proof. intros. exists (Z.to_nat d). lia. Qed.

Ltac digit k :=
  do 16 (destruct k as [|k]; [vm_compute; intuition congruence|]); lia.

Lemma decimal_chr d : 0 <= d < 10 -> decimal (chr (48 + d)) = Some d.
Proof. intros H. destruct (digit_cases d) as (k & ? & ->); [lia|]. do 10 (destruct k as [|k]; [done|]). lia. Qed.

Lemma hex_digit_spec d : 0 <= d < 16 ->
  hexadecimal (hex_digit d) = Some d /\ isspace (hex_digit d) = false /\
  (code (hex_digit d) =? 45) = false /\ (code (hex_digit d) =? 43) = false /\
  (code (tolower (hex_digit d)) =? 120) = false /\ (code (hex_digit d) =? 0) = false.
Proof. intros (k & ? & ->)%digit_cases. digit k. Qed.

Lemma scan_digits_app digit base s t acc v :
  scan_digits digit base acc s = (v, EmptyString) ->
  scan_digits digit base acc (String.append s t) = scan_digits digit base v t.
Proof.
  revert acc. induction s as [|c s IH]; intros acc; simpl; [by intros [= ->]|].
  destruct (digit c); [apply IH|done].
Qed.

Lemma scan_decimal fuel n : 0 <= n < 10 ^ Z.of_nat fuel ->
  scan_digits decimal 10 0 (decimal_digits fuel n) = (n, EmptyString).
Proof.
  revert n. induction fuel as [|fuel IH]; intros n H; [simpl in *; f_equal; lia|].
  cbn [decimal_digits]. rewrite Nat2Z.inj_succ, Z.pow_succ_r in H by lia.
  pose proof (Z.mod_pos_bound n 10 ltac:(lia)). pose proof (Z.div_mod n 10 ltac:(lia)).
  rewrite (scan_digits_app _ _ _ _ _ (n / 10)).
  - cbn [scan_digits]. rewrite decimal_chr by done. f_equal. lia.
  - destruct (n <? 10) eqn:E; bprop; [rewrite Z.div_small by lia; done|].
    apply IH. lia.
Qed.

Lemma to_string_scan n : is_u64 n -> scan_digits decimal 10 0 (to_string n) = (n, EmptyString).
Proof. intros H. apply scan_decimal. unfold is_u64 in H. lia. Qed.

(** std::to_string is injective. *)
Lemma to_string_inj n m : is_u64 n -> is_u64 m -> to_string n = to_string m -> n = m.
Proof.
  intros Hn%to_string_scan Hm%to_string_scan E. rewrite E in Hn. congruence.
Qed.

Definition ends_hex (s : string) : bool := negb (starts_digit hexadecimal s).

Lemma scan_hex2 b s : is_u8 b -> ends_hex s = true ->
  scan_x (String.append (hex2 b) s) = Some (b, s).
Proof.
  intros Hb Hs. unfold is_u8 in Hb.
  pose proof (Z.mod_pos_bound b 16 ltac:(lia)). pose proof (Z.div_mod b 16 ltac:(lia)).
  destruct (hex_digit_spec (b / 16)) as (H1 & H2 & H3 & H4 & _); [lia|].
  destruct (hex_digit_spec (b mod 16)) as (H1' & _ & _ & _ & H5' & _); [lia|].
  unfold hex2, scan_x. rewrite !append_cons, append_nil. cbn [skip_space]. rewrite H2. cbn [sign]. rewrite H3, H4, H5', andb_false_r.
  cbn [starts_digit scan_digits]. rewrite H1, H1'.
  assert (scan_digits hexadecimal 16 ((0 * 16 + b / 16) * 16 + b mod 16) s = (b, s)) as ->.
  { replace ((0 * 16 + b / 16) * 16 + b mod 16) with b by lia.
    destruct s as [|c s]; [done|]. cbn [scan_digits]. unfold ends_hex in Hs. cbn in Hs.
    by destruct (hexadecimal c). }
  unfold to_ulong, ULONG_MAX. destruct (b >? _) eqn:E; [bprop; lia|].
  cbn. by rewrite u32_id by (unfold is_u32; lia).
Qed.

Lemma scan_mac_colons n l : List.length l = S n -> Forall is_u8 l -> scan_mac n (colons l) = Some l.
Proof.
  revert l. induction n as [|n IH]; intros [|b l] Hl Hf; try discriminate; inversion Hf; subst.
  - destruct l; [|discriminate]. simpl colons. unfold scan_mac.
    rewrite <- (append_nil_r (hex2 b)).
    by rewrite scan_hex2.
  - destruct l as [|b' l]; [discriminate|].
    change (colons (b :: b' :: l)) with (String.append (hex2 b) (String ":"%char (colons (b' :: l)))).
    cbn [scan_mac]. rewrite scan_hex2 by done. cbn -[scan_mac colons]. by rewrite IH by auto.
Qed.

Lemma c_str_colons l : Forall is_u8 l -> c_str (colons l) = colons l.
Proof.
  intros Hf. assert (Hh : forall b t, is_u8 b -> c_str t = t -> c_str (String.append (hex2 b) t) = String.append (hex2 b) t).
  { intros b t Hb Ht. unfold is_u8 in Hb.
    pose proof (Z.mod_pos_bound b 16 ltac:(lia)). pose proof (Z.div_mod b 16 ltac:(lia)).
    destruct (hex_digit_spec (b / 16)) as (_ & _ & _ & _ & _ & H1); [lia|].
    destruct (hex_digit_spec (b mod 16)) as (_ & _ & _ & _ & _ & H2); [lia|].
    unfold hex2. rewrite !append_cons, append_nil. cbn [c_str]. by rewrite H1, H2, Ht. }
  induction Hf as [|b l Hb Hf IH]; [done|]. destruct l as [|b' l].
  - simpl colons. rewrite <- (append_nil_r (hex2 b)). by apply Hh.
  - change (colons (b :: b' :: l)) with (String.append (hex2 b) (String ":"%char (colons (b' :: l)))).
    apply Hh; [done|]. cbn [c_str]. by rewrite IH.
Qed.

(** Addresses are read back as they were printed. *)
Lemma mac_roundtrip m : List.length m = 6%nat -> Forall is_u8 m -> parse_mac (mac_to_string m) = Some m.
Proof.
  intros Hl Hf. unfold parse_mac, mac_to_string. rewrite c_str_colons, scan_mac_colons by done.
  cbn. assert (forallb (fun v => v <=? 255) m = true) as ->; [|done].
  apply forallb_forall. intros x Hx%list_elem_of_In. rewrite Forall_forall in Hf.
  specialize (Hf x Hx). unfold is_u8 in Hf. apply Z.leb_le. lia.
Qed.

End Print.

(** *** A dotted-decimal printer *)

Module DottedPrint.
Import Text Print.

Definition dot (s t : string) : string := String.append s (String "."%char t).

Definition write (a : Z) : string :=
  dot (to_string (a mod 256)) (dot (to_string ((a / 256) mod 256))
    (dot (to_string ((a / 65536) mod 256)) (to_string ((a / 16777216) mod 256)))).

Fixpoint plain (s : string) : bool :=
  match s with
  | EmptyString => true
  | String c s => isdigit c && plain s
  end.

Lemma cut_plain s t : plain s = true -> cut "."%char (dot s t) = Some (s, t).
Proof.
  unfold dot. induction s as [|c s IH]; [done|]. intros [Hc Hs]%andb_true_iff.
  rewrite append_cons. cbn [cut]. destruct (Ascii.eqb_spec c "."%char) as [->|]; [done|].
  by rewrite IH.
Qed.

Lemma c_str_plain s t : plain s = true -> c_str t = t -> c_str (String.append s t) = String.append s t.
Proof.
  intros Hs Ht. induction s as [|c s IH]; [done|]. apply andb_true_iff in Hs as [Hc Hs].
  rewrite append_cons. cbn [c_str]. rewrite IH by done.
  unfold isdigit in Hc. bprop. destruct (code c =? 0) eqn:E; [bprop; lia|done].
Qed.

Lemma octets : forallb (fun n => plain (to_string (Z.of_nat n)) &&
    bool_decide (Dotted.octet (to_string (Z.of_nat n)) = Some (Z.of_nat n))) (seq 0 256) = true.
Proof. vm_compute. done. Qed.

Lemma octet_ok n : is_u8 n -> plain (to_string n) = true /\ Dotted.octet (to_string n) = Some n.
Proof.
  intros H. unfold is_u8 in H. pose proof octets as Ho. rewrite forallb_forall in Ho.
  specialize (Ho (Z.to_nat n)). rewrite Z2Nat.id in Ho by lia.
  apply andb_true_iff in Ho as [H1 H2%bool_decide_eq_true]; [done|].
  apply in_seq. lia.
Qed.

End DottedPrint.

#[export] Instance dotted_print : InetPrint := { inet_ntop := DottedPrint.write }.

#[export] Instance dotted_print_laws : InetPrintLaws dotted_inet dotted_print.
Proof.
  assert (Ho : forall x, DottedPrint.plain (Print.to_string (x mod 256)) = true /\ Dotted.octet (Print.to_string (x mod 256)) = Some (x mod 256)).
  { intros x. apply DottedPrint.octet_ok. apply Z.mod_pos_bound. lia. }
  split; intros a Ha; cbn [inet_pton inet_ntop dotted_inet dotted_print]; unfold DottedPrint.write.
  - unfold Dotted.read.
    rewrite DottedPrint.cut_plain by apply Ho. cbn -[Text.cut Dotted.octet Print.to_string u32 Z.modulo Z.div Z.mul Z.add].
    rewrite DottedPrint.cut_plain by apply Ho. cbn -[Text.cut Dotted.octet Print.to_string u32 Z.modulo Z.div Z.mul Z.add].
    rewrite DottedPrint.cut_plain by apply Ho. cbn -[Text.cut Dotted.octet Print.to_string u32 Z.modulo Z.div Z.mul Z.add].
    rewrite !(proj2 (Ho _)). cbn -[Text.cut Dotted.octet Print.to_string u32 Z.modulo Z.div Z.mul Z.add]. f_equal. unfold is_u32 in Ha.
    rewrite u32_id; [|unfold is_u32]; Z.to_euclidean_division_equations; lia.
  - unfold DottedPrint.dot.
    assert (Hd : forall t, Text.c_str t = t -> Text.c_str (String "."%char t) = String "."%char t).
    { intros t Ht. cbn [Text.c_str]. by rewrite Ht. }
    repeat (apply DottedPrint.c_str_plain; [apply Ho|]; apply Hd).
    rewrite <- (Print.append_nil_r (Print.to_string _)). apply DottedPrint.c_str_plain; [apply Ho|done].
Qed.
