(* ===== verification/ConfigText.v ===== *)
(** Reading the configuration file: Config::load, parse_file, get*, build,
    parse_rs, parse_services and parse_legacy_services of src/common/config.cpp.

    The file is its text.  A std::map is an association list sorted by key, so
    that loops over it run in the map's order.  Failure is [None]; the log
    messages that go with it are left out. *)
From S2P Require Import Prelude Types TcpState Mem Text Print Dpdk Scheduler Config.
From Stdlib Require Import String Ascii.
Import Tcp Scheduler Config Text Print.

Module ConfigText.
Local Open Scope string_scope.
Local Open Scope Z_scope.

(** ** std::map *)

Section Map.
Context {K V : Type} (cmp : K -> K -> comparison).

Fixpoint map_set (k : K) (v : V) (m : list (K * V)) : list (K * V) :=
  match m with
  | [] => [(k, v)]
  | (k', v') :: m' =>
    match cmp k k' with
    | Lt => (k, v) :: m
    | Eq => (k, v) :: m'
    | Gt => (k', v') :: map_set k v m'
    end
  end.

Fixpoint map_find (k : K) (m : list (K * V)) : option V :=
  match m with
  | [] => None
  | (k', v) :: m => match cmp k k' with Eq => Some v | _ => map_find k m end
  end.
End Map.

Definition Section_ : Type := list (string * string).
Definition Sections : Type := list (string * Section_).

Definition sec_find (name : string) (m : Sections) : option Section_ := map_find String.compare name m.

(** ** The rest of struct LbConfig *)

Inductive DataplaneMode := RTC | PIPELINE.

Record Options := mkOptions {
  o_log_level : string;
  o_log_dir : string;
  o_log_max_size_mb : Z;
  o_log_max_files : Z;
  o_log_stderr : bool;
  o_stats_interval : Z;
  o_force_sw_steering : bool;
  o_dataplane : DataplaneMode;
  o_vip_mac : MacAddr;
  o_control_socket : string
}.

(** ** parse_file *)

(** One line, in the current section. *)
Definition parse_line (st : Sections * string) (line : string) : option (Sections * string) :=
  let '(sections, current) := st in
  match trim line with
  | EmptyString => Some st
  | String c rest as line =>
    if (c =? "#")%char || (c =? ";")%char then Some st
    else if (c =? "[")%char then
      '(name, _) ← cut "]"%char rest;
      let name := to_lower (trim name) in
      Some (match sec_find name sections with
            | Some _ => sections
            | None => map_set String.compare name [] sections
            end, name)
    else
      '(key, value) ← cut "="%char line;
      if empty current then None
      else
        let key := to_lower (trim key) in
        let value := match cut "#"%char value with Some (v, _) => v | None => value end in
        let sec := default [] (sec_find current sections) in
        Some (map_set String.compare current (map_set String.compare key (trim value) sec) sections, current)
  end.

Definition parse_file (text : string) : option Sections :=
  fst <$> foldl (fun acc line => st ← acc; parse_line st line) (Some ([], EmptyString))
            (getlines (chr 10) EmptyString text).

(** ** Typed access *)

Definition get (m : Sections) (section key default_val : string) : string :=
  match sec_find section m with
  | None => default_val
  | Some s => default default_val (map_find String.compare key s)
  end.

(** The new value of [out]. *)
Definition get_u32 (m : Sections) (section key : string) (out min_val max_val : Z) : option Z :=
  let v := get m section key EmptyString in
  if empty v then Some out
  else
    let '(n, erange, end_) := strtoul (c_str v) in
    if erange || (end_ =? c_str v)%string || negb (empty end_) || (n <? min_val) || (n >? max_val) then None
    else Some (u32 n).

Definition get_bool (m : Sections) (section key : string) (out : bool) : option bool :=
  let v := to_lower (get m section key EmptyString) in
  if empty v then Some out
  else if existsb (String.eqb v) ["true"; "yes"; "1"; "on"] then Some true
  else if existsb (String.eqb v) ["false"; "no"; "0"; "off"] then Some false
  else None.

Section Load.
Context {I : Inet}.

Definition get_ip (m : Sections) (section key : string) (out : IPv4Addr) : option IPv4Addr :=
  let v := get m section key EmptyString in
  if empty v then Some out else parse_ipv4 v.

(** ** Services *)

(** A port or weight: the whole string must be a number. *)
Definition whole_number (s : string) : option Z :=
  let '(n, _, end_) := strtoul (c_str s) in if empty end_ then Some n else None.

Definition parse_rs (value : string) : option RsConf :=
  let parts := split value ":"%char in
  match parts with
  | p0 :: p1 :: more =>
    if negb (existsb (Nat.eqb (List.length parts)) [2; 3; 9])%nat then None
    else
      ip ← parse_ipv4 p0;
      port ← whole_number p1;
      if (port =? 0) || (port >? 65535) then None
      else
        weight ← (match more with
                  | [] => Some 1
                  | w :: _ => w ← whole_number w; if w >? 65535 then None else Some w
                  end);
        mac ← (match more with
               | _ :: o :: octets => parse_mac (String.concat ":" (o :: octets))
               | _ => Some mac_zero
               end);
        Some (mkRsConf ip port weight mac)
  | _ => None
  end.

Fixpoint parse_rs_list (l : list string) : option (list RsConf) :=
  match l with
  | [] => Some []
  | v :: l => r ← parse_rs v; rs ← parse_rs_list l; Some (r :: rs)
  end.

(** serverN and rsN keys, by N. *)
Definition add_server (servers : list (Z * string)) (kv : string * string) : list (Z * string) :=
  foldl (fun servers prefix =>
    let rest := substring (String.length prefix) (String.length kv.1) kv.1 in
    if String.prefix prefix kv.1 && starts_digit decimal rest
    then map_set Z.compare ((strtoul (c_str rest)).1.1) kv.2 servers
    else servers) servers ["server"; "rs"].

Definition parse_service (m : Sections) (name : string) (sec : Section_) : option ServiceConf :=
  vip ← parse_ipv4 (get m name "vip" EmptyString);
  port ← get_u32 m name "port" 0 1 65535;
  if port =? 0 then None
  else
    let proto := to_lower (get m name "proto" "tcp") in
    proto ← (if (proto =? "tcp")%string then Some 6 else if (proto =? "udp")%string then Some 17 else None);
    let sched := to_lower (get m name "scheduler" "wrr") in
    sched ← (if (sched =? "wrr")%string || (sched =? "rr")%string then Some WRR
             else if (sched =? "maglev")%string || (sched =? "consistent_hash")%string then Some MAGLEV
             else None);
    rs ← parse_rs_list (snd <$> foldl add_server [] sec);
    Some (mkServiceConf (substring 8 (String.length name) name) vip port proto sched rs).

Definition is_service (name : string) : bool := String.prefix "service." name.

Fixpoint parse_services (m secs : Sections) : option (list ServiceConf) :=
  match secs with
  | [] => Some []
  | (name, sec) :: secs =>
    if is_service name then
      svc ← parse_service m name sec; l ← parse_services m secs; Some (svc :: l)
    else parse_services m secs
  end.

Definition legacy_rs (m : Sections) (count : Z) : list string :=
  filter (fun v => empty v = false)
    ((fun i => get m "realserver" (String.append "server" (to_string i)) EmptyString) <$> seqZ 1 count).

Definition legacy_port (vip : IPv4Addr) (rs : list RsConf) (p : string) : option (list ServiceConf) :=
  port ← whole_number p;
  if (port =? 0) || (port >? 65535) then None
  else Some [mkServiceConf (String.append "tcp-" p) vip port 6 WRR rs;
             mkServiceConf (String.append "udp-" p) vip port 17 WRR rs].

Fixpoint legacy_ports (vip : IPv4Addr) (rs : list RsConf) (l : list string) : option (list ServiceConf) :=
  match l with
  | [] => Some []
  | p :: l => a ← legacy_port vip rs p; b ← legacy_ports vip rs l; Some (a ++ b)%list
  end.

Definition parse_legacy_services (m : Sections) : option (list ServiceConf) :=
  vip ← parse_ipv4 (get m "vip" "ip" EmptyString);
  count ← get_u32 m "realserver" "count" 0 0 kMaxRsPerService;
  rs ← parse_rs_list (legacy_rs m count);
  legacy_ports vip rs (split (get m "vip" "ports" "80") ","%char).

(** ** build *)

Definition parse_mode (m : Sections) : option ForwardMode :=
  let mode := to_lower (get m "global" "mode" "nat") in
  if (mode =? "nat")%string || (mode =? "fullnat")%string then Some NAT
  else if (mode =? "dr")%string then Some DR else None.

Definition parse_timeouts (m : Sections) : option TimeoutConf :=
  let t := TimeoutConf_default in
  legacy ← get_u32 m "global" "session_timeout" 0 1 86400;
  let est := if legacy =? 0 then tcp_established t else legacy in
  let udp_ := if legacy =? 0 then udp t else legacy in
  syn ← get_u32 m "global" "tcp_syn_timeout" (tcp_syn t) 1 86400;
  est ← get_u32 m "global" "tcp_established_timeout" est 1 86400;
  fin ← get_u32 m "global" "tcp_fin_timeout" (tcp_fin t) 1 86400;
  tw ← get_u32 m "global" "tcp_timewait_timeout" (tcp_timewait t) 1 86400;
  close ← get_u32 m "global" "tcp_close_timeout" (tcp_close t) 1 86400;
  udp_ ← get_u32 m "global" "udp_timeout" udp_ 1 86400;
  Some (mkTimeoutConf (Z.min syn est) est (Z.min fin est) (Z.min tw est) (Z.min close est) udp_).

Fixpoint parse_ips (l : list string) : option (list IPv4Addr) :=
  match l with
  | [] => Some []
  | s :: l => ip ← parse_ipv4 s; ips ← parse_ips l; Some (ip :: ips)
  end.

Definition parse_health (m : Sections) : option HealthConf :=
  enabled ← get_bool m "healthcheck" "enabled" false;
  interval ← get_u32 m "healthcheck" "interval" 5000 1 3600;
  timeout ← get_u32 m "healthcheck" "timeout" 3000 10 60000;
  fall ← get_u32 m "healthcheck" "failure_threshold" 3 1 100;
  rise ← get_u32 m "healthcheck" "success_threshold" 2 1 100;
  let interval := if empty (get m "healthcheck" "interval" EmptyString) then interval else u32 (interval * 1000) in
  Some (mkHealthConf enabled interval timeout fall rise).

Definition build (m : Sections) : option (LbConfig * Options) :=
  mode ← parse_mode m;
  let log_level := to_lower (get m "global" "log_level" "info") in
  let log_dir := get m "global" "log_dir" EmptyString in
  let steering := to_lower (get m "global" "steering" "auto") in
  if negb (steering =? "auto")%string && negb (steering =? "sw")%string then None
  else
    let dp := to_lower (get m "global" "dataplane" "rtc") in
    dataplane ← (if (dp =? "rtc")%string then Some RTC else if (dp =? "pipeline")%string then Some PIPELINE else None);
    max_sessions ← get_u32 m "global" "max_sessions" 1048576 1024 67108864;
    toa ← get_bool m "global" "toa" false;
    strip ← get_bool m "global" "strip_tcp_timestamp" true;
    size ← get_u32 m "global" "log_max_size_mb" 100 1 10240;
    files ← get_u32 m "global" "log_max_files" 5 1 100;
    stderr ← get_bool m "global" "log_stderr" true;
    interval ← get_u32 m "global" "stats_interval" 10 1 3600;
    timeouts ← parse_timeouts m;
    let mac := get m "network" "vip_mac" (get m "vip" "mac" EmptyString) in
    vip_mac ← (if empty mac then Some mac_zero else parse_mac mac);
    netmask ← get_ip m "network" "netmask" 0;
    gateway ← get_ip m "network" "gateway" 0;
    hc_src ← get_ip m "network" "hc_src" 0;
    local_ips ← parse_ips (split (get m "network" "local_ips" EmptyString) ","%char);
    health ← parse_health m;
    services ← (if existsb (fun s => is_service s.1) m then parse_services m m else parse_legacy_services m);
    Some (mkLbConfig mode max_sessions timeouts toa strip netmask gateway local_ips hc_src health services,
          mkOptions log_level log_dir size files stderr interval (steering =? "sw")%string dataplane vip_mac
            (get m "control" "socket" "/run/l4lb.sock")).

(** Config::load on the text of the file. *)
Definition load (text : string) : option (LbConfig * Options) :=
  m ← parse_file text;
  '(c, o) ← build m;
  c ← validate c;
  Some (c, o).

End Load.
End ConfigText.
