(* ===== verification/ConfigProps.v ===== *)
(** From the text of a configuration file to the first snapshot: a file that
    loads gives values in their documented ranges, and the load balancer starts
    from them. *)
From S2P Require Import Prelude Types TcpState Mem Text Dpdk Session Scheduler Config ConfigText Snapshot SnapshotThms ManagerThms ManagerProps Neigh NeighProps Context Processor ProcessorInv ProcessorThms ProcessorStart.
From Stdlib Require Import String Ascii.
Import Tcp Scheduler Config Text ConfigText Snapshot SnapshotThms ManagerThms ManagerProps Context Processor ProcessorInv ProcessorStart.

Module ConfigProps.

(** ** Ranges *)

Definition rs_in_range (r : RsConf) : Prop :=
  is_u32 (rc_ip r) /\ 1 <= rc_port r <= 65535 /\ 0 <= rc_weight r <= 65535 /\ NeighProps.mac_wf (rc_mac r).

Definition svc_in_range (s : ServiceConf) : Prop :=
  is_u32 (sc_vip s) /\ 1 <= sc_port s <= 65535 /\ (sc_proto s = 6 \/ sc_proto s = 17) /\ Forall rs_in_range (sc_rs s).

(** The handshake and closing timeouts never exceed that of an open connection. *)
Record timeouts_in_range (t : TimeoutConf) : Prop := {
  ti_est : 1 <= tcp_established t <= 86400;
  ti_udp : 1 <= udp t <= 86400;
  ti_syn : 1 <= tcp_syn t <= tcp_established t;
  ti_fin : 1 <= tcp_fin t <= tcp_established t;
  ti_tw : 1 <= tcp_timewait t <= tcp_established t;
  ti_close : 1 <= tcp_close t <= tcp_established t
}.

Record health_in_range (h : HealthConf) : Prop := {
  he_interval : 1000 <= hc_interval_ms h <= 3600000;
  he_timeout : 10 <= hc_timeout_ms h <= 60000;
  he_fall : 1 <= hc_fall h <= 100;
  he_rise : 1 <= hc_rise h <= 100
}.

Record in_range (c : LbConfig) : Prop := {
  ir_sessions : 1024 <= c_max_sessions c <= 67108864;
  ir_timeouts : timeouts_in_range (c_timeouts c);
  ir_health : health_in_range (c_health c);
  ir_services : Forall svc_in_range (c_services c);
  ir_lips : Forall is_u32 (c_local_ips c);
  ir_netmask : is_u32 (c_netmask c);
  ir_gateway : is_u32 (c_gateway c);
  ir_hc_src : is_u32 (c_hc_src c)
}.

(** Log files and reports, and the address the load balancer answers with. *)
Record options_in_range (o : Options) : Prop := {
  op_size : 1 <= o_log_max_size_mb o <= 10240;
  op_files : 1 <= o_log_max_files o <= 100;
  op_interval : 1 <= o_stats_interval o <= 3600;
  op_mac : NeighProps.mac_wf (o_vip_mac o)
}.

Lemma get_u32_range m s k out lo hi v :
  get_u32 m s k out lo hi = Some v -> 0 <= lo -> hi < 4294967296 ->
  (get m s k EmptyString = EmptyString /\ v = out) \/ (empty (get m s k EmptyString) = false /\ lo <= v <= hi).
Proof.
  unfold get_u32. intros H Hl Hh. destruct (empty (get m s k EmptyString)) eqn:E.
  - left. injection H as <-. by destruct (get m s k EmptyString).
  - right. destruct (strtoul (c_str (get m s k EmptyString))) as [[n e] r] eqn:En. apply strtoul_u64 in En.
    destruct (_ || (n >? hi)) eqn:B; [done|]. injection H as <-.
    rewrite !orb_false_iff, Z.ltb_ge in B. destruct B as [[_ B1] B2]. rewrite Z.gtb_ltb, Z.ltb_ge in B2.
    split; [done|]. rewrite u32_id; [done|zwrap; lia].
Qed.

Lemma get_u32_bounds m s k out lo hi v :
  get_u32 m s k out lo hi = Some v -> 0 <= lo -> hi < 4294967296 -> lo <= out <= hi -> lo <= v <= hi.
Proof. intros H Hl Hh Ho. destruct (get_u32_range _ _ _ _ _ _ _ H Hl Hh) as [[_ ->]|[_ ?]]; done. Qed.

Lemma whole_number_nonneg s n : whole_number s = Some n -> 0 <= n.
Proof.
  unfold whole_number. destruct (strtoul (c_str s)) as [[v e] r] eqn:E. apply strtoul_u64 in E.
  destruct (empty r); [|done]. intros [= <-]. apply E.
Qed.

Section Text.
Context {I : Inet} {IL : InetLaws I}.

Lemma parse_rs_ok v r : parse_rs v = Some r -> rs_in_range r.
Proof.
  unfold parse_rs. destruct (split v ":") as [|p0 [|p1 more]]; try done. destruct (negb _); [done|].
  intros (ip & Hip & (port & Hport & H)%bind_Some)%bind_Some. apply inet_u32 in Hip. apply whole_number_nonneg in Hport.
  destruct (Z.eqb_spec port 0); [done|]. destruct (Z.gtb_spec port 65535); [done|]. cbn [orb] in H.
  apply bind_Some in H as (w & Hw & (mac & Hmac & [= <-])%bind_Some).
  assert (0 <= w <= 65535).
  { destruct more as [|x more]; [injection Hw as <-; lia|]. apply bind_Some in Hw as (n' & Hn & Hw).
    apply whole_number_nonneg in Hn. destruct (Z.gtb_spec n' 65535); [done|]. injection Hw as <-. lia. }
  split; [done|]. split; [cbn; lia|]. split; [done|]. cbn.
  destruct more as [|x [|o more]]; [injection Hmac as <-; apply ProcessorThms.mac_zero_wf..|by eapply parse_mac_wf].
Qed.

Lemma parse_rs_list_ok l rs : parse_rs_list l = Some rs -> Forall rs_in_range rs.
Proof.
  revert rs. induction l as [|v l IH]; intros rs; cbn [parse_rs_list]; [by intros [= <-]|].
  intros (r & Hr & (rs' & Hrs & [= <-])%bind_Some)%bind_Some. constructor; [by eapply parse_rs_ok|by apply IH].
Qed.

Lemma parse_service_ok m name sec s : parse_service m name sec = Some s -> svc_in_range s.
Proof.
  unfold parse_service. intros (vip & Hv & (port & Hp & H)%bind_Some)%bind_Some. apply inet_u32 in Hv.
  apply get_u32_range in Hp; [|lia|lia]. destruct (Z.eqb_spec port 0) as [|Hn]; [done|].
  apply bind_Some in H as (proto & Hpr & (sched & _ & (rs & Hrs & [= <-])%bind_Some)%bind_Some).
  split; [done|]. split; [cbn; destruct Hp as [[_ ->]|[_ ?]]; [done|lia]|]. split; [|by eapply parse_rs_list_ok]. cbn.
  destruct (_ =? "tcp")%string; [injection Hpr as <-; by left|]. destruct (_ =? "udp")%string; [injection Hpr as <-; by right|done].
Qed.

Lemma parse_services_ok m secs l : parse_services m secs = Some l -> Forall svc_in_range l.
Proof.
  revert l. induction secs as [|[name sec] secs IH]; intros l; cbn [parse_services]; [by intros [= <-]|].
  destruct (is_service name); [|by apply IH].
  intros (s & Hs & (l' & Hl & [= <-])%bind_Some)%bind_Some. constructor; [by eapply parse_service_ok|by apply IH].
Qed.

Lemma legacy_ports_ok vip rs l svcs :
  legacy_ports vip rs l = Some svcs -> is_u32 vip -> Forall rs_in_range rs -> Forall svc_in_range svcs.
Proof.
  intros H Hv Hr. revert svcs H. induction l as [|p l IH]; intros svcs; cbn [legacy_ports]; [by intros [= <-]|].
  intros (a & Ha & (b & Hb & [= <-])%bind_Some)%bind_Some. apply Forall_app. split; [|by apply IH].
  unfold legacy_port in Ha. apply bind_Some in Ha as (port & Hp & Ha). apply whole_number_nonneg in Hp.
  destruct (Z.eqb_spec port 0); [done|]. destruct (Z.gtb_spec port 65535); [done|]. injection Ha as <-.
  repeat (apply Forall_cons_2; [split; [done|]; split; [cbn; lia|]; split; [cbn; auto|done]|]). constructor.
Qed.

Lemma parse_legacy_ok m svcs : parse_legacy_services m = Some svcs -> Forall svc_in_range svcs.
Proof.
  unfold parse_legacy_services. intros (vip & Hv & (count & _ & (rs & Hr & H)%bind_Some)%bind_Some)%bind_Some.
  apply inet_u32 in Hv. apply parse_rs_list_ok in Hr. by eapply legacy_ports_ok.
Qed.

Lemma parse_timeouts_ok m t : parse_timeouts m = Some t -> timeouts_in_range t.
Proof.
  unfold parse_timeouts. cbn [TimeoutConf_default tcp_syn tcp_established tcp_fin tcp_timewait tcp_close udp].
  intros (leg & H0 & (syn & H1 & (est & H2 & (fin & H3 & (tw & H4 & (cl & H5 & (ud & H6 & [= <-])%bind_Some)%bind_Some)%bind_Some)%bind_Some)%bind_Some)%bind_Some)%bind_Some.
  apply get_u32_range in H0; [|lia|lia].
  assert (L : 1 <= (if leg =? 0 then 900 else leg) <= 86400 /\ 1 <= (if leg =? 0 then 60 else leg) <= 86400).
  { destruct (Z.eqb_spec leg 0); [lia|]. destruct H0 as [[_ ->]|[_ ?]]; [done|lia]. }
  apply get_u32_bounds in H1, H3, H4, H5; try lia. apply get_u32_bounds in H2, H6; try lia.
  split; cbn; lia.
Qed.

Lemma parse_health_ok m h : parse_health m = Some h -> health_in_range h.
Proof.
  unfold parse_health. intros (en & _ & (iv & H1 & (tm & H2 & (fl & H3 & (ri & H4 & [= <-])%bind_Some)%bind_Some)%bind_Some)%bind_Some)%bind_Some.
  apply get_u32_range in H1; [|lia|lia]. apply get_u32_bounds in H2, H3, H4; try lia.
  split; cbn; [|lia..]. destruct H1 as [[-> ->]|[-> H1]]; [cbn; lia|].
  rewrite u32_id by (zwrap; lia). lia.
Qed.

Lemma parse_ips_ok l ips : parse_ips l = Some ips -> Forall is_u32 ips.
Proof.
  revert ips. induction l as [|s l IH]; intros ips; cbn [parse_ips]; [by intros [= <-]|].
  intros (ip & Hip & (ips' & Hl & [= <-])%bind_Some)%bind_Some. constructor; [by eapply inet_u32|by apply IH].
Qed.

Lemma get_ip_u32 m s k out ip : get_ip m s k out = Some ip -> is_u32 out -> is_u32 ip.
Proof. unfold get_ip. destruct (empty _); [by intros [= <-]|]. by intros ?%inet_u32. Qed.

Lemma build_in_range m c o : build m = Some (c, o) -> in_range c /\ options_in_range o.
Proof.
  unfold build. intros (mode & _ & H)%bind_Some. destruct (_ && _); [done|].
  apply bind_Some in H as (dpm & _ & (ms & Hms & (toa & _ & (st & _ & (sz & Hsz & (fl & Hfl & (se & _ & (iv & Hiv & H)%bind_Some)%bind_Some)%bind_Some)%bind_Some)%bind_Some)%bind_Some)%bind_Some).
  apply bind_Some in H as (t & Ht & (mac & Hmac & (nm & Hnm & (gw & Hgw & (hs & Hhs & (ips & Hips & (h & Hh & (svcs & Hs & [= <- <-])%bind_Some)%bind_Some)%bind_Some)%bind_Some)%bind_Some)%bind_Some)%bind_Some).
  assert (Z0 : is_u32 0) by (zwrap; lia). split; split; cbn.
  - apply get_u32_bounds in Hms; lia.
  - by eapply parse_timeouts_ok.
  - by eapply parse_health_ok.
  - destruct (existsb _ m); [by eapply parse_services_ok|by eapply parse_legacy_ok].
  - by eapply parse_ips_ok.
  - by eapply get_ip_u32.
  - by eapply get_ip_u32.
  - by eapply get_ip_u32.
  - apply get_u32_bounds in Hsz; lia.
  - apply get_u32_bounds in Hfl; lia.
  - apply get_u32_bounds in Hiv; lia.
  - destruct (empty _); [injection Hmac as <-; apply ProcessorThms.mac_zero_wf|by eapply parse_mac_wf].
Qed.

Lemma validate_in_range c c' : in_range c -> validate c = Some c' -> in_range c'.
Proof.
  intros [R1 R2 R3 R4 R5 R6 R7 R8]. unfold validate. destruct (decide (c_services c = [])); [done|]. destruct (_ >? kMaxServices); [done|].
  intros (vips & _ & H)%bind_Some. cbv zeta in H.
  set (c1 := match c_mode c with NAT => _ | DR => c end) in H.
  assert (I1 : in_range c1).
  { unfold c1. destruct (c_mode c); [|by split]. destruct (c_local_ips c) as [|ip0 l0] eqn:E0; [|split; try done; by rewrite E0].
    destruct (c_services c) as [|s l] eqn:E; [done|]. split; cbn; [done|done|done|by rewrite E| |done|done|done].
    apply Forall_singleton. by apply Forall_cons in R4 as [[R _] _]. }
  clearbody c1. destruct (_ >? kMaxLocalIps); [done|].
  set (c2 := match c_local_ips c1 with [] => c1 | ip :: _ => _ end) in H.
  assert (I2 : in_range c2).
  { unfold c2. destruct (c_local_ips c1) as [|ip l] eqn:E; [done|]. destruct (_ =? 0); [|done].
    destruct I1 as [? ? ? ? L1 ? ? ?]. rewrite E in L1. split; cbn; try done; [by rewrite E|]. by apply Forall_cons in L1 as [? _]. }
  clearbody c2. destruct (_ && _); [done|]. destruct (_ && _); [done|]. destruct (existsb _ _); [done|]. by injection H as <-.
Qed.

Lemma load_in_range text c o : load text = Some (c, o) -> config_ok c /\ in_range c /\ options_in_range o.
Proof.
  unfold load. intros (m & _ & ([c0 o0] & Hb & (c1 & Hv & [= <- <-])%bind_Some)%bind_Some)%bind_Some.
  apply build_in_range in Hb as [Hb Ho]. split; [by eapply validate_ok|]. split; [by eapply validate_in_range|done].
Qed.

Lemma in_range_typed c : in_range c -> config_typed c.
Proof.
  intros [_ _ _ R _ _ _ _]. eapply Forall_impl; [exact R|]. intros s (_ & Hp & _ & Hr). split; [zwrap; lia|].
  eapply Forall_impl; [exact Hr|]. intros r (_ & _ & Hw & _). zwrap. lia.
Qed.

Section Start.
Context `{HF : RteHashFns} (max_lcore : nat).

(** The desired state is what the configuration says. *)
Definition configured (c : LbConfig) (m : SnapshotManager) : Prop :=
  Forall2 (fun sc ds => ds_conf ds = ds_conf_sans_rs sc /\ d_conf <$> ds_rs ds = sc_rs sc) (c_services c) (services_ m)
  /\ mode_ m = c_mode c /\ hc_src_ m = c_hc_src c /\ local_ips_ m = match c_mode c with NAT => c_local_ips c | DR => [] end.

(** The real servers of the first state are those of the configuration. *)
Lemma init_confs c m :
  init max_lcore Manager0 c = Some m -> config_ok c -> in_range c ->
  Forall (fun d => rs_typed (d_conf d)) (all_rs (services_ m)) /\ Forall is_u32 (local_ips_ m) /\ configured c m.
Proof.
  intros Hi C R. pose proof R as [_ _ _ R4 R5 _ _ _].
  assert (B : len (conf_rs (c_services c)) <= 256 * len (c_services c)).
  { apply conf_rs_bound, Forall_forall. intros s Hs. apply C, Hs. }
  destruct C as [C1 _ _ _ _ _ _ _]. unfold kMaxServices in C1.
  pose proof (number_services_spec 1 (c_services c) ltac:(lia) ltac:(lia)) as N.
  unfold init in Hi. cbn [next_rs_id_ Manager0 services_ version_ cur_ app] in Hi.
  destruct (number_services 1 (c_services c)) as [svcs next]. destruct N as (_ & _ & F).
  unfold publish in Hi. apply bind_Some in Hi as (snap & _ & [= <-]). cbn [services_ local_ips_]. split; [|split; [|done]].
  - assert (Q : Forall (fun ds => Forall (fun d => rs_typed (d_conf d)) (ds_rs ds)) svcs).
    { eapply confs_built; [exact F| |exact R4]. intros sc ds _ E (_ & _ & _ & Hr). rewrite <- E in Hr.
      apply (Forall_fmap d_conf rs_in_range) in Hr. eapply Forall_impl; [exact Hr|]. intros d (H1 & H2 & _ & H4). split; [done|].
      split; [zwrap; lia|done]. }
    apply Forall_forall. intros d (ds & Hd & Hds)%list_elem_of_bind. rewrite Forall_forall in Q. specialize (Q _ Hds).
    rewrite Forall_forall in Q. by apply Q.
  - destruct (c_mode c); [done|constructor].
Qed.

End Start.
End Text.

(** C8. A configuration file that loads gives a first snapshot.  Whatever the text
    is, if it is accepted then every number and address of it, those of the log
    and the reports included, is in its documented range, the cross-checks of the
    validation hold, and the first snapshot is published and answers lookups (of
    addresses other than 0.0.0.0) exactly as the configuration says; with fewer
    than 16384 real servers it has everything the packet path relies on. *)
Theorem config_file_starts {I : Inet} {IL : InetLaws I} `{HF : RteHashFns} max_lcore text c o :
  load text = Some (c, o) ->
  config_ok c /\ in_range c /\ options_in_range o /\
  ∃ m snap, init max_lcore Manager0 c = Some m /\ mgr_ok m /\ configured c m
    /\ cur_ m = Some snap /\ reflects max_lcore m snap
    /\ (len (conf_rs (c_services c)) < kMaxRsCounters -> snap_ok max_lcore snap).
Proof.
  intros H. apply load_in_range in H as (C & R & O). split; [done|]. split; [done|]. split; [done|].
  destruct (init_ok max_lcore c C (in_range_typed c R)) as (m & snap & Hi & M & Hc & Rf & Hids & _).
  destruct (init_confs max_lcore c m Hi C R) as (T & L & K).
  exists m, snap. repeat (split; [done|]). intros Hn.
  eapply published_ok; [exact Rf|exact L| |exact T]. rewrite Hids. apply Forall_forall.
  intros id Hid%elem_of_seqZ. lia.
Qed.

(** ** Witness *)

Definition lines (l : list string) : string :=
  foldr (fun s t => String.append s (String (chr 10) t)) EmptyString l.

Definition demo_file : string := lines [
  "# demo"; "[global]"; "mode = NAT  # FULLNAT"; " toa = on"; "tcp_established_timeout = 8"; EmptyString; "[network]";
  "netmask = 255.255.255.0"; "local_ips = 10.0.0.200, 10.0.0.201"; "[healthcheck]"; "enabled = yes"; "interval = 2";
  "[service.web]"; "vip = 10.0.0.100"; "port=80"; "Server2 = 10.0.0.3:8080";
  "server1 = 10.0.0.2:8080:3:02:00:00:00:00:0a"]%string.

Lemma config_file_starts_witness :
  ∃ c o m snap, load (I := dotted_inet) demo_file = Some (c, o) /\ tcp_syn (c_timeouts c) = 8 /\
    hc_interval_ms (c_health c) = 2000 /\
    init (HF := mix_fns) 4 Manager0 c = Some m /\ cur_ m = Some snap /\ snap_ok (HF := mix_fns) 4 snap.
Proof.
  destruct (load (I := dotted_inet) demo_file) as [[c o]|] eqn:E; [|vm_compute in E; discriminate].
  destruct (config_file_starts (I := dotted_inet) (HF := mix_fns) 4 demo_file c o E)
    as (_ & _ & _ & m & snap & Hi & _ & _ & Hc & _ & Hs).
  vm_compute in E. injection E as <- <-. do 2 eexists. exists m, snap. split; [reflexivity|].
  split; [reflexivity|]. split; [reflexivity|]. split; [exact Hi|]. split; [exact Hc|]. apply Hs. reflexivity.
Defined.

End ConfigProps.
