(* ===== verification/Control.v ===== *)
(** The control thread: commands and health events of src/ctrl/control.cpp.

    A command is the line that was read, a reply a value; the socket and the
    text of replies are in ControlIo. *)
From S2P Require Import Prelude Types Mem Text Dpdk Scheduler Config Snapshot.
From Stdlib Require Import String Ascii.
Import Scheduler Config Text Snapshot.

Module Control.
Local Open Scope string_scope.
Local Open Scope Z_scope.

Inductive Report := RsStats | Stats (verbose : bool) | Counters | Rate | Services.

Inductive Reply :=
| Help
| Text_ (r : Report)
| BadSpec
| OkRs (id : Z)
| Ok
| ShuttingDown
| BadCommand
| Error_ (e : mgr_error).

(** The manager, g_running, and the level last given to the logger. *)
Record Ctl := mkCtl {
  ctl_mgr : SnapshotManager;
  ctl_running : bool;
  ctl_log : option string
}.

Definition eqs (a b : string) : bool := String.eqb a b.

Definition parse_u32 (s : string) : option Z :=
  if empty s then None
  else
    let '(v, _, end_) := strtoul (c_str s) in
    if negb (empty end_) || (v >? 4294967295) then None else Some (u32 v).

Section Control.
Context {I : Inet} `{HF : RteHashFns} (max_lcore : nat).

(** ip:port[:weight] *)
Definition parse_rs_spec (spec : string) : option RsConf :=
  match getlines ":"%char EmptyString spec with
  | p0 :: p1 :: more =>
    if (1 <? List.length more)%nat then None
    else
      ip ← parse_ipv4 p0;
      port ← parse_u32 p1;
      if (port =? 0) || (port >? 65535) then None
      else
        weight ← (match more with
                  | [] => Some 1
                  | w :: _ => w ← parse_u32 w; if w >? 65535 then None else Some w
                  end);
        Some (mkRsConf ip (u16 port) weight mac_zero)
  | _ => None
  end.

Definition set_mgr (m : SnapshotManager) (s : Ctl) : Ctl := mkCtl m (ctl_running s) (ctl_log s).

(** The end of [execute]: report the error, or publish. *)
Definition finish (s : Ctl) (r : mgr_error + SnapshotManager) (ok : Reply) : option (Reply * Ctl) :=
  match r with
  | inl e => Some (Error_ e, s)
  | inr m => m ← publish max_lcore m; Some (ok, set_mgr m s)
  end.

Definition bad (s : Ctl) : option (Reply * Ctl) := Some (BadCommand, s).

Definition execute (line : string) (s : Ctl) : option (Reply * Ctl) :=
  let a := words EmptyString line in
  let mgr := ctl_mgr s in
  match a with
  | [] => Some (Help, s)
  | cmd :: args =>
    if eqs cmd "help" then Some (Help, s)
    else if eqs cmd "stats" then
      Some (Text_ (match args with
                   | x :: _ => if eqs x "-r" then RsStats else Stats (eqs x "-v")
                   | [] => Stats false
                   end), s)
    else if eqs cmd "counters" then Some (Text_ Counters, s)
    else if eqs cmd "rate" then Some (Text_ Rate, s)
    else if eqs cmd "services" then Some (Text_ Services, s)
    else if eqs cmd "weight" then
      match args with
      | [x; y] => match parse_u32 x, parse_u32 y with
                  | Some id, Some w => finish s (set_weight mgr id w) Ok
                  | _, _ => bad s
                  end
      | _ => bad s
      end
    else if eqs cmd "enable" || eqs cmd "disable" then
      match args with
      | [x] => match parse_u32 x with
               | Some id => finish s (set_enabled mgr id (eqs cmd "enable")) Ok
               | None => bad s
               end
      | _ => bad s
      end
    else if eqs cmd "add" then
      match args with
      | [x; y] => match parse_u32 x with
                  | Some id =>
                    match parse_rs_spec y with
                    | None => Some (BadSpec, s)
                    | Some rs => match add_rs mgr (u16 id) rs with
                                 | inl e => finish s (inl e) Ok
                                 | inr (new_id, m) => finish s (inr m) (OkRs new_id)
                                 end
                    end
                  | None => bad s
                  end
      | _ => bad s
      end
    else if eqs cmd "del" then
      match args with
      | [x] => match parse_u32 x with
               | Some id => finish s (del_rs mgr id) Ok
               | None => bad s
               end
      | _ => bad s
      end
    else if eqs cmd "log" then
      match args with
      | [x] => Some (Ok, mkCtl mgr (ctl_running s) (Some x))
      | _ => bad s
      end
    else if eqs cmd "quit" then Some (ShuttingDown, mkCtl mgr false (ctl_log s))
    else bad s
  end.

(** The events taken from the health ring. *)
Definition drain_health (evs : list (Z * bool)) (s : Ctl) : option Ctl :=
  match evs with
  | [] => Some s
  | _ =>
    m ← publish max_lcore (foldl (fun m e => set_health m e.1 e.2) (ctl_mgr s) evs);
    Some (set_mgr m s)
  end.

(** The loop of [run]: in each round the health events found, and the first line
    of the client that connected, if one did. *)
Fixpoint run (rounds : list (list (Z * bool) * option string)) (s : Ctl) : option (list Reply * Ctl) :=
  match rounds with
  | [] => Some ([], s)
  | (evs, line) :: rounds =>
    s ← drain_health evs s;
    '(r, s) ← (match line with
               | None => Some ([], s)
               | Some text =>
                 '(r, s) ← execute (match cut (chr 10) text with Some (l, _) => l | None => text end) s;
                 Some ([r], s)
               end);
    '(rs, s) ← run rounds s;
    Some (app r rs, s)
  end.

End Control.
End Control.
