(* ===== verification/ControlProps.v ===== *)
(** The control plane and the packet path: whatever is typed at the control
    socket and whatever the health checks report, what is published serves the
    workers. *)
From S2P Require Import Prelude Types TcpState Mem Text Dpdk Session Scheduler Config Snapshot SnapshotThms ManagerThms ManagerProps Neigh NeighProps Context Processor ProcessorInv ProcessorThms ProcessorStart ConfigText ConfigProps Control.
From Stdlib Require Import String Ascii.
Import Scheduler Config Text Snapshot SnapshotThms ManagerThms ManagerProps Context Processor ProcessorInv ProcessorStart ConfigText ConfigProps Control.

Module ControlProps.

Section Props.
Context {I : Inet} {IL : InetLaws I} `{HF : RteHashFns} (max_lcore : nat).
Implicit Types m : SnapshotManager.
Implicit Types s : Ctl.

(** ** What the control thread keeps *)

(** The desired state, apart from what is published. *)
Record desired_ok m : Prop := {
  do_mgr : mgr_ok m;
  do_typed : Forall (fun d => rs_typed (d_conf d)) (all_rs (services_ m));
  do_lips : Forall is_u32 (local_ips_ m);
  do_next : next_rs_id_ m <= kMaxRsId
}.

(** And the published snapshot reflects it. *)
Definition served m : Prop := desired_ok m /\ ∃ snap, cur_ m = Some snap /\ reflects max_lcore m snap.

(** What never changes. *)
Definition same_net m m' : Prop := mode_ m' = mode_ m /\ local_ips_ m' = local_ips_ m.

Lemma served_snap_ok m : served m -> ∃ snap, cur_ m = Some snap /\ reflects max_lcore m snap /\ snap_ok max_lcore snap
  /\ Snapshot.mode snap = mode_ m /\ local_ips snap = local_ips_ m.
Proof.
  intros [[M T L N] (snap & Hc & R)]. exists snap. split; [done|]. split; [done|].
  split; [|split; [apply R|apply R]]. apply (published_ok max_lcore m); [done|done| |done].
  eapply Forall_impl; [apply M|]. intros id. cbn. unfold kMaxRsId in N. lia.
Qed.

Lemma publish_served m m' : desired_ok m -> publish max_lcore m = Some m' -> served m' /\ same_net m m' /\ services_ m' = services_ m.
Proof.
  intros [M T L N] Hp. destruct (publish_ok max_lcore m M) as (m1 & snap & Hp' & Hc & R & E1 & E2 & E3 & E4 & E5).
  rewrite Hp in Hp'. injection Hp' as <-. split; [|done]. split; [|by exists snap].
  split; rewrite ?E1, ?E2, ?E3; try done. destruct M. split; rewrite ?E1, ?E2, ?E3; auto.
Qed.

(** One operation of the manager. *)
Lemma exec_desired m op m' a :
  desired_ok m -> op_wf op -> exec max_lcore m op = Some (m', a) ->
  Forall (fun d => rs_typed (d_conf d)) (all_rs (services_ m')) -> next_rs_id_ m' <= kMaxRsId ->
  local_ips_ m' = local_ips_ m -> desired_ok m'.
Proof.
  intros [M T L N] W E T' N' L'. destruct (mgr_exec_ok max_lcore m op M W) as (m1 & b & E1 & M1 & _).
  rewrite E in E1. injection E1 as <- <-. split; [done|done|by rewrite L'|done].
Qed.

Lemma typed_update id f (l : list DesiredService) :
  (∀ d, rs_typed (d_conf d) -> rs_typed (d_conf (f d))) ->
  Forall (fun d => rs_typed (d_conf d)) (all_rs l) -> Forall (fun d => rs_typed (d_conf d)) (all_rs (update_rs id f l)).
Proof. intros Hf. by apply (update_rs_all id f (fun d => rs_typed (d_conf d))). Qed.

Lemma set_weight_desired m id w m' :
  desired_ok m -> is_u32 w -> set_weight m id w = inr m' -> desired_ok m' /\ same_net m m'.
Proof.
  intros D W E. assert (X := exec_desired m (OpWeight id w) m' [] D W). cbn [exec] in X. rewrite E in X. specialize (X eq_refl).
  unfold set_weight in E. destruct (find_rs id (services_ m)); [|done]. destruct (w >? 65535); [done|]. injection E as <-.
  split; [|done]. apply X; [|apply D|done]. apply typed_update; [done|apply D].
Qed.

Lemma set_enabled_desired m id b m' :
  desired_ok m -> set_enabled m id b = inr m' -> desired_ok m' /\ same_net m m'.
Proof.
  intros D E. assert (X := exec_desired m (OpEnabled id b) m' [] D Logic.I). cbn [exec] in X. rewrite E in X. specialize (X eq_refl).
  unfold set_enabled in E. destruct (find_rs id (services_ m)); [|done]. injection E as <-.
  split; [|done]. apply X; [|apply D|done]. apply typed_update; [done|apply D].
Qed.

Lemma set_health_desired m id b : desired_ok m -> desired_ok (set_health m id b) /\ same_net m (set_health m id b).
Proof.
  intros D. assert (X := exec_desired m (OpHealth id b) (set_health m id b) [] D Logic.I eq_refl). revert X.
  unfold set_health. destruct (find_rs id (services_ m)); [|done]. intros X.
  split; [|done]. apply X; [|apply D|done]. apply typed_update; [done|apply D].
Qed.

Lemma del_desired m id m' : desired_ok m -> del_rs m id = inr m' -> desired_ok m' /\ same_net m m'.
Proof.
  intros D E. assert (X := exec_desired m (OpDel id) m' [] D Logic.I). cbn [exec] in X. rewrite E in X. specialize (X eq_refl).
  unfold del_rs in E. destruct (erase_rs id (services_ m)) as [l|] eqn:El; [|done]. injection E as <-.
  split; [|done]. apply X; [|apply D|done]. cbn [services_ with_services_].
  apply erase_rs_shrunk, shrunk_facts in El as (_ & S & _). destruct D as [_ T _ _].
  rewrite Forall_forall in T |- *. intros d Hd. by eapply T, elem_of_sublist.
Qed.

(** ** The effect of the operations on the desired state *)

(** Real server [d] belongs to service [k]. *)
Definition holds (l : list DesiredService) (k : nat) (d : DesiredRs) : Prop :=
  ∃ ds, l !! k = Some ds /\ d ∈ ds_rs ds.

(** Real server [id] was there and became [f] of itself; nothing else changed. *)
Definition changed (id : Z) (f : DesiredRs -> DesiredRs) (l l' : list DesiredService) : Prop :=
  ds_conf <$> l' = ds_conf <$> l /\ (∃ k d, holds l k d /\ d_id d = id) /\
  ∀ k d', holds l' k d' <-> ∃ d, holds l k d /\ d' = (if d_id d =? id then f d else d).

(** Real server [id] was there and is gone; nothing else changed. *)
Definition removed (id : Z) (l l' : list DesiredService) : Prop :=
  ds_conf <$> l' = ds_conf <$> l /\ (∃ k d, holds l k d /\ d_id d = id) /\
  ∀ k d, holds l' k d <-> holds l k d /\ d_id d <> id.

(** Service [k] has a new real server [rc], enabled and healthy, under an id no
    server had; nothing else changed. *)
Definition added (id : Z) (k : nat) (rc : RsConf) (l l' : list DesiredService) : Prop :=
  ds_conf <$> l' = ds_conf <$> l /\ id ∉ ids l /\ (k < List.length l)%nat /\
  ∀ j d, holds l' j d <-> holds l j d \/ j = k /\ d = mkDesiredRs id rc true true.

(** The command [a] was carried out. *)
Inductive carried_out : list string -> Ctl -> Ctl -> Prop :=
| did_weight x y s s' id w : Control.parse_u32 x = Some id -> Control.parse_u32 y = Some w -> w <= 65535 ->
    changed id (set_conf_weight w) (services_ (ctl_mgr s)) (services_ (ctl_mgr s')) -> ctl_log s' = ctl_log s ->
    carried_out ["weight"; x; y]%string s s'
| did_enable cmd x s s' (b : bool) id : cmd = (if b then "enable" else "disable")%string -> Control.parse_u32 x = Some id ->
    changed id (fun d => mkDesiredRs (d_id d) (d_conf d) b (d_healthy d)) (services_ (ctl_mgr s)) (services_ (ctl_mgr s')) ->
    ctl_log s' = ctl_log s -> carried_out [cmd; x] s s'
| did_del x s s' id : Control.parse_u32 x = Some id ->
    removed id (services_ (ctl_mgr s)) (services_ (ctl_mgr s')) -> ctl_log s' = ctl_log s ->
    carried_out ["del"; x]%string s s'
| did_log x s : carried_out ["log"; x]%string s (mkCtl (ctl_mgr s) (ctl_running s) (Some x)).

Lemma holds_nil k d : ~ holds [] k d.
Proof. by intros (ds & H & _). Qed.

Lemma holds_cons ds l k d : holds (ds :: l) k d <-> match k with O => d ∈ ds_rs ds | S k => holds l k d end.
Proof.
  unfold holds. destruct k as [|k]; cbn; [|done]. split; [by intros (? & [= <-] & ?)|by exists ds].
Qed.

Lemma holds_ids l k d : holds l k d -> d_id d ∈ ids l.
Proof. intros (ds & Hk & Hd). apply list_elem_of_fmap_2, all_rs_elem. eauto. Qed.

Lemma find_in_none id l : find_in id l = None <-> id ∉ (d_id <$> l).
Proof.
  induction l as [|d l IH]; cbn [find_in]; [split; [intros _; apply not_elem_of_nil|done]|]. rewrite fmap_cons, not_elem_of_cons.
  destruct (Z.eqb_spec (d_id d) id); [split; [done|naive_solver]|]. rewrite IH. naive_solver.
Qed.

Lemma ids_cons ds l : ids (ds :: l) = (d_id <$> ds_rs ds) ++ ids l.
Proof. unfold ids, all_rs. by rewrite bind_cons, fmap_app. Qed.

Lemma update_in_elem id f l d' : NoDup (d_id <$> l) ->
  d' ∈ update_in id f l <-> ∃ d, d ∈ l /\ d' = (if d_id d =? id then f d else d).
Proof.
  induction l as [|r l IH]; cbn [update_in].
  { intros _. split; [by intros ?%elem_of_nil|]. by intros (d & ?%elem_of_nil & _). }
  rewrite fmap_cons. intros [Hr ND]%NoDup_cons. specialize (IH ND).
  destruct (Z.eqb_spec (d_id r) id) as [E|E]; rewrite elem_of_cons.
  - split.
    + intros [->|H]; [exists r; rewrite E, Z.eqb_refl; set_solver|]. exists d'. split; [set_solver|].
      destruct (Z.eqb_spec (d_id d') id) as [E'|]; [|done]. destruct Hr. rewrite E, <- E'. by apply list_elem_of_fmap_2.
    + intros (d & [->|Hd]%elem_of_cons & ->); [left; by rewrite E, Z.eqb_refl|]. right.
      destruct (Z.eqb_spec (d_id d) id) as [E'|]; [|done]. destruct Hr. rewrite E, <- E'. by apply list_elem_of_fmap_2.
  - rewrite IH. split.
    + intros [->|(d & Hd & ->)]; [|exists d; set_solver]. exists r. split; [set_solver|].
      by rewrite (proj2 (Z.eqb_neq _ _)).
    + intros (d & [->|Hd]%elem_of_cons & ->); [left; by rewrite (proj2 (Z.eqb_neq _ _))|]. right. eauto.
Qed.

Lemma erase_in_elem id l d : NoDup (d_id <$> l) -> d ∈ erase_in id l <-> d ∈ l /\ d_id d <> id.
Proof.
  induction l as [|r l IH]; cbn [erase_in].
  { intros _. split; [by intros ?%elem_of_nil|]. by intros [?%elem_of_nil _]. }
  rewrite fmap_cons. intros [Hr ND]%NoDup_cons. specialize (IH ND).
  destruct (Z.eqb_spec (d_id r) id) as [E|E]; rewrite !elem_of_cons.
  - split.
    + intros H. split; [by right|]. intros E'. destruct Hr. rewrite E, <- E'. by apply list_elem_of_fmap_2.
    + intros [[->|H] Hn]; done.
  - rewrite IH. naive_solver.
Qed.

Lemma find_rs_holds id l : is_Some (find_rs id l) -> ∃ k d, holds l k d /\ d_id d = id.
Proof.
  induction l as [|ds l IH]; cbn [find_rs]; [by intros [? ?]|]. destruct (find_in id (ds_rs ds)) as [r|] eqn:E.
  - intros _. destruct (decide (id ∈ (d_id <$> ds_rs ds))) as [H|H]; [|apply find_in_none in H; congruence].
    apply list_elem_of_fmap in H as (d & -> & Hd). exists 0%nat, d. by rewrite holds_cons.
  - intros (k & d & H & Hd)%IH. exists (S k), d. by rewrite holds_cons.
Qed.

Lemma no_id_untouched id f l k d' : id ∉ ids l ->
  holds l k d' <-> ∃ d, holds l k d /\ d' = (if d_id d =? id then f d else d).
Proof.
  intros H. assert (N : forall d, holds l k d -> (d_id d =? id) = false).
  { intros d Hd. apply Z.eqb_neq. intros <-. by apply H, (holds_ids l k). }
  split; [intros Hd; exists d'; split; [done|]; by rewrite N|]. intros (d & Hd & ->). by rewrite N.
Qed.

Lemma update_rs_holds id f l k d' : NoDup (ids l) ->
  holds (update_rs id f l) k d' <-> ∃ d, holds l k d /\ d' = (if d_id d =? id then f d else d).
Proof.
  revert k. induction l as [|ds l IH]; intros k; cbn [update_rs].
  { intros _. split; [by intros ?%holds_nil|]. by intros (d & ?%holds_nil & _). }
  rewrite ids_cons, NoDup_app. intros (N1 & N2 & N3).
  destruct (find_in id (ds_rs ds)) as [r|] eqn:E.
  - assert (Hi : id ∉ ids l).
    { apply N2. destruct (decide (id ∈ (d_id <$> ds_rs ds))) as [H|H]; [done|apply find_in_none in H; congruence]. }
    rewrite holds_cons. setoid_rewrite holds_cons. destruct k as [|k]; [by apply update_in_elem|by apply no_id_untouched].
  - rewrite holds_cons. setoid_rewrite holds_cons. destruct k as [|k]; [|by apply IH].
    apply find_in_none in E. transitivity (d' ∈ update_in id f (ds_rs ds)); [|by apply update_in_elem].
    rewrite update_in_elem by done. split.
    + intros H. exists d'. split; [done|]. rewrite (proj2 (Z.eqb_neq _ _)); [done|]. intros <-. by apply E, list_elem_of_fmap_2.
    + intros (d & Hd & ->). rewrite (proj2 (Z.eqb_neq _ _)); [done|]. intros <-. by apply E, list_elem_of_fmap_2.
Qed.

Lemma update_changed id f l : (∀ d, d_id (f d) = d_id d) -> NoDup (ids l) -> is_Some (find_rs id l) ->
  changed id f l (update_rs id f l).
Proof.
  intros Hf N F. split; [by apply same_ids_facts, update_rs_ids|]. split; [by apply find_rs_holds|].
  intros k d'. by apply update_rs_holds.
Qed.

Lemma erase_removed id l l' : NoDup (ids l) -> erase_rs id l = Some l' -> removed id l l'.
Proof.
  intros N E. split; [by apply erase_rs_shrunk, shrunk_facts in E as (_ & _ & E)|].
  revert l' E N. induction l as [|ds l IH]; intros l'; cbn [erase_rs]; [done|].
  rewrite ids_cons, NoDup_app. destruct (find_in id (ds_rs ds)) as [r|] eqn:F.
  - intros [= <-] (N1 & N2 & N3).
    assert (Hin : id ∈ (d_id <$> ds_rs ds)).
    { destruct (decide (id ∈ (d_id <$> ds_rs ds))) as [H|H]; [done|apply find_in_none in H; congruence]. }
    split.
    { apply list_elem_of_fmap in Hin as (d & -> & Hd). exists 0%nat, d. by rewrite holds_cons. }
    intros k d. rewrite !holds_cons. destruct k as [|k]; [by apply erase_in_elem|]. split; [|tauto].
    intros H. split; [done|]. intros <-. eapply N2; [exact Hin|by eapply holds_ids].
  - intros (l0 & E & [= <-])%bind_Some (N1 & N2 & N3). destruct (IH l0 E N3) as [(k & d & Hd & Hi) H]. split.
    { exists (S k), d. by rewrite holds_cons. }
    intros j d1. rewrite !holds_cons. destruct j as [|j]; [|apply H]. split; [|tauto]. intros Hd1. split; [done|].
    intros <-. apply find_in_none in F. by apply F, list_elem_of_fmap_2.
Qed.

Lemma insert_added l k ds id rc : l !! k = Some ds -> id ∉ ids l ->
  added id k rc l (<[k := mkDesiredService (ds_conf ds) (ds_rs ds ++ [mkDesiredRs id rc true true])]> l).
Proof.
  intros Hk Hi. set (ds' := mkDesiredService _ _). split.
  { rewrite list_fmap_insert. apply list_insert_id. by rewrite list_lookup_fmap, Hk. }
  pose proof (lookup_lt_Some _ _ _ Hk). split; [done|]. split; [done|]. intros j d. unfold holds.
  destruct (decide (j = k)) as [->|Hne].
  - rewrite list_lookup_insert_eq by done. split.
    + intros (x & [= <-] & [Hd|Hd%list_elem_of_singleton]%elem_of_app); [left; eauto|by right].
    + intros [(x & Hx & Hd)|[_ ->]]; (exists ds'; split; [done|]; cbn; apply elem_of_app); [left; congruence|right; set_solver].
  - rewrite list_lookup_insert_ne by done. naive_solver.
Qed.

(** A new real server: its id was never in use. *)
Lemma add_desired m i rc id m' :
  desired_ok m -> is_u16 i -> rs_typed rc -> is_u32 (rc_weight rc) -> add_rs m i rc = inr (id, m') ->
  desired_ok m' /\ same_net m m' /\ added id (Z.to_nat i) rc (services_ m) (services_ m').
Proof.
  intros D Wi Wr Ww E. assert (X := exec_desired m (OpAdd i rc) m' [id] D (conj Wi Ww)). cbn [exec] in X. rewrite E in X.
  specialize (X eq_refl). unfold add_rs in E. destruct (Z.geb_spec i (len (services_ m))) as [|Hi]; [done|].
  destruct (services_ m !! Z.to_nat i) as [ds|] eqn:Hds.
  2:{ apply lookup_ge_None in Hds. unfold len in Hi. revert Wi. zwrap. lia. }
  rewrite (list_lookup_total_correct _ _ _ Hds) in E. destruct (_ >=? kMaxRsPerService); [done|].
  destruct (find_addr _ _ _); [done|]. destruct (Z.geb_spec (next_rs_id_ m) kMaxRsId) as [|Hn]; [done|].
  injection E as <- <-. set (d := mkDesiredRs (next_rs_id_ m) rc true true) in *.
  pose proof (all_rs_insert (services_ m) (Z.to_nat i) ds
    (mkDesiredService (ds_conf ds) (ds_rs ds ++ [d])) d Hds eq_refl) as P.
  destruct D as [M T L N]. pose proof (mk_next _ M) as Hx. pose proof (mk_range _ M) as Rg.
  split; [|split; [done|]].
  - apply X; cbn [services_ next_rs_id_]; [rewrite P; by constructor| |done].
    unfold kMaxRsId, kMaxRsCounters in *. rewrite u32_id by (zwrap; lia). lia.
  - apply insert_added; [done|]. intros Hin. rewrite Forall_forall in Rg. specialize (Rg _ Hin). lia.
Qed.

(** ** Commands *)

Lemma parse_u32_is x v : Control.parse_u32 x = Some v -> is_u32 v.
Proof.
  unfold Control.parse_u32. destruct (empty x); [done|]. destruct (strtoul (c_str x)) as [[n e] r].
  destruct (_ || _); [done|]. intros [= <-]. apply u32_is.
Qed.

Lemma parse_rs_spec_ok x rc : parse_rs_spec x = Some rc -> rs_typed rc /\ is_u32 (rc_weight rc).
Proof.
  unfold parse_rs_spec. destruct (getlines ":" EmptyString x) as [|p0 [|p1 more]]; try done.
  destruct (1 <? _)%nat; [done|]. intros (ip & Hip & (port & _ & H)%bind_Some)%bind_Some. apply inet_u32 in Hip.
  destruct (_ || _); [done|]. apply bind_Some in H as (w & Hw & [= <-]). cbn.
  split; [split; [done|]; split; [apply u16_is|apply ProcessorThms.mac_zero_wf]|].
  destruct more as [|y more]; [injection Hw as <-; zwrap; lia|]. apply bind_Some in Hw as (v & Hv & Hw).
  apply parse_u32_is in Hv. destruct (v >? 65535); [done|]. by injection Hw as <-.
Qed.

(** What a reply says of the command, the state before and the state after. *)
Definition reply_ok (a : list string) (r : Reply) s s' : Prop :=
  match r with
  | Help | Text_ _ | BadSpec | BadCommand | Error_ _ => s' = s
  | OkRs id => ctl_running s' = ctl_running s /\ ∃ x y i rc, a = ["add"; x; y]%string
      /\ Control.parse_u32 x = Some i /\ parse_rs_spec y = Some rc
      /\ added id (Z.to_nat (u16 i)) rc (services_ (ctl_mgr s)) (services_ (ctl_mgr s'))
  | Control.Ok => ctl_running s' = ctl_running s /\ carried_out a s s'
  | ShuttingDown => hd_error a = Some "quit"%string /\ s' = mkCtl (ctl_mgr s) false (ctl_log s)
  end.

Definition step_ok (a : list string) s (r : Reply) s' : Prop :=
  served (ctl_mgr s') /\ same_net (ctl_mgr s) (ctl_mgr s') /\ reply_ok a r s s'.

Lemma finish_ok a s m r :
  desired_ok m -> same_net (ctl_mgr s) m ->
  (forall m', services_ m' = services_ m -> reply_ok a r s (set_mgr m' s)) ->
  ∃ s', finish max_lcore s (inr m) r = Some (r, s') /\ step_ok a s r s'.
Proof.
  intros D [N1 N2] Hr. destruct (publish_ok max_lcore m (do_mgr _ D)) as (m' & _ & Hp & _).
  destruct (publish_served m m' D Hp) as (S & [E1 E2] & Es). unfold finish. rewrite Hp. cbn. eexists. split; [reflexivity|].
  split; [done|]. split; [split; cbn; congruence|by apply Hr].
Qed.

Lemma done_ok a s r : served (ctl_mgr s) -> reply_ok a r s s -> ∃ r' s', Some (r, s) = Some (r', s') /\ step_ok a s r' s'.
Proof. intros S R. by exists r, s. Qed.

Lemma manager_ok a s (x : mgr_error + SnapshotManager) :
  served (ctl_mgr s) -> (forall m, x = inr m -> desired_ok m /\ same_net (ctl_mgr s) m
    /\ forall m', services_ m' = services_ m -> carried_out a s (set_mgr m' s)) ->
  ∃ r s', finish max_lcore s x Control.Ok = Some (r, s') /\ step_ok a s r s'.
Proof.
  intros S H. destruct x as [e|m]; [by apply done_ok|]. destruct (H m eq_refl) as (D & N & K).
  exists Control.Ok. apply finish_ok; [done|done|]. intros m' E. split; [done|by apply K].
Qed.

Lemma eqs_eq x y : eqs x y = true -> x = y.
Proof. by intros ->%String.eqb_eq. Qed.

Lemma set_weight_effect m id w m' : mgr_ok m -> set_weight m id w = inr m' ->
  w <= 65535 /\ changed id (set_conf_weight w) (services_ m) (services_ m').
Proof.
  intros M. unfold set_weight. destruct (find_rs id (services_ m)) eqn:F; [|done]. destruct (Z.gtb_spec w 65535); [done|].
  intros [= <-]. split; [lia|]. apply update_changed; [done|apply M|eauto].
Qed.

Lemma set_enabled_effect m id b m' : mgr_ok m -> set_enabled m id b = inr m' ->
  changed id (fun d => mkDesiredRs (d_id d) (d_conf d) b (d_healthy d)) (services_ m) (services_ m').
Proof.
  intros M. unfold set_enabled. destruct (find_rs id (services_ m)) eqn:F; [|done].
  intros [= <-]. apply update_changed; [done|apply M|eauto].
Qed.

Lemma del_effect m id m' : mgr_ok m -> del_rs m id = inr m' -> removed id (services_ m) (services_ m').
Proof.
  intros M. unfold del_rs. destruct (erase_rs id (services_ m)) as [l|] eqn:F; [|done].
  intros [= <-]. apply erase_removed; [apply M|done].
Qed.

Lemma execute_ok line s :
  served (ctl_mgr s) -> ∃ r s', execute max_lcore line s = Some (r, s') /\ step_ok (words EmptyString line) s r s'.
Proof.
  intros S. pose proof (proj1 S) as D. pose proof (do_mgr _ D) as M.
  assert (Bad : ∃ r s', bad s = Some (r, s') /\ step_ok (words EmptyString line) s r s') by (by apply done_ok).
  unfold execute. destruct (words EmptyString line) as [|cmd args]; [by apply done_ok|].
  destruct (eqs cmd "help"); [by apply done_ok|]. destruct (eqs cmd "stats"); [by apply done_ok|].
  destruct (eqs cmd "counters"); [by apply done_ok|]. destruct (eqs cmd "rate"); [by apply done_ok|].
  destruct (eqs cmd "services"); [by apply done_ok|]. destruct (eqs cmd "weight") eqn:E1.
  { apply eqs_eq in E1 as ->. destruct args as [|x [|y [|]]]; try done. destruct (Control.parse_u32 x) as [id|] eqn:Ei; [|done].
    destruct (Control.parse_u32 y) as [w|] eqn:Ew; [|done]. apply manager_ok; [done|]. intros m E.
    destruct (set_weight_desired _ _ _ _ D (parse_u32_is _ _ Ew) E) as [D' N]. destruct (set_weight_effect _ _ _ _ M E) as [Hw C].
    split; [done|]. split; [done|]. intros m' Em. apply (did_weight _ _ _ _ id w); cbn; rewrite ?Em; done. }
  destruct (eqs cmd "enable" || eqs cmd "disable") eqn:E2.
  { destruct args as [|x [|]]; try done. destruct (Control.parse_u32 x) as [id|] eqn:Ei; [|done].
    apply manager_ok; [done|]. intros m E. destruct (set_enabled_desired _ _ _ _ D E) as [D' N].
    pose proof (set_enabled_effect _ _ _ _ M E) as C. split; [done|]. split; [done|]. intros m' Em.
    apply (did_enable _ _ _ _ (eqs cmd "enable") id); cbn; rewrite ?Em; try done.
    apply orb_true_iff in E2. destruct (eqs cmd "enable") eqn:E3; [by apply eqs_eq in E3 as ->|].
    destruct E2 as [E2|E2]; [done|]. by apply eqs_eq in E2 as ->. }
  destruct (eqs cmd "add") eqn:E3.
  { apply eqs_eq in E3 as ->. destruct args as [|x [|y [|]]]; try done. destruct (Control.parse_u32 x) as [i|] eqn:Ei; [|done].
    destruct (parse_rs_spec y) as [rc|] eqn:Er; [|by apply done_ok]. pose proof Er as [T W]%parse_rs_spec_ok.
    destruct (add_rs (ctl_mgr s) (u16 i) rc) as [e|[id' m]] eqn:Ea; [by apply done_ok|].
    destruct (add_desired _ _ _ _ _ D (u16_is i) T W Ea) as (D' & N & C).
    exists (OkRs id'). apply finish_ok; [done|done|]. intros m' E. split; [done|]. exists x, y, i, rc. cbn. by rewrite E. }
  destruct (eqs cmd "del") eqn:E4.
  { apply eqs_eq in E4 as ->. destruct args as [|x [|]]; try done. destruct (Control.parse_u32 x) as [id|] eqn:Ei; [|done].
    apply manager_ok; [done|]. intros m E. destruct (del_desired _ _ _ D E) as [D' N]. pose proof (del_effect _ _ _ M E) as C.
    split; [done|]. split; [done|]. intros m' Em. apply (did_del _ _ _ id); cbn; rewrite ?Em; done. }
  destruct (eqs cmd "log") eqn:E5.
  { apply eqs_eq in E5 as ->. destruct args as [|x [|]]; try done. do 2 eexists. split; [reflexivity|].
    split; [done|]. split; [done|]. split; [done|]. by apply did_log. }
  destruct (eqs cmd "quit") eqn:E6; [|done]. apply eqs_eq in E6 as ->. do 2 eexists. split; [reflexivity|]. done.
Qed.

Lemma drain_health_ok evs s :
  served (ctl_mgr s) ->
  ∃ s', drain_health max_lcore evs s = Some s' /\ served (ctl_mgr s') /\ same_net (ctl_mgr s) (ctl_mgr s')
    /\ ids (services_ (ctl_mgr s')) = ids (services_ (ctl_mgr s)) /\ ctl_running s' = ctl_running s.
Proof.
  intros S. unfold drain_health. destruct evs as [|e evs]; [by exists s|].
  assert (L : forall l m, desired_ok m -> desired_ok (foldl (fun m e => set_health m e.1 e.2) m l)
    /\ same_net m (foldl (fun m e => set_health m e.1 e.2) m l)
    /\ ids (services_ (foldl (fun m e => set_health m e.1 e.2) m l)) = ids (services_ m)).
  { induction l as [|x l IH]; intros m D; cbn [foldl]; [done|].
    destruct (set_health_desired m x.1 x.2 D) as [D1 [N1 N2]]. destruct (IH _ D1) as (D2 & [N3 N4] & E).
    split; [done|]. split; [split; congruence|]. rewrite E. unfold set_health. destruct (find_rs _ _); [|done].
    cbn [services_ with_services_]. by apply same_ids_facts, update_rs_ids. }
  destruct (L (e :: evs) (ctl_mgr s) (proj1 S)) as (D & [N1 N2] & E). set (m := foldl _ _ _) in *. clearbody m.
  destruct (publish_ok max_lcore m (do_mgr _ D)) as (m' & _ & Hp & _).
  destruct (publish_served m m' D Hp) as (S' & [M1 M2] & Es). rewrite Hp. cbn. eexists. split; [reflexivity|].
  split; [done|]. split; [split; cbn; congruence|]. cbn. rewrite Es. done.
Qed.

Lemma run_served rounds s :
  served (ctl_mgr s) ->
  ∃ rs s', run max_lcore rounds s = Some (rs, s') /\ served (ctl_mgr s') /\ same_net (ctl_mgr s) (ctl_mgr s').
Proof.
  revert s. induction rounds as [|[evs line] rounds IH]; intros s S; cbn [Control.run].
  { exists [], s. done. }
  destruct (drain_health_ok evs s S) as (s1 & -> & S1 & [N1 N2] & _). cbn [mbind option_bind].
  assert (L : ∃ r s2, match line with
               | None => Some ([], s1)
               | Some text =>
                 '(r, s) ← execute max_lcore (match cut (chr 10) text with Some (l, _) => l | None => text end) s1;
                 Some ([r], s)
               end = Some (r, s2) /\ served (ctl_mgr s2) /\ same_net (ctl_mgr s1) (ctl_mgr s2)).
  { destruct line as [text|]; [|by exists [], s1].
    destruct (execute_ok (match cut (chr 10) text with Some (l, _) => l | None => text end) s1 S1) as (r & s2 & -> & A & B & _).
    cbn [mbind option_bind]. by exists [r], s2. }
  destruct L as (r & s2 & -> & S2 & [M1 M2]). cbn [mbind option_bind].
  destruct (IH s2 S2) as (rs & s3 & -> & S3 & [K1 K2]). cbn [mbind option_bind]. do 2 eexists. split; [reflexivity|].
  split; [done|]. split; congruence.
Qed.

(** The state after start-up. *)
Lemma started_served text c o m :
  load text = Some (c, o) -> len (conf_rs (c_services c)) < kMaxRsCounters ->
  init max_lcore Manager0 c = Some m -> served m /\ mode_ m = c_mode c.
Proof.
  intros (C & R & _)%load_in_range Hn Hi. destruct (init_ok max_lcore c C (in_range_typed c R)) as (m' & snap & Hi' & M & Hc & Rf & _ & Nx).
  rewrite Hi in Hi'. injection Hi' as <-. destruct (init_confs max_lcore c m Hi C R) as (T & L & _).
  split.
  - split; [|by exists snap]. split; [done|done|done|]. rewrite Nx. unfold kMaxRsId. lia.
  - unfold init in Hi. destruct (number_services _ _) as [svcs next]. unfold publish in Hi.
    apply bind_Some in Hi as (sn & _ & [= <-]). done.
Qed.


(** The service index of add is cut to 16 bits: 65536 stands for service 0. *)
Lemma control_add_truncates s :
  execute max_lcore "add 65536 10.0.0.9:80" s = execute max_lcore "add 0 10.0.0.9:80" s.
Proof. reflexivity. Qed.

End Props.

Definition demo_rounds : list (list (Z * bool) * option string) :=
  [([], Some "weight 1 5"); ([(2, false)], Some "add 0 10.0.0.9:80"); ([], Some "add 7 10.0.0.9:80"); ([], None);
   ([], Some "del 1"); ([(9, true)], Some "frobnicate")]%string.


End ControlProps.
