(* ===== verification/Stdio.v ===== *)
(** Stdio: what the logger uses of the C library's streams and of POSIX files.

    A file system maps paths to directories and to inodes; a stream holds an
    inode, so it keeps writing to its file when the path is renamed or removed.
    What is written stays in the stream's buffer until fflush or fclose: the
    latest the C standard allows.  A failing call sets errno.  Paths are their
    components; "." and ".." are ordinary names, and a directory is neither
    renamed nor removed (the program renames and removes log files only). *)
From S2P Require Import Prelude Types Mem Text Print.
From stdpp Require Import strings.
From Stdlib Require Import String Ascii.

Class Libc := { strerror : Z -> string }.

Module Stdio.
Import Text Print.
Local Open Scope string_scope.
Local Open Scope Z_scope.

Definition ENOENT : Z := 2.
Definition EACCES : Z := 13.
Definition EEXIST : Z := 17.
Definition EISDIR : Z := 21.
Definition EROFS : Z := 30.

(** Absolute or relative, and the components. *)
Definition Path : Type := bool * list string.

Definition absolute (s : string) : bool :=
  match s with String c _ => (c =? "/")%char | EmptyString => false end.
Definition components (s : string) : list string :=
  filter (fun c => empty c = false) (getlines "/"%char EmptyString s).
Definition resolve (s : string) : Path := (absolute s, components s).
Definition parent (p : Path) : Path := (p.1, removelast p.2).

Inductive Node := Dir | File (ino : nat).

Record Fs := mkFs {
  fs_node : gmap Path Node;
  fs_data : gmap nat string;    (** contents of the inodes *)
  fs_next : nat;                (** the next inode *)
  fs_ro : bool;                 (** entries cannot be created, renamed or removed *)
  fs_deny : gset Path;          (** files that must not be opened *)
  fs_errno : Z;
}.

Record FILE := mkFILE { f_ino : nat; f_buf : string }.

Definition set_node (v : gmap Path Node) (fs : Fs) : Fs :=
  mkFs v (fs_data fs) (fs_next fs) (fs_ro fs) (fs_deny fs) (fs_errno fs).
Definition set_data (v : gmap nat string) (fs : Fs) : Fs :=
  mkFs (fs_node fs) v (fs_next fs) (fs_ro fs) (fs_deny fs) (fs_errno fs).
Definition set_errno (v : Z) (fs : Fs) : Fs :=
  mkFs (fs_node fs) (fs_data fs) (fs_next fs) (fs_ro fs) (fs_deny fs) v.
Definition new_file (p : Path) (fs : Fs) : Fs :=
  mkFs (<[p := File (fs_next fs)]> (fs_node fs)) (<[fs_next fs := EmptyString]> (fs_data fs))
    (S (fs_next fs)) (fs_ro fs) (fs_deny fs) (fs_errno fs).

Definition data (fs : Fs) (i : nat) : string := default EmptyString (fs_data fs !! i).

#[export] Instance Node_eq_dec : EqDecision Node.
Proof. solve_decision. Defined.

(** The root and the working directory always exist. *)
Definition is_dir (fs : Fs) (p : Path) : bool :=
  match p.2 with [] => true | _ => bool_decide (fs_node fs !! p = Some Dir) end.

(** stat and S_ISDIR *)
Definition stat_isdir (s : string) (fs : Fs) : bool * Fs :=
  if empty s then (false, set_errno ENOENT fs)
  else if is_dir fs (resolve s) then (true, fs)
  else (false, match fs_node fs !! resolve s with None => set_errno ENOENT fs | Some _ => fs end).

(** 0, or -1 with errno set *)
Definition mkdir (s : string) (fs : Fs) : Z * Fs :=
  let p := resolve s in
  if is_dir fs p || bool_decide (is_Some (fs_node fs !! p)) then (-1, set_errno EEXIST fs)
  else if negb (is_dir fs (parent p)) then (-1, set_errno ENOENT fs)
  else if fs_ro fs then (-1, set_errno EROFS fs)
  else (0, set_node (<[p := Dir]> (fs_node fs)) fs).

(** fopen(s, "a") *)
Definition fopen_a (s : string) (fs : Fs) : option FILE * Fs :=
  let p := resolve s in
  match fs_node fs !! p with
  | Some (File i) => if bool_decide (p ∈ fs_deny fs) then (None, set_errno EACCES fs) else (Some (mkFILE i EmptyString), fs)
  | Some Dir => (None, set_errno EISDIR fs)
  | None => if negb (is_dir fs (parent p)) then (None, set_errno ENOENT fs)
            else if fs_ro fs then (None, set_errno EROFS fs)
            else (Some (mkFILE (fs_next fs) EmptyString), new_file p fs)
  end.

(** fseek(f, 0, SEEK_END) and ftell *)
Definition ftell_end (f : FILE) (fs : Fs) : Z := Z.of_nat (String.length (data fs (f_ino f)) + String.length (f_buf f)).

Definition fwrite (s : string) (f : FILE) : FILE := mkFILE (f_ino f) (String.append (f_buf f) s).

Definition fflush (f : FILE) (fs : Fs) : FILE * Fs :=
  (mkFILE (f_ino f) EmptyString,
   set_data (<[f_ino f := String.append (data fs (f_ino f)) (f_buf f)]> (fs_data fs)) fs).

Definition fclose (f : FILE) (fs : Fs) : Fs := (fflush f fs).2.

Definition remove (s : string) (fs : Fs) : Fs :=
  match fs_node fs !! resolve s with
  | None => set_errno ENOENT fs
  | Some Dir => set_errno EISDIR fs
  | Some (File _) => if fs_ro fs then set_errno EROFS fs else set_node (delete (resolve s) (fs_node fs)) fs
  end.

Definition rename (a b : string) (fs : Fs) : Fs :=
  match fs_node fs !! resolve a with
  | None => set_errno ENOENT fs
  | Some Dir => set_errno EISDIR fs
  | Some (File i) =>
    if negb (is_dir fs (parent (resolve b))) then set_errno ENOENT fs
    else if fs_ro fs then set_errno EROFS fs
    else match fs_node fs !! resolve b with
         | Some Dir => set_errno EISDIR fs
         | _ => set_node (<[resolve b := File i]> (delete (resolve a) (fs_node fs))) fs
         end
  end.

(** std::string::find(c, pos) *)
Fixpoint find (c : ascii) (pos : nat) (s : string) : option nat :=
  match s with
  | EmptyString => None
  | String x t => match pos with
                  | O => if (x =? c)%char then Some O else S <$> find c O t
                  | S pos => S <$> find c pos t
                  end
  end.

End Stdio.
