(* ===== verification/Logger.v ===== *)
(** Logger: include/common/logger.h and src/common/logger.cpp.

    Callers put formatted lines into a bounded queue; the writer thread takes
    the whole queue and writes it to a file that is rotated by size.  [Shared]
    is the part of Sink under the mutex, [Own] the writer's part with the file
    system and stderr; a critical section is one function of [Shared].
    localtime_r's result and strerror are inputs.  write_line, rotate and notice
    call each other: they take fuel, and [LoggerThms] shows 2 is enough. *)
From S2P Require Import Prelude Types Mem Text Print Stdio.
From stdpp Require Import strings.
From Stdlib Require Import String Ascii.

Module Logger.
Import Text Print Stdio.
Local Open Scope string_scope.
Local Open Scope Z_scope.

Inductive LogLevel := DEBUG | INFO | WARN | ERROR | FATAL | OFF.

Definition level_int (l : LogLevel) : Z :=
  match l with DEBUG => 0 | INFO => 1 | WARN => 2 | ERROR => 3 | FATAL => 4 | OFF => 5 end.

Record LogFileOptions := mkLogFileOptions {
  dir : string;
  name : string;
  max_size : Z;
  max_files : Z;
  also_stderr : bool;
  queue_cap : Z;
}.

(** The defaults of the struct. *)
Definition default_options (d : string) : LogFileOptions :=
  mkLogFileOptions d "l4lb.log" (Z.shiftl 100 20) 5 true 8192.

(** What localtime_r and clock_gettime give. *)
Record Tm := mkTm {
  tm_year : Z; tm_mon : Z; tm_mday : Z; tm_hour : Z; tm_min : Z; tm_sec : Z; tm_ms : Z;
}.

Definition kWakeBatch : Z := 256.

Definition cat (l : list string) : string := foldr String.append EmptyString l.

Definition newline : ascii := "010"%char.

Definition d2 (n : Z) : string := pad 2 (to_string n).

Definition time_str (t : Tm) : string :=
  cat [to_string (tm_year t); "-"; d2 (tm_mon t); "-"; d2 (tm_mday t); " ";
       d2 (tm_hour t); ":"; d2 (tm_min t); ":"; d2 (tm_sec t); "."; pad 3 (to_string (tm_ms t))].

Definition format_line (t : Tm) (level_str place msg : string) : string :=
  cat ["["; time_str t; "] ["; level_str; "] ["; place; "] "; msg; String newline EmptyString].

Definition get_level_str (l : LogLevel) : string :=
  match l with
  | DEBUG => "DEBUG" | INFO => "INFO " | WARN => "WARN " | ERROR => "ERROR" | FATAL => "FATAL"
  | OFF => "?????"
  end.

(** snprintf into a buffer of [n] bytes. *)
Definition snprintf (n : nat) (s : string) : string := String.substring 0 (n - 1) s.

Definition is_enabled (cur level : LogLevel) : bool := level_int level >=? level_int cur.

Definition set_level (s : string) (cur : LogLevel) : LogLevel :=
  if String.eqb s "debug" then DEBUG
  else if String.eqb s "info" then INFO
  else if String.eqb s "warn" then WARN
  else if String.eqb s "error" then ERROR
  else if String.eqb s "fatal" then FATAL
  else if String.eqb s "off" then OFF
  else cur.

Definition RTE_LOG_ERR : Z := 4.
Definition RTE_LOG_WARNING : Z := 5.
Definition RTE_LOG_DEBUG : Z := 8.

Definition from_rte_level (lv : Z) : LogLevel :=
  if lv <=? 0 then INFO
  else if lv <=? RTE_LOG_ERR then ERROR
  else if lv =? RTE_LOG_WARNING then WARN
  else if lv =? RTE_LOG_DEBUG then DEBUG
  else INFO.

(** mkdir -p; [None] is fuel that ran out. *)
Fixpoint make_dirs_from (fuel : nat) (pos : nat) (dir : string) (fs : Fs) : option (bool * Fs) :=
  match fuel with
  | O => None
  | S fuel =>
    let nx := find "/"%char (S pos) dir in
    let cur := match nx with Some p => String.substring 0 p dir | None => dir end in
    let continue fs := match nx with
                       | Some p => make_dirs_from fuel p dir fs
                       | None => Some (stat_isdir dir fs)
                       end in
    if empty cur then continue fs
    else let '(r, fs') := mkdir cur fs in
         if negb (r =? 0) && negb (fs_errno fs' =? EEXIST) then Some (false, fs') else continue fs'
  end.
Definition make_dirs (dir : string) : Fs -> option (bool * Fs) :=
  make_dirs_from (S (String.length dir)) 0 dir.

(** ** The queue *)

Record Shared := mkShared {
  queue : list string;
  cap : Z;
  urgent : bool;
  stop : bool;
  active : bool;
  dropped : Z;
  drop_unreported : Z;
}.

(** What a push did, in the critical section. *)
Inductive Push := Refused | Dropped | Queued.

Definition push_locked (line : string) (is_urgent : bool) (s : Shared) : Push * Shared :=
  if negb (active s) then (Refused, s)
  else if Z.of_nat (List.length (queue s)) >=? cap s then
    (Dropped, mkShared (queue s) (cap s) (urgent s) (stop s) (active s) (u64 (dropped s + 1)) (u64 (drop_unreported s + 1)))
  else
    let q := (queue s ++ [line])%list in
    let u := if is_urgent || (Z.of_nat (List.length q) =? kWakeBatch) then urgent s || is_urgent else urgent s in
    (Queued, mkShared q (cap s) u (stop s) (active s) (dropped s) (drop_unreported s)).

(** The test before the lock, then the critical section; false: not accepted. *)
Definition push (line : string) (is_urgent : bool) (s : Shared) : bool * Shared :=
  if negb (active s) then (false, s)
  else let '(r, s) := push_locked line is_urgent s in
       (match r with Refused => false | _ => true end, s).

(** The predicate of wait_for. *)
Definition wait_done (s : Shared) : bool :=
  stop s || urgent s || (Z.of_nat (List.length (queue s)) >=? kWakeBatch).

(** The writer's critical section: the batch and whether to stop after it. *)
Definition take_batch (s : Shared) : list string * bool * Shared :=
  (queue s, stop s, mkShared [] (cap s) false (stop s) (active s) (dropped s) (drop_unreported s)).

(** drop_unreported.exchange(0) *)
Definition take_drops (s : Shared) : Z * Shared :=
  (drop_unreported s, mkShared (queue s) (cap s) (urgent s) (stop s) (active s) (dropped s) 0).

(** The critical section of shutdown; false: nothing to do. *)
Definition stop_locked (s : Shared) : bool * Shared :=
  if negb (active s) then (false, s)
  else (true, mkShared (queue s) (cap s) (urgent s) true false (dropped s) (drop_unreported s)).

(** ** The file *)

Record Own := mkOwn {
  opts : LogFileOptions;
  path : string;
  file : option FILE;
  size : Z;
  fs : Fs;
  err : string;   (** what went to stderr *)
  clock : Tm;
}.

Definition set_opts (v : LogFileOptions) (o : Own) : Own := mkOwn v (path o) (file o) (size o) (fs o) (err o) (clock o).
Definition set_path (v : string) (o : Own) : Own := mkOwn (opts o) v (file o) (size o) (fs o) (err o) (clock o).
Definition set_file (v : option FILE) (o : Own) : Own := mkOwn (opts o) (path o) v (size o) (fs o) (err o) (clock o).
Definition set_size (v : Z) (o : Own) : Own := mkOwn (opts o) (path o) (file o) v (fs o) (err o) (clock o).
Definition set_fs (v : Fs) (o : Own) : Own := mkOwn (opts o) (path o) (file o) (size o) v (err o) (clock o).
Definition to_stderr (s : string) (o : Own) : Own :=
  mkOwn (opts o) (path o) (file o) (size o) (fs o) (String.append (err o) s) (clock o).

Definition opened (o : Own) : bool := match file o with Some _ => true | None => false end.

Definition open_current : ST Own bool := fun o =>
  match fopen_a (path o) (fs o) with
  | (None, fs') => Some (false, set_file None (set_fs fs' o))
  | (Some f, fs') =>
    let pos := ftell_end f fs' in
    Some (true, set_size (if pos >? 0 then u64 pos else 0) (set_file (Some f) (set_fs fs' o)))
  end.

(** if (file) fclose(file) *)
Definition close_file : ST Own unit :=
  modify (fun o => match file o with Some f => set_fs (fclose f (fs o)) o | None => o end).

(** path + "." + std::to_string(i) *)
Definition old_name (p : string) (i : Z) : string := String.append p (String.append "." (to_string i)).

(** for (i = max_files; i > 1; --i) rename(path.(i-1), path.i), from [S n] down. *)
Fixpoint shift_names (p : string) (n : nat) (fs : Fs) : Fs :=
  match n with
  | O => fs
  | S n => shift_names p n (rename (old_name p (Z.of_nat (S n))) (old_name p (Z.of_nat (S (S n)))) fs)
  end.

Definition rotate_names (p : string) (n : Z) (fs : Fs) : Fs :=
  if n =? 0 then remove p fs
  else rename p (old_name p 1) (shift_names p (Z.to_nat (n - 1)) (remove (old_name p n) fs)).

Section Output.
Context {L : Libc}.

(** [notice] is the one below. *)
Definition rotate (notice : LogLevel -> string -> ST Own unit) : ST Own unit :=
  close_file ;;
  modify (set_file None) ;;
  modify (fun o => set_fs (rotate_names (path o) (max_files (opts o)) (fs o)) o) ;;
  ok ← open_current;
  when (negb ok) (
    o ← gets id;
    notice ERROR (cat ["cannot open "; path o; " after rotation: "; strerror (fs_errno (fs o))])).

Definition notice_with (write_line : string -> ST Own unit) (level : LogLevel) (msg : string) : ST Own unit :=
  o ← gets id;
  write_line (format_line (clock o) (get_level_str level) "logger" (snprintf 512 msg)).

Fixpoint write_line (fuel : nat) (line : string) : ST Own unit :=
  match fuel with
  | O => fault
  | S fuel =>
    o ← gets id;
    when (also_stderr (opts o) || negb (opened o)) (modify (to_stderr line)) ;;
    match file o with
    | None => mret tt
    | Some f =>
      modify (set_file (Some (fwrite line f))) ;;
      modify (set_size (u64 (size o + Z.of_nat (String.length line)))) ;;
      o ← gets id;
      when (negb (max_size (opts o) =? 0) && (size o >=? max_size (opts o)))
        (rotate (notice_with (write_line fuel)))
    end
  end.

Definition notice : LogLevel -> string -> ST Own unit := notice_with (write_line 2).

Definition flush : ST Own unit :=
  modify (fun o => match file o with
                   | Some f => let '(f, fs') := fflush f (fs o) in set_file (Some f) (set_fs fs' o)
                   | None => o
                   end).

(** *** The writer's round, between two critical sections *)

Definition reopened : ST Own unit :=
  o ← gets id; notice INFO (cat ["log file reopened: "; path o]).

Definition reopen (flag : bool) : ST Own unit :=
  when flag (
    close_file ;;
    ok ← open_current;
    if (ok : bool) then reopened
    else o ← gets id; notice ERROR (cat ["cannot reopen "; path o; ": "; strerror (fs_errno (fs o))])) ;;
  o ← gets id;
  when (negb (opened o) && negb (empty (path o))) (ok ← open_current; when ok reopened).

Definition report_drops (d : Z) : ST Own unit :=
  when (negb (d =? 0)) (notice WARN (cat [to_string d; " log messages dropped (queue full)"])).

Fixpoint write_batch (batch : list string) : ST Own unit :=
  match batch with
  | [] => mret tt
  | line :: batch => write_line 2 line ;; write_batch batch
  end.

(** ** The logger *)

Record Log := mkLog {
  sh : Shared;
  own : Own;
  g_reopen : bool;
  level : LogLevel;
  dpdk : bool;             (** the DPDK stream is open *)
  dpdk_partial : string;
}.

Definition set_sh (v : Shared) (l : Log) : Log := mkLog v (own l) (g_reopen l) (level l) (dpdk l) (dpdk_partial l).
Definition set_own (v : Own) (l : Log) : Log := mkLog (sh l) v (g_reopen l) (level l) (dpdk l) (dpdk_partial l).
Definition set_reopen (v : bool) (l : Log) : Log := mkLog (sh l) (own l) v (level l) (dpdk l) (dpdk_partial l).
Definition set_lv (v : LogLevel) (l : Log) : Log := mkLog (sh l) (own l) (g_reopen l) v (dpdk l) (dpdk_partial l).
Definition set_dpdk (v : bool) (l : Log) : Log := mkLog (sh l) (own l) (g_reopen l) (level l) v (dpdk_partial l).
Definition set_partial (v : string) (l : Log) : Log := mkLog (sh l) (own l) (g_reopen l) (level l) (dpdk l) v.

Definition writer {A} (m : ST Own A) : ST Log A := zoom own set_own m.

(** One pass of run's loop; the result says whether it was the last. *)
Definition run_round : ST Log bool :=
  l ← gets id;
  let '(batch, stopping, s) := take_batch (sh l) in
  modify (set_sh s) ;;
  modify (set_reopen false) ;;
  writer (reopen (g_reopen l)) ;;
  l ← gets id;
  let '(d, s) := take_drops (sh l) in
  modify (set_sh s) ;;
  writer (report_drops d) ;;
  writer (write_batch batch) ;;
  writer flush ;;
  mret stopping.

Definition emit (lv : LogLevel) (place msg : string) : ST Log unit :=
  l ← gets id;
  let out := format_line (clock (own l)) (get_level_str lv) place msg in
  let '(ok, s) := push out (level_int lv >=? level_int ERROR) (sh l) in
  if (ok : bool) then modify (set_sh s) else writer (modify (to_stderr out)).

Definition write_raw : LogLevel -> string -> string -> ST Log unit := emit.

(** The part of the path after the last separator. *)
Fixpoint filename (name p : string) : string :=
  match p with
  | EmptyString => name
  | String c p => filename (if (c =? "/")%char || (c =? "\")%char then p else name) p
  end.

(** [text] is what the format and its arguments give; [None] if vsnprintf fails. *)
Definition log (lv : LogLevel) (file : string) (line : Z) (func : string) (text : option string) : ST Log unit :=
  l ← gets id;
  if negb (is_enabled (level l) lv) then mret tt
  else
    let place := snprintf 256 (cat [filename file file; ":"; to_string line; " "; func]) in
    emit lv place (match text with Some t => snprintf 1024 t | None => EmptyString end).

(** The macro L4LB_LOG. *)
Definition L4LB_LOG (lv : LogLevel) (file : string) (line : Z) (func : string) (text : option string) : ST Log unit :=
  l ← gets id;
  when (is_enabled (level l) lv) (log lv file line func text).

(** What shutdown does after the writer thread has ended. *)
Definition shutdown_end : ST Own unit :=
  close_file ;; modify (set_file None) ;; modify (set_path EmptyString).

(** With the writer waiting: its next round is the last. *)
Definition shutdown : ST Log unit :=
  l ← gets id;
  let '(running, s) := stop_locked (sh l) in
  if negb running then mret tt
  else modify (set_sh s) ;; run_round ;; writer shutdown_end.

(** opts.dir, a slash unless it ends in one, opts.name *)
Definition log_path (o : LogFileOptions) : string :=
  let slash := if String.eqb (String.substring (String.length (dir o) - 1) 1 (dir o)) "/" then EmptyString else "/" in
  cat [dir o; slash; name o].

(** The fields set before the thread starts, and active. *)
Definition start_shared (o : LogFileOptions) (s : Shared) : Shared :=
  mkShared (queue s) (if queue_cap o =? 0 then 1 else queue_cap o) false false true (dropped s) (drop_unreported s).

(** [src] is __FILE__. *)
Definition open_file (src : string) (o : LogFileOptions) : ST Log bool :=
  shutdown ;;
  l ← gets id;
  match make_dirs (dir o) (fs (own l)) with
  | None => fault
  | Some (made, fs') =>
    writer (modify (set_fs fs')) ;;
    if negb made then
      L4LB_LOG WARN src 272 "open_file"
        (Some (cat ["cannot create log dir "; dir o; ": "; strerror (fs_errno fs'); "; logging to stderr only"])) ;;
      mret false
    else
      writer (modify (set_opts o)) ;;
      writer (modify (set_path (log_path o))) ;;
      ok ← writer open_current;
      l ← gets id;
      if negb ok then
        L4LB_LOG WARN src 282 "open_file"
          (Some (cat ["cannot open log file "; path (own l); ": "; strerror (fs_errno (fs (own l))); "; logging to stderr only"])) ;;
        writer (modify (set_path EmptyString)) ;;
        mret false
      else
        modify (set_sh (start_shared o (sh l))) ;;
        modify (set_reopen false) ;;
        mret true
  end.

Definition request_reopen : Log -> Log := set_reopen true.

(** ** The DPDK stream *)

(** Whether the result is a stream. *)
Definition dpdk_stream : ST Log bool :=
  l ← gets id;
  if negb (active (sh l)) then mret false
  else when (negb (dpdk l)) (modify (set_dpdk true)) ;; mret true.

(** The loop over the newlines of dpdk_partial from [start]; the result is the
    last [start]. *)
Fixpoint cookie_lines (fuel : nat) (lv : LogLevel) (start : nat) : ST Log nat :=
  match fuel with
  | O => fault
  | S fuel =>
    l ← gets id;
    match find newline start (dpdk_partial l) with
    | None => mret start
    | Some nl =>
      when (start <? nl)%nat (write_raw lv "dpdk" (String.substring start (nl - start) (dpdk_partial l))) ;;
      cookie_lines fuel lv (S nl)
    end
  end.

(** [rte_level]: rte_log_cur_msg_loglevel() *)
Definition cookie_write (rte_level : Z) (buf : string) : ST Log Z :=
  modify (fun l => set_partial (String.append (dpdk_partial l) buf) l) ;;
  l ← gets id;
  start ← cookie_lines (S (String.length (dpdk_partial l))) (from_rte_level rte_level) 0;
  modify (fun l => set_partial (String.substring start (String.length (dpdk_partial l) - start) (dpdk_partial l)) l) ;;
  mret (Z.of_nat (String.length buf)).

Definition cookie_close : ST Log Z :=
  l ← gets id;
  when (negb (empty (dpdk_partial l))) (write_raw INFO "dpdk" (dpdk_partial l)) ;;
  modify (set_partial EmptyString) ;;
  modify (set_dpdk false) ;;
  mret 0.

End Output.

(** ** Limits at a call site *)

(** Between the load and the exchange of log_ratelimit_pass. *)
Definition may_log (prev now interval_sec : Z) : bool :=
  negb (negb (prev =? 0) && (now - prev <? interval_sec)).

(** compare_exchange_strong *)
Definition cas (last prev now : Z) : bool * Z := if last =? prev then (true, now) else (false, last).

Definition log_ratelimit_pass (now interval_sec last : Z) : bool * Z :=
  let prev := last in
  if negb (may_log prev now interval_sec) then (false, last) else cas last prev now.

(** The counter of LOG_EVERY_N: whether to log, and the counter's next value. *)
Definition log_every_n (n count : Z) : bool * Z :=
  let count := count + 1 in if count >=? n then (true, 0) else (false, count).

(** The macro LOG_RATELIMIT: a level that is off leaves the site's time alone.  The
    result is that time. *)
Definition LOG_RATELIMIT {L : Libc} (lv : LogLevel) (interval_sec now last : Z) (file : string) (line : Z) (func : string) (text : option string) : ST Log Z :=
  l ← gets id;
  if negb (is_enabled (level l) lv) then mret last
  else
    let '(pass, last) := log_ratelimit_pass now interval_sec last in
    when pass (log lv file line func text) ;;
    mret last.

End Logger.
