(* ===== verification/LoggerThms.v ===== *)
(** LoggerThms: the writer's functions return, and keep the options and the path. *)
From S2P Require Import Prelude Types Mem Text Print Stdio Logger.
From Stdlib Require Import String Ascii.

Module LoggerThms.
Import Text Print Stdio Logger.

Lemma wp_unit {S} (m : ST S unit) (Q : S -> Prop) s :
  wp m (fun _ => Q) s -> exists s', m s = Some (tt, s') /\ Q s'.
Proof. intros ([] & s' & H)%wp_run. eauto. Qed.

(** What the writer never changes by itself. *)
Definition same_log (o o' : Own) : Prop := opts o' = opts o /\ path o' = path o.

#[export] Instance same_log_pre : PreOrder same_log.
Proof. split; [by split|]. intros x y z [] []. split; congruence. Qed.

Section Writer.
Context {L : Libc}.

Lemma write_closed n line o : file o = None -> write_line (S n) line o = Some (tt, to_stderr line o).
Proof. intros H. cbn. unfold mbind, ST_bind, gets. cbn. unfold opened. rewrite H, orb_true_r. done. Qed.

(** A line that does not fill the file. *)
Lemma write_line_append n line o f : file o = Some f ->
  max_size (opts o) = 0 \/ u64 (size o + Z.of_nat (String.length line)) < max_size (opts o) ->
  write_line (S n) line o = Some (tt, set_size (u64 (size o + Z.of_nat (String.length line)))
    (set_file (Some (fwrite line f)) (if also_stderr (opts o) then to_stderr line o else o))).
Proof.
  intros Hf Hm. cbn [write_line]. unfold mbind, ST_bind, gets, id, modify, when, opened. rewrite Hf, orb_false_r.
  set (sz := u64 _) in *.
  assert (negb (max_size (opts o) =? 0) && (sz >=? max_size (opts o)) = false) as Hr.
  { destruct Hm as [->|Hm]; [done|]. apply andb_false_iff. right. rewrite Z.geb_leb. by apply Z.leb_gt. }
  destruct (also_stderr (opts o)); cbn [opts size set_size set_file to_stderr mret ST_ret]; by rewrite Hr.
Qed.

Lemma open_current_wp o :
  wp open_current (fun ok o' => same_log o o' /\ opened o' = ok /\ err o' = err o /\ clock o' = clock o) o.
Proof. unfold wp, open_current. by destruct (fopen_a _ _) as [[f|] fs']. Qed.

(** Rotation calls write_line with the file closed at most, so it does not nest. *)
Lemma rotate_wp n o :
  wp (rotate (notice_with (write_line (S n)))) (fun _ o' => same_log o o') o.
Proof.
  unfold rotate. apply wp_bind, wp_modify, wp_bind, wp_modify, wp_bind, wp_modify, wp_bind.
  eapply wp_mono; [apply open_current_wp|]. intros ok o1 ((H1 & H2) & Ho & _). cbn in H1, H2.
  assert (same_log o o1) as Hs by (destruct (file o); by split).
  apply wp_when; [|done]. intros ->%negb_true_iff.
  apply wp_bind, wp_gets, wp_bind, wp_gets. unfold wp. rewrite write_closed; [done|].
  unfold opened in Ho. by destruct (file o1).
Qed.

(** Two levels of calls are enough: write_line returns. *)
Lemma write_line_wp n line o : wp (write_line (S (S n)) line) (fun _ o' => same_log o o') o.
Proof.
  cbn [write_line]. apply wp_bind, wp_gets, wp_bind. change (id o) with o.
  set (o1 := if also_stderr (opts o) || negb (opened o) then to_stderr line o else o).
  assert (Ho1 : same_log o o1) by (subst o1; by destruct (_ || _)).
  cut (wp (match file o with
           | Some f => modify (set_file (Some (fwrite line f))) ;;
                       modify (set_size (u64 (size o + Z.of_nat (String.length line)))) ;;
                       o ← gets id;
                       when (negb (max_size (opts o) =? 0) && (size o >=? max_size (opts o)))
                         (rotate (notice_with (write_line (S n))))
           | None => mret tt
           end) (fun _ o' => same_log o o') o1).
  { intros H. apply wp_when; intros E; [apply wp_modify|]; subst o1; rewrite E in H; exact H. }
  destruct (file o) as [f|]; [|done].
  apply wp_bind, wp_modify, wp_bind, wp_modify, wp_bind, wp_gets. apply wp_when; [|done].
  intros _. eapply wp_mono; [apply rotate_wp|]. intros [] o' H. etransitivity; [exact Ho1|]. exact H.
Qed.

Lemma notice_wp lv msg o : wp (notice lv msg) (fun _ o' => same_log o o') o.
Proof. apply wp_bind, wp_gets, write_line_wp. Qed.

Lemma reopened_wp o : wp reopened (fun _ o' => same_log o o') o.
Proof. apply wp_bind, wp_gets, notice_wp. Qed.

Lemma close_file_wp o : wp close_file (fun _ o' => same_log o o' /\ file o' = file o /\ err o' = err o) o.
Proof. apply wp_modify. destruct (file o) eqn:E; cbn; auto using same_log_pre. all: by repeat split. Qed.

Lemma reopen_wp flag o : wp (reopen flag) (fun _ o' => same_log o o') o.
Proof.
  unfold reopen. apply wp_bind. eapply (wp_mono _ (fun _ o' => same_log o o')).
  - apply wp_when; [|done]. intros _. apply wp_bind.
    eapply wp_mono; [apply close_file_wp|]. intros [] o1 (H1 & _).
    apply wp_bind. eapply wp_mono; [apply open_current_wp|]. intros ok o2 (H2 & _).
    pose proof (transitivity H1 H2) as H12. destruct ok.
    + eapply wp_mono; [apply reopened_wp|]. intros [] o3 H3. exact (transitivity H12 H3).
    + apply wp_bind, wp_gets. eapply wp_mono; [apply notice_wp|]. intros [] o3 H3. exact (transitivity H12 H3).
  - intros [] o1 H1. apply wp_bind, wp_gets, wp_when; [|done]. intros _.
    apply wp_bind. eapply wp_mono; [apply open_current_wp|]. intros ok o2 (H2 & _).
    apply wp_when; [|intros _; exact (transitivity H1 H2)]. intros _.
    eapply wp_mono; [apply reopened_wp|]. intros [] o3 H3.
    exact (transitivity H1 (transitivity H2 H3)).
Qed.

Lemma report_drops_wp d o : wp (report_drops d) (fun _ o' => same_log o o') o.
Proof. apply wp_when; [|done]. intros _. apply notice_wp. Qed.

Lemma write_batch_wp b o : wp (write_batch b) (fun _ o' => same_log o o') o.
Proof.
  revert o. induction b as [|line b IH]; intros o; [done|]. cbn [write_batch].
  apply wp_bind. eapply wp_mono; [apply write_line_wp|]. intros [] o1 H1.
  eapply wp_mono; [apply IH|]. intros [] o2 H2. exact (transitivity H1 H2).
Qed.

Lemma flush_wp o : wp flush (fun _ o' => same_log o o' /\ err o' = err o) o.
Proof. apply wp_modify. destruct (file o) eqn:E; cbn; auto using same_log_pre. all: by repeat split. Qed.

(** *** Opening *)

Lemma find_bound c pos s p : find c pos s = Some p -> (pos <= p < String.length s)%nat.
Proof.
  revert pos p. induction s as [|x s IH]; intros pos p H; [done|]. cbn in H.
  destruct pos as [|pos].
  - destruct (x =? c)%char; [injection H as <-; cbn; lia|].
    apply fmap_Some in H as (q & Hq%IH & ->). cbn. lia.
  - apply fmap_Some in H as (q & Hq%IH & ->). cbn. lia.
Qed.

(** Every turn of mkdir -p looks further right, so it ends. *)
Lemma make_dirs_from_total fuel pos d f :
  (String.length d < fuel + pos)%nat -> (0 < fuel)%nat -> is_Some (make_dirs_from fuel pos d f).
Proof.
  revert pos f. induction fuel as [|fuel IH]; intros pos f H Hf; [lia|]. cbn [make_dirs_from].
  assert (Hk : forall f, is_Some (match find "/"%char (S pos) d with
                                  | Some p => make_dirs_from fuel p d f
                                  | None => Some (stat_isdir d f) end)).
  { intros f'. destruct (find "/"%char (S pos) d) as [p|] eqn:E; [|eauto].
    apply find_bound in E. apply IH; lia. }
  destruct (empty _); [apply Hk|]. destruct (mkdir _ _) as [r f']. destruct (_ && _); [eauto|apply Hk].
Qed.

Lemma make_dirs_total d f : is_Some (make_dirs d f).
Proof. apply make_dirs_from_total; lia. Qed.

Lemma wp_writer {A} (m : ST Own A) Q l :
  wp m (fun a o => Q a (set_own o l)) (own l) -> wp (writer m) Q l.
Proof. apply wp_zoom. Qed.

(** With the queue closed, a line goes to stderr. *)
Lemma emit_sync lv place msg l : active (sh l) = false ->
  exists line, emit lv place msg l = Some (tt, set_own (to_stderr line (own l)) l).
Proof.
  intros H. eexists. unfold emit, mbind, ST_bind, gets, push, id. rewrite H. cbn. reflexivity.
Qed.

Lemma log_sync lv f n fn t l : active (sh l) = false ->
  wp (L4LB_LOG lv f n fn t) (fun _ l' => exists line, l' = l \/ l' = set_own (to_stderr line (own l)) l) l.
Proof.
  intros H. apply wp_bind, wp_gets, wp_when; [|by exists EmptyString; left]. intros _.
  apply wp_bind, wp_gets. destruct (negb _); [by exists EmptyString; left|].
  unfold id, wp. edestruct emit_sync as [line ->]; [done|]. eauto.
Qed.

Lemma shutdown_idle l : active (sh l) = false -> shutdown l = Some (tt, l).
Proof. intros H. unfold shutdown, mbind, ST_bind, gets, stop_locked, id. by rewrite H. Qed.

Lemma open_file_wp src o l : active (sh l) = false ->
  wp (open_file src o) (fun ok l' => sh l' = if ok : bool then start_shared o (sh l) else sh l) l.
Proof.
  intros Ha. apply wp_bind. unfold wp at 1. rewrite shutdown_idle by done.
  apply wp_bind, wp_gets. unfold id.
  destruct (make_dirs_total (dir o) (fs (own l))) as [[made f] ->].
  apply wp_bind, wp_writer, wp_modify. destruct made; cbn [negb].
  - apply wp_bind, wp_writer, wp_modify, wp_bind, wp_writer, wp_modify, wp_bind, wp_writer.
    eapply wp_mono; [apply open_current_wp|]. intros ok o1 _. apply wp_bind, wp_gets. destruct ok; cbn [negb].
    + by apply wp_bind, wp_modify, wp_bind, wp_modify.
    + apply wp_bind. eapply wp_mono; [by apply log_sync|]. intros [] l2 (line & [-> | ->]);
        by apply wp_bind, wp_writer, wp_modify.
  - apply wp_bind. eapply wp_mono; [by apply log_sync|]. by intros [] l2 (line & [-> | ->]).
Qed.

(** A failing open leaves no file open. *)
Lemma open_file_fails src o l : active (sh l) = false -> file (own l) = None ->
  wp (open_file src o) (fun ok l' => ok = false -> file (own l') = None) l.
Proof.
  intros Ha Hf. apply wp_bind. unfold wp at 1. rewrite shutdown_idle by done.
  apply wp_bind, wp_gets. unfold id.
  destruct (make_dirs_total (dir o) (fs (own l))) as [[made f] ->].
  apply wp_bind, wp_writer, wp_modify. destruct made; cbn [negb].
  - apply wp_bind, wp_writer, wp_modify, wp_bind, wp_writer, wp_modify, wp_bind, wp_writer.
    eapply wp_mono; [apply open_current_wp|]. intros ok o1 (_ & Ho & _). apply wp_bind, wp_gets. destruct ok; cbn [negb].
    + by apply wp_bind, wp_modify, wp_bind, wp_modify.
    + assert (file o1 = None) by (unfold opened in Ho; by destruct (file o1)).
      apply wp_bind. eapply wp_mono; [by apply log_sync|]. intros [] l2 (line & [-> | ->]);
        apply wp_bind, wp_writer, wp_modify, wp_ret; intros _; exact H.
  - apply wp_bind. eapply wp_mono; [by apply log_sync|]. intros [] l2 (line & [-> | ->]); apply wp_ret; intros _; exact Hf.
Qed.

(** *** Closing *)

(** Nothing waits to be written: no writer, an empty queue, no open file. *)
Definition closed (l : Log) : Prop := active (sh l) = false /\ queue (sh l) = [] /\ file (own l) = None.

Definition ready (l : Log) : Prop := active (sh l) = true \/ closed l.

Lemma emit_ready lv place msg l : ready l -> wp (emit lv place msg) (fun _ l' => ready l') l.
Proof.
  intros [Ha|C].
  - apply wp_bind, wp_gets. unfold push, push_locked, id. rewrite Ha. cbn [negb].
    destruct (_ >=? _); by left.
  - unfold wp. destruct (emit_sync lv place msg l (proj1 C)) as [line ->]. by right.
Qed.

Lemma L4LB_LOG_ready lv f n fn t l : ready l -> wp (L4LB_LOG lv f n fn t) (fun _ l' => ready l') l.
Proof.
  intros R. apply wp_bind, wp_gets, wp_when; [|done]. intros _. apply wp_bind, wp_gets.
  destruct (negb _); [done|]. by apply emit_ready.
Qed.

(** A limited site logs at most once in its interval, and its time moves only when
    it logs. *)
Lemma LOG_RATELIMIT_ready lv i now last f n fn t l : ready l ->
  wp (LOG_RATELIMIT lv i now last f n fn t) (fun last' l' => ready l' /\
    (last' = last \/ last' = now /\ may_log last now i = true /\ is_enabled (level l) lv = true)) l.
Proof.
  intros R. unfold LOG_RATELIMIT. apply wp_bind, wp_gets. unfold id. destruct (is_enabled (level l) lv) eqn:E; cbn [negb]; [|split; [done|by left]].
  unfold log_ratelimit_pass, cas. destruct (may_log last now i); cbn [negb]; [rewrite Z.eqb_refl|by split; [|left]].
  apply wp_bind, wp_when; [|done]. intros _. unfold log. apply wp_bind, wp_gets. unfold id. rewrite E. cbn [negb].
  eapply wp_mono; [by apply emit_ready|]. intros [] l1 R1. split; [done|]. by right.
Qed.

Lemma cookie_close_ready l : ready l -> wp cookie_close (fun _ l' => ready l') l.
Proof.
  intros R. apply wp_bind, wp_gets, wp_bind. eapply (wp_mono _ (fun _ l' => ready l')).
  - apply wp_when; [|done]. intros _. by apply emit_ready.
  - intros [] l' R'. by apply wp_bind, wp_modify, wp_bind, wp_modify.
Qed.

(** A round returns, leaves the queue empty and does not start or stop anything. *)
Lemma run_round_wp l : wp run_round (fun _ l' => active (sh l') = active (sh l) /\ queue (sh l') = []) l.
Proof.
  apply wp_bind, wp_gets. cbn [take_batch]. apply wp_bind, wp_modify, wp_bind, wp_modify, wp_bind, wp_writer.
  eapply wp_mono; [apply reopen_wp|]. intros [] o1 _. apply wp_bind, wp_gets. cbn [take_drops].
  apply wp_bind, wp_modify, wp_bind, wp_writer. eapply wp_mono; [apply report_drops_wp|]. intros [] o2 _.
  apply wp_bind, wp_writer. eapply wp_mono; [apply write_batch_wp|]. intros [] o3 _.
  by apply wp_bind, wp_writer, wp_modify.
Qed.

Lemma shutdown_closes l : ready l -> wp shutdown (fun _ l' => closed l') l.
Proof.
  intros [Ha|C]; [|unfold wp; by rewrite shutdown_idle by apply C].
  apply wp_bind, wp_gets. unfold stop_locked, id. rewrite Ha. cbn [negb].
  apply wp_bind, wp_modify, wp_bind. eapply wp_mono; [apply run_round_wp|]. intros b l1 [H1 H2].
  apply wp_writer, wp_bind, wp_modify, wp_bind, wp_modify, wp_modify. by destruct (file (own l1)).
Qed.

(** A log file that cannot be had leaves the logger as closed as it was. *)
Lemma open_file_ready src o l : closed l -> wp (open_file src o) (fun _ l' => ready l') l.
Proof.
  intros C. pose proof (proj1 C) as Ha. apply wp_bind. unfold wp at 1. rewrite shutdown_idle by done.
  apply wp_bind, wp_gets. unfold id. destruct (make_dirs_total (dir o) (fs (own l))) as [[made f] ->].
  apply wp_bind, wp_writer, wp_modify. destruct made; cbn [negb].
  - apply wp_bind, wp_writer, wp_modify, wp_bind, wp_writer, wp_modify, wp_bind, wp_writer.
    eapply wp_mono; [apply open_current_wp|]. intros ok o1 (_ & Ho & _). apply wp_bind, wp_gets. destruct ok; cbn [negb].
    + apply wp_bind, wp_modify, wp_bind, wp_modify. by left.
    + apply wp_bind. eapply wp_mono; [apply L4LB_LOG_ready; right|].
      * split; [apply C|]. split; [apply C|]. cbn. unfold opened in Ho. by destruct (file o1).
      * intros [] l2 R. by apply wp_bind, wp_writer, wp_modify.
  - apply wp_bind. eapply wp_mono; [apply L4LB_LOG_ready; right; exact C|]. by intros [] l2 R.
Qed.

End Writer.
End LoggerThms.
