(* ===== verification/LoggerSteps.v ===== *)
(** LoggerSteps: the logger's threads, interleaved.

    Any number of callers of emit, the writer thread (Sink::run), a thread that
    opens and shuts the log, the signal handler and the world outside (files
    changed by others, the clock).  A step is a critical section or an atomic
    access, or the writer's work between two of them. *)
From S2P Require Import Prelude Types Mem Text Print Stdio Logger LoggerThms.
From Stdlib Require Import String Ascii.

Module LoggerSteps.
Import Text Print Stdio Logger LoggerThms.

(** Where the writer is; a batch it has taken, and whether it is the last. *)
Inductive Phase :=
| Off                                            (** no thread *)
| Wait                                           (** in wait_for *)
| Got (batch : list string) (stopping : bool)    (** after the critical section *)
| Opened (batch : list string) (stopping : bool) (** after the reopen and the retry *)
| Writing (batch : list string) (stopping : bool)
| Ended.                                         (** left the loop, not joined *)

#[export] Instance Phase_eq_dec : EqDecision Phase.
Proof. solve_decision. Defined.

Record Sys := mkSys {
  lg : Log;
  ph : Phase;
  calls : list (string * bool);   (** pushes that have seen active and wait for the lock *)
  joining : bool;                 (** shutdown is in join *)
}.

Inductive Label :=
| Called (line : string)
| Sync (line : string)            (** written to stderr by the caller *)
| Accept (line : string) (is_urgent : bool)
| Drop (line : string)
| Took
| Reopened
| Reported (d : Z)
| Wrote (line : string)
| Flushed
| Stopped
| Joined
| OpenedFile
| OpenFailed
| Signal
| World.

Section Steps.
Context {L : Libc}.

Definition with_sh (v : Shared) (s : Sys) : Log := set_sh v (lg s).
Definition with_own (v : Own) (s : Sys) : Log := set_own v (lg s).

Inductive step : Sys -> Label -> Sys -> Prop :=
| s_call s l u :
    active (sh (lg s)) = true ->
    step s (Called l) (mkSys (lg s) (ph s) ((l, u) :: calls s) (joining s))
| s_sync s l :
    active (sh (lg s)) = false ->
    step s (Sync l) (mkSys (with_own (to_stderr l (own (lg s))) s) (ph s) (calls s) (joining s))
| s_accept s c1 l u c2 s' :
    calls s = c1 ++ (l, u) :: c2 -> push_locked l u (sh (lg s)) = (Queued, s') ->
    step s (Accept l u) (mkSys (with_sh s' s) (ph s) (c1 ++ c2) (joining s))
| s_drop s c1 l u c2 s' :
    calls s = c1 ++ (l, u) :: c2 -> push_locked l u (sh (lg s)) = (Dropped, s') ->
    step s (Drop l) (mkSys (with_sh s' s) (ph s) (c1 ++ c2) (joining s))
| s_refused s c1 l u c2 s' :
    calls s = c1 ++ (l, u) :: c2 -> push_locked l u (sh (lg s)) = (Refused, s') ->
    step s (Sync l) (mkSys (with_own (to_stderr l (own (lg s))) s) (ph s) (c1 ++ c2) (joining s))
| s_take s b st s' :
    ph s = Wait -> take_batch (sh (lg s)) = (b, st, s') ->
    step s Took (mkSys (with_sh s' s) (Got b st) (calls s) (joining s))
| s_reopen s b st o' :
    ph s = Got b st -> reopen (g_reopen (lg s)) (own (lg s)) = Some (tt, o') ->
    step s Reopened (mkSys (set_reopen false (with_own o' s)) (Opened b st) (calls s) (joining s))
| s_report s b st d s' o' :
    ph s = Opened b st -> take_drops (sh (lg s)) = (d, s') -> report_drops d (own (lg s)) = Some (tt, o') ->
    step s (Reported d) (mkSys (set_sh s' (with_own o' s)) (Writing b st) (calls s) (joining s))
| s_write s l b st o' :
    ph s = Writing (l :: b) st -> write_line 2 l (own (lg s)) = Some (tt, o') ->
    step s (Wrote l) (mkSys (with_own o' s) (Writing b st) (calls s) (joining s))
| s_flush s st o' :
    ph s = Writing [] st -> flush (own (lg s)) = Some (tt, o') ->
    step s Flushed (mkSys (with_own o' s) (if st : bool then Ended else Wait) (calls s) (joining s))
| s_stop s s' :
    stop_locked (sh (lg s)) = (true, s') ->
    step s Stopped (mkSys (with_sh s' s) (ph s) (calls s) true)
| s_join s o' :
    joining s = true -> ph s = Ended -> shutdown_end (own (lg s)) = Some (tt, o') ->
    step s Joined (mkSys (with_own o' s) Off (calls s) false)
| s_open s src o l' :
    ph s = Off -> 0 <= queue_cap o -> open_file src o (lg s) = Some (true, l') ->
    step s OpenedFile (mkSys l' Wait (calls s) (joining s))
| s_open_fail s src o l' :
    ph s = Off -> open_file src o (lg s) = Some (false, l') ->
    step s OpenFailed (mkSys l' Off (calls s) (joining s))
| s_signal s :
    step s Signal (mkSys (request_reopen (lg s)) (ph s) (calls s) (joining s))
| s_world s f t :
    let o := own (lg s) in
    step s World (mkSys (with_own (mkOwn (opts o) (path o) (file o) (size o) f (err o) t) s) (ph s) (calls s) (joining s)).

Inductive steps (s0 : Sys) : list Label -> Sys -> Prop :=
| steps_nil : steps s0 [] s0
| steps_snoc tr s l s' : steps s0 tr s -> step s l s' -> steps s0 (tr ++ [l]) s'.

(** The steps as a function of who moves: the caller at [i] of [calls], the
    writer, and so on. *)
Inductive Move :=
| MCall (line : string) (is_urgent : bool)
| MLock (i : nat)
| MWriter
| MStop
| MJoin
| MOpen (src : string) (o : LogFileOptions)
| MSignal
| MWorld (f : Fs) (t : Tm).

Definition exec (m : Move) (s : Sys) : option (Label * Sys) :=
  let l := lg s in
  match m with
  | MCall line u =>
    if active (sh l) then Some (Called line, mkSys l (ph s) ((line, u) :: calls s) (joining s))
    else Some (Sync line, mkSys (with_own (to_stderr line (own l)) s) (ph s) (calls s) (joining s))
  | MLock i =>
    '(line, u) ← calls s !! i;
    let rest := (take i (calls s) ++ drop (S i) (calls s))%list in
    let '(r, s') := push_locked line u (sh l) in
    Some (match r with
          | Queued => (Accept line u, mkSys (with_sh s' s) (ph s) rest (joining s))
          | Dropped => (Drop line, mkSys (with_sh s' s) (ph s) rest (joining s))
          | Refused => (Sync line, mkSys (with_own (to_stderr line (own l)) s) (ph s) rest (joining s))
          end)
  | MWriter =>
    match ph s with
    | Wait => let '(b, st, s') := take_batch (sh l) in Some (Took, mkSys (with_sh s' s) (Got b st) (calls s) (joining s))
    | Got b st => '(_, o') ← reopen (g_reopen l) (own l);
                  Some (Reopened, mkSys (set_reopen false (with_own o' s)) (Opened b st) (calls s) (joining s))
    | Opened b st => let '(d, s') := take_drops (sh l) in
                     '(_, o') ← report_drops d (own l);
                     Some (Reported d, mkSys (set_sh s' (with_own o' s)) (Writing b st) (calls s) (joining s))
    | Writing (line :: b) st => '(_, o') ← write_line 2 line (own l);
                                Some (Wrote line, mkSys (with_own o' s) (Writing b st) (calls s) (joining s))
    | Writing [] st => '(_, o') ← flush (own l);
                       Some (Flushed, mkSys (with_own o' s) (if st : bool then Ended else Wait) (calls s) (joining s))
    | Off | Ended => None
    end
  | MStop => let '(ok, s') := stop_locked (sh l) in
             if ok : bool then Some (Stopped, mkSys (with_sh s' s) (ph s) (calls s) true) else None
  | MJoin => match joining s, ph s with
             | true, Ended => '(_, o') ← shutdown_end (own l); Some (Joined, mkSys (with_own o' s) Off (calls s) false)
             | _, _ => None
             end
  | MOpen src o => match ph s with
                   | Off => if queue_cap o <? 0 then None else
                            '(ok, l') ← open_file src o l;
                            Some (if ok : bool then (OpenedFile, mkSys l' Wait (calls s) (joining s))
                                  else (OpenFailed, mkSys l' Off (calls s) (joining s)))
                   | _ => None
                   end
  | MSignal => Some (Signal, mkSys (request_reopen l) (ph s) (calls s) (joining s))
  | MWorld f t => let o := own l in
                  Some (World, mkSys (with_own (mkOwn (opts o) (path o) (file o) (size o) f (err o) t) s) (ph s) (calls s) (joining s))
  end.

Fixpoint run_moves (ms : list Move) (tr : list Label) (s : Sys) : option (list Label * Sys) :=
  match ms with
  | [] => Some (tr, s)
  | m :: ms => '(l, s') ← exec m s; run_moves ms (tr ++ [l]) s'
  end.

(** *** What a trace says *)

Definition accepted : list Label -> list string := omap (fun l => match l with Accept x _ => Some x | _ => None end).
Definition written : list Label -> list string := omap (fun l => match l with Wrote x => Some x | _ => None end).
Definition drops : list Label -> list string := omap (fun l => match l with Drop x => Some x | _ => None end).
Definition reported (tr : list Label) : Z := foldr (fun l n => match l with Reported d => d + n | _ => n end) 0 tr.

(** An urgent line was accepted and no batch taken since. *)
Definition urgent_in (q : bool) (l : Label) : bool :=
  match l with Accept _ u => q || u | Took => false | _ => q end.
Definition urgent_waits (tr : list Label) : bool := foldl urgent_in false tr.

Definition batch_of (p : Phase) : list string :=
  match p with Got b _ | Opened b _ | Writing b _ => b | _ => [] end.
Definition last_round (p : Phase) : bool :=
  match p with Got _ st | Opened _ st | Writing _ st => st | Ended => true | _ => false end.

(** The writer has made its last report of dropped lines. *)
Definition reports_done (p : Phase) : bool :=
  match p with Off | Ended => true | Writing _ st => st | _ => false end.

(** *** The invariant *)

(** The start-up of a process: no file, no thread. *)
Definition fresh (s : Sys) : Prop :=
  ph s = Off /\ joining s = false /\ active (sh (lg s)) = false /\ queue (sh (lg s)) = [] /\
  dropped (sh (lg s)) = 0 /\ drop_unreported (sh (lg s)) = 0 /\ 0 <= cap (sh (lg s)).

Record LInv (tr : list Label) (s : Sys) : Prop := {
  inv_lines : accepted tr = (written tr ++ batch_of (ph s) ++ queue (sh (lg s)))%list;
  inv_drops : dropped (sh (lg s)) = u64 (Z.of_nat (List.length (drops tr)));
  inv_unreported : drop_unreported (sh (lg s)) = u64 (Z.of_nat (List.length (drops tr)) - reported tr);
  inv_cap : Z.of_nat (List.length (queue (sh (lg s)))) <= cap (sh (lg s));
  inv_off : ph s = Off -> active (sh (lg s)) = false /\ joining s = false;
  inv_run : ph s <> Off -> active (sh (lg s)) = negb (stop (sh (lg s))) /\ joining s = stop (sh (lg s));
  inv_last : last_round (ph s) = true -> stop (sh (lg s)) = true;
  inv_empty : (ph s = Off \/ last_round (ph s) = true) -> queue (sh (lg s)) = [];
  inv_reports : reports_done (ph s) = true -> drop_unreported (sh (lg s)) = 0;
  inv_urgent : urgent_waits tr = true -> urgent (sh (lg s)) = true /\ queue (sh (lg s)) <> [];
}.

Lemma accepted_snoc tr l : accepted (tr ++ [l]) = (accepted tr ++ match l with Accept x _ => [x] | _ => [] end)%list.
Proof. unfold accepted. rewrite omap_app. by destruct l. Qed.

Lemma written_snoc tr l : written (tr ++ [l]) = (written tr ++ match l with Wrote x => [x] | _ => [] end)%list.
Proof. unfold written. rewrite omap_app. by destruct l. Qed.

Lemma drops_snoc tr l : drops (tr ++ [l]) = (drops tr ++ match l with Drop x => [x] | _ => [] end)%list.
Proof. unfold drops. rewrite omap_app. by destruct l. Qed.

Lemma reported_snoc tr l : reported (tr ++ [l]) = reported tr + match l with Reported d => d | _ => 0 end.
Proof.
  unfold reported. rewrite foldr_app. induction tr as [|x tr IH]; cbn in *; [by destruct l; rewrite ?Z.add_0_r|].
  rewrite IH. destruct x; lia.
Qed.

Lemma urgent_snoc tr l : urgent_waits (tr ++ [l]) = urgent_in (urgent_waits tr) l.
Proof. apply foldl_snoc. Qed.

Lemma u64_pred x y : u64 (u64 x + y) = u64 (x + y).
Proof. unfold u64. apply Zplus_mod_idemp_l. Qed.

Ltac trace := rewrite ?accepted_snoc, ?written_snoc, ?drops_snoc, ?reported_snoc, ?urgent_snoc;
  cbn [urgent_in]; rewrite ?app_nil_r, ?Z.add_0_r.

Lemma LInv_start s : fresh s -> LInv [] s.
Proof.
  intros (H1 & H2 & H3 & H4 & H5 & H6 & H7). split; rewrite ?H1, ?H4, ?H5, ?H6; cbn; try done; lia.
Qed.

(** Steps that leave the queue and the counters alone. *)
Lemma LInv_own tr s l s' :
  LInv tr s -> sh (lg s') = sh (lg s) -> joining s' = joining s ->
  (ph s' = Off <-> ph s = Off) -> last_round (ph s') = last_round (ph s) ->
  (reports_done (ph s') = true -> reports_done (ph s) = true) ->
  match l with
  | Wrote x => batch_of (ph s) = x :: batch_of (ph s')
  | Accept _ _ | Drop _ | Reported _ | Took => False
  | _ => batch_of (ph s') = batch_of (ph s)
  end -> LInv (tr ++ [l]) s'.
Proof.
  intros [H1 H2 H3 H4 H5 H6 H7 H8 HR H9] Hsh Hj Hp Hr Hd Hl.
  assert (Hp' : ph s' <> Off <-> ph s <> Off) by tauto.
  split; rewrite ?Hsh, ?Hj, ?Hr, ?Hp, ?Hp'; try done;
    try (intros Hx; apply HR, Hd, Hx);
    destruct l; try done; trace; rewrite ?H1, ?Hl, <- ?app_assoc; try done.
Qed.

(** A push in its critical section. *)
Lemma LInv_push tr s l u r s' c :
  LInv tr s -> push_locked l u (sh (lg s)) = (r, s') ->
  match r with
  | Queued => LInv (tr ++ [Accept l u]) (mkSys (with_sh s' s) (ph s) c (joining s))
  | Dropped => LInv (tr ++ [Drop l]) (mkSys (with_sh s' s) (ph s) c (joining s))
  | Refused => True
  end.
Proof.
  intros [H1 H2 H3 H4 H5 H6 H7 H8 HR H9]. unfold push_locked.
  destruct (active (sh (lg s))) eqn:Ha; cbn [negb]; [|by intros [= <- <-]].
  assert (Hrun : ph s <> Off) by (intros E; destruct (H5 E); congruence).
  destruct (H6 Hrun) as [Hst _]. symmetry in Hst. apply negb_true_iff in Hst.
  assert (Hlr : last_round (ph s) = false) by (destruct (last_round _) eqn:E; [rewrite (H7 eq_refl) in Hst; done|done]).
  assert (Hrd : reports_done (ph s) = false) by (destruct (ph s); done).
  destruct (_ >=? cap _) eqn:Ec; intros [= <- <-]; bprop.
  - split; cbn; trace; rewrite ?length_app; cbn [List.length]; try done; try congruence.
    + rewrite H2, u64_pred. f_equal. lia.
    + rewrite H3, u64_pred. f_equal. lia.
  - split; cbn; trace; try done; try congruence.
    + by rewrite H1, <- !app_assoc.
    + rewrite length_app. cbn. lia.
    + intros [|]; congruence.
    + intros Hu. split; [|by destruct (queue _)].
      destruct u; [by rewrite orb_true_r|]. rewrite orb_false_r in *. cbn.
      destruct (H9 Hu) as [-> _]. by destruct (_ =? _).
Qed.

Lemma LInv_take tr s b st s' :
  LInv tr s -> ph s = Wait -> take_batch (sh (lg s)) = (b, st, s') ->
  LInv (tr ++ [Took]) (mkSys (with_sh s' s) (Got b st) (calls s) (joining s)).
Proof.
  intros [H1 H2 H3 H4 H5 H6 H7 H8 HR H9] Hp [= <- <- <-]. rewrite Hp in *.
  split; cbn; trace; try done.
  - pose proof (Zle_0_nat (List.length (queue (sh (lg s))))). lia.
  - intros _. by apply H6.
Qed.

Lemma LInv_report tr s b st d s' o' :
  LInv tr s -> ph s = Opened b st -> take_drops (sh (lg s)) = (d, s') ->
  LInv (tr ++ [Reported d]) (mkSys (set_sh s' (with_own o' s)) (Writing b st) (calls s) (joining s)).
Proof.
  intros [H1 H2 H3 H4 H5 H6 H7 H8 HR H9] Hp [= <- <-]. rewrite Hp in *.
  split; cbn; trace; try done.
  - rewrite H3. symmetry. rewrite Z.sub_add_distr. set (x := _ - reported tr).
    unfold u64. rewrite Zminus_mod_idemp_r, Z.sub_diag. done.
  - intros _. by apply H6.
  - intros [|E]; [done|]. by apply H8; right.
Qed.

Lemma LInv_stop tr s s' :
  LInv tr s -> stop_locked (sh (lg s)) = (true, s') ->
  LInv (tr ++ [Stopped]) (mkSys (with_sh s' s) (ph s) (calls s) true).
Proof.
  intros [H1 H2 H3 H4 H5 H6 H7 H8 HR H9]. unfold stop_locked.
  destruct (active (sh (lg s))) eqn:Ha; [|done]. intros [= <-].
  split; cbn; trace; try done. intros E. destruct (H5 E). congruence.
Qed.

Lemma LInv_open tr s src o l' :
  LInv tr s -> ph s = Off -> 0 <= queue_cap o -> open_file src o (lg s) = Some (true, l') ->
  LInv (tr ++ [OpenedFile]) (mkSys l' Wait (calls s) (joining s)).
Proof.
  intros [H1 H2 H3 H4 H5 H6 H7 H8 HR H9] Hp Hc Ho. destruct (H5 Hp) as [Ha Hj].
  pose proof (open_file_wp src o (lg s) Ha) as Hw. unfold wp in Hw. rewrite Ho in Hw. cbn in Hw.
  rewrite Hp in *. pose proof (H8 (or_introl eq_refl)) as Hq. rewrite Hq in *.
  split; cbn; rewrite ?Hw; cbn; trace; rewrite ?Hq; try done.
  - destruct (queue_cap o =? 0) eqn:E; cbn; bprop; lia.
  - intros Hu. by destruct (H9 Hu).
Qed.

Lemma LInv_step tr s l s' : LInv tr s -> step s l s' -> LInv (tr ++ [l]) s'.
Proof.
  intros HI Hs. destruct Hs.
  - by eapply LInv_own.
  - by eapply LInv_own.
  - eapply (LInv_push tr s l u Queued); eauto.
  - eapply (LInv_push tr s l u Dropped); eauto.
  - by eapply LInv_own.
  - by eapply LInv_take.
  - eapply LInv_own; cbn; try done; by rewrite H.
  - by eapply LInv_report.
  - eapply LInv_own; cbn; try done; by rewrite H.
  - eapply LInv_own; cbn; try done; rewrite H; by destruct st.
  - by eapply LInv_stop.
  - destruct HI as [H2 H3 H4 H5 H6 H7 H8 H9 HR H10]. rewrite H0 in *.
    assert (Hq : queue (sh (lg s)) = []) by (apply H9; by right).
    split; cbn; trace; try done. intros _. split; [|done]. destruct (H7 ltac:(done)) as [-> _].
    by rewrite H8.
  - by eapply LInv_open.
  - destruct (inv_off _ _ HI H) as [Ha _].
    pose proof (open_file_wp src o (lg s) Ha) as Hw. unfold wp in Hw. rewrite H0 in Hw. cbn in Hw.
    eapply LInv_own; cbn; try done; by rewrite H.
  - by eapply LInv_own.
  - by eapply LInv_own.
Qed.

Lemma LInv_steps s0 tr s : fresh s0 -> steps s0 tr s -> LInv tr s.
Proof. intros H0. induction 1; [by apply LInv_start|by eapply LInv_step]. Qed.

Lemma exec_step m s l s' : exec m s = Some (l, s') -> step s l s'.
Proof.
  destruct m; unfold exec; cbv zeta; intros H.
  - destruct (active _) eqn:E; injection H as <- <-; by constructor.
  - apply bind_Some in H as ([line u] & Hi & H).
    pose proof (take_drop_middle _ _ _ Hi) as Hc. symmetry in Hc.
    destruct (push_locked line u _) as [r s1] eqn:E.
    destruct r; injection H as <- <-; econstructor; eauto.
  - destruct (ph s) as [| |b st|b st|[|line b] st|] eqn:Hp; try done.
    + injection H as <- <-. by econstructor.
    + apply bind_Some in H as ([[] o'] & Ho & [= <- <-]). by econstructor.
    + apply bind_Some in H as ([[] o'] & Ho & [= <- <-]). by econstructor.
    + apply bind_Some in H as ([[] o'] & Ho & [= <- <-]). by econstructor.
    + apply bind_Some in H as ([[] o'] & Ho & [= <- <-]). by econstructor.
  - destruct (stop_locked _) as [[] s1] eqn:E; [|done]. injection H as <- <-. by constructor.
  - destruct (joining s) eqn:Hj, (ph s) eqn:Hp; try done.
    apply bind_Some in H as ([[] o'] & Ho & [= <- <-]). by econstructor.
  - destruct (ph s) eqn:Hp; try done. destruct (_ <? 0) eqn:E; [done|]. bprop.
    apply bind_Some in H as ([[] l1] & Ho & [= <- <-]); by econstructor.
  - injection H as <- <-. constructor.
  - injection H as <- <-. apply (s_world s f t).
Qed.

Lemma run_moves_steps s0 ms tr0 s1 tr s :
  steps s0 tr0 s1 -> run_moves ms tr0 s1 = Some (tr, s) -> steps s0 tr s.
Proof.
  revert tr0 s1. induction ms as [|m ms IH]; intros tr0 s1 H0 H; [by injection H as <- <-|].
  apply bind_Some in H as ([l s2] & Hm%exec_step & H). eapply IH; [|exact H]. by econstructor.
Qed.

(** *** The writer gets to the end *)

Definition writer_label (l : Label) : bool :=
  match l with Took | Reopened | Reported _ | Wrote _ | Flushed => true | _ => false end.

(** The steps the writer has left once it is told to stop. *)
Definition work (s : Sys) : nat :=
  let q := List.length (queue (sh (lg s))) in
  let again (st : bool) := if st then 0%nat else (4 + q)%nat in
  match ph s with
  | Off | Ended => 0
  | Wait => 4 + q
  | Got b st => 3 + List.length b + again st
  | Opened b st => 2 + List.length b + again st
  | Writing b st => 1 + List.length b + again st
  end.

(** The log is being shut, or is shut. *)
Definition closing (s : Sys) : Prop := ph s = Off \/ stop (sh (lg s)) = true.

Lemma work_sh s l' c j : sh l' = sh (lg s) -> work (mkSys l' (ph s) c j) = work s.
Proof. unfold work. cbn. by intros ->. Qed.

Lemma closing_inactive tr s : LInv tr s -> closing s -> active (sh (lg s)) = false.
Proof.
  intros HI [H|H]; [apply (inv_off _ _ HI H)|].
  destruct (decide (ph s = Off)) as [E|E]; [apply (inv_off _ _ HI E)|].
  destruct (inv_run _ _ HI E) as [-> _]. by rewrite H.
Qed.

Lemma work_step tr s l s' : LInv tr s -> closing s -> l <> OpenedFile -> step s l s' ->
  closing s' /\ (work s' + (if writer_label l then 1 else 0) <= work s)%nat.
Proof.
  intros HI Hc Hl Hs. pose proof (closing_inactive _ _ HI Hc) as Ha.
  assert (Hoff : ph s <> Off -> stop (sh (lg s)) = true) by (destruct Hc; tauto).
  assert (Hpush : forall x u r s', push_locked x u (sh (lg s)) = (r, s') -> r = Refused).
  { intros x u r s1 H. unfold push_locked in H. rewrite Ha in H. by injection H. }
  destruct Hs; try done; try congruence;
    try (apply Hpush in H0; done);
    try (split; [exact Hc|]; rewrite work_sh by done; cbn; lia).
  - injection H0 as <- <- <-. rewrite H in *. split; [right; by apply Hoff|].
    unfold work. rewrite H. cbn. rewrite Hoff by done. lia.
  - rewrite H in *. split; [right; by apply Hoff|]. unfold work. rewrite H. cbn. lia.
  - injection H0 as <- <-. rewrite H in *. split; [right; by apply Hoff|]. unfold work. rewrite H. cbn. lia.
  - rewrite H in *. split; [right; by apply Hoff|]. unfold work. rewrite H. cbn. lia.
  - rewrite H in *. split; [right; by apply Hoff|]. unfold work. rewrite H. cbn. destruct st; cbn; lia.
  - unfold stop_locked in H. rewrite Ha in H. done.
  - split; [by left|]. unfold work. rewrite H0. cbn. lia.
  - split; [by left|]. unfold work. rewrite H. cbn. lia.
Qed.

Lemma work_steps tr1 s tr s' : LInv tr1 s -> closing s -> OpenedFile ∉ tr -> steps s tr s' ->
  LInv (tr1 ++ tr) s' /\ closing s' /\ (work s' + List.length (filter writer_label tr) <= work s)%nat.
Proof.
  intros HI Hc Hn Hs. induction Hs as [|tr s1 l s2 Hs IH Hl].
  - rewrite app_nil_r. split; [done|]. split; [done|]. cbn. lia.
  - apply not_elem_of_app in Hn as [Hn1 Hn2]. destruct (IH Hn1) as (HI1 & Hc1 & Hw).
    assert (Hno : l <> OpenedFile) by (intros E; apply Hn2; rewrite E; constructor).
    destruct (work_step _ _ _ _ HI1 Hc1 Hno Hl) as [Hc2 Hw2].
    split; [rewrite app_assoc; by eapply LInv_step|]. split; [done|].
    assert (List.length (filter writer_label [l]) = if writer_label l then 1%nat else 0%nat) as Hl1 by by destruct l.
    rewrite filter_app, length_app, Hl1. lia.
Qed.

(** Whenever there is something left to do, the writer can move. *)
Lemma writer_enabled tr s : LInv tr s -> ph s <> Off -> ph s <> Ended ->
  exists l s', step s l s' /\ writer_label l = true.
Proof.
  intros HI H1 H2. destruct (ph s) as [| |b st|b st|[|line b] st|] eqn:Hp; try done.
  - eexists _, _. split; [eapply s_take; [done|]; unfold take_batch; reflexivity|done].
  - destruct (proj1 (wp_run _ _ _) (reopen_wp (g_reopen (lg s)) (own (lg s)))) as ([] & o' & Ho & _).
    eexists _, _. split; [by eapply s_reopen|done].
  - destruct (take_drops (sh (lg s))) as [d s1] eqn:E.
    destruct (proj1 (wp_run _ _ _) (report_drops_wp d (own (lg s)))) as ([] & o' & Ho & _).
    eexists _, _. split; [by eapply s_report|done].
  - destruct (proj1 (wp_run _ _ _) (flush_wp (own (lg s)))) as ([] & o' & Ho & _).
    eexists _, _. split; [by eapply s_flush|done].
  - destruct (proj1 (wp_run _ _ _) (write_line_wp 0 line (own (lg s)))) as ([] & o' & Ho & _).
    eexists _, _. split; [by eapply s_write|done].
Qed.

(** *** The file *)

(** What was in the stream's buffer is in the file it was opened on, and the
    logger has no stream any more. *)
Definition file_closed (o o' : Own) : Prop :=
  file o' = None /\
  forall f, file o = Some f -> data (fs o') (f_ino f) = String.append (data (fs o) (f_ino f)) (f_buf f).

Lemma shutdown_end_closes o : exists o', shutdown_end o = Some (tt, o') /\ file_closed o o'.
Proof.
  eexists. split; [reflexivity|]. split; [done|]. intros f Hf. rewrite Hf. cbn. unfold data at 1. cbn.
  by rewrite lookup_insert_eq.
Qed.

(** With no thread there is no open file, until the log is opened again. *)
Lemma off_closed tr s l s' : LInv tr s -> step s l s' -> l <> OpenedFile ->
  (ph s = Off -> file (own (lg s)) = None) -> ph s' = Off -> file (own (lg s')) = None.
Proof.
  intros HI Hs Hl Hf Hp. destruct Hs; cbn in *; try congruence; try (by apply Hf).
  - by destruct st.
  - destruct (shutdown_end_closes (own (lg s))) as (o1 & Ho & [Hc _]). congruence.
  - destruct (inv_off _ _ HI H) as [Ha _].
    pose proof (open_file_fails src o (lg s) Ha (Hf H)) as Hw. unfold wp in Hw. rewrite H0 in Hw. by apply Hw.
Qed.

Lemma off_closed_steps tr1 s tr s' : LInv tr1 s -> steps s tr s' -> OpenedFile ∉ tr ->
  (ph s = Off -> file (own (lg s)) = None) -> ph s' = Off -> file (own (lg s')) = None.
Proof.
  intros HI Hs Hn Hf. induction Hs as [|tr s1 l s2 Hs IH Hl]; [done|].
  apply not_elem_of_app in Hn as [Hn1 Hn2].
  assert (Hno : l <> OpenedFile) by (intros E; apply Hn2; rewrite E; constructor).
  assert (HI1 : LInv (tr1 ++ tr) s1).
  { clear - HI Hs. induction Hs; [by rewrite app_nil_r|]. rewrite app_assoc. by eapply LInv_step. }
  eapply off_closed; eauto.
Qed.

(** Once the writer has left its loop, shutdown goes on. *)
Lemma join_enabled tr s : LInv tr s -> ph s = Ended ->
  exists s', step s Joined s' /\ ph s' = Off /\ file_closed (own (lg s)) (own (lg s')).
Proof.
  intros HI Hp. destruct (shutdown_end_closes (own (lg s))) as (o' & Ho & Hc).
  assert (Hj : joining s = true).
  { destruct (inv_run _ _ HI) as [_ ->]; [by rewrite Hp|]. apply (inv_last _ _ HI). by rewrite Hp. }
  eexists. split; [by eapply s_join|]. by split.
Qed.

End Steps.
End LoggerSteps.
