(* ===== verification/LoggerRotate.v ===== *)
(** LoggerRotate: the rotating files refine a list of segments.

    [Segs] is the abstract log: the text of the current file and of the old
    ones, newest first.  [Rep] relates it to the writer's file and the file
    system. *)
From S2P Require Import Prelude Types Mem Text Print Stdio Logger LoggerThms.
From stdpp Require Import strings.
From Stdlib Require Import String Ascii.

Module LoggerRotate.
Import Text Print Stdio Logger LoggerThms.
Local Open Scope Z_scope.

(** ** The abstract log *)

Record Segs := mkSegs { old : list string; cur : string }.

Definition slen (s : string) : Z := Z.of_nat (String.length s).

Definition seg_write (max_size : Z) (max_files : nat) (line : string) (s : Segs) : Segs :=
  let c := String.append (cur s) line in
  if negb (max_size =? 0) && (slen c >=? max_size) then mkSegs (take max_files (c :: old s)) EmptyString
  else mkSegs (old s) c.

Definition seg_writes (max_size : Z) (max_files : nat) (lines : list string) (s : Segs) : Segs :=
  foldl (fun s l => seg_write max_size max_files l s) s lines.

(** The text of all files, oldest first. *)
Definition seg_text (s : Segs) : string := String.append (cat (rev (old s))) (cur s).

(** ** Names *)

Fixpoint no_slash (s : string) : bool :=
  match s with
  | EmptyString => true
  | String c s => negb (c =? "/")%char && no_slash s
  end.

(** [p] names a file [nm] (not empty) in the directory [pre]. *)
Definition names (p : string) (pre : list string) (nm : string) : Prop :=
  forall s, no_slash s = true -> resolve (String.append p s) = (absolute p, pre ++ [String.append nm s])%list.

(** The file with number [i]; 0 is the current one. *)
Definition key (p : string) (i : nat) : Path :=
  match i with O => resolve p | S _ => resolve (old_name p (Z.of_nat i)) end.

#[global] Arguments key : simpl never.

(** What is on disk under a path. *)
Definition disk (f : Fs) (q : Path) : option string :=
  match fs_node f !! q with Some (File i) => Some (data f i) | _ => None end.

Record Rep (p : string) (n : nat) (o : Own) (s : Segs) : Prop := {
  rep_path : path o = p;
  rep_files : max_files (opts o) = Z.of_nat n;
  rep_file : exists f, file o = Some f /\ fs_node (fs o) !! key p 0 = Some (File (f_ino f)) /\
    String.append (data (fs o) (f_ino f)) (f_buf f) = cur s /\ (f_ino f < fs_next (fs o))%nat /\
    forall i, (i < n)%nat ->
      match old s !! i with
      | Some t => exists j, fs_node (fs o) !! key p (S i) = Some (File j) /\ data (fs o) j = t /\
                            (j < fs_next (fs o))%nat /\ j <> f_ino f
      | None => fs_node (fs o) !! key p (S i) = None
      end;
  rep_size : size o = slen (cur s);
  rep_len : (List.length (old s) <= n)%nat;
  rep_rw : fs_ro (fs o) = false;
  rep_dir : is_dir (fs o) (parent (key p 0)) = true;
}.

(** ** Facts about names *)

Lemma no_slash_append s t : no_slash (String.append s t) = no_slash s && no_slash t.
Proof. induction s as [|c s IH]; [done|]. rewrite append_cons. cbn. rewrite IH. by rewrite andb_assoc. Qed.

Lemma decimal_no_slash fuel n : 0 <= n -> no_slash (decimal_digits fuel n) = true.
Proof.
  revert n. induction fuel as [|fuel IH]; intros n Hn; [done|]. cbn [decimal_digits].
  rewrite no_slash_append. apply andb_true_iff. split.
  - destruct (n <? 10); [done|]. apply IH. apply Z.div_pos; lia.
  - cbn. rewrite andb_true_r. pose proof (Z.mod_pos_bound n 10 ltac:(lia)) as Hm.
    destruct (digit_cases (n mod 10)) as (k & Hk & ->); [lia|].
    do 16 (destruct k as [|k]; [done|]). lia.
Qed.

Section Names.
Context {L : Libc} {p : string} {pre : list string} {nm : string} (Hp : names p pre nm).
Context {n : nat} (Hn : is_u32 (Z.of_nat n)).

Lemma key_0 : key p 0 = (absolute p, pre ++ [nm])%list.
Proof.
  pose proof (Hp EmptyString eq_refl) as H. by rewrite !append_nil_r in H.
Qed.

Lemma key_S i : key p (S i) = (absolute p, pre ++ [String.append nm (String.append "." (to_string (Z.of_nat (S i))))])%list.
Proof.
  cbn [key]. unfold old_name. apply Hp. rewrite no_slash_append. apply (decimal_no_slash 20). lia.
Qed.

Lemma key_inj i j : (i <= n)%nat -> (j <= n)%nat -> key p i = key p j -> i = j.
Proof.
  assert (H0 : forall k, nm <> String.append nm (String.append "." k)).
  { intros k E. apply (f_equal String.length) in E. rewrite !length_append in E. cbn in E. lia. }
  unfold is_u32 in Hn. intros Hi Hj. destruct i as [|i], j as [|j]; rewrite ?key_0, ?key_S; intros E; [done| | |].
  - injection E as E. apply app_inj_tail in E as [_ E]. by apply H0 in E.
  - injection E as E. apply app_inj_tail in E as [_ E]. symmetry in E. by apply H0 in E.
  - injection E as E. apply app_inj_tail in E as [_ E]. apply append_inv_head in E.
    injection E as E. apply to_string_inj in E; unfold is_u64; lia.
Qed.

Lemma key_ne i j : (i <= n)%nat -> (j <= n)%nat -> i <> j -> key p i <> key p j.
Proof. intros Hi Hj H E. apply H. by apply key_inj. Qed.

Lemma key_parent i : parent (key p i) = (absolute p, pre).
Proof.
  destruct i as [|i]; rewrite ?key_0, ?key_S; unfold parent; cbn [fst snd]; by rewrite removelast_last.
Qed.

Lemma parent_not_key i : (absolute p, pre) <> key p i.
Proof.
  destruct i as [|i]; rewrite ?key_0, ?key_S; intros [= E];
    apply (f_equal List.length) in E; rewrite length_app in E; cbn in E; lia.
Qed.


(** ** Renaming *)

(** Files that are no directories, in a directory that can be changed. *)
Definition movable (f : Fs) : Prop :=
  fs_ro f = false /\ is_dir f (absolute p, pre) = true /\ forall i, (i <= n)%nat -> fs_node f !! key p i <> Some Dir.

(** Everything but the names stays. *)
Definition only_names (f f' : Fs) : Prop :=
  fs_data f' = fs_data f /\ fs_next f' = fs_next f /\ fs_ro f' = fs_ro f /\
  forall q, (forall i, (i <= n)%nat -> q <> key p i) -> fs_node f' !! q = fs_node f !! q.

Lemma only_names_trans f g h : only_names f g -> only_names g h -> only_names f h.
Proof.
  intros (A1 & A2 & A3 & A4) (B1 & B2 & B3 & B4). split; [congruence|]. split; [congruence|]. split; [congruence|].
  intros q Hq. rewrite B4, A4; auto.
Qed.

Lemma is_dir_other f f' q : fs_node f' !! q = fs_node f !! q -> is_dir f' q = is_dir f q.
Proof. intros H. unfold is_dir. rewrite H. done. Qed.

Lemma only_names_movable f f' : movable f -> only_names f f' ->
  (forall i, (i <= n)%nat -> fs_node f' !! key p i <> Some Dir) -> movable f'.
Proof.
  intros (H1 & H2 & H3) (_ & _ & H4 & H5) H. split; [congruence|]. split; [|done].
  rewrite (is_dir_other f); [done|]. apply H5. intros i _. apply parent_not_key.
Qed.

Definition name_of (i : nat) : string := match i with O => p | S _ => old_name p (Z.of_nat i) end.

Lemma name_key i : resolve (name_of i) = key p i.
Proof. by destruct i. Qed.

Lemma rename_key i j f : movable f -> (i <= n)%nat -> (j <= n)%nat ->
  let f' := rename (name_of i) (name_of j) f in
  only_names f f' /\
  fs_node f' = match fs_node f !! key p i with
               | Some x => <[key p j := x]> (delete (key p i) (fs_node f))
               | None => fs_node f
               end.
Proof.
  intros (H1 & H2 & H3) Hi Hj. unfold rename. rewrite !name_key, key_parent, H2, H1. cbn [negb].
  specialize (H3 i Hi) as Hni. specialize (H3 j Hj) as Hnj.
  destruct (fs_node f !! key p i) as [[|x]|] eqn:Ei; [done| |by split].
  assert (Hq : forall q, (forall k, (k <= n)%nat -> q <> key p k) ->
    <[key p j := File x]> (delete (key p i) (fs_node f)) !! q = fs_node f !! q).
  { intros q Hq. rewrite lookup_insert_ne, lookup_delete_ne by (intros E; symmetry in E; revert E; by apply Hq). done. }
  by destruct (fs_node f !! key p j) as [[|y]|]; [done| |].
Qed.

Lemma remove_key i f : movable f -> (i <= n)%nat ->
  let f' := remove (name_of i) f in
  only_names f f' /\ fs_node f' = delete (key p i) (fs_node f).
Proof.
  intros (H1 & H2 & H3) Hi. unfold remove. rewrite name_key, H1. specialize (H3 i Hi).
  destruct (fs_node f !! key p i) as [[|x]|] eqn:Ei; [done| |].
  - split; [|done]. split; [done|]. split; [done|]. split; [done|]. intros q Hq. cbn.
    apply lookup_delete_ne. intros E. by apply (Hq i Hi).
  - split; [done|]. by rewrite delete_id.
Qed.

(** The loop moves every name up by one. *)
Lemma shift_names_spec k f : movable f -> (k < n)%nat -> fs_node f !! key p (S k) = None ->
  let f' := shift_names p k f in
  only_names f f' /\ movable f' /\
  fs_node f' !! key p 1 = None /\ fs_node f' !! key p 0 = fs_node f !! key p 0 /\
  (forall i, (i < k)%nat -> fs_node f' !! key p (S (S i)) = fs_node f !! key p (S i)) /\
  (forall i, (S k < i <= n)%nat -> fs_node f' !! key p i = fs_node f !! key p i).
Proof.
  revert f. induction k as [|k IH]; intros f Hm Hk Hnone f'.
  { subst f'. repeat split; try done; [apply Hm..|]. intros i Hi. lia. }
  subst f'. cbn [shift_names].
  destruct (rename_key (S k) (S (S k)) f Hm ltac:(lia) ltac:(lia)) as [Ho He].
  cbn [name_of] in Ho, He. set (g := rename _ _ f) in *.
  assert (Hg1 : fs_node g !! key p (S k) = None).
  { rewrite He. destruct (fs_node f !! key p (S k)) eqn:E; [|done].
    rewrite lookup_insert_ne, lookup_delete_eq; [done|]. apply key_ne; lia. }
  assert (Hg2 : fs_node g !! key p (S (S k)) = fs_node f !! key p (S k)).
  { rewrite He. destruct (fs_node f !! key p (S k)) eqn:E; [|done]. by rewrite lookup_insert_eq. }
  assert (Hg3 : forall i, (i <= n)%nat -> i <> S k -> i <> S (S k) -> fs_node g !! key p i = fs_node f !! key p i).
  { intros i Hi H1 H2. rewrite He. destruct (fs_node f !! key p (S k)) eqn:E; [|done].
    rewrite lookup_insert_ne, lookup_delete_ne; [done| |]; apply key_ne; lia. }
  assert (Hmg : movable g).
  { eapply only_names_movable; [done|exact Ho|]. intros i Hi.
    destruct (decide (i = S k)) as [->|]; [by rewrite Hg1|].
    destruct (decide (i = S (S k))) as [->|]; [rewrite Hg2; apply Hm; lia|]. rewrite Hg3 by done. by apply Hm. }
  destruct (IH g Hmg ltac:(lia) Hg1) as (A1 & A2 & A3 & A4 & A5 & A6).
  split; [by eapply only_names_trans|]. split; [done|]. split; [done|].
  split; [rewrite A4; apply Hg3; lia|]. split.
  - intros i Hi. destruct (decide (i = k)) as [->|]; [rewrite A6 by lia; apply Hg2|].
    rewrite A5 by lia. apply Hg3; lia.
  - intros i Hi. rewrite A6 by lia. apply Hg3; lia.
Qed.

(** Rotation: number [i] becomes number [i + 1], the last one is gone and the
    current name is free. *)
Lemma rotate_names_spec f : movable f ->
  let f' := rotate_names p (Z.of_nat n) f in
  only_names f f' /\ movable f' /\ fs_node f' !! key p 0 = None /\
  forall i, (i < n)%nat -> fs_node f' !! key p (S i) = fs_node f !! key p i.
Proof.
  intros Hm f'. subst f'. unfold rotate_names. destruct (Z.of_nat n =? 0) eqn:E0; bprop.
  - destruct (remove_key 0 f Hm ltac:(lia)) as [Ho He]. cbn [name_of] in Ho, He.
    set (g := remove p f) in *.
    assert (H0 : fs_node g !! key p 0 = None) by (rewrite He; apply lookup_delete_eq).
    split; [done|]. split; [|split; [done|lia]].
    eapply only_names_movable; [done|exact Ho|]. intros i Hi. replace i with 0%nat by lia. by rewrite H0.
  - assert (exists m, n = S m) as [m En] by (exists (pred n); lia).
    destruct (remove_key n f Hm ltac:(lia)) as [Ho He].
    replace (name_of n) with (old_name p (Z.of_nat n)) in Ho, He by (by rewrite En).
    set (g := remove (old_name p (Z.of_nat n)) f) in *.
    assert (Hg1 : fs_node g !! key p n = None) by (rewrite He; apply lookup_delete_eq).
    assert (Hg2 : forall i, (i < n)%nat -> fs_node g !! key p i = fs_node f !! key p i).
    { intros i Hi. rewrite He. apply lookup_delete_ne. apply key_ne; lia. }
    assert (Hmg : movable g).
    { eapply only_names_movable; [done|exact Ho|]. intros i Hi.
      destruct (decide (i = n)) as [->|]; [by rewrite Hg1|]. rewrite Hg2 by lia. by apply Hm. }
    replace (Z.to_nat (Z.of_nat n - 1)) with m by lia.
    destruct (shift_names_spec m g Hmg ltac:(lia) ltac:(by rewrite <- En)) as (A1 & A2 & A3 & A4 & A5 & _).
    set (h := shift_names p m g) in *.
    destruct (rename_key 0 1 h A2 ltac:(lia) ltac:(lia)) as [Bo Be].
    change (name_of 0) with p in Bo, Be. change (name_of 1) with (old_name p 1) in Bo, Be.
    set (r := rename p (old_name p 1) h) in *.
    assert (Hr0 : fs_node r !! key p 0 = None).
    { rewrite Be. destruct (fs_node h !! key p 0) eqn:E; [|done].
      rewrite lookup_insert_ne, lookup_delete_eq; [done|]. apply key_ne; lia. }
    assert (Hr1 : fs_node r !! key p 1 = fs_node f !! key p 0).
    { rewrite Be, A4, Hg2 by lia. destruct (fs_node f !! key p 0) eqn:E; [by rewrite lookup_insert_eq|done]. }
    assert (Hr2 : forall i, (i < m)%nat -> fs_node r !! key p (S (S i)) = fs_node f !! key p (S i)).
    { intros i Hi. rewrite <- Hg2, <- A5 by lia. rewrite Be.
      destruct (fs_node h !! key p 0) eqn:E; [|done].
      rewrite lookup_insert_ne, lookup_delete_ne; [done| |]; apply key_ne; lia. }
    split; [eapply only_names_trans; [exact Ho|]; eapply only_names_trans; [exact A1|exact Bo]|].
    assert (Hr : forall i, (i < n)%nat -> fs_node r !! key p (S i) = fs_node f !! key p i).
    { intros [|i] Hi; [done|]. apply Hr2. lia. }
    split; [|by split]. eapply only_names_movable; [exact A2|exact Bo|].
    intros [|i] Hi; [by rewrite Hr0|]. rewrite Hr by lia. apply Hm. lia.
Qed.

(** ** The writer refines the abstract log *)

(** Paths that are no names of the log are left alone. *)
Definition others (f f' : Fs) : Prop :=
  forall q, (forall i, (i <= n)%nat -> q <> key p i) -> fs_node f' !! q = fs_node f !! q.

Lemma rep_movable o s : Rep p n o s -> movable (fs o).
Proof.
  intros [H1 H2 (f & Hf & Hk & Hd & Hi & Ho) H3 H4 H5 H6].
  rewrite key_parent in H6. split; [done|]. split; [done|]. intros [|i] Hi'; [by rewrite Hk|].
  specialize (Ho i ltac:(lia)). destruct (old s !! i); [destruct Ho as (j & -> & _)|rewrite Ho]; done.
Qed.

Lemma data_insert_ne f i j t : i <> j -> data (set_data (<[i := t]> (fs_data f)) f) j = data f j.
Proof. intros H. unfold data. cbn. by rewrite lookup_insert_ne. Qed.

Lemma data_insert f i t : data (set_data (<[i := t]> (fs_data f)) f) i = t.
Proof. unfold data. cbn. by rewrite lookup_insert_eq. Qed.

(** Closing, renaming and opening a new file, as one function of the file system. *)
Lemma rotate_rep nt o s : Rep p n o s ->
  wp (rotate nt) (fun _ o' => Rep p n o' (mkSegs (take n (cur s :: old s)) EmptyString) /\
    same_log o o' /\ err o' = err o /\ others (fs o) (fs o')) o.
Proof.
  intros HR. pose proof (rep_movable _ _ HR) as Hm.
  destruct HR as [H1 H2 (f & Hf & Hk & Hd & Hi & Ho) H3 H4 H5 H6].
  set (g := fclose f (fs o)).
  assert (Hmg : movable g) by exact Hm.
  destruct (rotate_names_spec g Hmg) as ((A1 & A2 & A3 & A4) & (B1 & B2 & B3) & C0 & C1).
  set (r := rotate_names p (Z.of_nat n) g) in *.
  assert (Hopen : fopen_a p r = (Some (mkFILE (fs_next r) EmptyString), new_file (key p 0) r)).
  { unfold fopen_a. fold (key p 0). by rewrite C0, key_parent, B2, B1. }
  assert (Hnew : ftell_end (mkFILE (fs_next r) EmptyString) (new_file (key p 0) r) = 0).
  { unfold ftell_end, data. cbn. by rewrite lookup_insert_eq. }
  unfold rotate. apply wp_bind, wp_modify, wp_bind, wp_modify, wp_bind, wp_modify, wp_bind.
  rewrite Hf. unfold wp at 1, open_current. cbn [path fs set_fs set_file opts]. rewrite H1, H2. fold g. fold r.
  rewrite Hopen, Hnew.
  assert (Hnode : forall i, (i < n)%nat -> fs_node (new_file (key p 0) r) !! key p (S i) = fs_node (fs o) !! key p i).
  { intros i Hlt. cbn. rewrite lookup_insert_ne by (apply key_ne; lia). by rewrite C1. }
  assert (Hdata : forall j, (j < fs_next (fs o))%nat -> data (new_file (key p 0) r) j = data g j).
  { intros j Hj. unfold data. cbn. rewrite lookup_insert_ne by (rewrite A2; cbn; lia). by rewrite A1. }
  split; [|split; [by split|split; [done|]]].
  - split; cbn; try done.
    + eexists. split; [done|]. cbn. rewrite lookup_insert_eq. split; [done|].
      unfold data at 1. cbn. rewrite lookup_insert_eq. split; [done|]. split; [lia|].
      intros i Hlt. rewrite (lookup_take_lt _ n i) by done. change (<[_ := _]> (fs_node r)) with (fs_node (new_file (key p 0) r)).
      rewrite Hnode by done. destruct i as [|i]; cbn.
      * exists (f_ino f). split; [done|]. rewrite Hdata by done. rewrite A2. cbn.
        split; [|lia]. unfold g, fclose, fflush. cbn. by rewrite data_insert.
      * specialize (Ho i ltac:(lia)). destruct (old s !! i) as [t|]; [|done].
        destruct Ho as (j & Hj & Ht & Hlt' & Hne). exists j. rewrite Hdata by done. rewrite A2. cbn.
        split; [done|]. split; [|lia]. unfold g, fclose, fflush. cbn. by rewrite data_insert_ne.
    + rewrite length_take. lia.
    + rewrite (is_dir_other r); [by rewrite key_parent|]. cbn. apply lookup_insert_ne.
      rewrite key_parent. apply not_eq_sym, parent_not_key.
  - intros q Hq. cbn. rewrite lookup_insert_ne by (intros E; by apply (Hq 0%nat ltac:(lia))).
    by rewrite A4.
Qed.

Lemma write_line_rep k line o s : Rep p n o s -> slen (cur s) + slen line < 18446744073709551616 ->
  wp (write_line (S k) line) (fun _ o' => Rep p n o' (seg_write (max_size (opts o)) n line s) /\
    same_log o o' /\ err o' = (if also_stderr (opts o) then String.append (err o) line else err o) /\
    others (fs o) (fs o')) o.
Proof.
  intros HR Hlen. assert (HR' := HR). destruct HR' as [H1 H2 (f & Hf & Hk & Hd & Hi & Ho) H3 H4 H5 H6].
  cbn [write_line]. apply wp_bind, wp_gets, wp_bind. change (id o) with o. unfold opened. rewrite Hf, orb_false_r.
  set (o1 := set_size (slen (String.append (cur s) line)) (set_file (Some (fwrite line f))
               (if also_stderr (opts o) then to_stderr line o else o))).
  set (s1 := mkSegs (old s) (String.append (cur s) line)).
  assert (HR1 : Rep p n o1 s1).
  { unfold o1. split; destruct (also_stderr (opts o)); try done;
      (exists (fwrite line f); split; [done|]; split; [done|]; cbn; by rewrite append_assoc, Hd). }
  assert (Hsz : u64 (size o + Z.of_nat (String.length line)) = slen (String.append (cur s) line)).
  { unfold slen in *. rewrite H3, length_append, Nat2Z.inj_add. apply u64_id. unfold is_u64. lia. }
  assert (Hgoal : wp (modify (set_file (Some (fwrite line f))) ;;
      modify (set_size (u64 (size o + Z.of_nat (String.length line)))) ;;
      o ← gets id;
      when (negb (max_size (opts o) =? 0) && (size o >=? max_size (opts o))) (rotate (notice_with (write_line k))))
    (fun _ o' => Rep p n o' (seg_write (max_size (opts o)) n line s) /\ same_log o o' /\
      err o' = (if also_stderr (opts o) then String.append (err o) line else err o) /\ others (fs o) (fs o'))
    (if also_stderr (opts o) then to_stderr line o else o)).
  { rewrite Hsz. apply wp_bind, wp_modify, wp_bind, wp_modify, wp_bind, wp_gets. fold o1. change (id o1) with o1.
    assert (Ho1 : opts o1 = opts o /\ size o1 = slen (String.append (cur s) line) /\ same_log o o1 /\ fs o1 = fs o /\
      err o1 = if also_stderr (opts o) then String.append (err o) line else err o).
    { unfold o1. by destruct (also_stderr (opts o)). }
    destruct Ho1 as (E1 & E2 & E3 & E4 & E5). rewrite E1, E2. unfold seg_write. apply wp_when; intros ->.
    - eapply wp_mono; [by apply rotate_rep|]. intros [] o2 (R2 & S2 & Er & F2). rewrite E4 in F2.
      split; [done|]. split; [exact (transitivity E3 S2)|]. split; [congruence|done].
    - rewrite E4. by split. }
  apply wp_when; intros E; rewrite E in Hgoal |- *; [apply wp_modify|]; exact Hgoal.
Qed.

Lemma seg_write_cur m line s : slen (cur (seg_write m n line s)) <= slen (cur s) + slen line.
Proof.
  unfold seg_write, slen. destruct (_ && _); cbn; rewrite ?length_append; lia.
Qed.

Lemma write_batch_rep lines o s :
  Rep p n o s -> slen (cur s) + slen (cat lines) < 18446744073709551616 ->
  wp (write_batch lines) (fun _ o' => Rep p n o' (seg_writes (max_size (opts o)) n lines s) /\
    same_log o o' /\ others (fs o) (fs o')) o.
Proof.
  revert o s. induction lines as [|line lines IH]; intros o s HR Hlen; [by split|].
  assert (Hc : slen (cat (line :: lines)) = slen line + slen (cat lines)).
  { unfold slen. change (cat (line :: lines)) with (String.append line (cat lines)). rewrite length_append. lia. }
  assert (0 <= slen (cat lines)) by (unfold slen; lia).
  cbn [write_batch]. apply wp_bind. eapply wp_mono; [apply write_line_rep; [done|lia]|].
  intros [] o1 (R1 & S1 & _ & F1). pose proof (seg_write_cur (max_size (opts o)) line s) as Hw.
  eapply wp_mono; [apply (IH o1); [exact R1|lia]|]. intros [] o2 (R2 & S2 & F2).
  destruct S1 as [Ho Hpa]. rewrite Ho in R2. split; [exact R2|].
  split; [etransitivity; [split; [exact Ho|exact Hpa]|exact S2]|]. intros q Hq. by rewrite F2, F1.
Qed.

(** After a flush the disk holds the abstract log. *)
Lemma flush_disk o s : Rep p n o s ->
  wp flush (fun _ o' => Rep p n o' s /\ same_log o o' /\ fs_node (fs o') = fs_node (fs o) /\
    disk (fs o') (key p 0) = Some (cur s) /\ forall i, (i < n)%nat -> disk (fs o') (key p (S i)) = old s !! i) o.
Proof.
  intros [H1 H2 (f & Hf & Hk & Hd & Hi & Ho) H3 H4 H5 H6]. apply wp_modify. rewrite Hf. cbn.
  set (g := set_data _ _).
  assert (Hg : data g (f_ino f) = cur s) by (unfold g; by rewrite data_insert).
  assert (Hj : forall j, j <> f_ino f -> data g j = data (fs o) j) by (intros j Hj; unfold g; by rewrite data_insert_ne).
  split; [|split; [done|split; [done|split]]].
  - split; try done. eexists. split; [done|]. cbn. rewrite Hk. split; [done|].
    fold g. rewrite Hg, append_nil_r. split; [done|]. split; [done|]. intros i Hlt. specialize (Ho i Hlt).
    destruct (old s !! i) as [t|]; [|done]. destruct Ho as (j & ? & ? & ? & ?). exists j. by rewrite Hj.
  - unfold disk. cbn. rewrite Hk. by rewrite Hg.
  - intros i Hlt. specialize (Ho i Hlt). unfold disk. cbn. destruct (old s !! i) as [t|]; [|by rewrite Ho].
    destruct Ho as (j & -> & <- & _ & Hne). by rewrite Hj.
Qed.

(** Opening where there are no files of the log yet. *)
Lemma open_rep o : path o = p -> max_files (opts o) = Z.of_nat n -> fs_ro (fs o) = false ->
  is_dir (fs o) (parent (key p 0)) = true -> (forall i, (i <= n)%nat -> fs_node (fs o) !! key p i = None) ->
  wp open_current (fun ok o' => ok = true /\ opts o' = opts o /\ Rep p n o' (mkSegs [] EmptyString)) o.
Proof.
  intros H1 H2 H3 H4 H5. unfold wp, open_current, fopen_a. rewrite H1. fold (key p 0).
  rewrite H5, H4, H3 by lia. cbn [negb].
  assert (Hnew : ftell_end (mkFILE (fs_next (fs o)) EmptyString) (new_file (key p 0) (fs o)) = 0).
  { unfold ftell_end, data. cbn. by rewrite lookup_insert_eq. }
  rewrite Hnew. cbn. split; [done|]. split; [done|]. split; cbn; try done; [|lia|].
  - eexists. split; [done|]. cbn. rewrite lookup_insert_eq. split; [done|].
    unfold data at 1. cbn. rewrite lookup_insert_eq. split; [done|]. split; [lia|].
    intros i Hi. rewrite lookup_insert_ne by (apply key_ne; lia). apply H5. lia.
  - rewrite (is_dir_other (fs o)); [done|]. cbn. apply lookup_insert_ne.
    rewrite key_parent. apply not_eq_sym, parent_not_key.
Qed.

End Names.

(** ** The path the logger builds *)

Lemma getlines_plain acc s : no_slash s = true ->
  getlines "/"%char acc s = if empty (String.append acc s) then [] else [String.append acc s].
Proof.
  revert acc. induction s as [|c s IH]; intros acc H; [by rewrite append_nil_r|].
  cbn in H. apply andb_true_iff in H as [Hc Hs]. cbn [getlines].
  destruct (c =? "/")%char; [done|]. rewrite IH by done.
  by rewrite <- append_assoc.
Qed.

Lemma getlines_slash acc d s :
  filter (fun c => empty c = false) (getlines "/"%char acc (String.append d (String "/"%char s))) =
  (filter (fun c => empty c = false) (getlines "/"%char acc d) ++ filter (fun c => empty c = false) (getlines "/"%char EmptyString s))%list.
Proof.
  revert acc. induction d as [|c d IH]; intros acc.
  - rewrite append_nil. cbn [getlines Ascii.eqb]. by destruct acc.
  - rewrite append_cons. cbn [getlines]. destruct (c =? "/")%char; [|apply IH].
    rewrite !filter_cons, IH. by destruct acc.
Qed.

Lemma components_file d nm : no_slash nm = true -> empty nm = false ->
  components (String.append d (String "/"%char nm)) = (components d ++ [nm])%list.
Proof.
  intros H1 H2. unfold components. rewrite getlines_slash, (getlines_plain EmptyString nm H1).
  rewrite append_nil, H2. f_equal. by rewrite filter_cons_True.
Qed.

Lemma ends_slash d : String.substring (String.length d - 1) 1 d = "/"%string ->
  exists d', d = String.append d' (String "/"%char EmptyString).
Proof.
  induction d as [|c [|c' d] IH]; [done| |].
  - cbn. intros [= ->]. by exists EmptyString.
  - intros H. replace (String.length (String c (String c' d)) - 1)%nat with (S (String.length (String c' d) - 1)) in H by (cbn; lia).
    cbn [String.substring] in H. destruct (IH H) as [d' E]. exists (String c d'). rewrite append_cons. by f_equal.
Qed.

Lemma absolute_append p s : empty p = false -> absolute (String.append p s) = absolute p.
Proof. by destruct p. Qed.

(** The log file's name is the last component of its path, with any suffix. *)
Lemma log_path_names o : no_slash (name o) = true -> empty (name o) = false ->
  names (log_path o) (components (dir o)) (name o).
Proof.
  intros H1 H2 s Hs. assert (Hp : exists d, log_path o = String.append d (String "/"%char (name o)) /\ components d = components (dir o)).
  { unfold log_path. destruct (String.eqb_spec (String.substring (String.length (dir o) - 1) 1 (dir o)) "/") as [E|E].
    - destruct (ends_slash _ E) as [d' Ed]. exists d'. rewrite Ed at 1. cbn [cat foldr].
      rewrite append_nil, append_nil_r, <- append_assoc, append_cons, append_nil. split; [done|].
      rewrite Ed. unfold components. by rewrite getlines_slash, app_nil_r.
    - exists (dir o). cbn [cat foldr]. by rewrite append_nil_r, append_cons, append_nil. }
  destruct Hp as (d & -> & Hd). unfold resolve.
  assert (He : empty (String.append d (String "/"%char (name o))) = false) by by destruct d.
  rewrite absolute_append by done. f_equal.
  rewrite <- append_assoc, append_cons, components_file, Hd; [done| |].
  - by rewrite no_slash_append, H1.
  - by destruct (name o).
Qed.

(** ** The abstract log *)

Lemma cat_app l k : cat (l ++ k) = String.append (cat l) (cat k).
Proof.
  induction l as [|x l IH]; [done|].
  change (cat ((x :: l) ++ k)) with (String.append x (cat (l ++ k))).
  change (cat (x :: l)) with (String.append x (cat l)). by rewrite IH, append_assoc.
Qed.

Lemma cat_snoc l x : cat (l ++ [x]) = String.append (cat l) x.
Proof. rewrite cat_app. f_equal. apply append_nil_r. Qed.

(** A line goes to the end; what is lost is at the beginning, and nothing is
    lost while there are fewer old files than may be kept. *)
Lemma seg_write_text m n line s : exists lost,
  String.append lost (seg_text (seg_write m n line s)) = String.append (seg_text s) line /\
  ((List.length (old (seg_write m n line s)) < n)%nat -> lost = EmptyString).
Proof.
  unfold seg_write, seg_text. destruct (_ && _); cbn [old cur].
  - set (c := String.append (cur s) line). exists (cat (rev (drop n (c :: old s)))). split.
    + rewrite append_nil_r, <- cat_app, <- rev_app_distr, take_drop. cbn [rev].
      rewrite cat_snoc. unfold c. apply append_assoc.
    + intros H. rewrite length_take in H. rewrite drop_ge by lia. done.
  - exists EmptyString. rewrite append_nil. split; [|done]. apply append_assoc.
Qed.

Lemma seg_write_old m n line s : (List.length (old s) <= n)%nat ->
  (List.length (old s) <= List.length (old (seg_write m n line s)) <= n)%nat.
Proof. intros H. unfold seg_write. destruct (_ && _); cbn [old]; [rewrite length_take; cbn|]; lia. Qed.

Lemma seg_writes_old m n lines s : (List.length (old s) <= n)%nat ->
  (List.length (old s) <= List.length (old (seg_writes m n lines s)) <= n)%nat.
Proof.
  revert s. induction lines as [|l lines IH]; intros s H; [cbn; lia|].
  pose proof (seg_write_old m n l s H). specialize (IH (seg_write m n l s) ltac:(lia)).
  change (seg_writes m n (l :: lines) s) with (seg_writes m n lines (seg_write m n l s)). lia.
Qed.

Lemma seg_writes_text m n lines s : (List.length (old s) <= n)%nat -> exists lost,
  String.append lost (seg_text (seg_writes m n lines s)) = String.append (seg_text s) (cat lines) /\
  ((List.length (old (seg_writes m n lines s)) < n)%nat -> lost = EmptyString).
Proof.
  revert s. induction lines as [|l lines IH]; intros s Hn.
  - exists EmptyString. by rewrite append_nil, append_nil_r.
  - destruct (seg_write_text m n l s) as (a & Ha & Ha'). pose proof (seg_write_old m n l s Hn) as Ho.
    destruct (IH (seg_write m n l s) ltac:(lia)) as (b & Hb & Hb').
    change (seg_writes m n (l :: lines) s) with (seg_writes m n lines (seg_write m n l s)).
    exists (String.append a b). split.
    + rewrite <- append_assoc, Hb, append_assoc, Ha.
      change (cat (l :: lines)) with (String.append l (cat lines)). by rewrite append_assoc.
    + intros H. pose proof (seg_writes_old m n lines (seg_write m n l s) ltac:(lia)).
      rewrite Ha', Hb' by lia. done.
Qed.

(** No file exceeds the limit by a whole line. *)
Definition seg_bounded (m M : Z) (s : Segs) : Prop :=
  slen (cur s) < m /\ Forall (fun t => slen t < m + M) (old s).

Lemma seg_write_bounded m n M line s : 0 < m -> slen line <= M ->
  seg_bounded m M s -> seg_bounded m M (seg_write m n line s).
Proof.
  intros Hm Hl [Hc Ho]. unfold seg_write. assert ((m =? 0) = false) as -> by (apply Z.eqb_neq; lia). cbn [negb andb].
  assert (Hlen : slen (String.append (cur s) line) = slen (cur s) + slen line) by (unfold slen; rewrite length_append; lia).
  destruct (_ >=? m) eqn:E; bprop; split; cbn [cur old]; [done| |lia|done].
  apply Forall_take. constructor; [lia|done].
Qed.

Lemma seg_writes_bounded m n M lines s : 0 < m -> Forall (fun l => slen l <= M) lines ->
  seg_bounded m M s -> seg_bounded m M (seg_writes m n lines s).
Proof.
  intros Hm Hl. revert s. induction Hl as [|l lines Hl0 Hl IH]; intros s Hs; [done|].
  apply IH. by apply seg_write_bounded.
Qed.

End LoggerRotate.
