(* ===== verification/LoggerStream.v ===== *)
(** LoggerStream: the DPDK stream splits its text into lines as a reader that
    looks at one character at a time would, however the text is cut into writes.
    LoggerDirs: make_dirs creates the whole path, and opening succeeds there. *)
From S2P Require Import Prelude Types Mem Text Print Stdio Logger LoggerThms LoggerRotate.
From stdpp Require Import strings.
From Stdlib Require Import String Ascii.

Module LoggerStream.
Import Text Print Stdio Logger LoggerThms.

(** ** The reference: one character at a time *)

(** The complete lines so far, empty ones left out, and the line begun. *)
Fixpoint feed (q s : string) : list string * string :=
  match s with
  | EmptyString => ([], q)
  | String c s =>
    if (c =? newline)%char then
      let '(ls, r) := feed EmptyString s in (if empty q then ls else q :: ls, r)
    else feed (String.append q (String c EmptyString)) s
  end.

Fixpoint emit_all (lv : LogLevel) (ls : list string) : ST Log unit :=
  match ls with
  | [] => mret tt
  | x :: ls => write_raw lv "dpdk" x ;; emit_all lv ls
  end.

(** A sequence of writes at one level. *)
Fixpoint cookie_writes {L : Libc} (lv : Z) (bufs : list string) : ST Log unit :=
  match bufs with
  | [] => mret tt
  | b :: bufs => cookie_write lv b ;; cookie_writes lv bufs
  end.

(** ** Strings by position *)

Fixpoint sdrop (n : nat) (s : string) : string :=
  match n, s with
  | O, _ => s
  | S n, EmptyString => EmptyString
  | S n, String _ s => sdrop n s
  end.

Lemma sdrop_length n s : String.length (sdrop n s) = (String.length s - n)%nat.
Proof. revert n. induction s as [|c s IH]; intros [|n]; cbn; auto. Qed.

Lemma sdrop_sdrop n m s : sdrop m (sdrop n s) = sdrop (n + m) s.
Proof. revert n. induction s as [|c s IH]; intros [|n]; cbn; auto. by destruct m. Qed.

Lemma sdrop_append s t : sdrop (String.length s) (String.append s t) = t.
Proof. induction s as [|c s IH]; [done|]. rewrite append_cons. cbn. apply IH. Qed.

Lemma substring_all s : String.substring 0 (String.length s) s = s.
Proof. induction s as [|c s IH]; [done|]. cbn. by rewrite IH. Qed.

Lemma substring_sdrop n k s : String.substring n k s = String.substring 0 k (sdrop n s).
Proof. revert n. induction s as [|c s IH]; intros [|n]; cbn; auto. by destruct k. Qed.

Lemma substring_append s t : String.substring 0 (String.length s) (String.append s t) = s.
Proof. induction s as [|c s IH]; [by destruct t|]. rewrite append_cons. cbn. by rewrite IH. Qed.

Lemma substring_rest n s : String.substring n (String.length s - n) s = sdrop n s.
Proof. rewrite substring_sdrop, <- sdrop_length. apply substring_all. Qed.

Lemma find_sdrop c n s : find c n s = (fun k => (n + k)%nat) <$> find c 0 (sdrop n s).
Proof.
  revert n. induction s as [|x s IH]; intros [|n]; [done..| |].
  - cbn [sdrop]. by destruct (find c 0 (String x s)).
  - cbn [find sdrop]. rewrite IH. by destruct (find c 0 (sdrop n s)).
Qed.

Lemma find_cut c s : find c 0 s = (fun ab => String.length ab.1) <$> cut c s.
Proof.
  induction s as [|x s IH]; [done|]. cbn [find cut]. destruct (x =? c)%char; [done|]. rewrite IH.
  by destruct (cut c s) as [[a b]|].
Qed.

Lemma cut_append c s a b : cut c s = Some (a, b) -> s = String.append a (String c b).
Proof.
  revert a. induction s as [|x s IH]; intros a H; [done|]. cbn in H.
  destruct (Ascii.eqb_spec x c) as [->|]; [by injection H as <- <-|].
  destruct (cut c s) as [[a' b']|] eqn:E; [|done]. injection H as <- <-.
  rewrite append_cons. f_equal. by apply IH.
Qed.

Lemma feed_cut q s : feed q s = match cut newline s with
  | None => ([], String.append q s)
  | Some (a, b) => let '(ls, r) := feed EmptyString b in
                   (if empty (String.append q a) then ls else String.append q a :: ls, r)
  end.
Proof.
  revert q. induction s as [|c s IH]; intros q; [by rewrite append_nil_r|]. cbn [feed cut].
  destruct (c =? newline)%char; [by rewrite append_nil_r|].
  rewrite IH. destruct (cut newline s) as [[a b]|]; cbn; rewrite <- append_assoc, append_cons, append_nil; done.
Qed.

Lemma feed_append q s t : feed q (String.append s t) =
  let '(ls, r) := feed q s in let '(ks, r') := feed r t in ((ls ++ ks)%list, r').
Proof.
  revert q. induction s as [|c s IH]; intros q; [rewrite append_nil; cbn; by destruct (feed q t)|].
  rewrite append_cons. cbn [feed]. destruct (c =? newline)%char; [|apply IH].
  rewrite IH. destruct (feed EmptyString s) as [ls r]. destruct (feed r t) as [ks r']. by destruct (empty q).
Qed.

(** What is left has no newline. *)
Definition one_line (s : string) : bool := match cut newline s with None => true | Some _ => false end.

Lemma one_line_snoc q c : one_line q = true -> (c =? newline)%char = false ->
  one_line (String.append q (String c EmptyString)) = true.
Proof.
  unfold one_line. intros Hq Hc. induction q as [|x q IH].
  - rewrite append_nil. cbn [cut]. by rewrite Hc.
  - rewrite append_cons. cbn [cut] in *. destruct (x =? newline)%char; [done|].
    destruct (cut newline q) as [[]|]; [done|]. specialize (IH eq_refl).
    by destruct (cut newline (String.append q _)) as [[]|].
Qed.

Lemma feed_one_line q s : one_line q = true -> one_line (feed q s).2 = true.
Proof.
  revert q. induction s as [|c s IH]; intros q Hq; [done|]. cbn [feed].
  destruct (c =? newline)%char eqn:E; [|apply IH; by apply one_line_snoc].
  specialize (IH EmptyString eq_refl). by destruct (feed EmptyString s).
Qed.

Lemma feed_partial q s : one_line q = true -> feed EmptyString (String.append q s) = feed q s.
Proof.
  intros Hq. rewrite feed_append. rewrite (feed_cut EmptyString q). unfold one_line in Hq.
  destruct (cut newline q) as [[]|]; [done|]. rewrite append_nil. by destruct (feed q s).
Qed.

(** ** The loop *)

Section Loop.
Context {L : Libc}.

Lemma emit_set_partial lv x v l :
  write_raw lv "dpdk" x (set_partial v l) = '(u, l') ← write_raw lv "dpdk" x l; Some (u, set_partial v l').
Proof.
  unfold write_raw, emit, mbind, ST_bind, gets, id. cbn. destruct (push _ _ _) as [[] s]; done.
Qed.

Lemma emit_total lv x l : exists l', write_raw lv "dpdk" x l = Some (tt, l') /\ dpdk_partial l' = dpdk_partial l /\ dpdk l' = dpdk l.
Proof.
  unfold write_raw, emit, mbind, ST_bind, gets, id. cbn. destruct (push _ _ _) as [[] s]; eauto.
Qed.

Lemma emit_all_total lv ls l : exists l', emit_all lv ls l = Some (tt, l') /\ dpdk_partial l' = dpdk_partial l /\ dpdk l' = dpdk l.
Proof.
  revert l. induction ls as [|x ls IH]; intros l; [by exists l|]. cbn [emit_all].
  destruct (emit_total lv x l) as (l1 & H1 & H2 & H3). destruct (IH l1) as (l2 & H4 & H5 & H6).
  exists l2. unfold mbind, ST_bind. rewrite H1, H4. split; [done|]. split; congruence.
Qed.

Lemma emit_all_set_partial lv ls v l l' :
  emit_all lv ls l = Some (tt, l') -> emit_all lv ls (set_partial v l) = Some (tt, set_partial v l').
Proof.
  revert l. induction ls as [|x ls IH]; intros l H; [by injection H as <-|]. cbn [emit_all] in *.
  unfold mbind, ST_bind in *. rewrite emit_set_partial. destruct (write_raw lv "dpdk" x l) as [[[] l1]|]; [|done].
  cbn. by apply IH.
Qed.

(** From [start] on, the loop emits the complete lines and stops where the last
    one ends. *)
Lemma cookie_lines_spec fuel lv start l :
  (String.length (dpdk_partial l) < fuel + start)%nat -> (0 < fuel)%nat ->
  exists n l', cookie_lines fuel lv start l = Some (n, l') /\
    emit_all lv (feed EmptyString (sdrop start (dpdk_partial l))).1 l = Some (tt, l') /\
    sdrop n (dpdk_partial l) = (feed EmptyString (sdrop start (dpdk_partial l))).2.
Proof.
  revert start l. induction fuel as [|fuel IH]; intros start l Hf H0; [lia|].
  cbn [cookie_lines]. unfold mbind at 1, ST_bind at 1, gets, id.
  rewrite find_sdrop, find_cut, feed_cut.
  destruct (cut newline (sdrop start (dpdk_partial l))) as [[a b]|] eqn:E; cbn [fmap option_fmap option_map fst].
  - pose proof (cut_append _ _ _ _ E) as Hs. rewrite append_nil.
    assert (Hlen : (String.length a < String.length (dpdk_partial l) - start)%nat).
    { rewrite <- sdrop_length, Hs, length_append. cbn. lia. }
    assert (Hb : sdrop (S (start + String.length a)) (dpdk_partial l) = b).
    { replace (S (start + String.length a))%nat with (start + (String.length a + 1))%nat by lia.
      rewrite <- sdrop_sdrop, Hs, <- sdrop_sdrop, sdrop_append. done. }
    replace (start + String.length a - start)%nat with (String.length a) by lia.
    rewrite substring_sdrop, Hs, substring_append.
    assert (Hemp : (start <? start + String.length a)%nat = negb (empty a)).
    { destruct a; cbn; [rewrite Nat.add_0_r; apply Nat.ltb_irrefl|]. apply Nat.ltb_lt. lia. }
    rewrite Hemp. destruct (feed EmptyString b) as [ls r] eqn:Ef.
    assert (Hgo : forall l1, dpdk_partial l1 = dpdk_partial l -> exists n l',
      cookie_lines fuel lv (S (start + String.length a)) l1 = Some (n, l') /\
      emit_all lv ls l1 = Some (tt, l') /\ sdrop n (dpdk_partial l) = r).
    { intros l1 Hl1. destruct (IH (S (start + String.length a)) l1) as (n & l' & H1 & H2 & H3); rewrite ?Hl1; try lia.
      rewrite Hl1, Hb, Ef in H2, H3. eauto. }
    unfold mbind, ST_bind. destruct (empty a); cbn [negb when]; unfold mret, ST_ret.
    + destruct (Hgo l eq_refl) as (n & l' & H1 & H2 & H3). exists n, l'. by rewrite H1.
    + destruct (emit_total lv a l) as (l1 & H1 & H2 & _). rewrite H1.
      destruct (Hgo l1 H2) as (n & l' & H3 & H4 & H5). exists n, l'. rewrite H3. cbn. by unfold mbind, ST_bind; rewrite H1.
  - exists start, l. by rewrite append_nil.
Qed.

(** One write: the complete lines go out, the rest is kept. *)
Lemma cookie_write_feed lv buf l : one_line (dpdk_partial l) = true ->
  exists l', emit_all (from_rte_level lv) (feed (dpdk_partial l) buf).1 l = Some (tt, l') /\
    cookie_write lv buf l = Some (Z.of_nat (String.length buf), set_partial (feed (dpdk_partial l) buf).2 l').
Proof.
  intros Hq. set (q := dpdk_partial l) in *. set (l0 := set_partial (String.append q buf) l).
  destruct (cookie_lines_spec (S (String.length (String.append q buf))) (from_rte_level lv) 0 l0) as (n & l1 & H1 & H2 & H3); [cbn; lia|lia|].
  cbn [sdrop] in H2, H3. change (dpdk_partial l0) with (String.append q buf) in *. rewrite feed_partial in H2, H3 by done.
  destruct (emit_all_total (from_rte_level lv) (feed q buf).1 l) as (l' & H4 & _).
  pose proof (emit_all_set_partial _ _ (String.append q buf) _ _ H4) as H5. fold l0 in H5. rewrite H5 in H2. injection H2 as <-.
  exists l'. split; [done|]. unfold cookie_write, mbind, ST_bind, modify, gets, id. fold q. fold l0.
  change (dpdk_partial l0) with (String.append q buf). rewrite H1. cbn [dpdk_partial set_partial].
  rewrite substring_rest, H3. done.
Qed.

End Loop.
End LoggerStream.

Module LoggerDirs.
Import Text Print Stdio Logger LoggerThms LoggerRotate LoggerStream.
Local Open Scope Z_scope.

(** A path as absolute as [d]. *)
Definition dpath (d : string) (l : list string) : Path := (absolute d, l).

(** The file system can be changed and no file stands where a directory of [d]
    has to be. *)
Definition free_path (d : string) (f : Fs) : Prop :=
  fs_ro f = false /\ forall k i, fs_node f !! dpath d (take k (components d)) <> Some (File i).

(** Only directories along [d] are added. *)
Definition only_dirs (d : string) (f f' : Fs) : Prop :=
  fs_data f' = fs_data f /\ fs_next f' = fs_next f /\ fs_ro f' = fs_ro f /\ fs_deny f' = fs_deny f /\
  forall q : Path, fs_node f' !! q = fs_node f !! q \/
            (fs_node f !! q = None /\ fs_node f' !! q = Some Dir /\ exists k, q = dpath d (take k (components d))).

#[export] Instance only_dirs_pre d : PreOrder (only_dirs d).
Proof.
  split.
  - intros f. repeat split. by left.
  - intros f g h (A1 & A2 & A3 & A4 & A5) (B1 & B2 & B3 & B4 & B5).
    do 4 (split; [congruence|]). intros q. destruct (A5 q) as [E|(E1 & E2 & E3)]; [rewrite <- E; apply B5|].
    destruct (B5 q) as [->|(E4 & _)]; [by right|congruence].
Qed.

Lemma only_dirs_free d f f' : free_path d f -> only_dirs d f f' -> free_path d f'.
Proof.
  intros [H1 H2] (_ & _ & A3 & _ & A5). split; [congruence|]. intros k i.
  destruct (A5 (dpath d (take k (components d)))) as [->|(_ & -> & _)]; [apply H2|done].
Qed.

Lemma only_dirs_dir d f f' q : only_dirs d f f' -> is_dir f q = true -> is_dir f' q = true.
Proof.
  intros (_ & _ & _ & _ & A5). unfold is_dir. destruct q.2; [done|].
  intros H%bool_decide_eq_true. apply bool_decide_eq_true.
  destruct (A5 q) as [E|(E & _)]. all: congruence.
Qed.

(** mkdir of the next prefix: its parent is there. *)
Lemma mkdir_next d f a l c : free_path d f -> absolute c = absolute d ->
  components c = (a ++ l)%list -> (List.length l <= 1)%nat -> (exists k, components c = take k (components d)) ->
  is_dir f (dpath d a) = true ->
  exists r f', mkdir c f = (r, f') /\ (r = 0 \/ fs_errno f' = EEXIST) /\
    only_dirs d f f' /\ is_dir f' (dpath d (components c)) = true.
Proof.
  intros [H1 H2] Ha Hc Hl [k Hk] Hd. unfold mkdir. change (resolve c) with (absolute c, components c).
  rewrite Ha. change (absolute d, components c) with (dpath d (components c)).
  assert (Hrefl : forall e, only_dirs d f (set_errno e f)) by (intros e; repeat split; by left).
  destruct (is_dir f (dpath d (components c))) eqn:E1; cbn [orb].
  { eexists _, _. split; [done|]. split; [by right|]. split; [apply Hrefl|exact E1]. }
  assert (E2 : fs_node f !! (dpath d (components c)) = None).
  { unfold is_dir in E1. cbn in E1. destruct (fs_node f !! (dpath d (components c))) as [[|i]|] eqn:E; [|by rewrite Hk in E; apply H2 in E|done].
    destruct (components c); [done|]. by apply bool_decide_eq_false in E1. }
  rewrite E2. rewrite bool_decide_false by (by intros []). cbn.
  assert (Hpar : parent (dpath d (components c)) = (dpath d a)).
  { unfold parent. cbn. rewrite Hc. destruct l as [|w [|w' l]]; cbn in Hl; [|by rewrite removelast_last|lia].
    rewrite app_nil_r in Hc. rewrite Hc in E1. congruence. }
  rewrite Hpar, Hd, H1. cbn. eexists _, _. split; [done|]. split; [by left|]. split.
  - repeat split. intros q. cbn. destruct (decide (q = (dpath d (components c)))) as [->|Hq].
    + right. rewrite E2, lookup_insert_eq. split; [done|]. split; [done|]. exists k. by rewrite Hk.
    + left. by rewrite lookup_insert_ne.
  - unfold is_dir. cbn [snd fs_node set_node]. destruct (components c); [done|].
    apply bool_decide_eq_true. apply lookup_insert_eq.
Qed.

(** ** Prefixes *)

Abbreviation upto n s := (String.substring 0 n s).

Lemma upto_sdrop n s : String.append (upto n s) (sdrop n s) = s.
Proof.
  revert n. induction s as [|c s IH]; intros [|n]; cbn [String.substring sdrop]; try done.
  rewrite append_cons. by rewrite IH.
Qed.

Lemma upto_length n s : (n <= String.length s)%nat -> String.length (upto n s) = n.
Proof.
  revert n. induction s as [|c s IH]; intros [|n] H; cbn in *; try done; [lia|]. rewrite IH; lia.
Qed.

Lemma upto_app n s t : String.length s = n -> upto n (String.append s t) = s.
Proof. intros <-. apply substring_append. Qed.

Lemma cut_no_slash s : match cut "/"%char s with Some (a, b) => no_slash a = true | None => no_slash s = true end.
Proof.
  induction s as [|c s IH]; [done|]. cbn [cut]. destruct (c =? "/")%char eqn:E; [done|].
  destruct (cut "/"%char s) as [[a b]|]; cbn; by rewrite E.
Qed.

Lemma components_plain s : no_slash s = true -> (List.length (components s) <= 1)%nat.
Proof.
  intros H. unfold components. rewrite getlines_plain by done. rewrite append_nil.
  destruct (empty s) eqn:E; [cbn; lia|]. rewrite filter_cons_True by done. cbn. lia.
Qed.

Lemma components_slash d s : components (String.append d (String "/"%char s)) = (components d ++ components s)%list.
Proof. apply getlines_slash. Qed.

(** Where the loop is: at the start, or at a slash. *)
Definition at_slash (pos : nat) (d : string) : Prop :=
  pos = 0%nat \/ exists r, d = String.append (upto pos d) (String "/"%char r).

Lemma next_components pos d c r seg : at_slash pos d -> sdrop pos d = String c r -> no_slash seg = true ->
  exists l, components (String.append (upto pos d) (String c seg)) = (components (upto pos d) ++ l)%list /\
    (List.length l <= 1)%nat.
Proof.
  intros Hp Hc Hs. destruct (Ascii.eqb_spec c "/"%char) as [->|Hne].
  - rewrite components_slash. eexists. split; [done|]. by apply components_plain.
  - destruct Hp as [->|[r' Hr]].
    + assert (upto 0 d = EmptyString) as -> by (by destruct d). rewrite append_nil.
      exists (components (String c seg)). split; [done|]. apply components_plain. cbn. rewrite Hs, andb_true_r.
      apply negb_true_iff. by apply Ascii.eqb_neq.
    + exfalso. rewrite <- (upto_sdrop pos d) in Hr at 1. apply append_inv_head in Hr. congruence.
Qed.

Lemma make_dirs_from_ok fuel pos d f :
  (String.length d < fuel + pos)%nat -> (0 < fuel)%nat -> (pos < String.length d)%nat ->
  at_slash pos d -> free_path d f -> is_dir f (dpath d (components (upto pos d))) = true ->
  exists f', make_dirs_from fuel pos d f = Some (true, f') /\ only_dirs d f f' /\ is_dir f' (resolve d) = true.
Proof.
  revert pos f. induction fuel as [|fuel IH]; intros pos f Hfuel H0 Hpos Hsl Hfree Hdir; [lia|].
  cbn [make_dirs_from]. destruct (sdrop pos d) as [|c r] eqn:Hc.
  { apply (f_equal String.length) in Hc. rewrite sdrop_length in Hc. cbn in Hc. lia. }
  pose proof (upto_sdrop pos d) as Hd. rewrite Hc in Hd.
  assert (Hr : sdrop (S pos) d = r).
  { replace (S pos) with (pos + 1)%nat by lia. by rewrite <- sdrop_sdrop, Hc. }
  rewrite find_sdrop, find_cut, Hr. pose proof (cut_no_slash r) as Hno.
  assert (Hlen : String.length (upto pos d) = pos) by (apply upto_length; lia).
  assert (Hne : forall x, empty (String.append (upto pos d) (String c x)) = false) by (intros x; by destruct (upto pos d)).
  assert (Hab : forall x, absolute (String.append (upto pos d) (String c x)) = absolute d).
  { intros x. rewrite <- Hd at 2. by destruct (upto pos d). }
  destruct (cut "/"%char r) as [[seg b]|] eqn:Ecut; cbn [fmap option_fmap option_map fst].
  - pose proof (cut_append _ _ _ _ Ecut) as Er.
    set (cur := String.append (upto pos d) (String c seg)).
    assert (Ed : d = String.append cur (String "/"%char b)).
    { rewrite <- Hd, Er. unfold cur. rewrite <- append_assoc, append_cons. done. }
    assert (Hcl : String.length cur = (S pos + String.length seg)%nat).
    { unfold cur. rewrite length_append. cbn. lia. }
    assert (Eup : upto (S pos + String.length seg) d = cur) by (rewrite Ed; by apply upto_app).
    rewrite Eup. unfold cur at 1. rewrite Hne.
    destruct (next_components pos d c r seg Hsl Hc Hno) as (l & Hl & Hl1).
    assert (Hk : exists k, components cur = take k (components d)).
    { exists (List.length (components cur)). rewrite Ed, components_slash at 1. by rewrite take_app_length. }
    destruct (mkdir_next d f (components (upto pos d)) l cur Hfree (Hab seg) Hl Hl1 Hk Hdir) as (e & f1 & -> & He & Ho & Hd1).
    assert (negb (e =? 0) && negb (fs_errno f1 =? EEXIST) = false) as -> by (destruct He as [-> | ->]; [done|by rewrite andb_false_r]).
    assert (Hlt : (S pos + String.length seg < String.length d)%nat).
    { apply (f_equal String.length) in Ed. rewrite length_append in Ed. cbn in Ed. lia. }
    destruct (IH (S pos + String.length seg)%nat f1) as (f2 & H2 & Ho2 & Hd2); rewrite ?Eup; try lia; try done.
    + right. exists b. by rewrite Eup.
    + by eapply only_dirs_free.
    + exists f2. split; [done|]. split; [by etransitivity|done].
  - assert (He : empty d = false) by (rewrite <- Hd; apply Hne). rewrite He.
    destruct (next_components pos d c r r Hsl Hc Hno) as (l & Hl & Hl1). rewrite Hd in Hl.
    destruct (mkdir_next d f (components (upto pos d)) l d Hfree eq_refl Hl Hl1) as (e & f1 & -> & Hee & Ho & Hd1); [by exists (List.length (components d)); rewrite take_ge|done|].
    assert (negb (e =? 0) && negb (fs_errno f1 =? EEXIST) = false) as -> by (destruct Hee as [-> | ->]; [done|by rewrite andb_false_r]).
    exists f1. unfold stat_isdir. rewrite He. change (resolve d) with (dpath d (components d)). by rewrite Hd1.
Qed.

(** mkdir -p: where nothing is in the way, every directory of the path is made. *)
Lemma make_dirs_ok d f : empty d = false -> free_path d f ->
  exists f', make_dirs d f = Some (true, f') /\ only_dirs d f f' /\ is_dir f' (resolve d) = true.
Proof.
  intros He Hf. apply make_dirs_from_ok; try lia; try done; [by destruct d; cbn; try done; lia|by left|].
  by destruct d.
Qed.

(** ** Opening *)

Lemma log_path_absolute o : empty (dir o) = false -> absolute (log_path o) = absolute (dir o).
Proof. unfold log_path. cbn [cat foldr]. by destruct (dir o). Qed.

(** A name of the log is no directory on the way to it. *)
Lemma key_not_prefix o i k : no_slash (name o) = true -> empty (name o) = false ->
  key (log_path o) i <> dpath (dir o) (take k (components (dir o))).
Proof.
  intros H1 H2 E. pose proof (log_path_names o H1 H2) as Hp.
  assert (List.length (key (log_path o) i).2 = S (List.length (components (dir o)))) as Hl.
  { destruct i as [|i]; [rewrite (key_0 Hp)|rewrite (key_S Hp)]; cbn; rewrite length_app; cbn; lia. }
  rewrite E in Hl. cbn in Hl. rewrite length_take in Hl. lia.
Qed.

Lemma key_parent_dir o i : no_slash (name o) = true -> empty (name o) = false -> empty (dir o) = false ->
  parent (key (log_path o) i) = resolve (dir o).
Proof.
  intros H1 H2 H3. rewrite (key_parent (log_path_names o H1 H2)). by rewrite log_path_absolute.
Qed.

(** The conditions under which a log can be opened afresh. *)
Definition can_open (o : LogFileOptions) (n : nat) (f : Fs) : Prop :=
  no_slash (name o) = true /\ empty (name o) = false /\ empty (dir o) = false /\
  max_files o = Z.of_nat n /\ is_u32 (Z.of_nat n) /\ free_path (dir o) f /\
  forall i, (i <= n)%nat -> fs_node f !! key (log_path o) i = None.

Lemma open_file_ok {L : Libc} src o n l : active (sh l) = false -> can_open o n (fs (own l)) ->
  wp (open_file src o) (fun ok l' => ok = true /\ sh l' = start_shared o (sh l) /\
    Rep (log_path o) n (own l') (mkSegs [] EmptyString) /\ opts (own l') = o) l.
Proof.
  intros Ha (H1 & H2 & H3 & H4 & H5 & H6 & H7).
  destruct (make_dirs_ok (dir o) (fs (own l)) H3 H6) as (f & Hf & Hof & Hdir).
  apply wp_bind. unfold wp at 1. rewrite shutdown_idle by done. apply wp_bind, wp_gets. unfold id. rewrite Hf.
  apply wp_bind, wp_writer, wp_modify. cbn [negb].
  apply wp_bind, wp_writer, wp_modify, wp_bind, wp_writer, wp_modify, wp_bind, wp_writer.
  eapply wp_mono; [apply (open_rep (log_path_names o H1 H2) H5)|];
    cbn [path opts fs set_path set_opts set_fs own set_own]; try done.
  - destruct Hof as (_ & _ & -> & _). apply H6.
  - by rewrite key_parent_dir.
  - intros i Hi. destruct Hof as (_ & _ & _ & _ & Ho).
    destruct (Ho (key (log_path o) i)) as [-> | (_ & _ & k & E)]; [by apply H7|].
    by apply key_not_prefix in E.
  - intros ok o1 (-> & Ho & HR). apply wp_bind, wp_gets. cbn [negb]. by apply wp_bind, wp_modify, wp_bind, wp_modify.
Qed.

End LoggerDirs.
