(* ===== verification/LoggerProps.v ===== *)
(** LoggerProps: what the logger promises.

    No accepted line is lost or reordered and every dropped one is counted and
    reported; shutting down finishes; the files on disk are the last segments of
    what was written; the DPDK stream is split into its lines; a limited call
    site logs once per interval. *)
From S2P Require Import Prelude Types Mem Text Print Stdio Logger LoggerThms LoggerSteps LoggerRotate LoggerStream.
From Stdlib Require Import String Ascii Sorted.

Module LoggerProps.
Import Text Print Stdio Logger LoggerThms LoggerSteps LoggerRotate LoggerStream LoggerDirs.
Local Open Scope string_scope.
Local Open Scope Z_scope.

(** ** A call site with a limit *)

(** [last], the threads between their load and their exchange with what they
    read and their time, and the times at which the site has logged. *)
Record Limit := mkLimit { last : Z; pend : list (Z * Z); passes : list Z }.

Inductive limit_step (interval : Z) : Limit -> Limit -> Prop :=
| l_load s now : 0 < now -> may_log (last s) now interval = true ->
    limit_step interval s (mkLimit (last s) ((last s, now) :: pend s) (passes s))
| l_pass s p1 prev now p2 v : pend s = (p1 ++ (prev, now) :: p2)%list -> cas (last s) prev now = (true, v) ->
    limit_step interval s (mkLimit v (p1 ++ p2) (now :: passes s))
| l_lose s p1 prev now p2 v : pend s = (p1 ++ (prev, now) :: p2)%list -> cas (last s) prev now = (false, v) ->
    limit_step interval s (mkLimit v (p1 ++ p2) (passes s)).

Record LimitInv (interval : Z) (s : Limit) : Prop := {
  li_last : last s = match passes s with [] => 0 | t :: _ => t end;
  li_pass : Forall (fun t => 0 < t) (passes s);
  li_pend : Forall (fun '(prev, now) => 0 < now /\ (prev = 0 \/ prev + interval <= now)) (pend s);
  li_gap : StronglySorted (fun a b => b + interval <= a) (passes s);
}.

Lemma limit_inv_step interval s s' : 0 < interval -> LimitInv interval s -> limit_step interval s s' -> LimitInv interval s'.
Proof.
  intros Hi [H1 H2 H3 H4] Hs. destruct Hs as [s now Hn Hm|s p1 prev now p2 v Hp Hc|s p1 prev now p2 v Hp Hc].
  - split; try done. constructor; [|done]. split; [done|].
    unfold may_log in Hm. destruct (last s =? 0) eqn:E; bprop; [by left|right]. cbn in Hm. bprop. lia.
  - unfold cas in Hc. destruct (_ =? _) eqn:E; [|done]. injection Hc as <-. bprop.
    rewrite Hp in H3. apply Forall_app in H3 as [H3a H3b]. apply Forall_cons in H3b as [[Hn Hg] H3b].
    split; cbn; [done|by constructor|by apply Forall_app|]. constructor; [done|].
    destruct (passes s) as [|t l]; [constructor|]. rewrite Forall_cons in H2. destruct H2 as [Ht _].
    destruct Hg as [Hg|Hg]; [lia|]. assert (t + interval <= now) by lia. constructor; [done|].
    apply StronglySorted_inv in H4 as [_ H4]. eapply Forall_impl; [exact H4|]. cbn. lia.
  - unfold cas in Hc. destruct (_ =? _) eqn:E; [done|]. injection Hc as <-.
    rewrite Hp in H3. apply Forall_app in H3 as [H3a H3b]. apply Forall_cons in H3b as [_ H3b].
    split; try done. by apply Forall_app.
Qed.

(** LOG_RATELIMIT under contention: whatever the interleaving of the loads and
    exchanges of log_ratelimit_pass on any number of cores, and however stale the
    times they read, any two passes of one call site are at least the interval
    apart (times are positive seconds). *)
Theorem ratelimit_interval (interval : Z) (s : Limit) :
  0 < interval -> rtc (limit_step interval) (mkLimit 0 [] []) s ->
  StronglySorted (fun a b => b + interval <= a) (passes s).
Proof.
  intros Hi Hs. apply (li_gap interval s).
  assert (H0 : LimitInv interval (mkLimit 0 [] [])) by (split; constructor).
  remember (mkLimit 0 [] []) as s0. clear Heqs0.
  induction Hs as [|x y z Hxy Hyz IH]; [done|]. apply IH. by eapply limit_inv_step.
Qed.

Lemma ratelimit_interval_witness :
  StronglySorted (fun a b => b + 5 <= a) (passes (mkLimit 12 [(0, 8)] [12; 7])).
Proof.
  apply (ratelimit_interval 5); [lia|].
  eapply rtc_l; [apply (l_load 5 _ 8); [lia|reflexivity]|].
  eapply rtc_l; [apply (l_load 5 _ 7); [lia|reflexivity]|].
  eapply rtc_l; [apply (l_pass 5 _ [] 0 7 [(0, 8)] 7); reflexivity|].
  eapply rtc_l; [apply (l_load 5 _ 12); [lia|reflexivity]|].
  eapply rtc_l; [apply (l_pass 5 _ [] 7 12 [(0, 8)] 12); reflexivity|].
  apply rtc_refl.
Defined.

(** ** Threads *)

(** C16. No line is lost, duplicated or reordered: in every interleaving of callers,
    writer, shutdown, reopening and signals, the lines accepted into the queue are,
    in order, the ones written, the ones in the writer's batch and the ones in the
    queue; dropped counts exactly the lines refused for lack of room, and they are
    reported up to what drop_unreported holds; with the thread gone, what was
    accepted has been written and every drop reported. *)
Theorem logger_accounts {L : Libc} s0 tr s : fresh s0 -> steps s0 tr s ->
  accepted tr = (written tr ++ batch_of (ph s) ++ queue (sh (lg s)))%list /\
  dropped (sh (lg s)) = u64 (Z.of_nat (List.length (drops tr))) /\
  drop_unreported (sh (lg s)) = u64 (Z.of_nat (List.length (drops tr)) - reported tr) /\
  (ph s = Off -> accepted tr = written tr /\ u64 (Z.of_nat (List.length (drops tr)) - reported tr) = 0).
Proof.
  intros H0 Hs. destruct (LInv_steps _ _ _ H0 Hs) as [H1 H2 H3 H4 H5 H6 H7 H8 HR H9].
  split; [done|]. split; [done|]. split; [done|]. intros Hp. rewrite <- H3. split; [|apply HR; by rewrite Hp].
  by rewrite H1, H8, Hp, app_nil_r by (by left).
Qed.

(** The queue never holds more lines than its capacity, and the writer does not
    sleep on work that should wake it: its wait predicate holds as long as an
    ERROR or FATAL line is queued, and from 256 lines on. *)
Theorem logger_queue_bounded {L : Libc} s0 tr s : fresh s0 -> steps s0 tr s ->
  Z.of_nat (List.length (queue (sh (lg s)))) <= cap (sh (lg s)) /\
  (urgent_waits tr = true -> wait_done (sh (lg s)) = true) /\
  (kWakeBatch <= Z.of_nat (List.length (queue (sh (lg s)))) -> wait_done (sh (lg s)) = true).
Proof.
  intros H0 Hs. destruct (LInv_steps _ _ _ H0 Hs) as [H1 H2 H3 H4 H5 H6 H7 H8 HR H9].
  split; [done|]. unfold wait_done. split.
  - intros Hu. destruct (H9 Hu) as [-> _]. by rewrite orb_true_r.
  - intros Hk. assert (_ >=? kWakeBatch = true) as -> by (apply Z.geb_le; exact Hk). by rewrite orb_true_r.
Qed.

(** C17. Shutting down finishes and loses nothing: once shutdown has closed the
    queue, until the writer has ended it always has a step it can take, it ends
    within a number of its own steps known from the state at that moment, whatever
    the other threads do, and when it has ended every accepted line is written and
    every dropped one reported.  Then shutdown can join it and close the file: what
    the stream held is in the file and no stream is left open, nor is one as long as
    the log is not opened again. *)
Theorem shutdown_drains {L : Libc} s0 tr s tr' s' :
  fresh s0 -> steps s0 tr s -> joining s = true -> steps s tr' s' -> OpenedFile ∉ tr' ->
  (ph s' <> Off -> ph s' <> Ended ->
     (List.length (filter writer_label tr') < work s)%nat /\ exists l s'', step s' l s'' /\ writer_label l = true) /\
  (ph s' = Off \/ ph s' = Ended ->
     accepted (tr ++ tr') = written (tr ++ tr') /\
     u64 (Z.of_nat (List.length (drops (tr ++ tr'))) - reported (tr ++ tr')) = 0) /\
  (ph s' = Ended -> exists s'', step s' Joined s'' /\ ph s'' = Off /\ file_closed (own (lg s')) (own (lg s''))) /\
  (ph s' = Off -> file (own (lg s')) = None).
Proof.
  intros H0 Hs Hj Hs' Hn. pose proof (LInv_steps _ _ _ H0 Hs) as HI.
  assert (Hc : closing s).
  { right. destruct (decide (ph s = Off)) as [E|E]; [destruct (inv_off _ _ HI E); congruence|].
    destruct (inv_run _ _ HI E). congruence. }
  destruct (work_steps _ _ _ _ HI Hc Hn Hs') as (HI' & _ & Hw).
  split; [|split; [|split; [by eapply join_enabled|]]].
  - intros H1 H2. split; [|by eapply writer_enabled].
    assert (work s' <> 0%nat); [|lia]. unfold work. destruct (ph s'); done.
  - intros Hp. destruct HI' as [H1 H2 H3 H4 H5 H6 H7 H8 HR H9].
    rewrite <- H3. split; [|apply HR; by destruct Hp as [-> | ->]].
    rewrite H1, H8 by (destruct Hp as [Hp|Hp]; [by left|right; by rewrite Hp]).
    destruct Hp as [-> | ->]; by rewrite !app_nil_r.
  - apply (off_closed_steps tr s tr' s'); [done..|]. intros E. destruct (inv_off _ _ HI E). congruence.
Qed.

(** ** Files *)

(** The writer's work on a batch. *)
Definition write_out {L : Libc} (lines : list string) : ST Own unit := write_batch lines ;; flush.

Lemma write_out_rep {L : Libc} o s n lines :
  no_slash (name (opts o)) = true -> empty (name (opts o)) = false -> is_u32 (Z.of_nat n) ->
  let p := log_path (opts o) in
  Rep p n o s -> slen (cur s) + slen (cat lines) < 18446744073709551616 ->
  let s' := seg_writes (max_size (opts o)) n lines s in
  exists o', write_out lines o = Some (tt, o') /\ Rep p n o' s' /\
    disk (fs o') (key p 0) = Some (cur s') /\
    (forall i, (i < n)%nat -> disk (fs o') (key p (S i)) = old s' !! i) /\
    (forall q, (forall i, (i <= n)%nat -> q <> key p i) -> fs_node (fs o') !! q = fs_node (fs o) !! q).
Proof.
  intros H1 H2 Hn p HR Hlen s'. pose proof (log_path_names (opts o) H1 H2) as Hp. fold p in Hp.
  apply wp_unit, wp_bind. eapply wp_mono; [by apply (write_batch_rep Hp Hn)|]. intros [] o1 (R1 & S1 & F1).
  eapply wp_mono; [apply (flush_disk o1 _ R1)|]. intros [] o2 (R2 & S2 & F2 & D1 & D2). fold s' in D1, D2, R2.
  split; [done|]. split; [done|]. split; [done|]. intros q Hq. rewrite F2. by apply F1.
Qed.

(** C18. Rotation implements a rotating log: after any batch of lines and the
    flush, the file l4lb.log holds the current segment and l4lb.log.1 to .N the
    older ones, newest first, as the abstract log of segments says, and no other
    path has changed; so there are never more than N + 1 files. *)
Theorem rotation_refines {L : Libc} o s n lines :
  no_slash (name (opts o)) = true -> empty (name (opts o)) = false -> is_u32 (Z.of_nat n) ->
  let p := log_path (opts o) in
  Rep p n o s -> slen (cur s) + slen (cat lines) < 18446744073709551616 ->
  let s' := seg_writes (max_size (opts o)) n lines s in
  exists o', write_out lines o = Some (tt, o') /\ Rep p n o' s' /\
    disk (fs o') (key p 0) = Some (cur s') /\
    (forall i, (i < n)%nat -> disk (fs o') (key p (S i)) = old s' !! i) /\
    (forall q, (forall i, (i <= n)%nat -> q <> key p i) -> fs_node (fs o') !! q = fs_node (fs o) !! q).
Proof. apply write_out_rep. Qed.

(** Rotation bounds the space and keeps the newest text: every old file stays
    below the limit plus one line and the current one below the limit; the files
    read from the oldest to the current one are the end of everything logged, and
    all of it while fewer than N old files exist. *)
Theorem rotation_bounds {L : Libc} o s n lines M :
  no_slash (name (opts o)) = true -> empty (name (opts o)) = false -> is_u32 (Z.of_nat n) ->
  let p := log_path (opts o) in
  Rep p n o s -> slen (cur s) + slen (cat lines) < 18446744073709551616 ->
  0 < max_size (opts o) -> Forall (fun l => slen l <= M) lines -> seg_bounded (max_size (opts o)) M s ->
  exists o' olds c lost, write_out lines o = Some (tt, o') /\
    disk (fs o') (key p 0) = Some c /\ slen c < max_size (opts o) /\
    (forall i, (i < n)%nat -> disk (fs o') (key p (S i)) = olds !! i) /\
    Forall (fun t => slen t < max_size (opts o) + M) olds /\
    String.append lost (String.append (cat (rev olds)) c) = String.append (seg_text s) (cat lines) /\
    ((List.length olds < n)%nat -> lost = EmptyString).
Proof.
  intros H1 H2 Hn p HR Hlen Hm Hl Hb. destruct (write_out_rep o s n lines H1 H2 Hn HR Hlen) as (o' & Ho & _ & D0 & D1 & _).
  destruct (seg_writes_text (max_size (opts o)) n lines s (rep_len _ _ _ _ HR)) as (lost & Ht & Hlost).
  destruct (seg_writes_bounded (max_size (opts o)) n M lines s Hm Hl Hb) as [Hc Hold].
  exists o', (old (seg_writes (max_size (opts o)) n lines s)), (cur (seg_writes (max_size (opts o)) n lines s)), lost.
  by repeat split.
Qed.

(** ** The DPDK stream *)

Lemma emit_all_app lv a b l l1 l2 : emit_all lv a l = Some (tt, l1) -> emit_all lv b l1 = Some (tt, l2) ->
  emit_all lv (a ++ b) l = Some (tt, l2).
Proof.
  revert l. induction a as [|x a IH]; intros l Ha Hb; [by injection Ha as ->|]. cbn in *.
  unfold mbind, ST_bind in *. destruct (write_raw lv "dpdk" x l) as [[[] l']|]; [|done]. by apply IH.
Qed.

Lemma cookie_writes_feed {L : Libc} lv bufs l : one_line (dpdk_partial l) = true ->
  let r := feed (dpdk_partial l) (cat bufs) in
  exists l', emit_all (from_rte_level lv) r.1 l = Some (tt, l') /\ cookie_writes lv bufs l = Some (tt, set_partial r.2 l').
Proof.
  revert l. induction bufs as [|b bufs IH]; intros l Hq r; [exists l; by destruct l|].
  destruct (cookie_write_feed lv b l Hq) as (l1 & H1 & H2). subst r.
  change (cat (b :: bufs)) with (String.append b (cat bufs)). rewrite feed_append.
  pose proof (feed_one_line (dpdk_partial l) b Hq) as Hr. destruct (feed (dpdk_partial l) b) as [ls r].
  destruct (IH (set_partial r l1) Hr) as (l2 & H3 & H4). cbn [dpdk_partial set_partial] in H3, H4.
  destruct (emit_all_total (from_rte_level lv) (feed r (cat bufs)).1 l1) as (l3 & H5 & _).
  pose proof (emit_all_set_partial _ _ r _ _ H5) as H6. rewrite H6 in H3. injection H3 as <-.
  exists l3. destruct (feed r (cat bufs)) as [ks r'] eqn:E. cbn [fst snd] in *. split; [by eapply emit_all_app|].
  cbn [cookie_writes]. unfold mbind, ST_bind. rewrite H2, H4. done.
Qed.

(** The DPDK stream is split into its lines, however the text is cut into
    writes: a sequence of writes from an empty buffer emits the non-empty lines of
    the whole text that are complete, in order, as a reader of one character at a
    time finds them, keeps the begun line, and closing the stream emits that one. *)
Theorem dpdk_stream_lines {L : Libc} lv bufs l : dpdk_partial l = EmptyString ->
  let '(ls, r) := feed EmptyString (cat bufs) in
  exists l', emit_all (from_rte_level lv) ls l = Some (tt, l') /\
    cookie_writes lv bufs l = Some (tt, set_partial r l') /\
    exists l'', emit_all INFO (if empty r then [] else [r]) l' = Some (tt, l'') /\
      cookie_close (set_partial r l') = Some (0, set_dpdk false (set_partial EmptyString l'')).
Proof.
  intros Hq. destruct (cookie_writes_feed lv bufs l) as (l1 & H1 & H2); [by rewrite Hq|].
  rewrite Hq in H1, H2. destruct (feed EmptyString (cat bufs)) as [ls r]. exists l1. split; [done|]. split; [done|].
  unfold cookie_close, mbind, ST_bind, gets, modify, when, id. cbn [dpdk_partial set_partial].
  destruct (empty r); cbn [negb emit_all]; [by exists l1|].
  unfold mbind, ST_bind. destruct (emit_total INFO r l1) as (l2 & H3 & _).
  exists l2. rewrite emit_set_partial, H3. done.
Qed.

(** ** Opening *)

(** C31. Opening never blocks the program: on a closed log open_file always returns.
    If it fails nothing else changes and every line goes to stderr as before; if
    no file stands in the way of the directory and the file system can be written,
    it makes the whole directory path, opens an empty file and starts the queue. *)
Theorem open_file_fallback {L : Libc} src o l : active (sh l) = false ->
  exists ok l', open_file src o l = Some (ok, l') /\
    (ok = false -> sh l' = sh l /\
       forall lv place msg, exists line, emit lv place msg l' = Some (tt, set_own (to_stderr line (own l')) l')) /\
    (forall n, can_open o n (fs (own l)) -> ok = true /\ active (sh l') = true /\
       Rep (log_path o) n (own l') (mkSegs [] EmptyString) /\ is_dir (fs (own l')) (resolve (dir o)) = true).
Proof.
  intros Ha. destruct (proj1 (wp_run _ _ _) (open_file_wp src o l Ha)) as (ok & l' & Ho & Hsh).
  exists ok, l'. split; [done|]. split.
  - intros ->. split; [done|]. intros lv place msg. apply emit_sync. by rewrite Hsh.
  - intros n Hc. pose proof (open_file_ok src o n l Ha Hc) as Hw. unfold wp in Hw. rewrite Ho in Hw.
    destruct Hw as (-> & Hs & HR & _). rewrite Hs. split; [done|]. split; [done|]. split; [done|].
    destruct Hc as (H1 & H2 & H3 & _). rewrite <- (key_parent_dir o 0) by done. apply (rep_dir _ _ _ _ HR).
Qed.

(** The notice of a reopened file. *)
Definition reopen_line (o : Own) : string :=
  format_line (clock o) (get_level_str INFO) "logger" (snprintf 512 (cat ["log file reopened: "; path o])).

(** SIGHUP after logrotate: when the file has been renamed away and the path is
    free, the writer's next round creates a new file at the path and writes there;
    the renamed file keeps everything that was written to it before, also what was
    still buffered. *)
Theorem reopen_after_rename {L : Libc} o f : file o = Some f ->
  fs_node (fs o) !! resolve (path o) = None -> is_dir (fs o) (parent (resolve (path o))) = true ->
  fs_ro (fs o) = false -> (f_ino f < fs_next (fs o))%nat ->
  max_size (opts o) = 0 \/ slen (reopen_line o) < max_size (opts o) -> slen (reopen_line o) < 18446744073709551616 ->
  exists o' f', reopen true o = Some (tt, o') /\ file o' = Some f' /\
    fs_node (fs o') !! resolve (path o) = Some (File (f_ino f')) /\ f_ino f' <> f_ino f /\
    String.append (data (fs o') (f_ino f')) (f_buf f') = reopen_line o /\
    data (fs o') (f_ino f) = String.append (data (fs o) (f_ino f)) (f_buf f).
Proof.
  intros Hf Hn Hd Hro Hi Hm Hl. set (p := resolve (path o)) in *.
  set (g := fclose f (fs o)). set (f' := mkFILE (fs_next g) EmptyString).
  assert (Hopen : fopen_a (path o) g = (Some f', new_file p g)).
  { unfold fopen_a. fold p. change (fs_node g) with (fs_node (fs o)). rewrite Hn.
    change (is_dir g (parent p)) with (is_dir (fs o) (parent p)). rewrite Hd.
    change (fs_ro g) with (fs_ro (fs o)). by rewrite Hro. }
  assert (Hnew : ftell_end f' (new_file p g) = 0).
  { unfold ftell_end, data. cbn. by rewrite lookup_insert_eq. }
  set (o1 := set_size 0 (set_file (Some f') (set_fs (new_file p g) (set_fs g o)))).
  set (line := reopen_line o) in *.
  set (o2 := if also_stderr (opts o) then to_stderr line o1 else o1).
  set (o3 := set_size (u64 (0 + slen line)) (set_file (Some (fwrite line f')) o2)).
  assert (Hw : write_line 2 line o1 = Some (tt, o3)).
  { apply (write_line_append 1 line o1 f' eq_refl). destruct Hm as [Hm|Hm]; [by left|right].
    change (size o1) with 0. fold (slen line). assert (0 <= slen line) by (unfold slen; lia).
    rewrite u64_id by (unfold is_u64; lia). change (opts o1) with (opts o). lia. }
  exists o3, (fwrite line f'). split; [|split; [done|]].
  - assert (Hr : reopened o1 = Some (tt, o3)) by exact Hw.
    unfold reopen, mbind, ST_bind, when, close_file, modify, gets, id, open_current. rewrite Hf.
    cbn [path set_fs fs]. fold g. rewrite Hopen, Hnew. change (if 0 >? 0 then u64 0 else 0) with 0. fold o1.
    rewrite Hr. done.
  - assert (fs o3 = new_file p g) as -> by (unfold o3, o2; by destruct (also_stderr (opts o))).
    cbn. rewrite lookup_insert_eq. split; [done|]. split; [lia|]. unfold data. cbn.
    rewrite lookup_insert_eq. split; [done|]. rewrite lookup_insert_ne by lia. by rewrite lookup_insert_eq.
Qed.

(** ** A run *)

#[local] Instance demo_libc : Libc := { strerror := fun _ => "Permission denied" }.

Definition demo_tm : Tm := mkTm 2026 10 2 10 0 0 123.
Definition demo_fs : Fs := mkFs {[ (true, ["var"]) := Dir ]} ∅ 0 false ∅ 0.
Definition demo_own : Own := mkOwn (default_options "") "" None 0 demo_fs "" demo_tm.
Definition demo_log : Log := mkLog (mkShared [] 0 false false false 0 0) demo_own false INFO false "".
Definition demo_sys : Sys := mkSys demo_log Off [] false.
Definition demo_opts : LogFileOptions := mkLogFileOptions "/var/log" "l4lb.log" 40 2 false 2.

(** Three callers and room for two lines; an ERROR among them. *)
Definition demo_moves : list Move :=
  [MOpen "logger.cpp" demo_opts; MCall "first" false; MCall "second" true; MCall "third" false;
   MLock 2; MLock 1; MLock 0; MStop; MCall "late" false; MSignal].
Definition demo_end : list Move := replicate 6 MWriter ++ [MJoin].

Definition runs (ms : list Move) (tr : list Label) (s : Sys) : bool :=
  match run_moves ms tr s with Some _ => true | None => false end.
Definition run_from (p : list Label * Sys) (ms : list Move) : list Label * Sys :=
  default p (run_moves ms p.1 p.2).
Definition demo_stopped : list Label * Sys := run_from ([], demo_sys) demo_moves.
Definition demo_final : list Label * Sys := run_from demo_stopped demo_end.

Definition demo_partial : list Label * Sys := run_from ([], demo_stopped.2) (take 3 demo_end).

Definition demo_closed : list Label * Sys := run_from ([], demo_stopped.2) demo_end.

(** The log is not opened in a trace. *)
Definition never_opened (tr : list Label) : bool := forallb (fun l => match l with OpenedFile => false | _ => true end) tr.

Lemma never_opened_spec tr : never_opened tr = true -> OpenedFile ∉ tr.
Proof. intros H Hi. unfold never_opened in H. rewrite forallb_forall in H. by apply list_elem_of_In, H in Hi. Qed.

Lemma demo_fresh : fresh demo_sys.
Proof. by repeat split. Qed.

Lemma run_from_steps s0 p ms : steps s0 p.1 p.2 -> runs ms p.1 p.2 = true ->
  steps s0 (run_from p ms).1 (run_from p ms).2.
Proof.
  unfold runs, run_from. intros Hs H. destruct (run_moves ms p.1 p.2) as [[tr s]|] eqn:E; [|done].
  by eapply run_moves_steps.
Qed.

Lemma run_from_nil s ms : runs ms [] s = true -> steps s (run_from ([], s) ms).1 (run_from ([], s) ms).2.
Proof. apply (run_from_steps s ([], s)). constructor. Qed.

Lemma demo_stopped_steps : steps demo_sys demo_stopped.1 demo_stopped.2.
Proof. apply run_from_steps; [constructor|]. vm_compute. reflexivity. Qed.

Lemma demo_final_steps : steps demo_sys demo_final.1 demo_final.2.
Proof. apply run_from_steps; [apply demo_stopped_steps|]. vm_compute. reflexivity. Qed.

Lemma demo_partial_steps : steps demo_stopped.2 demo_partial.1 demo_partial.2.
Proof.
  apply run_from_nil. vm_compute. reflexivity.
Qed.

Lemma demo_closed_steps : steps demo_stopped.2 demo_closed.1 demo_closed.2.
Proof. apply run_from_nil. vm_compute. reflexivity. Qed.

Lemma logger_accounts_witness :
  accepted demo_final.1 = ["first"; "second"] /\ drops demo_final.1 = ["third"] /\ accepted demo_final.1 = written demo_final.1.
Proof.
  split; [vm_compute; reflexivity|]. split; [vm_compute; reflexivity|].
  apply (logger_accounts demo_sys demo_final.1 demo_final.2 demo_fresh demo_final_steps). vm_compute. reflexivity.
Defined.

Lemma logger_queue_bounded_witness :
  urgent_waits demo_stopped.1 = true /\ wait_done (sh (lg demo_stopped.2)) = true.
Proof.
  split; [vm_compute; reflexivity|].
  apply (proj1 (proj2 (logger_queue_bounded demo_sys demo_stopped.1 demo_stopped.2 demo_fresh demo_stopped_steps))). vm_compute. reflexivity.
Defined.

Lemma shutdown_drains_witness :
  (List.length (filter writer_label demo_partial.1) < work demo_stopped.2)%nat /\
  ph demo_closed.2 = Off /\ file (own (lg demo_closed.2)) = None.
Proof.
  split.
  - apply (shutdown_drains demo_sys demo_stopped.1 demo_stopped.2 demo_partial.1 demo_partial.2
             demo_fresh demo_stopped_steps).
    + vm_compute. reflexivity.
    + apply demo_partial_steps.
    + by apply never_opened_spec.
    + vm_compute. discriminate.
    + vm_compute. discriminate.
  - assert (Hp : ph demo_closed.2 = Off) by (vm_compute; reflexivity). split; [exact Hp|].
    apply (shutdown_drains demo_sys demo_stopped.1 demo_stopped.2 demo_closed.1 demo_closed.2
             demo_fresh demo_stopped_steps).
    + vm_compute. reflexivity.
    + apply demo_closed_steps.
    + by apply never_opened_spec.
    + exact Hp.
Defined.

Definition demo_dirs : Fs := mkFs {[ (true, ["var"]) := Dir; (true, ["var"; "log"]) := Dir ]} ∅ 0 false ∅ 0.
Definition demo_opened : Own :=
  match open_current (mkOwn demo_opts "/var/log/l4lb.log" None 0 demo_dirs "" demo_tm) with
  | Some (_, o) => o
  | None => demo_own
  end.

Lemma demo_names : names (log_path demo_opts) ["var"; "log"] "l4lb.log".
Proof. apply (log_path_names demo_opts); reflexivity. Qed.

Lemma demo_rep : Rep (log_path (opts demo_opened)) 2 demo_opened (mkSegs [] EmptyString).
Proof.
  assert (Hn : is_u32 (Z.of_nat 2)) by (unfold is_u32; lia).
  pose proof (open_rep demo_names Hn (mkOwn demo_opts "/var/log/l4lb.log" None 0 demo_dirs "" demo_tm)) as H.
  apply wp_run in H as (ok & o & Ho & _ & Hopts & H); try reflexivity.
  - unfold demo_opened. rewrite Ho, Hopts. exact H.
  - intros i Hi. do 3 (destruct i as [|i]; [vm_compute; reflexivity|]). lia.
Qed.

(** Forty bytes fill a file, two old ones are kept. *)
Definition demo_lines : list string :=
  ["0123456789012345678901234"; "0123456789012345678901234"; "abcdefghijklmnopqrstuvwxyz"; "abcdefghijklmnopqrstuvwxyz"; "end"].

Lemma rotation_refines_witness : exists o', write_out demo_lines demo_opened = Some (tt, o') /\
  disk (fs o') (resolve "/var/log/l4lb.log") = Some "end" /\
  disk (fs o') (resolve "/var/log/l4lb.log.1") = Some "abcdefghijklmnopqrstuvwxyzabcdefghijklmnopqrstuvwxyz".
Proof.
  destruct (rotation_refines demo_opened (mkSegs [] EmptyString) 2 demo_lines) as (o' & Ho & _ & H0 & H1 & _).
  - reflexivity.
  - reflexivity.
  - unfold is_u32. lia.
  - apply demo_rep.
  - vm_compute. reflexivity.
  - exists o'. split; [exact Ho|]. split; [exact H0|]. exact (H1 0%nat ltac:(lia)).
Defined.

Lemma rotation_bounds_witness : exists o' c, write_out demo_lines demo_opened = Some (tt, o') /\
  disk (fs o') (resolve "/var/log/l4lb.log") = Some c /\ slen c < 40.
Proof.
  destruct (rotation_bounds demo_opened (mkSegs [] EmptyString) 2 demo_lines 26) as (o' & olds & c & lost & Ho & H0 & H1 & _).
  - reflexivity.
  - reflexivity.
  - unfold is_u32. lia.
  - apply demo_rep.
  - vm_compute. reflexivity.
  - vm_compute. reflexivity.
  - repeat constructor; vm_compute; discriminate.
  - split; [vm_compute; reflexivity|constructor].
  - exists o', c. split; [exact Ho|]. split; [exact H0|exact H1].
Defined.

Lemma dpdk_stream_lines_witness :
  exists l', cookie_writes 7 [("EAL: first" ++ String newline "EAL: pa")%string; ("rtial" ++ String newline EmptyString)%string] demo_log = Some (tt, set_partial EmptyString l') /\
    emit_all INFO ["EAL: first"; "EAL: partial"] demo_log = Some (tt, l').
Proof.
  destruct (dpdk_stream_lines 7 [("EAL: first" ++ String newline "EAL: pa")%string; ("rtial" ++ String newline EmptyString)%string] demo_log)
    as (l' & H1 & H2 & _); [reflexivity|]. exists l'. split; [exact H2|exact H1].
Defined.

Lemma open_file_fallback_witness :
  exists l', open_file "logger.cpp" demo_opts demo_log = Some (true, l') /\ active (sh l') = true.
Proof.
  destruct (open_file_fallback "logger.cpp" demo_opts demo_log eq_refl) as (ok & l' & Ho & _ & H).
  destruct (H 2%nat) as (-> & Ha & _); [|by exists l'].
  split; [reflexivity|]. split; [reflexivity|]. split; [reflexivity|]. split; [reflexivity|].
  split; [unfold is_u32; lia|]. split; [split; [reflexivity|]|].
  - intros k i. do 3 (destruct k as [|k]; [vm_compute; discriminate|]). vm_compute. discriminate.
  - intros i Hi. do 3 (destruct i as [|i]; [vm_compute; reflexivity|]). lia.
Defined.

(** The open log with rotation off, after mv l4lb.log l4lb.log.old. *)
Definition demo_moved : Own :=
  let o := set_opts (mkLogFileOptions "/var/log" "l4lb.log" 0 2 false 2) demo_opened in
  set_fs (rename "/var/log/l4lb.log" "/var/log/l4lb.log.old" (fs o)) (set_file (Some (mkFILE 0 "buffered")) o).

Lemma reopen_after_rename_witness : exists o', reopen true demo_moved = Some (tt, o') /\ data (fs o') 0 = "buffered".
Proof.
  destruct (reopen_after_rename demo_moved (mkFILE 0 "buffered")) as (o' & f' & H & _ & _ & _ & _ & Hd).
  - reflexivity.
  - vm_compute. reflexivity.
  - vm_compute. reflexivity.
  - reflexivity.
  - vm_compute. lia.
  - left. reflexivity.
  - vm_compute. reflexivity.
  - exists o'. split; [exact H|exact Hd].
Defined.

End LoggerProps.
