(* ===== verification/Port.v ===== *)
(** Port: src/dataplane/port.cpp and include/dataplane/port.h.

    The NIC and its driver are a parameter ([Nic]): what a call into ethdev
    returns is a function of all calls so far, the call itself included, so
    nothing is assumed about a driver but what [NicLaws] says.  The state of the
    model is the history of calls.  DPDK's constants are members of the class. *)
From S2P Require Import Prelude Types Mem Dpdk Steering.
Import Steering.

Module Port.

Definition RX_RING_SIZE : Z := 2048.
Definition TX_RING_SIZE : Z := 4096.

(** The members of rte_eth_dev_info that are used. *)
Record DevInfo := mkDevInfo {
  max_rx_queues : Z;
  max_tx_queues : Z;
  tx_offload_capa : Z;
  rx_offload_capa : Z;
  flow_type_rss_offloads : Z;
  hash_key_size : Z;
  reta_size : Z;
}.

(** The members of rte_eth_conf that are set; no key is a null pointer. *)
Record EthConf := mkEthConf {
  rx_rss : bool;               (** mq_mode: RSS or none *)
  rx_offloads : Z;
  tx_offloads_conf : Z;
  rss_key : option (list Z);
  rss_hf_conf : Z;
}.

(** rte_eth_rss_reta_entry64 *)
Record Reta64 := mkReta64 { mask : Z; reta : list Z }.

Inductive Call :=
| InfoGet
| Configure (rxq txq : Z) (c : EthConf)
| AdjustDesc (rxd txd : Z)
| SocketId
| RxSetup (q n : Z)
| TxSetup (q n : Z)
| Start
| RetaUpdate (c : list Reta64) (size : Z)
| RetaQuery (c : list Reta64) (size : Z)
| LinkGet
| DelayMs (n : Z)
| MacGet
| MtuGet.

(** Histories are newest first. *)
Class Nic := {
  nic_ret : list Call -> Z;              (** the return code of the last call *)
  nic_info : list Call -> DevInfo;
  nic_desc : list Call -> Z * Z;         (** the adjusted numbers of descriptors *)
  nic_reta : list Call -> list Reta64;   (** the array after a query *)
  nic_link_up : list Call -> bool;
  nic_mac : list Call -> MacAddr;
  nic_mtu : list Call -> Z;
  align32pow2 : Z -> Z;
  TX_IPV4_CKSUM : Z; TX_UDP_CKSUM : Z; TX_TCP_CKSUM : Z;
  RX_CHECKSUM : Z; RX_RSS_HASH : Z;
  RSS_IPV4 : Z; RSS_NONFRAG_IPV4_TCP : Z; RSS_NONFRAG_IPV4_UDP : Z;
}.

Definition GROUP : Z := 64.
Definition groups (size : Z) : Z := (size + GROUP - 1) / GROUP.

(** The types of the structures, what is documented of rte_align32pow2, and that
    a successful query fills the array it is given. *)
Class NicLaws (N : Nic) := {
  info_rx h : is_u16 (max_rx_queues (nic_info h));
  info_tx h : is_u16 (max_tx_queues (nic_info h));
  info_reta h : is_u16 (reta_size (nic_info h));
  info_capa h : 0 <= tx_offload_capa (nic_info h);
  query_fills h c size : nic_ret (RetaQuery c size :: h) = 0 ->
    len (nic_reta (RetaQuery c size :: h)) = len c /\
    Forall (fun e => len (reta e) = GROUP /\ Forall is_u16 (reta e)) (nic_reta (RetaQuery c size :: h));
  mac_len h : len (nic_mac h) = 6 /\ frame (nic_mac h);
  mtu_u16 h : is_u16 (nic_mtu h);
  align_pow2 x : 1 <= x <= 2147483648 -> x <= align32pow2 x < 2 * x;
}.

Record PortPlan := mkPortPlan { p_num_workers : Z; p_rx_queues : Z; p_tx_queues : Z }.

Record PortSetup := mkPortSetup { ps_tx_offloads : Z; ps_mac : MacAddr; ps_mtu : Z }.

(** The default member initialisers. *)
Definition PortSetup0 : PortSetup := mkPortSetup 0 mac_zero 1500.

Definition kDefaultRssKey : list Z :=
  [109; 90; 86; 218; 37; 91; 14; 194; 65; 103;
   37; 61; 67; 163; 143; 176; 208; 202; 43; 203;
   174; 123; 48; 180; 119; 203; 45; 163; 128; 48;
   242; 12; 106; 66; 183; 59; 190; 172; 1; 250].

Section Init.
Context {N : Nic} `{HF : RteHashFns}.

(** Make a call; the result is its return code. *)
Definition call (c : Call) : ST (list Call) Z := fun h => Some (nic_ret (c :: h), c :: h).

(** *** RETA *)

Definition reta0 : Reta64 := mkReta64 0 (replicate 64 0).

(** One turn of the first loop: entry i points to queue i % nq. *)
Definition reta_set (nq i : Z) (conf : list Reta64) : list Reta64 :=
  alter (fun e => mkReta64 (Z.lor (mask e) (Z.shiftl 1 (i mod GROUP)))
                    (<[Z.to_nat (i mod GROUP) := u16 (i mod nq)]> (reta e)))
    (Z.to_nat (i / GROUP)) conf.

Definition reta_conf (size nq : Z) : list Reta64 :=
  foldl (fun conf i => reta_set nq i conf) (replicate (Z.to_nat (groups size)) reta0) (seqZ 0 size).

(** conf[i / 64].reta[i % 64] *)
Definition reta_get (conf : list Reta64) (i : Z) : Z :=
  match conf !! Z.to_nat (i / GROUP) with
  | Some e => reta e !!! Z.to_nat (i mod GROUP)
  | None => 0
  end.

(** Mask all ones, entries zero. *)
Definition reta_clear (conf : list Reta64) : list Reta64 :=
  (fun _ => mkReta64 18446744073709551615 (replicate 64 0)) <$> conf.

Definition setup_reta (size nq : Z) : ST (list Call) (option (list Z)) :=
  if (size =? 0) || (size >? kMaxReta) then mret None
  else
    let conf := reta_conf size nq in
    call (RetaUpdate conf size) ;;
    ret ← call (RetaQuery (reta_clear conf) size);
    h ← gets id;
    mret (Some ((fun i => if ret =? 0 then reta_get (nic_reta h) i else u16 (i mod nq)) <$> seqZ 0 size)).

Fixpoint wait_link_from (fuel : nat) : ST (list Call) unit :=
  match fuel with
  | O => mret tt
  | S fuel =>
    ret ← call LinkGet;
    h ← gets id;
    if (ret =? 0) && nic_link_up h then mret tt
    else call (DelayMs 100) ;; wait_link_from fuel
  end.
Definition wait_link : ST (list Call) unit := wait_link_from 50.

(** *** Queues *)

Definition port_plan (num_workers : Z) : ST (list Call) (option PortPlan) :=
  ret ← call InfoGet;
  if negb (ret =? 0) then mret None
  else
    h ← gets id;
    let tx := u16 (num_workers + 1) in
    if tx >? max_tx_queues (nic_info h) then mret None
    else mret (Some (mkPortPlan num_workers (u16 (Z.min (align32pow2 tx) (max_rx_queues (nic_info h)))) tx)).

(** for (q = from; q < to; ++q) setup(q); stops at the first error *)
Fixpoint setup_queues (setup : Z -> Call) (qs : list Z) : ST (list Call) Z :=
  match qs with
  | [] => mret 0
  | q :: qs =>
    ret ← call (setup q);
    if ret <? 0 then mret ret else setup_queues setup qs
  end.

(** *** The port *)

Definition want_tx : Z := Z.lor (Z.lor TX_IPV4_CKSUM TX_UDP_CKSUM) TX_TCP_CKSUM.

Definition rss_hf (info : DevInfo) : Z :=
  Z.land (Z.lor (Z.lor RSS_IPV4 RSS_NONFRAG_IPV4_TCP) RSS_NONFRAG_IPV4_UDP) (flow_type_rss_offloads info).

Definition custom_key (info : DevInfo) : bool := hash_key_size info =? kRssKeyLen.

Definition use_rss (nw : Z) (force_sw : bool) (info : DevInfo) : bool :=
  (nw >? 1) && negb force_sw && negb (Z.land (rss_hf info) RSS_IPV4 =? 0) &&
  (custom_key info || (hash_key_size info =? 0)).

Definition eth_conf (nw : Z) (force_sw : bool) (info : DevInfo) : EthConf :=
  let rss := use_rss nw force_sw info in
  let offloads := Z.land (rx_offload_capa info) RX_CHECKSUM in
  mkEthConf rss
    (if rss then Z.lor offloads (Z.land (rx_offload_capa info) RX_RSS_HASH) else offloads)
    (Z.land want_tx (tx_offload_capa info))
    (if rss && custom_key info then Some kDefaultRssKey else None)
    (if rss then rss_hf info else 0).

(** The table of setup_reta, or one entry per worker. *)
Definition steering_reta (nw : Z) : ST (list Call) (list Z) :=
  ret ← call InfoGet;
  h ← gets id;
  r ← setup_reta (if negb (ret =? 0) then 0 else reta_size (nic_info h)) nw;
  mret (match r with Some l => l | None => seqZ 0 nw end).

Definition init_steering (nw : Z) (force_sw : bool) (info : DevInfo) (st : Steering) : ST (list Call) Steering :=
  if use_rss nw force_sw info then
    l ← steering_reta nw;
    mret (init_hw st nw kDefaultRssKey l (u16 (len l))
            (negb (Z.land (rss_hf info) RSS_NONFRAG_IPV4_TCP =? 0))
            (negb (Z.land (rss_hf info) RSS_NONFRAG_IPV4_UDP =? 0)))
  else mret (init_sw st nw).

(** The members of [out] that are read from the port at the end. *)
Definition read_setup (out : PortSetup) : ST (list Call) PortSetup :=
  ret ← call MacGet;
  h ← gets id;
  let out := if ret =? 0 then mkPortSetup (ps_tx_offloads out) (nic_mac h) (ps_mtu out) else out in
  ret ← call MtuGet;
  h ← gets id;
  mret (if (ret =? 0) && negb (nic_mtu h =? 0) then mkPortSetup (ps_tx_offloads out) (ps_mac out) (nic_mtu h) else out).

(** Return code, steering and setup; on an error the latter two are as far as
    they have been set. *)
Definition port_init (plan : PortPlan) (force_sw : bool) (st : Steering) (out : PortSetup) :
    ST (list Call) (Z * Steering * PortSetup) :=
  ret ← call InfoGet;
  if negb (ret =? 0) then mret (ret, st, out)
  else
    h ← gets id;
    let info := nic_info h in
    let nw := p_num_workers plan in
    let conf := eth_conf nw force_sw info in
    let out := mkPortSetup (tx_offloads_conf conf) (ps_mac out) (ps_mtu out) in
    ret ← call (Configure (p_rx_queues plan) (p_tx_queues plan) conf);
    if negb (ret =? 0) then mret (ret, st, out)
    else
      ret ← call (AdjustDesc RX_RING_SIZE TX_RING_SIZE);
      if negb (ret =? 0) then mret (ret, st, out)
      else
        h ← gets id;
        let '(nb_rxd, nb_txd) := nic_desc h in
        call SocketId ;;
        ret ← setup_queues (fun q => RxSetup q nb_rxd) (seqZ 0 (p_rx_queues plan));
        if ret <? 0 then mret (ret, st, out)
        else
          ret ← setup_queues (fun q => TxSetup q nb_txd) (seqZ 0 (p_tx_queues plan));
          if ret <? 0 then mret (ret, st, out)
          else
            ret ← call Start;
            if ret <? 0 then mret (ret, st, out)
            else
              st ← init_steering nw force_sw info st;
              wait_link ;;
              out ← read_setup out;
              mret (0, st, out).

End Init.
End Port.
