(* ===== verification/PortProps.v ===== *)
(** PortProps: what setting up the port leaves behind: the calls it makes, in
    order, and a steering table that agrees with who polls which queue. *)
From S2P Require Import Prelude Types Mem Dpdk Steering Port Worker WorkerProps.
Import Steering Port.

Module PortProps.

Section Port.
Context {N : Nic} {NL : NicLaws N} `{HF : RteHashFns}.

Lemma wp_call c Q h : Q (nic_ret (c :: h)) (c :: h) -> wp (call c) Q h.
Proof. done. Qed.

(** *** RETA *)

(** Written up to [k]: entry i points to queue i mod nq and its bit is set. *)
Definition written (nq size k : Z) (conf : list Reta64) : Prop :=
  len conf = groups size /\ Forall (fun e => len (reta e) = GROUP) conf /\
  forall i, 0 <= i < k -> exists e, conf !! Z.to_nat (i / GROUP) = Some e /\
    reta e !! Z.to_nat (i mod GROUP) = Some (i mod nq) /\ Z.testbit (mask e) (i mod GROUP) = true.

Lemma group_in size i : 0 <= i < size -> 0 <= i / GROUP < groups size.
Proof. unfold groups, GROUP. intros. Z.to_euclidean_division_equations. lia. Qed.

Lemma reta_set_written nq size k conf : 1 <= nq < 65536 -> 0 <= k < size ->
  written nq size k conf -> written nq size (k + 1) (reta_set nq k conf).
Proof.
  intros Hq Hk (H1 & H2 & H3). pose proof (group_in size k Hk) as Hg.
  pose proof (Z.mod_pos_bound k GROUP ltac:(unfold GROUP; lia)) as Hm.
  destruct (lookup_lt_is_Some_2 conf (Z.to_nat (k / GROUP))) as [e0 He0]; [unfold len in H1; lia|].
  assert (Hl0 : len (reta e0) = GROUP) by (rewrite Forall_forall in H2; apply H2; by eapply list_elem_of_lookup_2).
  unfold reta_set. split; [unfold len in *; by rewrite length_alter|]. split.
  - apply Forall_alter; [done|]. intros e _ He. cbn. unfold len in *. by rewrite length_insert.
  - intros i Hi. destruct (decide (i = k)) as [->|Hne].
    + rewrite list_lookup_alter_eq, He0. eexists. split; [done|]. cbn. split.
      * rewrite list_lookup_insert_eq by (unfold len in *; lia). f_equal. apply u16_id.
        pose proof (Z.mod_pos_bound k nq ltac:(lia)). unfold is_u16. lia.
      * rewrite Z.lor_spec, Z.shiftl_spec, Z.sub_diag by lia. by rewrite orb_true_r.
    + destruct (H3 i ltac:(lia)) as (e & He & Hr & Hb). pose proof (Z.mod_pos_bound i GROUP ltac:(unfold GROUP; lia)).
      destruct (decide (i / GROUP = k / GROUP)) as [E|E].
      * rewrite E in He |- *. rewrite list_lookup_alter_eq, He. eexists. split; [done|]. cbn.
        assert (Z.to_nat (k mod GROUP) <> Z.to_nat (i mod GROUP)).
        { intros E2. apply Hne. pose proof (Z.div_mod i GROUP). pose proof (Z.div_mod k GROUP). unfold GROUP in *. lia. }
        rewrite list_lookup_insert_ne by done. split; [done|]. by rewrite Z.lor_spec, Hb.
      * rewrite list_lookup_alter_ne; [by exists e|]. pose proof (group_in size i ltac:(lia)). lia.
Qed.

Lemma reta_conf_written nq size : 1 <= nq < 65536 -> 0 <= size -> written nq size size (reta_conf size nq).
Proof.
  intros Hq Hs. unfold reta_conf.
  assert (G : forall n conf, 0 <= Z.of_nat n <= size -> written nq size (size - Z.of_nat n) conf ->
    written nq size size (foldl (fun conf i => reta_set nq i conf) conf (seqZ (size - Z.of_nat n) (Z.of_nat n)))).
  { induction n as [|n IH]; intros conf Hn Hw; [by rewrite Z.sub_0_r in Hw|].
    rewrite seqZ_cons by lia. cbn [foldl]. replace (Z.pred (Z.of_nat (S n))) with (Z.of_nat n) by lia.
    replace (Z.succ (size - Z.of_nat (S n))) with (size - Z.of_nat n) by lia. apply IH; [lia|].
    replace (size - Z.of_nat n) with (size - Z.of_nat (S n) + 1) by lia. apply reta_set_written; [done|lia|done]. }
  specialize (G (Z.to_nat size) (replicate (Z.to_nat (groups size)) reta0)).
  rewrite Z2Nat.id, Z.sub_diag in G by lia. apply G; [lia|]. split; [|split].
  - unfold len. rewrite length_replicate. unfold groups, GROUP in *. Z.to_euclidean_division_equations. lia.
  - apply Forall_replicate. done.
  - intros i Hi. lia.
Qed.

Lemma reta_get_conf nq size i : 1 <= nq < 65536 -> 0 <= i < size -> reta_get (reta_conf size nq) i = i mod nq.
Proof.
  intros Hq Hi. destruct (reta_conf_written nq size Hq ltac:(lia)) as (_ & _ & H).
  destruct (H i Hi) as (e & He & Hr & _). unfold reta_get. rewrite He. by apply list_lookup_total_correct.
Qed.

(** *** Calls that only read, write the RETA or wait *)

Definition quiet (c : Call) : Prop :=
  match c with
  | InfoGet | RetaUpdate _ _ | RetaQuery _ _ | LinkGet | DelayMs _ | MacGet | MtuGet => True
  | _ => False
  end.

Definition later (h h' : list Call) : Prop := exists k, h' = (k ++ h)%list /\ Forall quiet k.

#[export] Instance later_pre : PreOrder later.
Proof.
  split; [by exists []|]. intros x y z (k & -> & Hk) (j & -> & Hj). exists (j ++ k)%list.
  rewrite <- app_assoc. split; [done|]. by apply Forall_app.
Qed.

Lemma later_call h c : quiet c -> later h (c :: h).
Proof. intros Hc. exists [c]. by repeat constructor. Qed.

Lemma reta_get_u16 conf i : Forall (fun e => len (reta e) = GROUP /\ Forall is_u16 (reta e)) conf -> is_u16 (reta_get conf i).
Proof.
  intros H. unfold reta_get. destruct (conf !! Z.to_nat (i / GROUP)) as [e|] eqn:E; [|unfold is_u16; lia].
  rewrite Forall_forall in H. destruct (H e) as [Hl Hf]; [by eapply list_elem_of_lookup_2|].
  pose proof (Z.mod_pos_bound i GROUP ltac:(unfold GROUP; lia)).
  destruct (lookup_lt_is_Some_2 (reta e) (Z.to_nat (i mod GROUP))) as [q Hq]; [unfold len in Hl; lia|].
  rewrite (list_lookup_total_correct _ _ _ Hq). rewrite Forall_forall in Hf. apply Hf. by eapply list_elem_of_lookup_2.
Qed.

(** The NIC's redirection table, where the calls tell it: the one last read back,
    or, if reading failed, the one it accepted before. *)
Fixpoint nic_table (h : list Call) : option (list Z) :=
  match h with
  | [] => None
  | RetaQuery _ size :: h' => if nic_ret h =? 0 then Some (reta_get (nic_reta h) <$> seqZ 0 size) else nic_table h'
  | RetaUpdate c size :: _ => if nic_ret h =? 0 then Some (reta_get c <$> seqZ 0 size) else None
  | _ :: h' => nic_table h'
  end.

Definition not_reta (c : Call) : Prop :=
  match c with RetaQuery _ _ | RetaUpdate _ _ => False | _ => True end.

Lemma nic_table_app k h : Forall not_reta k -> nic_table (k ++ h) = nic_table h.
Proof. induction 1 as [|c k Hc Hk IH]; [done|]. by destruct c. Qed.

(** The table holds as many queue numbers as the NIC's and they are the NIC's, or
    there is none. *)
Lemma setup_reta_wp size nq h : 1 <= nq < 65536 -> 0 <= size ->
  wp (setup_reta size nq) (fun r h' => later h h' /\
    match r with
    | Some l => 1 <= size <= kMaxReta /\ len l = size /\ Forall is_u16 l /\ (forall l', nic_table h' = Some l' -> l' = l)
    | None => (size = 0 \/ kMaxReta < size) /\ h' = h
    end) h.
Proof.
  intros Hq Hs. unfold setup_reta. destruct (_ || _) eqn:E.
  { apply wp_ret. split; [done|]. split; [|done]. apply orb_true_iff in E as [E|E]; bprop; lia. }
  bprop. apply wp_bind, wp_call, wp_bind, wp_call, wp_bind, wp_gets, wp_ret. split.
  - etransitivity; apply later_call; done.
  - split; [lia|]. split; [unfold len; rewrite length_fmap, length_seqZ; lia|].
    split.
    + apply Forall_fmap, Forall_true. intros i. unfold compose. destruct (_ =? 0) eqn:Er; bprop.
      * apply reta_get_u16. by apply query_fills.
      * apply u16_is.
    + intros l'. unfold id. cbn [nic_table]. destruct (_ =? 0); [by intros [= <-]|]. destruct (_ =? 0); [|done].
      intros [= <-]. apply list_fmap_ext. intros i x Hx.
      apply lookup_seqZ in Hx. rewrite reta_get_conf by lia. symmetry. apply u16_id.
      pose proof (Z.mod_pos_bound x nq ltac:(lia)). unfold is_u16. lia.
Qed.

Lemma wait_link_wp n h : wp (wait_link_from n) (fun _ h' => later h h' /\ nic_table h' = nic_table h) h.
Proof.
  revert h. induction n as [|n IH]; intros h; [by apply wp_ret|]. cbn [wait_link_from].
  apply wp_bind, wp_call, wp_bind, wp_gets. destruct (_ && _); [apply wp_ret; split; [by apply later_call|done]|].
  apply wp_bind, wp_call. eapply wp_mono; [apply IH|]. intros [] h' [H Ht]. split; [|done].
  etransitivity; [|exact H]. etransitivity; apply later_call; done.
Qed.

Lemma read_setup_wp out h : wp (read_setup out) (fun out' h' => (later h h' /\ nic_table h' = nic_table h) /\
  ps_tx_offloads out' = ps_tx_offloads out /\
  (len (ps_mac out) = 6 /\ frame (ps_mac out) -> len (ps_mac out') = 6 /\ frame (ps_mac out')) /\
  (is_u16 (ps_mtu out) -> is_u16 (ps_mtu out'))) h.
Proof.
  apply wp_bind, wp_call, wp_bind, wp_gets, wp_bind, wp_call, wp_bind, wp_gets, wp_ret.
  split; [split; [etransitivity; by apply later_call|done]|].
  split; [by destruct (_ && _), (_ =? 0)|]. split.
  - intros H. assert (Hm := mac_len (MacGet :: h)). destruct (_ && _), (_ =? 0); cbn; done.
  - intros H. assert (Hm := mtu_u16 (MtuGet :: MacGet :: h)). destruct (_ && _), (_ =? 0); cbn; done.
Qed.

(** *** Steering *)

(** The data members can be indexed. *)
Definition steering_shape (st : Steering) : Prop :=
  length (reta_owner_ st) = Z.to_nat kMaxReta /\ 0 <= reta_size_ st <= kMaxReta /\
  forall i, 0 <= i < reta_size_ st -> reta_owner_ st !!! Z.to_nat i = 0.

(** With hardware steering the owner of entry i is the queue of a table that the
    NIC gave, modulo the workers. *)
Definition owner_table (nw : Z) (st : Steering) (l : list Z) : Prop :=
  hw_ st = true -> reta_size_ st = len l /\ 0 < len l /\ Forall is_u16 l /\
    forall i q, l !! i = Some q -> reta_owner_ st !!! i = q mod nw.

Lemma init_hw_table st nw key l t u : 1 <= nw < 65536 -> 0 < len l <= kMaxReta ->
  length (reta_owner_ st) = Z.to_nat kMaxReta -> Forall is_u16 l ->
  owner_table nw (init_hw st nw key l (len l) t u) l.
Proof.
  intros Hn Hl Hs Hf _. split; [done|]. split; [lia|]. split; [done|]. intros i q Hq. cbn.
  assert (Ht : take (Z.to_nat (Z.min (len l) kMaxReta)) l = l) by (apply take_ge; unfold len in *; lia).
  rewrite Ht. destruct (fill_reta_spec 0 l nw (reta_owner_ st) i) as [_ ->]; [done|unfold len in *; lia|].
  pose proof (lookup_lt_Some _ _ _ Hq). rewrite decide_True by lia.
  rewrite Nat.sub_0_r. by rewrite (list_lookup_total_correct _ _ _ Hq).
Qed.

Lemma seqZ_u16 n : n < 65536 -> Forall is_u16 (seqZ 0 n).
Proof. intros H. apply Forall_forall. intros x Hx%elem_of_seqZ. unfold is_u16. lia. Qed.

Lemma steering_reta_wp nw h : 1 <= nw <= kMaxReta ->
  wp (steering_reta nw) (fun l h' => later h h' /\ 1 <= len l <= kMaxReta /\ Forall is_u16 l /\
    (nic_table h = None -> forall l', nic_table h' = Some l' -> l' = l)) h.
Proof.
  intros Hn. unfold kMaxReta in *. unfold steering_reta. apply wp_bind, wp_call, wp_bind, wp_gets, wp_bind. unfold id.
  eapply wp_mono; [apply setup_reta_wp; [lia|]|].
  - pose proof (info_reta (InfoGet :: h)) as [H _]. by destruct (negb _).
  - intros r h' [Hl Hr]. apply wp_ret. split; [exact (transitivity (later_call h InfoGet I) Hl)|].
    destruct r as [l|]; [unfold kMaxReta in Hr; destruct Hr as (? & -> & ? & ?); split; [lia|done]|].
    destruct Hr as [_ ->]. split; [unfold len; rewrite length_seqZ; lia|]. split; [apply seqZ_u16; lia|].
    intros H0 l' H1. cbn in H1. congruence.
Qed.

Lemma init_steering_wp nw force info st h : 1 <= nw <= kMaxReta -> steering_shape st ->
  wp (init_steering nw force info st) (fun st' h' => later h h' /\ steering_ok st' /\ n_ st' = nw /\
    (force = true -> hw_ st' = false) /\ hw_ st' = use_rss nw force info /\
    (nic_table h = None -> forall l, nic_table h' = Some l -> owner_table nw st' l)) h.
Proof.
  intros Hn (S1 & S2 & S3). unfold init_steering. destruct (use_rss nw force info) eqn:E.
  - apply wp_bind. eapply wp_mono; [by apply steering_reta_wp|]. intros l h' (Hl & Hn2 & Hf & Ht). apply wp_ret.
    unfold kMaxReta in *. rewrite u16_id by (unfold is_u16; lia).
    split; [done|]. split; [apply init_hw_ok; unfold kMaxReta, len in *; try done; lia|]. split; [done|].
    split; [|split; [done|intros H0 l' H1; rewrite (Ht H0 l' H1); apply init_hw_table; unfold kMaxReta; try done; lia]].
    intros ->. unfold use_rss in E. by rewrite andb_false_r in E.
  - apply wp_ret. unfold kMaxReta in *. split; [done|]. split; [apply init_sw_ok; unfold kMaxReta; try done; lia|].
    split; [cbn; destruct (Z.eqb_spec nw 0); lia|]. by repeat split.
Qed.

(** *** Offloads *)

(** Only bits the device has. *)
Definition within (bits capa : Z) : Prop := Z.ldiff bits capa = 0.

(** What the port is configured with against what it can do: every checksum
    offload for sending that it has and no other, receive offloads and hash types
    it has, RSS exactly if the steering relies on it. *)
Definition offloads_ok (info : DevInfo) (conf : EthConf) (ps : PortSetup) (hw : bool) : Prop :=
  within (tx_offloads_conf conf) (tx_offload_capa info) /\ within (rx_offloads conf) (rx_offload_capa info) /\
  within (rss_hf_conf conf) (flow_type_rss_offloads info) /\
  tx_offloads_conf conf = Z.land want_tx (tx_offload_capa info) /\ ps_tx_offloads ps = tx_offloads_conf conf /\
  rx_rss conf = hw /\ (hw = true -> rss_key conf = None \/ rss_key conf = Some kDefaultRssKey).

Lemma within_land a b : within (Z.land a b) b.
Proof.
  apply Z.bits_inj'. intros n Hn. rewrite Z.ldiff_spec, Z.land_spec, Z.bits_0.
  by destruct (Z.testbit a n), (Z.testbit b n).
Qed.

Lemma within_lor a b c : within a c -> within b c -> within (Z.lor a b) c.
Proof. unfold within. rewrite !Z.ldiff_land, Z.land_lor_distr_l. by intros -> ->. Qed.

Lemma eth_conf_offloads nw force info ps :
  ps_tx_offloads ps = tx_offloads_conf (eth_conf nw force info) ->
  offloads_ok info (eth_conf nw force info) ps (use_rss nw force info).
Proof.
  intros Hp. unfold offloads_ok, eth_conf in *. cbn in *. split; [apply within_land|].
  rewrite (Z.land_comm (rx_offload_capa info) RX_CHECKSUM), (Z.land_comm (rx_offload_capa info) RX_RSS_HASH).
  destruct (use_rss nw force info); cbn.
  - split; [apply within_lor; apply within_land|]. split; [apply within_land|].
    split; [done|]. split; [done|]. split; [done|]. destruct (custom_key info); auto.
  - split; [apply within_land|]. by split; [apply Z.ldiff_0_l|].
Qed.

(** *** The whole set-up *)

Ltac wp_if E := match goal with |- wp (if ?b then _ else _) _ _ => destruct b eqn:E end.


Lemma setup_queues_wp setup qs h :
  wp (setup_queues setup qs) (fun r h' => r < 0 \/ (r = 0 /\ h' = (rev (setup <$> qs) ++ h)%list)) h.
Proof.
  revert h. induction qs as [|q qs IH]; intros h; [apply wp_ret; by right|]. cbn [setup_queues].
  apply wp_bind, wp_call. destruct (_ <? 0) eqn:E; bprop; [apply wp_ret; by left|].
  eapply wp_mono; [apply IH|]. intros r h' [H|[H ->]]; [by left|right]. split; [done|]. cbn.
  by rewrite <- app_assoc.
Qed.

(** The calls of a successful set-up up to the start, oldest first. *)
Definition setup_calls (plan : PortPlan) (conf : EthConf) (d : Z * Z) : list Call :=
  [InfoGet; Configure (p_rx_queues plan) (p_tx_queues plan) conf; AdjustDesc RX_RING_SIZE TX_RING_SIZE; SocketId] ++
  ((fun q => RxSetup q d.1) <$> seqZ 0 (p_rx_queues plan)) ++
  ((fun q => TxSetup q d.2) <$> seqZ 0 (p_tx_queues plan)) ++ [Start].

Lemma setup_calls_not_reta plan conf d : Forall not_reta (rev (setup_calls plan conf d)).
Proof.
  apply Forall_rev. unfold setup_calls. repeat (apply Forall_app; split); try (by repeat constructor);
    apply Forall_fmap, Forall_true; done.
Qed.

Lemma port_init_wp plan force st out h : 1 <= p_num_workers plan <= kMaxReta -> steering_shape st ->
  len (ps_mac out) = 6 /\ frame (ps_mac out) -> is_u16 (ps_mtu out) ->
  wp (port_init plan force st out) (fun '(ret, st', out') h' => ret = 0 ->
    steering_ok st' /\ n_ st' = p_num_workers plan /\ (force = true -> hw_ st' = false) /\
    (nic_table h = None -> forall l, nic_table h' = Some l -> owner_table (p_num_workers plan) st' l) /\
    (len (ps_mac out') = 6 /\ frame (ps_mac out')) /\ is_u16 (ps_mtu out') /\
    exists conf d late, h' = (late ++ rev (setup_calls plan conf d) ++ h)%list /\ Forall quiet late /\
      offloads_ok (nic_info (InfoGet :: h)) conf out' (hw_ st')) h.
Proof.
  intros Hn Hst Hmac Hmtu. unfold port_init.
  apply wp_bind, wp_call. wp_if E0; [apply wp_ret; bprop; done|].
  apply wp_bind, wp_gets. unfold id. set (info := nic_info _). set (conf := eth_conf _ _ info).
  apply wp_bind, wp_call. wp_if E1; [apply wp_ret; bprop; done|].
  apply wp_bind, wp_call. wp_if E2; [apply wp_ret; bprop; done|].
  apply wp_bind, wp_gets. destruct (nic_desc _) as [d1 d2]. apply wp_bind, wp_call, wp_bind.
  eapply wp_mono; [apply setup_queues_wp|]. intros r1 h1 [H1|[-> ->]].
  { rewrite (proj2 (Z.ltb_lt r1 0)) by done. apply wp_ret. lia. }
  apply wp_bind. eapply wp_mono; [apply setup_queues_wp|]. intros r2 h2 [H2|[-> ->]].
  { rewrite (proj2 (Z.ltb_lt r2 0)) by done. apply wp_ret. lia. }
  cbn [Z.ltb Z.compare]. apply wp_bind, wp_call. wp_if E3; [apply wp_ret; bprop; lia|].
  apply wp_bind. eapply wp_mono; [by apply init_steering_wp|]. intros st' h3 (L3 & Hok & Hnw & Hf & Hh & Ht).
  apply wp_bind. eapply wp_mono; [apply wait_link_wp|]. intros [] h4 [L4 T4].
  apply wp_bind. eapply wp_mono; [apply read_setup_wp|]. intros out' h5 ([L5 T5] & Ho & Hm' & Hu'). apply wp_ret. intros _.
  split; [done|]. split; [done|]. split; [done|]. split.
  { intros H0. rewrite T5, T4. apply Ht. rewrite <- H0. cbn [nic_table].
    pose proof (nic_table_app _ h (setup_calls_not_reta plan conf (d1, d2))) as <-.
    unfold setup_calls. rewrite !rev_app_distr. cbn [rev app fst snd]. by rewrite <- !app_assoc. }
  split; [by apply Hm'|]. split; [by apply Hu'|].
  destruct (transitivity L3 (transitivity L4 L5)) as (late & -> & Hq).
  exists conf, (d1, d2), late. split; [|split; [done|rewrite Hh; by apply eth_conf_offloads]].
  unfold setup_calls. rewrite !rev_app_distr. cbn [rev app fst snd]. by rewrite <- !app_assoc.
Qed.

Lemma port_plan_wp nw h : 1 <= nw < 65535 ->
  wp (port_plan nw) (fun r h' => h' = InfoGet :: h /\ forall plan, r = Some plan ->
    p_num_workers plan = nw /\ p_tx_queues plan = nw + 1 /\
    p_tx_queues plan <= max_tx_queues (nic_info h') /\
    0 <= p_rx_queues plan <= max_rx_queues (nic_info h') /\
    (2 * (nw + 1) <= max_rx_queues (nic_info h') -> nw + 1 <= p_rx_queues plan)) h.
Proof.
  intros Hn. apply wp_bind, wp_call. destruct (negb _); [by apply wp_ret|].
  apply wp_bind, wp_gets. unfold id. destruct (_ >? _) eqn:E; [by apply wp_ret|].
  apply wp_ret. split; [done|]. intros plan [= <-]. cbn. bprop. rewrite u16_id in * by (unfold is_u16; lia).
  pose proof (align_pow2 (nw + 1) ltac:(lia)). pose proof (info_rx (InfoGet :: h)) as Hrx. unfold is_u16 in Hrx.
  rewrite u16_id by (unfold is_u16; lia). split; [done|]. split; [done|]. split; [done|]. split; lia.
Qed.

Lemma steering0_shape : steering_shape Steering0.
Proof. split; [done|]. cbn. unfold kMaxReta. split; [lia|]. intros i Hi. lia. Qed.

Lemma setup0_typed : (len (ps_mac PortSetup0) = 6 /\ frame (ps_mac PortSetup0)) /\ is_u16 (ps_mtu PortSetup0).
Proof. split; [split; [done|]; repeat constructor; unfold is_u8; lia|cbn; unfold is_u16; lia]. Qed.

(** Planning and set-up, as main does both. *)
Definition port_start (num_workers : Z) (force_sw : bool) : ST (list Call) (option (PortPlan * Z * Steering * PortSetup)) :=
  plan ← port_plan num_workers;
  match plan with
  | None => mret None
  | Some plan =>
    '(ret, st, ps) ← port_init plan force_sw Steering0 PortSetup0;
    mret (Some (plan, ret, st, ps))
  end.

Lemma port_start_wp nw force : 1 <= nw <= kMaxReta ->
  wp (port_start nw force) (fun r h => forall plan st ps, r = Some (plan, 0, st, ps) ->
    let info := nic_info [InfoGet] in
    p_num_workers plan = nw /\ (p_tx_queues plan = nw + 1 /\ nw + 1 <= max_tx_queues info) /\
    0 <= p_rx_queues plan <= max_rx_queues info /\
    (exists conf d late, h = (late ++ rev (setup_calls plan conf d) ++ [InfoGet])%list /\ Forall quiet late /\
       offloads_ok (nic_info [InfoGet; InfoGet]) conf ps (hw_ st)) /\
    steering_ok st /\ n_ st = nw /\ (force = true -> hw_ st = false) /\ (forall l, nic_table h = Some l -> owner_table nw st l) /\
    (len (ps_mac ps) = 6 /\ frame (ps_mac ps)) /\ is_u16 (ps_mtu ps)) [].
Proof.
  intros Hn. unfold kMaxReta in *. apply wp_bind. eapply wp_mono; [apply port_plan_wp; lia|].
  intros r h [-> Hp]. destruct r as [plan|]; [|by apply wp_ret].
  destruct (Hp plan eq_refl) as (P1 & P2 & P3 & P4 & _). destruct setup0_typed as [Hm Hu].
  apply wp_bind. eapply wp_mono; [apply port_init_wp; [unfold kMaxReta; lia|apply steering0_shape|done|done]|].
  intros [[ret st] ps] h H. apply wp_ret. intros plan' st' ps' [= <- -> <- <-]. cbn zeta.
  destruct (H eq_refl) as (S1 & S2 & S3 & S4 & S5 & S6 & conf & d & late & -> & Hq & Hof).
  split; [done|]. split; [lia|]. split; [done|]. split; [by eexists _, _, _|].
  rewrite P1 in *. repeat (split; [first [assumption|by apply S4]|]). assumption.
Qed.

End Port.

(** C22. Setting up the port, with any NIC: when planning and port_init succeed, the
    queue numbers are within what the NIC reported; the port was configured once,
    then every RX queue and every TX queue set up once in order, then started, and
    after that only read; the configuration asks only for offloads and hash types
    the NIC reported, for every checksum offload on sending among them, and the
    setup handed on names exactly those; RSS is on exactly if the steering relies on
    it; the steering names existing workers only, and is in software if that was
    forced. *)
Theorem port_setup_ok {N : Nic} {NL : NicLaws N} `{HF : RteHashFns} nw force plan st ps h :
  1 <= nw <= kMaxReta -> port_start nw force [] = Some (Some (plan, 0, st, ps), h) ->
  let info := nic_info [InfoGet] in
  p_num_workers plan = nw /\ (p_tx_queues plan = nw + 1 /\ nw + 1 <= max_tx_queues info) /\
  0 <= p_rx_queues plan <= max_rx_queues info /\
  (exists conf d late, h = (late ++ rev (setup_calls plan conf d) ++ [InfoGet])%list /\ Forall quiet late /\
     offloads_ok (nic_info [InfoGet; InfoGet]) conf ps (hw_ st)) /\
  steering_ok st /\ n_ st = nw /\ (force = true -> hw_ st = false) /\
  (len (ps_mac ps) = 6 /\ frame (ps_mac ps)) /\ is_u16 (ps_mtu ps).
Proof.
  intros Hn H. pose proof (port_start_wp nw force Hn) as Hw. unfold wp in Hw. rewrite H in Hw.
  destruct (Hw plan st ps eq_refl) as (A & B & C & D & E & F & G & _ & I & J).
  repeat (split; [assumption|]). assumption.
Qed.

(** C19. With RSS in use the NIC delivers a flow to the worker that owns it.  Take
    the redirection table the NIC has after the set-up: the one read back from it,
    or the one it accepted if it cannot be read.  Every flow has an entry in it, by
    its Toeplitz hash, and if the entry is a queue the port has, the worker that
    polls this queue is the owner fwd_owner computes.  (Of a NIC without a table,
    or with one of more than 512 entries, that is not read, nothing is said.) *)
Theorem rss_queue_polled_by_owner {N : Nic} {NL : NicLaws N} `{HF : RteHashFns} `{HL : !RteHashFnsLaws HF}
    nw plan st ps h table lc t :
  2 <= nw <= kMaxReta -> port_start nw false [] = Some (Some (plan, 0, st, ps), h) -> hw_ st = true ->
  nic_table h = Some table ->
  Worker.pipeline lc = false -> Worker.num_workers lc = nw -> Worker.num_rx_queues lc = p_rx_queues plan ->
  p_rx_queues plan + nw <= 65536 ->
  len table = reta_size_ st /\
  exists q, table !! Z.to_nat (rss_hash st t (l4_hashed st (protocol t)) mod len table) = Some q /\
    (q < p_rx_queues plan -> q ∈ Worker.rxqs lc (fwd_owner st t)).
Proof.
  intros Hn H Hh Ht Hp Hlw Hlr Hb. pose proof (port_start_wp nw false ltac:(unfold kMaxReta in *; lia)) as Hw.
  unfold wp in Hw. rewrite H in Hw.
  destruct (Hw plan st ps eq_refl) as (P1 & P2 & P3 & _ & Hok & Hnw & _ & Hl & _).
  destruct (Hl table Ht Hh) as (Hsz & Hpos & Hu & Ho). split; [done|].
  pose proof (Z.mod_pos_bound (rss_hash st t (l4_hashed st (protocol t))) (len table) ltac:(lia)) as Hm.
  destruct (lookup_lt_is_Some_2 table (Z.to_nat (rss_hash st t (l4_hashed st (protocol t)) mod len table))) as [q Hq];
    [unfold len in *; lia|].
  exists q. split; [done|]. intros Hlt.
  assert (Hf : fwd_owner st t = q mod nw).
  { unfold fwd_owner. rewrite Hnw, Hh. assert (nw =? 1 = false) as -> by (apply Z.eqb_neq; lia). cbn [negb].
    unfold by_reta. rewrite Hsz. assert (len table =? 0 = false) as -> by (apply Z.eqb_neq; lia). by apply Ho. }
  assert (0 <= q) by (rewrite Forall_forall in Hu; apply (Hu q); by eapply list_elem_of_lookup_2).
  pose proof (Z.mod_pos_bound q nw ltac:(lia)). apply WorkerProps.rx_queues_partition; try lia; [done|].
  by rewrite Hf, Hlw.
Qed.

(** ** A NIC that accepts everything *)

Definition toy_reta (h : list Call) : list Reta64 :=
  match h with
  | RetaQuery c _ :: RetaUpdate u _ :: _ =>
    if bool_decide (len u = len c /\ Forall (fun e => len (reta e) = GROUP /\ Forall (fun q => 0 <= q < 65536) (reta e)) u)
    then u else (fun _ => reta0) <$> c
  | RetaQuery c _ :: _ => (fun _ => reta0) <$> c
  | _ => []
  end.

#[local] Instance toy_nic : Nic := {
  nic_ret := fun _ => 0;
  nic_info := fun _ => mkDevInfo 16 16 14 14 52 40 128;
  nic_desc := fun _ => (1024, 1024);
  nic_reta := toy_reta;
  nic_link_up := fun _ => true;
  nic_mac := fun _ => [2; 0; 0; 0; 0; 1];
  nic_mtu := fun _ => 1500;
  align32pow2 := fun x => 2 ^ Z.log2_up x;
  TX_IPV4_CKSUM := 2; TX_UDP_CKSUM := 4; TX_TCP_CKSUM := 8;
  RX_CHECKSUM := 14; RX_RSS_HASH := 524288;
  RSS_IPV4 := 4; RSS_NONFRAG_IPV4_TCP := 16; RSS_NONFRAG_IPV4_UDP := 32;
}.

#[local] Instance toy_nic_laws : NicLaws toy_nic.
Proof.
  split.
  1-3: intros h; unfold is_u16; cbn; lia.
  - intros h. cbn. lia.
  - intros h c size _. cbn. unfold toy_reta.
    assert (H0 : len ((fun _ => reta0) <$> c) = len c /\
      Forall (fun e => len (reta e) = GROUP /\ Forall is_u16 (reta e)) ((fun _ => reta0) <$> c)).
    { split; [unfold len; by rewrite length_fmap|]. apply Forall_fmap, Forall_true. intros e.
      split; [done|]. change (reta (compose (fun _ => reta0) id e)) with (replicate 64 0). apply Forall_replicate. unfold is_u16. lia. }
    destruct h as [|[] h]; try done. case_bool_decide as E; [exact E|done].
  - intros h. split; [done|]. repeat constructor; unfold is_u8; lia.
  - intros h. unfold is_u16. cbn. lia.
  - intros x Hx. cbn. destruct (Z.eq_dec x 1) as [->|]; [cbn; lia|].
    pose proof (Z.log2_up_spec x ltac:(lia)) as [H1 H2]. split; [done|].
    pose proof (Z.log2_up_pos x ltac:(lia)).
    replace (Z.log2_up x) with (Z.succ (Z.pred (Z.log2_up x))) by lia. rewrite Z.pow_succ_r by lia. lia.
Qed.

Definition toy_started : option (PortPlan * Z * Steering * PortSetup) * list Call :=
  default (None, []) (port_start (HF := mix_fns) 3 false []).

Definition toy_lc : Worker.LoopConf := Worker.mkLoopConf false 3 4 3000000000 0 [true; true; true].

Lemma port_setup_ok_witness : exists plan st ps,
  toy_started.1 = Some (plan, 0, st, ps) /\ p_rx_queues plan = 4 /\ n_ st = 3.
Proof.
  destruct (port_start (HF := mix_fns) 3 false []) as [[[[[[plan ret] st] ps]|] h]|] eqn:E; [|vm_compute in E; discriminate..].
  assert (Hr : ret = 0) by (vm_compute in E; congruence). subst ret.
  assert (Hq : p_rx_queues plan = 4) by (vm_compute in E; injection E as <- _ _ _; reflexivity).
  exists plan, st, ps. unfold toy_started. rewrite E. split; [reflexivity|]. split; [exact Hq|].
  apply (port_setup_ok (HF := mix_fns) 3 false plan st ps h); [unfold kMaxReta; lia|exact E].
Defined.

(** A flow of three workers' NIC: its entry, 64, names queue 1, that worker 1 polls. *)
Definition toy_flow : FiveTuple := mkFiveTuple 167772161 167772162 1234 80 6.

Definition toy_table : list Z := default [] (nic_table toy_started.2).

Lemma rss_queue_polled_by_owner_witness : toy_table !! 64%nat = Some 1 /\ 1 ∈ Worker.rxqs toy_lc 1.
Proof.
  destruct (port_start (HF := mix_fns) 3 false []) as [[[[[[plan ret] st] ps]|] h]|] eqn:E; [|vm_compute in E; discriminate..].
  assert (Hr : ret = 0) by (vm_compute in E; congruence). subst ret.
  assert (Hq : p_rx_queues plan = 4) by (vm_compute in E; injection E as <- _ _ _; reflexivity).
  assert (Hh : h = toy_started.2) by (unfold toy_started; rewrite E; reflexivity).
  assert (Hs : hw_ st = true /\ fwd_owner (HF := mix_fns) st toy_flow = 1 /\
               rss_hash (HF := mix_fns) st toy_flow (l4_hashed st (protocol toy_flow)) mod 128 = 64)
    by (vm_compute in E; injection E as _ <- _ _; vm_compute; repeat split).
  destruct Hs as (Hw & Hf & Hx).
  assert (Ht : toy_table !! 64%nat = Some 1) by (vm_compute; reflexivity). split; [exact Ht|].
  assert (Hl : len toy_table = 128) by (vm_compute; reflexivity).
  destruct (rss_queue_polled_by_owner (HF := mix_fns) 3 plan st ps h toy_table toy_lc toy_flow) as (_ & q & H1 & H2).
  - unfold kMaxReta. lia.
  - exact E.
  - exact Hw.
  - rewrite Hh. vm_compute. reflexivity.
  - reflexivity.
  - reflexivity.
  - symmetry. exact Hq.
  - rewrite Hq. lia.
  - rewrite Hl, Hx in H1. change (Z.to_nat 64) with 64%nat in H1. rewrite Ht in H1. injection H1 as <-.
    rewrite Hf in H2. apply H2. rewrite Hq. lia.
Defined.

End PortProps.
