(* ===== verification/Main.v ===== *)
(** Main: start-up as src/main.cpp does it.

    What the operating system and DPDK's environment answer is a record ([Env]);
    the NIC is the one of Port.  A start ends in an exit code, with the logger as it
    is left, or in a running system; [None] is undefined behaviour.  The threads
    are not run here: [launch] says which loop goes on which lcore.  Of the log,
    the lines of failures are modelled, progress messages are not. *)
From S2P Require Import Prelude Types Mem Dpdk Session Steering Config Snapshot Neigh Context Worker Receiver Port Text Print ConfigText Stdio Logger.
From Stdlib Require Import String Ascii.
Import Session Steering Config Snapshot Context Receiver Port Text Print ConfigText.

Module Main.
Local Open Scope string_scope.
Local Open Scope Z_scope.

(** ** Options *)

Definition LONG_MAX : Z := 9223372036854775807.

(** strtol(s, &end, 10): the value and what [end] points to. *)
Definition strtol (s : string) : Z * string :=
  let '(neg, t) := sign (skip_space s) in
  if starts_digit decimal t then
    let '(v, rest) := scan_digits decimal 10 0 t in
    (if neg : bool then Z.max (- v) (- LONG_MAX - 1) else Z.min v LONG_MAX, rest)
  else (0, s).

Record Args := mkArgs {
  a_config_file : string;
  a_log_level : string;
  a_log_dir : option string;   (** log_dir_set and log_dir *)
  a_port : Z;
  a_check_only : bool;
  a_eal : list string;         (** eal_argv after argv[0] *)
}.

Definition Args0 : Args := mkArgs "config/lb.conf" EmptyString None 0 false [].

Definition set_config_file (v : string) (a : Args) : Args := mkArgs v (a_log_level a) (a_log_dir a) (a_port a) (a_check_only a) (a_eal a).
Definition set_log_level (v : string) (a : Args) : Args := mkArgs (a_config_file a) v (a_log_dir a) (a_port a) (a_check_only a) (a_eal a).
Definition set_log_dir (v : string) (a : Args) : Args := mkArgs (a_config_file a) (a_log_level a) (Some v) (a_port a) (a_check_only a) (a_eal a).
Definition set_port (v : Z) (a : Args) : Args := mkArgs (a_config_file a) (a_log_level a) (a_log_dir a) v (a_check_only a) (a_eal a).
Definition set_check (a : Args) : Args := mkArgs (a_config_file a) (a_log_level a) (a_log_dir a) (a_port a) true (a_eal a).
Definition add_eal (v : string) (a : Args) : Args := mkArgs (a_config_file a) (a_log_level a) (a_log_dir a) (a_port a) (a_check_only a) (a_eal a ++ [v])%list.

(** --port: [None] is an invalid number. *)
Definition port_arg (max_ports : Z) (s : string) : option Z :=
  let '(v, rest) := strtol s in
  if negb (empty rest) || (v <? 0) || (v >=? max_ports) then None else Some v.

(** The loop over argv[1..]; inl is an exit code. *)
Fixpoint parse_args (max_ports : Z) (argv : list string) (a : Args) : Z + Args :=
  match argv with
  | [] => inr a
  | x :: rest =>
    let other :=
      if String.eqb x "--check-config" then parse_args max_ports rest (set_check a)
      else if String.eqb x "--help-lb" then inl 0
      else parse_args max_ports rest (add_eal x a) in
    match rest with
    | [] => other
    | v :: rest' =>
      if String.eqb x "--lb-config" then parse_args max_ports rest' (set_config_file v a)
      else if String.eqb x "--log" then parse_args max_ports rest' (set_log_level v a)
      else if String.eqb x "--log-dir" then parse_args max_ports rest' (set_log_dir v a)
      else if String.eqb x "--port" then
        match port_arg max_ports v with
        | Some n => parse_args max_ports rest' (set_port n a)
        | None => inl 1
        end
      else other
    end
  end.

(** ** The environment *)

(** Memory, rings and tables that may not be had. *)
Inductive Resource :=
| RPool (n : Z) | RQsbr | RNeigh | RMasterRing | RHealthRing
| RWorker (i : Z) | RRsStats (i : Z) | RSession (i : Z) | RRedirect (i : Z) | RRxRing (i : Z)
| RMaster | RReceiver
| RMasterThread.                      (** master_start *)

Record Env := mkEnv {
  e_max_ports : Z;
  e_read : string -> option string;   (** the text of a file *)
  e_eal : list string -> Z;           (** rte_eal_init *)
  e_rte_error : string;               (** rte_strerror(rte_errno) *)
  e_tsc_hz : Z;
  e_start_tsc : Z;
  e_valid_port : Z -> bool;
  e_main_lcore : Z;
  e_worker_lcores : list Z;
  e_has : Resource -> bool;
}.

Definition MBUF_CACHE_SIZE : Z := 512.
Definition REDIRECT_RING_SIZE : Z := 4096.
Definition RX_RING_ELEMS : Z := 4096.

Definition num_lcores (e : Env) : Z := u16 (1 + len (e_worker_lcores e)).
Definition num_workers (e : Env) (pipeline : bool) : Z := if pipeline then u16 (num_lcores e - 1) else num_lcores e.

(** The size of the mbuf pool. *)
Definition nb_mbufs (plan : PortPlan) (nw lcores : Z) (pipeline : bool) : Z :=
  u32 (p_rx_queues plan * RX_RING_SIZE + p_tx_queues plan * TX_RING_SIZE +
       nw * (REDIRECT_RING_SIZE + BURST_SIZE * 2) + (if pipeline then nw * RX_RING_ELEMS else 0) +
       (lcores + 1) * MBUF_CACHE_SIZE * 2 + 4096).

(** Sessions of one worker. *)
Definition per_worker (max_sessions nw : Z) : Z := Z.max (max_sessions / nw) 1024.

(** The NIC's address unless another one is configured. *)
Definition choose_mac (vip_mac nic_mac : MacAddr) : MacAddr :=
  if negb (mac_is_zero vip_mac) && negb (bool_decide (vip_mac = nic_mac)) then vip_mac else nic_mac.

(** The first local address, or the first VIP; no service is undefined behaviour. *)
Definition route_src (c : LbConfig) : option IPv4Addr :=
  match c_local_ips c with
  | ip :: _ => Some ip
  | [] => match c_services c with s :: _ => Some (sc_vip s) | [] => None end
  end.

Definition log_options (d : string) (o : Options) : Logger.LogFileOptions :=
  Logger.mkLogFileOptions d "l4lb.log" (u64 (Z.shiftl (o_log_max_size_mb o) 20)) (o_log_max_files o) (o_log_stderr o) 8192.

(** What an lcore runs. *)
Inductive Role := RunReceiver | RunWorker (i : Z).

Definition lcores (e : Env) (pipeline : bool) : list Z :=
  if pipeline then e_worker_lcores e else e_main_lcore e :: e_worker_lcores e.

(** rte_eal_remote_launch of the workers, and what the main lcore runs itself. *)
Definition launch (e : Env) (pipeline : bool) (nw : Z) : list (Z * Role) :=
  ((fun i => (lcores e pipeline !!! Z.to_nat i, RunWorker i)) <$> seqZ (if pipeline then 0 else 1) (if pipeline then nw else nw - 1)) ++
  [(e_main_lcore e, if pipeline then RunReceiver else RunWorker 0)].

Section Start.
Context `{RH : RteHash FiveTuple} `{NH : RteHash Z} `{HF : RteHashFns} {N : Nic} {I : Inet} {L : Libc}.
Context (max_lcore : nat).

Record System := mkSystem {
  s_dp : Dataplane (NH := NH);
  s_lc : Worker.LoopConf;
  s_workers : list (WorkerCtx (RH := RH));
  s_mgr : SnapshotManager;
  s_log : Logger.Log;
  s_pool : Z;
  s_threads : list (Z * Role);
  s_running : bool;                   (** g_running when main has launched *)
}.

(** *** Exits *)

(** The exit code and the logger at the end. *)
Definition Exit : Type := Z * Logger.Log.

Definition exit_with (code : Z) (m : ST Logger.Log unit) (log : Logger.Log) : option (Exit + System) :=
  '(_, log) ← m log; Some (inl (code, log)).

(** What rte_eal_cleanup does to the log: it closes the stream it was given. *)
Definition eal_cleanup : ST Logger.Log unit :=
  l ← gets id; when (Logger.dpdk l) (Logger.cookie_close ;; mret tt).

(** Of __FILE__, only the last component is printed. *)
Definition LOG_FATAL (line : Z) (func msg : string) : ST Logger.Log unit :=
  Logger.L4LB_LOG Logger.FATAL "main.cpp" line func (Some msg).

Definition fail (msg : string) : Logger.Log -> option (Exit + System) :=
  exit_with 1 (LOG_FATAL 82 "fail" msg ;; eal_cleanup ;; Logger.shutdown).

(** The log file: failing to open it is not an error. *)
Definition start_log (a : Args) (o : Options) (log : Logger.Log) : option Logger.Log :=
  let level := if empty (a_log_level a) then o_log_level o else a_log_level a in
  let log := Logger.set_lv (Logger.set_level level (Logger.level log)) log in
  let d := match a_log_dir a with Some d => d | None => o_log_dir o end in
  if empty d || a_check_only a then Some log
  else
    '(ok, log) ← Logger.open_file "logger.cpp" (log_options d o) log;
    if ok : bool then '(_, log) ← Logger.dpdk_stream log; Some log else Some log.

(** One worker's context, or the message of what could not be had. *)
Definition start_worker (e : Env) (pipeline : bool) (c : LbConfig) (sessions i : Z) : string + WorkerCtx :=
  if negb (e_has e (RWorker i)) then inl "Failed to allocate worker context"
  else if negb (e_has e (RRsStats i)) then inl "Failed to allocate RS counters"
  else match Session.init sessions 1 (e_has e (RSession i)) with
       | None => inl "Failed to create session table"
       | Some t =>
         if negb (e_has e (RRedirect i)) then inl "Failed to create redirect ring"
         else if pipeline && negb (e_has e (RRxRing i)) then inl "Failed to create rx ring"
         else inr (mkCtx i t [] Stats0 ∅ (replicate (List.length (c_local_ips c)) 0) 0 1 0)
       end.

Fixpoint start_workers (e : Env) (pipeline : bool) (c : LbConfig) (sessions : Z) (ids : list Z) : string + list WorkerCtx :=
  match ids with
  | [] => inr []
  | i :: ids =>
    match start_worker e pipeline c sessions i with
    | inl msg => inl msg
    | inr w => match start_workers e pipeline c sessions ids with inl msg => inl msg | inr l => inr (w :: l) end
    end
  end.

Definition static_entries (c : LbConfig) (t : Neigh.NeighTable (RH := NH)) : Neigh.NeighTable :=
  foldl (fun t r => if mac_is_zero (rc_mac r) then t else Neigh.add_static t (rc_ip r) (rc_mac r)) t
    (s ← c_services c; sc_rs s).

(** From the route on: what main sets up once the port runs. *)
Definition start_rest (e : Env) (c : LbConfig) (o : Options) (pipeline : bool) (nw : Z) (plan : PortPlan)
    (st : Steering) (ps : PortSetup) (log : Logger.Log) : option (Exit + System) :=
  let mac := choose_mac (o_vip_mac o) (ps_mac ps) in
  if negb (e_has e RQsbr) then fail "Failed to init RCU" log
  else
    ip ← route_src c;
    let route := Route.init ip (c_netmask c) (c_gateway c) in
    match Neigh.init (e_has e RNeigh) with
    | None => fail "Failed to init neighbor table" log
    | Some t =>
      let t := static_entries c t in
      if negb (e_has e RMasterRing) || negb (e_has e RHealthRing) then fail "Failed to create rings" log
      else
        mgr ← Snapshot.init max_lcore Manager0 c;
        match start_workers e pipeline c (per_worker (c_max_sessions c) nw) (seqZ 0 nw) with
        | inl msg => fail msg log
        | inr ws =>
          if negb (e_has e RMaster) then fail "Failed to allocate master context" log
          else if pipeline && negb (e_has e RReceiver) then fail "Failed to allocate receiver stats" log
          else
            Some (inr (mkSystem (mkDp mac (ps_tx_offloads ps) (ps_mtu ps) c st route t)
              (Worker.mkLoopConf pipeline nw (p_rx_queues plan) (e_tsc_hz e) (e_start_tsc e) (replicate (Z.to_nat nw) true))
              ws mgr log (nb_mbufs plan nw (num_lcores e) pipeline)
              (if e_has e RMasterThread then launch e pipeline nw else []) (e_has e RMasterThread)))
        end
    end.

(** After the configuration: EAL, lcores, pool and port. *)
Definition start_port (e : Env) (a : Args) (c : LbConfig) (o : Options) (log : Logger.Log) : option (Exit + System) :=
  if e_eal e (a_eal a) <? 0 then
    exit_with 1 (LOG_FATAL 162 "main" (Logger.cat ["Failed to initialize DPDK EAL: "; e_rte_error e]) ;; Logger.shutdown) log
  else if negb (e_valid_port e (u16 (a_port a))) then
    fail "DPDK port not available (bind a NIC first, see scripts/setup_dpdk_env.sh)" log
  else
    let pipeline := match o_dataplane o with PIPELINE => true | RTC => false end in
    let nw := num_workers e pipeline in
    if nw <? 1 then fail "pipeline dataplane needs at least 2 lcores (1 receiver + workers), e.g. -l 1-3" log
    else if pipeline && (nw >? kMaxPipelineWorkers) then
      exit_with 1 (LOG_FATAL 187 "main" (Logger.cat ["pipeline dataplane supports at most "; to_string kMaxPipelineWorkers; " workers"]) ;;
                   eal_cleanup ;; Logger.shutdown) log
    else
      '(plan, h) ← port_plan nw [];
      match plan with
      | None => exit_with 1 (eal_cleanup ;; Logger.shutdown) log
      | Some plan =>
        if negb (e_has e (RPool (nb_mbufs plan nw (num_lcores e) pipeline))) then fail "Failed to create mbuf pool" log
        else
          '(r, _) ← port_init plan (o_force_sw_steering o || pipeline) Steering0 PortSetup0 h;
          let '(ret, st, ps) := r in
          if negb (ret =? 0) then fail "Failed to initialize port" log
          else start_rest e c o pipeline nw plan st ps log
      end.

Definition start (e : Env) (argv : list string) (log : Logger.Log) : option (Exit + System) :=
  match parse_args (e_max_ports e) argv Args0 with
  | inl code => exit_with code (mret tt) log
  | inr a =>
    match text ← e_read e (a_config_file a); load text with
    | None => exit_with 1 (LOG_FATAL 129 "main" (Logger.cat ["Invalid config "; a_config_file a])) log
    | Some (c, o) =>
      log ← start_log a o log;
      if a_check_only a then exit_with 0 (mret tt) log else start_port e a c o log
    end
  end.

End Start.
End Main.
