(* ===== verification/MainProps.v ===== *)
(** MainProps: from the command line, the configuration file and the NIC to
    threads that run: start-up does not fault and hands every loop a state that
    satisfies its invariant. *)
From S2P Require Import Prelude Types TcpState Mem Text Print Dpdk Session SessionInv SessionSpec SessionThms Headers Parser ParserThms ForwardProps Steering Scheduler Config ConfigText Snapshot SnapshotThms ManagerThms ManagerProps Neigh NeighProps Context Processor ProcessorInv ProcessorThms ProcessorStart Worker WorkerThms WorkerProps Receiver ConfigProps ControlProps Port PortProps Stdio Logger LoggerThms Main.
From Stdlib Require Import String Ascii.
Import Tcp Session SessionSpec SessionThms Parser Steering Scheduler Config Text ConfigText Snapshot SnapshotThms ManagerThms ManagerProps Context Processor ProcessorInv ProcessorStart Receiver ConfigProps ControlProps Port PortProps Main.

Module MainProps.

(** An empty argument passes for port 0. *)
Lemma empty_port_accepted max_ports : 0 < max_ports -> port_arg max_ports EmptyString = Some 0.
Proof. intros H. unfold port_arg. cbn. destruct (Z.geb_spec 0 max_ports); [lia|done]. Qed.

(** ** Threads *)

Lemma num_workers_range e pl : len (e_worker_lcores e) < kMaxReta ->
  num_lcores e = 1 + len (e_worker_lcores e) /\
  num_workers e pl = (if pl : bool then len (e_worker_lcores e) else 1 + len (e_worker_lcores e)) /\
  0 <= num_workers e pl <= kMaxReta.
Proof.
  unfold kMaxReta, num_workers, num_lcores. intros H. pose proof (len_nonneg (e_worker_lcores e)).
  rewrite (u16_id (1 + _)) by (unfold is_u16; lia).
  destruct pl; [rewrite u16_id by (unfold is_u16; lia)|]; lia.
Qed.

Lemma lookup_total_seqZ {A} `{Inhabited A} (l : list A) k :
  (fun i => l !!! Z.to_nat i) <$> seqZ (Z.of_nat k) (len l - Z.of_nat k) = skipn k l.
Proof.
  apply list_eq. intros i. rewrite list_lookup_fmap, lookup_drop.
  destruct (decide (k + i < List.length l)%nat) as [Hi|Hi].
  - rewrite (proj2 (lookup_seqZ _ _ _ _)) by (split; [reflexivity|unfold len; lia]). cbn.
    replace (Z.to_nat (Z.of_nat k + Z.of_nat i)) with (k + i)%nat by lia.
    by destruct (lookup_lt_is_Some_2 l (k + i) Hi) as [x Hx]; rewrite (list_lookup_total_correct _ _ _ Hx).
  - rewrite (lookup_ge_None_2 l) by lia. rewrite lookup_ge_None_2; [done|]. rewrite length_seqZ. unfold len. lia.
Qed.

(** Every lcore runs one loop, every worker's loop runs on one lcore. *)
Lemma launch_spec e pl : len (e_worker_lcores e) < kMaxReta -> 1 <= num_workers e pl ->
  (launch e pl (num_workers e pl)).*1 = (e_worker_lcores e ++ [e_main_lcore e])%list /\
  (launch e pl (num_workers e pl)).*2 ≡ₚ ((RunWorker <$> seqZ 0 (num_workers e pl)) ++ (if pl then [RunReceiver] else []))%list.
Proof.
  intros Hlc Hn. destruct (num_workers_range e pl Hlc) as (_ & Hnw & _). unfold launch.
  rewrite !fmap_app, <- !list_fmap_compose. destruct pl; cbn [fmap list_fmap app].
  - split; [|done]. f_equal. rewrite Hnw. pose proof (lookup_total_seqZ (e_worker_lcores e) 0) as H. cbn in H.
    rewrite Z.sub_0_r, drop_0 in H. exact H.
  - split.
    + f_equal. rewrite Hnw. pose proof (lookup_total_seqZ (e_main_lcore e :: e_worker_lcores e) 1) as H.
      rewrite len_cons in H. replace (1 + len (e_worker_lcores e) - Z.of_nat 1) with (len (e_worker_lcores e)) in H by lia.
      replace (1 + len (e_worker_lcores e) - 1) with (len (e_worker_lcores e)) by lia. exact H.
    + rewrite app_nil_r, (seqZ_cons 0) by lia. cbn. rewrite Permutation_app_comm. cbn.
      by replace (Z.pred (num_workers e false)) with (num_workers e false - 1) by lia.
Qed.

Section Props.
Context `{RH : RteHash FiveTuple} `{RL : !RteHashLaws FiveTuple RH} `{NH : RteHash Z} `{NHL : !RteHashLaws Z NH}.
Context `{HF : RteHashFns} `{HL : !RteHashFnsLaws HF} {N : Nic} {NL : NicLaws N} {I : Inet} {IL : InetLaws I} {L : Libc}.
Context (max_lcore : nat) (ML : (0 < max_lcore)%nat).

(** ** Pieces *)

Lemma route_src_some c : config_ok c -> is_Some (route_src c).
Proof.
  intros [C1 _ _ _ _ _ _ _]. unfold route_src. destruct (c_local_ips c); [|eauto].
  destruct (c_services c); [|eauto]. unfold len in C1. cbn in C1. lia.
Qed.

Lemma choose_mac_wf a b : NeighProps.mac_wf a -> NeighProps.mac_wf b -> NeighProps.mac_wf (choose_mac a b).
Proof. unfold choose_mac. by destruct (_ && _). Qed.

Lemma static_entries_good c t : in_range c -> NeighProps.good t -> NeighProps.good (static_entries c t).
Proof.
  intros R G. unfold static_entries. set (l := s ← c_services c; sc_rs s).
  assert (Hl : Forall rs_in_range l).
  { unfold l. apply Forall_forall. intros r (s & Hr & Hs)%list_elem_of_bind.
    pose proof (ir_services _ R) as HS. rewrite Forall_forall in HS. destruct (HS s Hs) as (_ & _ & _ & HR).
    rewrite Forall_forall in HR. by apply HR. }
  clearbody l. revert t G. induction Hl as [|r l Hr Hl IH]; intros t G; [done|]. cbn [foldl]. apply IH.
  destruct (mac_is_zero (rc_mac r)); [done|]. destruct Hr as (_ & _ & _ & W).
  exact (proj1 (NeighProps.nexec_goes t (NeighProps.NStatic (rc_ip r) (rc_mac r)) G W)).
Qed.

Lemma per_worker_bounds m nw : 1024 <= m <= 67108864 -> 1 <= nw -> 0 < per_worker m nw <= 67108864.
Proof.
  intros Hm Hn. unfold per_worker. assert (m / nw <= m) by (apply Z.div_le_upper_bound; nia). lia.
Qed.

(** A worker before its first round. *)
Definition fresh_worker (nlip : nat) (i : Z) (w : WorkerCtx (RH := RH)) (cap : Z) : Prop :=
  idx w = i /\ tx w = [] /\ now_tick w = 1 /\ List.length (lip_cursor w) = nlip /\
  Session.init cap 1 true = Some (sessions w).

Lemma start_worker_fresh e p c cap i w : start_worker e p c cap i = inr w -> fresh_worker (List.length (c_local_ips c)) i w cap.
Proof.
  unfold start_worker. destruct (negb (e_has e (RWorker i))); [done|]. destruct (negb (e_has e (RRsStats i))); [done|].
  destruct (Session.init _ _ _) as [t|] eqn:Ht; [|done]. destruct (negb _); [done|]. destruct (_ && _); [done|].
  intros [= <-]. split; [done|]. split; [done|]. split; [done|]. split; [apply length_replicate|].
  cbn. destruct (e_has e (RSession i)); [done|]. unfold Session.init in Ht. apply bind_Some in Ht as (h & _ & Ht). done.
Qed.

Lemma start_workers_fresh e p c cap ids ws : start_workers e p c cap ids = inr ws ->
  List.length ws = List.length ids /\
  forall k i w, ids !! k = Some i -> ws !! k = Some w -> fresh_worker (List.length (c_local_ips c)) i w cap.
Proof.
  revert ws. induction ids as [|i ids IH]; intros ws H; [injection H as <-; split; [done|by intros []]|].
  cbn [start_workers] in H. destruct (start_worker e p c cap i) as [|w] eqn:Hw; [done|].
  destruct (start_workers e p c cap ids) as [|l]; [done|]. injection H as <-.
  destruct (IH l eq_refl) as [IH1 IH2]. split; [cbn; by f_equal|].
  intros [|k] j x Hj Hx; cbn in *; [injection Hj as <-; injection Hx as <-; by eapply start_worker_fresh|by eapply IH2].
Qed.

(** ** The running system *)

Record system_ok (sys : System (RH := RH) (NH := NH)) : Prop := {
  sy_dp : dp_ok (s_dp sys) max_lcore;
  sy_conf : WorkerThms.conf_ok (s_dp sys) (s_lc sys);
  sy_neigh : NeighProps.good (dp_neigh (s_dp sys));
  sy_workers : Z.of_nat (List.length (s_workers sys)) = n_ (dp_steering (s_dp sys)) /\
    Worker.num_workers (s_lc sys) = n_ (dp_steering (s_dp sys));
  sy_served : served max_lcore (s_mgr sys);
  sy_log : LoggerThms.ready (s_log sys);
  sy_fresh k w : s_workers sys !! k = Some w ->
    exists cap, 0 < cap <= 67108864 /\ fresh_worker (List.length (c_local_ips (dp_cfg (s_dp sys)))) (Z.of_nat k) w cap;
}.

(** A start ends: in an exit with a logger that has written everything, or in a
    system with the property [P]. *)
Definition ends (P : System (RH := RH) (NH := NH) -> Prop) (r : option (Exit + System)) : Prop :=
  match r with
  | Some (inl (code, log)) => (code = 0 \/ code = 1) /\ LoggerThms.closed log
  | Some (inr sys) => P sys
  | None => False
  end.

Lemma ends_mono (P Q : System -> Prop) r : ends P r -> (forall sys, P sys -> Q sys) -> ends Q r.
Proof. destruct r as [[[]|]|]; cbn; auto. Qed.

Lemma ends_exit P code m log : code = 0 \/ code = 1 -> wp m (fun _ => LoggerThms.closed) log -> ends P (exit_with code m log).
Proof. intros Hc (l & Hm & Hl)%LoggerThms.wp_unit. unfold exit_with. rewrite Hm. by cbn. Qed.

Lemma cleanup_shutdown log : LoggerThms.ready log -> wp (eal_cleanup ;; Logger.shutdown) (fun _ => LoggerThms.closed) log.
Proof.
  intros R. apply wp_bind. eapply (wp_mono _ (fun _ => LoggerThms.ready)).
  - apply wp_bind, wp_gets, wp_when; [|done]. intros _. apply wp_bind.
    eapply wp_mono; [by apply LoggerThms.cookie_close_ready|]. by intros z l R'.
  - intros [] l R'. by apply LoggerThms.shutdown_closes.
Qed.

Lemma ends_fatal P line fn msg m log : LoggerThms.ready log ->
  (forall l, LoggerThms.ready l -> wp m (fun _ => LoggerThms.closed) l) -> ends P (exit_with 1 (LOG_FATAL line fn msg ;; m) log).
Proof.
  intros R H. apply ends_exit; [by right|]. apply wp_bind. unfold LOG_FATAL.
  eapply wp_mono; [exact (LoggerThms.L4LB_LOG_ready _ _ _ _ _ _ R)|]. intros [] l R'. exact (H l R').
Qed.

Lemma ends_fail P msg log : LoggerThms.ready log -> ends P (fail msg log).
Proof. intros R. apply ends_fatal; [done|]. intros l. apply cleanup_shutdown. Qed.

Lemma start_rest_ok e c o text pl nw plan st ps log :
  load text = Some (c, o) -> len (conf_rs (c_services c)) < kMaxRsCounters -> 0 < e_tsc_hz e ->
  1 <= nw <= kMaxReta -> steering_ok st -> n_ st = nw -> len (ps_mac ps) = 6 /\ frame (ps_mac ps) -> is_u16 (ps_mtu ps) ->
  LoggerThms.ready log ->
  ends (fun sys => system_ok sys /\ dp_cfg (s_dp sys) = c /\ s_running sys = e_has e RMasterThread /\
      s_threads sys = (if s_running sys then launch e pl nw else []) /\ Worker.num_workers (s_lc sys) = nw)
    (start_rest max_lcore e c o pl nw plan st ps log).
Proof.
  intros Hload Hrs Htsc Hnw Hst Hn Hmac Hmtu HR. destruct (load_in_range _ _ _ Hload) as (C & R & [_ _ _ Hvm]). unfold start_rest, kMaxReta in *.
  destruct (negb (e_has e RQsbr)); [by apply ends_fail|].
  destruct (route_src_some c C) as [src ->]. cbn [mbind option_bind].
  destruct (Neigh.init _) as [t|] eqn:Et; [|by apply ends_fail].
  destruct (_ || _); [by apply ends_fail|].
  destruct (init_ok max_lcore c C (in_range_typed c R)) as (m & snap & Hm & _). rewrite Hm. cbn [mbind option_bind].
  destruct (start_workers e pl c _ _) as [msg|ws] eqn:Ew; [by apply ends_fail|].
  destruct (negb _); [by apply ends_fail|]. destruct (_ && _); [by apply ends_fail|]. cbn.
  split; [|by repeat split]. destruct (start_workers_fresh _ _ _ _ _ _ Ew) as [Hlen Hfr].
  rewrite length_seqZ in Hlen. split; cbn.
  - split; cbn; [by apply choose_mac_wf|unfold is_u16 in Hmtu; lia|done|lia|done].
  - split; cbn; [unfold len; rewrite length_replicate; lia|done].
  - apply static_entries_good; [done|]. by eapply NeighProps.init_good.
  - lia.
  - by eapply started_served.
  - done.
  - intros k w Hk. exists (per_worker (c_max_sessions c) nw). split; [apply per_worker_bounds; [apply R|lia]|].
    eapply Hfr; [|done]. apply lookup_seqZ. pose proof (lookup_lt_Some _ _ _ Hk). lia.
Qed.

(** What is known of the threads and the data plane of a started system. *)
Definition started (e : Env) (c : LbConfig) (o : Options) (sys : System (RH := RH) (NH := NH)) : Prop :=
  system_ok sys /\ dp_cfg (s_dp sys) = c /\
  let pl := match o_dataplane o with PIPELINE => true | RTC => false end in
  s_running sys = e_has e RMasterThread /\
  s_threads sys = (if s_running sys then launch e pl (num_workers e pl) else []) /\ Worker.num_workers (s_lc sys) = num_workers e pl /\ 1 <= num_workers e pl /\
  (pl = true -> num_workers e pl <= kMaxPipelineWorkers).

Lemma start_port_ok e a c o text log :
  load text = Some (c, o) -> len (conf_rs (c_services c)) < kMaxRsCounters -> 0 < e_tsc_hz e ->
  len (e_worker_lcores e) < kMaxReta -> LoggerThms.ready log ->
  ends (started e c o) (start_port max_lcore e a c o log).
Proof.
  intros Hload Hrs Htsc Hlc HR. unfold start_port, started. set (pl := match o_dataplane o with PIPELINE => true | RTC => false end).
  destruct (num_workers_range e pl Hlc) as (_ & _ & Hnw). set (nw := num_workers e pl) in *.
  destruct (_ <? 0); [apply ends_fatal; [done|]; intros l; apply LoggerThms.shutdown_closes|].
  destruct (negb _); [by apply ends_fail|]. destruct (nw <? 1) eqn:E1; [by apply ends_fail|].
  destruct (pl && _) eqn:E2; [apply ends_fatal; [done|]; intros l; apply cleanup_shutdown|]. bprop. unfold kMaxReta in Hnw.
  destruct (proj1 (wp_run _ _ _) (port_plan_wp nw [] ltac:(lia))) as (plan & h & -> & _ & Hp). cbn [mbind option_bind].
  destruct plan as [plan|]; [|apply ends_exit; [by right|by apply cleanup_shutdown]]. destruct (Hp plan eq_refl) as (P1 & _).
  destruct (negb _); [by apply ends_fail|]. destruct setup0_typed as [Hm Hu].
  destruct (proj1 (wp_run _ _ _) (port_init_wp plan (o_force_sw_steering o || pl) Steering0 PortSetup0 h
    ltac:(unfold kMaxReta; lia) steering0_shape Hm Hu)) as ([[ret st] ps] & h' & -> & H). cbn [mbind option_bind].
  destruct (ret =? 0) eqn:E3; cbn [negb]; [|by apply ends_fail]. bprop. subst ret.
  destruct (H eq_refl) as (S1 & S2 & _ & _ & S5 & S6 & _).
  eapply ends_mono; [apply (start_rest_ok e c o text pl nw plan st ps log Hload Hrs Htsc ltac:(unfold kMaxReta; lia) S1 ltac:(lia) S5 S6 HR)|].
  intros sys (A & B & B' & C & D). split; [done|]. split; [done|]. split; [done|]. split; [done|]. split; [done|]. split; [lia|].
  intros Hpl. rewrite Hpl in E2. cbn in E2. bprop. lia.
Qed.

Lemma start_log_ready a o log : LoggerThms.closed log ->
  exists log', start_log a o log = Some log' /\ LoggerThms.ready log' /\ (a_check_only a = true -> LoggerThms.closed log').
Proof.
  intros C. unfold start_log. set (log1 := Logger.set_lv _ log). assert (C1 : LoggerThms.closed log1) by exact C.
  destruct (empty _ || _) eqn:E; [eexists; split; [done|]; split; [by right|done]|].
  destruct (proj1 (wp_run _ _ _) (LoggerThms.open_file_ready "logger.cpp" (log_options (match a_log_dir a with Some d => d | None => o_log_dir o end) o) log1 C1))
    as (ok & l & -> & R). cbn [mbind option_bind]. apply orb_false_iff in E as [_ E].
  destruct ok; [|eexists; split; [done|]; split; [done|]; by rewrite E].
  cut (exists b l', Logger.dpdk_stream l = Some (b, l') /\ LoggerThms.ready l').
  { intros (b & l' & -> & R'). cbn. eexists. split; [done|]. split; [done|]. by rewrite E. }
  unfold Logger.dpdk_stream, mbind, ST_bind, gets, id. destruct (negb _); [cbn; eauto|].
  destruct (negb (Logger.dpdk l)); cbn; eexists _, _; (split; [reflexivity|]); exact R.
Qed.

(** The configuration a command line and an environment lead to. *)
Definition loaded (e : Env) (argv : list string) (c : LbConfig) (o : Options) : Prop :=
  exists a text, parse_args (e_max_ports e) argv Args0 = inr a /\ e_read e (a_config_file a) = Some text /\ load text = Some (c, o).

Lemma parse_args_code n argv a code : parse_args n argv a = inl code -> code = 0 \/ code = 1.
Proof.
  enough (H : (forall a, parse_args n argv a = inl code -> code = 0 \/ code = 1) /\
              forall x a, parse_args n (x :: argv) a = inl code -> code = 0 \/ code = 1) by (by apply H).
  induction argv as [|v argv [IH1 IH2]].
  - split; [done|]. intros x a'. cbn. destruct (_ =? _)%string; [done|]. destruct (_ =? _)%string; [|done]. intros [= <-]. by left.
  - split; [apply IH2|]. intros x a'. cbn [parse_args]. repeat (destruct (x =? _)%string; [try apply IH1|]).
    all: try (by intros; eapply IH2; eauto); try (by intros [= <-]; left).
    destruct (port_arg n v); [apply IH1|]. intros [= <-]. by right.
Qed.

Lemma ends_invalid P line fn msg log : LoggerThms.closed log -> ends P (exit_with 1 (LOG_FATAL line fn msg) log).
Proof.
  intros C. apply ends_exit; [by right|]. unfold LOG_FATAL.
  eapply wp_mono; [exact (LoggerThms.log_sync _ _ _ _ _ _ (proj1 C))|]. intros [] l (x & [-> | ->]); exact C.
Qed.

Lemma main_start_ok e argv log :
  LoggerThms.closed log -> 0 < e_tsc_hz e -> len (e_worker_lcores e) < kMaxReta ->
  (forall c o, loaded e argv c o -> len (conf_rs (c_services c)) < kMaxRsCounters) ->
  ends (fun sys => exists c o, loaded e argv c o /\ started e c o sys) (start max_lcore e argv log).
Proof.
  intros Ha Htsc Hlc Hrs. unfold start.
  destruct (parse_args _ argv Args0) as [code|a] eqn:Ep; [apply ends_exit; [by eapply parse_args_code|done]|].
  destruct (e_read e (a_config_file a)) as [text|] eqn:Er; cbn [mbind option_bind]; [|by apply ends_invalid].
  destruct (load text) as [[c o]|] eqn:El; [|by apply ends_invalid].
  assert (Hl : loaded e argv c o) by (by exists a, text).
  destruct (start_log_ready a o log Ha) as (log1 & -> & R & C). cbn [mbind option_bind].
  destruct (a_check_only a); [apply ends_exit; [by left|by apply C]|].
  eapply ends_mono; [apply (start_port_ok e a c o text log1 El (Hrs c o Hl) Htsc Hlc R)|]. eauto.
Qed.

(** A started worker satisfies the invariant of its loop. *)
Lemma started_winv e c o sys k w snap :
  started e c o sys -> timeouts_fit (c_timeouts c) -> s_workers sys !! k = Some w -> snap_ok max_lcore snap ->
  winv (s_dp sys) max_lcore (sessions w) (now_tick w) (idx w) snap.
Proof.
  intros (S & Hc & _) Hf Hk Hs. destruct (sy_fresh _ S k w Hk) as (cap & Hcap & Hi & _ & Ht & _ & Hinit).
  rewrite Ht, Hi. eapply fresh_winv; [exact Hcap|lia|exact Hinit|by rewrite Hc|done|].
  pose proof (sy_workers _ S) as [Hn _]. pose proof (lookup_lt_Some _ _ _ Hk). lia.
Qed.

End Props.

(** C9. Start-up is safe and complete: for every command line, file system, NIC and
    set of available resources the start ends, without undefined behaviour, in an
    exit code 0 or 1 with everything logged written out and the log file closed,
    or in a system that is set up; there the data plane, the neighbour table and
    the published snapshot have what the packet path relies on and there is one
    fresh worker for every index.  If the master thread could be created, every
    lcore runs exactly one loop, every worker's loop included; otherwise no loop
    is launched and the program is told to stop.  (Configurations of fewer than
    16384 real servers and fewer than 512 worker lcores.) *)
Theorem startup_safe `{RH : RteHash FiveTuple} `{RL : !RteHashLaws FiveTuple RH} `{NH : RteHash Z} `{NHL : !RteHashLaws Z NH}
    `{HF : RteHashFns} {N : Nic} {NL : NicLaws N} {I : Inet} {IL : InetLaws I} {L : Libc} max_lcore e argv log :
  (0 < max_lcore)%nat -> LoggerThms.closed log -> 0 < e_tsc_hz e -> len (e_worker_lcores e) < kMaxReta ->
  (forall c o, loaded e argv c o -> len (conf_rs (c_services c)) < kMaxRsCounters) ->
  ends (fun sys => system_ok max_lcore sys /\ s_running sys = e_has e RMasterThread /\
      if s_running sys then exists pl, (s_threads sys).*1 = (e_worker_lcores e ++ [e_main_lcore e])%list /\
        (s_threads sys).*2 ≡ₚ ((RunWorker <$> seqZ 0 (Worker.num_workers (s_lc sys))) ++ (if pl : bool then [RunReceiver] else []))%list
      else s_threads sys = [])
    (start (RH := RH) max_lcore e argv log).
Proof.
  intros ML Ha Ht Hl Hr. eapply ends_mono; [by apply (main_start_ok (RH := RH) max_lcore ML e argv log)|].
  intros sys (c & o & _ & S & _ & Hrun & Hth & Hw & Hnw & _). split; [done|]. split; [done|].
  set (pl := match o_dataplane o with PIPELINE => true | RTC => false end) in *. rewrite Hth.
  destruct (s_running sys); [|done]. exists pl.
  rewrite Hw. by apply (launch_spec e pl).
Qed.

(** C10. From the command line to forwarding: every worker of a started system,
    with the snapshot the start published, runs its loop for any number of rounds
    over any traffic, newer snapshots and neighbour tables without a fault, keeps
    its sessions consistent, leaves no packet unsent and leaks none.  Assumed:
    fewer than 16384 real servers, timeouts that leave [slack] seconds of the
    timing wheel free, an uptime in milliseconds that fits 64 bits, and rounds
    fast enough that no 2048 * (capacity / 4096 + 1) of them in a row take more
    than [slack] seconds. *)
Theorem started_worker_runs `{RH : RteHash FiveTuple} `{RL : !RteHashLaws FiveTuple RH} `{NH : RteHash Z} `{NHL : !RteHashLaws Z NH}
    `{HF : RteHashFns} `{HL : !RteHashFnsLaws HF} `{MB : RteMbuf} `{MBL : !RteMbufLaws MB} `{IO : RteIo} `{IOL : !RteIoLaws IO}
    {N : Nic} {NL : NicLaws N} {I : Inet} {IL : InetLaws I} {L : Libc}
    max_lcore e argv log sys k w meta0 hw_cksum neigh_at slack x busy l :
  (0 < max_lcore)%nat -> LoggerThms.closed log -> 0 < e_tsc_hz e -> len (e_worker_lcores e) < kMaxReta ->
  (forall c o, loaded e argv c o -> len (conf_rs (c_services c)) < kMaxRsCounters /\ WorkerProps.room (c_timeouts c) slack) ->
  start max_lcore e argv log = Some (inr sys) -> s_workers sys !! k = Some w ->
  WorkerThms.in_range (IO := IO) (s_lc sys) ->
  exists snap, cur_ (s_mgr sys) = Some snap /\
    let s := Worker.mkWS w snap [] x busy 0 in
    (WorkerProps.paced hw_cksum (s_dp sys) (s_lc sys) meta0 neigh_at slack l s -> Forall (fun o => WorkerThms.snapshot_ok max_lcore o s) l ->
     exists s', Worker.worker_loop hw_cksum (s_dp sys) (s_lc sys) meta0 neigh_at l s = Some (tt, s') /\
       WorkerThms.WInv (s_dp sys) max_lcore s' /\ tx (Worker.ws_w s') = [] /\ WorkerThms.loose s' = WorkerThms.loose s).
Proof.
  intros ML Ha Ht Hl Hr Hs Hk Hrange.
  pose proof (main_start_ok (RH := RH) max_lcore ML e argv log Ha Ht Hl ltac:(intros c o H; apply (Hr c o H))) as H.
  rewrite Hs in H. destruct H as (c & o & Hload & HS).
  destruct HS as [S HS]. destruct (served_snap_ok _ _ (sy_served _ _ S)) as (snap & Hsnap & _ & Hok & _).
  exists snap. split; [done|]. intros s Hkeep Hall.
  pose proof (started_winv max_lcore ML e c o sys k w snap (conj S HS) (WorkerProps.room_fit _ _ (proj2 (Hr c o Hload))) Hk Hok) as Hw.
  destruct (sy_fresh _ _ S k w Hk) as (cap & Hcap & _ & Htx & Htick & _ & Hinit).
  destruct (init_spec cap 1 (sessions w) Hcap ltac:(lia) Hinit) as (_ & _ & _ & Hcur).
  assert (W : WorkerThms.WInv (s_dp sys) max_lcore s).
  { split; [exact Hw|]. cbn. rewrite Htx. unfold len, BURST_SIZE. cbn. lia. }
  assert (B : WorkerThms.behind (s_lc sys) s).
  { unfold WorkerThms.behind. cbn. rewrite Hcur, Htick. destruct (Hrange x) as [R1 R2].
    destruct (WorkerThms.tick_of_eq (s_dp sys) (s_lc sys) (sy_conf _ _ S) (clock x) R1 R2). lia. }
  assert (K : WorkerProps.pace hw_cksum (s_dp sys) (s_lc sys) meta0 neigh_at [] s s).
  { apply WorkerProps.pace_start; [apply Hw|unfold is_u64; cbn; lia|]. cbn. rewrite Hcur, Htick. lia. }
  assert (Ro : WorkerProps.room (c_timeouts (dp_cfg (s_dp sys))) slack) by (rewrite (proj1 HS); apply (Hr c o Hload)).
  destruct (proj1 (wp_run _ _ _) (WorkerProps.worker_loop_from hw_cksum (s_dp sys) (s_lc sys) meta0 max_lcore neigh_at slack l
    (sy_dp _ _ S) (sy_conf _ _ S) Hrange Ro [] s s Hkeep K W B Hall)) as ([] & s' & Hrun). eauto.
Qed.

(** ** A start with two lcores *)

#[local] Existing Instance PortProps.toy_nic.
#[local] Existing Instance PortProps.toy_nic_laws.
#[local] Instance demo_libc : Libc := { strerror := fun _ => "Permission denied"%string }.

Definition main_file : string := lines [
  "[global]"; "mode = NAT"; "max_sessions = 1024"; "tcp_established_timeout = 900"; "[network]";
  "netmask = 255.255.255.0"; "local_ips = 10.0.0.200";
  "[service.web]"; "vip = 10.0.0.100"; "port=80"; "server1 = 10.0.0.2:8080:3:02:00:00:00:00:0a"]%string.

Definition main_argv : list string := ["-l"; "1-2"; "--lb-config"; "x.conf"; "--port"; "3"; "--log"]%string.

Definition main_env : Env :=
  mkEnv 32 (fun f => if String.eqb f "x.conf" then Some main_file else None) (fun _ => 0) EmptyString 3000000000 0
    (fun p => p =? 3) 1 [2] (fun _ => true).

Definition main_log : Logger.Log :=
  Logger.mkLog (Logger.mkShared [] 0 false false false 0 0)
    (Logger.mkOwn (Logger.default_options EmptyString) EmptyString None 0 (Stdio.mkFs ∅ ∅ 0 false ∅ 0) EmptyString (Logger.mkTm 2026 1 1 0 0 0 0))
    false Logger.INFO false EmptyString.

Definition main_start : option (Exit + System (RH := gmap_hash FiveTuple) (NH := gmap_hash Z)) :=
  start (RH := gmap_hash FiveTuple) (NH := gmap_hash Z) (HF := mix_fns) (I := dotted_inet) 4 main_env main_argv main_log.

Lemma main_loaded c o : loaded (I := dotted_inet) main_env main_argv c o ->
  len (conf_rs (c_services c)) < kMaxRsCounters /\ WorkerProps.room (c_timeouts c) 60.
Proof.
  intros (a & text & Ha & Ht & Hl). vm_compute in Ha. injection Ha as <-. cbn in Ht. injection Ht as <-.
  vm_compute in Hl. injection Hl as <- <-. split; [reflexivity|]. split; [lia|]. intros []; vm_compute; split; congruence.
Qed.

Lemma main_closed : LoggerThms.closed main_log.
Proof. by repeat split. Qed.

Lemma main_runs : match main_start with Some (inr _) => true | _ => false end = true.
Proof. vm_compute. reflexivity. Qed.

Lemma startup_safe_witness : exists sys, main_start = Some (inr sys) /\ system_ok (HF := mix_fns) 4 sys.
Proof.
  pose proof (startup_safe (RH := gmap_hash FiveTuple) (NH := gmap_hash Z) (HF := mix_fns) (I := dotted_inet) 4 main_env main_argv main_log
    ltac:(lia) main_closed eq_refl eq_refl (fun c o Hl => proj1 (main_loaded c o Hl))) as H.
  fold main_start in H. pose proof main_runs as R. destruct main_start as [[code|sys]|]; [discriminate| |discriminate].
  exists sys. split; [reflexivity|]. apply H.
Defined.

Definition main_k : nat := 1.

(** A SYN of 10.0.0.1 for the service waits in the RX queues. *)
Definition main_syn : list Z := [2;0;0;0;0;1; 2;0;0;0;0;7] ++ skipn 12 demo_syn.
Definition main_world : world (RteIo := toy_io) := mkToy [ForwardProps.mbuf_of main_syn] 0 0 [].
Definition main_ws (sys : System) (w : WorkerCtx) (snap : Snapshot) : Worker.WState (RH := gmap_hash FiveTuple) (IO := toy_io) :=
  Worker.mkWS (RH := gmap_hash FiveTuple) (IO := toy_io) w snap [] main_world Busy0 0.
Definition main_neigh : Worker.WState (RH := gmap_hash FiveTuple) (IO := toy_io) -> Neigh.NeighTable (RH := gmap_hash Z) :=
  fun _ => NeighProps.demo_neigh.

(** The clock and the number of frames sent after one round of the worker the
    SYN belongs to. *)
Definition main_round (sys : System (RH := gmap_hash FiveTuple) (NH := gmap_hash Z)) : option (Z * nat) :=
  w ← s_workers sys !! main_k; snap ← cur_ (s_mgr sys);
  (fun x => (now_tick (Worker.ws_w x.2), List.length (toy_sent (Worker.ws_io x.2)))) <$>
    WorkerProps.rounds (HF := mix_fns) (MB := flat_mbuf) (IO := toy_io) true (s_dp sys) (s_lc sys)
      ParserThms.meta0 main_neigh [None] (main_ws sys w snap).

Definition of_main {A} (f : System -> A) : option A := match main_start with Some (inr sys) => Some (f sys) | _ => None end.

Lemma of_main_run {A} (f : System -> A) sys : main_start = Some (inr sys) -> of_main f = Some (f sys).
Proof. unfold of_main. by intros ->. Qed.

Lemma main_round_sends : of_main main_round = Some (Some (1, 1%nat)).
Proof. vm_compute. reflexivity. Qed.

Lemma main_lc : of_main s_lc = Some (Worker.mkLoopConf false 2 4 3000000000 0 [true; true]).
Proof. vm_compute. reflexivity. Qed.

Lemma main_paced sys w snap : main_start = Some (inr sys) -> s_workers sys !! main_k = Some w -> cur_ (s_mgr sys) = Some snap ->
  WorkerProps.paced (HF := mix_fns) (MB := flat_mbuf) (IO := toy_io) true (s_dp sys) (s_lc sys) ParserThms.meta0 main_neigh 60 [None]
    (main_ws sys w snap).
Proof.
  intros Hs Hw Hc. apply WorkerProps.paced_one; [lia|]. intros s1 H.
  pose proof (main_start_ok (RH := gmap_hash FiveTuple) (NH := gmap_hash Z) (HF := mix_fns) (I := dotted_inet) 4 ltac:(lia) main_env main_argv main_log
    main_closed eq_refl eq_refl (fun c o Hl => proj1 (main_loaded c o Hl))) as Hst.
  fold main_start in Hst. rewrite Hs in Hst. destruct Hst as (c & o & Hl & S & _).
  destruct (sy_fresh _ _ S main_k w Hw) as (cap & Hcap & _ & _ & Ht & _ & Hi).
  pose proof main_round_sends as V. rewrite (of_main_run _ _ Hs) in V. unfold main_round in V.
  rewrite Hw, Hc in V. cbn [mbind option_bind] in V. rewrite H in V.
  change (Some (Some (now_tick (Worker.ws_w s1), List.length (toy_sent (Worker.ws_io s1)))) = Some (Some (1, 1%nat))) in V.
  injection V as V _. rewrite V. change (1 <= now_tick w + 60). rewrite Ht. lia.
Qed.

Lemma started_worker_runs_witness : exists sys w snap s',
  main_start = Some (inr sys) /\
  Worker.worker_loop (HF := mix_fns) (MB := flat_mbuf) (IO := toy_io) true (s_dp sys) (s_lc sys) ParserThms.meta0 main_neigh [None] (main_ws sys w snap)
    = Some (tt, s').
Proof.
  destruct main_start as [[code|sys]|] eqn:Hs; [pose proof main_runs as R; rewrite Hs in R; discriminate R| |pose proof main_runs as R; rewrite Hs in R; discriminate R].
  destruct (s_workers sys !! main_k) as [w|] eqn:Hw.
  - destruct (started_worker_runs (RH := gmap_hash FiveTuple) (NH := gmap_hash Z) (HF := mix_fns) (MB := flat_mbuf) (IO := toy_io) (I := dotted_inet)
      4 main_env main_argv main_log sys main_k w ParserThms.meta0 true main_neigh 60 main_world Busy0 [None]) as (snap & Hc & H).
    + lia.
    + exact main_closed.
    + reflexivity.
    + reflexivity.
    + exact main_loaded.
    + exact Hs.
    + exact Hw.
    + pose proof main_lc as V. rewrite (of_main_run _ _ Hs) in V. injection V as ->. intros x. cbn. lia.
    + destruct H as (s' & H & _).
      * exact (main_paced sys w snap Hs Hw Hc).
      * constructor; [intros x Hx; discriminate Hx|constructor].
      * exists sys, w, snap, s'. split; [reflexivity|exact H].
  - exfalso. pose proof main_round_sends as V. rewrite (of_main_run _ _ Hs) in V. unfold main_round in V. rewrite Hw in V. discriminate V.
Defined.

End MainProps.
