(* ===== verification/Double.v ===== *)
(** Double: the C++ [double] as the sources use it for rates and times.

    Values and operations are the Standard Library's specification of IEEE 754
    binary64 (round to nearest even).  Besides the conversions there is printf's
    %.<k>f.  The lemmas bound results by their exponent: [top x] is the number t
    with x < 2^t <= 2x. *)
From S2P Require Import Prelude Types Mem Text Print.
From Stdlib Require Import String Ascii SpecFloat.

Module Double.
Import Text Print.
Local Open Scope string_scope.
Local Open Scope Z_scope.

Definition double : Type := spec_float.
Definition prec : Z := 53.
Definition emax : Z := 1024.

(** Conversion of an unsigned integer. *)
Definition of_u64 (n : Z) : double := binary_normalize prec emax n 0 false.
Definition dmul : double -> double -> double := SFmul prec emax.
Definition ddiv : double -> double -> double := SFdiv prec emax.
Definition dge (x y : double) : bool := SFleb y x.
Definition dgt (x y : double) : bool := SFltb y x.

(** static_cast<uint64_t>; [None] is a value out of range, which is undefined. *)
Definition to_u64 (x : double) : option Z :=
  match x with
  | S754_zero _ => Some 0
  | S754_finite false m e =>
    let v := Z.shiftl (Z.pos m) e in
    if v <? 18446744073709551616 then Some v else None
  | _ => None
  end.

(** n / d to the nearest integer, ties to even. *)
Definition div_nearest (n d : Z) : Z :=
  let q := n / d in
  let r := n mod d in
  match 2 * r ?= d with
  | Lt => q
  | Gt => q + 1
  | Eq => if Z.even q then q else q + 1
  end.

(** The value times 10^k as an integer, rounded from the exact value. *)
Definition scaled (k : Z) (m : positive) (e : Z) : Z :=
  let n := Z.pos m * 10 ^ k in
  if e >=? 0 then Z.shiftl n e else div_nearest n (2 ^ (- e)).

(** printf("%.<k>f") of a value that is not negative. *)
Definition fixed_digits (k : nat) (v : Z) : string :=
  let s := decimal_digits 330 (v / 10 ^ Z.of_nat k) in
  match k with
  | O => s
  | _ => String.append s (String "."%char (pad k (to_string (v mod 10 ^ Z.of_nat k))))
  end.
Definition fixed (k : nat) (x : double) : string :=
  match x with
  | S754_zero _ => fixed_digits k 0
  | S754_finite _ m e => fixed_digits k (scaled (Z.of_nat k) m e)
  | S754_infinity _ => "inf"
  | S754_nan => "nan"
  end.

(** *** Bounds *)

Definition top (x : double) : Z := match x with S754_finite _ m e => Z.pos (digits2_pos m) + e | _ => 0 end.

Lemma digits2_bounds p : 2 ^ (Z.pos (digits2_pos p) - 1) <= Z.pos p < 2 ^ Z.pos (digits2_pos p).
Proof.
  induction p as [p IH|p IH|]; cbn [digits2_pos]; [| |done];
    rewrite Pos2Z.inj_succ; replace (Z.succ (Z.pos (digits2_pos p)) - 1) with (Z.succ (Z.pos (digits2_pos p) - 1)) by lia;
    rewrite !Z.pow_succ_r by lia; lia.
Qed.

Lemma digits2_le p k : 0 <= k -> Z.pos p < 2 ^ k -> Z.pos (digits2_pos p) <= k.
Proof.
  intros Hk H. pose proof (digits2_bounds p) as [L _]. destruct (Z.le_gt_cases (Z.pos (digits2_pos p)) k); [done|].
  assert (2 ^ k <= 2 ^ (Z.pos (digits2_pos p) - 1)) by (apply Z.pow_le_mono_r; lia). lia.
Qed.

Lemma shr_1_half r : 0 <= shr_m r -> shr_m (shr_1 r) = shr_m r / 2.
Proof. intros H. rewrite <- Z.div2_div. destruct r as [[|[p|p|]|p] a b]; [done..|]. cbn in H. lia. Qed.

Lemma div_pow_pos x p : 0 <= x -> 0 <= x / 2 ^ Z.pos p.
Proof. intros H. apply Z.div_pos; [done|apply Z.pow_pos_nonneg; lia]. Qed.

Lemma shr_iter p r : 0 <= shr_m r -> shr_m (iter_pos shr_1 p r) = shr_m r / 2 ^ Z.pos p.
Proof.
  revert r. induction p as [p IH|p IH|]; intros r H; cbn [iter_pos]; [| |by rewrite shr_1_half].
  - assert (0 <= shr_m (shr_1 r)) by (rewrite shr_1_half by done; zlia).
    rewrite IH, IH, shr_1_half by (done || (rewrite IH by done; by apply div_pow_pos)).
    replace (Z.pos p~1) with (1 + Z.pos p + Z.pos p) by lia. rewrite !Z.pow_add_r by lia.
    rewrite !Z.div_div by (try apply Z.pow_nonzero; try apply Z.pow_pos_nonneg; try apply Z.mul_pos_pos; lia). change (2 ^ 1) with 2. f_equal; ring.
  - rewrite IH, IH by (done || (rewrite IH by done; by apply div_pow_pos)).
    replace (Z.pos p~0) with (Z.pos p + Z.pos p) by lia. rewrite Z.pow_add_r by lia.
    by rewrite Z.div_div by (try apply Z.pow_nonzero; try apply Z.pow_pos_nonneg; lia).
Qed.

Lemma digits2_unique p k : 2 ^ (k - 1) <= Z.pos p < 2 ^ k -> 0 <= k -> Z.pos (digits2_pos p) = k.
Proof.
  intros [L U] Hk. apply Z.le_antisymm; [by apply digits2_le|]. pose proof (digits2_bounds p) as [_ H].
  destruct (Z.le_gt_cases k (Z.pos (digits2_pos p))); [done|].
  assert (2 ^ Z.pos (digits2_pos p) <= 2 ^ (k - 1)) by (apply Z.pow_le_mono_r; lia). lia.
Qed.

Lemma digits2_shift p n : 0 <= n < Z.pos (digits2_pos p) ->
  exists q, Z.pos p / 2 ^ n = Z.pos q /\ Z.pos (digits2_pos q) = Z.pos (digits2_pos p) - n.
Proof.
  intros Hn. pose proof (digits2_bounds p) as [L U]. set (d := Z.pos (digits2_pos p)) in *.
  assert (Hp : 0 < 2 ^ n) by (apply Z.pow_pos_nonneg; lia).
  assert (A : 2 ^ (d - n - 1) <= Z.pos p / 2 ^ n).
  { apply Z.div_le_lower_bound; [done|]. rewrite <- Z.pow_add_r by lia. by replace (n + (d - n - 1)) with (d - 1) by lia. }
  assert (B : Z.pos p / 2 ^ n < 2 ^ (d - n)).
  { apply Z.div_lt_upper_bound; [done|]. rewrite <- Z.pow_add_r by lia. by replace (n + (d - n)) with d by lia. }
  assert (0 < 2 ^ (d - n - 1)) by (apply Z.pow_pos_nonneg; lia).
  destruct (Z.pos p / 2 ^ n) as [|q|q] eqn:E; [lia| |lia]. exists q. split; [done|]. apply digits2_unique; [done|lia].
Qed.

Lemma fexp_normal t : -1000 <= t -> fexp prec emax t = t - 53.
Proof. intros H. unfold fexp, emin, prec, emax. lia. Qed.

Lemma shr_fexp_top p e l t : t = Z.pos (digits2_pos p) + e -> -1000 <= t ->
  exists q r e', shr_fexp prec emax (Z.pos p) e l = (r, e') /\ shr_m r = Z.pos q /\
    Z.pos (digits2_pos q) + e' = t /\ e' = Z.max e (t - 53).
Proof.
  intros Ht Hl. unfold shr_fexp. cbn [Zdigits2]. rewrite <- Ht, fexp_normal by done.
  assert (Hm : shr_m (shr_record_of_loc (Z.pos p) l) = Z.pos p) by (by destruct l as [|[]]).
  unfold shr. destruct (t - 53 - e) as [|n|n] eqn:En; [eexists p, _, _; repeat split; [exact Hm|lia..]| |eexists p, _, _; repeat split; [exact Hm|lia..]].
  destruct (digits2_shift p (Z.pos n)) as (q & Hq & Hd); [lia|].
  exists q. eexists _, _. split; [done|]. rewrite shr_iter, Hm by (rewrite Hm; lia). split; [done|]. lia.
Qed.

(** A positive double with its exponent in a range. *)
Definition fin (x : double) (lo hi : Z) : Prop :=
  exists m e, x = S754_finite false m e /\ lo <= Z.pos (digits2_pos m) + e <= hi.

Lemma round_fin p e l t : t = Z.pos (digits2_pos p) + e -> -1000 <= t <= 900 ->
  fin (binary_round_aux prec emax false (Z.pos p) e l) t (t + 1).
Proof.
  intros Ht Hl. unfold binary_round_aux.
  destruct (shr_fexp_top p e l t Ht ltac:(lia)) as (q & r & e1 & -> & -> & Hq & He1).
  assert (exists q1, round_nearest_even (Z.pos q) (loc_of_shr_record r) = Z.pos q1 /\ (q1 = q \/ q1 = Pos.succ q)) as (q1 & -> & Hq1).
  { unfold round_nearest_even. destruct (loc_of_shr_record r) as [|[]]; [eauto| |eauto|].
    - destruct (Z.even _); [eauto|]. exists (Pos.succ q). split; [lia|auto].
    - exists (Pos.succ q). split; [lia|auto]. }
  assert (Hd : Z.pos (digits2_pos q) <= Z.pos (digits2_pos q1) <= Z.pos (digits2_pos q) + 1).
  { pose proof (digits2_bounds q) as [A B]. pose proof (digits2_bounds q1) as [A1 B1]. split.
    - destruct (Z.le_gt_cases (Z.pos (digits2_pos q)) (Z.pos (digits2_pos q1))); [done|].
      assert (2 ^ Z.pos (digits2_pos q1) <= 2 ^ (Z.pos (digits2_pos q) - 1)) by (apply Z.pow_le_mono_r; lia). lia.
    - apply digits2_le; [lia|]. rewrite Z.add_1_r, Z.pow_succ_r by lia. lia. }
  destruct (shr_fexp_top q1 e1 loc_Exact _ eq_refl ltac:(lia)) as (q2 & r2 & e2 & -> & -> & Hq2 & He2).
  assert ((e2 <=? emax - prec) = true) as -> by (apply Z.leb_le; unfold emax, prec; lia).
  exists q2, e2. split; [done|]. lia.
Qed.

Lemma digits2_iter p k : Z.pos (digits2_pos (Pos.iter xO p k)) = Z.pos (digits2_pos p) + Z.pos k.
Proof.
  induction k as [|k IH] using Pos.peano_ind; [cbn; lia|]. rewrite Pos.iter_succ. cbn [digits2_pos]. lia.
Qed.

Lemma fin_mono x a b a' b' : fin x a b -> a' <= a -> b <= b' -> fin x a' b'.
Proof. intros (m & e & -> & H) Ha Hb. exists m, e. split; [done|lia]. Qed.

Lemma of_u64_fin n : 0 < n < 18446744073709551616 -> fin (of_u64 n) (Z.log2 n + 1) (Z.log2 n + 2).
Proof.
  intros H. destruct n as [|p|p]; [lia| |lia]. unfold of_u64, binary_normalize, binary_round.
  assert (Hd : Z.pos (digits2_pos p) = Z.log2 (Z.pos p) + 1).
  { pose proof (Z.log2_spec (Z.pos p) ltac:(lia)) as L. pose proof (Z.log2_nonneg (Z.pos p)).
    apply digits2_unique; [|lia]. replace (Z.log2 (Z.pos p) + 1 - 1) with (Z.log2 (Z.pos p)) by lia. by rewrite Z.add_1_r. }
  assert (Z.log2 (Z.pos p) < 64) by (apply Z.log2_lt_pow2; lia).
  pose proof (Z.log2_nonneg (Z.pos p)). rewrite Z.add_0_r, fexp_normal by lia. unfold shl_align.
  destruct (_ - 0) as [|k|k] eqn:Ek.
  1, 2: eapply fin_mono; [apply (round_fin p 0 loc_Exact _ eq_refl)|..]; lia.
  eapply fin_mono; [apply (round_fin _ _ loc_Exact _ eq_refl)|..]; rewrite digits2_iter; lia.
Qed.

Lemma fin_mul x y a b c d : fin x a b -> fin y c d -> -900 <= a + c -> b + d <= 900 -> fin (dmul x y) (a + c - 1) (b + d + 1).
Proof.
  intros (m & e & -> & Hm) (n & f & -> & Hn) Hlo Hhi. cbn [dmul SFmul xorb].
  pose proof (digits2_bounds m) as [M1 M2]. pose proof (digits2_bounds n) as [N1 N2].
  set (dm := Z.pos (digits2_pos m)) in *. set (dn := Z.pos (digits2_pos n)) in *.
  assert (L : 2 ^ (dm + dn - 1 - 1) <= Z.pos (m * n)).
  { replace (dm + dn - 1 - 1) with ((dm - 1) + (dn - 1)) by lia. rewrite Z.pow_add_r by lia. rewrite Pos2Z.inj_mul. apply Z.mul_le_mono_nonneg; lia. }
  assert (U : Z.pos (m * n) < 2 ^ (dm + dn)).
  { rewrite Z.pow_add_r by lia. rewrite Pos2Z.inj_mul. apply Z.mul_lt_mono_nonneg; lia. }
  assert (D : dm + dn - 1 <= Z.pos (digits2_pos (m * n)) <= dm + dn).
  { split; [|apply digits2_le; lia]. pose proof (digits2_bounds (m * n)) as [_ P].
    destruct (Z.le_gt_cases (dm + dn - 1) (Z.pos (digits2_pos (m * n)))); [done|].
    assert (2 ^ Z.pos (digits2_pos (m * n)) <= 2 ^ (dm + dn - 1 - 1)) by (apply Z.pow_le_mono_r; lia). lia. }
  eapply fin_mono; [apply (round_fin _ _ loc_Exact _ eq_refl)|..]; lia.
Qed.

Lemma fin_div x y a b c d : fin x a b -> fin y c d -> -900 <= a - d -> b - c <= 800 -> fin (ddiv x y) (a - d) (b - c + 2).
Proof.
  intros (m & e & -> & Hm) (n & f & -> & Hn) Hlo Hhi. cbn [ddiv SFdiv xorb]. unfold SFdiv_core_binary. cbn [Zdigits2].
  pose proof (digits2_bounds m) as [M1 M2]. pose proof (digits2_bounds n) as [N1 N2].
  set (dm := Z.pos (digits2_pos m)) in *. set (dn := Z.pos (digits2_pos n)) in *. rewrite fexp_normal by lia.
  set (g := Z.min _ _). set (s := e - f - g). assert (Hs : 0 <= s /\ 53 - dm + dn <= s) by (subst s g; lia).
  assert (Z.pos m * 2 ^ s = match s with Z0 => Z.pos m | Z.pos _ => Z.shiftl (Z.pos m) s | Z.neg _ => 0 end) as <-.
  { rewrite <- Z.shiftl_mul_pow2 by lia. destruct s; [done|done|lia]. }
  assert (P : 0 < 2 ^ s) by (apply Z.pow_pos_nonneg; lia).
  assert (L : 2 ^ (dm + s - dn - 1) <= Z.pos m * 2 ^ s / Z.pos n).
  { apply Z.div_le_lower_bound; [lia|]. transitivity (2 ^ dn * 2 ^ (dm + s - dn - 1)); [apply Z.mul_le_mono_nonneg_r; lia|].
    rewrite <- Z.pow_add_r by lia. replace (dn + (dm + s - dn - 1)) with (dm - 1 + s) by lia. rewrite Z.pow_add_r by lia.
    apply Z.mul_le_mono_nonneg_r; lia. }
  assert (U : Z.pos m * 2 ^ s / Z.pos n < 2 ^ (dm + s - dn + 1)).
  { apply Z.div_lt_upper_bound; [lia|]. apply Z.lt_le_trans with (2 ^ (dn - 1) * 2 ^ (dm + s - dn + 1)); [|apply Z.mul_le_mono_nonneg_r; lia].
    rewrite <- Z.pow_add_r by lia. replace (dn - 1 + (dm + s - dn + 1)) with (dm + s) by lia. rewrite Z.pow_add_r by lia.
    apply Z.mul_lt_mono_pos_r; lia. }
  unfold Z.div in L, U. destruct (Z.div_eucl (Z.pos m * 2 ^ s) (Z.pos n)) as [q r].
  assert (0 < 2 ^ (dm + s - dn - 1)) by (apply Z.pow_pos_nonneg; lia). destruct q as [|q|q]; [lia| |lia].
  assert (D : dm + s - dn <= Z.pos (digits2_pos q) <= dm + s - dn + 1).
  { split; [|apply digits2_le; lia]. pose proof (digits2_bounds q) as [_ Q].
    destruct (Z.le_gt_cases (dm + s - dn) (Z.pos (digits2_pos q))); [done|].
    assert (2 ^ Z.pos (digits2_pos q) <= 2 ^ (dm + s - dn - 1)) by (apply Z.pow_le_mono_r; lia). lia. }
  eapply fin_mono; [apply (round_fin _ _ _ _ eq_refl)|..]; subst s; lia.
Qed.

(** A conversion back is defined below 2^64. *)
Lemma to_u64_fin x a b : fin x a b -> b <= 64 -> exists n, to_u64 x = Some n /\ is_u64 n.
Proof.
  intros (m & e & -> & H) Hb. cbn [to_u64]. pose proof (digits2_bounds m) as [_ U].
  assert (V : 0 <= Z.shiftl (Z.pos m) e < 18446744073709551616).
  { split; [by apply Z.shiftl_nonneg|]. destruct (Z.le_gt_cases 0 e) as [He|He].
    - rewrite Z.shiftl_mul_pow2 by done. apply Z.lt_le_trans with (2 ^ Z.pos (digits2_pos m) * 2 ^ e).
      + apply Z.mul_lt_mono_pos_r; [apply Z.pow_pos_nonneg; lia|done].
      + rewrite <- Z.pow_add_r by lia. change 18446744073709551616 with (2 ^ 64). apply Z.pow_le_mono_r; lia.
    - rewrite Z.shiftl_div_pow2 by lia. assert (0 < 2 ^ (- e)) by (apply Z.pow_pos_nonneg; lia).
      apply Z.div_lt_upper_bound; [done|]. apply Z.lt_le_trans with (2 ^ Z.pos (digits2_pos m)); [done|].
      change 18446744073709551616 with (2 ^ 64). rewrite <- Z.pow_add_r by lia. apply Z.pow_le_mono_r; lia. }
  destruct (Z.ltb_spec (Z.shiftl (Z.pos m) e) 18446744073709551616); [|lia]. eauto.
Qed.

(** Cycles to nanoseconds the way the sources do it: defined below 2^28 seconds. *)
Definition cycles_ns (cycles hz : Z) : option Z := to_u64 (ddiv (dmul (of_u64 cycles) (of_u64 1000000000)) (of_u64 hz)).

Lemma cycles_ns_defined cycles hz : is_u64 cycles -> 0 < hz < 18446744073709551616 -> cycles <= hz * 2 ^ 28 ->
  exists n, cycles_ns cycles hz = Some n /\ is_u64 n.
Proof.
  intros Hc Hh H. unfold cycles_ns. pose proof (of_u64_fin hz Hh) as Fh.
  destruct (decide (cycles = 0)) as [->|Hne].
  { exists 0. split; [|unfold is_u64; lia]. destruct Fh as (m & e & -> & _). done. }
  assert (Hc' : 0 < cycles < 18446744073709551616) by (unfold is_u64 in Hc; lia).
  pose proof (of_u64_fin cycles Hc') as Fc. pose proof (of_u64_fin 1000000000 ltac:(lia)) as F9.
  change (Z.log2 1000000000) with 29 in F9.
  assert (Hl : Z.log2 cycles <= Z.log2 hz + 28).
  { rewrite <- (Z.log2_shiftl hz 28), Z.shiftl_mul_pow2 by lia. by apply Z.log2_le_mono. }
  assert (0 <= Z.log2 cycles < 64 /\ 0 <= Z.log2 hz < 64) as [? ?].
  { split; (split; [apply Z.log2_nonneg|apply Z.log2_lt_pow2; lia]). }
  pose proof (fin_mul _ _ _ _ _ _ Fc F9 ltac:(lia) ltac:(lia)) as Fm.
  eapply to_u64_fin; [apply (fin_div _ _ _ _ _ _ Fm Fh)|]; lia.
Qed.

End Double.
