(* ===== verification/Report.v ===== *)
(** Report: counters and settings as text, as src/dataplane/worker.cpp,
    src/common/stats.cpp, src/ctrl/snapshot.cpp and src/main.cpp print them.

    [View] is what the reports read of the global state; the counters of other
    threads are read without synchronisation, so a view is any values they had.
    The state of the periodic report is [Perf]. *)
From S2P Require Import Prelude Types TcpState Mem Dpdk Session Steering Scheduler Config Snapshot Neigh Context Text Print ConfigText Double Stdio Logger.
From Stdlib Require Import String Ascii.
Import Scheduler Config Snapshot Context Text Print Double.

Module Report.
Local Open Scope string_scope.
Local Open Scope Z_scope.

Notation cat := Logger.cat.
Notation snprintf := Logger.snprintf.

Definition nl : string := String Logger.newline EmptyString.
Definition num (n : Z) : string := to_string n.

(** ** Names *)

Definition stat_name (id : Stat) : string :=
  match id with
  | ST_RX => "rx" | ST_TX => "tx" | ST_TX_FULL => "tx_full"
  | ST_ARP => "arp" | ST_ICMP => "icmp" | ST_TCP => "tcp" | ST_UDP => "udp"
  | ST_FWD_IN => "fwd_in" | ST_FWD_OUT => "fwd_out" | ST_ICMP_ERR_FWD => "icmp_err_fwd"
  | ST_DROP_MALFORMED => "drop_malformed" | ST_DROP_FRAGMENT => "drop_fragment" | ST_DROP_CKSUM => "drop_cksum"
  | ST_DROP_NOT_LOCAL => "drop_not_local" | ST_DROP_NO_SERVICE => "drop_no_service" | ST_DROP_NO_SESSION => "drop_no_session"
  | ST_DROP_NO_RS => "drop_no_rs" | ST_DROP_RS_DOWN => "drop_rs_down" | ST_DROP_TABLE_FULL => "drop_table_full"
  | ST_DROP_NO_PORT => "drop_no_port" | ST_DROP_NO_NEIGH => "drop_no_neigh" | ST_DROP_TTL => "drop_ttl"
  | ST_DROP_REDIRECT => "drop_redirect" | ST_DROP_OTHER => "drop_other"
  | ST_SESS_NEW => "sess_new" | ST_SESS_EXPIRED => "sess_expired" | ST_SESS_CLOSED => "sess_closed"
  | ST_REDIRECT_OUT => "redirect_out" | ST_REDIRECT_IN => "redirect_in" | ST_RING_IN => "ring_in"
  | ST_DROP_RX_RING => "drop_rx_ring" | ST_RSS_MISMATCH => "rss_mismatch" | ST_RSS_NO_HASH => "rss_no_hash"
  | ST_TOA_ADDED => "toa_added" | ST_TOA_NO_ROOM => "toa_no_room" | ST_TS_STRIPPED => "ts_stripped"
  | ST_HC_RESP => "hc_resp"
  | ST_COUNT => "?"
  end.

Definition byte_stat_name (id : ByteStat) : string :=
  match id with BS_RX => "rx" | BS_TX => "tx" | BS_FWD_IN => "fwd_in" | BS_FWD_OUT => "fwd_out" end.

(** 0 .. ST_COUNT - 1 *)
Definition all_stats : list Stat :=
  [ST_RX; ST_TX; ST_TX_FULL; ST_ARP; ST_ICMP; ST_TCP; ST_UDP; ST_FWD_IN; ST_FWD_OUT; ST_ICMP_ERR_FWD] ++ drop_range ++
  [ST_SESS_NEW; ST_SESS_EXPIRED; ST_SESS_CLOSED; ST_REDIRECT_OUT; ST_REDIRECT_IN; ST_RING_IN; ST_DROP_RX_RING;
   ST_RSS_MISMATCH; ST_RSS_NO_HASH; ST_TOA_ADDED; ST_TOA_NO_ROOM; ST_TS_STRIPPED; ST_HC_RESP].

(** ** What is read *)

Record NicStats := mkNicStats {
  ipackets : Z; opackets : Z; ibytes : Z; obytes : Z; imissed : Z; ierrors : Z; oerrors : Z; rx_nombuf : Z;
}.
Definition NicStats0 : NicStats := mkNicStats 0 0 0 0 0 0 0 0.

Record WorkerView := mkWorkerView {
  wv_lcore : Z;
  wv_stats : WorkerStats;
  wv_rs : gmap Z RsCounters;
  wv_ring : option Z;       (** entries in the rx ring, if there is one *)
}.

Record View := mkView {
  v_mode : ForwardMode;
  v_pipeline : bool;
  v_hw : bool;
  v_tsc_hz : Z;
  v_start_tsc : Z;
  v_main_lcore : Z;
  v_workers : list WorkerView;
  v_receiver : option WorkerStats;
  v_master : option WorkerStats;
  v_neigh : Z;
  v_nic : NicStats;
  v_mgr : SnapshotManager;
}.

Definition set_nic (n : NicStats) (v : View) : View :=
  mkView (v_mode v) (v_pipeline v) (v_hw v) (v_tsc_hz v) (v_start_tsc v) (v_main_lcore v) (v_workers v) (v_receiver v)
    (v_master v) (v_neigh v) n (v_mgr v).

Definition num_workers (v : View) : Z := len (v_workers v).

(** [dev]: what rte_eth_stats_get gives; [None] if it fails. *)
Definition nic_stats_update (dev : option NicStats) (v : View) : View :=
  match dev with Some n => set_nic n v | None => v end.

Definition total (v : View) : Stat -> Z :=
  stats_total ((fun w => Some (wv_stats w)) <$> v_workers v) (v_receiver v) (v_master v).

(** The byte counters of stats_total. *)
Definition bytes_total (v : View) (i : ByteStat) : Z :=
  foldl (fun t o => match o with Some s => u64 (t + bytes_ s i) | None => t end) 0
    (((fun w => Some (wv_stats w)) <$> v_workers v) ++ [v_receiver v; v_master v])%list.

Definition rs_of (v : View) (id : Z) : RsCounters := rs_total ((fun w => Some (wv_rs w)) <$> v_workers v) id.

(** SnapshotManager::ServiceInfo *)
Record RsInfo := mkRsInfo { ri_id : Z; ri_ip : IPv4Addr; ri_port : Z }.
Record ServiceInfo := mkServiceInfo {
  si_idx : Z; si_name : string; si_vip : IPv4Addr; si_port : Z; si_proto : Z; si_rs : list RsInfo;
}.

Definition service_info (i : nat) (ds : DesiredService) : ServiceInfo :=
  let c := ds_conf ds in
  mkServiceInfo (u16 (Z.of_nat i)) (sc_name c) (sc_vip c) (sc_port c) (sc_proto c)
    ((fun r => mkRsInfo (d_id r) (rc_ip (d_conf r)) (rc_port (d_conf r))) <$> ds_rs ds).

(** SnapshotManager::list *)
Definition services_list (m : SnapshotManager) : list ServiceInfo := imap service_info (services_ m).

Section Text.
Context {P : InetPrint}.

Definition addr (ip port : Z) : string := cat [ip_to_string ip; ":"; num port].
Definition proto_name (p : Z) : string := if p =? 17 then "udp" else "tcp".

(** ** services *)

Definition describe_rs (r : DesiredRs) : string :=
  cat ["  rs "; num (d_id r); " "; addr (rc_ip (d_conf r)) (rc_port (d_conf r)); " weight "; num (rc_weight (d_conf r)); " ";
       if d_enabled r then "enabled" else "disabled"; " "; if d_healthy r then "up" else "down"; nl].

Definition describe_service (i : nat) (ds : DesiredService) : string :=
  let c := ds_conf ds in
  cat (["service "; num (Z.of_nat i); " "; sc_name c; " "; addr (sc_vip c) (sc_port c); "/"; proto_name (sc_proto c); " sched ";
        match sc_sched c with MAGLEV => "maglev" | WRR => "wrr" end; nl] ++ (describe_rs <$> ds_rs ds))%list.

Definition describe (m : SnapshotManager) : string :=
  cat (["mode "; match mode_ m with NAT => "fullnat" | DR => "dr" end; "  version "; num (version_ m); nl] ++
       imap describe_service (services_ m))%list.

(** ** stats *)

Definition nonzero (n : Z) : bool := negb (n =? 0).

(** " name=value" of the counters of drops that are not zero *)
Definition drop_list (t : Stat -> Z) : string :=
  cat ((fun i => if nonzero (t i) then cat [" "; stat_name i; "="; num (t i)] else EmptyString) <$> drop_range).

Definition busy_ms (s : WorkerStats) (hz : Z) : Z := u64 (busy_tsc s * 1000) / hz.

Definition receiver_line (v : View) (r : WorkerStats) : string :=
  cat ["receiver lcore "; num (v_main_lcore v); " rx "; num (c r ST_RX); " rx_ring_full "; num (c r ST_DROP_RX_RING);
       " busy_ms "; num (busy_ms r (v_tsc_hz v)); nl].

Definition worker_line (v : View) (i : nat) (w : WorkerView) : string :=
  let s := wv_stats w in
  cat ["worker "; num (Z.of_nat i); " lcore "; num (wv_lcore w); " rx "; num (c s ST_RX); " ring_in "; num (c s ST_RING_IN);
       " tx "; num (c s ST_TX); " redirect_out "; num (c s ST_REDIRECT_OUT);
       match wv_ring w with Some n => cat [" ring_used "; num n] | None => EmptyString end;
       " busy_ms "; num (busy_ms s (v_tsc_hz v)); nl].

Definition opt_text {A} (f : A -> string) (o : option A) : string := match o with Some a => f a | None => EmptyString end.

Definition format_verbose (v : View) : string :=
  cat [cat ((fun i => cat [stat_name i; " "; num (total v i); nl]) <$> all_stats);
       opt_text (receiver_line v) (v_receiver v);
       cat (imap (worker_line v) (v_workers v));
       opt_text (fun m => cat ["master tx "; num (c m ST_TX); " tx_full "; num (c m ST_TX_FULL); nl]) (v_master v)].

Definition format_stats (verbose : bool) (v : View) : string :=
  let t := total v in
  let n := v_nic v in
  cat ["=== L4 LB Statistics ("; if v_pipeline v then "pipeline" else "rtc"; ", workers: "; num (num_workers v); ", steering: ";
       if v_hw v then "hw-rss" else "sw"; ") ==="; nl;
       "DPDK RX: "; num (t ST_RX); ", TX: "; num (t ST_TX); ", Dropped: "; num (drops t); nl;
       "Forwarded: in "; num (t ST_FWD_IN); ", out "; num (t ST_FWD_OUT); ", icmp err "; num (t ST_ICMP_ERR_FWD);
       " | TCP "; num (t ST_TCP); ", UDP "; num (t ST_UDP); ", ICMP "; num (t ST_ICMP); ", ARP "; num (t ST_ARP); nl;
       "Sessions: active "; num (sessions_active t); ", new "; num (t ST_SESS_NEW); ", expired "; num (t ST_SESS_EXPIRED);
       ", closed "; num (t ST_SESS_CLOSED); nl;
       "Redirect: out "; num (t ST_REDIRECT_OUT); ", in "; num (t ST_REDIRECT_IN); ", rss mismatch "; num (t ST_RSS_MISMATCH);
       ", rss no hash "; num (t ST_RSS_NO_HASH); " | neighbors "; num (v_neigh v); nl;
       "Drops:"; drop_list t;
       if nonzero (t ST_TX_FULL) then cat [" tx_full="; num (t ST_TX_FULL)] else EmptyString;
       if nonzero (t ST_DROP_RX_RING) then cat [" rx_ring_full="; num (t ST_DROP_RX_RING)] else EmptyString;
       if existsb (fun i => nonzero (t i)) drop_range || nonzero (t ST_TX_FULL) || nonzero (t ST_DROP_RX_RING)
       then EmptyString else " none"; nl;
       "NIC: ipackets "; num (ipackets n); ", opackets "; num (opackets n); ", ibytes "; num (ibytes n); ", obytes "; num (obytes n);
       ", imissed "; num (imissed n); ", ierrors "; num (ierrors n); ", oerrors "; num (oerrors n); ", rx_nombuf "; num (rx_nombuf n); nl;
       if verbose then format_verbose v else EmptyString].

(** ** The periodic report *)

Definition zero : double := of_u64 0.
Definition d1e3 : double := of_u64 1000.
Definition d1e6 : double := of_u64 1000000.
Definition d1e9 : double := of_u64 1000000000.

Definition pct (busy elapsed : Z) : string :=
  snprintf 16 (cat [fixed 1 (if nonzero elapsed then ddiv (dmul (of_u64 100) (of_u64 busy)) (of_u64 elapsed) else zero); "%"]).

Definition bps (bytes : Z) (sec : double) : string :=
  let r := if dgt sec zero then ddiv (dmul (of_u64 bytes) (of_u64 8)) sec else zero in
  snprintf 32 (if dge r d1e9 then cat [fixed 2 (ddiv r d1e9); " Gbps"]
               else if dge r d1e6 then cat [fixed 1 (ddiv r d1e6); " Mbps"]
               else if dge r d1e3 then cat [fixed 1 (ddiv r d1e3); " Kbps"]
               else cat [fixed 0 r; " bps"]).

Definition rate (n : Z) (sec : double) : string :=
  let r := if dgt sec zero then ddiv (of_u64 n) sec else zero in
  snprintf 32 (if dge r d1e6 then cat [fixed 2 (ddiv r d1e6); "M"]
               else if dge r d1e3 then cat [fixed 1 (ddiv r d1e3); "k"]
               else fixed 0 r).

(** The packets a thread has handled. *)
Definition worker_pkts (v : View) (s : WorkerStats) : Z :=
  u64 (c s (if v_pipeline v then ST_RING_IN else ST_RX) + c s ST_REDIRECT_IN).

(** Busy time and packets per thread: the receiver first. *)
Definition collect (v : View) : list Z * list Z :=
  let rx := match v_receiver v with Some r => [r] | None => [] end in
  ((busy_tsc <$> rx) ++ ((fun w => busy_tsc (wv_stats w)) <$> v_workers v),
   ((fun r => c r ST_RX) <$> rx) ++ ((fun w => worker_pkts v (wv_stats w)) <$> v_workers v))%list.

Record PerfBase := mkPerfBase {
  pb_tsc : Z;
  pb_total : Stat -> Z;
  pb_bytes : ByteStat -> Z;
  pb_nic : NicStats;
  pb_busy : list Z;
  pb_pkts : list Z;
}.

Record Perf := mkPerf {
  g_perf : option PerfBase;    (** [None]: not valid *)
  g_perf_last : string;
}.

Definition Perf0 : Perf := mkPerf None (cat ["no report yet (first one after stats_interval)"; nl]).

Definition perf_base (now : Z) (v : View) : PerfBase :=
  let '(busy, pkts) := collect v in mkPerfBase now (total v) (bytes_total v) (v_nic v) busy pkts.

(** The differences between two readings. *)
Record PerfDelta := mkPerfDelta {
  pd_el : Z;
  pd_stat : Stat -> Z;
  pd_bytes : ByteStat -> Z;
  pd_drops : Z;
  pd_nic : NicStats;
  pd_busy : list Z;
  pd_pkts : list Z;
}.

Definition minus (a b : Z) : Z := u64 (a - b).

Definition nic_minus (a b : NicStats) : NicStats :=
  mkNicStats (minus (ipackets a) (ipackets b)) (minus (opackets a) (opackets b)) (minus (ibytes a) (ibytes b))
    (minus (obytes a) (obytes b)) (minus (imissed a) (imissed b)) (minus (ierrors a) (ierrors b))
    (minus (oerrors a) (oerrors b)) (minus (rx_nombuf a) (rx_nombuf b)).

Definition perf_delta (cur prev : PerfBase) : PerfDelta :=
  mkPerfDelta (minus (pb_tsc cur) (pb_tsc prev)) (fun s => minus (pb_total cur s) (pb_total prev s))
    (fun s => minus (pb_bytes cur s) (pb_bytes prev s)) (minus (drops (pb_total cur)) (drops (pb_total prev)))
    (nic_minus (pb_nic cur) (pb_nic prev)) (zip_with minus (pb_busy cur) (pb_busy prev)) (zip_with minus (pb_pkts cur) (pb_pkts prev)).

(** [off]: the first worker's index in the lists. *)
Definition perf_worker (d : PerfDelta) (sec : double) (off w : nat) : string :=
  cat [" | worker"; num (Z.of_nat w); " "; pct (pd_busy d !!! (off + w)%nat) (pd_el d); " "; rate (pd_pkts d !!! (off + w)%nat) sec; "pps"].

Definition perf_text (v : View) (d : PerfDelta) (imissed_total : Z) : string :=
  let sec := ddiv (of_u64 (pd_el d)) (of_u64 (v_tsc_hz v)) in
  let st i := rate (pd_stat d i) sec in
  let n := pd_nic d in
  let off := match v_receiver v with Some _ => 1%nat | None => 0%nat end in
  cat [snprintf 64 (cat ["=== Perf (last "; fixed 1 sec; "s) ==="; nl]);
       "Rate: rx "; st ST_RX; " pps "; bps (pd_bytes d BS_RX) sec; ", tx "; st ST_TX; " pps "; bps (pd_bytes d BS_TX) sec;
       ", fwd in "; st ST_FWD_IN; " pps, fwd out "; st ST_FWD_OUT; " pps, new sess "; st ST_SESS_NEW; " /s, drops ";
       rate (pd_drops d) sec; " /s"; nl;
       "Busy:";
       match v_receiver v with Some _ => cat [" receiver "; pct (pd_busy d !!! 0%nat) (pd_el d)] | None => EmptyString end;
       cat (perf_worker d sec off <$> seq 0 (List.length (v_workers v))); nl;
       "NIC: rx "; rate (ipackets n) sec; " pps, tx "; rate (opackets n) sec; " pps, imissed +"; num (imissed n); ", ierrors +";
       num (ierrors n); ", rx_nombuf +"; num (rx_nombuf n); " (total imissed "; num imissed_total; ")"; nl].

(** The view, and the report: empty the first time and when threads were added. *)
Definition perf_report_tick (now : Z) (dev : option NicStats) (v : View) (p : Perf) : View * string * Perf :=
  let v := nic_stats_update dev v in
  let cur := perf_base now v in
  match g_perf p with
  | None => (v, EmptyString, mkPerf (Some cur) (g_perf_last p))
  | Some prev =>
    if negb (List.length (pb_busy cur) =? List.length (pb_busy prev))%nat then (v, EmptyString, mkPerf (Some cur) (g_perf_last p))
    else
      let out := perf_text v (perf_delta cur prev) (imissed (pb_nic cur)) in
      (v, out, mkPerf (Some cur) out)
  end.

Definition perf_report_last (p : Perf) : string := g_perf_last p.

(** The report in the master's loop: the messages it logs and the new stats_ms,
    which is 0 before the first one. *)
Definition master_report (now_ms interval stats_ms tsc : Z) (dev : option NicStats) (v : View) (p : Perf) : list string * Z * View * Perf :=
  if u64 (now_ms - stats_ms) >=? u64 (interval * 1000) then
    let '(v, perf, p) := perf_report_tick tsc dev v p in
    (if stats_ms =? 0 then [] else getlines Logger.newline EmptyString (String.append (format_stats false v) perf),
     if now_ms =? 0 then 1 else now_ms, v, p)
  else ([], stats_ms, v, p).

(** ** counters *)

Definition rs_add (a b : RsCounters) : RsCounters :=
  mkRsCounters (u64 (conns a + conns b)) (u64 (rc_pkts_in a + rc_pkts_in b)) (u64 (rc_bytes_in a + rc_bytes_in b))
    (u64 (rc_pkts_out a + rc_pkts_out b)) (u64 (rc_bytes_out a + rc_bytes_out b)).

Definition svc_sum (v : View) (s : ServiceInfo) : RsCounters :=
  foldl (fun sum r => rs_add sum (rs_of v (ri_id r))) RsCounters0 (si_rs s).

Definition rs_keys (k : string) (t : RsCounters) : list (string * string) :=
  [(cat [k; "conns"], num (conns t)); (cat [k; "pkts_in"], num (rc_pkts_in t)); (cat [k; "bytes_in"], num (rc_bytes_in t));
   (cat [k; "pkts_out"], num (rc_pkts_out t)); (cat [k; "bytes_out"], num (rc_bytes_out t))].

Definition rs_counters (v : View) (s : ServiceInfo) (r : RsInfo) : list (string * string) :=
  let k := cat ["rs."; num (ri_id r); "."] in
  (cat [k; "svc"], num (si_idx s)) :: (cat [k; "addr"], addr (ri_ip r) (ri_port r)) :: rs_keys k (rs_of v (ri_id r)).

Definition svc_counters (v : View) (s : ServiceInfo) : list (string * string) :=
  let k := cat ["svc."; num (si_idx s); "."] in
  ((cat [k; "name"], si_name s) :: (cat [k; "addr"], cat [addr (si_vip s) (si_port s); "/"; proto_name (si_proto s)]) ::
   rs_keys k (svc_sum v s)) ++ (r ← si_rs s; rs_counters v s r).

Definition thread_counters (k : string) (busy_ns pkts : Z) : list (string * string) :=
  [(cat ["thread."; k; ".busy_ns"], num busy_ns); (cat ["thread."; k; ".pkts"], num pkts)].

Definition base_counters (ts up : Z) (v : View) : list (string * string) :=
  let t := total v in
  let b := bytes_total v in
  let n := v_nic v in
  [("time_ns", num ts); ("uptime_ns", num up); ("mode", match v_mode v with NAT => "fullnat" | DR => "dr" end);
   ("dataplane", if v_pipeline v then "pipeline" else "rtc"); ("workers", num (num_workers v));
   ("nic_ipackets", num (ipackets n)); ("nic_opackets", num (opackets n)); ("nic_ibytes", num (ibytes n));
   ("nic_obytes", num (obytes n)); ("nic_imissed", num (imissed n)); ("nic_ierrors", num (ierrors n));
   ("nic_oerrors", num (oerrors n)); ("nic_rx_nombuf", num (rx_nombuf n));
   ("rx_pkts", num (t ST_RX)); ("rx_bytes", num (b BS_RX)); ("tx_pkts", num (t ST_TX)); ("tx_bytes", num (b BS_TX));
   ("fwd_in_pkts", num (t ST_FWD_IN)); ("fwd_in_bytes", num (b BS_FWD_IN)); ("fwd_out_pkts", num (t ST_FWD_OUT));
   ("fwd_out_bytes", num (b BS_FWD_OUT)); ("conns_new", num (t ST_SESS_NEW)); ("conns_active", num (sessions_active t));
   ("drops", num (drops t))].

Definition busy_ns (v : View) (s : WorkerStats) : option Z := cycles_ns (busy_tsc s) (v_tsc_hz v).

Definition worker_counters (v : View) (i : nat) (w : WorkerView) : option (list (string * string)) :=
  b ← busy_ns v (wv_stats w);
  Some (thread_counters (cat ["worker"; num (Z.of_nat i)]) b (worker_pkts v (wv_stats w))).

(** Key and value of every line; [ts] is the time of day, [now] the clock. *)
Definition counters (ts now : Z) (v : View) : option (list (string * string)) :=
  up ← cycles_ns (minus now (v_start_tsc v)) (v_tsc_hz v);
  rx ← (match v_receiver v with
        | Some r => b ← busy_ns v r; Some (thread_counters "receiver" b (c r ST_RX))
        | None => Some []
        end);
  ws ← mapM id (imap (worker_counters v) (v_workers v));
  Some (base_counters ts up v ++ ((fun i => (cat ["stat."; stat_name i], num (total v i))) <$> all_stats) ++
        ("tsc_hz", num (v_tsc_hz v)) :: rx ++ mjoin ws ++ (s ← services_list (v_mgr v); svc_counters v s))%list.

Definition line (e : string * string) : string := cat [e.1; " "; e.2; nl].

Definition format_counters (ts now : Z) (dev : option NicStats) (v : View) : option (View * string) :=
  let v := nic_stats_update dev v in
  l ← counters ts now v; Some (v, cat (line <$> l)).

(** ** stats -r *)

Fixpoint spaces (n : nat) : string := match n with O => EmptyString | S n => String " "%char (spaces n) end.
(** %-<n>s and %<n>s *)
Definition ljust (n : nat) (s : string) : string := String.append s (spaces (n - String.length s)).
Definition rjust (n : nat) (s : string) : string := String.append (spaces (n - String.length s)) s.

Definition human (n : Z) : string :=
  snprintf 32 (if n >=? 1000000000 then cat [fixed 2 (ddiv (of_u64 n) d1e9); "G"]
               else if n >=? 1000000 then cat [fixed 2 (ddiv (of_u64 n) d1e6); "M"]
               else if n >=? 1000 then cat [fixed 1 (ddiv (of_u64 n) d1e3); "k"]
               else num n).

Definition row (name a b c d e : string) : string :=
  snprintf 256 (cat [ljust 34 name; " "; rjust 10 a; " "; rjust 10 b; " "; rjust 10 c; " "; rjust 10 d; " "; rjust 10 e; nl]).

Definition rs_row (name : string) (t : RsCounters) : string :=
  row name (human (conns t)) (human (rc_pkts_in t)) (human (rc_bytes_in t)) (human (rc_pkts_out t)) (human (rc_bytes_out t)).

Definition svc_rows (v : View) (s : ServiceInfo) : list string :=
  rs_row (cat [if si_proto s =? 17 then "UDP " else "TCP "; addr (si_vip s) (si_port s); " "; si_name s]) (svc_sum v s) ::
  ((fun r => rs_row (cat ["  -> rs "; num (ri_id r); " "; addr (ri_ip r) (ri_port r)]) (rs_of v (ri_id r))) <$> si_rs s).

Definition format_rs_stats (v : View) : string :=
  cat (row EmptyString "conns" "inpkts" "inbytes" "outpkts" "outbytes" :: (s ← services_list (v_mgr v); svc_rows v s)).

(** ** At exit *)

Definition avg_busy (el : Z) (name : string) (s : WorkerStats) : string :=
  snprintf 64 (cat [" "; name; " "; fixed 1 (ddiv (dmul (of_u64 100) (of_u64 (busy_tsc s))) (of_u64 el)); "%"]).

(** The messages main logs after the loops have ended; [now] is the clock. *)
Definition final_report (now : Z) (dev : option NicStats) (v : View) : list string :=
  let v := nic_stats_update dev v in
  let t := total v in
  let n := v_nic v in
  let el := minus now (v_start_tsc v) in
  let bar := "========================================================" in
  ([bar; "L4 Load Balancer stopped"; "Final Statistics:";
    cat ["  DPDK RX: "; num (t ST_RX); ", TX: "; num (t ST_TX)];
    cat ["  DPDK Dropped: "; num (drops t)];
    cat ["  LB Forwarded: "; num (u64 (t ST_FWD_IN + t ST_FWD_OUT)); ", Dropped: "; num (drops t)];
    cat ["  Total Sessions: "; num (t ST_SESS_NEW); ", Active: "; num (sessions_active t)];
    cat ["  Session create fail: "; num (u64 (t ST_DROP_TABLE_FULL + t ST_DROP_NO_PORT)); ", replaced: 0, cleaned: ";
         num (u64 (t ST_SESS_EXPIRED + t ST_SESS_CLOSED))];
    cat ["  Redirect out: "; num (t ST_REDIRECT_OUT); ", RSS mismatch: "; num (t ST_RSS_MISMATCH); ", RSS no hash: "; num (t ST_RSS_NO_HASH)]] ++
   ((fun i => cat ["  "; stat_name i; ": "; num (t i)]) <$> filter (fun i => nonzero (t i) = true) drop_range) ++
   (if nonzero (t ST_DROP_RX_RING) then [cat ["  drop_rx_ring: "; num (t ST_DROP_RX_RING)]] else []) ++
   [cat ["  NIC imissed: "; num (imissed n); ", ierrors: "; num (ierrors n); ", rx_nombuf: "; num (rx_nombuf n)];
    cat ["  Avg busy:"; opt_text (avg_busy el "receiver") (v_receiver v);
         cat (imap (fun i w => avg_busy el (cat ["worker"; num (Z.of_nat i)]) (wv_stats w)) (v_workers v))];
    bar])%list.

(** ** The configuration at start-up *)

Definition on_off (b : bool) : string := if b then "on" else "off".
Definition sched_name (s : SchedulerType) : string := match s with MAGLEV => "maglev" | WRR => "wrr" end.

Definition dump_rs (r : RsConf) : string :=
  cat ["    RS "; addr (rc_ip r) (rc_port r); " weight="; num (rc_weight r); " mac=";
       if mac_is_zero (rc_mac r) then "(arp)" else mac_to_string (rc_mac r)].

Definition dump_service (s : ServiceConf) : list string :=
  cat ["Service "; sc_name s; ": "; addr (sc_vip s) (sc_port s); "/"; proto_name (sc_proto s); " sched="; sched_name (sc_sched s); ", ";
       num (len (sc_rs s)); " RS"] :: (dump_rs <$> sc_rs s).

(** Config::dump: the messages. *)
Definition dump (c : LbConfig) (o : ConfigText.Options) : list string :=
  let t := c_timeouts c in
  let h := c_health c in
  (["========== Configuration ==========";
    cat ["Forward Mode: "; match c_mode c with NAT => "FULLNAT" | DR => "DR" end; ", dataplane: ";
         match ConfigText.o_dataplane o with ConfigText.PIPELINE => "pipeline" | ConfigText.RTC => "rtc" end];
    if empty (ConfigText.o_log_dir o) then cat ["Log: level="; ConfigText.o_log_level o; ", stderr only"]
    else cat ["Log: level="; ConfigText.o_log_level o; " dir="; ConfigText.o_log_dir o; " max_size="; num (ConfigText.o_log_max_size_mb o);
              "MB max_files="; num (ConfigText.o_log_max_files o); " stderr="; on_off (ConfigText.o_log_stderr o)];
    cat ["Stats interval: "; num (ConfigText.o_stats_interval o); "s"];
    cat ["Max sessions: "; num (c_max_sessions c); ", TOA: "; on_off (c_toa c); ", strip TCP timestamp: "; on_off (c_strip_tcp_timestamp c)];
    cat ["Timeouts: syn="; num (Tcp.tcp_syn t); " est="; num (Tcp.tcp_established t); " fin="; num (Tcp.tcp_fin t); " timewait="; num (Tcp.tcp_timewait t);
         " close="; num (Tcp.tcp_close t); " udp="; num (Tcp.udp t)];
    cat ["Network: netmask="; ip_to_string (c_netmask c); " gateway="; ip_to_string (c_gateway c); " hc_src="; ip_to_string (c_hc_src c)]] ++
   ((fun ip => cat ["  Local IP: "; ip_to_string ip]) <$> c_local_ips c) ++
   [cat ["Health check: "; on_off (hc_enabled h); " interval="; num (hc_interval_ms h); "ms timeout="; num (hc_timeout_ms h); "ms fall=";
         num (hc_fall h); " rise="; num (hc_rise h)]] ++
   (s ← c_services c; dump_service s) ++
   ["===================================="])%list.

End Text.
End Report.
