(* ===== verification/ReportThms.v ===== *)
(** ReportThms: the counters report can be read back: lines, keys, sums. *)
From S2P Require Import Prelude Types Mem Dpdk Session Steering Scheduler Config Snapshot ManagerThms Neigh Context Text Print Double Stdio Logger Report.
From Stdlib Require Import String Ascii.
Import Scheduler Config Snapshot ManagerThms Context Text Print Double Report.

(** inet_ntop prints on one line. *)
Class InetPrintLine (P : InetPrint) := { ntop_line a : forall k, isdigit k = false -> k <> "."%char -> Text.cut k (inet_ntop a) = None }.

Module ReportThms.
Local Open Scope string_scope.
Local Open Scope Z_scope.

#[local] Arguments num : simpl never.

(** ** Characters *)

Definition lacks (k : ascii) (s : string) : Prop := cut k s = None.

Lemma lacks_cons k x s : lacks k (String x s) <-> x <> k /\ lacks k s.
Proof.
  unfold lacks. cbn [cut]. destruct (Ascii.eqb_spec x k) as [->|Hx]; [split; [done|by intros []]|].
  destruct (cut k s) as [[a b]|]; cbn; [split; [done|by intros []]|done].
Qed.

Lemma lacks_append k s t : lacks k (String.append s t) <-> lacks k s /\ lacks k t.
Proof.
  induction s as [|x s IH]; [by rewrite append_nil; split; [|intros []]|].
  rewrite append_cons, !lacks_cons, IH. tauto.
Qed.

Lemma lacks_cat k l : Forall (lacks k) l -> lacks k (cat l).
Proof. induction 1 as [|s l Hs Hl IH]; [done|]. cbn. by apply lacks_append. Qed.

Lemma cut_first k s t : lacks k s -> cut k (String.append s (String k t)) = Some (s, t).
Proof.
  induction s as [|x s IH]; [intros _; rewrite append_nil; cbn; by rewrite Ascii.eqb_refl|].
  intros [Hx Hs]%lacks_cons. rewrite append_cons. cbn [cut]. destruct (Ascii.eqb_spec x k); [done|]. by rewrite IH.
Qed.

Lemma getlines_first k acc s t : lacks k s ->
  getlines k acc (String.append s (String k t)) = String.append acc s :: getlines k EmptyString t.
Proof.
  revert acc. induction s as [|x s IH]; intros acc.
  - intros _. rewrite append_nil, append_nil_r. cbn. by rewrite Ascii.eqb_refl.
  - intros [Hx Hs]%lacks_cons. rewrite append_cons. cbn [getlines]. destruct (Ascii.eqb_spec x k); [done|].
    rewrite IH by done. by rewrite <- append_assoc.
Qed.

Lemma code_chr n : 0 <= n < 256 -> code (chr n) = n.
Proof. intros H. unfold code, chr. rewrite N_ascii_embedding by lia. lia. Qed.

Lemma decimal_lacks fuel n k : isdigit k = false -> lacks k (decimal_digits fuel n).
Proof.
  intros Hk. revert n. induction fuel as [|fuel IH]; intros n; [done|]. cbn [decimal_digits]. apply lacks_append. split.
  - destruct (n <? 10); [done|]. apply IH.
  - apply lacks_cons. split; [|done]. intros <-. unfold isdigit in Hk. pose proof (Z.mod_pos_bound n 10 ltac:(lia)).
    rewrite code_chr in Hk by lia. assert ((48 <=? 48 + n mod 10) && (48 + n mod 10 <=? 57) = true) by (apply andb_true_iff; split; apply Z.leb_le; lia).
    congruence.
Qed.

Lemma num_lacks n k : isdigit k = false -> lacks k (num n).
Proof. apply decimal_lacks. Qed.

Lemma num_inj n m : is_u64 n -> is_u64 m -> num n = num m -> n = m.
Proof. apply to_string_inj. Qed.

(** ** Lines *)

(** The text of the report, line by line, each cut at its first space. *)
Definition read_counters (text : string) : list (string * string) := omap (cut " "%char) (getlines Logger.newline EmptyString text).

Definition entry_ok (e : string * string) : Prop := lacks " "%char e.1 /\ lacks Logger.newline e.1 /\ lacks Logger.newline e.2.

Lemma read_lines l : Forall entry_ok l -> read_counters (cat (line <$> l)) = l.
Proof.
  unfold read_counters. induction 1 as [|[k x] l (H1 & H2 & H3) Hl IH]; [done|].
  rewrite fmap_cons. change (cat (line (k, x) :: (line <$> l))) with (String.append (line (k, x)) (cat (line <$> l))).
  assert (String.append (line (k, x)) (cat (line <$> l)) =
          String.append (String.append k (String " "%char x)) (String Logger.newline (cat (line <$> l)))) as ->.
  { unfold line. cbn [Logger.cat foldr fst snd]. by rewrite <- !append_assoc. }
  rewrite getlines_first; [|apply lacks_append; split; [done|]; by apply lacks_cons].
  rewrite append_nil. cbn [omap list_omap]. by rewrite cut_first, IH.
Qed.

(** ** Keys *)

Definition comps (k : string) : list string := getlines "."%char EmptyString k.

Lemma getlines_last k acc s : lacks k s -> s <> EmptyString -> getlines k acc s = [String.append acc s].
Proof.
  revert acc. induction s as [|x s IH]; intros acc Hl Hne; [done|]. apply lacks_cons in Hl as [Hx Hs]. cbn [getlines].
  destruct (Ascii.eqb_spec x k); [done|]. destruct s as [|y s].
  - cbn. destruct acc; [done|]. by rewrite append_cons.
  - rewrite IH by done. by rewrite <- append_assoc.
Qed.

Lemma comps3 a b f : lacks "."%char a -> lacks "."%char b -> lacks "."%char f -> f <> EmptyString ->
  comps (String.append a (String "."%char (String.append b (String "."%char f)))) = [a; b; f].
Proof. intros. unfold comps. rewrite !getlines_first, getlines_last by done. done. Qed.

(** tag.name.field, for all names and fields *)
Definition group (tag : string) (names fields : list string) : list (list string) :=
  n ← names; (fun f => [tag; n; f]) <$> fields.

Lemma group_cons tag n names fields : group tag (n :: names) fields = (((fun f => [tag; n; f]) <$> fields) ++ group tag names fields)%list.
Proof. done. Qed.

Lemma group_app tag a b fields : group tag (a ++ b)%list fields = (group tag a fields ++ group tag b fields)%list.
Proof. apply bind_app. Qed.

Lemma group_NoDup tag names fields : NoDup names -> NoDup fields -> NoDup (group tag names fields).
Proof.
  intros Hn Hf. apply NoDup_bind; [|intros x _; apply NoDup_fmap_2; [by intros ?? [=]|done]|done].
  intros x y z _ _ (f & -> & _)%list_elem_of_fmap (g & [=] & _)%list_elem_of_fmap. done.
Qed.

Lemma group_tag tag names fields x : x ∈ group tag names fields -> head x = Some tag /\ List.length x = 3%nat.
Proof. intros (n & (f & -> & _)%list_elem_of_fmap & _)%list_elem_of_bind. done. Qed.

(** The parts of a report's keys. *)
Definition rs_fields : list string := ["conns"; "pkts_in"; "bytes_in"; "pkts_out"; "bytes_out"].
Definition svc_fields : list string := "name" :: "addr" :: rs_fields.
Definition server_fields : list string := "svc" :: "addr" :: rs_fields.
Definition thread_fields : list string := ["busy_ns"; "pkts"].

Definition keys (l : list (string * string)) : list (list string) := (fun e => comps e.1) <$> l.

Lemma keys_app l l' : keys (l ++ l') = (keys l ++ keys l')%list.
Proof. apply fmap_app. Qed.

Lemma keys_bind {A} (f : A -> list (string * string)) l : keys (l ≫= f) = l ≫= (fun x => keys (f x)).
Proof. induction l as [|x l IH]; [done|]. rewrite !bind_cons, keys_app. by rewrite IH. Qed.

Definition dot : ascii := "."%char.

Lemma num_dot n : lacks dot (num n).
Proof. by apply num_lacks. Qed.

(** A key of the form tag.number.field as the code puts it together. *)
Lemma comps_key tag n f : lacks dot tag -> lacks dot n -> lacks dot f -> f <> EmptyString ->
  comps (cat [cat [String.append tag "."; n; "."]; f]) = [tag; n; f].
Proof.
  intros. cbn [Logger.cat foldr]. rewrite !append_nil_r, <- !append_assoc, !append_cons, !append_nil. by apply comps3.
Qed.

Lemma keys_rs_keys tag n t : lacks dot tag -> lacks dot n ->
  keys (rs_keys (cat [String.append tag "."; n; "."]) t) = (fun f => [tag; n; f]) <$> rs_fields.
Proof. intros. unfold keys, rs_keys. cbn [fmap list_fmap fst rs_fields]. by rewrite !comps_key. Qed.

Section Keys.
Context {P : InetPrint}.

Lemma keys_rs v s r : keys (rs_counters v s r) = (fun f => ["rs"; num (ri_id r); f]) <$> server_fields.
Proof.
  unfold rs_counters. change "rs." with (String.append "rs" "."). cbn [keys fmap list_fmap fst server_fields].
  rewrite !comps_key by (done || apply num_dot). do 2 f_equal. apply keys_rs_keys; [done|apply num_dot].
Qed.

Lemma keys_svc v s : keys (svc_counters v s) =
  (((fun f => ["svc"; num (si_idx s); f]) <$> svc_fields) ++ group "rs" ((fun r => num (ri_id r)) <$> si_rs s) server_fields)%list.
Proof.
  unfold svc_counters. rewrite keys_app, keys_bind. f_equal.
  - change "svc." with (String.append "svc" "."). cbn [keys fmap list_fmap fst svc_fields].
    rewrite !comps_key by (done || apply num_dot). do 2 f_equal. apply keys_rs_keys; [done|apply num_dot].
  - unfold group. induction (si_rs s) as [|r l IH]; [done|]. rewrite fmap_cons, !bind_cons, keys_rs. by rewrite IH.
Qed.

Lemma keys_services v l : keys (s ← l; svc_counters v s) ≡ₚ
  (group "svc" ((fun s => num (si_idx s)) <$> l) svc_fields ++ group "rs" (num <$> (s ← l; ri_id <$> si_rs s)) server_fields)%list.
Proof.
  induction l as [|s l IH]; [done|]. rewrite bind_cons, keys_app, keys_svc, IH, fmap_cons, group_cons.
  rewrite bind_cons, fmap_app, group_app, <- list_fmap_compose. cbn [compose].
  rewrite <- !app_assoc. apply Permutation_app_head. rewrite !app_assoc. apply Permutation_app_tail. apply Permutation_app_comm.
Qed.

Lemma keys_thread k b p : lacks dot k -> keys (thread_counters k b p) = (fun f => ["thread"; k; f]) <$> thread_fields.
Proof.
  intros Hk. unfold thread_counters. cbn [keys fmap list_fmap fst thread_fields Logger.cat foldr].
  rewrite !append_nil_r, !append_cons. f_equal; [|f_equal]; by apply (comps3 "thread" k).
Qed.

Definition worker_name (i : nat) : string := String.append "worker" (num (Z.of_nat i)).

Lemma worker_name_eq i : cat ["worker"; num (Z.of_nat i)] = worker_name i.
Proof. unfold worker_name. cbn [Logger.cat foldr]. by rewrite append_nil_r. Qed.

Lemma worker_name_dot i : lacks dot (worker_name i).
Proof. apply lacks_append. split; [done|apply num_dot]. Qed.

Lemma keys_workers v ls : mapM id (imap (worker_counters v) (v_workers v)) = Some ls ->
  keys (mjoin ls) = group "thread" (worker_name <$> seq 0 (List.length (v_workers v))) thread_fields.
Proof.
  intros H%mapM_Some. assert (E : keys <$> ls = (fun i => (fun f => ["thread"; worker_name i; f]) <$> thread_fields) <$> seq 0 (List.length (v_workers v))).
  { apply list_eq. intros i. rewrite !list_lookup_fmap.
    destruct (ls !! i) as [l|] eqn:El; cbn.
    - destruct (Forall2_lookup_r _ _ _ _ _ H El) as (o & Ho & Hi). rewrite list_lookup_imap in Ho.
      apply fmap_Some in Ho as (w & Hw & ->). unfold id, worker_counters in Hi. apply bind_Some in Hi as (b & _ & Hi).
      rewrite worker_name_eq in Hi. apply (f_equal (fmap keys)) in Hi. cbn [fmap option_fmap option_map] in Hi.
      rewrite keys_thread in Hi by apply worker_name_dot. injection Hi as <-.
      pose proof (lookup_lt_Some _ _ _ Hw). by rewrite lookup_seq_lt.
    - apply lookup_ge_None in El. rewrite <- (Forall2_length _ _ _ H), length_imap in El.
      rewrite lookup_seq_ge; [done|lia]. }
  transitivity (mjoin (keys <$> ls)).
  - clear H E. induction ls as [|l ls IH]; [done|].
    change (keys (l ++ mjoin ls)%list = (keys l ++ mjoin (keys <$> ls))%list). by rewrite keys_app, IH.
  - rewrite E. unfold group. clear H E. induction (seq 0 _) as [|i l IH]; [done|].
    rewrite !fmap_cons, bind_cons, <- IH. done.
Qed.

(** ** All keys *)

Definition base_keys : list (list string) := keys (base_counters 0 0 (mkView NAT false false 0 0 0 [] None None 0 NicStats0 Manager0)).
Definition stat_keys : list (list string) := (fun i => ["stat"; stat_name i]) <$> all_stats.

Lemma fixed_keys : NoDup (base_keys ++ stat_keys ++ [["tsc_hz"]])%list /\
  Forall (fun k => head k <> Some "thread" /\ head k <> Some "svc" /\ head k <> Some "rs") (base_keys ++ stat_keys ++ [["tsc_hz"]])%list.
Proof.
  split; [apply (bool_decide_eq_true_1 _); vm_compute; reflexivity|].
  apply (bool_decide_eq_true_1 _). vm_compute. reflexivity.
Qed.

Lemma keys_base ts up v : keys (base_counters ts up v) = base_keys.
Proof. reflexivity. Qed.

Lemma keys_stats (t : Stat -> Z) : keys ((fun i => (cat ["stat."; stat_name i], num (t i))) <$> all_stats) = stat_keys.
Proof. unfold keys. rewrite <- list_fmap_compose. unfold all_stats, drop_range, stat_keys. reflexivity. Qed.

Definition thread_names (v : View) : list string :=
  ((match v_receiver v with Some _ => ["receiver"] | None => [] end) ++ (worker_name <$> seq 0 (List.length (v_workers v))))%list.

Lemma counters_keys ts now v l : counters ts now v = Some l ->
  keys l ≡ₚ ((base_keys ++ stat_keys ++ [["tsc_hz"]]) ++ group "thread" (thread_names v) thread_fields ++
    group "svc" ((fun s => num (si_idx s)) <$> services_list (v_mgr v)) svc_fields ++
    group "rs" (num <$> (s ← services_list (v_mgr v); ri_id <$> si_rs s)) server_fields)%list.
Proof.
  unfold counters. intros (up & _ & (rx & Hrx & (ws & Hws & Hl)%bind_Some)%bind_Some)%bind_Some.
  apply (inj Some) in Hl as <-. rewrite !keys_app, keys_base, keys_stats. rewrite <- !app_assoc. do 2 apply Permutation_app_head.
  change (keys (("tsc_hz", num (v_tsc_hz v)) :: rx ++ _)) with (["tsc_hz"] :: keys (rx ++ mjoin ws ++ (s ← services_list (v_mgr v); svc_counters v s))%list).
  cbn [app]. apply Permutation_cons; [done|]. rewrite !keys_app, (keys_workers v ws Hws), keys_services.
  unfold thread_names. rewrite group_app, <- app_assoc.
  apply Permutation_app; [|done]. destruct (v_receiver v) as [r|]; [|by injection Hrx as <-].
  apply bind_Some in Hrx as (b & _ & [= <-]). by rewrite keys_thread.
Qed.

Lemma services_idx (m : SnapshotManager) : len (services_ m) <= kMaxServices ->
  (fun s => num (si_idx s)) <$> services_list m = (fun i => num (Z.of_nat i)) <$> seq 0 (List.length (services_ m)).
Proof.
  intros Hn. unfold services_list. apply list_eq. intros i. rewrite !list_lookup_fmap, list_lookup_imap.
  destruct (services_ m !! i) as [ds|] eqn:E; cbn.
  - pose proof (lookup_lt_Some _ _ _ E). rewrite lookup_seq_lt by done. cbn. rewrite u16_id; [done|].
    unfold len, kMaxServices, is_u16 in *. lia.
  - apply lookup_ge_None in E. by rewrite lookup_seq_ge.
Qed.

Lemma services_ids (m : SnapshotManager) : (s ← services_list m; ri_id <$> si_rs s) = ids (services_ m).
Proof.
  unfold services_list, ids, all_rs.
  assert (H : forall l k, (s ← imap (fun i => service_info (k + i)) l; ri_id <$> si_rs s) = d_id <$> (l ≫= ds_rs)).
  { induction l as [|ds l IH]; intros k; [done|]. rewrite imap_cons, !bind_cons, fmap_app. f_equal.
    - cbn [service_info si_rs]. rewrite <- list_fmap_compose. done.
    - rewrite <- (IH (S k)). f_equal. apply imap_ext. intros i x _. cbn. f_equal. lia. }
  by rewrite <- (H (services_ m) 0%nat).
Qed.

Lemma num_NoDup l : NoDup l -> Forall is_u64 l -> NoDup (num <$> l).
Proof.
  intros Hn Hl. induction Hn as [|x l Hx Hn IH]; [constructor|]. apply Forall_cons in Hl as [Hx' Hl]. rewrite fmap_cons. constructor; [|by apply IH].
  intros (y & E & Hy)%list_elem_of_fmap. rewrite Forall_forall in Hl. apply num_inj in E; [|done|by apply Hl]. by subst y.
Qed.

Lemma thread_names_NoDup v : len (v_workers v) < 4294967296 -> NoDup (thread_names v).
Proof.
  intros Hn. unfold thread_names, len in *.
  assert (W : NoDup (worker_name <$> seq 0 (List.length (v_workers v)))).
  { apply (NoDup_fmap_2_strong worker_name); [|apply NoDup_seq]. intros i j Hi Hj E. apply elem_of_seq in Hi, Hj.
    apply append_inv_head, num_inj in E; unfold is_u64; lia. }
  destruct (v_receiver v); [|done]. constructor; [|done]. intros (i & E & _)%list_elem_of_fmap. done.
Qed.

(** No key occurs twice. *)
Lemma counters_NoDup ts now v l : mgr_ok (v_mgr v) -> len (v_workers v) < 4294967296 -> counters ts now v = Some l -> NoDup l.*1.
Proof.
  intros M Hw Hl. apply (NoDup_fmap_1 comps). rewrite <- list_fmap_compose. change (NoDup (keys l)).
  rewrite (counters_keys _ _ _ _ Hl), services_ids, services_idx by apply M. destruct fixed_keys as [F1 F2].
  assert (T : NoDup (num <$> ids (services_ (v_mgr v)))).
  { apply num_NoDup; [apply M|]. eapply Forall_impl; [apply M|]. intros id H. cbn in H. pose proof (mk_next _ M).
    unfold kMaxRsId, kMaxRsCounters, is_u64 in *. lia. }
  assert (S : NoDup ((fun i => num (Z.of_nat i)) <$> seq 0 (List.length (services_ (v_mgr v))))).
  { apply (NoDup_fmap_2_strong (fun i => num (Z.of_nat i))); [|apply NoDup_seq]. intros i j Hi Hj E. apply elem_of_seq in Hi, Hj.
    pose proof (mk_svcs _ M) as Hm. unfold len, kMaxServices in Hm. apply num_inj in E; unfold is_u64; lia. }
  assert (NoDup svc_fields /\ NoDup server_fields /\ NoDup thread_fields) as (D1 & D2 & D3).
  { repeat split; apply (bool_decide_eq_true_1 _); vm_compute; reflexivity. }
  apply NoDup_app. split; [exact F1|]. split.
  { intros x Hx Hg. rewrite Forall_forall in F2. destruct (F2 x Hx) as (A & B & C).
    rewrite !elem_of_app in Hg. destruct Hg as [Hg|[Hg|Hg]]; destruct (group_tag _ _ _ _ Hg); auto. }
  apply NoDup_app. split; [apply group_NoDup; [by apply thread_names_NoDup|done]|]. split.
  { intros x [Hx _]%group_tag Hg. rewrite elem_of_app in Hg. destruct Hg as [[]%group_tag|[]%group_tag]; congruence. }
  apply NoDup_app. split; [by apply group_NoDup|]. split; [|by apply group_NoDup].
  intros x [Hx _]%group_tag [Hg _]%group_tag. congruence.
Qed.

(** ** Entries *)

Context {PL : InetPrintLine P}.

Lemma lacks_num_nl n : lacks Logger.newline (num n).
Proof. by apply num_lacks. Qed.

Lemma lacks_addr a p : lacks Logger.newline (addr a p).
Proof.
  apply lacks_cat. repeat constructor; [|apply lacks_num_nl]. by apply ntop_line.
Qed.

Lemma entry_key k x : lacks " "%char k -> lacks Logger.newline k -> lacks Logger.newline x -> entry_ok (k, x).
Proof. by repeat split. Qed.

Lemma rs_keys_ok k t : lacks " "%char k -> lacks Logger.newline k -> Forall entry_ok (rs_keys k t).
Proof.
  intros H1 H2. repeat constructor; cbn [fst snd]; try apply lacks_num_nl; apply lacks_cat; repeat constructor; done.
Qed.

Lemma tag_lacks c tag n : isdigit c = false -> lacks c tag -> lacks c "." -> lacks c (cat [tag; num n; "."]).
Proof. intros. apply lacks_cat. repeat constructor; [done| |done]. by apply num_lacks. Qed.

Lemma key_lacks c tag n f : isdigit c = false -> lacks c tag -> lacks c "." -> lacks c f -> lacks c (cat [cat [tag; num n; "."]; f]).
Proof. intros. apply lacks_cat. repeat constructor; [by apply tag_lacks|done]. Qed.

Lemma rs_counters_ok v s r : Forall entry_ok (rs_counters v s r).
Proof.
  unfold rs_counters. constructor; [|constructor]; [apply entry_key; [by apply key_lacks..|]|apply entry_key; [by apply key_lacks..|]|].
  - apply lacks_num_nl.
  - apply lacks_addr.
  - by apply rs_keys_ok; apply tag_lacks.
Qed.

Lemma svc_counters_ok v s : lacks Logger.newline (si_name s) -> Forall entry_ok (svc_counters v s).
Proof.
  intros Hn. unfold svc_counters. apply Forall_app. split.
  - constructor; [|constructor]; [apply entry_key; [by apply key_lacks..|done]|apply entry_key; [by apply key_lacks..|]|by apply rs_keys_ok; apply tag_lacks].
    apply lacks_cat. repeat constructor; [apply lacks_addr|]. unfold proto_name. by destruct (_ =? _).
  - apply Forall_bind, Forall_forall. intros r _. apply rs_counters_ok.
Qed.

Lemma thread_counters_ok k b p : lacks " "%char k -> lacks Logger.newline k -> Forall entry_ok (thread_counters k b p).
Proof.
  intros H1 H2. repeat constructor; cbn [fst snd]; try apply lacks_num_nl; apply lacks_cat; repeat constructor; done.
Qed.

Lemma base_counters_ok ts up v : Forall entry_ok (base_counters ts up v).
Proof.
  repeat constructor; cbn [fst snd]; try apply lacks_num_nl; try reflexivity; [by destruct (v_mode v)|by destruct (v_pipeline v)].
Qed.

(** Names of services are on one line. *)
Definition names_ok (m : SnapshotManager) : Prop := Forall (fun ds => lacks Logger.newline (sc_name (ds_conf ds))) (services_ m).

Lemma counters_entries ts now v l : names_ok (v_mgr v) -> counters ts now v = Some l -> Forall entry_ok l.
Proof.
  intros Hn. unfold counters. intros (up & _ & (rx & Hrx & (ws & Hws & Hl)%bind_Some)%bind_Some)%bind_Some.
  apply (inj Some) in Hl as <-. rewrite !Forall_app, Forall_cons, !Forall_app. split; [apply base_counters_ok|]. split.
  { apply Forall_fmap, Forall_forall. intros i _. split; [|split; [|apply lacks_num_nl]]; by destruct i. }
  split; [split; [done|split; [done|apply lacks_num_nl]]|]. split; [|split].
  - destruct (v_receiver v); [|by injection Hrx as <-]. apply bind_Some in Hrx as (b & _ & Hb). apply (inj Some) in Hb as <-.
    by apply thread_counters_ok.
  - apply Forall_join. apply mapM_Some in Hws. apply Forall_lookup. intros i x Hx.
    destruct (Forall2_lookup_r _ _ _ _ _ Hws Hx) as (o & Ho & Hi). rewrite list_lookup_imap in Ho.
    apply fmap_Some in Ho as (w & Hw & ->). unfold id, worker_counters in Hi. apply bind_Some in Hi as (b & _ & Hi).
    apply (inj Some) in Hi as <-. rewrite worker_name_eq. apply thread_counters_ok; apply lacks_append; (split; [done|by apply num_lacks]).
  - apply Forall_bind. unfold services_list. apply Forall_lookup. intros i s Hs. rewrite list_lookup_imap in Hs.
    apply fmap_Some in Hs as (ds & Hds & ->). apply svc_counters_ok. by apply (Forall_lookup_1 _ _ _ _ Hn Hds).
Qed.

(** The report can be made: the clock and busy times fit. *)
Definition times_ok (now : Z) (v : View) : Prop :=
  0 < v_tsc_hz v < 18446744073709551616 /\ minus now (v_start_tsc v) <= v_tsc_hz v * 2 ^ 28 /\
  Forall (fun s => is_u64 (busy_tsc s) /\ busy_tsc s <= v_tsc_hz v * 2 ^ 28)
    ((match v_receiver v with Some r => [r] | None => [] end) ++ (wv_stats <$> v_workers v))%list.

Lemma counters_defined ts now v : times_ok now v -> is_Some (counters ts now v).
Proof.
  intros (Hz & Hu & [Hr Hw]%Forall_app). unfold counters.
  destruct (cycles_ns_defined (minus now (v_start_tsc v)) (v_tsc_hz v)) as (up & -> & _); [apply u64_is|done|done|].
  assert (B : forall s, is_u64 (busy_tsc s) /\ busy_tsc s <= v_tsc_hz v * 2 ^ 28 -> is_Some (busy_ns v s)).
  { intros s [H1 H2]. destruct (cycles_ns_defined (busy_tsc s) (v_tsc_hz v) H1 Hz H2) as (n & Hn & _). by exists n. }
  cbn [mbind option_bind].
  assert (exists rx, (match v_receiver v with Some r => b ← busy_ns v r; Some (thread_counters "receiver" b (c r ST_RX)) | None => Some [] end) = Some rx) as [rx ->].
  { destruct (v_receiver v) as [r|]; [|eauto]. destruct (B r) as [b ->]; [by inversion Hr|]. cbn. eauto. }
  cbn [mbind option_bind]. destruct (mapM id (imap (worker_counters v) (v_workers v))) as [ws|] eqn:E; [cbn; eauto|].
  exfalso. apply eq_None_not_Some in E. apply E, mapM_is_Some, Forall_lookup. intros i o Ho. rewrite list_lookup_imap in Ho.
  apply fmap_Some in Ho as (w & Hi & ->). apply Forall_fmap in Hw. unfold id, worker_counters.
  destruct (B (wv_stats w)) as [b ->]; [exact (Forall_lookup_1 _ _ _ _ Hw Hi)|]. cbn. eauto.
Qed.

(** ** Sums *)

Definition rs_projections : list (RsCounters -> Z) := [conns; rc_pkts_in; rc_bytes_in; rc_pkts_out; rc_bytes_out].

Lemma projection_cases f : f ∈ rs_projections -> f = conns \/ f = rc_pkts_in \/ f = rc_bytes_in \/ f = rc_pkts_out \/ f = rc_bytes_out.
Proof. unfold rs_projections. rewrite !elem_of_cons, elem_of_nil. tauto. Qed.

Lemma rs_add_field f a b : f ∈ rs_projections -> f (rs_add a b) = u64 (f a + f b).
Proof. intros Hf. by destruct (projection_cases f Hf) as [->|[->|[->|[->| ->]]]]. Qed.

Lemma rs_zero_field f : f ∈ rs_projections -> f RsCounters0 = 0.
Proof. intros Hf. by destruct (projection_cases f Hf) as [->|[->|[->|[->| ->]]]]. Qed.

Lemma u64_add_l a b : u64 (u64 a + b) = u64 (a + b).
Proof. apply Zplus_mod_idemp_l. Qed.
Lemma u64_add_r a b : u64 (a + u64 b) = u64 (a + b).
Proof. apply Zplus_mod_idemp_r. Qed.

Lemma rs_fold f {A} (g : A -> RsCounters) l a : f ∈ rs_projections ->
  u64 (f (foldl (fun t x => rs_add t (g x)) a l)) = u64 (f a + zsum ((fun x => f (g x)) <$> l)).
Proof.
  intros Hf. revert a. induction l as [|x l IH]; intros a; cbn [foldl fmap list_fmap zsum foldr]; [by rewrite Z.add_0_r|].
  rewrite IH, rs_add_field, u64_add_l by done. f_equal. unfold zsum. lia.
Qed.

Lemma rs_of_field f v id : f ∈ rs_projections -> id < kMaxRsCounters ->
  u64 (f (rs_of v id)) = u64 (zsum ((fun w => f (wv_rs w !!! id)) <$> v_workers v)).
Proof.
  intros Hf Hid. unfold rs_of, rs_total. destruct (Z.geb_spec id kMaxRsCounters); [lia|].
  pose proof (rs_zero_field f Hf) as F0.
  rewrite <- (Z.add_0_l (zsum _)), <- F0, <- (rs_fold f (fun w => wv_rs w !!! id)) by done. f_equal. f_equal. generalize RsCounters0.
  induction (v_workers v) as [|w l IH]; intros a; [done|]. rewrite fmap_cons. cbn [foldl]. rewrite IH. done.
Qed.

(** A service's counters are the sum over its servers and all workers. *)
Lemma svc_sum_field f v s : f ∈ rs_projections -> Forall (fun r => ri_id r < kMaxRsCounters) (si_rs s) ->
  f (svc_sum v s) = u64 (zsum ((fun r => zsum ((fun w => f (wv_rs w !!! ri_id r)) <$> v_workers v)) <$> si_rs s)).
Proof.
  intros Hf Hid. pose proof (rs_zero_field f Hf) as F0.
  unfold svc_sum. transitivity (u64 (f (foldl (fun sum0 r => rs_add sum0 (rs_of v (ri_id r))) RsCounters0 (si_rs s)))).
  - induction (si_rs s) as [|r l _] using rev_ind; [by cbn; rewrite F0|]. rewrite foldl_snoc, rs_add_field by done. symmetry. apply u64_id, u64_is.
  - rewrite rs_fold, F0, Z.add_0_l by done. induction Hid as [|r l Hr Hl IH]; [done|]. cbn [fmap list_fmap zsum foldr].
    rewrite <- u64_add_l, <- u64_add_r. change (u64 (u64 (f (rs_of v (ri_id r))) + u64 (zsum ((fun r => f (rs_of v (ri_id r))) <$> l))) =
      u64 (zsum ((fun w => f (wv_rs w !!! ri_id r)) <$> v_workers v) + zsum ((fun r => zsum ((fun w => f (wv_rs w !!! ri_id r)) <$> v_workers v)) <$> l))).
    rewrite IH, rs_of_field, u64_add_l, u64_add_r by done. done.
Qed.

End Keys.
End ReportThms.

#[export] Instance dotted_line : InetPrintLine dotted_print.
Proof.
  split. intros a k Hk Hd. change (ReportThms.lacks k (DottedPrint.write a)). unfold DottedPrint.write, DottedPrint.dot.
  repeat (apply ReportThms.lacks_append; split; [by apply ReportThms.decimal_lacks|apply ReportThms.lacks_cons; split; [congruence|]]).
  by apply ReportThms.decimal_lacks.
Qed.
