(* ===== verification/ReportNames.v ===== *)
(** ReportNames: the names of services that reports print are on one line, from
    the configuration text through every command of the control thread. *)
From S2P Require Import Prelude Types Mem Text Print Dpdk Scheduler Config Snapshot ManagerThms ManagerProps Neigh NeighProps Context Processor ProcessorInv ConfigText ConfigProps Control ControlProps Stdio Logger Report ReportThms.
From Stdlib Require Import String Ascii.
Import Scheduler Config Snapshot ManagerThms ManagerProps Text Print ConfigText ConfigProps Control ControlProps ReportThms.

Module ReportNames.
Local Open Scope string_scope.
Local Open Scope Z_scope.

Section Chars.
Context (k : ascii).

(** ** String functions do not invent characters *)

Lemma lacks_skip s : lacks k s -> lacks k (skip_space s).
Proof. induction s as [|c s IH]; [done|]. intros [H1 H2]%lacks_cons. cbn. destruct (isspace c); [by apply IH|by apply lacks_cons]. Qed.

Lemma lacks_rtrim s : lacks k s -> lacks k (rtrim s).
Proof.
  induction s as [|c s IH]; [done|]. intros [H1 H2]%lacks_cons. cbn [rtrim]. destruct (_ && _); [done|]. apply lacks_cons. auto.
Qed.

Lemma lacks_trim s : lacks k s -> lacks k (trim s).
Proof. intros H. by apply lacks_rtrim, lacks_skip. Qed.

Lemma lacks_cut c s a b : cut c s = Some (a, b) -> lacks k s -> lacks k a /\ lacks k b.
Proof.
  revert a b. induction s as [|x s IH]; intros a b; [done|]. cbn [cut]. destruct (x =? c)%char.
  - intros [= <- <-] [H1 H2]%lacks_cons. done.
  - destruct (cut c s) as [[a' b']|]; [|done]. intros [= <- <-] [H1 H2]%lacks_cons. destruct (IH _ _ eq_refl H2). split; [by apply lacks_cons|done].
Qed.

Lemma lacks_getlines sep acc s : lacks k acc -> lacks k s -> Forall (lacks k) (getlines sep acc s).
Proof.
  revert acc. induction s as [|c s IH]; intros acc Ha; cbn [getlines]; [destruct (empty acc); by repeat constructor|].
  intros [H1 H2]%lacks_cons. destruct (c =? sep)%char; [constructor; [done|by apply IH]|].
  apply IH; [|done]. apply lacks_append. split; [done|]. by apply lacks_cons.
Qed.

Lemma lacks_split s sep : lacks k s -> Forall (lacks k) (split s sep).
Proof.
  intros H. unfold split. apply Forall_forall. intros x (_ & (y & -> & Hy)%list_elem_of_fmap)%list_elem_of_filter.
  apply lacks_trim. pose proof (lacks_getlines sep EmptyString s eq_refl H) as F. rewrite Forall_forall in F. by apply F.
Qed.

Lemma lacks_substring n m s : lacks k s -> lacks k (String.substring n m s).
Proof.
  revert n m. induction s as [|c s IH]; intros n m; [by destruct n, m|]. intros [H1 H2]%lacks_cons.
  destruct n as [|n]; cbn [String.substring]; [destruct m as [|m]; [done|]; apply lacks_cons; auto|auto].
Qed.

End Chars.

Notation nl := Logger.newline.

(** A line has no newline in it. *)
Lemma getlines_lines acc s : lacks nl acc -> Forall (lacks nl) (getlines nl acc s).
Proof.
  revert acc. induction s as [|c s IH]; intros acc Ha; cbn [getlines]; [destruct (empty acc); by repeat constructor|].
  destruct (Ascii.eqb_spec c nl) as [->|Hc]; [constructor; [done|by apply IH]|].
  apply IH, lacks_append. split; [done|]. by apply lacks_cons.
Qed.

Lemma lacks_lower s : lacks nl s -> lacks nl (to_lower s).
Proof.
  induction s as [|c s IH]; [done|]. intros [H1 H2]%lacks_cons. cbn [to_lower]. apply lacks_cons. split; [|by apply IH].
  unfold tolower. destruct (_ && _) eqn:E; [|done]. bprop. intros Hc. apply (f_equal code) in Hc. rewrite code_chr in Hc by lia.
  change (code nl) with 10 in Hc. lia.
Qed.

(** ** The configuration file *)

Definition section_ok (sec : Section_) : Prop := Forall (fun kv => lacks nl kv.1 /\ lacks nl kv.2) sec.
Definition sections_ok (m : Sections) : Prop := Forall (fun s => lacks nl s.1 /\ section_ok s.2) m.

Lemma map_set_all {K V} cmp (Q : K * V -> Prop) k v m : Q (k, v) -> Forall Q m -> Forall Q (map_set cmp k v m).
Proof.
  intros Hq. induction 1 as [|[k' v'] m H Hm IH]; cbn [map_set]; [by repeat constructor|].
  destruct (cmp k k'); repeat constructor; done.
Qed.

Lemma map_find_all {K V} cmp (Q : K * V -> Prop) k (m : list (K * V)) v : map_find cmp k m = Some v -> Forall Q m -> exists k', Q (k', v).
Proof.
  intros Hf. induction 1 as [|[k' v'] m H Hm IH]; [done|]. cbn [map_find] in Hf. destruct (cmp k k'); [|by apply IH..].
  injection Hf as <-. eauto.
Qed.

Lemma sec_find_ok name m sec : sec_find name m = Some sec -> sections_ok m -> section_ok sec.
Proof. intros Hf Hm. by destruct (map_find_all _ _ _ _ _ Hf Hm) as (k & _ & H). Qed.

Lemma parse_line_ok sections current line st : sections_ok sections -> lacks nl current -> lacks nl line ->
  parse_line (sections, current) line = Some st -> sections_ok st.1 /\ lacks nl st.2.
Proof.
  intros Hs Hc Hl. unfold parse_line. pose proof (lacks_trim nl line Hl) as Ht. destruct (trim line) as [|c rest]; [by intros [= <-]|].
  destruct (_ || _); [by intros [= <-]|]. destruct (c =? "[")%char.
  - intros ([name x] & Hcut & [= <-])%bind_Some. apply lacks_cons in Ht as [_ Ht]. destruct (lacks_cut nl _ _ _ _ Hcut Ht) as [Hn _].
    assert (Hn' : lacks nl (to_lower (trim name))) by (by apply lacks_lower, lacks_trim). cbn [fst snd]. split; [|done].
    destruct (sec_find _ _); [done|]. apply map_set_all; [|done]. split; [done|constructor].
  - intros ([key value] & Hcut & H)%bind_Some. destruct (lacks_cut nl _ _ _ _ Hcut Ht) as [Hk Hv]. destruct (empty current); [done|].
    injection H as <-. cbn [fst snd]. split; [|done]. apply map_set_all; [|done]. split; [done|]. apply map_set_all.
    + split; [by apply lacks_lower, lacks_trim|]. apply lacks_trim. destruct (cut "#"%char value) as [[v x]|] eqn:E; [|done].
      by destruct (lacks_cut nl _ _ _ _ E Hv).
    + cbn. destruct (sec_find current sections) as [sec|] eqn:E; [by eapply sec_find_ok|constructor].
Qed.

Lemma parse_file_ok text m : parse_file text = Some m -> sections_ok m.
Proof.
  unfold parse_file. intros ([m' cur] & H & ->)%fmap_Some. cbn.
  assert (L : forall ls (st st' : Sections * string), Forall (lacks nl) ls -> sections_ok st.1 -> lacks nl st.2 ->
    foldl (fun acc line => st ← acc; parse_line st line) (Some st) ls = Some st' -> sections_ok st'.1).
  { induction ls as [|l ls IH]; intros [s c] st' Hl Hs Hc E; [by injection E as <-|]. apply Forall_cons in Hl as [Hl Hls].
    cbn [foldl mbind option_bind] in E. destruct (parse_line (s, c) l) as [st1|] eqn:E1.
    - destruct (parse_line_ok _ _ _ _ Hs Hc Hl E1). by eapply (IH st1).
    - exfalso. clear -E. induction ls as [|x ls IH]; [done|]. by apply IH. }
  apply (L (getlines nl EmptyString text) ([], EmptyString) (m', cur)); [by apply getlines_lines|constructor|done|exact H].
Qed.

Lemma get_ok m section key d : sections_ok m -> lacks nl d -> lacks nl (get m section key d).
Proof.
  intros Hm Hd. unfold get. destruct (sec_find section m) as [s|] eqn:E; [|done]. apply sec_find_ok in E; [|done].
  destruct (map_find String.compare key s) as [v|] eqn:Ev; [|done]. by destruct (map_find_all _ _ _ _ _ Ev E) as (? & _ & H).
Qed.

Definition svc_names (l : list ServiceConf) : Prop := Forall (fun s => lacks nl (sc_name s)) l.

Section Load.
Context {I : Inet}.

Lemma parse_services_names m secs l : sections_ok secs -> parse_services m secs = Some l -> svc_names l.
Proof.
  intros Hs. revert l. induction Hs as [|[name sec] secs [Hn _] Hs IH]; intros l; cbn [parse_services]; [intros [= <-]; constructor|].
  destruct (is_service name); [|apply IH]. intros (svc & Hv & (l' & Hl & [= <-])%bind_Some)%bind_Some. constructor; [|by apply IH].
  unfold parse_service in Hv. apply bind_Some in Hv as (vip & _ & (port & _ & Hv)%bind_Some). destruct (port =? 0); [done|].
  apply bind_Some in Hv as (proto & _ & (sched & _ & (rs & _ & [= <-])%bind_Some)%bind_Some). cbn [sc_name]. by apply lacks_substring.
Qed.

Lemma legacy_names vip rs ps l : Forall (lacks nl) ps -> legacy_ports vip rs ps = Some l -> svc_names l.
Proof.
  intros Hp. revert l. induction Hp as [|p ps Hp Hps IH]; intros l; cbn [legacy_ports]; [intros [= <-]; constructor|].
  intros (a & Ha & (b & Hb & [= <-])%bind_Some)%bind_Some. apply Forall_app. split; [|by apply IH].
  unfold legacy_port in Ha. apply bind_Some in Ha as (port & _ & Ha). destruct (_ || _); [done|]. injection Ha as <-.
  repeat constructor; cbn [sc_name]; apply lacks_append; by split.
Qed.

Lemma build_names m c o : sections_ok m -> build m = Some (c, o) -> svc_names (c_services c).
Proof.
  intros Hm H. unfold build in H. apply bind_Some in H as (mode & _ & H). destruct (_ && _); [done|].
  apply bind_Some in H as (dpm & _ & (ms & _ & (toa & _ & (st & _ & (sz & _ & (fl & _ & (se & _ & (iv & _ & H)%bind_Some)%bind_Some)%bind_Some)%bind_Some)%bind_Some)%bind_Some)%bind_Some).
  apply bind_Some in H as (t & _ & (mac & _ & (nm & _ & (gw & _ & (hs & _ & (ips & _ & (h & _ & (svcs & Hsv & [= <- _])%bind_Some)%bind_Some)%bind_Some)%bind_Some)%bind_Some)%bind_Some)%bind_Some).
  cbn [c_services]. destruct (existsb _ _); [by eapply parse_services_names|].
  unfold parse_legacy_services in Hsv. apply bind_Some in Hsv as (vip & _ & (count & _ & (rs & _ & Hl)%bind_Some)%bind_Some).
  eapply legacy_names; [|exact Hl]. by apply lacks_split, get_ok.
Qed.

Lemma validate_services_same c c' : validate c = Some c' -> c_services c' = c_services c.
Proof.
  unfold validate. destruct (decide _); [done|]. destruct (_ >? _); [done|]. intros (vips & _ & H)%bind_Some.
  set (c1 := match c_mode c with NAT => _ | DR => _ end) in H.
  assert (E1 : c_services c1 = c_services c) by (unfold c1; by destruct (c_mode c), (c_local_ips c), (c_services c) eqn:?).
  clearbody c1. destruct (_ >? _); [done|]. set (c2 := match c_local_ips c1 with [] => _ | _ :: _ => _ end) in H.
  assert (E2 : c_services c2 = c_services c1) by (unfold c2; destruct (c_local_ips c1); [done|]; by destruct (_ =? _)).
  clearbody c2. do 3 (match type of H with (if ?b then _ else _) = _ => destruct b; [done|] end). injection H as <-. congruence.
Qed.

Lemma load_names text c o : load text = Some (c, o) -> svc_names (c_services c).
Proof.
  unfold load. intros (m & Hm & ([c0 o0] & Hb & (c1 & Hv & [= <- <-])%bind_Some)%bind_Some)%bind_Some.
  rewrite (validate_services_same _ _ Hv). eapply build_names; [|exact Hb]. by eapply parse_file_ok.
Qed.

End Load.

(** ** The dump of the configuration *)

Lemma hex2_line b : is_u8 b -> lacks nl (hex2 b).
Proof.
  intros Hb. unfold is_u8 in Hb. assert (H : forall d, 0 <= d < 16 -> hex_digit d <> nl).
  { intros d Hd E. apply (f_equal code) in E. unfold hex_digit in E. change (code nl) with 10 in E.
    destruct (Z.ltb_spec d 10); rewrite code_chr in E by lia; lia. }
  apply lacks_cons. split; [apply H; zlia|]. apply lacks_cons. split; [apply H; zlia|done].
Qed.

Lemma mac_line mac : NeighProps.mac_wf mac -> lacks nl (mac_to_string mac).
Proof.
  intros [_ H]. unfold mac_to_string. induction H as [|b l Hb Hl IH]; [done|]. cbn [colons].
  destruct l as [|c l]; [by apply hex2_line|]. apply lacks_append. split; [by apply hex2_line|]. by apply lacks_cons.
Qed.

Section Dump.
Context {P : InetPrint} {PL : InetPrintLine P} {I : Inet} {IL : InetLaws I}.

Lemma load_option_lines text c o : load text = Some (c, o) -> lacks nl (o_log_level o) /\ lacks nl (o_log_dir o).
Proof.
  unfold load. intros (m & Hm & ([c0 o0] & Hb & (c1 & _ & [= _ <-])%bind_Some)%bind_Some)%bind_Some.
  apply parse_file_ok in Hm. unfold build in Hb. apply bind_Some in Hb as (mode & _ & H). destruct (_ && _); [done|].
  repeat (apply bind_Some in H as (? & _ & H)). injection H as _ <-. cbn [o_log_level o_log_dir].
  split; [apply lacks_lower|]; by apply get_ok.
Qed.

#[local] Hint Resolve lacks_num_nl lacks_addr : line.
Ltac line := apply lacks_cat; repeat constructor; auto with line; try by apply ntop_line.

Lemma dump_rs_line r : rs_in_range r -> lacks nl (Report.dump_rs r).
Proof. intros (_ & _ & _ & W). unfold Report.dump_rs. line. destruct (mac_is_zero _); [done|by apply mac_line]. Qed.

(** Every message that Config::dump logs of a loaded configuration is one line. *)
Lemma dump_lines text c o : load text = Some (c, o) -> Forall (lacks nl) (Report.dump c o).
Proof.
  intros H. destruct (load_option_lines _ _ _ H) as [Hlv Hd]. pose proof (load_names _ _ _ H) as Hn.
  destruct (load_in_range _ _ _ H) as (_ & R & _). unfold Report.dump. rewrite !Forall_app. split; [|split; [|split; [|split]]].
  - repeat constructor; try line; try (by destruct (c_mode c)); try (by destruct (o_dataplane o)); try (by destruct (c_toa c)).
    + destruct (empty _); line. by destruct (o_log_stderr o).
    + by destruct (c_strip_tcp_timestamp c).
  - apply Forall_fmap, Forall_forall. intros ip _. line.
  - repeat constructor. line. by destruct (hc_enabled _).
  - apply Forall_bind, Forall_forall. intros s Hs. unfold svc_names in Hn. rewrite Forall_forall in Hn.
    pose proof (ir_services _ R) as RS. rewrite Forall_forall in RS. destruct (RS s Hs) as (_ & _ & _ & Hr).
    change (Forall (lacks nl) (Report.dump_service s)). unfold Report.dump_service. apply Forall_cons_2; [line; [unfold Report.proto_name; by destruct (_ =? _)|by destruct (sc_sched s)]|].
    apply Forall_fmap. eapply Forall_impl; [exact Hr|]. intros r. apply dump_rs_line.
  - by repeat constructor.
Qed.

End Dump.

(** ** The control thread *)

Definition confs (m : SnapshotManager) : list ServiceConf := ds_conf <$> services_ m.

Lemma update_confs id f m : (forall d, d_id (f d) = d_id d) -> confs (with_services_ (update_rs id f (services_ m)) m) = confs m.
Proof. intros Hf. apply (same_ids_facts _ _ (update_rs_ids id f (services_ m) Hf)). Qed.

Lemma set_weight_confs m id w m' : set_weight m id w = inr m' -> confs m' = confs m.
Proof. unfold set_weight. destruct (find_rs _ _); [|done]. destruct (_ >? _); [done|]. intros [= <-]. by apply update_confs. Qed.

Lemma set_enabled_confs m id b m' : set_enabled m id b = inr m' -> confs m' = confs m.
Proof. unfold set_enabled. destruct (find_rs _ _); [|done]. intros [= <-]. by apply update_confs. Qed.

Lemma set_health_confs m id b : confs (set_health m id b) = confs m.
Proof. unfold set_health. destruct (find_rs _ _); [|done]. by apply update_confs. Qed.

Lemma del_confs m id m' : del_rs m id = inr m' -> confs m' = confs m.
Proof.
  unfold del_rs. destruct (erase_rs _ _) as [l|] eqn:E; [|done]. intros [= <-]. apply (shrunk_facts _ _ (erase_rs_shrunk _ _ _ E)).
Qed.

Lemma add_confs m i rc id m' : is_u16 i -> add_rs m i rc = inr (id, m') -> confs m' = confs m.
Proof.
  intros Hi. unfold add_rs. destruct (Z.geb_spec i (len (services_ m))) as [|Hl]; [done|].
  destruct (services_ m !! Z.to_nat i) as [ds|] eqn:Hds; [|apply lookup_ge_None in Hds; unfold len, is_u16 in *; lia].
  rewrite (list_lookup_total_correct _ _ _ Hds). destruct (_ >=? _); [done|]. destruct (find_addr _ _ _); [done|].
  destruct (_ >=? _); [done|]. intros [= _ <-]. unfold confs. cbn [services_]. rewrite list_fmap_insert. cbn [ds_conf].
  apply list_insert_id. by rewrite list_lookup_fmap, Hds.
Qed.

Section Run.
Context {I : Inet} `{HF : RteHashFns} (max_lcore : nat).

Lemma publish_confs m m' : publish max_lcore m = Some m' -> confs m' = confs m.
Proof. unfold publish. by intros (snap & _ & [= <-])%bind_Some. Qed.

Lemma finish_confs s r ok r' s' : (forall m, r = inr m -> confs m = confs (ctl_mgr s)) ->
  finish max_lcore s r ok = Some (r', s') -> confs (ctl_mgr s') = confs (ctl_mgr s).
Proof.
  intros H. destruct r as [e|m]; cbn; [by intros [= _ <-]|]. intros (m' & Hp & [= _ <-])%bind_Some. cbn.
  rewrite (publish_confs _ _ Hp). by apply H.
Qed.

Lemma execute_confs line s r s' : execute max_lcore line s = Some (r, s') -> confs (ctl_mgr s') = confs (ctl_mgr s).
Proof.
  unfold execute, bad. destruct (Text.words EmptyString line) as [|cmd args]; [by intros [= _ <-]|].
  destruct (eqs cmd "help"); [by intros [= _ <-]|]. destruct (eqs cmd "stats"); [by intros [= _ <-]|].
  destruct (eqs cmd "counters"); [by intros [= _ <-]|]. destruct (eqs cmd "rate"); [by intros [= _ <-]|].
  destruct (eqs cmd "services"); [by intros [= _ <-]|]. destruct (eqs cmd "weight").
  { destruct args as [|x [|y [|]]]; try by intros [= _ <-]. destruct (Control.parse_u32 x); [|by intros [= _ <-]].
    destruct (Control.parse_u32 y); [|by intros [= _ <-]]. apply finish_confs. intros m. apply set_weight_confs. }
  destruct (_ || _).
  { destruct args as [|x [|]]; try by intros [= _ <-]. destruct (Control.parse_u32 x); [|by intros [= _ <-]].
    apply finish_confs. intros m. apply set_enabled_confs. }
  destruct (eqs cmd "add").
  { destruct args as [|x [|y [|]]]; try by intros [= _ <-]. destruct (Control.parse_u32 x) as [i|]; [|by intros [= _ <-]].
    destruct (parse_rs_spec y) as [rc|]; [|by intros [= _ <-]].
    destruct (add_rs (ctl_mgr s) (u16 i) rc) as [e|[id m]] eqn:E; apply finish_confs; [done|].
    intros m0 [= <-]. eapply add_confs; [apply u16_is|exact E]. }
  destruct (eqs cmd "del").
  { destruct args as [|x [|]]; try by intros [= _ <-]. destruct (Control.parse_u32 x); [|by intros [= _ <-]].
    apply finish_confs. intros m. apply del_confs. }
  destruct (eqs cmd "log"); [destruct args as [|x [|]]; by intros [= _ <-]|]. destruct (eqs cmd "quit"); by intros [= _ <-].
Qed.

Lemma drain_confs evs s s' : drain_health max_lcore evs s = Some s' -> confs (ctl_mgr s') = confs (ctl_mgr s).
Proof.
  unfold drain_health. destruct evs as [|e evs]; [by intros [= <-]|]. intros (m & Hp & [= <-])%bind_Some. cbn.
  rewrite (publish_confs _ _ Hp). generalize (e :: evs) as l, (ctl_mgr s) as m0. clear.
  induction l as [|x l IH]; intros m0; [done|]. cbn [foldl]. by rewrite IH, set_health_confs.
Qed.

Lemma run_confs rounds s rs s' : run max_lcore rounds s = Some (rs, s') -> confs (ctl_mgr s') = confs (ctl_mgr s).
Proof.
  revert s rs. induction rounds as [|[evs l] rounds IH]; intros s rs; cbn [run]; [by intros [= _ <-]|].
  intros (s1 & H1 & ([r s2] & H2 & ([rs' s3] & H3 & [= _ <-])%bind_Some)%bind_Some)%bind_Some.
  rewrite (IH _ _ H3), <- (drain_confs _ _ _ H1). destruct l as [text|]; [|by injection H2 as _ <-].
  apply bind_Some in H2 as ([r' s4] & H2 & [= _ <-]). by eapply execute_confs.
Qed.

(** The names at the start are those of the configuration. *)
Lemma init_names c m : config_ok c -> in_range c -> init max_lcore Manager0 c = Some m -> svc_names (c_services c) -> names_ok m.
Proof.
  intros C R Hi Hn.
  assert (B : len (conf_rs (c_services c)) <= 256 * len (c_services c)) by (apply conf_rs_bound, Forall_forall; intros s Hs; apply C, Hs).
  destruct C as [C1 _ _ _ _ _ _ _]. unfold kMaxServices in C1.
  pose proof (number_services_spec 1 (c_services c) ltac:(lia) ltac:(lia)) as N.
  unfold init in Hi. cbn [next_rs_id_ Manager0 services_ version_ cur_ app] in Hi.
  destruct (number_services 1 (c_services c)) as [svcs next]. destruct N as (_ & _ & F).
  unfold publish in Hi. apply bind_Some in Hi as (snap & _ & [= <-]). unfold names_ok. cbn [services_].
  clear -F Hn. induction F as [|sc ds l l' [Hc _] F IH]; [constructor|]. apply Forall_cons in Hn as [H1 H2].
  constructor; [by rewrite Hc|by apply IH].
Qed.

Lemma names_confs m m' : confs m' = confs m -> names_ok m -> names_ok m'.
Proof. intros E. unfold names_ok. apply (Forall_via ds_conf (fun c => lacks nl (sc_name c)) (services_ m)). exact E. Qed.

End Run.
End ReportNames.
