(* ===== verification/ReportProps.v ===== *)
(** ReportProps: what an operator reads is what the counters say. *)
From S2P Require Import Prelude Types Mem Dpdk Session Steering Scheduler Config Snapshot SnapshotThms ManagerThms ManagerProps Neigh Context Processor ProcessorInv Text Print ConfigText ConfigProps Control ControlProps Double Stdio Logger Report ReportThms ReportNames.
From Stdlib Require Import String Ascii.
Import Scheduler Config Snapshot ManagerThms Context Text Print ConfigText ConfigProps Control ControlProps Double Report ReportThms ReportNames.

Module ReportProps.
Local Open Scope string_scope.
Local Open Scope Z_scope.

#[local] Arguments num : simpl never.

(** ** counters *)

Lemma stat_entry {P : InetPrint} ts now v l i : counters ts now v = Some l -> i ∈ all_stats -> (cat ["stat."; stat_name i], num (total v i)) ∈ l.
Proof.
  unfold counters. intros (up & _ & (rx & _ & (ws & _ & Hl)%bind_Some)%bind_Some)%bind_Some Hi.
  apply (inj Some) in Hl as <-. rewrite !elem_of_app. right. left. apply list_elem_of_fmap. eauto.
Qed.

Lemma svc_entry {P : InetPrint} ts now v l s e : counters ts now v = Some l -> s ∈ services_list (v_mgr v) -> e ∈ svc_counters v s -> e ∈ l.
Proof.
  unfold counters. intros (up & _ & (rx & _ & (ws & _ & Hl)%bind_Some)%bind_Some)%bind_Some Hs He.
  apply (inj Some) in Hl as <-. rewrite !elem_of_app, elem_of_cons, !elem_of_app. right. right. right. right. right.
  apply list_elem_of_bind. eauto.
Qed.

Lemma svc_ids_small m s : mgr_ok m -> next_rs_id_ m <= kMaxRsId -> s ∈ services_list m ->
  Forall (fun r => ri_id r < kMaxRsCounters) (si_rs s).
Proof.
  intros M Hn Hs. apply Forall_forall. intros r Hr. assert (Hi : ri_id r ∈ ids (services_ m)).
  { rewrite <- services_ids. apply list_elem_of_bind. exists s. split; [|done]. by apply list_elem_of_fmap_2. }
  pose proof (mk_range _ M) as R. rewrite Forall_forall in R. pose proof (R _ Hi). unfold kMaxRsId in Hn. lia.
Qed.

Lemma field_entry {P : InetPrint} v s name f : (name, f) ∈ zip rs_fields rs_projections ->
  f ∈ rs_projections /\ (cat [cat ["svc."; num (si_idx s); "."]; name], num (f (svc_sum v s))) ∈ svc_counters v s.
Proof.
  unfold rs_projections, rs_fields, svc_counters, rs_keys. cbn [zip zip_with]. rewrite !elem_of_cons, elem_of_nil.
  intros [[= -> ->]|[[= -> ->]|[[= -> ->]|[[= -> ->]|[[= -> ->]|[]]]]]]; (split; [tauto|]);
    apply elem_of_app; left; rewrite !elem_of_cons; tauto.
Qed.

(** What a reader finds in the text of a report. *)
Definition read_back {P : InetPrint} (ts now : Z) (dev : option NicStats) (v : View) (text : string) : Prop :=
  counters ts now (nic_stats_update dev v) = Some (read_counters text) /\
  NoDup (read_counters text).*1 /\
  (forall i, i ∈ all_stats -> (cat ["stat."; stat_name i], num (total v i)) ∈ read_counters text) /\
  (forall s name f, s ∈ services_list (v_mgr v) -> (name, f) ∈ zip rs_fields rs_projections ->
     (cat [cat ["svc."; num (si_idx s); "."]; name],
      num (u64 (zsum ((fun r => zsum ((fun w => f (wv_rs w !!! ri_id r)) <$> v_workers v)) <$> si_rs s)))) ∈ read_counters text).

Lemma counters_readback {P : InetPrint} {PL : InetPrintLine P} ts now dev v :
  mgr_ok (v_mgr v) -> next_rs_id_ (v_mgr v) <= kMaxRsId -> names_ok (v_mgr v) -> len (v_workers v) < 4294967296 -> times_ok now v ->
  exists text, format_counters ts now dev v = Some (nic_stats_update dev v, text) /\ read_back ts now dev v text.
Proof.
  intros M Hnx Hn Hw Ht. set (v' := nic_stats_update dev v).
  assert (E : v_mgr v' = v_mgr v /\ v_workers v' = v_workers v /\ total v' = total v /\ times_ok now v') by (unfold v'; by destruct dev).
  destruct E as (E1 & E2 & E3 & T'). destruct (counters_defined ts now v' T') as [l Hl].
  exists (cat (line <$> l)). split; [unfold format_counters; fold v'; by rewrite Hl|].
  unfold read_back. rewrite read_lines by (eapply counters_entries; [|exact Hl]; by rewrite E1).
  split; [done|]. split; [eapply counters_NoDup; [| |exact Hl]; [by rewrite E1|by rewrite E2]|]. split.
  - intros i Hi. rewrite <- E3. by eapply stat_entry.
  - intros s name f Hs Hf. eapply svc_entry; [exact Hl|by rewrite E1|].
    destruct (field_entry v' s name f Hf) as [Hp He]. rewrite svc_sum_field, E2 in He; [done|done|]. by eapply svc_ids_small.
Qed.

(** C21. The counters command can be read back.  After any configuration text and any
    commands and health events, within 2^28 seconds of uptime, the report is
    defined, and splitting its text into lines and each line at its first space
    gives back the table of keys and values it was made from, in which no key
    occurs twice; every statistic is in it with the total over all threads, and
    the counters of a service are the sums over its servers and all workers. *)
Theorem counters_readable {P : InetPrint} {PL : InetPrintLine P} {I : Inet} {IL : InetLaws I} `{HF : RteHashFns}
    max_lcore text c o m rounds rs s ts now dev v :
  load text = Some (c, o) -> len (ManagerProps.conf_rs (c_services c)) < kMaxRsCounters -> init max_lcore Manager0 c = Some m ->
  run max_lcore rounds (mkCtl m true None) = Some (rs, s) ->
  v_mgr v = ctl_mgr s -> len (v_workers v) < 4294967296 -> times_ok now v ->
  exists report, format_counters ts now dev v = Some (nic_stats_update dev v, report) /\ read_back ts now dev v report.
Proof.
  intros Hl Hn Hi Hr Hv Hw Ht. destruct (started_served max_lcore text c o m Hl Hn Hi) as [S _].
  destruct (run_served max_lcore rounds (mkCtl m true None) S) as (rs' & s' & Hr' & [D _] & _). rewrite Hr in Hr'. injection Hr' as <- <-.
  apply counters_readback; [rewrite Hv; apply D|rewrite Hv; apply D| |done|done]. rewrite Hv.
  eapply names_confs; [exact (run_confs max_lcore _ _ _ _ Hr)|]. destruct (load_in_range _ _ _ Hl) as (C & R & _).
  eapply init_names; [exact C|exact R|exact Hi|]. by eapply load_names.
Qed.

Definition demo_worker (n : Z) : WorkerView :=
  mkWorkerView n (add ST_RX (10 * n) Stats0) (<[1 := mkRsCounters n 2 3 4 5]> (<[2 := mkRsCounters 1 1 1 1 1]> ∅)) None.
Definition demo_view (m : SnapshotManager) : View :=
  mkView NAT false false 3000000000 0 1 [demo_worker 1; demo_worker 2] None (Some Stats0) 0 NicStats0 m.

Lemma counters_readable_witness : exists c o m rs s report, load (I := dotted_inet) demo_file = Some (c, o) /\
  init (HF := mix_fns) 4 Manager0 c = Some m /\ run (I := dotted_inet) (HF := mix_fns) 4 demo_rounds (mkCtl m true None) = Some (rs, s) /\
  format_counters 0 3000000000 None (demo_view (ctl_mgr s)) = Some (demo_view (ctl_mgr s), report) /\ ("stat.rx", "30") ∈ read_counters report.
Proof.
  destruct (load (I := dotted_inet) demo_file) as [[c o]|] eqn:E; [|vm_compute in E; discriminate].
  assert (N : len (ManagerProps.conf_rs (c_services c)) < kMaxRsCounters) by (vm_compute in E; injection E as <- <-; reflexivity).
  destruct (init (HF := mix_fns) 4 Manager0 c) as [m|] eqn:Hm; [|exfalso; vm_compute in E; injection E as <- <-; vm_compute in Hm; discriminate].
  destruct (started_served (I := dotted_inet) (HF := mix_fns) 4 demo_file c o m E N Hm) as [S _].
  destruct (run_served (I := dotted_inet) (HF := mix_fns) 4 demo_rounds (mkCtl m true None) S) as (rs & s & Hr & _).
  destruct (counters_readable (I := dotted_inet) (HF := mix_fns) 4 demo_file c o m demo_rounds rs s 0 3000000000 None (demo_view (ctl_mgr s)) E N Hm Hr)
    as (report & H1 & _ & _ & H2 & _).
  - reflexivity.
  - reflexivity.
  - split; [cbn; lia|]. split; [vm_compute; congruence|]. repeat constructor; vm_compute; congruence.
  - exists c, o, m, rs, s, report. split; [reflexivity|]. split; [exact Hm|]. split; [exact Hr|]. split; [exact H1|]. apply (H2 ST_RX). left.
Defined.

(** ** The periodic report *)

(** The last element, or [d]. *)
Definition final {A} (d : A) (l : list A) : A := foldl (fun _ x => x) d l.

(** Time, NIC counters and view of one report. *)
Definition Tick : Type := Z * option NicStats * View.
Definition view_of (t : Tick) : View := nic_stats_update t.1.2 t.2.
Definition base_of (t : Tick) : PerfBase := perf_base t.1.1 (view_of t).

Fixpoint run_ticks (l : list Tick) (p : Perf) : list string * Perf :=
  match l with
  | [] => ([], p)
  | t :: l =>
    let '(_, out, p) := perf_report_tick t.1.1 t.1.2 t.2 p in
    let '(outs, p) := run_ticks l p in
    (out :: outs, p)
  end.

(** The differences reported after [t0]. *)
Fixpoint deltas (t0 : Tick) (l : list Tick) : list (Tick * PerfDelta) :=
  match l with
  | [] => []
  | t :: l => (t, perf_delta (base_of t) (base_of t0)) :: deltas t l
  end.

Definition report_of (e : Tick * PerfDelta) : string := perf_text (view_of e.1) e.2 (imissed (v_nic (view_of e.1))).

Definition threads (t : Tick) : nat := List.length (pb_busy (base_of t)).

Lemma base_nic t : pb_nic (base_of t) = v_nic (view_of t).
Proof. unfold base_of, perf_base. by destruct (collect (view_of t)). Qed.

Lemma run_ticks_deltas l t0 last : Forall (fun t => threads t = threads t0) l ->
  run_ticks l (mkPerf (Some (base_of t0)) last) =
    (report_of <$> deltas t0 l, mkPerf (Some (base_of (final t0 l))) (final last (report_of <$> deltas t0 l))).
Proof.
  revert t0 last. induction l as [|t l IH]; intros t0 last Hl; [done|]. apply Forall_cons in Hl as [Ht Hl].
  cbn [run_ticks]. unfold perf_report_tick. cbn [g_perf]. change (nic_stats_update t.1.2 t.2) with (view_of t).
  change (perf_base t.1.1 (view_of t)) with (base_of t). fold (threads t) (threads t0). rewrite (proj2 (Nat.eqb_eq _ _) Ht). cbn [negb].
  rewrite IH by (rewrite Ht; exact Hl). cbn [deltas]. rewrite fmap_cons. unfold report_of at 3. cbn [fst snd]. rewrite base_nic.
  done.
Qed.

Lemma telescope (g : PerfBase -> Z) (h : PerfDelta -> Z) t0 l :
  (forall a b, h (perf_delta a b) = minus (g a) (g b)) ->
  u64 (zsum ((fun e => h e.2) <$> deltas t0 l)) = minus (g (base_of (final t0 l))) (g (base_of t0)).
Proof.
  intros Hh. revert t0. induction l as [|t l IH]; intros t0; [unfold minus; cbn; by rewrite Z.sub_diag|].
  cbn [deltas]. rewrite fmap_cons. cbn [zsum foldr snd]. rewrite Hh. unfold minus.
  rewrite u64_add_l. rewrite <- u64_add_r. specialize (IH t). unfold zsum in IH. rewrite IH. unfold minus. rewrite u64_add_r.
  change (final t0 (t :: l)) with (final t l). f_equal. lia.
Qed.

(** C35. The periodic reports add up: the first one is empty, and as long as the
    number of threads is the same every later one is the text of the differences
    since the one before; over any number of reports the elapsed time and every
    packet, byte and drop counter reported sum up to how much they have grown since
    the first reading, modulo 2^64; the rate command shows the last report. *)
Theorem perf_reports_add_up (t0 : Tick) (l : list Tick) : Forall (fun t => threads t = threads t0) l ->
  let '(outs, p) := run_ticks (t0 :: l) Perf0 in
  let tn := base_of (final t0 l) in
  outs = EmptyString :: (report_of <$> deltas t0 l) /\
  perf_report_last p = final (perf_report_last Perf0) (report_of <$> deltas t0 l) /\
  u64 (zsum ((fun e => pd_el e.2) <$> deltas t0 l)) = minus (pb_tsc tn) (pb_tsc (base_of t0)) /\
  (forall s, u64 (zsum ((fun e => pd_stat e.2 s) <$> deltas t0 l)) = minus (pb_total tn s) (pb_total (base_of t0) s)) /\
  (forall s, u64 (zsum ((fun e => pd_bytes e.2 s) <$> deltas t0 l)) = minus (pb_bytes tn s) (pb_bytes (base_of t0) s)) /\
  u64 (zsum ((fun e => pd_drops e.2) <$> deltas t0 l)) = minus (drops (pb_total tn)) (drops (pb_total (base_of t0))).
Proof.
  intros Hl. cbn [run_ticks]. unfold perf_report_tick at 1. cbn [Perf0 g_perf g_perf_last].
  change (perf_base t0.1.1 (nic_stats_update t0.1.2 t0.2)) with (base_of t0). rewrite run_ticks_deltas by done.
  split; [done|]. split; [done|]. split; [by apply (telescope pb_tsc)|]. split.
  - intros s. by apply (telescope (fun b => pb_total b s) (fun d => pd_stat d s)).
  - split; [intros s; by apply (telescope (fun b => pb_bytes b s) (fun d => pd_bytes d s))|].
    by apply (telescope (fun b => drops (pb_total b)) pd_drops).
Qed.

(** *** What the master logs *)

Definition ends_nl (s : string) : Prop := exists t, s = String.append t Report.nl.

Definition unlines (ls : list string) : string := Logger.cat ((fun l => String.append l Report.nl) <$> ls).

Lemma unlines_cons l ls : unlines (l :: ls) = String.append (String.append l Report.nl) (unlines ls).
Proof. done. Qed.

(** Reading a newline-terminated text line by line and writing the lines back gives the text. *)
Lemma unlines_getlines acc s : ends_nl s -> unlines (getlines Logger.newline acc s) = String.append acc s.
Proof.
  intros [t ->]. revert acc. induction t as [|x t IH]; intros acc.
  - change (unlines [acc] = String.append acc Report.nl). rewrite unlines_cons. apply append_nil_r.
  - rewrite append_cons. cbn [getlines]. destruct (Ascii.eqb_spec x Logger.newline) as [->|Hx].
    + rewrite unlines_cons, IH, append_nil, <- append_assoc. done.
    + rewrite IH, <- append_assoc. done.
Qed.

Lemma ends_nl_append t s : ends_nl s -> ends_nl (String.append t s).
Proof. intros [u ->]. exists (String.append t u). apply append_assoc. Qed.

Lemma ends_nl_cons x l : ends_nl (Logger.cat l) -> ends_nl (Logger.cat (x :: l)).
Proof. apply ends_nl_append. Qed.

Lemma ends_nl_last : ends_nl (Logger.cat [Report.nl]).
Proof. by exists EmptyString. Qed.

Lemma ends_nl_last_empty : ends_nl (Logger.cat [Report.nl; EmptyString]).
Proof. by exists EmptyString. Qed.

Lemma format_stats_ends v : ends_nl (format_stats false v).
Proof. unfold format_stats. repeat first [exact ends_nl_last_empty | apply ends_nl_cons]. Qed.

Lemma perf_text_ends v d m : ends_nl (perf_text v d m).
Proof. unfold perf_text. repeat first [exact ends_nl_last | apply ends_nl_cons]. Qed.

Lemma perf_report_tick_ends now dev v p : let out := (perf_report_tick now dev v p).1.2 in out = EmptyString \/ ends_nl out.
Proof.
  unfold perf_report_tick. destruct (g_perf p) as [prev|]; [|by left].
  destruct negb; [by left|right; apply perf_text_ends].
Qed.

(** The messages of a due report, one per line of the counters and of the
    period's rates, are those texts exactly; the first period logs nothing; a
    report that is not due changes nothing. *)
Lemma master_report_exact now_ms interval stats_ms tsc dev v p :
  let r := master_report now_ms interval stats_ms tsc dev v p in
  let t := perf_report_tick tsc dev v p in
  if u64 (now_ms - stats_ms) >=? u64 (interval * 1000) then
    unlines r.1.1.1 = (if stats_ms =? 0 then EmptyString else String.append (format_stats false t.1.1) t.1.2) /\
    r.1.1.2 <> 0 /\ (r.1.2, r.2) = (t.1.1, t.2)
  else r = ([], stats_ms, v, p).
Proof.
  pose proof (perf_report_tick_ends tsc dev v p) as He.
  unfold master_report. destruct (_ >=? _); [|done].
  destruct (perf_report_tick tsc dev v p) as [[v' perf] p'] eqn:E. cbn [fst snd] in *.
  split; [|split; [destruct (Z.eqb_spec now_ms 0); [discriminate|done]|done]].
  destruct (stats_ms =? 0); [done|]. rewrite unlines_getlines; [done|].
  destruct He as [->|He]; [rewrite append_nil_r; apply format_stats_ends|by apply ends_nl_append].
Qed.

Definition demo_tick (now n : Z) : Tick :=
  (now, None, mkView NAT false false 1000 0 1 [demo_worker n] None None 0 NicStats0 Manager0).

Lemma perf_reports_add_up_witness :
  let l := [demo_tick 2000 150; demo_tick 3000 400] in
  zsum ((fun e => pd_stat e.2 ST_RX) <$> deltas (demo_tick 1000 100) l) = 3000 /\
  u64 (zsum ((fun e => pd_stat e.2 ST_RX) <$> deltas (demo_tick 1000 100) l)) = minus 4000 1000.
Proof.
  split; [vm_compute; reflexivity|].
  destruct (perf_reports_add_up (demo_tick 1000 100) [demo_tick 2000 150; demo_tick 3000 400]) as (_ & _ & _ & H & _).
  - repeat constructor.
  - exact (H ST_RX).
Defined.

End ReportProps.
