(* ===== verification/ControlIo.v ===== *)
(** ControlIo: the control socket of src/ctrl/control.cpp: replies as text, one
    connection, and opening and closing the socket.

    What the client sends arrives in pieces of any size; a write takes any part
    of the rest.  The system calls of start and stop are answered by a parameter
    ([Sock]): a function of the calls so far. *)
From S2P Require Import Prelude Types Mem Text Print Dpdk Scheduler Config Snapshot Context Double Stdio Logger Report Control.
From Stdlib Require Import String Ascii.
Import Scheduler Config Text Print Snapshot Control.

Module ControlIo.
Local Open Scope string_scope.
Local Open Scope Z_scope.

Notation cat := Logger.cat.
Notation nl := Report.nl.
Notation num := Report.num.

(** ** Replies *)

Definition kHelp : string :=
  cat ["commands:"; nl;
       "  stats [-v|-r]                  summary; -v per worker; -r per service/RS"; nl;
       "  counters                       all raw counters (key value), for delta"; nl;
       "  rate                           last periodic rates and busy %"; nl;
       "  services                       services and real servers"; nl;
       "  weight <rs_id> <weight>        0 = drain (no new connections)"; nl;
       "  enable <rs_id> | disable <rs_id>"; nl;
       "  add <service_idx> <ip:port[:weight]>"; nl;
       "  del <rs_id>"; nl;
       "  log <debug|info|warn|error>"; nl;
       "  quit                           stop l4lb"; nl].

Definition error_text (e : mgr_error) : string :=
  match e with
  | NoSuchRs id => cat ["no such rs "; num id]
  | WeightRange => "weight must be 0-65535"
  | NoSuchService i => cat ["no such service "; num i]
  | TooManyRs => "too many real servers in service"
  | RsExists id => cat ["rs already exists (id "; num id; ")"]
  | IdSpaceExhausted => "rs id space exhausted"
  end.

(** What the reports read when the command comes. *)
Record Now := mkNow {
  n_time : Z;
  n_tsc : Z;
  n_dev : option Report.NicStats;
  n_view : Report.View;
  n_perf : Report.Perf;
}.

Section Texts.
Context {P : InetPrint}.

Definition report_text (x : Now) (mgr : SnapshotManager) (r : Control.Report) : option string :=
  let v := n_view x in
  match r with
  | RsStats => Some (Report.format_rs_stats v)
  | Stats verbose => Some (Report.format_stats verbose v)
  | Counters => snd <$> Report.format_counters (n_time x) (n_tsc x) (n_dev x) v
  | Rate => Some (Report.perf_report_last (n_perf x))
  | Services => Some (Report.describe mgr)
  end.

Definition reply_text (x : Now) (mgr : SnapshotManager) (r : Reply) : option string :=
  match r with
  | Help => Some kHelp
  | Text_ r => report_text x mgr r
  | BadSpec => Some (cat ["error: expected ip:port[:weight]"; nl])
  | OkRs id => Some (cat ["ok rs "; num id; nl])
  | Ok => Some (cat ["ok"; nl])
  | ShuttingDown => Some (cat ["ok, shutting down"; nl])
  | BadCommand => Some (cat ["error: bad command"; nl; kHelp])
  | Error_ e => Some (cat ["error: "; error_text e; nl])
  end.

(** ** One connection *)

Definition has_nl (s : string) : bool := match cut Logger.newline s with Some _ => true | None => false end.

(** [pieces] is what successive reads deliver; they end at a timeout, an error
    or the end of the stream (an empty read). *)
Fixpoint read_command (pieces : list string) (line : string) : string :=
  if has_nl line || (1024 <=? String.length line)%nat then line
  else match pieces with
       | [] => line
       | p :: pieces => if empty p then line else read_command pieces (String.append line p)
       end.

(** line.substr(0, line.find('\n')) *)
Definition first_line (s : string) : string := match cut Logger.newline s with Some (l, _) => l | None => s end.

(** [ns]: what successive writes return; the result is what was taken. *)
Fixpoint write_reply (reply : string) (off : nat) (ns : list Z) : string :=
  if (String.length reply <=? off)%nat then String.substring 0 off reply
  else match ns with
       | [] => String.substring 0 off reply
       | n :: ns => if n <=? 0 then String.substring 0 off reply else write_reply reply (off + Z.to_nat n) ns
       end.

Context {I : Inet} `{HF : RteHashFns} (max_lcore : nat).

(** What the client gets, and the new state. *)
Definition serve (x : Now) (pieces : list string) (ns : list Z) (s : Ctl) : option (string * Ctl) :=
  '(r, s) ← execute max_lcore (first_line (read_command pieces EmptyString)) s;
  text ← reply_text x (ctl_mgr s) r;
  Some (write_reply text 0 ns, s).

End Texts.

(** ** The socket *)

Inductive SockCall :=
| Socket
| Unlink (p : string)
| Umask (m : Z)
| Bind (fd : Z) (p : string)
| Listen (fd backlog : Z)
| Close (fd : Z)
| ThreadCreate
| ThreadJoin.

Class Sock := { sock_ret : list SockCall -> Z }.

Record ControlServer := mkServer {
  path_ : string;
  listen_fd_ : Z;
  started_ : bool;
  stop_ : bool;
  calls : list SockCall;   (** newest first *)
}.

Definition Server0 : ControlServer := mkServer EmptyString (-1) false false [].

(** sizeof(sockaddr_un::sun_path) *)
Definition sun_path_size : nat := 108.

Section Socket.
Context {K : Sock}.

Definition set_path (v : string) (s : ControlServer) : ControlServer := mkServer v (listen_fd_ s) (started_ s) (stop_ s) (calls s).
Definition set_fd (v : Z) (s : ControlServer) : ControlServer := mkServer (path_ s) v (started_ s) (stop_ s) (calls s).
Definition set_started (v : bool) (s : ControlServer) : ControlServer := mkServer (path_ s) (listen_fd_ s) v (stop_ s) (calls s).
Definition set_stop (v : bool) (s : ControlServer) : ControlServer := mkServer (path_ s) (listen_fd_ s) (started_ s) v (calls s).

Definition sys (c : SockCall) : ST ControlServer Z := fun s =>
  Some (sock_ret (c :: calls s), mkServer (path_ s) (listen_fd_ s) (started_ s) (stop_ s) (c :: calls s)).

(** close(listen_fd_); listen_fd_ = -1 *)
Definition drop_fd : ST ControlServer unit :=
  s ← gets id; sys (Close (listen_fd_ s)) ;; modify (set_fd (-1)).

Definition start (path : string) : ST ControlServer bool :=
  modify (set_path path) ;;
  if (sun_path_size <=? String.length path)%nat then mret false
  else
    fd ← sys Socket;
    modify (set_fd fd) ;;
    if fd <? 0 then mret false
    else
      sys (Unlink path) ;;
      old ← sys (Umask 127);
      ret ← sys (Bind fd path);
      sys (Umask old) ;;
      failed ← (if ret <? 0 then mret true else r ← sys (Listen fd 8); mret (r <? 0));
      if (failed : bool) then drop_fd ;; mret false
      else
        t ← sys ThreadCreate;
        if negb (t =? 0) then drop_fd ;; mret false
        else modify (set_started true) ;; mret true.

Definition stop : ST ControlServer unit :=
  modify (set_stop true) ;;
  s ← gets id;
  when (started_ s) (sys ThreadJoin ;; mret tt) ;;
  modify (set_started false) ;;
  when (listen_fd_ s >=? 0) (
    sys (Close (listen_fd_ s)) ;;
    sys (Unlink (path_ s)) ;;
    modify (set_fd (-1))).

End Socket.
End ControlIo.
