(* ===== verification/ControlIoProps.v ===== *)
(** ControlIoProps: a client of the control socket gets the answer to its command
    whatever the sizes of reads and writes, and the socket is given back. *)
From S2P Require Import Prelude Types Mem Text Print Dpdk Scheduler Config Snapshot SnapshotThms ManagerThms ManagerProps Context Processor ProcessorInv Double ConfigText ConfigProps Stdio Logger Report ReportThms Control ControlProps ControlIo.
From Stdlib Require Import String Ascii.
Import Scheduler Config Text Print Snapshot ManagerThms ConfigText ConfigProps Control ControlProps ReportThms ControlIo.

Module ControlIoProps.
Local Open Scope string_scope.
Local Open Scope Z_scope.

(** ** Reading and writing *)

Lemma cut_of_append k s t : cut k (String.append s t) =
  match cut k s with Some (a, b) => Some (a, String.append b t) | None => '(a, b) ← cut k t; Some (String.append s a, b) end.
Proof.
  induction s as [|x s IH]; [cbn; rewrite append_nil; by destruct (cut k t) as [[a b]|]|].
  rewrite append_cons. cbn [cut]. destruct (x =? k)%char; [done|]. rewrite IH.
  destruct (cut k s) as [[a b]|]; [done|]. cbn. by destruct (cut k t) as [[a b]|].
Qed.

(** The command is the first line, however it was cut into pieces. *)
Lemma read_command_line pieces l cmd rest : Forall (fun p => p <> EmptyString) pieces ->
  cut Logger.newline (String.append l (cat pieces)) = Some (cmd, rest) -> (String.length cmd < 1024)%nat ->
  first_line (read_command pieces l) = cmd.
Proof.
  intros Hp Hc Hlen. revert l Hc. induction Hp as [|p pieces Hp0 Hp IH]; intros l Hc; cbn [read_command];
    unfold has_nl; pose proof Hc as Hc'; rewrite cut_of_append in Hc'.
  - destruct (cut Logger.newline l) as [[a b]|] eqn:E; [|done]. cbn. unfold first_line. rewrite E. by injection Hc' as ->.
  - destruct (cut Logger.newline l) as [[a b]|] eqn:E; cbn [orb]; [unfold first_line; rewrite E; by injection Hc' as ->|].
    destruct (Nat.leb_spec 1024 (String.length l)) as [Hl|Hl].
    + apply bind_Some in Hc' as ([a b] & _ & [= <- _]). rewrite length_append in Hlen. lia.
    + destruct p as [|y p]; [done|]. cbn [empty]. apply IH. rewrite <- append_assoc. exact Hc.
Qed.

Lemma substring_prefix k s : exists r, s = String.append (String.substring 0 k s) r.
Proof.
  revert k. induction s as [|x s IH]; intros k; [by exists EmptyString; destruct k|].
  destruct k as [|k]; [by exists (String x s)|]. destruct (IH k) as [r Hr]. exists r. cbn [String.substring]. by rewrite append_cons, <- Hr.
Qed.

Lemma substring_whole k s : (String.length s <= k)%nat -> String.substring 0 k s = s.
Proof.
  revert k. induction s as [|x s IH]; intros k H; [by destruct k|]. destruct k as [|k]; [cbn in H; lia|].
  cbn [String.substring]. rewrite IH; [done|cbn in H; lia].
Qed.

Lemma write_reply_prefix reply off ns : exists r, reply = String.append (write_reply reply off ns) r.
Proof.
  revert off. induction ns as [|n ns IH]; intros off; cbn [write_reply]; [destruct (_ <=? _)%nat; apply substring_prefix|].
  destruct (_ <=? _)%nat; [apply substring_prefix|]. destruct (n <=? 0); [apply substring_prefix|apply IH].
Qed.

Lemma write_reply_all reply off ns : Forall (fun n => 0 < n) ns ->
  Z.of_nat (String.length reply) <= Z.of_nat off + zsum ns -> write_reply reply off ns = reply.
Proof.
  intros Hn. revert off. induction Hn as [|n ns H Hn IH]; intros off Hs; cbn [write_reply zsum foldr] in *.
  - destruct (Nat.leb_spec (String.length reply) off); apply substring_whole; lia.
  - destruct (Nat.leb_spec (String.length reply) off); [apply substring_whole; lia|].
    destruct (Z.leb_spec n 0); [lia|]. apply IH. unfold zsum. lia.
Qed.

Lemma reply_text_defined {P : InetPrint} x m r : times_ok (n_tsc x) (n_view x) -> is_Some (reply_text x m r).
Proof.
  intros T. destruct r as [| [] | | | | | |]; cbn; eauto. apply fmap_is_Some. unfold Report.format_counters.
  set (v := Report.nic_stats_update _ _). assert (T' : times_ok (n_tsc x) v) by (unfold v; by destruct (n_dev x)).
  destruct (counters_defined (n_time x) (n_tsc x) v T') as [l ->]. cbn. eauto.
Qed.

(** C20. A connection to the control socket: whatever the sizes of the pieces in
    which a command of less than 1024 bytes arrives, exactly that command is
    executed, the state keeps serving the workers, and the client gets a prefix of
    the reply's text; all of it if its writes go through, in pieces of any size. *)
Theorem connection_exact {P : InetPrint} {I : Inet} {IL : InetLaws I} `{HF : RteHashFns} max_lcore x pieces cmd rest s :
  served max_lcore (ctl_mgr s) -> times_ok (n_tsc x) (n_view x) ->
  Forall (fun p => p <> EmptyString) pieces -> cat pieces = cat [cmd; nl; rest] -> lacks Logger.newline cmd -> (String.length cmd < 1024)%nat ->
  exists r s' text, execute max_lcore cmd s = Some (r, s') /\ step_ok max_lcore (Text.words EmptyString cmd) s r s' /\ reply_text x (ctl_mgr s') r = Some text /\
    (forall ns, exists got more, serve max_lcore x pieces ns s = Some (got, s') /\ text = String.append got more) /\
    (forall ns, Forall (fun n => 0 < n) ns -> Z.of_nat (String.length text) <= zsum ns -> serve max_lcore x pieces ns s = Some (text, s')).
Proof.
  intros S T Hp Hc Hl Hn. assert (Hcmd : first_line (read_command pieces EmptyString) = cmd).
  { apply (read_command_line pieces EmptyString cmd rest Hp); [|done]. rewrite append_nil, Hc. cbn [Logger.cat foldr]. rewrite append_nil_r.
    change (String.append nl rest) with (String Logger.newline rest). by apply cut_first. }
  destruct (execute_ok max_lcore cmd s S) as (r & s' & He & Hs). destruct (reply_text_defined x (ctl_mgr s') r T) as [text Ht].
  assert (E : forall ns, serve max_lcore x pieces ns s = Some (write_reply text 0 ns, s')).
  { intros ns. unfold serve. rewrite Hcmd, He. cbn [mbind option_bind]. by rewrite Ht. }
  exists r, s', text. split; [done|]. split; [done|]. split; [done|]. split.
  - intros ns. destruct (write_reply_prefix text 0 ns) as [more Hm]. exists (write_reply text 0 ns), more. by rewrite E.
  - intros ns Hpos Hsum. rewrite E, write_reply_all; [done|done|lia].
Qed.

Definition demo_now : Now :=
  mkNow 0 3000000000 None (Report.mkView NAT false false 3000000000 0 1 [] None None 0 Report.NicStats0 Manager0) Report.Perf0.

Lemma connection_exact_witness : exists c o m s', load (I := dotted_inet) demo_file = Some (c, o) /\ init (HF := mix_fns) 4 Manager0 c = Some m /\
  serve (I := dotted_inet) (HF := mix_fns) 4 demo_now ["wei"; cat ["ght 1 5"; nl; "ignored"]] [1; 1; 1] (mkCtl m true None) = Some (cat ["ok"; nl], s').
Proof.
  destruct (load (I := dotted_inet) demo_file) as [[c o]|] eqn:E; [|vm_compute in E; discriminate].
  assert (N : len (ManagerProps.conf_rs (c_services c)) < kMaxRsCounters) by (vm_compute in E; injection E as <- <-; reflexivity).
  destruct (init (HF := mix_fns) 4 Manager0 c) as [m|] eqn:Hm; [|exfalso; vm_compute in E; injection E as <- <-; vm_compute in Hm; discriminate].
  destruct (started_served (I := dotted_inet) (HF := mix_fns) 4 demo_file c o m E N Hm) as [S _].
  destruct (connection_exact (I := dotted_inet) (HF := mix_fns) 4 demo_now ["wei"; cat ["ght 1 5"; nl; "ignored"]] "weight 1 5" "ignored" (mkCtl m true None) S)
    as (r & s' & text & He & _ & Ht & _ & H).
  - split; [cbn; lia|]. split; [vm_compute; congruence|constructor].
  - repeat constructor; discriminate.
  - reflexivity.
  - reflexivity.
  - vm_compute. lia.
  - assert (R : r = Control.Ok).
    { vm_compute in E. injection E as <- <-. vm_compute in Hm. injection Hm as <-. vm_compute in He. by injection He as <- _. }
    subst r. cbn in Ht. injection Ht as <-. exists c, o, m, s'. split; [reflexivity|]. split; [exact Hm|]. apply H; [repeat constructor|reflexivity].
Defined.

(** ** The socket *)

Section Socket.
Context {K : Sock}.

(** The descriptors opened and closed, newest first. *)
Fixpoint opened (h : list SockCall) : list Z :=
  match h with
  | [] => []
  | Socket :: h' => if sock_ret h <? 0 then opened h' else sock_ret h :: opened h'
  | _ :: h' => opened h'
  end.
Definition closed (h : list SockCall) : list Z := omap (fun c => match c with Close fd => Some fd | _ => None end) h.

(** The file mode mask after a history, and what it was at each bind. *)
Fixpoint mask (m0 : Z) (h : list SockCall) : Z :=
  match h with [] => m0 | Umask m :: _ => m | _ :: h => mask m0 h end.
Fixpoint bind_masks (m0 : Z) (h : list SockCall) : list Z :=
  match h with [] => [] | Bind _ _ :: h => mask m0 h :: bind_masks m0 h | _ :: h => bind_masks m0 h end.

(** After start: the descriptor is either held or closed again. *)
Definition after_start (m0 : Z) (path : string) (ok : bool) (s : ControlServer) : Prop :=
  mask m0 (calls s) = m0 /\ Forall (fun m => m = 127) (bind_masks m0 (calls s)) /\ started_ s = ok /\ path_ s = path /\
  if ok then 0 <= listen_fd_ s /\ opened (calls s) = [listen_fd_ s] /\ closed (calls s) = []
  else listen_fd_ s < 0 /\ opened (calls s) = closed (calls s).

Context (m0 : Z) (umask_previous : forall m h, sock_ret (Umask m :: h) = mask m0 h).

Lemma start_socket path : wp (start path) (after_start m0 path) Server0.
Proof.
  unfold start. apply wp_bind, wp_modify. destruct (_ <=? _)%nat; [by repeat split|].
  apply wp_bind. unfold sys at 1, wp at 1. change (calls (set_path path Server0)) with (@nil SockCall).
  set (fd := sock_ret [Socket]). apply wp_bind, wp_modify.
  destruct (Z.ltb_spec fd 0) as [Hf|Hf].
  { repeat split; try done. cbn. fold fd. by rewrite (proj2 (Z.ltb_lt fd 0)). }
  assert (Hfd : (fd <? 0) = false) by (by apply Z.ltb_ge).
  apply wp_bind. unfold sys at 1, wp at 1. apply wp_bind. unfold sys at 1, wp at 1. cbn [calls]. rewrite umask_previous. cbn [mask].
  apply wp_bind. unfold sys at 1, wp at 1. cbn [calls]. set (rb := sock_ret _). apply wp_bind. unfold sys at 1, wp at 1. cbn [calls].
  apply wp_bind. eapply (wp_mono _ (fun failed s => mask m0 (calls s) = m0 /\ Forall (fun m => m = 127) (bind_masks m0 (calls s)) /\
    started_ s = false /\ path_ s = path /\ listen_fd_ s = fd /\ opened (calls s) = [fd] /\ closed (calls s) = [])).
  - destruct (rb <? 0).
    + repeat split; cbn; try done; [by repeat constructor|]. fold fd. by rewrite Hfd.
    + apply wp_bind. unfold sys, wp at 1. repeat split; cbn; try done; [by repeat constructor|]. fold fd. by rewrite Hfd.
  - intros failed s (H1 & H2 & H3 & H4 & H5 & H6 & H7).
    assert (Drop : forall s, mask m0 (calls s) = m0 /\ Forall (fun m => m = 127) (bind_masks m0 (calls s)) /\ started_ s = false /\ path_ s = path /\
      listen_fd_ s = fd /\ opened (calls s) = [fd] /\ closed (calls s) = [] -> wp (drop_fd ;; mret false) (after_start m0 path) s).
    { clear. intros s (H1 & H2 & H3 & H4 & H5 & H6 & H7). apply wp_bind, wp_bind, wp_gets, wp_bind. unfold sys, wp at 1.
      apply wp_modify. repeat split; cbn; try done. unfold closed in H7. unfold id. by rewrite H5, H6, H7. }
    destruct failed; [by apply Drop|]. apply wp_bind. unfold sys, wp at 1. destruct (negb _); [by apply Drop|].
    apply wp_bind, wp_modify. repeat split; cbn; try done; [by rewrite H5|by rewrite H6, H5].
Qed.

Lemma stop_socket path ok s : after_start m0 path ok s ->
  wp stop (fun _ s' => listen_fd_ s' < 0 /\ started_ s' = false /\ opened (calls s') = closed (calls s') /\ mask m0 (calls s') = m0 /\
    Forall (fun m => m = 127) (bind_masks m0 (calls s')) /\ (ok = true -> exists h, calls s' = Unlink path :: h /\ Close (listen_fd_ s) ∈ h)) s.
Proof.
  intros (H1 & H2 & H3 & H4 & H5). unfold stop. apply wp_bind, wp_modify, wp_bind, wp_gets, wp_bind. cbn. rewrite H3. destruct ok.
  - destruct H5 as (H5 & H6 & H7). unfold when, sys, wp at 1. cbn. apply wp_bind, wp_modify. cbn.
    rewrite (proj2 (Z.geb_le _ _) H5). unfold wp. cbn. rewrite H4. unfold closed in *. split; [done|]. split; [done|]. split; [cbn; by rewrite H6, H7|].
    split; [done|]. split; [done|]. intros _. eexists. split; [done|]. left.
  - destruct H5 as (H5 & H6). unfold when, wp at 1. cbn. apply wp_bind, wp_modify. cbn.
    destruct (Z.geb_spec (listen_fd_ s) 0); [lia|]. by repeat split.
Qed.

End Socket.

(** C32. The control socket is taken and given back: start returns and stop after it
    leaves no descriptor open, whatever fails in between; a failed start has closed
    what it opened; the socket is bound with a mask that keeps others out and the
    process's mask is as it was before; a server that started is closed and its
    path removed. *)
Theorem control_socket_released {K : Sock} m0 path :
  (forall m h, sock_ret (Umask m :: h) = mask m0 h) ->
  exists ok s1 s2, start path Server0 = Some (ok, s1) /\ after_start m0 path ok s1 /\ stop s1 = Some (tt, s2) /\
    listen_fd_ s2 < 0 /\ opened (calls s2) = closed (calls s2) /\ mask m0 (calls s2) = m0 /\
    Forall (fun m => m = 127) (bind_masks m0 (calls s2)) /\
    (ok = true -> exists h, calls s2 = Unlink path :: h /\ Close (listen_fd_ s1) ∈ h).
Proof.
  intros U. destruct (proj1 (wp_run _ _ _) (start_socket m0 U path)) as (ok & s1 & E1 & A).
  destruct (proj1 (wp_run _ _ _) (stop_socket m0 path ok s1 A)) as ([] & s2 & E2 & B1 & _ & B2 & B3 & B4 & B5).
  exists ok, s1, s2. split; [exact E1|]. split; [exact A|]. split; [exact E2|]. done.
Qed.

(** *** A socket that opens *)

#[local] Instance demo_sock : Sock := {
  sock_ret h := match h with Socket :: _ => 7 | Umask _ :: h => mask 18 h | _ => 0 end }.

Lemma control_socket_released_witness : exists s1 s2, start "/run/l4lb.sock" Server0 = Some (true, s1) /\ listen_fd_ s1 = 7 /\
  stop s1 = Some (tt, s2) /\ closed (calls s2) = [7].
Proof.
  destruct (control_socket_released 18 "/run/l4lb.sock") as (ok & s1 & s2 & H1 & _ & H2 & _ & H3 & _).
  - reflexivity.
  - vm_compute in H1. injection H1 as <- <-. exists (mkServer "/run/l4lb.sock" 7 true false [ThreadCreate; Listen 7 8; Umask 18; Bind 7 "/run/l4lb.sock"; Umask 127; Unlink "/run/l4lb.sock"; Socket]), s2.
    split; [reflexivity|]. split; [reflexivity|]. split; [exact H2|]. rewrite <- H3. vm_compute in H2. injection H2 as <-. reflexivity.
Defined.

End ControlIoProps.
