(* ===== verification/Shutdown.v ===== *)
(** Shutdown: from the running threads to the end of src/main.cpp.

    [Mem] is the memory start-up took, as a list of blocks: freeing a block that
    is not in it is undefined behaviour ([None]).  [DpPtr] holds the pointers of
    g_dp.  The second part interleaves main with the control thread, the master
    and the lcores; what they do to the queues is left open. *)
From S2P Require Import Prelude Types Mem Dpdk Text Print Context Processor Stdio Logger LoggerThms Main MainProps.
From Stdlib Require Import String.
Import Text Print Processor Main MainProps.

(** ** One packet from a ring *)

(** rte_ring_sc_dequeue, which belongs to the rings of [RteIo]. *)
Class RteDequeue (IO : RteIo) := { rte_ring_sc_dequeue : ring -> world -> option Mbuf * world }.

(** Documented behaviour: it takes one packet and fails only on an empty ring; a
    ring of n slots holds at most n - 1 packets. *)
Class RteDequeueLaws (IO : RteIo) (IOL : RteIoLaws IO) (DQ : RteDequeue IO) := {
  queued : ring -> world -> nat;
  queued_bound r x : (queued r x < Z.to_nat REDIRECT_RING_SIZE)%nat /\ (queued r x < Z.to_nat RX_RING_ELEMS)%nat;
  dequeue_some r x m x' : rte_ring_sc_dequeue r x = (Some m, x') ->
    queued r x = S (queued r x') /\ held x' = held x + 1 /\ forall r', r' <> r -> queued r' x' = queued r' x;
  dequeue_none r x x' : rte_ring_sc_dequeue r x = (None, x') ->
    queued r x = 0%nat /\ held x' = held x /\ forall r', queued r' x' = queued r' x;
  free_queued r m x : queued r (rte_pktmbuf_free m x) = queued r x
}.

Module Shutdown.

(** ** Memory *)

Inductive Kind :=
| KCtx | KRsStats | KHash | KSessions | KFreeStack | KSlots | KRedirect | KRx
| KMaster | KReceiver | KNeigh | KMasterRing | KHealthRing | KQsbr | KSnapshot | KPort | KPool.

#[export] Instance Kind_eq_dec : EqDecision Kind.
Proof. solve_decision. Defined.

(** What it is and of which worker; for a snapshot, its version. *)
Definition Block : Type := Kind * Z.

Fixpoint take_out (b : Block) (l : list Block) : option (list Block) :=
  match l with
  | [] => None
  | x :: l => if decide (x = b) then Some l else (x ::.) <$> take_out b l
  end.

Record SessPtr := mkSess { hash_ : option Block; sessions_ : option Block; free_stack_ : option Block; slots_ : option Block }.
Definition Sess0 : SessPtr := mkSess None None None None.

Record WorkerPtr := mkWorkerPtr {
  w_idx : Z;
  w_ctx : option Block;
  w_sess : SessPtr;
  w_redirect : option Block;
  w_rx : option Block;
  w_rs : option Block;
}.

Record DpPtr := mkDpPtr {
  d_workers : list WorkerPtr;
  d_master : option Block;
  d_receiver : option Block;
  d_neigh : option Block;
  d_cur : option Block;
  d_qsbr : option Block;
  d_master_ring : option Block;
  d_health_ring : option Block;
}.

Section Cleanup.
Context `{IO : RteIo} {DQ : RteDequeue IO}.

Record Mem := mkMem { blocks : list Block; io : world }.

Definition set_blocks (l : list Block) (m : Mem) : Mem := mkMem l (io m).

Definition alloc (ok : bool) (b : Block) : ST Mem (option Block) :=
  if ok then modify (fun m => set_blocks (b :: blocks m) m) ;; mret (Some b) else mret None.

(** rte_free, rte_hash_free, rte_ring_free, delete: nothing for a null pointer. *)
Definition free (p : option Block) : ST Mem unit :=
  match p with
  | None => mret tt
  | Some b => m ← gets id; l ← deref (take_out b (blocks m)); modify (set_blocks l)
  end.

(** A use of what a pointer leads to. *)
Definition need (p : option Block) : ST Mem unit :=
  m ← gets id; b ← deref p; if decide (b ∈ blocks m) then mret tt else fault.

(** *** The session table *)

Definition destroy (t : SessPtr) : ST Mem SessPtr :=
  (match hash_ t with Some b => free (Some b) | None => mret tt end) ;;
  free (sessions_ t) ;;
  free (free_stack_ t) ;;
  free (slots_ t) ;;
  mret Sess0.

(** Where the memory of a table comes from; [has]: what can be had. *)
Definition table_init (has : Block -> bool) (i : Z) : ST Mem (bool * SessPtr) :=
  h ← alloc (has (KHash, i)) (KHash, i);
  match h with
  | None => mret (false, Sess0)
  | Some _ =>
    a ← alloc (has (KSessions, i)) (KSessions, i);
    f ← alloc (has (KFreeStack, i)) (KFreeStack, i);
    l ← alloc (has (KSlots, i)) (KSlots, i);
    match a, f, l with
    | Some _, Some _, Some _ => mret (true, mkSess h a f l)
    | _, _, _ => t ← destroy (mkSess h a f l); mret (false, t)
    end
  end.

(** *** What main takes: [None] leads to an exit *)

Definition acquire_worker (has : Block -> bool) (pipeline : bool) (i : Z) : ST Mem (option WorkerPtr) :=
  w ← alloc (has (KCtx, i)) (KCtx, i);
  match w with
  | None => mret None
  | Some _ =>
    rs ← alloc (has (KRsStats, i)) (KRsStats, i);
    match rs with
    | None => mret None
    | Some _ =>
      '(ok, t) ← table_init has i;
      if negb ok then mret None
      else
        r ← alloc (has (KRedirect, i)) (KRedirect, i);
        match r with
        | None => mret None
        | Some _ =>
          if negb pipeline then mret (Some (mkWorkerPtr i w t r None rs))
          else
            x ← alloc (has (KRx, i)) (KRx, i);
            match x with None => mret None | Some _ => mret (Some (mkWorkerPtr i w t r x rs)) end
        end
    end
  end.

Fixpoint acquire_workers (has : Block -> bool) (pipeline : bool) (ids : list Z) : ST Mem (option (list WorkerPtr)) :=
  match ids with
  | [] => mret (Some [])
  | i :: ids =>
    w ← acquire_worker has pipeline i;
    match w with
    | None => mret None
    | Some w => ws ← acquire_workers has pipeline ids; mret ((w ::.) <$> ws)
    end
  end.

Definition acquire (has : Block -> bool) (pipeline : bool) (nw : Z) : ST Mem (option DpPtr) :=
  q ← alloc (has (KQsbr, 0)) (KQsbr, 0);
  match q with
  | None => mret None
  | Some _ =>
    n ← alloc (has (KNeigh, 0)) (KNeigh, 0);
    match n with
    | None => mret None
    | Some _ =>
      mr ← alloc (has (KMasterRing, 0)) (KMasterRing, 0);
      hr ← alloc (has (KHealthRing, 0)) (KHealthRing, 0);
      match mr, hr with
      | Some _, Some _ =>
        cur ← alloc true (KSnapshot, 1);
        ws ← acquire_workers has pipeline (seqZ 0 nw);
        match ws with
        | None => mret None
        | Some ws =>
          ma ← alloc (has (KMaster, 0)) (KMaster, 0);
          match ma with
          | None => mret None
          | Some _ =>
            if negb pipeline then mret (Some (mkDpPtr ws ma None n cur q mr hr))
            else
              rv ← alloc (has (KReceiver, 0)) (KReceiver, 0);
              match rv with None => mret None | Some _ => mret (Some (mkDpPtr ws ma rv n cur q mr hr)) end
          end
        end
      | _, _ => mret None
      end
    end
  end.

(** *** What main gives back *)

Definition on_io {A} (f : world -> A * world) : ST Mem A :=
  fun m => let '(a, x) := f (io m) in Some (a, mkMem (blocks m) x).

(** while (rte_ring_sc_dequeue(r, &m) == 0) rte_pktmbuf_free(m) *)
Fixpoint drain_loop (fuel : nat) (r : ring) : ST Mem unit :=
  match fuel with
  | O => fault
  | S fuel =>
    m ← on_io (rte_ring_sc_dequeue r);
    match m with
    | None => mret tt
    | Some m => on_io (fun x => (tt, rte_pktmbuf_free m x)) ;; drain_loop fuel r
    end
  end.

Definition drain (p : option Block) (r : ring) (size : Z) : ST Mem unit :=
  (match p with None => mret tt | Some b => need (Some b) ;; drain_loop (Z.to_nat size) r end) ;;
  free p.

(** The destructor of WorkerCtx destroys the table once more. *)
Definition release_worker (w : WorkerPtr) : ST Mem unit :=
  t ← destroy (w_sess w);
  drain (w_redirect w) (REDIRECT_RING (w_idx w)) REDIRECT_RING_SIZE ;;
  drain (w_rx w) (RX_RING (w_idx w)) RX_RING_ELEMS ;;
  free (w_rs w) ;;
  destroy t ;;
  free (w_ctx w).

Fixpoint release_workers (ws : list WorkerPtr) : ST Mem unit :=
  match ws with [] => mret tt | w :: ws => release_worker w ;; release_workers ws end.

(** SnapshotManager::destroy *)
Definition destroy_snapshots (p : DpPtr) : ST Mem unit := free (d_cur p).

(** NeighTable::destroy: the hash waits for readers through the RCU state. *)
Definition destroy_neigh (p : DpPtr) : ST Mem unit :=
  match d_neigh p with Some b => need (d_qsbr p) ;; free (Some b) | None => mret tt end.

Definition cleanup (p : DpPtr) : ST Mem unit :=
  release_workers (d_workers p) ;;
  destroy Sess0 ;;             (** the master's context has no table *)
  free (d_master p) ;;
  free (d_receiver p) ;;
  destroy_snapshots p ;;
  destroy_neigh p ;;
  need (Some (KPool, 0)) ;;    (** the port gives its packets back *)
  free (Some (KPort, 0)) ;;
  free (d_master_ring p) ;;
  free (d_health_ring p) ;;
  free (d_qsbr p).

End Cleanup.

(** *** The log at the end *)

Definition end_log {L : Libc} : ST Logger.Log unit :=
  eal_cleanup ;;
  l ← gets id;
  let d := Logger.dropped (Logger.sh l) in
  when (negb (d =? 0))
    (Logger.L4LB_LOG Logger.WARN "main.cpp" 420 "main" (Some (Logger.cat [to_string d; " log messages were dropped (queue full)"%string]))) ;;
  Logger.shutdown.

(** ** The life of the threads *)

Inductive Thread := TControl | TMaster | TLcore (i : Z).

#[export] Instance Thread_eq_dec : EqDecision Thread.
Proof. solve_decision. Defined.

(** Where main is: [Launch] has the workers still to launch. *)
Inductive Pc :=
| StartControl | StartMaster | Launch (ids : list Z) | OwnLoop | WaitLcores | JoinMaster | StopControl | JoinControl | CleanUp | Finished.

#[export] Instance Pc_eq_dec : EqDecision Pc.
Proof. solve_decision. Defined.

Section Life.
Context `{IO : RteIo} {DQ : RteDequeue IO} {L : Libc} (pipeline : bool) (nw : Z).

Record Life := mkLife {
  pc : Pc;
  g_running : bool;
  stop_ : bool;             (** ControlServer::stop_ *)
  alive : list Thread;
  g_started : bool;         (** the master's *)
  started_ : bool;          (** the control server's *)
  ptrs : DpPtr;
  memory : Mem;
  logger : Logger.Log;
}.

Definition goto (v : Pc) (s : Life) : Life := mkLife v (g_running s) (stop_ s) (alive s) (g_started s) (started_ s) (ptrs s) (memory s) (logger s).
Definition signal_handler (s : Life) : Life := mkLife (pc s) false (stop_ s) (alive s) (g_started s) (started_ s) (ptrs s) (memory s) (logger s).
Definition set_stop (s : Life) : Life := mkLife (pc s) (g_running s) true (alive s) (g_started s) (started_ s) (ptrs s) (memory s) (logger s).
Definition set_alive (l : list Thread) (s : Life) : Life := mkLife (pc s) (g_running s) (stop_ s) l (g_started s) (started_ s) (ptrs s) (memory s) (logger s).
Definition set_master (v : bool) (s : Life) : Life := mkLife (pc s) (g_running s) (stop_ s) (alive s) v (started_ s) (ptrs s) (memory s) (logger s).
Definition set_control (v : bool) (s : Life) : Life := mkLife (pc s) (g_running s) (stop_ s) (alive s) (g_started s) v (ptrs s) (memory s) (logger s).
Definition set_memory (p : DpPtr) (m : Mem) (s : Life) : Life := mkLife (pc s) (g_running s) (stop_ s) (alive s) (g_started s) (started_ s) p m (logger s).
Definition set_logger (l : Logger.Log) (s : Life) : Life := mkLife (pc s) (g_running s) (stop_ s) (alive s) (g_started s) (started_ s) (ptrs s) (memory s) l.

(** A new thread, if it could be created. *)
Definition spawn (ok : bool) (t : Thread) (s : Life) : Life := if ok then set_alive (t :: alive s) s else s.

Definition remote : list Z := if pipeline then seqZ 0 nw else seqZ 1 (nw - 1).

Definition master_start (ok : bool) (s : Life) : Life :=
  if ok then goto (Launch remote) (set_master true (spawn true TMaster s)) else goto WaitLcores (signal_handler s).

(** The version of a snapshot that is published. *)
Definition version (p : DpPtr) : Z := match d_cur p with Some (_, v) => v | None => 0 end.

Definition publish (p : DpPtr) : ST Mem DpPtr :=
  let v := version p + 1 in
  cur ← alloc true (KSnapshot, v);
  free (d_cur p) ;;
  mret (mkDpPtr (d_workers p) (d_master p) (d_receiver p) (d_neigh p) cur (d_qsbr p) (d_master_ring p) (d_health_ring p)).

Definition is_lcore (t : Thread) : bool := match t with TLcore _ => true | _ => false end.

(** Main moves on, or a thread finds its flag and ends. *)
Inductive moves : Life -> Life -> Prop :=
| m_control ok s : pc s = StartControl -> moves s (goto StartMaster (set_control ok (spawn ok TControl s)))
| m_master ok s : pc s = StartMaster -> moves s (master_start ok s)
| m_launch i ids ok s : pc s = Launch (i :: ids) -> moves s (goto (Launch ids) (spawn ok (TLcore i) s))
| m_launched s : pc s = Launch [] -> moves s (goto OwnLoop s)
| m_own s : pc s = OwnLoop -> g_running s = false -> moves s (goto WaitLcores s)
| m_wait s : pc s = WaitLcores -> Forall (fun t => is_lcore t = false) (alive s) -> moves s (goto JoinMaster s)
| m_join s : pc s = JoinMaster -> (g_started s = true -> TMaster ∉ alive s) -> moves s (goto StopControl (set_master false s))
| m_stop s : pc s = StopControl -> moves s (goto JoinControl (set_stop s))
| m_stopped s : pc s = JoinControl -> (started_ s = true -> TControl ∉ alive s) -> moves s (goto CleanUp (set_control false s))
| m_clean s m l : pc s = CleanUp -> cleanup (ptrs s) (memory s) = Some (tt, m) -> end_log (logger s) = Some (tt, l) ->
    moves s (goto Finished (set_logger l (set_memory (ptrs s) m s)))
| m_loop_ends t s : t ∈ alive s -> t <> TControl -> g_running s = false -> moves s (set_alive (filter (fun x => x <> t) (alive s)) s)
| m_control_ends s : TControl ∈ alive s -> stop_ s = true -> moves s (set_alive (filter (fun x => x <> TControl) (alive s)) s).

(** What threads do: packets, log lines, new snapshots; and the signal. *)
Inductive works : Life -> Life -> Prop :=
| w_io x s : alive s <> [] \/ pc s = OwnLoop -> works s (set_memory (ptrs s) (mkMem (blocks (memory s)) x) s)
| w_log l s : pc s <> Finished -> LoggerThms.ready l -> works s (set_logger l s)
| w_publish p m s : TControl ∈ alive s -> publish (ptrs s) (memory s) = Some (p, m) -> works s (set_memory p m s)
| w_signal s : works s (signal_handler s).

Inductive runs (s0 : Life) : Life -> Prop :=
| r_refl : runs s0 s0
| r_moves s s' : runs s0 s -> moves s s' -> runs s0 s'
| r_works s s' : runs s0 s -> works s s' -> runs s0 s'.

(** Moves left at most: a thread that is launched has to end. *)
Definition left_of (p : Pc) : nat :=
  match p with
  | StartControl => 10 + List.length remote | StartMaster => 9 + List.length remote
  | Launch ids => 8 + List.length ids | OwnLoop => 7 | WaitLcores => 6 | JoinMaster => 5 | StopControl => 4
  | JoinControl => 3 | CleanUp => 2 | Finished => 0
  end.
Definition measure (s : Life) : nat := 2 * left_of (pc s) + List.length (alive s).

End Life.

(** ** Cleaning up gives everything back *)

Lemma take_out_perm b l k : l ≡ₚ b :: k -> exists k', take_out b l = Some k' /\ k' ≡ₚ k.
Proof.
  intros (k1 & k2 & -> & Hk)%Permutation_cons_inv_r. setoid_rewrite Hk. clear k Hk.
  induction k1 as [|x k1 (k' & E & P)]; cbn [app take_out]; [exists k2; by rewrite decide_True|].
  destruct (decide (x = b)) as [->|]; [|exists (x :: k'); rewrite E; split; [done|by rewrite P]].
  eexists. split; [done|]. by rewrite <- Permutation_middle.
Qed.

Definition opt (p : option Block) : list Block := match p with Some b => [b] | None => [] end.
Definition table_blocks (t : SessPtr) : list Block := (opt (hash_ t) ++ opt (sessions_ t) ++ opt (free_stack_ t) ++ opt (slots_ t))%list.
Definition worker_blocks (w : WorkerPtr) : list Block :=
  (table_blocks (w_sess w) ++ opt (w_redirect w) ++ opt (w_rx w) ++ opt (w_rs w) ++ opt (w_ctx w))%list.
Definition workers_blocks (ws : list WorkerPtr) : list Block := ws ≫= worker_blocks.

(** The memory start-up took, but for the packet pool. *)
Definition dp_blocks (p : DpPtr) : list Block :=
  (workers_blocks (d_workers p) ++ opt (d_master p) ++ opt (d_receiver p) ++ opt (d_cur p) ++ opt (d_neigh p) ++
   [(KPort, 0)] ++ opt (d_master_ring p) ++ opt (d_health_ring p) ++ opt (d_qsbr p))%list.

(** The rings of a worker that exist. *)
Definition worker_rings (w : WorkerPtr) : list ring :=
  ((match w_redirect w with Some _ => [REDIRECT_RING (w_idx w)] | None => [] end) ++
   (match w_rx w with Some _ => [RX_RING (w_idx w)] | None => [] end))%list.

Section Spec.
Context `{IO : RteIo} {IOL : RteIoLaws IO} {DQ : RteDequeue IO} {DL : RteDequeueLaws IO IOL DQ}.

(** [c] frees exactly [bs], empties [rs] and loses no packet, in a memory that
    keeps [needs]. *)
Definition gives_back {A} (needs bs : list Block) (rs : list ring) (Q : A -> Prop) (c : ST Mem A) : Prop :=
  forall k m, blocks m ≡ₚ (bs ++ k)%list -> (forall b, b ∈ needs -> b ∈ k) ->
    wp c (fun a m' => Q a /\ blocks m' ≡ₚ k /\ held (io m') = held (io m) /\
      forall r, r ∈ rs \/ queued r (io m) = 0%nat -> queued r (io m') = 0%nat) m.

Lemma gb_bind {A B} n n1 bs1 rs1 Q bs2 rs2 R (c : ST Mem A) (f : A -> ST Mem B) :
  gives_back n1 bs1 rs1 Q c -> (forall b, b ∈ n1 -> b ∈ bs2 \/ b ∈ n) -> (forall a, Q a -> gives_back n bs2 rs2 R (f a)) ->
  gives_back n (bs1 ++ bs2)%list (rs1 ++ rs2)%list R (c ≫= f).
Proof.
  intros H1 Hn H2 k m Hm Hk. apply wp_bind. eapply wp_mono; [apply (H1 (bs2 ++ k)%list)|].
  - by rewrite (assoc_L (++)).
  - intros b [Hb|Hb]%Hn; apply elem_of_app; [by left|right; by apply Hk].
  - intros a m1 (Ha & Hb & Hh & Hr). eapply wp_mono; [by apply (H2 a Ha k m1)|].
    intros c' m2 (Hc & Hb2 & Hh2 & Hr2). split; [done|]. split; [done|]. split; [congruence|].
    intros r [Hin|Hz]; apply Hr2; [apply elem_of_app in Hin as [Hin|Hin]; [right; apply Hr; by left|by left]|right; apply Hr; by right].
Qed.

Lemma gb_seq {A B} n n1 bs1 rs1 bs2 rs2 Q R (c : ST Mem A) (d : ST Mem B) :
  gives_back n1 bs1 rs1 Q c -> (forall b, b ∈ n1 -> b ∈ bs2 \/ b ∈ n) -> gives_back n bs2 rs2 R d ->
  gives_back n (bs1 ++ bs2)%list (rs1 ++ rs2)%list R (c ;; d).
Proof. intros H1 Hn H2. by eapply gb_bind. Qed.

Lemma gb_weaken {A} n n' bs rs (Q R : A -> Prop) c :
  gives_back n bs rs Q c -> (forall b, b ∈ n -> b ∈ n') -> (forall a, Q a -> R a) -> gives_back n' bs rs R c.
Proof.
  intros H Hn HQ k m Hm Hk. eapply wp_mono; [apply (H k m Hm); auto|]. intros a m' (Ha & Hr). split; [by apply HQ|done].
Qed.

Lemma gb_ret {A} (a : A) n (Q : A -> Prop) : Q a -> gives_back n [] [] Q (mret a).
Proof. intros Ha k m Hm _. split; [done|]. split; [done|]. split; [done|]. intros r [[]%not_elem_of_nil|?]; done. Qed.

Lemma gb_free p : gives_back [] (opt p) [] (fun _ => True) (free p).
Proof.
  destruct p as [b|]; [|by apply gb_ret]. intros k m Hm _. destruct (take_out_perm b (blocks m) k Hm) as (k' & E & P).
  unfold free. apply wp_bind, wp_gets, wp_bind. unfold id. rewrite E. cbn. split; [done|]. split; [done|]. split; [done|].
  intros r [[]%not_elem_of_nil|?]; done.
Qed.

Lemma gb_need b : gives_back [b] [] [] (fun _ => True) (need (Some b)).
Proof.
  intros k m Hm Hk. unfold need. apply wp_bind, wp_gets, wp_bind. cbn. unfold id. rewrite decide_True.
  - split; [done|]. split; [done|]. split; [done|]. intros r [[]%not_elem_of_nil|?]; done.
  - rewrite Hm. apply Hk. by left.
Qed.

Lemma gb_destroy t : gives_back [] (table_blocks t) [] (fun t' => t' = Sess0) (destroy t).
Proof.
  unfold destroy, table_blocks.
  replace (match hash_ t with Some b => free (Some b) | None => mret tt end) with (free (hash_ t)) by (by destruct (hash_ t)).
  rewrite <- (app_nil_r (opt (slots_ t))). change (@nil ring) with (([] ++ [] ++ [] ++ [] ++ []) : list ring).
  repeat (eapply gb_seq; [apply gb_free|by intros b ?%elem_of_nil|]). by apply gb_ret.
Qed.

Lemma drain_loop_wp fuel r m : (queued r (io m) < fuel)%nat ->
  wp (drain_loop fuel r) (fun _ m' => blocks m' = blocks m /\ held (io m') = held (io m) /\ queued r (io m') = 0%nat /\
    forall r', r' <> r -> queued r' (io m') = queued r' (io m)) m.
Proof.
  revert m. induction fuel as [|fuel IH]; intros m Hf; [lia|]. cbn [drain_loop]. apply wp_bind. unfold wp, on_io at 1.
  destruct (rte_ring_sc_dequeue r (io m)) as [[p|] x] eqn:E.
  - destruct (dequeue_some _ _ _ _ E) as (Hq & Hh & Ho). destruct (free_spec p x) as [Hfr _].
    cbn. eapply wp_mono; [apply IH; cbn; rewrite free_queued; lia|].
    intros [] m' (H1 & H2 & H3 & H4). cbn in *. split; [done|]. split; [lia|]. split; [done|].
    intros r' Hr. rewrite H4, free_queued by done. by apply Ho.
  - destruct (dequeue_none _ _ _ E) as (Hq & Hh & Ho). cbn. split; [done|]. split; [done|]. split; [by rewrite Ho|]. intros r' _. apply Ho.
Qed.

Lemma gb_drain_loop size r : (forall x, (queued r x < Z.to_nat size)%nat) ->
  gives_back [] [] [r] (fun _ => True) (drain_loop (Z.to_nat size) r).
Proof.
  intros Hs k m Hm _. eapply wp_mono; [apply drain_loop_wp, Hs|]. intros [] m' (H1 & H2 & H3 & H4).
  split; [done|]. split; [by rewrite H1|]. split; [done|]. intros r' [->%list_elem_of_singleton|Hr]; [done|].
  destruct (decide (queued r' (io m') = 0%nat)) as [?|Hz]; [done|].
  rewrite H4; [done|]. intros ->. done.
Qed.

Definition ring_of (p : option Block) (r : ring) : list ring := match p with Some _ => [r] | None => [] end.

Lemma gb_drain p r size : (forall x, (queued r x < Z.to_nat size)%nat) ->
  gives_back [] (opt p) (ring_of p r) (fun _ => True) (drain p r size).
Proof.
  intros Hs. unfold drain. destruct p as [b|]; cbn [opt ring_of].
  - change [b] with ([] ++ [b])%list. rewrite <- (app_nil_r [r]). eapply (gb_seq _ [b]); [|by intros ? ?; left|apply (gb_free (Some b))].
    change (@nil Block) with ([] ++ [] : list Block)%list. change [r] with ([] ++ [r])%list.
    eapply gb_seq; [apply gb_need|by intros ? ?; right|]. eapply gb_weaken; [by apply gb_drain_loop|by intros ? ?%elem_of_nil|done].
  - change (@nil Block) with ([] ++ [] : list Block)%list. change (@nil ring) with ([] ++ [] : list ring)%list.
    eapply (gb_seq _ []); [by apply (gb_ret tt [] (fun _ => True))|by intros ? ?%elem_of_nil|apply (gb_free None)].
Qed.

Lemma gb_release_worker w : gives_back [] (worker_blocks w) (worker_rings w) (fun _ => True) (release_worker w).
Proof.
  unfold release_worker, worker_blocks.

  replace (worker_rings w) with ([] ++ ring_of (w_redirect w) (REDIRECT_RING (w_idx w)) ++
    ring_of (w_rx w) (RX_RING (w_idx w)) ++ [] ++ [] ++ [])%list by (unfold worker_rings, ring_of; cbn; by rewrite app_nil_r).
  eapply gb_bind; [apply gb_destroy|by intros ? ?%elem_of_nil|]. intros t ->.
  eapply gb_seq; [apply gb_drain; intros x; apply (queued_bound (REDIRECT_RING (w_idx w)) x)|by intros ? ?%elem_of_nil|].
  eapply gb_seq; [apply gb_drain; intros x; apply (queued_bound (RX_RING (w_idx w)) x)|by intros ? ?%elem_of_nil|].
  eapply gb_seq; [apply gb_free|by intros ? ?%elem_of_nil|].
  change (opt (w_ctx w)) with (table_blocks Sess0 ++ opt (w_ctx w))%list.
  eapply gb_seq; [apply gb_destroy|by intros ? ?%elem_of_nil|apply gb_free].
Qed.

Lemma gb_release_workers ws : gives_back [] (workers_blocks ws) (ws ≫= worker_rings) (fun _ => True) (release_workers ws).
Proof.
  induction ws as [|w ws IH]; [by apply gb_ret|]. cbn [release_workers].
  eapply gb_seq; [apply gb_release_worker|by intros ? ?%elem_of_nil|exact IH].
Qed.

Lemma gb_cleanup p q : d_qsbr p = Some q ->
  gives_back [(KPool, 0)] (dp_blocks p) (d_workers p ≫= worker_rings) (fun _ => True) (cleanup p).
Proof.
  intros Hq. unfold cleanup, dp_blocks. rewrite <- (app_nil_r (d_workers p ≫= worker_rings)).
  eapply gb_seq; [apply gb_release_workers|by intros ? ?%elem_of_nil|].
  change (@nil ring) with ([] ++ [] ++ [] ++ [] ++ [] ++ [] ++ [] ++ [] ++ [] ++ [] : list ring)%list.
  rewrite <- (app_nil_l (opt (d_master p) ++ _)%list).
  eapply gb_seq; [apply (gb_destroy Sess0)|by intros ? ?%elem_of_nil|].
  eapply gb_seq; [apply gb_free|by intros ? ?%elem_of_nil|].
  eapply gb_seq; [apply gb_free|by intros ? ?%elem_of_nil|].
  eapply gb_seq; [apply gb_free|by intros ? ?%elem_of_nil|].
  eapply (gb_seq _ [q] _ _ _ _ (fun _ => True)).
  - unfold destroy_neigh. rewrite Hq. destruct (d_neigh p) as [b|]; [|by apply gb_ret].
    change (opt (Some b)) with ([] ++ [b])%list. change (@nil ring) with ([] ++ [] : list ring)%list.
    eapply gb_seq; [apply gb_need|by right|]. eapply gb_weaken; [apply (gb_free (Some b))|by intros ? ?%elem_of_nil|done].
  - intros b ->%list_elem_of_singleton. left. rewrite Hq, !elem_of_app. do 3 right. by left.
  - rewrite <- (app_nil_l ([(KPort, 0)] ++ _)%list).
    eapply gb_seq; [apply gb_need|by right|].
    eapply gb_seq; [apply (gb_free (Some (KPort, 0)))|by intros ? ?%elem_of_nil|].
    do 2 (eapply gb_seq; [apply gb_free|by intros ? ?%elem_of_nil|]).
    eapply gb_weaken; [apply gb_free|by intros ? ?%elem_of_nil|done].
Qed.

End Spec.

(** ** What start-up has taken *)

Definition table_ptr (i : Z) : SessPtr := mkSess (Some (KHash, i)) (Some (KSessions, i)) (Some (KFreeStack, i)) (Some (KSlots, i)).
Definition worker_ptr (pipeline : bool) (i : Z) : WorkerPtr :=
  mkWorkerPtr i (Some (KCtx, i)) (table_ptr i) (Some (KRedirect, i)) (if pipeline then Some (KRx, i) else None) (Some (KRsStats, i)).
Definition dp_ptr (pipeline : bool) (nw version : Z) : DpPtr :=
  mkDpPtr (worker_ptr pipeline <$> seqZ 0 nw) (Some (KMaster, 0)) (if pipeline then Some (KReceiver, 0) else None)
    (Some (KNeigh, 0)) (Some (KSnapshot, version)) (Some (KQsbr, 0)) (Some (KMasterRing, 0)) (Some (KHealthRing, 0)).

(** Permutations of lists given by their elements. *)
Ltac split_at x k cont :=
  match k with
  | ?a :: ?k2 => let _ := constr:(eq_refl : a = x) in cont (@nil Block) k2
  | ?a :: ?k' => split_at x k' ltac:(fun p q => cont (a :: p) q)
  end.
Ltac perm :=
  first [reflexivity |
  match goal with
  | |- ?x :: ?l ≡ₚ ?k => split_at x k ltac:(fun p q => apply (Permutation_cons_app p q x); cbn [app]); perm
  end].

Section Acquire.
Context `{IO : RteIo}.

(** [c] takes [bs] and returns [v], or it fails. *)
Definition takes {A} (bs : list Block) (v : A) (c : ST Mem (option A)) : Prop :=
  forall m, wp c (fun r m' => io m' = io m /\ forall a, r = Some a -> a = v /\ blocks m' ≡ₚ (bs ++ blocks m)%list) m.

Lemma alloc_wp ok b (Q : option Block -> Mem -> Prop) m :
  (ok = true -> Q (Some b) (set_blocks (b :: blocks m) m)) -> (ok = false -> Q None m) -> wp (alloc ok b) Q m.
Proof. destruct ok; cbn; intros H1 H2; [by apply H1|by apply H2]. Qed.

(** A table whose memory cannot be had is left without any. *)
Lemma table_init_wp has i m :
  wp (table_init has i) (fun r m' => io m' = io m /\
    if r.1 then r.2 = table_ptr i /\ blocks m' = (KSlots, i) :: (KFreeStack, i) :: (KSessions, i) :: (KHash, i) :: blocks m
    else r.2 = Sess0 /\ blocks m' = blocks m) m.
Proof.
  unfold table_init. apply wp_bind, alloc_wp; intros _; [|done].
  do 3 (apply wp_bind, alloc_wp; intros _); try done;
    apply wp_bind; unfold destroy, wp, free, mbind, ST_bind, gets, deref, modify, mret, ST_ret, set_blocks, id; cbn; repeat (case_decide; simplify_eq; cbn); done.
Qed.

Lemma acquire_worker_takes has pl i : takes (worker_blocks (worker_ptr pl i)) (worker_ptr pl i) (acquire_worker has pl i).
Proof.
  intros m. unfold acquire_worker. apply wp_bind, alloc_wp; intros _; [|done].
  apply wp_bind, alloc_wp; intros _; [|done]. apply wp_bind. eapply wp_mono; [apply table_init_wp|].
  intros [ok t] m1 [Hio H]. cbn in H, Hio. destruct ok; [|done]. destruct H as [-> Hb].
  apply wp_bind, alloc_wp; intros _; [|done]. destruct pl; cbn [negb].
  - apply wp_bind, alloc_wp; intros _; [|done]. split; [done|]. intros a [= <-]. split; [done|]. cbn. rewrite Hb. perm.
  - split; [done|]. intros a [= <-]. split; [done|]. cbn. rewrite Hb. perm.
Qed.

Lemma acquire_workers_takes has pl ids :
  takes (workers_blocks (worker_ptr pl <$> ids)) (worker_ptr pl <$> ids) (acquire_workers has pl ids).
Proof.
  induction ids as [|i ids IH]; intros m; [split; [done|]; by intros a [= <-]|]. cbn [acquire_workers].
  apply wp_bind. eapply wp_mono; [apply acquire_worker_takes|]. intros [w|] m1 [Hio H]; [|done].
  destruct (H w eq_refl) as [-> Hb]. apply wp_bind. eapply wp_mono; [apply IH|]. intros r m2 [Hio2 H2].
  split; [congruence|]. intros a Ha. apply fmap_Some in Ha as (ws & -> & ->). destruct (H2 ws eq_refl) as [-> Hb2].
  split; [done|]. rewrite Hb2, Hb, !(assoc_L (++)). cbn [fmap list_fmap]. unfold workers_blocks. cbn.
  by rewrite (Permutation_app_comm (_ ≫= _)).
Qed.

(** With the port open and the pool created, a start that succeeds holds exactly
    the memory its pointers lead to, and the pool. *)
Lemma acquire_takes has pl nw m : blocks m = [(KPort, 0); (KPool, 0)] ->
  wp (acquire has pl nw) (fun r m' => io m' = io m /\ forall p, r = Some p ->
    p = dp_ptr pl nw 1 /\ blocks m' ≡ₚ (dp_blocks p ++ [(KPool, 0)])%list) m.
Proof.
  intros Hm. unfold acquire. do 4 (apply wp_bind, alloc_wp; intros _; [|try done]); [|done].
  apply wp_bind, alloc_wp; intros E; [clear E|done]. apply wp_bind. eapply wp_mono; [apply acquire_workers_takes|].
  intros [ws|] m1 [Hio H]; [|done]. destruct (H ws eq_refl) as [-> Hb]. cbn in Hb. rewrite Hm in Hb.
  apply wp_bind, alloc_wp; intros _; [|done]. destruct pl; cbn [negb].
  - apply wp_bind, alloc_wp; intros _; [|done]. split; [done|]. intros p [= <-]. split; [done|].
    unfold dp_blocks. rewrite <- (assoc_L (++)). cbn. rewrite Hb.
    etransitivity; [apply (Permutation_app_swap_app [(KReceiver, 0); (KMaster, 0)])|]. apply Permutation_app_head. cbn. perm.
  - split; [done|]. intros p [= <-]. split; [done|]. unfold dp_blocks. rewrite <- (assoc_L (++)). cbn. rewrite Hb.
    etransitivity; [apply (Permutation_app_swap_app [(KMaster, 0)])|]. apply Permutation_app_head. cbn. perm.
Qed.

End Acquire.
(** ** The threads end before their memory does *)

(** Which threads there can be while main is at [p]. *)
Definition may_live (p : Pc) (t : Thread) : bool :=
  match t, p with
  | TLcore _, (Launch _ | OwnLoop | WaitLcores) => true
  | TMaster, (Launch _ | OwnLoop | WaitLcores | JoinMaster) => true
  | TControl, (StartMaster | Launch _ | OwnLoop | WaitLcores | JoinMaster | StopControl | JoinControl) => true
  | _, _ => false
  end.

Definition stopping (p : Pc) : bool := match p with StartControl | StartMaster | Launch _ | OwnLoop => false | _ => true end.
Definition stop_set (p : Pc) : bool := match p with JoinControl | CleanUp | Finished => true | _ => false end.

Section LifeThms.
Context `{IO : RteIo} {IOL : RteIoLaws IO} {DQ : RteDequeue IO} {DL : RteDequeueLaws IO IOL DQ} {L : Libc}.
Context (pipeline : bool) (nw : Z).

Record LifeInv (s : Life) : Prop := {
  li_ptrs : exists v, ptrs s = dp_ptr pipeline nw v;
  li_alive t : t ∈ alive s -> may_live (pc s) t = true;
  li_master : TMaster ∈ alive s -> g_started s = true;
  li_control : TControl ∈ alive s -> started_ s = true;
  li_running : stopping (pc s) = true -> g_running s = false;
  li_stop : stop_set (pc s) = true -> stop_ s = true;
  li_mem : pc s <> Finished -> blocks (memory s) ≡ₚ (dp_blocks (ptrs s) ++ [(KPool, 0)])%list /\ LoggerThms.ready (logger s);
  li_end : pc s = Finished -> blocks (memory s) = [(KPool, 0)] /\ LoggerThms.closed (logger s) /\
    forall r, r ∈ d_workers (ptrs s) ≫= worker_rings -> queued r (io (memory s)) = 0%nat;
}.

Lemma end_log_closes l : LoggerThms.ready l -> wp end_log (fun _ l' => LoggerThms.closed l') l.
Proof.
  intros R. unfold end_log. apply wp_bind. eapply (wp_mono _ (fun _ => LoggerThms.ready)).
  - unfold eal_cleanup. apply wp_bind, wp_gets, wp_when; [|done]. intros _. apply wp_bind.
    eapply wp_mono; [by apply LoggerThms.cookie_close_ready|]. done.
  - intros [] l1 R1. apply wp_bind, wp_gets, wp_bind. eapply (wp_mono _ (fun _ => LoggerThms.ready)).
    + apply wp_when; [|done]. intros _. by apply LoggerThms.L4LB_LOG_ready.
    + intros [] l2 R2. by apply LoggerThms.shutdown_closes.
Qed.

Lemma cleanup_runs v m : blocks m ≡ₚ (dp_blocks (dp_ptr pipeline nw v) ++ [(KPool, 0)])%list ->
  exists m', cleanup (dp_ptr pipeline nw v) m = Some (tt, m') /\ blocks m' = [(KPool, 0)] /\ held (io m') = held (io m) /\
    forall r, r ∈ d_workers (dp_ptr pipeline nw v) ≫= worker_rings -> queued r (io m') = 0%nat.
Proof.
  intros Hm. pose proof (gb_cleanup (dp_ptr pipeline nw v) (KQsbr, 0) eq_refl [(KPool, 0)] m Hm ltac:(done)) as H.
  apply wp_run in H as ([] & m' & E & _ & Hb & Hh & Hr). exists m'. split; [done|].
  split; [by apply Permutation_singleton_r|]. split; [done|]. intros r Hin. apply Hr. by left.
Qed.

Lemma publish_mem v m p m' : publish (dp_ptr pipeline nw v) m = Some (p, m') ->
  blocks m ≡ₚ (dp_blocks (dp_ptr pipeline nw v) ++ [(KPool, 0)])%list ->
  p = dp_ptr pipeline nw (v + 1) /\ blocks m' ≡ₚ (dp_blocks p ++ [(KPool, 0)])%list.
Proof.
  intros Hp Hm. assert (W : wp (publish (dp_ptr pipeline nw v)) (fun p m' => p = dp_ptr pipeline nw (v + 1) /\
    blocks m' ≡ₚ (dp_blocks p ++ [(KPool, 0)])%list) m); [|unfold wp in W; by rewrite Hp in W].
  unfold publish. apply wp_bind, alloc_wp; [|done]. intros _. cbn [version d_cur dp_ptr].
  set (m1 := set_blocks _ m). set (rest := (workers_blocks (worker_ptr pipeline <$> seqZ 0 nw) ++ [(KMaster, 0)] ++
    opt (d_receiver (dp_ptr pipeline nw v)) ++ [(KNeigh, 0); (KPort, 0); (KMasterRing, 0); (KHealthRing, 0); (KQsbr, 0)])%list).
  assert (Hd : forall u, dp_blocks (dp_ptr pipeline nw u) ≡ₚ (KSnapshot, u) :: rest).
  { intros u. unfold dp_blocks, rest. cbn [d_workers d_master d_receiver d_cur d_neigh d_master_ring d_health_ring d_qsbr dp_ptr opt].
    destruct pipeline; cbn [opt app]; rewrite (Permutation_middle (workers_blocks _)); apply Permutation_app_head; perm. }
  apply wp_bind. eapply wp_mono; [apply (gb_free (Some (KSnapshot, v)) ((KSnapshot, v + 1) :: rest ++ [(KPool, 0)])%list m1)|].
  - cbn. rewrite Hm, Hd. apply perm_swap.
  - by intros b ?%elem_of_nil.
  - intros [] m2 (_ & Hb & _). split; [done|]. change (mkDpPtr _ _ _ _ _ _ _ _) with (dp_ptr pipeline nw (v + 1)). by rewrite Hb, Hd.
Qed.

Lemma works_inv s s' : LifeInv s -> works s s' -> LifeInv s' /\ measure pipeline nw s' = measure pipeline nw s.
Proof.
  intros [[v H1] H2 H3 H4 H5 H6 H7 H8] W.
  destruct W as [x s Hx|l s Hl R|p m s Hc Hp|s]; (split; [|done]); split; cbn; try done; eauto.
  - intros Hf. exfalso. destruct Hx as [Hx|Hx]; [|congruence]. destruct (alive s) as [|t l] eqn:E; [done|].
    specialize (H2 t ltac:(left)). rewrite Hf in H2. by destruct t.
  - intros Hn. by destruct (H7 Hn).
  - rewrite H1 in Hp. destruct (decide (pc s = Finished)) as [Hf|Hf]; [specialize (H2 _ Hc); by rewrite Hf in H2|].
    destruct (H7 Hf) as [Hb _]. rewrite H1 in Hb. destruct (publish_mem v _ _ _ Hp Hb) as [-> _]. by eexists.
  - intros Hf. rewrite H1 in Hp. destruct (H7 Hf) as [Hb Hl]. rewrite H1 in Hb. by destruct (publish_mem v _ _ _ Hp Hb).
  - intros Hf. specialize (H2 _ Hc). by rewrite Hf in H2.
Qed.

(** A thread that ends is gone. *)
Lemma alive_ends t s : t ∈ alive s -> (List.length (filter (fun x => x <> t) (alive s)) < List.length (alive s))%nat.
Proof. intros H. apply length_filter_lt with t; [done|]. by intros Hn. Qed.

(** A step that leaves memory and log alone. *)
Lemma life_quiet s s' : LifeInv s -> pc s <> Finished -> pc s' <> Finished ->
  ptrs s' = ptrs s -> memory s' = memory s -> logger s' = logger s ->
  (forall t, t ∈ alive s' -> may_live (pc s') t = true) ->
  (TMaster ∈ alive s' -> g_started s' = true) -> (TControl ∈ alive s' -> started_ s' = true) ->
  (stopping (pc s') = true -> g_running s' = false) -> (stop_set (pc s') = true -> stop_ s' = true) -> LifeInv s'.
Proof.
  intros I Hf Hf' E1 E2 E3 A1 A2 A3 A4 A5. split; try done; [rewrite E1; apply (li_ptrs _ I)|].
  intros _. rewrite E1, E2, E3. by apply (li_mem _ I).
Qed.

Lemma ends_inv t s : LifeInv s -> t ∈ alive s -> let s' := set_alive (filter (fun x => x <> t) (alive s)) s in
  LifeInv s' /\ (measure pipeline nw s' < measure pipeline nw s)%nat /\ (pc s = CleanUp -> held (io (memory s')) = held (io (memory s))).
Proof.
  intros I Ht s'. split; [|split; [unfold s', measure; pose proof (alive_ends t s Ht); cbn; lia|done]].
  assert (Hsub : forall x, x ∈ alive s' -> x ∈ alive s) by (by intros x [_ Hx]%list_elem_of_filter).
  pose proof (li_alive _ I t Ht) as Hp. assert (Hf : pc s <> Finished) by (intros Hf; rewrite Hf in Hp; by destruct t).
  apply (life_quiet _ _ I); try done.
  - intros x Hx. apply (li_alive _ I x), Hsub, Hx.
  - intros Hx. apply (li_master _ I), Hsub, Hx.
  - intros Hx. apply (li_control _ I), Hsub, Hx.
  - apply (li_running _ I).
  - apply (li_stop _ I).
Qed.

(** The threads alive after a step are old ones or the new one. *)
Ltac threads I E :=
  cbn; lazymatch goal with |- forall t : Thread, _ => intros ? | _ => idtac end; let H := fresh in intros H; rewrite ?elem_of_cons, ?list_elem_of_filter in H; destruct_and?; destruct_or?; simplify_eq/=; try done;
  match goal with A : _ ∈ alive _ |- _ =>
    pose proof (li_alive _ I _ A) as B; rewrite ?E in B; try done; try exact (li_master _ I A); try exact (li_control _ I A)
  end; repeat match goal with t : Thread |- _ => destruct t end; done.

Ltac quiet I E := apply (life_quiet _ _ I); [by rewrite E|done|done|done|done|threads I E|try threads I E|try threads I E|try done|try done].

Lemma moves_inv s s' : LifeInv s -> moves pipeline nw s s' ->
  LifeInv s' /\ (measure pipeline nw s' < measure pipeline nw s)%nat /\ (pc s = CleanUp -> held (io (memory s')) = held (io (memory s))).
Proof.
  intros I M.
  destruct M as [ok s E|ok s E|i ids ok s E|s E|s E R|s E F|s E G|s E|s E G|s m l E C F|t s Ht Hn R|s Ht Hs].
  - split; [|split; [unfold measure; destruct ok; cbn; rewrite E; cbn; lia|by rewrite E]]. destruct ok; quiet I E.
  - split; [|split; [unfold measure; destruct ok; cbn; rewrite E; cbn; lia|by rewrite E]]. destruct ok; quiet I E.
  - split; [|split; [unfold measure; destruct ok; cbn; rewrite E; cbn; lia|by rewrite E]]. destruct ok; quiet I E.
  - split; [|split; [unfold measure; cbn; rewrite E; cbn; lia|by rewrite E]]. quiet I E.
  - split; [|split; [unfold measure; cbn; rewrite E; cbn; lia|by rewrite E]]. quiet I E.
  - split; [|split; [unfold measure; cbn; rewrite E; cbn; lia|by rewrite E]]. rewrite Forall_forall in F.
    pose proof (li_running _ I) as R. rewrite E in R.
    apply (life_quiet _ _ I); [by rewrite E|done|done|done|done| |threads I E|threads I E|by intros _; apply R|done].
    cbn. intros t Ht. pose proof (li_alive _ I t Ht) as B. rewrite E in B. pose proof (F t Ht). by destruct t.
  - split; [|split; [unfold measure; cbn; rewrite E; cbn; lia|by rewrite E]].
    pose proof (li_running _ I) as R. rewrite E in R.
    assert (Hm : TMaster ∉ alive s) by (intros Hin; by apply (G (li_master _ I Hin))).
    apply (life_quiet _ _ I); [by rewrite E|done|done|done|done| |done|threads I E|by intros _; apply R|done].
    cbn. intros t Ht. pose proof (li_alive _ I t Ht) as B. rewrite E in B. by destruct t.
  - split; [|split; [unfold measure; cbn; rewrite E; cbn; lia|by rewrite E]].
    pose proof (li_running _ I) as R. rewrite E in R.
    apply (life_quiet _ _ I); [by rewrite E|done|done|done|done|threads I E|threads I E|threads I E|by intros _; apply R|done].
  - split; [|split; [unfold measure; cbn; rewrite E; cbn; lia|by rewrite E]].
    pose proof (li_running _ I) as R. pose proof (li_stop _ I) as S. rewrite E in R, S.
    assert (Hc : TControl ∉ alive s) by (intros Hin; by apply (G (li_control _ I Hin))).
    apply (life_quiet _ _ I); [by rewrite E|done|done|done|done| |threads I E|done|by intros _; apply R|by intros _; apply S].
    cbn. intros t Ht. pose proof (li_alive _ I t Ht) as B. rewrite E in B. by destruct t.
  - destruct (li_ptrs _ I) as [v H1]. destruct (li_mem _ I) as [Hm Hl]; [by rewrite E|]. rewrite H1 in C, Hm.
    destruct (cleanup_runs v (memory s) Hm) as (m' & C' & Hb & Hh & Hr). rewrite C in C'. injection C' as <-.
    destruct (proj1 (wp_run _ _ _) (end_log_closes _ Hl)) as ([] & l' & F' & Hl'). rewrite F in F'. injection F' as <-.
    pose proof (li_running _ I) as R. pose proof (li_stop _ I) as S. rewrite E in R, S.
    split; [|split; [unfold measure; cbn; rewrite E; cbn; lia|done]].
    split; cbn; [by eexists|threads I E|threads I E|threads I E|by intros _; apply R|by intros _; apply S|done|]. intros _. by rewrite H1.
  - by apply ends_inv.
  - by apply ends_inv.
Qed.

Lemma runs_inv s0 s : LifeInv s0 -> runs pipeline nw s0 s -> LifeInv s.
Proof. intros I. induction 1 as [|s s' _ IH M|s s' _ IH W]; [done|by apply (moves_inv s s' IH M)|by apply (works_inv s s' IH W)]. Qed.

(** Once g_running is cleared something can move until main has finished. *)
Lemma can_move s : LifeInv s -> g_running s = false -> pc s <> Finished -> exists s', moves pipeline nw s s'.
Proof.
  intros I R Hf. destruct (pc s) eqn:E; try done.
  - eexists. by apply (m_control _ _ true).
  - eexists. by apply (m_master _ _ true).
  - destruct ids as [|i ids]; eexists; [by apply m_launched|by eapply (m_launch _ _ i ids true)].
  - eexists. by apply m_own.
  - destruct (decide (Forall (fun t => is_lcore t = false) (alive s))) as [F|F]; [eexists; by apply m_wait|].
    apply not_Forall_Exists in F; [|apply _]. apply Exists_exists in F as (t & Ht & Hl). eexists.
    apply (m_loop_ends _ _ t); [done|intros ->; by apply Hl|done].
  - destruct (decide (TMaster ∈ alive s)) as [A|A]; eexists; [by apply (m_loop_ends _ _ TMaster)|by apply m_join].
  - eexists. by apply m_stop.
  - destruct (decide (TControl ∈ alive s)) as [A|A]; eexists; [|by apply m_stopped].
    apply m_control_ends; [done|]. apply (li_stop _ I). by rewrite E.
  - destruct (li_ptrs _ I) as [v H1]. destruct (li_mem _ I) as [Hm Hl]; [by rewrite E|]. rewrite H1 in Hm.
    destruct (cleanup_runs v (memory s) Hm) as (m & C & _). rewrite <- H1 in C.
    destruct (proj1 (wp_run _ _ _) (end_log_closes _ Hl)) as ([] & l & F & _). eexists. by eapply m_clean.
Qed.

Lemma finished_alone s : LifeInv s -> pc s = CleanUp \/ pc s = Finished -> alive s = [].
Proof.
  intros I Hp. destruct (alive s) as [|t l] eqn:A; [done|]. pose proof (li_alive _ I t ltac:(rewrite A; left)) as H.
  destruct Hp as [-> | ->] in H; by destruct t.
Qed.

(** ** No block is there twice *)

Lemma worker_blocks_idx i b : b ∈ worker_blocks (worker_ptr pipeline i) ->
  b.2 = i /\ b.1 ∈ [KHash; KSessions; KFreeStack; KSlots; KRedirect; KRx; KRsStats; KCtx].
Proof.
  destruct pipeline; cbn; intros H; repeat (apply elem_of_cons in H as [->|H]; [split; [done|cbn; set_solver]|]); by apply elem_of_nil in H.
Qed.

Lemma dp_blocks_nodup v : NoDup (dp_blocks (dp_ptr pipeline nw v) ++ [(KPool, 0)])%list.
Proof.
  unfold dp_blocks. rewrite <- (assoc_L (++)). apply NoDup_app. split; [|split].
  - unfold workers_blocks. cbn. rewrite list_fmap_bind. apply NoDup_bind; [| |apply NoDup_seqZ].
    + intros i j b _ _ [Hi _]%worker_blocks_idx [Hj _]%worker_blocks_idx. congruence.
    + intros i _. destruct pipeline; cbn; repeat (constructor; [set_solver|]); constructor.
  - intros b (w & Hw & (i & -> & _)%list_elem_of_fmap)%list_elem_of_bind. apply worker_blocks_idx in Hw as [_ Hw].
    destruct b as [k i']. cbn in Hw. destruct pipeline; cbn; set_solver.
  - destruct pipeline; cbn; repeat (constructor; [set_solver|]); constructor.
Qed.

End LifeThms.
(** C11. Shutting down is orderly and complete, in every interleaving of main, the
    control thread, the master and the lcores, whatever start-up and the threads
    did and whichever of them could be created: no block of memory is released
    while a thread is alive, and none twice; once g_running is cleared something
    can always move until main has finished, and every move brings that nearer
    whatever the threads do in between; the clean-up frees exactly the packets it
    finds in the workers' rings; at the end no thread is left, the rings are empty,
    everything start-up took but the packet pool is given back and the log is
    written out and closed. *)
Theorem shutdown_complete `{IO : RteIo} {IOL : RteIoLaws IO} {DQ : RteDequeue IO} {DL : RteDequeueLaws IO IOL DQ} {L : Libc}
    has pipeline nw m0 p m1 log run s :
  blocks m0 = [(KPort, 0); (KPool, 0)] -> acquire has pipeline nw m0 = Some (Some p, m1) -> LoggerThms.ready log ->
  runs pipeline nw (mkLife StartControl run false [] false false p m1 log) s ->
  NoDup (blocks (memory s)) /\
  (alive s <> [] \/ pc s = OwnLoop -> forall b, b ∈ dp_blocks (ptrs s) -> b ∈ blocks (memory s)) /\
  (g_running s = false -> pc s <> Finished -> exists s', moves pipeline nw s s') /\
  (forall s', moves pipeline nw s s' -> (measure pipeline nw s' < measure pipeline nw s)%nat /\
     (pc s = CleanUp -> alive s = [] /\ held (io (memory s')) = held (io (memory s)))) /\
  (forall s', works s s' -> measure pipeline nw s' = measure pipeline nw s) /\
  (pc s = Finished -> alive s = [] /\ blocks (memory s) = [(KPool, 0)] /\ LoggerThms.closed (logger s) /\
     forall w r, w ∈ d_workers (ptrs s) -> r ∈ worker_rings w -> queued r (io (memory s)) = 0%nat).
Proof.
  intros Hb Ha Hl Hr. pose proof (acquire_takes has pipeline nw m0 Hb) as W. unfold wp in W. rewrite Ha in W.
  destruct W as [_ W]. destruct (W p eq_refl) as [-> Hm]. clear W.
  assert (I : LifeInv pipeline nw s).
  { eapply runs_inv; [|exact Hr]. split; cbn; try done; [by eexists|by intros t ?%elem_of_nil|by intros ?%elem_of_nil|by intros ?%elem_of_nil]. }
  assert (Hf : pc s <> Finished -> blocks (memory s) ≡ₚ (dp_blocks (ptrs s) ++ [(KPool, 0)])%list) by apply (li_mem _ _ _ I).
  split; [|split; [|split; [|split; [|split]]]].
  - destruct (decide (pc s = Finished)) as [E|E]; [destruct (li_end _ _ _ I E) as [-> _]; apply NoDup_singleton|].
    rewrite (Hf E). destruct (li_ptrs _ _ _ I) as [v ->]. apply dp_blocks_nodup.
  - intros Hs b Hin. rewrite Hf; [apply elem_of_app; by left|]. intros E. destruct Hs as [Hs|Hs]; [|congruence].
    apply Hs. apply (finished_alone pipeline nw s I). by right.
  - intros R E. by apply can_move.
  - intros s' M. destruct (moves_inv pipeline nw s s' I M) as (_ & Hd & Hh). split; [done|].
    intros E. split; [apply (finished_alone pipeline nw s I); by left|by apply Hh].
  - intros s' W. by apply (works_inv pipeline nw s s' I W).
  - intros E. destruct (li_end _ _ _ I E) as (Hb' & Hc & Hq). split; [apply (finished_alone pipeline nw s I); by right|].
    split; [done|]. split; [done|]. intros w r Hw Hin. apply Hq. apply list_elem_of_bind. eauto.
Qed.

(** *** Two workers, with packets left in a ring *)

#[local] Instance ring_eq_dec : EqDecision ring.
Proof. solve_decision. Defined.

Record Queues := mkQueues { q_of : ring -> list Mbuf; q_held : Z }.

#[local] Instance q_io : RteIo := {|
  world := Queues;
  rte_eth_rx_burst q x := ([], x);
  rte_eth_tx_burst q l x := (len l, mkQueues (q_of x) (q_held x - len l));
  rte_ring_mp_enqueue r m x := (false, x);
  rte_ring_sp_enqueue_burst r l x := (0, x);
  rte_ring_sc_dequeue_burst r x := ([], x);
  rte_pktmbuf_free m x := mkQueues (q_of x) (q_held x - 1);
  rte_rdtsc x := (0, x)
|}.

#[local] Instance q_laws : RteIoLaws q_io.
Proof.
  refine {| held := q_held : @world q_io -> Z; clock := fun _ => 0 |}; cbn.
  - intros x. unfold is_u64. lia.
  - intros q x l x' [= <- <-]. unfold BURST_SIZE, len. cbn. repeat split; [lia|constructor|lia|lia].
  - intros q l x n x' [= <- <-]. pose proof (len_nonneg l). cbn. lia.
  - intros r m x b x' [= <- <-]. lia.
  - intros r l x n x' [= <- <-]. pose proof (len_nonneg l). lia.
  - intros r x l x' [= <- <-]. unfold BURST_SIZE, len. cbn. repeat split; [lia|constructor|lia|lia].
  - intros m x. lia.
  - intros x n x' [= <- <-]. lia.
Defined.

#[local] Instance q_dequeue : RteDequeue q_io := {|
  rte_ring_sc_dequeue r x :=
    match take 4095 (q_of x r) with
    | [] => (None, x)
    | m :: l => (Some m, mkQueues (fun r' => if decide (r' = r) then l else q_of x r') (q_held x + 1))
    end
|}.

#[local] Instance q_dequeue_laws : RteDequeueLaws q_io q_laws q_dequeue.
Proof.
  refine {| queued := fun r (x : @world q_io) => List.length (take 4095 (q_of x r)) |}; cbn [rte_ring_sc_dequeue q_dequeue].
  - intros r x. rewrite length_take. unfold REDIRECT_RING_SIZE, RX_RING_ELEMS. lia.
  - intros r x m x'. pose proof (length_take (q_of x r) 4095) as Hl. destruct (take 4095 (q_of x r)) as [|m' l]; [done|].
    intros [= <- <-]. cbn [List.length q_of held q_laws q_held] in Hl |- *. rewrite decide_True by done. split; [rewrite length_take; lia|]. split; [lia|].
    intros r' Hr. by rewrite decide_False.
  - intros r x x'. destruct (take 4095 (q_of x r)); [|done]. by intros [= <-].
  - done.
Defined.

#[local] Instance q_libc : Libc := { strerror := fun _ => EmptyString }.

Definition q_packet : Mbuf := mkMbuf [] 0 1 0 0 0 0 0 0.
Definition q_full : Queues := mkQueues (fun r => if decide (r = REDIRECT_RING 1) then [q_packet; q_packet] else []) 0.
Definition q_mem : Mem (IO := q_io) := mkMem (IO := q_io) [(KPort, 0); (KPool, 0)] (mkQueues (fun _ => []) 0).
Definition q_start : option (option DpPtr * Mem (IO := q_io)) := acquire (fun _ => true) false 2 q_mem.

(** One move more. *)
Tactic Notation "follow" open_constr(c) hyp(H) :=
  let J := fresh in pose proof (r_moves _ _ _ _ _ H c) as J; clear H; rename J into H.

(** All threads are created, a signal comes and everything ends. *)
Lemma shutdown_complete_witness : exists p m1 s, q_start = Some (Some p, m1) /\
  runs false 2 (mkLife StartControl true false [] false false p m1 main_log) s /\ pc s = Finished /\
  blocks (memory s) = [(KPool, 0)] /\ q_held (io (memory s)) = 0.
Proof.
  destruct q_start as [[[p|] m1]|] eqn:E; [|vm_compute in E; discriminate|vm_compute in E; discriminate].
  exists p, m1. unfold q_start in E. set (s0 := mkLife StartControl true false [] false false p m1 main_log).
  pose proof (r_refl false 2 s0) as H.
  follow (m_control false 2 true _ _) H. follow (m_master false 2 true _ _) H.
  follow (m_launch false 2 1 [] true _ _) H. follow (m_launched false 2 _ _) H.
  match type of H with runs _ _ _ ?x => pose proof (r_works _ _ _ _ _ H (w_io q_full x (or_intror eq_refl))) as H' end. clear H. rename H' into H.
  match type of H with runs _ _ _ ?x => pose proof (r_works _ _ _ _ _ H (w_signal x)) as H' end. clear H. rename H' into H.
  follow (m_own false 2 _ _ _) H. follow (m_loop_ends false 2 (TLcore 1) _ _ _ _) H. follow (m_wait false 2 _ _ _) H.
  follow (m_loop_ends false 2 TMaster _ _ _ _) H. follow (m_join false 2 _ _ _) H. follow (m_stop false 2 _ _) H.
  follow (m_control_ends false 2 _ _ _) H. follow (m_stopped false 2 _ _ _) H. rename H into H14.
  match type of H14 with runs _ _ _ ?x => set (s14 := x) in H14 end.
  destruct (shutdown_complete (fun _ => true) false 2 q_mem p m1 main_log true s14 eq_refl E (or_intror main_closed) H14)
    as (_ & _ & Hmove & Hdown & _).
  destruct (Hmove eq_refl ltac:(discriminate)) as [s M]. destruct (Hdown s M) as [_ Hh].
  pose proof (r_moves _ _ _ _ _ H14 M) as H15. exists s. split; [reflexivity|]. split; [exact H15|].
  assert (F : pc s = Finished).
  { inversion M; subst; try discriminate; try reflexivity; exfalso; vm_compute in H0; set_solver. }
  split; [exact F|].
  destruct (shutdown_complete (fun _ => true) false 2 q_mem p m1 main_log true s eq_refl E (or_intror main_closed) H15)
    as (_ & _ & _ & _ & _ & Hend).
  split; [apply (Hend F)|]. exact (proj2 (Hh eq_refl)).
  Unshelve. all: solve [reflexivity | discriminate | vm_compute; repeat constructor | vm_compute; set_solver].
Defined.

End Shutdown.
