(* ===== verification/RsEpoll.v ===== *)
(** RsEpoll: the real server of RS_Src/epoll_server/simple_server_mt.c, against
    which the load balancer is measured.

    The kernel is a parameter ([Sockets]): which descriptors are open and watched
    is its state.  Using a descriptor that is not open is undefined behaviour
    ([None]).  The model of a thread keeps what it has sent. *)
From S2P Require Import Prelude Types Mem Processor Text Print Stdio Logger.
From Stdlib Require Import String Ascii.
Import Text Print Processor.

(** ** The kernel *)

(** Calls that only prepare the listening socket. *)
Inductive PrepCall := Socket | SetReuseAddr (fd : Z) | SetReusePort (fd : Z) | BindPort (fd port : Z) | Listen (fd backlog : Z)
| GetFlags (fd : Z) | SetNonblock (fd : Z) | EpollCreate.

(** recv: some bytes (none at the end of the stream), or an error, which can be EAGAIN. *)
Inductive Received := Data (l : list Z) | Error (eagain : bool).

Class Sockets := {
  net : Type;
  is_open : net -> Z -> bool;
  prepare : PrepCall -> net -> Z * net;
  sys_accept : Z -> net -> Z * net;
  sys_recv : Z -> Z -> net -> Received * net;
  sys_send : Z -> list Z -> net -> Z * net;
  sys_close : Z -> net -> net;
  epoll_add : Z -> net -> Z * net;
  epoll_wait : Z -> net -> list Z * net
}.

(** Documented behaviour: accept returns the number of a descriptor that was not
    open, below the limit on open files; a closed descriptor is not watched any
    more; each ready descriptor is reported once. *)
Class SocketsLaws (K : Sockets) := {
  open_files : Z;
  conns : net -> gset Z;
  watched : net -> gset Z;
  is_open_spec x fd : is_open x fd = true <-> fd ∈ conns x;
  conns_limit x fd : fd ∈ conns x -> 0 <= fd < open_files;
  prepare_spec c x n x' : prepare c x = (n, x') -> conns x' = conns x /\ watched x' = watched x;
  bind_invalid fd port x n x' : prepare (BindPort fd port) x = (n, x') -> fd < 0 -> n < 0;
  accept_spec fd x n x' : sys_accept fd x = (n, x') ->
    watched x' = watched x /\ (if decide (n < 0) then conns x' = conns x else n <> fd /\ n ∉ conns x /\ conns x' = {[n]} ∪ conns x);
  recv_spec fd size x r x' : sys_recv fd size x = (r, x') ->
    conns x' = conns x /\ watched x' = watched x /\ (forall l, r = Data l -> len l <= size);
  send_spec fd l x n x' : sys_send fd l x = (n, x') -> conns x' = conns x /\ watched x' = watched x /\ n <= len l;
  close_spec fd x : conns (sys_close fd x) = conns x ∖ {[fd]} /\ watched (sys_close fd x) = watched x ∖ {[fd]};
  add_spec fd x n x' : epoll_add fd x = (n, x') -> conns x' = conns x /\ watched x' = (if decide (n < 0) then watched x else {[fd]} ∪ watched x);
  wait_spec size x l x' : epoll_wait size x = (l, x') ->
    conns x' = conns x /\ watched x' = watched x /\ NoDup l /\ len l <= Z.max 0 size /\ (forall fd, fd ∈ l -> fd ∈ watched x)
}.

Module RsEpoll.

Definition PORT : Z := 80.
Definition MAX_EVENTS : Z := 1024.

Definition CR : ascii := "013"%char.
Definition LF : ascii := "010"%char.
Definition crlf : string := String CR (String LF EmptyString).

Definition response : string :=
  Logger.cat ["HTTP/1.1 200 OK"; crlf; "Content-Length: 2"; crlf; "Connection: keep-alive"; crlf; crlf; "OK"]%string.
Definition response_len : nat := 64.

Definition bytes_of (s : string) : list Z := code <$> String.list_ascii_of_string s.

(** ** Requests in a buffer *)

(** The loop over j; a read beyond [buffer] is undefined. *)
Fixpoint count_loop (n : nat) (j : nat) (buffer : list Z) (num : Z) : option Z :=
  match n with
  | O => Some num
  | S n =>
    a ← buffer !! j; b ← buffer !! (j + 1)%nat; c ← buffer !! (j + 2)%nat; d ← buffer !! (j + 3)%nat;
    count_loop n (j + 1) buffer (if (a =? 13) && (b =? 10) && (c =? 13) && (d =? 10) then num + 1 else num)
  end.

(** j = 0 .. len - 4, and at least one request. *)
Definition num_requests (buffer : list Z) : option Z :=
  n ← count_loop (Z.to_nat (len buffer - 3)) 0 buffer 0;
  Some (if n =? 0 then 1 else n).

Section Thread.
Context {K : Sockets}.

Record EState := mkE {
  e_net : net;
  total_requests : Z;
  e_sent : list (Z * list Z * Z);   (** descriptor, bytes and result of every send, newest first *)
}.

Definition sys {A} (f : net -> A * net) : ST EState A :=
  fun s => let '(a, x) := f (e_net s) in Some (a, mkE x (total_requests s) (e_sent s)).

(** A call on a connection's descriptor. *)
Definition on_fd {A} (fd : Z) (f : net -> A * net) : ST EState A :=
  s ← gets id; if is_open (e_net s) fd then sys f else fault.

Definition close (fd : Z) : ST EState unit := on_fd fd (fun x => (tt, sys_close fd x)).

Definition set_nonblock (fd : Z) : ST EState unit :=
  sys (prepare (GetFlags fd)) ;; sys (prepare (SetNonblock fd)) ;; mret tt.

(** Up to the loop: [None] if bind failed. *)
Definition listen_socket : ST EState (option Z) :=
  server_fd ← sys (prepare Socket);
  sys (prepare (SetReuseAddr server_fd)) ;;
  sys (prepare (SetReusePort server_fd)) ;;
  r ← sys (prepare (BindPort server_fd PORT));
  if r <? 0 then mret None
  else
    sys (prepare (Listen server_fd 4096)) ;;
    set_nonblock server_fd ;;
    sys (prepare EpollCreate) ;;
    sys (epoll_add server_fd) ;;
    mret (Some server_fd).

(** Accept all pending connections. *)
Fixpoint accept_loop (fuel : nat) (server_fd : Z) : ST EState unit :=
  match fuel with
  | O => fault
  | S fuel =>
    client_fd ← sys (sys_accept server_fd);
    if client_fd <? 0 then mret tt
    else set_nonblock client_fd ;; sys (epoll_add client_fd) ;; accept_loop fuel server_fd
  end.

Definition send_one (fd : Z) : ST EState Z :=
  let buf := take response_len (bytes_of response) in
  n ← on_fd fd (sys_send fd buf);
  modify (fun s => mkE (e_net s) (total_requests s) ((fd, buf, n) :: e_sent s)) ;;
  mret n.

(** One response per request; a failed send closes the connection. *)
Fixpoint respond (n : nat) (fd : Z) : ST EState bool :=
  match n with
  | O => mret true
  | S n => sent ← send_one fd; if sent <=? 0 then close fd ;; mret false else respond n fd
  end.

Definition serve (fd : Z) : ST EState unit :=
  r ← on_fd fd (sys_recv fd 4096);
  match r with
  | Data [] => close fd
  | Data buffer =>
    n ← deref (num_requests buffer);
    ok ← respond (Z.to_nat n) fd;
    when ok (modify (fun s => mkE (e_net s) (u64 (total_requests s + n)) (e_sent s)))
  | Error eagain => when (negb eagain) (close fd)
  end.

Fixpoint handle_events (fuel : nat) (server_fd : Z) (events : list Z) : ST EState unit :=
  match events with
  | [] => mret tt
  | fd :: events =>
    (if fd =? server_fd then accept_loop fuel server_fd else serve fd) ;;
    handle_events fuel server_fd events
  end.

(** [rounds] times round the loop; [fuel] bounds the connections accepted at once. *)
Fixpoint worker_loop (fuel rounds : nat) (server_fd : Z) : ST EState unit :=
  match rounds with
  | O => mret tt
  | S rounds =>
    events ← sys (epoll_wait MAX_EVENTS);
    handle_events fuel server_fd events ;;
    worker_loop fuel rounds server_fd
  end.

Definition worker_thread (fuel rounds : nat) : ST EState unit :=
  fd ← listen_socket;
  match fd with None => mret tt | Some server_fd => worker_loop fuel rounds server_fd end.

End Thread.

(** ** The statistics thread *)

(** One second: what is printed, and the new last_requests. *)
Definition stats_round (current last : Z) : string * Z :=
  (Logger.cat ["[STATS] Total Requests: "; to_string current; ", QPS: "; to_string (u64 (current - last)); String LF EmptyString]%string, current).

Lemma response_length : List.length (bytes_of response) = response_len.
Proof. reflexivity. Qed.

(** The rates printed add up to the growth of the counter. *)
Fixpoint stats_rounds (last : Z) (readings : list Z) : list Z :=
  match readings with [] => [] | c :: readings => u64 (c - last) :: stats_rounds (stats_round c last).2 readings end.

Lemma stats_add_up last l : u64 (foldr Z.add 0 (stats_rounds last l)) = u64 (List.last l last - last).
Proof.
  revert last. induction l as [|c l IH]; intros last; [cbn; by rewrite Z.sub_diag|]. cbn [stats_rounds foldr stats_round snd].
  replace (List.last (c :: l) last) with (List.last l c) by (clear; revert c; induction l as [|x l IH]; intros c; [done|]; cbn; by destruct l).
  specialize (IH c). unfold u64 in *. rewrite Z.add_mod, IH, Z.mod_mod, <- Z.add_mod by lia. f_equal. lia.
Qed.

(** ** Counting requests *)

Definition blank : list Z := [13; 10; 13; 10].

(** Does the blank line start here? *)
Definition blank_at (l : list Z) : bool :=
  match l with
  | a :: b :: c :: d :: _ => (a =? 13) && (b =? 10) && (c =? 13) && (d =? 10)
  | _ => false
  end.

(** The reference: how often it occurs. *)
Fixpoint blanks (l : list Z) : Z :=
  match l with [] => 0 | _ :: t => (if blank_at l then 1 else 0) + blanks t end.

Lemma blanks_short l : (List.length l < 4)%nat -> blanks l = 0.
Proof. destruct l as [|a [|b [|c [|d l]]]]; cbn; done || lia. Qed.

Lemma blanks_nonneg l : 0 <= blanks l.
Proof. induction l as [|a l IH]; [done|]. cbn [blanks]. destruct (blank_at _); lia. Qed.

Lemma count_loop_blanks n j buffer num : (n + j + 3 = List.length buffer)%nat \/ (n = 0%nat /\ (List.length buffer < j + 4)%nat) ->
  count_loop n j buffer num = Some (num + blanks (skipn j buffer)).
Proof.
  revert j num. induction n as [|n IH]; intros j num H; cbn [count_loop].
  - rewrite blanks_short; [f_equal; lia|]. rewrite length_drop. lia.
  - destruct H as [H|[? _]]; [|done].
    destruct (lookup_lt_is_Some_2 buffer j ltac:(lia)) as [a Ha], (lookup_lt_is_Some_2 buffer (j + 1) ltac:(lia)) as [b Hb],
      (lookup_lt_is_Some_2 buffer (j + 2) ltac:(lia)) as [c Hc], (lookup_lt_is_Some_2 buffer (j + 3) ltac:(lia)) as [d Hd].
    rewrite Ha, Hb, Hc, Hd. cbn [mbind option_bind]. rewrite IH by (left; lia). f_equal.
    rewrite (drop_S buffer a j Ha). cbn [blanks]. replace (j + 1)%nat with (S j) in * by lia.
    rewrite (drop_S buffer b (S j) Hb), (drop_S buffer c (S (S j))), (drop_S buffer d (S (S (S j)))); try (rewrite <- ?Hc, <- ?Hd; f_equal; lia).
    cbn [blank_at]. destruct (_ && _); lia.
Qed.

(** A read stays inside the buffer, and what is counted are the blank lines. *)
Lemma num_requests_blanks buffer : num_requests buffer = Some (if blanks buffer =? 0 then 1 else blanks buffer).
Proof.
  unfold num_requests. rewrite count_loop_blanks; [by rewrite drop_0|]. unfold len. lia.
Qed.

(** A request: it ends with its only blank line and does not begin with an empty one. *)
Record is_request (r : list Z) : Prop := {
  rq_end : exists h, r = (h ++ blank)%list;
  rq_once : blanks r = 1;
  rq_start : take 2 r <> [13; 10];
}.

Lemma blank_at_app l k : (4 <= List.length l)%nat -> blank_at (l ++ k) = blank_at l.
Proof. destruct l as [|a [|b [|c [|d l]]]]; cbn; done || lia. Qed.

Lemma blanks_skip a l : blanks (a :: l) = (if blank_at (a :: l) then 1 else 0) + blanks l.
Proof. done. Qed.

Lemma blanks_lf l : blanks (10 :: l) = blanks l.
Proof. rewrite blanks_skip. by destruct l as [|b [|c [|d l]]]. Qed.

(** The blank lines of a request are not affected by what follows it. *)
Lemma blanks_app h k : take 2 k <> [13; 10] -> blanks ((h ++ blank) ++ k) = blanks (h ++ blank) + blanks k.
Proof.
  intros Hk. induction h as [|a h IH].
  - change (blanks (13 :: 10 :: 13 :: 10 :: k) = 1 + blanks k). rewrite (blanks_skip 13), blanks_lf, (blanks_skip 13), blanks_lf.
    replace (blank_at (13 :: 10 :: k)) with false; [done|]. destruct k as [|a [|b k]]; [done|done|]. cbn in Hk |- *.
    destruct (Z.eqb_spec a 13) as [->|]; [|done]. destruct (Z.eqb_spec b 10) as [->|]; done.
  - cbn [app blanks]. rewrite IH. change (a :: (h ++ blank) ++ k)%list with ((a :: h ++ blank) ++ k)%list.
    rewrite blank_at_app; [lia|]. cbn. rewrite length_app. cbn. lia.
Qed.

Lemma concat_start rs : Forall is_request rs -> take 2 (List.concat rs) <> [13; 10].
Proof.
  destruct 1 as [|r rs [[h ->] H1 H2] _]; [done|]. cbn [List.concat]. destruct h as [|a [|b h]]; [done|cbn in H2 |- *; congruence|exact H2].
Qed.

Lemma blanks_concat rs : Forall is_request rs -> blanks (List.concat rs) = len rs.
Proof.
  induction 1 as [|r rs Hr Hrs IH]; [done|]. cbn [List.concat]. pose proof (concat_start rs Hrs) as Hs.
  destruct Hr as [[h ->] H1 _]. rewrite blanks_app by done. rewrite H1, IH, len_cons. done.
Qed.

(** ** The thread *)

(** The bytes the kernel took, in the order they were sent. *)
Definition stream (sent : list (Z * list Z * Z)) : list Z :=
  List.concat ((fun p => take (Z.to_nat p.2) p.1.2) <$> rev sent).

(** A send of the whole response; what the kernel can say to it. *)
Definition response_to (fd : Z) (p : Z * list Z * Z) : Prop :=
  p.1 = (fd, bytes_of response) /\ p.2 <= Z.of_nat response_len.

Lemma stream_whole fd sent : Forall (response_to fd) sent -> Forall (fun p => p.2 = Z.of_nat response_len) sent ->
  stream sent = List.concat (replicate (List.length sent) (bytes_of response)).
Proof.
  intros H1 H2. unfold stream. rewrite <- (length_rev sent). apply Forall_rev in H1, H2.
  induction (rev sent) as [|[[f l] n] k IH]; [done|]. apply Forall_cons in H1 as [[[= -> ->] _] H1], H2 as [E H2].
  cbn in E |- *. rewrite E, IH by done. f_equal.
Qed.

(** A send that is cut short is noticed by nobody, and the stream is short. *)
Lemma stream_short fd sent : Forall (response_to fd) sent -> Forall (fun p => 0 < p.2) sent ->
  stream sent = List.concat (replicate (List.length sent) (bytes_of response)) ->
  Forall (fun p => p.2 = Z.of_nat response_len) sent.
Proof.
  intros H1 H2 E. unfold stream in E. rewrite <- (length_rev sent) in E. apply Forall_rev in H1, H2.
  rewrite <- (rev_involutive sent). apply Forall_rev. revert H1 H2 E. generalize (rev sent) as k.
  assert (L : forall k, Forall (response_to fd) k -> Forall (fun p => 0 < p.2) k ->
    (List.length (List.concat ((fun p : Z * list Z * Z => take (Z.to_nat p.2) p.1.2) <$> k)) <= response_len * List.length k)%nat).
  { induction k as [|[[f l] n] k IH]; [cbn; lia|]. intros [[[= -> ->] Hb] H1]%Forall_cons [Hp H2]%Forall_cons.
    specialize (IH H1 H2). rewrite fmap_cons. cbn [List.concat List.length fst snd] in *. rewrite length_app, length_take, response_length. lia. }
  assert (R : forall n, List.length (List.concat (replicate n (bytes_of response))) = (response_len * n)%nat).
  { induction n as [|n IH]; [done|]. cbn [replicate List.concat]. rewrite length_app, IH, response_length. lia. }
  intros k H1 H2 E. apply (f_equal (@List.length Z)) in E. rewrite R in E. induction k as [|[[f l] n] k IH]; [constructor|].
  apply Forall_cons in H1 as [[[= -> ->] Hb] H1], H2 as [Hp H2]. specialize (L k H1 H2).
  rewrite fmap_cons in E. cbn [List.concat List.length fst snd] in *. rewrite length_app, length_take, response_length in E.
  unfold response_len in *. constructor; [cbn; lia|]. apply IH; [done|done|lia].
Qed.

Section Thms.
Context {K : Sockets} {KL : SocketsLaws K}.

(** Connections are watched, and only they and the listening socket; all of them
    as long as epoll_ctl does not fail. *)
Record EInv (srv : Z) (s : EState) : Prop := {
  ei_srv : srv ∉ conns (e_net s);
  ei_watched : watched (e_net s) ⊆ conns (e_net s) ∪ {[srv]};
  ei_all : (forall fd x n x', epoll_add fd x = (n, x') -> 0 <= n) -> conns (e_net s) ⊆ watched (e_net s);
}.

Lemma conns_size x : (size (conns x) <= Z.to_nat open_files)%nat.
Proof.
  transitivity (size (list_to_set (seqZ 0 open_files) : gset Z)).
  - apply subseteq_size. intros fd Hfd%conns_limit. apply elem_of_list_to_set, elem_of_seqZ. lia.
  - rewrite size_list_to_set by apply NoDup_seqZ. by rewrite length_seqZ.
Qed.

Lemma sock_wp {A} (f : net -> A * net) (Q : A -> EState -> Prop) s :
  (forall a x, f (e_net s) = (a, x) -> Q a (mkE x (total_requests s) (e_sent s))) -> wp (sys f) Q s.
Proof. intros H. unfold wp, sys. destruct (f (e_net s)) as [a x]. by apply H. Qed.

Lemma on_fd_wp {A} fd (f : net -> A * net) (Q : A -> EState -> Prop) s : fd ∈ conns (e_net s) ->
  (forall a x, f (e_net s) = (a, x) -> Q a (mkE x (total_requests s) (e_sent s))) -> wp (on_fd fd f) Q s.
Proof.
  intros Hfd H. unfold on_fd. apply wp_bind, wp_gets. unfold id. rewrite (proj2 (is_open_spec _ _) Hfd). by apply sock_wp.
Qed.

(** The same descriptors. *)
Definition same (s s' : EState) : Prop := conns (e_net s') = conns (e_net s) /\ watched (e_net s') = watched (e_net s).

Lemma same_inv srv s s' : EInv srv s -> same s s' -> EInv srv s'.
Proof. intros [H1 H2 H3] [E1 E2]. split; rewrite ?E1, ?E2; done. Qed.

Lemma set_nonblock_wp fd (Q : unit -> EState -> Prop) s :
  (forall s', same s s' -> total_requests s' = total_requests s -> e_sent s' = e_sent s -> Q tt s') -> wp (set_nonblock fd) Q s.
Proof.
  intros H. unfold set_nonblock. apply wp_bind, sock_wp. intros a x [C1 W1]%prepare_spec. apply wp_bind, sock_wp.
  intros b y [C2 W2]%prepare_spec. apply H; [|done|done]. split; cbn in *; congruence.
Qed.

Lemma close_wp srv fd s : EInv srv s -> fd ∈ conns (e_net s) ->
  wp (close fd) (fun _ s' => EInv srv s' /\ conns (e_net s') = conns (e_net s) ∖ {[fd]} /\ total_requests s' = total_requests s /\ e_sent s' = e_sent s) s.
Proof.
  intros [H1 H2 H3] Hfd. unfold close. apply on_fd_wp; [done|]. intros [] x [= <-]. destruct (close_spec fd (e_net s)) as [C W]. cbn.
  rewrite C. split; [|done]. split; cbn; rewrite ?C, ?W; [set_solver|set_solver|]. intros Ha. specialize (H3 Ha). set_solver.
Qed.

Lemma accept_loop_wp srv fuel s : EInv srv s -> (Z.to_nat open_files < fuel + size (conns (e_net s)))%nat ->
  wp (accept_loop fuel srv) (fun _ s' => EInv srv s' /\ conns (e_net s) ⊆ conns (e_net s') /\ e_sent s' = e_sent s) s.
Proof.
  revert s. induction fuel as [|fuel IH]; intros s I Hf; [pose proof (conns_size (e_net s)); lia|]. cbn [accept_loop].
  apply wp_bind, sock_wp. intros n x [W C]%accept_spec. destruct I as [H1 H2 H3]. destruct (Z.ltb_spec n 0) as [Hn|Hn].
  - rewrite decide_True in C by done. split; [split; cbn; rewrite ?C, ?W; done|]. cbn. by rewrite C.
  - rewrite decide_False in C by lia. destruct C as (Hs & Hin & C). apply wp_bind, set_nonblock_wp. intros s1 [E1 E2] _ Es. cbn in E1, E2, Es.
    apply wp_bind, sock_wp. intros r y Ea. destruct (add_spec _ _ _ _ Ea) as [C2 W2]. eapply wp_mono; [apply IH|].
    + split; cbn; rewrite C2, E1, C; [set_solver| |].
      * rewrite W2. destruct (decide (r < 0)); rewrite E2, W; set_solver.
      * intros Ha. specialize (H3 Ha). rewrite W2. destruct (decide (r < 0)); rewrite E2, W; [|set_solver].
        pose proof (Ha _ _ _ _ Ea). lia.
    + cbn. rewrite C2, E1, C, size_union, size_singleton by set_solver. lia.
    + intros [] s2 (I2 & S2 & Hs2). split; [done|]. cbn in *. split; [set_solver|congruence].
Qed.

(** What [n] responses to [fd] come to: all are sent, or the last send failed and
    the connection is closed. *)
Definition responded (fd : Z) (n : nat) (ok : bool) (s s' : EState) : Prop :=
  total_requests s' = total_requests s /\
  exists news, e_sent s' = (news ++ e_sent s)%list /\ Forall (response_to fd) news /\
    if ok then List.length news = n /\ Forall (fun p => 0 < p.2) news /\ conns (e_net s') = conns (e_net s)
    else (List.length news <= n)%nat /\ (exists p, head news = Some p /\ p.2 <= 0) /\ conns (e_net s') = conns (e_net s) ∖ {[fd]}.

Lemma respond_wp srv n fd s : EInv srv s -> fd ∈ conns (e_net s) ->
  wp (respond n fd) (fun ok s' => EInv srv s' /\ responded fd n ok s s') s.
Proof.
  revert s. induction n as [|n IH]; intros s I Hfd; cbn [respond]; [split; [done|]; split; [done|]; exists []; by repeat constructor|].
  apply wp_bind. unfold send_one. apply wp_bind, on_fd_wp; [done|]. intros r x (C & W & Hb)%send_spec.
  rewrite <- response_length, firstn_all in Hb. unfold len in Hb. rewrite response_length in Hb.
  assert (P : response_to fd (fd, take response_len (bytes_of response), r)) by (split; [by rewrite <- response_length, firstn_all|done]).
  set (buf := take response_len _) in *. clearbody buf. apply wp_bind, wp_modify. cbn.
  set (s1 := mkE x _ _). assert (I1 : EInv srv s1) by (by apply (same_inv srv s)).
  assert (F1 : fd ∈ conns (e_net s1)) by (unfold s1; cbn; by rewrite C). destruct (Z.leb_spec r 0) as [Hr|Hr].
  - apply wp_bind. eapply wp_mono; [by apply (close_wp srv)|]. intros [] s2 (I2 & C2 & T2 & S2). split; [done|]. split; [done|].
    exists [(fd, buf, r)]. rewrite S2. split; [done|]. split; [by apply Forall_singleton|]. cbn. split; [lia|].
    split; [by exists (fd, buf, r)|]. by rewrite C2, <- C.
  - eapply wp_mono; [by apply IH|]. intros ok s2 (I2 & T2 & news & S2 & F2 & R2). split; [done|]. split; [done|].
    exists (news ++ [(fd, buf, r)])%list. rewrite S2, <- (assoc_L (++)). split; [done|]. split; [apply Forall_app; split; [done|by apply Forall_singleton]|].
    rewrite length_app. cbn. destruct ok.
    + destruct R2 as (L2 & P2 & C2). split; [lia|]. split; [apply Forall_app; by repeat constructor|]. rewrite C2. exact C.
    + destruct R2 as (L2 & (q & H2 & Q2) & C2). split; [lia|]. split; [|rewrite C2; cbn; by rewrite C].
      exists q. split; [|done]. destruct news; [done|exact H2].
Qed.

(** A connection that can be read. *)
Lemma serve_wp srv fd s : EInv srv s -> fd ∈ conns (e_net s) ->
  wp (serve fd) (fun _ s' => EInv srv s' /\ conns (e_net s) ∖ {[fd]} ⊆ conns (e_net s') /\
    forall l x, sys_recv fd 4096 (e_net s) = (Data l, x) -> l <> [] ->
      exists ok s1, responded fd (Z.to_nat (Z.max 1 (blanks l))) ok s s1 /\ e_sent s' = e_sent s1 /\ conns (e_net s') = conns (e_net s1) /\
        total_requests s' = if ok : bool then u64 (total_requests s + Z.max 1 (blanks l)) else total_requests s) s.
Proof.
  intros I Hfd. unfold serve. apply wp_bind, on_fd_wp; [done|]. intros r x Er. pose proof (recv_spec _ _ _ _ _ Er) as (C & W & _).
  set (s1 := mkE x _ _). assert (I1 : EInv srv s1) by (by apply (same_inv srv s)).
  assert (F1 : fd ∈ conns (e_net s1)) by (unfold s1; cbn; by rewrite C). destruct r as [[|b l]|e].
  - eapply wp_mono; [by apply (close_wp srv)|]. intros [] s2 (I2 & C2 & _). split; [done|]. split; [rewrite C2; cbn; rewrite C; set_solver|].
    intros l y H Hl. rewrite Er in H. by injection H as <- _.
  - rewrite num_requests_blanks. set (k := if _ =? 0 then _ else _).
    assert (Hk : k = Z.max 1 (blanks (b :: l))) by (unfold k; pose proof (blanks_nonneg (b :: l)); destruct (Z.eqb_spec (blanks (b :: l)) 0); lia).
    apply wp_bind. cbn [deref]. unfold wp at 1. cbn. apply wp_bind. eapply wp_mono; [by apply (respond_wp srv)|]. intros ok s2 (I2 & R2).
    assert (R : responded fd (Z.to_nat k) ok s s2).
    { destruct R2 as (T2 & news & S2 & Fw & R2). split; [done|]. exists news. split; [done|]. split; [done|]. cbn in R2. by rewrite C in R2. }
    assert (Sub : conns (e_net s) ∖ {[fd]} ⊆ conns (e_net s2)).
    { destruct R as (_ & news & _ & _ & R). destruct ok; [destruct R as (_ & _ & ->)|destruct R as (_ & _ & ->)]; set_solver. }
    apply wp_when; intros ->; [apply wp_modify|]; (split; [by apply (same_inv srv s2)|]; split; [done|];
      intros l' y H Hl; rewrite Er in H; injection H as <- _; rewrite <- Hk).
    + exists true, s2. split; [done|]. split; [done|]. split; [done|]. cbn. destruct R as (T & _). by rewrite T.
    + exists false, s2. split; [done|]. split; [done|]. split; [done|]. apply R.
  - apply wp_when; intros _; [|split; [done|]; split; [cbn; rewrite C; set_solver|]; intros l y H; congruence].
    eapply wp_mono; [by apply (close_wp srv)|]. intros [] s2 (I2 & C2 & _). split; [done|].
    split; [rewrite C2; cbn; rewrite C; set_solver|]. intros l y H; congruence.
Qed.

Lemma handle_events_wp srv fuel events s : EInv srv s -> (Z.to_nat open_files < fuel)%nat -> NoDup events ->
  (forall fd, fd ∈ events -> fd = srv \/ fd ∈ conns (e_net s)) -> wp (handle_events fuel srv events) (fun _ => EInv srv) s.
Proof.
  intros I Hf Hn. revert s I. induction Hn as [|fd events Hfd Hn IH]; intros s I He; [done|]. cbn [handle_events]. apply wp_bind.
  destruct (Z.eqb_spec fd srv) as [->|Hs].
  - eapply wp_mono; [apply accept_loop_wp; [done|lia]|]. intros [] s1 (I1 & S1 & _). apply IH; [done|].
    intros e Hin. destruct (He e ltac:(by right)) as [->|?]; [by left|right; by apply S1].
  - destruct (He fd ltac:(left)) as [?|Hc]; [done|]. eapply wp_mono; [by apply (serve_wp srv)|]. intros [] s1 (I1 & S1 & _). apply IH; [done|].
    intros e Hin. destruct (He e ltac:(by right)) as [->|?]; [by left|right]. apply S1. set_solver.
Qed.

Lemma worker_loop_wp srv fuel rounds s : EInv srv s -> (Z.to_nat open_files < fuel)%nat -> wp (worker_loop fuel rounds srv) (fun _ => EInv srv) s.
Proof.
  intros I Hf. revert s I. induction rounds as [|rounds IH]; intros s I; [done|]. cbn [worker_loop]. apply wp_bind, sock_wp.
  intros l x (C & W & Hn & _ & Hl)%wait_spec. apply wp_bind. eapply wp_mono; [apply handle_events_wp; [|done|done|]|].
  - by apply (same_inv srv s).
  - cbn. rewrite C. intros fd Hfd%Hl. apply (ei_watched _ _ I) in Hfd. set_solver.
  - intros [] s1 I1. by apply IH.
Qed.

(** A thread before it has a socket. *)
Lemma listen_socket_wp s : conns (e_net s) = ∅ -> watched (e_net s) = ∅ ->
  wp listen_socket (fun r s' => match r with Some srv => 0 <= srv /\ EInv srv s' | None => conns (e_net s') = ∅ end) s.
Proof.
  intros C0 W0. unfold listen_socket. apply wp_bind, sock_wp. intros srv x1 [C1 W1]%prepare_spec.
  apply wp_bind, sock_wp. intros a2 x2 [C2 W2]%prepare_spec. apply wp_bind, sock_wp. intros a3 x3 [C3 W3]%prepare_spec.
  apply wp_bind, sock_wp. intros r x4 E4. pose proof (prepare_spec _ _ _ _ E4) as [C4 W4]. destruct (Z.ltb_spec r 0); [cbn in *; unfold wp; cbn; congruence|].
  apply wp_bind, sock_wp. intros a5 x5 [C5 W5]%prepare_spec. apply wp_bind, set_nonblock_wp. intros s6 [C6 W6] _ _.
  apply wp_bind, sock_wp. intros a7 x7 [C7 W7]%prepare_spec. apply wp_bind, sock_wp. intros a8 x8 [C8 W8]%add_spec.
  unfold wp. cbn in *. split.
  - destruct (Z.lt_ge_cases srv 0) as [Hs|]; [|done]. pose proof (bind_invalid _ _ _ _ _ E4 Hs). lia.
  - assert (E : conns x8 = ∅) by congruence. assert (E' : watched x7 = ∅) by congruence.
    split; cbn; rewrite E; [set_solver| |set_solver]. rewrite W8, E'. destruct (decide _); set_solver.
Qed.

End Thms.

(** A thread of the epoll server runs for any number of rounds, whatever the
    kernel reports and its calls return: it never uses a descriptor that it has
    closed, the loop over pending connections ends by the limit on open files, only
    open connections and the listening socket are watched, and, as long as
    epoll_ctl does not fail, every open connection is. *)
Theorem epoll_thread_safe {K : Sockets} {KL : SocketsLaws K} rounds s : conns (e_net s) = ∅ -> watched (e_net s) = ∅ ->
  exists s', worker_thread (S (Z.to_nat open_files)) rounds s = Some (tt, s') /\
    (conns (e_net s') = ∅ \/ exists srv, 0 <= srv /\ srv ∉ conns (e_net s') /\ watched (e_net s') ⊆ conns (e_net s') ∪ {[srv]} /\
      ((forall fd x n x', epoll_add fd x = (n, x') -> 0 <= n) -> conns (e_net s') ⊆ watched (e_net s'))).
Proof.
  intros C W.
  assert (H : wp (worker_thread (S (Z.to_nat open_files)) rounds) (fun _ s' => conns (e_net s') = ∅ \/ exists srv, 0 <= srv /\ EInv srv s') s).
  { unfold worker_thread. apply wp_bind. eapply wp_mono; [by apply listen_socket_wp|]. intros [srv|] s1 H1; [|by left].
    destruct H1 as [H0 I1]. eapply wp_mono; [apply worker_loop_wp; [exact I1|lia]|]. intros [] s2 I2. right. by exists srv. }
  apply wp_run in H as ([] & s' & E & H). exists s'. split; [done|]. destruct H as [?|(srv & H0 & [])]; [by left|right; by exists srv].
Qed.

(** C34. What a client gets that pipelines requests: if a read returns whole
    requests, the thread sends the response, all 64 bytes of it, exactly once for
    each of them and counts them, as long as no send fails; what the client can
    read is then one whole response per request exactly if the kernel took every
    response whole, and nothing is sent again of one it cut short.  If a send fails
    there were no more than that, none is counted and the connection is closed. *)
Theorem epoll_answers_requests {K : Sockets} {KL : SocketsLaws K} srv fd rs s x :
  EInv srv s -> fd ∈ conns (e_net s) -> sys_recv fd 4096 (e_net s) = (Data (List.concat rs), x) -> rs <> [] -> Forall is_request rs ->
  exists s' news, serve fd s = Some (tt, s') /\ EInv srv s' /\ e_sent s' = (news ++ e_sent s)%list /\ Forall (response_to fd) news /\
    ((List.length news = List.length rs /\ Forall (fun p => 0 < p.2) news /\ fd ∈ conns (e_net s') /\
      total_requests s' = u64 (total_requests s + len rs) /\
      (stream news = List.concat (replicate (List.length rs) (bytes_of response)) <->
       Forall (fun p => p.2 = Z.of_nat response_len) news)) \/
     ((List.length news <= List.length rs)%nat /\ (exists p, head news = Some p /\ p.2 <= 0) /\ fd ∉ conns (e_net s') /\
      total_requests s' = total_requests s)).
Proof.
  intros I Hfd Hr Hne Hrs. pose proof (serve_wp srv fd s I Hfd) as H. apply wp_run in H as ([] & s' & E & I' & _ & H).
  pose proof (blanks_concat rs Hrs) as Hb. assert (1 <= len rs) by (destruct rs; [done|]; rewrite len_cons; pose proof (len_nonneg rs); lia).
  destruct (H _ _ Hr) as (ok & s1 & (_ & news & S1 & F1 & R1) & S' & C' & T'); [intros Hc; rewrite Hc in Hb; cbn in Hb; lia|].
  rewrite Hb, Z.max_r in R1, T' by done. replace (Z.to_nat (len rs)) with (List.length rs) in R1 by (unfold len; lia).
  exists s', news. split; [done|]. split; [done|]. split; [congruence|]. split; [done|]. rewrite C'. destruct ok.
  - left. destruct R1 as (L & P & C). rewrite C, <- L. repeat (split; [done|]).
    split; [by apply (stream_short fd)|by apply (stream_whole fd)].
  - right. destruct R1 as (L & P & C). rewrite C. split; [done|]. split; [done|]. split; [set_solver|done].
Qed.

(** A request that arrives in two reads is answered twice, and a blank line cut in
    two is not seen: requests and responses no longer match. *)
Definition req : list Z := bytes_of (Logger.cat ["GET / HTTP/1.1"; crlf; "Host: x"; crlf; crlf])%string.

Lemma req_is_request : is_request req.
Proof. split; [exists (take 23 req); reflexivity|reflexivity|vm_compute; discriminate]. Qed.

Lemma split_request_answered_twice : exists a b, req = (a ++ b)%list /\ num_requests a = Some 1 /\ num_requests b = Some 1.
Proof. exists (take 10 req), (skipn 10 req). vm_compute. done. Qed.

Lemma split_blank_answered_too_little :
  exists a b, (req ++ req ++ req)%list = (a ++ b)%list /\ num_requests a = Some 1 /\ num_requests b = Some 1.
Proof. exists (take 53 (req ++ req ++ req)), (skipn 53 (req ++ req ++ req)). vm_compute. done. Qed.

(** ** A kernel *)

Record Toy := mkToy { k_conns : gset Z; k_watched : gset Z; k_pending : nat; k_in : list Z }.

Definition toy_conns (x : Toy) : gset Z := filter (fun fd => 0 <= fd < 16) (k_conns x).
Definition toy_free (srv : Z) (x : Toy) : option Z :=
  List.find (fun fd => negb (fd =? srv) && bool_decide (fd ∉ toy_conns x)) [4; 5; 6; 7].

#[export] Instance toy_sockets : Sockets := {|
  net := Toy;
  is_open x fd := bool_decide (fd ∈ toy_conns x);
  prepare c x := (match c with Socket => 3 | BindPort fd _ => if fd <? 0 then -1 else 0 | _ => 0 end, x);
  sys_accept fd x :=
    match k_pending x, toy_free fd x with
    | S n, Some c => (c, mkToy ({[c]} ∪ k_conns x) (k_watched x) n (k_in x))
    | _, _ => (-1, x)
    end;
  sys_recv fd size x :=
    match take (Z.to_nat (Z.max 0 size)) (k_in x) with
    | [] => (Error true, x)
    | l => (Data l, mkToy (k_conns x) (k_watched x) (k_pending x) [])
    end;
  sys_send fd l x := (len l, x);
  sys_close fd x := mkToy (k_conns x ∖ {[fd]}) (k_watched x ∖ {[fd]}) (k_pending x) (k_in x);
  epoll_add fd x := (0, mkToy (k_conns x) ({[fd]} ∪ k_watched x) (k_pending x) (k_in x));
  epoll_wait size x := (take (Z.to_nat (Z.max 0 size)) (elements (k_watched x)), x)
|}.

#[export] Instance toy_sockets_laws : SocketsLaws toy_sockets.
Proof.
  refine {| open_files := 16; conns := toy_conns : @net toy_sockets -> gset Z; watched := k_watched : @net toy_sockets -> gset Z |};
    cbn -[toy_free toy_conns take Z.max Z.to_nat].
  - intros x fd. apply bool_decide_eq_true.
  - intros x fd. unfold toy_conns. by intros [H _]%elem_of_filter.
  - by intros c x n x' [= _ <-].
  - intros fd port x n x' [= <- _] H. destruct (Z.ltb_spec fd 0); lia.
  - intros fd x n x'. destruct (k_pending x) as [|p]; [by intros [= <- <-]|].
    destruct (toy_free fd x) as [c|] eqn:E; intros [= <- <-]; [|done]. split; [done|].
    apply List.find_some in E as [Hin Hc]. bprop. assert (0 <= c < 16) by (cbn in Hin; lia).
    rewrite decide_False by lia. split; [done|]. split; [done|]. unfold toy_conns. cbn. set_solver.
  - intros fd size x r x'. destruct (take _ (k_in x)) as [|b l] eqn:E; intros [= <- <-]; (split; [done|]; split; [done|]); [done|].
    intros l' [= <-]. unfold len. pose proof (f_equal List.length E) as L. rewrite length_take in L. cbn in L |- *. lia.
  - intros fd l x n x' [= <- <-]. done.
  - intros fd x. unfold toy_conns. cbn. set_solver.
  - intros fd x n x' [= <- <-]. done.
  - intros size x l x' [= <- <-]. split; [done|]. split; [done|].
    assert (P : sublist (take (Z.to_nat (Z.max 0 size)) (elements (k_watched x))) (elements (k_watched x))) by apply sublist_take.
    split; [apply (sublist_NoDup _ (elements (k_watched x)) (NoDup_elements _) P)|]. split.
    + unfold len. rewrite length_take. lia.
    + intros fd Hfd. apply elem_of_elements. by eapply elem_of_sublist.
Defined.

(** Two clients connect, one sends three requests at once. *)
Definition toy_start : EState (K := toy_sockets) := mkE (K := toy_sockets) (mkToy ∅ ∅ 2 (req ++ req ++ req)) 0 [].

Definition of_run (r : option (unit * EState (K := toy_sockets))) : EState (K := toy_sockets) := match r with Some (_, s) => s | None => toy_start end.

Lemma of_run_eq r s : r = Some (tt, s) -> s = of_run r.
Proof. by intros ->. Qed.

Lemma epoll_thread_safe_witness : exists s', worker_thread (K := toy_sockets) 17 3 toy_start = Some (tt, s') /\
  conns (SocketsLaws := toy_sockets_laws) (e_net s') = ({[4]} ∪ {[5]} : gset Z) /\ conns (e_net s') ⊆ watched (e_net s').
Proof.
  destruct (epoll_thread_safe (K := toy_sockets) (KL := toy_sockets_laws) 3 toy_start ltac:(vm_compute; reflexivity) ltac:(vm_compute; reflexivity))
    as (s' & E & H).
  exists s'. split; [exact E|].
  assert (C : conns (SocketsLaws := toy_sockets_laws) (e_net s') = ({[4]} ∪ {[5]} : gset Z)) by (rewrite (of_run_eq _ _ E); vm_compute; reflexivity).
  split; [exact C|]. destruct H as [H|(srv & _ & _ & _ & H)]; [rewrite C in H; vm_compute in H; discriminate|]. apply H.
  intros fd x n x' [= <- _]. lia.
Defined.

Ltac by_computing := apply (bool_decide_unpack _); vm_compute; constructor.

Definition toy_serving : EState (K := toy_sockets) := mkE (K := toy_sockets) (mkToy {[4]} ({[3]} ∪ {[4]}) 0 (List.concat [req; req; req])) 0 [].

Lemma epoll_answers_requests_witness : exists s', serve (K := toy_sockets) 4 toy_serving = Some (tt, s') /\
  stream (e_sent s') = List.concat (replicate 3 (bytes_of response)) /\ total_requests s' = 3.
Proof.
  assert (I : EInv 3 toy_serving).
  { split; [by_computing|by_computing|]. intros _. by_computing. }
  destruct (epoll_answers_requests (K := toy_sockets) (KL := toy_sockets_laws) 3 4 [req; req; req] toy_serving (mkToy {[4]} ({[3]} ∪ {[4]}) 0 []) I)
    as (s' & news & E & _ & Hn & _ & H).
  - by_computing.
  - vm_compute. reflexivity.
  - discriminate.
  - repeat constructor; apply req_is_request.
  - exists s'. split; [exact E|]. cbn [e_sent toy_serving] in Hn. rewrite app_nil_r in Hn. rewrite Hn.
    destruct H as [(_ & _ & _ & H & S)|(_ & _ & H & _)]; [|exfalso; apply H; rewrite (of_run_eq _ _ E); by_computing].
    split; [|exact H]. apply S. rewrite <- Hn, (of_run_eq _ _ E). vm_compute. repeat constructor.
Defined.

End RsEpoll.
