(* ===== verification/RsUring.v ===== *)
(** RsUring: the real server of RS_Src/iouring_server/server_mt.c.

    liburing, the allocator and the kernel are a parameter ([Uring]); a request of
    the program is found through its pointer, and one that has been freed or was
    never allocated is undefined behaviour ([None]). *)
From S2P Require Import Prelude Types Mem Processor Text Print Stdio Logger RsEpoll.
From Stdlib Require Import String Ascii.
Import Text Print Processor.

(** ** liburing *)

Inductive Op := Accept (fd : Z) | Recv (fd buf size : Z) | Send (fd : Z) (l : list Z).
Record Sqe := mkSqe { s_op : Op; s_data : Z }.
Record Cqe := mkCqe { c_data : Z; c_res : Z }.

Inductive UPrep := UInit (depth : Z) | USocket | UReuseAddr (fd : Z) | UReusePort (fd : Z) | UBind (fd port : Z) | UListen (fd backlog : Z).

Class Uring := {
  ur : Type;
  ur_prepare : UPrep -> ur -> Z * ur;
  get_sqe : ur -> bool * ur;           (** an entry, or NULL *)
  fill_sqe : Sqe -> ur -> ur;          (** prep and set_data of the entry just got *)
  ur_submit : Z -> ur -> Z * ur;       (** and wait for so many completions *)
  next_cqe : ur -> option Cqe * ur;    (** one step of io_uring_for_each_cqe *)
  cq_advance : nat -> ur -> ur;
  malloc : ur -> option Z * ur;
  mfree : Z -> ur -> ur;
  ur_close : Z -> ur -> ur
}.

(** The number of submission queue entries. *)
Definition QUEUE_DEPTH : Z := 4096.

(** Documented behaviour.  [taken]: entries got since they were submitted, with
    what they were filled with; [flying]: operations submitted and not completed;
    [seen]: completions read and not yet given back; [opened]: connections the
    program was given and has not closed. *)
Class UringLaws (U : Uring) := {
  open_limit : Z;
  taken : ur -> list (option Sqe);
  flying : ur -> list Sqe;
  seen : ur -> nat;
  opened : ur -> gset Z;
  allocated : ur -> gset Z;
  opened_limit x fd : fd ∈ opened x -> 0 <= fd < open_limit;
  ur_prepare_spec c x n x' : ur_prepare c x = (n, x') ->
    taken x' = taken x /\ flying x' = flying x /\ seen x' = seen x /\ opened x' = opened x /\ allocated x' = allocated x;
  get_sqe_spec x ok x' : get_sqe x = (ok, x') ->
    ok = (len (taken x) <? QUEUE_DEPTH) /\ taken x' = (taken x ++ (if ok then [None] else []))%list /\
    flying x' = flying x /\ seen x' = seen x /\ opened x' = opened x /\ allocated x' = allocated x;
  fill_sqe_spec s x l o : taken x = (l ++ [o])%list ->
    let x' := fill_sqe s x in taken x' = (l ++ [Some s])%list /\ flying x' = flying x /\ seen x' = seen x /\
    opened x' = opened x /\ allocated x' = allocated x;
  submit_spec w x n x' : ur_submit w x = (n, x') ->
    (Forall (fun o => is_Some o) (taken x) ->
       exists k, taken x' = skipn k (taken x) /\ flying x' ≡ₚ (flying x ++ omap id (take k (taken x)))%list) /\
    seen x' = seen x /\ opened x' = opened x /\ allocated x' = allocated x;
  next_some x c x' : next_cqe x = (Some c, x') ->
    exists s, flying x ≡ₚ s :: flying x' /\ s_data s = c_data c /\ taken x' = taken x /\ seen x' = S (seen x) /\ allocated x' = allocated x /\
      match s_op s with
      | Accept _ => if decide (0 <= c_res c) then c_res c ∉ opened x /\ opened x' = {[c_res c]} ∪ opened x else opened x' = opened x
      | _ => opened x' = opened x
      end;
  next_none x x' : next_cqe x = (None, x') ->
    taken x' = taken x /\ flying x' = flying x /\ seen x' = seen x /\ opened x' = opened x /\ allocated x' = allocated x;
  advance_spec x : let x' := cq_advance (seen x) x in
    taken x' = taken x /\ flying x' = flying x /\ seen x' = 0%nat /\ opened x' = opened x /\ allocated x' = allocated x;
  malloc_spec x p x' : malloc x = (p, x') ->
    taken x' = taken x /\ flying x' = flying x /\ seen x' = seen x /\ opened x' = opened x /\
    match p with Some p => p ∉ allocated x /\ allocated x' = {[p]} ∪ allocated x | None => allocated x' = allocated x end;
  mfree_spec p x : let x' := mfree p x in
    taken x' = taken x /\ flying x' = flying x /\ seen x' = seen x /\ opened x' = opened x /\ allocated x' = allocated x ∖ {[p]};
  ur_close_spec fd x : let x' := ur_close fd x in
    taken x' = taken x /\ flying x' = flying x /\ seen x' = seen x /\ opened x' = opened x ∖ {[fd]} /\ allocated x' = allocated x
}.

Module RsUring.

Definition PORT : Z := 80.

Inductive OpType := OP_ACCEPT | OP_READ | OP_WRITE.

#[export] Instance OpType_eq_dec : EqDecision OpType.
Proof. solve_decision. Defined.

Record request := mkRequest { fd : Z; type : OpType }.

Definition buffer_size : Z := 1024.
Definition response : string :=
  Logger.cat ["HTTP/1.1 200 OK"; RsEpoll.crlf; "Content-Length: 2"; RsEpoll.crlf; "Connection: keep-alive"; RsEpoll.crlf; RsEpoll.crlf; "OK"]%string.
Definition response_len : nat := 64.

Section Thread.
Context {U : Uring}.

Record UState := mkU {
  u_sys : ur;
  reqs : gmap Z request;   (** what malloc'ed pointers lead to *)
  total_requests : Z;
}.

Definition sys {A} (f : ur -> A * ur) : ST UState A :=
  fun s => let '(a, x) := f (u_sys s) in Some (a, mkU x (reqs s) (total_requests s)).
Definition set_reqs (m : gmap Z request) (s : UState) : UState := mkU (u_sys s) m (total_requests s).

Definition load (p : Z) : ST UState request := s ← gets id; deref (reqs s !! p).
(** Writing type and fd through a pointer. *)
Definition store (p : Z) (r : request) : ST UState unit := load p ;; modify (fun s => set_reqs (<[p := r]> (reqs s)) s).

Definition fill (op : Op) (p : Z) : ST UState unit := sys (fun x => (tt, fill_sqe (mkSqe op p) x)).

Definition close_and_free (f p : Z) : ST UState unit :=
  sys (fun x => (tt, ur_close f x)) ;;
  load p ;;
  sys (fun x => (tt, mfree p x)) ;;
  modify (fun s => set_reqs (delete p (reqs s)) s).

(** The memory is as it was: fd and type are set at once. *)
Definition get_request (f : Z) (t : OpType) : ST UState (option Z) :=
  p ← sys malloc;
  match p with
  | None => mret None
  | Some p => modify (fun s => set_reqs (<[p := mkRequest f t]> (reqs s)) s) ;; mret (Some p)
  end.

(** [None]: a null pointer, which is dereferenced only if there is an entry. *)
Definition add_accept_request (server_fd : Z) (p : option Z) : ST UState unit :=
  sqe ← sys get_sqe;
  if negb sqe then mret tt
  else p ← deref p; store p (mkRequest server_fd OP_ACCEPT) ;; fill (Accept server_fd) p.

Definition add_read_request (client_fd : Z) : ST UState unit :=
  sqe ← sys get_sqe;
  if negb sqe then mret tt
  else
    p ← get_request client_fd OP_READ;
    match p with
    | None => mret tt
    | Some p => fill (Recv client_fd p buffer_size) p
    end.

Definition send_op (f : Z) : Op := Send f (take response_len (RsEpoll.bytes_of response)).

Definition add_write_request (client_fd p : Z) : ST UState unit :=
  sqe ← sys get_sqe;
  if negb sqe then mret tt
  else
    r ← load p;
    store p (mkRequest (fd r) OP_WRITE) ;;
    fill (send_op client_fd) p.

Definition handle (server_fd : Z) (c : Cqe) : ST UState unit :=
  let p := c_data c in
  let res := c_res c in
  req ← load p;
  match type req with
  | OP_ACCEPT => when (res >=? 0) (add_read_request res) ;; add_accept_request server_fd (Some p)
  | OP_READ => if res >? 0 then add_write_request (fd req) p else close_and_free (fd req) p
  | OP_WRITE =>
    if res >? 0 then
      modify (fun s => mkU (u_sys s) (reqs s) (u64 (total_requests s + 1))) ;;
      store p (mkRequest (fd req) OP_READ) ;;
      sqe ← sys get_sqe;
      if (sqe : bool) then fill (Recv (fd req) p buffer_size) p else close_and_free (fd req) p
    else close_and_free (fd req) p
  end.

(** io_uring_for_each_cqe, counting. *)
Fixpoint handle_all (fuel : nat) (server_fd : Z) (count : nat) : ST UState nat :=
  match fuel with
  | O => fault
  | S fuel =>
    c ← sys next_cqe;
    match c with
    | None => mret count
    | Some c => handle server_fd c ;; handle_all fuel server_fd (S count)
    end
  end.

Definition round (fuel : nat) (server_fd : Z) : ST UState unit :=
  ret ← sys (ur_submit 1);
  if ret <? 0 then mret tt
  else
    count ← handle_all fuel server_fd 0;
    sys (fun x => (tt, cq_advance count x)).

Fixpoint rounds (fuel n : nat) (server_fd : Z) : ST UState unit :=
  match n with O => mret tt | S n => round fuel server_fd ;; rounds fuel n server_fd end.

(** Ring and listening socket; [None]: the thread ends. *)
Definition listen_socket : ST UState (option Z) :=
  ret ← sys (ur_prepare (UInit QUEUE_DEPTH));
  if ret <? 0 then mret None
  else
    server_fd ← sys (ur_prepare USocket);
    sys (ur_prepare (UReuseAddr server_fd)) ;;
    sys (ur_prepare (UReusePort server_fd)) ;;
    r ← sys (ur_prepare (UBind server_fd PORT));
    if r <? 0 then mret None
    else sys (ur_prepare (UListen server_fd 1024)) ;; mret (Some server_fd).

(** The request of accept is not initialised; add_accept_request sets it. *)
Definition worker_thread (fuel n : nat) : ST UState unit :=
  fd ← listen_socket;
  match fd with
  | None => mret tt
  | Some server_fd =>
    accept_req ← get_request server_fd OP_ACCEPT;
    add_accept_request server_fd accept_req ;;
    sys (ur_submit 0) ;;
    rounds fuel n server_fd
  end.

End Thread.

Lemma uring_response_length : List.length (RsEpoll.bytes_of response) = response_len.
Proof. reflexivity. Qed.

(** ** One operation per request *)

(** What the ring holds for the request [r] at [p]. *)
Definition op_of (srv p : Z) (r : request) : Op :=
  match type r with OP_ACCEPT => Accept srv | OP_READ => Recv (fd r) p buffer_size | OP_WRITE => send_op (fd r) end.
Definition sqe_of (srv : Z) (e : Z * request) : Sqe := mkSqe (op_of srv e.1 e.2) e.1.

Definition fds (m : gmap Z request) : list Z := (fun e => fd e.2) <$> map_to_list m.

Lemma fds_insert m p r : m !! p = None -> fds (<[p := r]> m) ≡ₚ fd r :: fds m.
Proof. intros H. unfold fds. by rewrite (map_to_list_insert m p r H). Qed.

Lemma fds_delete m p r : m !! p = Some r -> fds m ≡ₚ fd r :: fds (delete p m).
Proof. intros H. unfold fds. by rewrite <- (map_to_list_delete m p r H). Qed.

(** The heap [m] has the request of accept and one for each connection of [O]. *)
Definition heap_ok (srv : Z) (m : gmap Z request) (A O : gset Z) : Prop :=
  dom m ⊆ A /\ exists p0, m !! p0 = Some (mkRequest srv OP_ACCEPT) /\ fds (delete p0 m) ≡ₚ elements O /\
    forall p r, p <> p0 -> m !! p = Some r -> type r <> OP_ACCEPT.

Lemma heap_size srv m A O : heap_ok srv m A O -> size m = S (size O).
Proof.
  intros (_ & p0 & H0 & Hf & _). apply Permutation_length in Hf. unfold fds in Hf. rewrite length_fmap, length_map_to_list in Hf.
  rewrite <- (insert_delete_id m p0 _ H0), map_size_insert_None by apply lookup_delete_eq. unfold size at 2, set_size. cbn. lia.
Qed.

(** A request changes its type only. *)
Lemma heap_retype srv m A O p r t : heap_ok srv m A O -> m !! p = Some r -> type r <> OP_ACCEPT -> t <> OP_ACCEPT ->
  heap_ok srv (<[p := mkRequest (fd r) t]> m) A O.
Proof.
  intros (Hd & p0 & H0 & Hf & Ha) Hp Hr Ht. assert (Hne : p <> p0) by (intros ->; rewrite H0 in Hp; by injection Hp as <-).
  split; [rewrite dom_insert_L; apply elem_of_dom_2 in Hp; set_solver|]. exists p0. split; [by rewrite lookup_insert_ne|]. split.
  - rewrite delete_insert_ne by done. assert (Hq : delete p0 m !! p = Some r) by (by rewrite lookup_delete_ne).
    rewrite <- insert_delete_eq, fds_insert by apply lookup_delete_eq. by rewrite <- Hf, (fds_delete _ _ _ Hq).
  - intros q r' Hq. destruct (decide (q = p)) as [->|]; [rewrite lookup_insert_eq; by intros [= <-]|rewrite lookup_insert_ne by done; by apply Ha].
Qed.

(** A connection is closed and its request freed. *)
Lemma heap_close srv m A O p r : heap_ok srv m A O -> m !! p = Some r -> type r <> OP_ACCEPT ->
  heap_ok srv (delete p m) (A ∖ {[p]}) (O ∖ {[fd r]}).
Proof.
  intros (Hd & p0 & H0 & Hf & Ha) Hp Hr. assert (Hne : p <> p0) by (intros ->; rewrite H0 in Hp; by injection Hp as <-).
  split; [rewrite dom_delete_L; set_solver|]. exists p0. split; [by rewrite lookup_delete_ne|]. split.
  - assert (Hq : delete p0 m !! p = Some r) by (by rewrite lookup_delete_ne). rewrite delete_delete.
    rewrite (fds_delete _ _ _ Hq) in Hf. assert (Hin : fd r ∈ O) by (apply elem_of_elements; rewrite <- Hf; left).
    apply (Permutation_cons_inv (a := fd r)). rewrite Hf. rewrite (union_difference_singleton_L (fd r) O Hin) at 1.
    by rewrite elements_union_singleton by set_solver.
  - intros q r' Hq. rewrite lookup_delete_Some. intros [_ H]. by apply (Ha q).
Qed.

(** A connection is accepted. *)
Lemma heap_open srv m A O q f : heap_ok srv m A O -> q ∉ A -> f ∉ O ->
  heap_ok srv (<[q := mkRequest f OP_READ]> m) ({[q]} ∪ A) ({[f]} ∪ O).
Proof.
  intros (Hd & p0 & H0 & Hf & Ha) Hq Hfo. assert (Hn : m !! q = None) by (apply not_elem_of_dom; set_solver).
  assert (Hne : q <> p0) by (intros ->; congruence). split; [rewrite dom_insert_L; set_solver|]. exists p0.
  split; [by rewrite lookup_insert_ne|]. split.
  - rewrite delete_insert_ne, fds_insert by (done || by rewrite lookup_delete_ne). by rewrite Hf, elements_union_singleton.
  - intros p r Hp. destruct (decide (p = q)) as [->|]; [rewrite lookup_insert_eq; by intros [= <-]|rewrite lookup_insert_ne by done; by apply Ha].
Qed.

Section Thms.
Context {U : Uring} {UL : UringLaws U}.

Definition pending (x : ur) : list Sqe := (omap id (taken x) ++ flying x)%list.

(** The ring holds one operation for every request of [h]. *)
Definition covers (srv : Z) (h : gmap Z request) (x : ur) : Prop :=
  Forall (fun o => is_Some o) (taken x) /\ pending x ≡ₚ sqe_of srv <$> map_to_list h.

(** The same with an entry got and not yet filled. *)
Definition got (srv : Z) (h : gmap Z request) (x : ur) : Prop :=
  exists l, taken x = (l ++ [None])%list /\ Forall (fun o => is_Some o) l /\ (omap id l ++ flying x)%list ≡ₚ sqe_of srv <$> map_to_list h.

Definition same_ring (x x' : ur) : Prop := taken x' = taken x /\ flying x' = flying x.

Lemma got_same srv h x x' : same_ring x x' -> got srv h x -> got srv h x'.
Proof. intros [E1 E2] (l & H). exists l. by rewrite E1, E2. Qed.

Lemma covers_same srv h x x' : same_ring x x' -> covers srv h x -> covers srv h x'.
Proof. intros [E1 E2] [H1 H2]. unfold covers, pending in *. by rewrite E1, E2. Qed.

Lemma taken_size srv h x : covers srv h x -> (List.length (taken x) <= size h)%nat.
Proof.
  intros [H1 H2]. apply Permutation_length in H2. unfold pending in H2. rewrite length_app, length_fmap, length_map_to_list in H2.
  assert (List.length (omap id (taken x)) = List.length (taken x)); [|lia]. clear H2.
  induction H1 as [|o l [a ->] _ IH]; [done|]. cbn. by rewrite IH.
Qed.

Lemma uring_wp {A} (f : ur -> A * ur) (Q : A -> UState -> Prop) s :
  (forall a x, f (u_sys s) = (a, x) -> Q a (mkU x (reqs s) (total_requests s))) -> wp (sys f) Q s.
Proof. intros H. unfold wp, sys. destruct (f (u_sys s)) as [a x]. by apply H. Qed.

Lemma load_wp p r (Q : request -> UState -> Prop) s : reqs s !! p = Some r -> Q r s -> wp (load p) Q s.
Proof. intros H HQ. unfold load. apply wp_bind, wp_gets. unfold id. by rewrite H. Qed.

Lemma store_wp p r0 r (Q : unit -> UState -> Prop) s :
  reqs s !! p = Some r0 -> Q tt (set_reqs (<[p := r]> (reqs s)) s) -> wp (store p r) Q s.
Proof. intros H HQ. unfold store. by apply wp_bind, (load_wp p r0). Qed.

(** The completions still to come are the same. *)
Definition progress (x x' : ur) : Prop := seen x' = seen x /\ flying x' = flying x.

(** There is an entry as long as fewer operations than entries are pending. *)
Lemma get_sqe_wp srv h s (Q : bool -> UState -> Prop) : covers srv h (u_sys s) -> Z.of_nat (size h) < QUEUE_DEPTH ->
  (forall x, got srv h x -> opened x = opened (u_sys s) -> allocated x = allocated (u_sys s) -> progress (u_sys s) x ->
     Q true (mkU x (reqs s) (total_requests s))) -> wp (sys get_sqe) Q s.
Proof.
  intros HC Hs HQ. apply uring_wp. intros ok x (-> & Ht & Hf & Hn & Ho & Ha)%get_sqe_spec. pose proof (taken_size srv h _ HC).
  destruct (Z.ltb_spec (len (taken (u_sys s))) QUEUE_DEPTH) as [_|Hl]; [|unfold len in Hl; lia].
  apply HQ; [|done|done|done]. destruct HC as [H1 H2]. exists (taken (u_sys s)). rewrite Hf. done.
Qed.

Lemma fill_wp srv h p r op s (Q : unit -> UState -> Prop) : got srv h (u_sys s) -> h !! p = None -> op = op_of srv p r ->
  (forall x, covers srv (<[p := r]> h) x -> opened x = opened (u_sys s) -> allocated x = allocated (u_sys s) -> progress (u_sys s) x ->
     Q tt (mkU x (reqs s) (total_requests s))) -> wp (fill op p) Q s.
Proof.
  intros (l & Ht & Hl & Hp) Hn -> HQ. unfold fill. apply uring_wp. intros [] x [= <-].
  destruct (fill_sqe_spec (mkSqe (op_of srv p r) p) (u_sys s) l None Ht) as (Ht' & Hf & Hs & Ho & Ha). apply HQ; [|done|done|done]. split.
  - rewrite Ht'. apply Forall_app. by repeat constructor.
  - unfold pending. rewrite Ht', Hf, omap_app, (map_to_list_insert h p r Hn). cbn. rewrite <- (assoc_L (++)). cbn.
    by rewrite <- Permutation_middle, Hp.
Qed.

(** Between rounds and completions. *)
Record UInv (srv : Z) (s : UState) : Prop := {
  ui_heap : heap_ok srv (reqs s) (allocated (u_sys s)) (opened (u_sys s));
  ui_ring : covers srv (reqs s) (u_sys s);
}.

Lemma opened_size x : (size (opened x) <= Z.to_nat open_limit)%nat.
Proof.
  transitivity (size (list_to_set (seqZ 0 open_limit) : gset Z)).
  - apply subseteq_size. intros f Hf%opened_limit. apply elem_of_list_to_set, elem_of_seqZ. lia.
  - rewrite size_list_to_set by apply NoDup_seqZ. by rewrite length_seqZ.
Qed.

Context (few : open_limit < QUEUE_DEPTH) (memory : forall x p x', malloc x = (p, x') -> p <> None).

Lemma close_and_free_wp srv s p r (Q : unit -> UState -> Prop) : reqs s !! p = Some r -> type r <> OP_ACCEPT ->
  heap_ok srv (reqs s) (allocated (u_sys s)) (opened (u_sys s)) -> covers srv (delete p (reqs s)) (u_sys s) ->
  (forall s', UInv srv s' -> progress (u_sys s) (u_sys s') -> Q tt s') -> wp (close_and_free (fd r) p) Q s.
Proof.
  intros Hp Hr HH HC HQ. unfold close_and_free. apply wp_bind, uring_wp. intros [] x [= <-].
  destruct (ur_close_spec (fd r) (u_sys s)) as (Ht & Hf & Hs & Ho & Ha). apply wp_bind. eapply load_wp; [exact Hp|].
  apply wp_bind, uring_wp. intros [] x [= <-]. cbn [u_sys]. destruct (mfree_spec p (ur_close (fd r) (u_sys s))) as (Ht' & Hf' & Hs' & Ho' & Ha').
  apply wp_modify, HQ; cbn; [|split; congruence]. split; cbn.
  - rewrite Ha', Ho', Ho, Ha. by apply heap_close.
  - eapply covers_same; [|exact HC]. split; congruence.
Qed.

Lemma room srv h m A x p r : heap_ok srv m A (opened x) -> m !! p = Some r -> h = delete p m -> Z.of_nat (size h) < QUEUE_DEPTH.
Proof.
  intros HH Hp ->. pose proof (heap_size _ _ _ _ HH). pose proof (opened_size x).
  rewrite map_size_delete, Hp. unfold QUEUE_DEPTH in *. cbn. lia.
Qed.

(** The request of accept goes back to the ring. *)
Lemma rearm_wp srv p s (Q : unit -> UState -> Prop) : reqs s !! p = Some (mkRequest srv OP_ACCEPT) ->
  heap_ok srv (reqs s) (allocated (u_sys s)) (opened (u_sys s)) -> covers srv (delete p (reqs s)) (u_sys s) ->
  (forall s', UInv srv s' -> progress (u_sys s) (u_sys s') -> Q tt s') -> wp (add_accept_request srv (Some p)) Q s.
Proof.
  intros Hp HH HC HQ. unfold add_accept_request. apply wp_bind. eapply get_sqe_wp; [exact HC|by eapply room|].
  intros x G Ho Ha [Hs Hf]. cbn [negb]. apply wp_bind. cbn [deref]. unfold wp at 1. cbn. apply wp_bind. eapply store_wp; [exact Hp|].
  eapply (fill_wp srv (delete p (reqs s)) p (mkRequest srv OP_ACCEPT)); [exact G|apply lookup_delete_eq|done|].
  intros x' HC' Ho' Ha' [Hs' Hf']. cbn in *. rewrite insert_id by done. apply HQ; [|split; cbn; congruence].
  rewrite insert_delete_id in HC' by done. split; cbn; [|done]. by rewrite Ha', Ho', Ha, Ho.
Qed.

(** A connection's request in its new type [t] goes back to the ring. *)
Lemma refill_wp srv p r t op s0 s (Q : unit -> UState -> Prop) : reqs s0 !! p = Some r -> type r <> OP_ACCEPT -> t <> OP_ACCEPT ->
  heap_ok srv (reqs s0) (allocated (u_sys s0)) (opened (u_sys s0)) -> op = op_of srv p (mkRequest (fd r) t) ->
  reqs s = <[p := mkRequest (fd r) t]> (reqs s0) -> got srv (delete p (reqs s0)) (u_sys s) ->
  opened (u_sys s) = opened (u_sys s0) -> allocated (u_sys s) = allocated (u_sys s0) -> progress (u_sys s0) (u_sys s) ->
  (forall s', UInv srv s' -> progress (u_sys s0) (u_sys s') -> Q tt s') -> wp (fill op p) Q s.
Proof.
  intros Hp Hr Ht HH Hop Hm G Ho Ha [Hs Hf] HQ.
  eapply (fill_wp srv (delete p (reqs s0)) p); [exact G|apply lookup_delete_eq|exact Hop|].
  intros x HC Ho' Ha' [Hs' Hf']. apply HQ; [|split; cbn; congruence]. rewrite insert_delete_eq in HC.
  split; cbn; rewrite Hm; [|done]. rewrite Ha', Ho', Ha, Ho. by apply heap_retype.
Qed.

Lemma add_read_wp srv p f O s (Q : unit -> UState -> Prop) : reqs s !! p = Some (mkRequest srv OP_ACCEPT) ->
  heap_ok srv (reqs s) (allocated (u_sys s)) O -> covers srv (delete p (reqs s)) (u_sys s) ->
  f ∉ O -> opened (u_sys s) = {[f]} ∪ O ->
  (forall s', reqs s' !! p = Some (mkRequest srv OP_ACCEPT) -> heap_ok srv (reqs s') (allocated (u_sys s')) (opened (u_sys s')) ->
     covers srv (delete p (reqs s')) (u_sys s') -> progress (u_sys s) (u_sys s') -> Q tt s') -> wp (add_read_request f) Q s.
Proof.
  intros Hp HH HC Hf HO HQ. pose proof (heap_size _ _ _ _ HH) as Hsize. pose proof (opened_size (u_sys s)) as Hlim.
  rewrite HO, size_union, size_singleton in Hlim by set_solver.
  unfold add_read_request. apply wp_bind. eapply get_sqe_wp; [exact HC| |].
  { rewrite map_size_delete, Hp. unfold QUEUE_DEPTH in *. cbn. lia. }
  intros x G Ho Ha [Hs Hfl]. cbn [negb]. apply wp_bind. unfold get_request. apply wp_bind, uring_wp. cbn [u_sys]. intros q y Em.
  pose proof (memory _ _ _ Em) as Hq. destruct (malloc_spec _ _ _ Em) as (Ht' & Hf' & Hs' & Ho' & Ha'). destruct q as [q|]; [|done].
  destruct Ha' as [Hn Ha']. apply wp_bind, wp_modify, wp_ret. rewrite Ha in Hn, Ha'. cbn [set_reqs reqs u_sys total_requests].
  assert (Hqn : reqs s !! q = None) by (apply not_elem_of_dom; destruct HH as [Hd _]; set_solver).
  assert (Hqp : q <> p) by (intros ->; congruence).
  eapply (fill_wp srv (delete p (reqs s)) q (mkRequest f OP_READ)); [by eapply got_same|by rewrite lookup_delete_ne|done|].
  intros z HC' Ho2 Ha2 [Hs2 Hf2]. cbn [u_sys reqs total_requests set_reqs] in *. apply HQ; cbn [u_sys reqs].
  - by rewrite lookup_insert_ne.
  - rewrite Ha2, Ho2, Ha', Ho', Ho, HO. by apply heap_open.
  - by rewrite delete_insert_ne by done.
  - split; congruence.
Qed.

(** One completion: [O] are the connections before it. *)
Lemma completion_wp srv c r O s (Q : unit -> UState -> Prop) : reqs s !! c_data c = Some r ->
  heap_ok srv (reqs s) (allocated (u_sys s)) O -> covers srv (delete (c_data c) (reqs s)) (u_sys s) ->
  (if decide (type r = OP_ACCEPT /\ 0 <= c_res c) then c_res c ∉ O /\ opened (u_sys s) = {[c_res c]} ∪ O else opened (u_sys s) = O) ->
  (forall s', UInv srv s' -> progress (u_sys s) (u_sys s') -> Q tt s') -> wp (handle srv c) Q s.
Proof.
  intros Hp HH HC HO HQ. unfold handle. apply wp_bind. eapply load_wp; [exact Hp|]. destruct (type r) eqn:Et.
  - assert (Hr : r = mkRequest srv OP_ACCEPT).
    { destruct HH as (_ & p0 & H0 & _ & Ha). destruct (decide (c_data c = p0)) as [E|E]; [rewrite E, H0 in Hp; by injection Hp as <-|].
      by destruct (Ha _ _ E Hp). }
    subst r. apply wp_bind, wp_when; intros Hres; rewrite Z.geb_leb in Hres; bprop.
    + rewrite decide_True in HO by done. destruct HO as [Hn HO]. eapply add_read_wp; [done|done|done|done|done|].
      intros s1 H1 H2 H3 [H4 H5]. apply rearm_wp; [done|done|done|]. intros s2 I2 [H6 H7]. apply HQ; [done|]. split; congruence.
    + rewrite decide_False in HO by lia. subst O. by apply rearm_wp.
  - rewrite decide_False in HO by (by intros [? _]). subst O. destruct (Z.gtb_spec (c_res c) 0).
    + unfold add_write_request. apply wp_bind. eapply get_sqe_wp; [exact HC|by eapply room|]. intros x G Ho Ha Hpr. cbn [negb].
      apply wp_bind. eapply load_wp; [exact Hp|]. apply wp_bind. eapply store_wp; [exact Hp|].
      eapply (refill_wp srv (c_data c) r OP_WRITE _ s); try done. by rewrite Et.
    + apply (close_and_free_wp srv s (c_data c) r); [done|by rewrite Et|done|done|done].
  - rewrite decide_False in HO by (by intros [? _]). subst O. destruct (Z.gtb_spec (c_res c) 0).
    + apply wp_bind, wp_modify, wp_bind. eapply store_wp; [exact Hp|]. apply wp_bind. eapply get_sqe_wp; [exact HC|by eapply room|].
      intros x G Ho Ha Hpr. eapply (refill_wp srv (c_data c) r OP_READ _ s); try done. by rewrite Et.
    + apply (close_and_free_wp srv s (c_data c) r); [done|by rewrite Et|done|done|done].
Qed.

(** The loop over completions ends when those of the operations in flight are
    through, and counts them. *)
Lemma completions_wp srv fuel count s : UInv srv s -> (List.length (flying (u_sys s)) < fuel)%nat ->
  wp (handle_all fuel srv count) (fun n s' => UInv srv s' /\ (n + seen (u_sys s) = count + seen (u_sys s'))%nat) s.
Proof.
  revert count s. induction fuel as [|fuel IH]; intros count s I Hf; [lia|]. cbn [handle_all]. apply wp_bind, uring_wp. intros [c|] x E.
  - destruct (next_some _ _ _ E) as (q & Hq & Hd & Ht & Hs & Ha & Hop). destruct I as [HH [HC1 HC2]].
    assert (Hpq : pending (u_sys s) ≡ₚ q :: pending x) by (unfold pending; rewrite Hq, Ht; by rewrite Permutation_middle).
    assert (Hin : q ∈ sqe_of srv <$> map_to_list (reqs s)) by (rewrite <- HC2, Hpq; left).
    apply list_elem_of_fmap in Hin as ([p r] & -> & Hr%elem_of_map_to_list). cbn in Hd, Hop. subst p.
    apply wp_bind. eapply (completion_wp srv c r (opened (u_sys s))); cbn.
    + exact Hr.
    + by rewrite Ha.
    + split; [by rewrite Ht|]. apply (Permutation_cons_inv (a := sqe_of srv (c_data c, r))).
      rewrite <- Hpq, HC2. by rewrite <- (map_to_list_delete (reqs s) (c_data c) r Hr).
    + unfold op_of in Hop. destruct (type r); cbn in Hop; [|rewrite decide_False by (by intros []); done..].
      destruct (decide (0 <= c_res c)); [rewrite decide_True by done|rewrite decide_False by (by intros [])]; done.
    + intros s1 I1 [Hs1 Hf1]. cbn in Hs1, Hf1. apply Permutation_length in Hq. cbn in Hq. eapply wp_mono; [apply IH; [done|rewrite Hf1; lia]|].
      intros n s2 [I2 H2]. split; [done|]. cbn in *. lia.
  - destruct (next_none _ _ E) as (Ht & Hf' & Hs & Ho & Ha). destruct I as [HH HC]. unfold wp. cbn. rewrite Hs. split; [|done].
    split; cbn; [by rewrite Ha, Ho|by eapply covers_same].
Qed.

Lemma submit_wp srv w s : UInv srv s -> wp (sys (ur_submit w)) (fun _ s' => UInv srv s' /\ seen (u_sys s') = seen (u_sys s)) s.
Proof.
  intros [HH [HC1 HC2]]. apply uring_wp. intros n x (Hk & Hs & Ho & Ha)%submit_spec. destruct (Hk HC1) as (k & Ht & Hf). split; [|done].
  split; cbn; [by rewrite Ho, Ha|]. split; [rewrite Ht; by apply Forall_drop|]. rewrite <- HC2. unfold pending.
  rewrite Ht, Hf. set (T := taken (u_sys s)). assert (E : omap id T = (omap id (take k T) ++ omap id (skipn k T))%list) by (by rewrite <- omap_app, take_drop).
  rewrite E, (Permutation_app_comm (omap id (take k T))), <- (assoc_L (++)). apply Permutation_app_head, Permutation_app_comm.
Qed.

Lemma flying_size srv s : UInv srv s -> (List.length (flying (u_sys s)) <= Z.to_nat QUEUE_DEPTH)%nat.
Proof.
  intros [HH [_ HC]]. apply Permutation_length in HC. unfold pending in HC. rewrite length_app, length_fmap, length_map_to_list in HC.
  pose proof (heap_size _ _ _ _ HH). pose proof (opened_size (u_sys s)). unfold QUEUE_DEPTH in *. lia.
Qed.

Lemma rounds_wp srv n s : UInv srv s -> seen (u_sys s) = 0%nat ->
  wp (rounds (S (Z.to_nat QUEUE_DEPTH)) n srv) (fun _ s' => UInv srv s') s.
Proof.
  revert s. induction n as [|n IH]; intros s I H0; [done|]. cbn [rounds]. apply wp_bind.
  eapply (wp_mono _ (fun _ s' => UInv srv s' /\ seen (u_sys s') = 0%nat)); [|intros [] s1 [I1 H1]; by apply IH].
  unfold round. apply wp_bind. eapply wp_mono; [by apply (submit_wp srv 1)|]. intros ret s1 [I1 H1]. destruct (ret <? 0); [split; [done|congruence]|].
  apply wp_bind. eapply wp_mono; [apply completions_wp; [done|pose proof (flying_size srv s1 I1); lia]|]. intros c s2 [I2 H2].
  assert (c = seen (u_sys s2)) as -> by lia. apply uring_wp. intros [] x [= <-].
  destruct (advance_spec (u_sys s2)) as (Ht & Hf & Hs & Ho & Ha). destruct I2 as [HH HC]. split; [|done].
  split; cbn; [by rewrite Ha, Ho|by eapply covers_same].
Qed.

Lemma listen_wp s : wp listen_socket (fun _ s' => reqs s' = reqs s /\ taken (u_sys s') = taken (u_sys s) /\ flying (u_sys s') = flying (u_sys s) /\
  seen (u_sys s') = seen (u_sys s) /\ opened (u_sys s') = opened (u_sys s)) s.
Proof.
  unfold listen_socket. apply wp_bind, uring_wp. intros r x1 (A1 & A2 & A3 & A4 & _)%ur_prepare_spec. destruct (r <? 0); [done|].
  apply wp_bind, uring_wp. intros f x2 (B1 & B2 & B3 & B4 & _)%ur_prepare_spec. apply wp_bind, uring_wp. intros ? x3 (C1 & C2 & C3 & C4 & _)%ur_prepare_spec.
  apply wp_bind, uring_wp. intros ? x4 (D1 & D2 & D3 & D4 & _)%ur_prepare_spec. apply wp_bind, uring_wp. intros q x5 (E1 & E2 & E3 & E4 & _)%ur_prepare_spec.
  cbn in *. destruct (q <? 0); [unfold wp; cbn; repeat split; congruence|].
  apply wp_bind, uring_wp. intros ? x6 (F1 & F2 & F3 & F4 & _)%ur_prepare_spec. unfold wp. cbn in *. repeat split; congruence.
Qed.

Definition op_fd (o : Op) : Z := match o with Accept f => f | Recv f _ _ => f | Send f _ => f end.
Definition is_accept (o : Op) : bool := match o with Accept _ => true | _ => false end.

(** The invariant in terms of the ring. *)
Lemma ring_serves srv s : UInv srv s ->
  exists p0 rest, pending (u_sys s) ≡ₚ mkSqe (Accept srv) p0 :: rest /\ Forall (fun q => is_accept (s_op q) = false) rest /\
    ((fun q => op_fd (s_op q)) <$> rest) ≡ₚ elements (opened (u_sys s)) /\
    NoDup (s_data <$> pending (u_sys s)) /\ (forall p, p ∈ dom (reqs s) <-> p ∈ s_data <$> pending (u_sys s)).
Proof.
  intros [(_ & p0 & H0 & Hf & Ha) [_ HC]]. exists p0, (sqe_of srv <$> map_to_list (delete p0 (reqs s))).
  assert (Hrest : forall e, e ∈ map_to_list (delete p0 (reqs s)) -> type e.2 <> OP_ACCEPT).
  { intros [p r] (Hp & Hr)%elem_of_map_to_list%lookup_delete_Some. by apply (Ha p). }
  assert (Hd : s_data <$> pending (u_sys s) ≡ₚ (map_to_list (reqs s)).*1) by (by rewrite HC, <- list_fmap_compose).
  split; [by rewrite HC, <- (map_to_list_delete (reqs s) p0 _ H0)|]. split; [|split; [|split]].
  - apply Forall_fmap, Forall_forall. intros e He%Hrest. cbn. unfold op_of. by destruct (type e.2).
  - rewrite <- Hf. unfold fds. rewrite <- list_fmap_compose. erewrite list_fmap_ext; [done|]. intros i e He%list_elem_of_lookup_2%Hrest.
    cbn. unfold op_of. by destruct (type e.2).
  - rewrite Hd. apply NoDup_fst_map_to_list.
  - intros p. rewrite Hd, elem_of_dom. split.
    + intros [r Hr]. apply list_elem_of_fmap. exists (p, r). by rewrite elem_of_map_to_list.
    + intros ([p' r] & -> & Hr%elem_of_map_to_list)%list_elem_of_fmap. by exists r.
Qed.

(** With no entry free, accept is not armed again. *)
Lemma full_ring_stops_accepting srv p s : QUEUE_DEPTH <= len (taken (u_sys s)) ->
  exists x, add_accept_request srv p s = Some (tt, mkU x (reqs s) (total_requests s)) /\ pending x = pending (u_sys s).
Proof.
  intros Hl. unfold add_accept_request. assert (W : wp (sys get_sqe) (fun ok s' => ok = false /\ reqs s' = reqs s /\
    total_requests s' = total_requests s /\ pending (u_sys s') = pending (u_sys s)) s).
  { apply uring_wp. intros ok x (-> & Ht & Hf & _)%get_sqe_spec. destruct (Z.ltb_spec (len (taken (u_sys s))) QUEUE_DEPTH); [lia|].
    cbn in *. unfold pending. by rewrite Ht, Hf, app_nil_r. }
  apply wp_run in W as (ok & [x m t] & E & -> & Hm & Ht & Hp). cbn in *. exists x. unfold mbind, ST_bind. rewrite E. cbn. by rewrite Hm, Ht.
Qed.

End Thms.

(** C33. A thread of the io_uring server, with fewer open files allowed than the ring
    has entries and memory to be had, runs for any number of rounds over any
    completions without touching freed memory: accept stays armed, every open
    connection has exactly one operation pending, each of them for another
    request, and there is no request without one; so no connection is forgotten
    and no memory lost. *)
Theorem uring_thread_serves {U : Uring} {UL : UringLaws U} n s :
  open_limit < QUEUE_DEPTH -> (forall x p x', malloc x = (p, x') -> p <> None) ->
  reqs s = ∅ -> taken (u_sys s) = [] -> flying (u_sys s) = [] -> seen (u_sys s) = 0%nat -> opened (u_sys s) = ∅ ->
  exists s', worker_thread (S (Z.to_nat QUEUE_DEPTH)) n s = Some (tt, s') /\
    (pending (u_sys s') = [] /\ reqs s' = ∅ /\ opened (u_sys s') = ∅ \/
     exists srv p0 rest, pending (u_sys s') ≡ₚ mkSqe (Accept srv) p0 :: rest /\ Forall (fun q => is_accept (s_op q) = false) rest /\
       ((fun q => op_fd (s_op q)) <$> rest) ≡ₚ elements (opened (u_sys s')) /\
       NoDup (s_data <$> pending (u_sys s')) /\ (forall p, p ∈ dom (reqs s') <-> p ∈ s_data <$> pending (u_sys s'))).
Proof.
  intros few memory Hm Ht Hf Hs Ho.
  assert (W : wp (worker_thread (S (Z.to_nat QUEUE_DEPTH)) n) (fun _ s' => pending (u_sys s') = [] /\ reqs s' = ∅ /\ opened (u_sys s') = ∅ \/
    exists srv, UInv srv s') s).
  { unfold worker_thread. apply wp_bind. eapply wp_mono; [apply listen_wp|]. intros r s1 (H1 & H2 & H3 & H4 & H5).
    destruct r as [srv|]; [|left; unfold pending; by rewrite H2, H3, Ht, Hf, H1, H5].
    apply wp_bind. unfold get_request. apply wp_bind, uring_wp. intros p x Em. pose proof (memory _ _ _ Em) as Hp.
    destruct (malloc_spec _ _ _ Em) as (M1 & M2 & M3 & M4 & M5). destruct p as [p|]; [|done]. destruct M5 as [M5 M6].
    apply wp_bind, wp_modify, wp_ret, wp_bind. cbn [set_reqs reqs u_sys total_requests]. rewrite H1, Hm, insert_empty.
    apply (rearm_wp few srv); cbn.
    - apply lookup_singleton_eq.
    - split; [rewrite dom_singleton_L, M6; set_solver|]. exists p. split; [apply lookup_singleton_eq|].
      rewrite delete_singleton_eq, M4, H5, Ho. split; [done|]. intros q r Hq. by rewrite lookup_singleton_ne.
    - unfold covers, pending. rewrite M1, M2, H2, H3, Ht, Hf, delete_singleton_eq. split; [constructor|done].
    - intros s2 I2 [S2 _]. cbn in S2. apply wp_bind. eapply wp_mono; [by apply (submit_wp srv 0)|]. intros k s3 [I3 S3].
      eapply wp_mono; [apply (rounds_wp few memory srv); [done|congruence]|]. intros [] s4 I4. right. by exists srv. }
  apply wp_run in W as ([] & s' & E & H). exists s'. split; [done|]. destruct H as [H|[srv H]]; [by left|right].
  exists srv. by apply ring_serves.
Qed.

(** ** A ring that completes everything at once *)

Record Toy := mkToy { t_taken : list (option Sqe); t_flying : list Sqe; t_seen : nat; t_open : gset Z; t_alloc : gset Z; t_clients : nat }.

Definition toy_opened (x : Toy) : gset Z := filter (fun f => 0 <= f < 8) (t_open x).
Definition toy_free (x : Toy) : option Z := List.find (fun f => bool_decide (f ∉ toy_opened x)) [5; 6; 7].

(** What happens to the first operation in flight. *)
Definition toy_complete (x : Toy) : option Cqe * Toy :=
  match t_flying x with
  | [] => (None, x)
  | q :: l =>
    let y := mkToy (t_taken x) l (S (t_seen x)) (t_open x) (t_alloc x) (t_clients x) in
    match s_op q with
    | Accept _ =>
      match t_clients x, toy_free x with
      | S n, Some f => (Some (mkCqe (s_data q) f), mkToy (t_taken x) l (S (t_seen x)) ({[f]} ∪ t_open x) (t_alloc x) n)
      | _, _ => (Some (mkCqe (s_data q) (-11)), y)
      end
    | Recv _ _ _ => (Some (mkCqe (s_data q) 30), y)
    | Send _ l' => (Some (mkCqe (s_data q) (len l')), y)
    end
  end.

#[export] Instance toy_uring : Uring := {|
  ur := Toy;
  ur_prepare c x := (match c with USocket => 3 | _ => 0 end, x);
  get_sqe x :=
    if len (t_taken x) <? QUEUE_DEPTH
    then (true, mkToy (t_taken x ++ [None]) (t_flying x) (t_seen x) (t_open x) (t_alloc x) (t_clients x)) else (false, x);
  fill_sqe s x :=
    mkToy (take (List.length (t_taken x) - 1) (t_taken x) ++ [Some s]) (t_flying x) (t_seen x) (t_open x) (t_alloc x) (t_clients x);
  ur_submit _ x := (len (t_taken x), mkToy [] (t_flying x ++ omap id (t_taken x)) (t_seen x) (t_open x) (t_alloc x) (t_clients x));
  next_cqe := toy_complete;
  cq_advance n x := mkToy (t_taken x) (t_flying x) 0 (t_open x) (t_alloc x) (t_clients x);
  malloc x := let p := fresh (t_alloc x) in (Some p, mkToy (t_taken x) (t_flying x) (t_seen x) (t_open x) ({[p]} ∪ t_alloc x) (t_clients x));
  mfree p x := mkToy (t_taken x) (t_flying x) (t_seen x) (t_open x) (t_alloc x ∖ {[p]}) (t_clients x);
  ur_close f x := mkToy (t_taken x) (t_flying x) (t_seen x) (t_open x ∖ {[f]}) (t_alloc x) (t_clients x)
|}.

#[export] Instance toy_uring_laws : UringLaws toy_uring.
Proof.
  refine {| open_limit := 8; taken := t_taken : @ur toy_uring -> _; flying := t_flying : @ur toy_uring -> _; seen := t_seen : @ur toy_uring -> _;
    opened := toy_opened : @ur toy_uring -> _; allocated := t_alloc : @ur toy_uring -> _ |}; cbn -[toy_opened toy_free fresh toy_complete take].
  - intros x f. unfold toy_opened. by intros [H _]%elem_of_filter.
  - by intros c x n x' [= _ <-].
  - intros x ok x'. destruct (_ <? _); intros [= <- <-]; cbn; rewrite ?app_nil_r; done.
  - intros s x l o ->. rewrite length_app, take_app_length' by (cbn; lia). done.
  - intros w x n x' [= <- <-]. split; [|done]. intros _. exists (List.length (t_taken x)). cbn. by rewrite drop_all, firstn_all.
  - intros x c x'. unfold toy_complete. destruct (t_flying x) as [|q l]; [done|]. destruct (s_op q) eqn:Eo.
    + destruct (t_clients x) as [|n]; [|destruct (toy_free x) as [f|] eqn:E]; intros [= <- <-]; exists q; rewrite Eo; cbn -[toy_opened]; try done.
      split; [done|]. split; [done|]. split; [done|]. split; [done|]. split; [done|].
      apply List.find_some in E as [Hin Hc]. bprop. assert (0 <= f < 8) by (cbn in Hin; lia). rewrite decide_True by lia.
      split; [done|]. unfold toy_opened. cbn. set_solver.
    + intros [= <- <-]. exists q. by rewrite Eo.
    + intros [= <- <-]. exists q. by rewrite Eo.
  - intros x x'. unfold toy_complete. destruct (t_flying x) as [|q l] eqn:E; [by intros [= <-]; rewrite E|].
    destruct (s_op q); [|done..]. destruct (t_clients x); [done|]. by destruct (toy_free x).
  - done.
  - intros x p x' [= <- <-]. cbn. repeat split; try done. apply is_fresh.
  - done.
  - intros f x. unfold toy_opened. cbn. set_solver.
Defined.

Definition toy_start : UState (U := toy_uring) := mkU (U := toy_uring) (mkToy [] [] 0 ∅ ∅ 2) ∅ 0.

(** Two clients, five rounds: each has an operation pending, and so has accept. *)
Lemma uring_thread_serves_witness : exists s', worker_thread (U := toy_uring) (S (Z.to_nat QUEUE_DEPTH)) 5 toy_start = Some (tt, s') /\
  List.length (pending (u_sys s')) = 3%nat /\ NoDup (s_data <$> pending (u_sys s')).
Proof.
  destruct (uring_thread_serves (U := toy_uring) (UL := toy_uring_laws) 5 toy_start) as (s' & E & H).
  - reflexivity.
  - intros x p x' [= <- _]. discriminate.
  - reflexivity.
  - reflexivity.
  - reflexivity.
  - reflexivity.
  - vm_compute. reflexivity.
  - exists s'. split; [exact E|].
    assert (L : List.length (pending (UL := toy_uring_laws) (u_sys s')) = 3%nat).
    { transitivity (match worker_thread (U := toy_uring) (S (Z.to_nat QUEUE_DEPTH)) 5 toy_start with
        Some (_, s) => List.length (pending (UL := toy_uring_laws) (u_sys s)) | None => 0%nat end); [by rewrite E|vm_compute; reflexivity]. }
    split; [exact L|]. destruct H as [(H & _)|(srv & p0 & rest & _ & _ & _ & H & _)]; [by rewrite H in L|exact H].
Defined.

End RsUring.
